(* ===== verification/_CoqProject ===== *)
-Q . S2P
Prelude.v
Params.v
Disk.v
Bio.v
BioSpec.v
Layout.v
Log.v
LogSpec.v
LogCrash.v
Strings.v
Kalloc.v
Pipe.v
Spinlock.v
TxStore.v
Fs.v
FsBlocks.v
FsFile.v
FsInode.v
FsRw.v
FsDemo.v
Ulib.v
Console.v
ConsoleSpec.v
Umalloc.v
UmallocSpec.v
Grep.v
Proc.v
ProcInv.v
ProcSleep.v
ProcSpec.v
ProcSched.v
ProcDemo.v
Vm.v
VmSpec.v
VmUser.v
VmDemo.v
Sh.v
ShSpec.v
ShPrint.v
ShRun.v
Syscall.v
File.v
Sysfile.v
SysfileInv.v
Kernel.v
Trap.v
TrapSpec.v
Exec.v
ExecSpec.v
ExecStack.v
ExecDemo.v
Mkfs.v
MkfsSpec.v
MkfsImage.v
MkfsMain.v
User.v
UserSpec.v
UserInit.v
Xvsh.v
XvshSpec.v
Ide.v
IdeSpec.v
Mp.v
MpSpec.v
Boot.v
BootSpec.v
Devices.v
DevicesSpec.v
Tests.v
System.v
