(* ===== verification/Prelude.v ===== *)
(** * xv6 (CS350P1): verification development

    The program is a fork of the xv6 teaching kernel for the 32-bit x86: a Unix
    kernel in C with its boot loader, the tool that builds the disk image, the
    user library, two shells and the user programs.  This development embeds its
    C code as functions on explicit states and proves what makes each part
    correct.

    ** The machine model

    C integers are [Z] with the wrap-around written out ([u8], [u16], [u32],
    [i16], [i32]); memory is a function from addresses to bytes ([Strings.mem]).
    Kernel code runs in the monad [M S A] of this file: from a state [S] a
    computation returns ([Ok]), panics with the message of the source, gives up
    the CPU ([Sleep], where the code calls [sleep] or [sched]) or, in a loop,
    runs out of fuel.  [wp] is total correctness (returns, with the
    postcondition), [wps] allows a sleep, [may] is the partial reading used for
    invariants, [stable] says that an invariant holds where a computation
    returns and where it sleeps.  User programs are interaction trees over the
    system calls ([User.sysE]), so that programs that run forever are covered;
    [UserSpec.uwp] is their total correctness against a kernel that may answer
    in several ways.  Devices are parameters: a class of ports or registers
    ([Ide.Ports], [Devices.Mmio]) with the documented behaviour as laws ([Ata],
    [Polled], [Pics], [IoApicDev], [Rtc]), each with a simulated device that
    meets them.

    ** Parts, and the files that model them

    - Disk and buffers.  [Disk]: memide.c behind the class [Driver] (what bio.c
      expects of a disk driver).  [Ide], [IdeSpec]: ide.c over the ports of the
      controller, and a queue of requests.  [Bio]: bio.c, the LRU buffer cache.
      [BioSpec]: the class [BlockStore], an abstract cache, and the proof that
      bio.c over any driver refines it.
    - Log.  [Layout]: the on-disk formats.  [Log]: log.c over any block store.
      [LogSpec]: the routines on every branch.  [LogCrash]: a crash at any write
      of a commit, or of a recovery, leaves the transaction done or undone.
      [TxStore]: the class [TxStore] that fs.c relies on, and that log.c
      implements it.
    - File system.  [Fs]: fs.c over any [TxStore].  [FsBlocks]: balloc, bfree.
      [FsFile]: bmap.  [FsInode]: inode blocks.  [FsRw]: readi and writei against
      the contents of a file.  [FsDemo]: a concrete image.  [Mkfs], [MkfsSpec],
      [MkfsImage], [MkfsMain]: mkfs.c and the image it builds.
    - Files and system calls.  [File]: file.c and pipealloc over the class
      [FileApi]; [Syscall]: argument fetching of syscall.c; [Sysfile]: sysfile.c;
      [SysfileInv]: reference counts of open files; [Kernel]: fs.c over log.c,
      pipe.c and kalloc.c together implement [FileApi].  [Trap], [TrapSpec]:
      trap.c, sysproc.c and the dispatch of syscall.c over the class [Handlers].
    - Memory.  [Strings]: string.c.  [Kalloc]: kalloc.c.  [Vm], [VmSpec],
      [VmUser], [VmDemo]: vm.c, page tables as words of the memory of kalloc.c;
      [owns] accounts for every page of the allocator.  [Exec], [ExecSpec],
      [ExecStack], [ExecDemo]: exec.c and elf.h.
    - Processes.  [Spinlock]: spinlock.c with the processors interleaved.
      [Proc]: proc.c over the class [Services]; [ProcInv]: the invariant of the
      process table; [ProcSleep]: no lost wakeup; [ProcSpec]: exit and wait;
      [ProcSched]: the scheduler; [ProcDemo]: concrete runs.  [Pipe]: pipe.c.
    - Devices.  [Console], [ConsoleSpec]: console.c, kbd.c and kbd.h.  [Devices],
      [DevicesSpec]: picirq.c, ioapic.c, timer.c, lapic.c, uart.c.  [Mp],
      [MpSpec]: mp.c.  [Boot], [BootSpec]: bootmain.c.
    - User programs.  [Ulib]: ulib.c and printf.c.  [Umalloc], [UmallocSpec]:
      umalloc.c.  [Grep]: grep.c.  [Sh], [ShSpec], [ShPrint], [ShRun]: sh.c, its
      parser and the processes it wires together.  [Xvsh], [XvshSpec]: xvsh.c.
      [User], [UserSpec], [UserInit]: cat, wc, echo, ls, mkdir, rm, ln, kill,
      init, zombie, sleep-echo and uprog_shut.  [Tests]: the tests of usertests.c
      that use only the file system.
    - [System]: mkfs.c, memide.c, bio.c, log.c, fs.c, file.c and sysfile.c put
      together, with user programs on top.

    ** What the theorems show

    Storage: a commit is atomic under crashes, repeated crashes of the recovery
    included ([log_crash_atomic], [log_reboots_atomic]); the cache behaves as a
    store ([bio_refines]); log.c gives transactions the latest contents
    ([log_tx_refines]), but admits more than the log holds
    ([reservation_short]); writei and readi implement an array of bytes with
    holes and end of file ([writei_spec], [readi_spec], [writei_readi]) on top of
    block allocation that never hands out a block twice ([balloc_spec],
    [bmap_spec]); the image of mkfs meets the invariants of the kernel
    ([mkfs_spec]); the disk driver serves its queue in order ([ide_refines],
    [ide_fifo]).

    Processes: the invariant of the process table over all interleavings
    ([ptable_invariant]), no lost wakeup under the interleavings of the critical
    sections of sleep and wakeup, a fair scheduler turn on one CPU, exit and wait
    on every branch; mutual exclusion of spin locks; pipes are FIFO.  Traps: a
    killed process does not return to user space ([trap_safe]); sleep counts
    ticks ([clock_spec]).

    Memory: the free list is a stack of distinct pages ([kalloc_refines]);
    allocuvm, copyuvm, freevm and copyout on the page tables bit by bit, without
    leaks; exec builds the image and the stack that main finds ([exec_spec]) and
    is all or nothing ([exec_fails_clean]).  The memory these two theorems ask
    for is 65 pages for the directory and the tables of the kernel part, the
    pages of the program and two for the stack, and their tables; with less,
    setupkvm and allocuvm lose pages.

    System calls: arguments stay inside the process ([arg_safe]); reference
    counts of files are exact ([files_refcount]).

    Devices: the console is a line discipline ([console_refines]); the keyboard
    decoder follows the keys ([kbdgetc_refines]); the interrupt controllers route
    what was enabled; cmostime returns a date that the clock showed
    ([cmostime_spec]); mpinit reads the processor tables ([mpinit_spec]), and
    loops on an unknown entry ([mpinit_stuck]); the boot loader loads the kernel
    ([bootmain_spec]).

    User programs: the parser of sh terminates, reads back a printed command and
    runcmd wires the processes as the command says; xvsh and its children run
    the words of a line ([xvsh_session]); init keeps a shell running forever
    ([init_stays]); the output of cat, wc, echo and ls; malloc; the regular
    expression matcher decides its declarative meaning; printf and atoi.
    [System] evaluates tests of usertests.c and a series of commands on the
    whole file system.

    A property with hypotheses is followed by a [_witness] lemma, in its file or
    in the demonstration file of its part, that applies it to a concrete state.

    ** Bounds and fuel

    A [loop] is given a fuel that the theorems show sufficient: the number of
    list entries, bytes, pages or blocks it walks over, plus one or two.  The
    recursive descent of sh gets [Sh.depth], three levels for each byte of the
    line.  Loops that poll a device get [polls] turns; the laws of the device
    bound the polls it needs ([Polled], [Ata]), and for the clock two turns more
    than an update has accesses are enough.  In [mpinit_stuck] no fuel is.

    ** Not modelled

    Assembly and main.c; the segment registers and descriptors set by vm.c, and
    lidt; procdump; the tests that fork, exec or use pipes; header files of
    declarations.  Messages printed by mkfs, mpinit and the device set-up are
    left out.  A computation that sleeps ends there: the continuation of a
    sleeping system call is modelled for sleep, wait, begin_op, bget, ilock,
    iderw, the console, the pipes and the closing of files by exit (where the
    woken process runs the call again or goes on from a known point), and not for
    the other calls of sysfile.c. *)

From Stdlib Require Export ZArith Lia.
From stdpp Require Export base numbers strings gmap list.
Export list_basics.list list_relations.list.

Declare Scope xv6_scope.
Delimit Scope xv6_scope with xv6.
Open Scope Z_scope.

(** ** Machine integers

    The kernel runs on a 32-bit x86.  A [uint] is a [Z] kept in
    [0 <= x < 2^32], an [int] is read back with [i32]; [uchar] and [ushort]
    are the 8- and 16-bit truncations. *)

Definition u8 (x : Z) : Z := x mod 2 ^ 8.
Definition u16 (x : Z) : Z := x mod 2 ^ 16.
Definition u32 (x : Z) : Z := x mod 2 ^ 32.
Definition i8 (x : Z) : Z := (x + 2 ^ 7) mod 2 ^ 8 - 2 ^ 7.
Definition i16 (x : Z) : Z := (x + 2 ^ 15) mod 2 ^ 16 - 2 ^ 15.
Definition i32 (x : Z) : Z := (x + 2 ^ 31) mod 2 ^ 32 - 2 ^ 31.

(** [lia] after turning [/] and [mod] by literals into equations. *)
Ltac zlia := Z.to_euclidean_division_equations; lia.

(** Unfold the machine-integer wrappers, then [zlia]. *)
Ltac ulia := unfold u8, u16, u32, i8, i16, i32 in *; zlia.

Lemma u8_range x : 0 <= u8 x < 256.
Proof. ulia. Qed.
Lemma u16_range x : 0 <= u16 x < 65536.
Proof. ulia. Qed.
Lemma u32_range x : 0 <= u32 x < 4294967296.
Proof. ulia. Qed.
Lemma u8_id x : 0 <= x < 256 -> u8 x = x.
Proof. intros. apply Z.mod_small. lia. Qed.
Lemma u16_id x : 0 <= x < 65536 -> u16 x = x.
Proof. intros. apply Z.mod_small. lia. Qed.
Lemma u32_id x : 0 <= x < 4294967296 -> u32 x = x.
Proof. intros. apply Z.mod_small. lia. Qed.
Lemma i32_id x : - 2147483648 <= x < 2147483648 -> i32 x = x.
Proof. ulia. Qed.
Lemma i16_u16 x : i16 (u16 x) = i16 x.
Proof. ulia. Qed.
Lemma i16_id x : - 32768 <= x < 32768 -> i16 x = x.
Proof. ulia. Qed.
Lemma u32_add_l x y : u32 (u32 x + y) = u32 (x + y).
Proof. apply Zplus_mod_idemp_l. Qed.
Lemma u32_add_r x y : u32 (x + u32 y) = u32 (x + y).
Proof. apply Zplus_mod_idemp_r. Qed.
Lemma i32_u32 x : - 2147483648 <= x < 2147483648 -> i32 (u32 x) = x.
Proof. ulia. Qed.

(** A mask test [x & m], read as a C condition. *)
Definition has (x m : Z) : bool := negb (Z.land x m =? 0).
(** [x &= ~m]. *)
Definition clr (x m : Z) : Z := Z.land x (Z.lnot m).

Lemma land_pow2 x n : 0 <= n -> Z.land x (2 ^ n) = if Z.testbit x n then 2 ^ n else 0.
Proof.
  intros Hn. apply Z.bits_inj'. intros i Hi. rewrite Z.land_spec, Z.pow2_bits_eqb by done.
  destruct (Z.eqb_spec n i) as [->|].
  - destruct (Z.testbit x i); by rewrite ?Z.pow2_bits_true, ?Z.bits_0.
  - rewrite andb_false_r. destruct (Z.testbit x n); [|by rewrite Z.bits_0].
    by rewrite Z.pow2_bits_false.
Qed.

(** A single-bit mask test reads that bit. *)
Lemma has_pow2 x n : 0 <= n -> has x (2 ^ n) = Z.testbit x n.
Proof.
  intros Hn. unfold has. rewrite land_pow2 by done.
  destruct (Z.testbit x n); [|done].
  destruct (Z.eqb_spec (2 ^ n) 0); [|done]. pose proof (Z.pow_pos_nonneg 2 n). lia.
Qed.

Lemma clr_pow2_bit x n i : 0 <= n -> 0 <= i ->
  Z.testbit (clr x (2 ^ n)) i = if decide (i = n) then false else Z.testbit x i.
Proof.
  intros. unfold clr. rewrite Z.land_spec, Z.lnot_spec, Z.pow2_bits_eqb by done.
  case_decide; destruct (Z.eqb_spec n i); subst; try congruence;
    by rewrite ?andb_false_r, ?andb_true_r.
Qed.

Lemma lor_pow2_bit x n i : 0 <= n -> 0 <= i ->
  Z.testbit (Z.lor x (2 ^ n)) i = if decide (i = n) then true else Z.testbit x i.
Proof.
  intros. rewrite Z.lor_spec, Z.pow2_bits_eqb by done.
  case_decide; destruct (Z.eqb_spec n i); subst; try congruence;
    by rewrite ?orb_false_r, ?orb_true_r.
Qed.

(** A value put above [k] low bits. *)
Lemma shl_lor k h l : 0 <= k -> 0 <= l < 2 ^ k -> Z.lor (Z.shiftl h k) l = h * 2 ^ k + l.
Proof.
  intros Hk Hl. assert (Z.land (Z.shiftl h k) l = 0).
  { apply Z.bits_inj'. intros n Hn. rewrite Z.land_spec, Z.bits_0. destruct (Z.lt_ge_cases n k).
    - by rewrite Z.shiftl_spec_low.
    - destruct (Z.eq_dec l 0) as [->|]; [by rewrite Z.bits_0, andb_false_r|]. rewrite (Z.bits_above_log2 l n), andb_false_r; [done|lia|].
      apply Z.log2_lt_pow2; [lia|]. pose proof (Z.pow_le_mono_r 2 k n). lia. }
  rewrite <- Z.lxor_lor, <- Z.add_nocarry_lxor by done. by rewrite Z.shiftl_mul_pow2.
Qed.

(** ** Kernel computations

    A kernel routine runs on an explicit state.  It returns a value, panics
    (the machine stops, [console.c:panic]), or reaches a call of [sleep] and
    gives up the CPU on a channel.  [OutOfFuel] marks a bounded loop of the
    model whose bound was too small; the theorems rule it out. *)

Inductive outcome (S A : Type) : Type :=
| Ok (a : A) (s : S)
| Panic (msg : string)
| Sleep (chan : Z) (s : S)
| OutOfFuel.
Arguments Ok {S A} a s.
Arguments Panic {S A} msg.
Arguments Sleep {S A} chan s.
Arguments OutOfFuel {S A}.

Definition M (S A : Type) : Type := S -> outcome S A.

Definition ret {S A} (a : A) : M S A := fun s => Ok a s.
Definition bind {S A B} (m : M S A) (k : A -> M S B) : M S B := fun s =>
  match m s with
  | Ok a s' => k a s'
  | Panic msg => Panic msg
  | Sleep c s' => Sleep c s'
  | OutOfFuel => OutOfFuel
  end.
Definition get {S} : M S S := fun s => Ok s s.
Definition gets {S A} (f : S -> A) : M S A := fun s => Ok (f s) s.
Definition modify {S} (f : S -> S) : M S unit := fun s => Ok tt (f s).
Definition panic {S A} (msg : string) : M S A := fun _ => Panic msg.
Definition sleep_on {S A} (chan : Z) : M S A := fun s => Sleep chan s.

Notation "x <-- m ;; k" := (bind m (fun x => k))
  (at level 100, m at next level, right associativity) : xv6_scope.
Notation "m ;;; k" := (bind m (fun _ => k))
  (at level 100, right associativity) : xv6_scope.
Notation "'if!' b 'then' m" := (if b then m else ret tt)
  (at level 99, b at level 99, m at level 99) : xv6_scope.
Open Scope xv6_scope.

(** A loop with a bound: [body i] either continues with the next loop state
    or leaves the loop with a result ([break], [return]). *)
Fixpoint loop {S I R} (fuel : nat) (body : I -> M S (I + R)) (i : I) : M S R :=
  match fuel with
  | O => fun _ => OutOfFuel
  | Datatypes.S n =>
      r <-- body i ;;
      match r with
      | inl i' => loop n body i'
      | inr x => ret x
      end
  end.

(** [for (x in l) body], no early exit. *)
Fixpoint for_each {S A} (l : list A) (body : A -> M S unit) : M S unit :=
  match l with
  | [] => ret tt
  | x :: l' => body x ;;; for_each l' body
  end.

(** Run a computation on one part of a larger state. *)
Definition zoom {S T A} (get_ : T -> S) (set_ : S -> T -> T) (m : M S A) : M T A :=
  fun t => match m (get_ t) with
           | Ok a s => Ok a (set_ s t)
           | Panic msg => Panic msg
           | Sleep c s => Sleep c (set_ s t)
           | OutOfFuel => OutOfFuel
           end.

(** ** Total correctness

    [wp m Q s]: from [s], [m] returns (it neither panics, sleeps nor runs out
    of fuel) and its value and final state satisfy [Q]. *)

Definition wp {S A} (m : M S A) (Q : A -> S -> Prop) (s : S) : Prop :=
  match m s with Ok a s' => Q a s' | _ => False end.

Section wp.
Context {S : Type}.

Lemma wp_ok {A} (m : M S A) Q s :
  wp m Q s <-> exists a s', m s = Ok a s' /\ Q a s'.
Proof.
  unfold wp. split.
  - destruct (m s); try done. eauto.
  - intros (a & s' & -> & HQ). done.
Qed.

Lemma wp_bind {A B} (m : M S A) (k : A -> M S B) Q s :
  wp m (fun a s' => wp (k a) Q s') s -> wp (bind m k) Q s.
Proof. unfold wp, bind. by destruct (m s). Qed.

Lemma wp_bind_inv {A B} (m : M S A) (k : A -> M S B) Q s :
  wp (bind m k) Q s -> wp m (fun a s' => wp (k a) Q s') s.
Proof. unfold wp, bind. by destruct (m s). Qed.

Lemma wp_mono {A} (m : M S A) (Q Q' : A -> S -> Prop) s :
  wp m Q s -> (forall a s', Q a s' -> Q' a s') -> wp m Q' s.
Proof. unfold wp. destruct (m s); naive_solver. Qed.

Lemma wp_and {A} (m : M S A) (Q Q' : A -> S -> Prop) s :
  wp m Q s -> wp m Q' s -> wp m (fun a s' => Q a s' /\ Q' a s') s.
Proof. unfold wp. destruct (m s); naive_solver. Qed.

Lemma wp_ret {A} (a : A) (Q : A -> S -> Prop) s : Q a s -> wp (ret a) Q s.
Proof. done. Qed.
Lemma wp_get (Q : S -> S -> Prop) s : Q s s -> wp get Q s.
Proof. done. Qed.
Lemma wp_gets {A} (f : S -> A) (Q : A -> S -> Prop) s : Q (f s) s -> wp (gets f) Q s.
Proof. done. Qed.
Lemma wp_modify (f : S -> S) (Q : unit -> S -> Prop) s : Q tt (f s) -> wp (modify f) Q s.
Proof. done. Qed.

(** Loop rule: an invariant indexed by the iterations left. *)
Lemma wp_loop {I R} (body : I -> M S (I + R)) (Inv : nat -> I -> S -> Prop)
    (Q : R -> S -> Prop) :
  (forall n i s, Inv n i s ->
     wp (body i) (fun r s' =>
       match r with
       | inl i' => exists n', (n' < n)%nat /\ Inv n' i' s'
       | inr x => Q x s'
       end) s) ->
  forall fuel n i s, (n < fuel)%nat -> Inv n i s -> wp (loop fuel body i) Q s.
Proof.
  intros Hbody fuel. induction fuel as [|fuel IH]; intros n i s Hlt HI; [lia|].
  simpl. apply wp_bind. eapply wp_mono; [by apply Hbody|].
  intros [i'|x] s'; [|by intros].
  intros (n' & Hn' & HI'). eapply IH; [|done]. lia.
Qed.

(** Rule for [for_each]: an invariant over the part already visited. *)
Lemma wp_for_each {A} (body : A -> M S unit) (Inv : list A -> S -> Prop) l :
  (forall visited x rest s, l = visited ++ x :: rest -> Inv visited s ->
     wp (body x) (fun _ s' => Inv (visited ++ [x]) s') s) ->
  forall s, Inv [] s -> wp (for_each l body) (fun _ s' => Inv l s') s.
Proof.
  intros Hbody.
  enough (H : forall rest visited s, l = visited ++ rest -> Inv visited s ->
    wp (for_each rest body) (fun _ s' => Inv l s') s)
    by (intros s HI; by apply (H l [])).
  induction rest as [|x rest IH]; intros visited s Hl HI; simpl.
  - rewrite app_nil_r in Hl. subst. by apply wp_ret.
  - apply wp_bind. eapply wp_mono; [by eapply Hbody|].
    intros [] s' HI'. apply (IH (visited ++ [x])); [|done].
    by rewrite <-app_assoc.
Qed.

(** [for (i = 0; i < n; i++)]: an invariant indexed by the counter. *)
Lemma wp_for_seq (body : nat -> M S unit) (Inv : nat -> S -> Prop) n :
  (forall i s, (i < n)%nat -> Inv i s -> wp (body i) (fun _ s' => Inv (Datatypes.S i) s') s) ->
  forall s, Inv O s -> wp (for_each (seq 0 n) body) (fun _ s' => Inv n s') s.
Proof.
  intros Hbody s HI.
  eapply wp_mono; [apply (wp_for_each _ (fun v s => Inv (length v) s))|]; [|done|].
  - intros v i rest s' Hl HI'. rewrite length_app, Nat.add_1_r.
    assert (Hi : seq 0 n !! length v = Some i) by (by rewrite Hl, list_lookup_middle).
    apply lookup_seq in Hi as [-> Hi]. rewrite Nat.add_0_l. by apply Hbody.
  - intros [] s'. by rewrite length_seq.
Qed.
End wp.

Lemma wp_zoom {S T A} (g : T -> S) (st : S -> T -> T) (m : M S A) Q t :
  wp m (fun a s => Q a (st s t)) (g t) -> wp (zoom g st m) Q t.
Proof. unfold wp, zoom. by destruct (m (g t)). Qed.

(** [panics m msg s]: from [s], [m] stops the machine with message [msg]. *)
Definition panics {S A} (m : M S A) (msg : string) (s : S) : Prop := m s = Panic msg.

Lemma panics_bind {S A B} (m : M S A) (k : A -> M S B) msg s :
  wp m (fun a s' => panics (k a) msg s') s -> panics (bind m k) msg s.
Proof. unfold wp, panics, bind. by destruct (m s). Qed.
Lemma panics_here {S A B} (m : M S A) (k : A -> M S B) msg s :
  panics m msg s -> panics (bind m k) msg s.
Proof. unfold panics, bind. by intros ->. Qed.

(** Decompose one monadic step of the goal. *)
Ltac wp_step :=
  lazymatch goal with
  | |- wp (bind _ _) _ _ => apply wp_bind
  | |- wp (ret _) _ _ => apply wp_ret
  | |- wp get _ _ => apply wp_get
  | |- wp (gets _) _ _ => apply wp_gets
  | |- wp (modify _) _ _ => apply wp_modify
  | |- wp (zoom _ _ _) _ _ => apply wp_zoom
  | |- wp (if true then ?m else _) ?Q ?s => change (wp m Q s)
  | |- wp (if false then _ else ?m) ?Q ?s => change (wp m Q s)
  | |- wp (if ?b then _ else _) _ _ => destruct b eqn:?
  end.
Ltac wp_steps := repeat wp_step.

(** ** Byte and list helpers *)

Lemma elem_of_removelast {A} (x : A) l : x ∈ removelast l -> x ∈ l.
Proof.
  induction l as [|a [|b l] IH]; [done|set_solver|].
  change (removelast (a :: b :: l)) with (a :: removelast (b :: l)).
  rewrite !elem_of_cons in *. tauto.
Qed.

Lemma filter_ext_elem {A} (P Q : A -> Prop) `{!forall x, Decision (P x), !forall x, Decision (Q x)} (l : list A) :
  (forall x, x ∈ l -> P x <-> Q x) -> filter P l = filter Q l.
Proof.
  induction l as [|x l IH]; intros Hl; [done|]. rewrite !filter_cons.
  rewrite IH by (intros; apply Hl; by right). specialize (Hl x ltac:(by left)).
  destruct (decide (P x)), (decide (Q x)); tauto || done.
Qed.

(** The last element of a list that satisfies a test. *)
Lemma exists_last_such {A} (P : A -> bool) l :
  (exists x, x ∈ l /\ P x = true) ->
  exists l1 x l2, l = l1 ++ x :: l2 /\ P x = true /\ forall y, y ∈ l2 -> P y = false.
Proof.
  induction l as [|a l IH]; intros (x & Hx & HP); [by apply elem_of_nil in Hx|].
  destruct (existsb P l) eqn:E.
  - apply existsb_exists in E as (y & Hy & HPy).
    destruct IH as (l1 & z & l2 & -> & ? & ?); [exists y; by rewrite list_elem_of_In|].
    by exists (a :: l1), z, l2.
  - assert (Hl : forall y, y ∈ l -> P y = false).
    { intros y Hy. destruct (P y) eqn:HPy; [|done].
      rewrite <-E. symmetry. apply existsb_exists. exists y. by rewrite <-list_elem_of_In. }
    apply elem_of_cons in Hx as [->|Hx]; [by exists [], a, l|]. by rewrite Hl in HP.
Qed.

(** A duplicate-free list inside a finite set is no longer than the set. *)
Lemma nodup_le_size {A} `{Countable A} (l : list A) (X : gset A) :
  NoDup l -> (forall x, x ∈ l -> x ∈ X) -> (length l <= size X)%nat.
Proof.
  intros Hl HX. rewrite <-(size_list_to_set (C := gset A)) by done.
  apply subseteq_size. intros x. rewrite elem_of_list_to_set. apply HX.
Qed.

(** [l] with the bytes from offset [n] on replaced by [l'], truncated to the
    length of [l] (a C copy into an array). *)
Definition splice (n : nat) (l' l : list Z) : list Z :=
  take n l ++ take (length l - n) l' ++ drop (n + length l') l.

Lemma length_splice n l' l : (n <= length l)%nat -> length (splice n l' l) = length l.
Proof.
  intros. unfold splice. rewrite !length_app, !length_take, length_drop. lia.
Qed.

(** Little-endian encoding of the low [n] bytes of [x]. *)
Fixpoint le_bytes (n : nat) (x : Z) : list Z :=
  match n with
  | O => []
  | Datatypes.S n' => u8 x :: le_bytes n' (x / 256)
  end.
Fixpoint le_value (l : list Z) : Z :=
  match l with
  | [] => 0
  | b :: l' => b + 256 * le_value l'
  end.

Lemma length_le_bytes n x : length (le_bytes n x) = n.
Proof. revert x. induction n; intros; simpl; auto. Qed.

Lemma le_value_bytes n x : le_value (le_bytes n x) = x mod 256 ^ Z.of_nat n.
Proof.
  revert x. induction n as [|n IH]; intros x.
  - simpl. by rewrite Z.mod_1_r.
  - cbn [le_bytes le_value]. rewrite IH, Nat2Z.inj_succ, Z.pow_succ_r by lia.
    rewrite Z.rem_mul_r by (try apply Z.pow_nonzero; lia).
    unfold u8. change (2 ^ 8) with 256. lia.
Qed.

Lemma le_bytes_range n x : Forall (fun b => 0 <= b < 256) (le_bytes n x).
Proof. revert x. induction n; intros; simpl; constructor; auto. apply u8_range. Qed.

(** The bytes of a string literal. *)
Definition str (s : string) : list Z :=
  map (fun c => Z.of_N (Ascii.N_of_ascii c)) (String.list_ascii_of_string s).

(** [wps m Q R s]: from [s], [m] returns with [Q] or gives up the CPU with [R]. *)
Definition wps {S A} (m : M S A) (Q : A -> S -> Prop) (R : Z -> S -> Prop) (s : S) : Prop :=
  match m s with Ok a s' => Q a s' | Sleep c s' => R c s' | _ => False end.
Lemma wps_bind {S A B} (m : M S A) (k : A -> M S B) Q R s :
  wp m (fun a s' => wps (k a) Q R s') s -> wps (bind m k) Q R s.
Proof. unfold wp, wps, bind. by destruct (m s). Qed.
Lemma wps_bind_sleep {S A B} (m : M S A) (k : A -> M S B) Q R s :
  wps m (fun _ _ => False) R s -> wps (bind m k) Q R s.
Proof. unfold wps, bind. by destruct (m s). Qed.
Lemma wps_wp {S A} (m : M S A) Q R s : wp m Q s -> wps m Q R s.
Proof. unfold wp, wps. by destruct (m s). Qed.

(** ** Partial correctness

    [may m Q R s]: if [m] returns from [s] then [Q] holds of its value and
    final state; if it gives up the CPU then [R] holds of the state. *)
Definition may {S A} (m : M S A) (Q : A -> S -> Prop) (R : S -> Prop) (s : S) : Prop :=
  match m s with
  | Ok a s' => Q a s'
  | Sleep _ s' => R s'
  | _ => True
  end.

(** A computation that never gives up the CPU. *)
Definition awake {S A} (m : M S A) : Prop := forall s c s', m s <> Sleep c s'.

Lemma awake_bind {S A B} (m : M S A) (k : A -> M S B) : awake m -> (forall a, awake (k a)) -> awake (bind m k).
Proof. intros Hm Hk s c s' H. unfold bind in H. destruct (m s) eqn:E; try done; [by eapply Hk|]. by eapply Hm. Qed.
Lemma awake_zoom {S T A} (g : T -> S) (st : S -> T -> T) (m : M S A) : awake m -> awake (zoom g st m).
Proof. intros Hm t c t' H. unfold zoom in H. destruct (m (g t)) eqn:E; try done. by eapply Hm. Qed.
(** Follow the structure of a computation down to steps that do not sleep. *)
Ltac awake :=
  repeat (first [ done | apply awake_bind; [|intros ?] | apply awake_zoom
                | match goal with
                  | |- awake (if ?b then _ else _) => destruct b
                  | |- awake (match ?x with _ => _ end) => destruct x
                  end ]).

Section may.
Context {S : Type}.
Lemma may_bind {A B} (m : M S A) (k : A -> M S B) Q R s :
  may m (fun a s' => may (k a) Q R s') R s -> may (bind m k) Q R s.
Proof. unfold may, bind. by destruct (m s). Qed.
Lemma may_mono {A} (m : M S A) (Q Q' : A -> S -> Prop) (R R' : S -> Prop) s :
  may m Q R s -> (forall a s', Q a s' -> Q' a s') -> (forall s', R s' -> R' s') -> may m Q' R' s.
Proof. unfold may. destruct (m s); naive_solver. Qed.
Lemma may_wp {A} (m : M S A) Q R s : wp m Q s -> may m Q R s.
Proof. unfold wp, may. by destruct (m s). Qed.
Lemma may_ret {A} (a : A) (Q : A -> S -> Prop) R s : Q a s -> may (ret a) Q R s.
Proof. done. Qed.
Lemma may_get (Q : S -> S -> Prop) R s : Q s s -> may get Q R s.
Proof. done. Qed.
Lemma may_gets {A} (f : S -> A) (Q : A -> S -> Prop) R s : Q (f s) s -> may (gets f) Q R s.
Proof. done. Qed.
Lemma may_modify (f : S -> S) (Q : unit -> S -> Prop) R s : Q tt (f s) -> may (modify f) Q R s.
Proof. done. Qed.
Lemma may_panic {A} msg (Q : A -> S -> Prop) R s : may (panic msg) Q R s.
Proof. done. Qed.
Lemma may_ok {A} (m : M S A) Q R s a s' : may m Q R s -> m s = Ok a s' -> Q a s'.
Proof. unfold may. intros H E. by rewrite E in H. Qed.
Lemma may_sleep {A} (m : M S A) Q R s c s' : may m Q R s -> m s = Sleep c s' -> R s'.
Proof. unfold may. intros H E. by rewrite E in H. Qed.
Lemma may_for_each {A} (body : A -> M S unit) (I R : S -> Prop) l :
  (forall x s, x ∈ l -> I s -> may (body x) (fun _ => I) R s) ->
  forall s, I s -> may (for_each l body) (fun _ => I) R s.
Proof.
  induction l as [|x l IH]; intros Hb s Hs; [done|]. apply may_bind.
  eapply may_mono; [apply Hb; [by left|done]| |done]. intros [] s' Hs'. apply IH; [|done].
  intros y s'' Hy. apply Hb. by right.
Qed.
Lemma may_for_seq (body : nat -> M S unit) (Inv : nat -> S -> Prop) R n :
  (forall i s, (i < n)%nat -> Inv i s -> may (body i) (fun _ s' => Inv (Datatypes.S i) s') R s) ->
  forall s, Inv O s -> may (for_each (seq 0 n) body) (fun _ s' => Inv n s') R s.
Proof.
  intros Hb. enough (H : forall m i s, (i + m = n)%nat -> Inv i s -> may (for_each (seq i m) body) (fun _ s' => Inv n s') R s)
    by (intros s HI; by apply (H n O)).
  induction m as [|m IH]; intros i s Hn HI; cbn.
  - rewrite Nat.add_0_r in Hn. by subst.
  - apply may_bind. eapply may_mono; [apply Hb; [lia|done]| |done]. intros [] s' HI'. apply IH; [lia|done].
Qed.
End may.
Lemma may_zoom_awake {S T A} (g : T -> S) (st : S -> T -> T) (m : M S A) Q R t :
  awake m -> (forall a e, Q a (st e t)) -> may (zoom g st m) Q R t.
Proof. intros Hm HQ. unfold may, zoom. destruct (m (g t)) eqn:Em; try done. by destruct (Hm _ _ _ Em). Qed.
Lemma may_zoom {S T A} (g : T -> S) (st : S -> T -> T) (m : M S A) Q R t :
  (forall a e, Q a (st e t)) -> (forall e, R (st e t)) -> may (zoom g st m) Q R t.
Proof. intros HQ HR. unfold may, zoom. by destruct (m (g t)). Qed.

(** [m] keeps the invariant [I], where it returns and where it sleeps. *)
Definition stable {S A} (I : S -> Prop) (m : M S A) : Prop := forall s, I s -> may m (fun _ => I) I s.
Section stable.
Context {S : Type} (I : S -> Prop).
Lemma stable_bind {A B} (m : M S A) (k : A -> M S B) : stable I m -> (forall a, stable I (k a)) -> stable I (bind m k).
Proof. intros Hm Hk s Hs. apply may_bind. eapply may_mono; [by apply Hm| |done]. intros a s' Hs'. by apply Hk. Qed.
Lemma stable_ret {A} (a : A) : stable I (ret a).
Proof. by intros s Hs. Qed.
Lemma stable_panic {A} msg : stable I (panic msg : M S A).
Proof. by intros s Hs. Qed.
Lemma stable_gets {A} (f : S -> A) : stable I (gets f).
Proof. by intros s Hs. Qed.
Lemma stable_get : stable I get.
Proof. by intros s Hs. Qed.
Lemma stable_modify (f : S -> S) : (forall s, I s -> I (f s)) -> stable I (modify f).
Proof. intros Hf s Hs. by apply Hf. Qed.
Lemma stable_loop {X R} (body : X -> M S (X + R)) : (forall i, stable I (body i)) -> forall n i, stable I (loop n body i).
Proof.
  intros Hb n. induction n as [|n IH]; intros i; [by intros s Hs|]. cbn [loop]. apply stable_bind; [apply Hb|].
  intros [j|r]; [apply IH|apply stable_ret].
Qed.
End stable.
Create HintDb stable.
#[export] Hint Resolve stable_ret stable_panic stable_gets stable_get : stable.
(** Follow the structure of a computation down to the components it uses. *)
Ltac stable :=
  repeat (first [ solve [auto with stable nocore]
                | apply stable_bind; [|intros ?]
                | apply stable_loop; intros ?
                | progress cbv beta iota zeta
                | match goal with
                  | |- stable _ (if ?b then _ else _) => destruct b
                  | |- stable _ (match ?x with _ => _ end) => destruct x
                  end ]).

Ltac may_step :=
  lazymatch goal with
  | |- may (bind _ _) _ _ _ => apply may_bind
  | |- may (ret _) _ _ _ => apply may_ret
  | |- may get _ _ _ => apply may_get
  | |- may (gets _) _ _ _ => apply may_gets
  | |- may (modify _) _ _ _ => apply may_modify
  | |- may (panic _) _ _ _ => apply may_panic
  end.
