(* ===== verification/Disk.v ===== *)
(** * Disk buffers and the block driver interface

    [struct buf] of [buf.h], the contract of [iderw] ([Driver]) and the
    in-memory driver of [memide.c], which implements it. *)

From S2P Require Import Prelude Params.

(** ** [struct buf] (buf.h)

    [prev], [next] and [qnext] point to other buffers of [bcache.buf];
    a pointer is the buffer's index. *)
Record buf := mkbuf {
  b_flags : Z;
  b_dev : Z;
  b_blockno : Z;
  b_prev : nat;
  b_next : nat;
  b_qnext : option nat;
  b_data : list Z
}.
#[export] Instance buf_inhabited : Inhabited buf := populate (mkbuf 0 0 0 0 0 None []).

Definition set_flags (f : Z) (b : buf) : buf :=
  mkbuf f (b_dev b) (b_blockno b) (b_prev b) (b_next b) (b_qnext b) (b_data b).
Definition set_data (d : list Z) (b : buf) : buf :=
  mkbuf (b_flags b) (b_dev b) (b_blockno b) (b_prev b) (b_next b) (b_qnext b) d.
Definition set_prev (p : nat) (b : buf) : buf :=
  mkbuf (b_flags b) (b_dev b) (b_blockno b) p (b_next b) (b_qnext b) (b_data b).
Definition set_next (n : nat) (b : buf) : buf :=
  mkbuf (b_flags b) (b_dev b) (b_blockno b) (b_prev b) n (b_qnext b) (b_data b).
Definition set_qnext (q : option nat) (b : buf) : buf :=
  mkbuf (b_flags b) (b_dev b) (b_blockno b) (b_prev b) (b_next b) q (b_data b).

Definition busy (b : buf) : bool := has (b_flags b) B_BUSY.
Definition valid (b : buf) : bool := has (b_flags b) B_VALID.
Definition dirty (b : buf) : bool := has (b_flags b) B_DIRTY.

Lemma busy_bit b : busy b = Z.testbit (b_flags b) 0.
Proof. apply (has_pow2 _ 0). lia. Qed.
Lemma valid_bit b : valid b = Z.testbit (b_flags b) 1.
Proof. apply (has_pow2 _ 1). lia. Qed.
Lemma dirty_bit b : dirty b = Z.testbit (b_flags b) 2.
Proof. apply (has_pow2 _ 2). lia. Qed.

(** Reduce a flag test on updated flags to the old flag bits. *)
Ltac flags :=
  rewrite ?busy_bit, ?valid_bit, ?dirty_bit in *; cbn [b_flags set_flags set_data set_prev set_next set_qnext] in *;
  change B_BUSY with (2 ^ 0) in *; change B_VALID with (2 ^ 1) in *; change B_DIRTY with (2 ^ 2) in *;
  rewrite ?lor_pow2_bit, ?clr_pow2_bit in * by lia;
  repeat (case_decide; try lia).

(** A buffer after one of an array has been updated. *)
Lemma lookup_alter_buf f (i j : nat) (bs : list buf) :
  (i < length bs)%nat ->
  alter f i bs !!! j = if decide (i = j) then f (bs !!! j) else bs !!! j.
Proof.
  intros. rewrite !list_lookup_total_alt. case_decide as Hij.
  - subst. rewrite list_lookup_alter_eq.
    destruct (lookup_lt_is_Some_2 bs j) as [b Hb]; [done|]. by rewrite Hb.
  - by rewrite list_lookup_alter_ne.
Qed.

(** Block contents by device and block number, and their update. *)
Abbreviation block := (list Z).
Abbreviation key := (Z * Z)%type.
Definition b_key (b : buf) : key := (b_dev b, b_blockno b).
Definition contents := key -> block.
Definition upd (d : contents) (k : key) (v : block) : contents :=
  fun k' => if decide (k' = k) then v else d k'.

Lemma upd_eq d k v : upd d k v k = v.
Proof. unfold upd. by case_decide. Qed.
Lemma upd_ne d k v k' : k' <> k -> upd d k v k' = d k'.
Proof. unfold upd. by case_decide. Qed.

(** ** What the buffer cache relies on

    "If B_DIRTY is set, write buf to disk, clear B_DIRTY, set B_VALID.  Else
    if B_VALID is not set, read buf from disk, set B_VALID."  A driver keeps
    the stored blocks; [drv_writes] is the sequence of block writes that have
    reached the disk, oldest first: the disk after a crash is the initial one
    with a prefix of it applied. *)
Definition flags_synced (f : Z) : Z := Z.lor (clr f B_DIRTY) B_VALID.

Lemma synced_busy f b : busy (set_flags (flags_synced f) b) = busy (set_flags f b).
Proof. unfold flags_synced. by flags. Qed.
Lemma synced_valid f b : valid (set_flags (flags_synced f) b) = true.
Proof. unfold flags_synced. by flags. Qed.
Lemma synced_dirty f b : dirty (set_flags (flags_synced f) b) = false.
Proof. unfold flags_synced. by flags. Qed.

Class Driver (D : Type) := {
  iderw : buf -> M D buf;
  drv_contents : D -> contents;
  drv_writes : D -> list (key * block);
  drv_ready : key -> D -> Prop;
  iderw_read b d :
    busy b = true -> valid b = false -> dirty b = false -> drv_ready (b_key b) d ->
    wp (iderw b) (fun b' d' =>
      b' = set_data (drv_contents d (b_key b)) (set_flags (flags_synced (b_flags b)) b) /\
      (forall k, drv_contents d' k = drv_contents d k) /\
      drv_writes d' = drv_writes d /\
      (forall k, drv_ready k d -> drv_ready k d')) d;
  iderw_write b d :
    busy b = true -> dirty b = true -> drv_ready (b_key b) d ->
    wp (iderw b) (fun b' d' =>
      b' = set_flags (flags_synced (b_flags b)) b /\
      (forall k, drv_contents d' k = upd (drv_contents d) (b_key b) (b_data b) k) /\
      drv_writes d' = drv_writes d ++ [(b_key b, b_data b)] /\
      (forall k, drv_ready k d -> drv_ready k d')) d
}.

(** ** memide.c: the disk image lives in memory *)
Module Memide.

(** [memdisk] as [disksize] blocks of [BSIZE] bytes; [writes] records the
    block writes performed. *)
Record state := mk {
  memdisk : list block;
  disksize : Z;
  writes : list (key * block)
}.

(** [ideinit]: the image linked into the kernel, [size] bytes long. *)
Definition ideinit (image : list block) (size : Z) : state :=
  mk image (u32 size / BSIZE) [].

(** Interrupt handler: a no-op. *)
Definition ideintr : M state unit := ret tt.

Definition block_at (s : state) (bno : Z) : block := memdisk s !!! Z.to_nat bno.

Definition iderw (b : buf) : M state buf :=
  if negb (has (b_flags b) B_BUSY) then panic "iderw: buf not busy"
  else if Z.land (b_flags b) (Z.lor B_VALID B_DIRTY) =? B_VALID then panic "iderw: nothing to do"
  else if negb (b_dev b =? 1) then panic "iderw: request not for disk 1"
  else
    s <-- get ;;
    if disksize s <=? b_blockno b then panic "iderw: block out of range"
    else if has (b_flags b) B_DIRTY then
      let f := clr (b_flags b) B_DIRTY in
      modify (fun s => mk (<[Z.to_nat (b_blockno b) := b_data b]> (memdisk s)) (disksize s)
                          (writes s ++ [(b_key b, b_data b)])) ;;;
      ret (set_flags (Z.lor f B_VALID) b)
    else
      ret (set_flags (Z.lor (b_flags b) B_VALID) (set_data (block_at s (b_blockno b)) b)).

Definition contents_of (s : state) : contents :=
  fun k => if decide (fst k = 1 /\ 0 <= snd k) then block_at s (snd k) else [].
(** A request the driver accepts: disk 1, a block of the image. *)
Definition ready (k : key) (s : state) : Prop :=
  fst k = 1 /\ 0 <= snd k < disksize s /\ Z.of_nat (length (memdisk s)) = disksize s.

(** The "nothing to do" test is false when a request is needed. *)
Lemma needs_request b :
  valid b = false \/ dirty b = true ->
  (Z.land (b_flags b) (Z.lor B_VALID B_DIRTY) =? B_VALID) = false.
Proof.
  intros Hb. apply Z.eqb_neq. intros Heq.
  assert (H1 : Z.testbit (Z.land (b_flags b) 6) 1 = true) by (change 6 with (Z.lor B_VALID B_DIRTY); by rewrite Heq).
  assert (H2 : Z.testbit (Z.land (b_flags b) 6) 2 = false) by (change 6 with (Z.lor B_VALID B_DIRTY); by rewrite Heq).
  rewrite Z.land_spec in H1, H2. rewrite valid_bit, dirty_bit in Hb.
  destruct Hb as [Hb|Hb]; rewrite Hb in *; done.
Qed.

Lemma iderw_read_ok b s :
  busy b = true -> valid b = false -> dirty b = false -> ready (b_key b) s ->
  iderw b s =
    Ok (set_data (contents_of s (b_key b)) (set_flags (flags_synced (b_flags b)) b)) s.
Proof.
  intros Hb Hv Hd (Hdev & Hrange & Hlen). unfold iderw.
  fold (busy b) (dirty b). rewrite Hb, Hd. cbn [negb].
  rewrite needs_request by auto. cbn [b_key fst snd] in *.
  rewrite Hdev. cbn [negb Z.eqb Pos.eqb bind get].
  unfold bind, get. destruct (Z.leb_spec (disksize s) (b_blockno b)); [lia|].
  unfold ret. f_equal. unfold contents_of, b_key. cbn [fst snd].
  rewrite decide_True by (rewrite Hdev; lia).
  unfold set_flags, set_data, flags_synced. simpl. do 2 f_equal.
  apply Z.bits_inj'. intros i Hi. unfold dirty in *.
  change B_DIRTY with (2 ^ 2). rewrite clr_pow2_bit by lia.
  case_decide; [subst|done]. rewrite <- Hd. symmetry. by apply (has_pow2 _ 2).
Qed.

Lemma iderw_write_ok b s :
  busy b = true -> dirty b = true -> ready (b_key b) s ->
  wp (iderw b) (fun b' s' =>
      b' = set_flags (flags_synced (b_flags b)) b /\
      (forall k, contents_of s' k = upd (contents_of s) (b_key b) (b_data b) k) /\
      writes s' = writes s ++ [(b_key b, b_data b)] /\
      (forall k, ready k s -> ready k s')) s.
Proof.
  intros Hb Hd (Hdev & Hrange & Hlen). unfold iderw, wp.
  fold (busy b) (dirty b). rewrite Hb, Hd. cbn [negb].
  rewrite needs_request by auto. cbn [b_key fst snd] in *.
  rewrite Hdev. cbn [negb Z.eqb Pos.eqb]. unfold bind, get, modify, ret.
  destruct (Z.leb_spec (disksize s) (b_blockno b)); [lia|].
  split; [done|]. split; [|split; [done|]].
  - intros [kd kb]. unfold contents_of, upd, b_key, block_at. cbn [fst snd memdisk].
    rewrite Hdev. case_decide as Hk; case_decide as Hk'; simplify_eq; try done.
    + apply list_lookup_total_insert_eq. lia.
    + rewrite list_lookup_total_insert_ne; [done|].
      intros Heq. apply Hk'. f_equal; lia.
    + exfalso. apply Hk. lia.
  - intros [kd kb] (? & ? & ?). unfold ready. cbn [fst snd disksize memdisk].
    by rewrite length_insert.
Qed.

Lemma iderw_read_wp b s :
  busy b = true -> valid b = false -> dirty b = false -> ready (b_key b) s ->
  wp (iderw b) (fun b' s' =>
      b' = set_data (contents_of s (b_key b)) (set_flags (flags_synced (b_flags b)) b) /\
      (forall k, contents_of s' k = contents_of s k) /\
      writes s' = writes s /\
      (forall k, ready k s -> ready k s')) s.
Proof. intros. unfold wp. by rewrite iderw_read_ok. Qed.

#[export] Instance memide_driver : Driver state := {
  iderw := iderw;
  drv_contents := contents_of;
  drv_writes := writes;
  drv_ready := ready;
  iderw_write := iderw_write_ok;
  iderw_read := iderw_read_wp
}.

End Memide.
#[export] Existing Instance Memide.memide_driver.
