(* ===== verification/Bio.v ===== *)
(** * bio.c: the buffer cache

    The LRU list threaded through [prev]/[next], [bget], [bread], [bwrite] and
    [brelse], with the well-formedness of the list.  The refinement to an
    abstract block store is in [BioSpec]. *)

From S2P Require Import Prelude Params Disk.

(** [&bcache.head], one past [bcache.buf[NBUF-1]]. *)
Definition HEAD : nat := nbuf.
(** [b->dev = -1] of [binit], as the unsigned value the field holds. *)
Definition NODEV : Z := u32 (-1).

Section bio.
Context {D : Type} `{!Driver D}.

(** ** State *)

(** [struct bcache] with the disk below it.  [bufs] is [bcache.buf] followed by
    [bcache.head]; [lock] is [bcache.lock.locked]; [woken] lists the channels
    passed to [wakeup], oldest first. *)
Record bcache := mkbc {
  lock : bool;
  bufs : list buf;
  disk : D;
  woken : list nat
}.

Definition set_lock (l : bool) (s : bcache) : bcache := mkbc l (bufs s) (disk s) (woken s).
Definition set_bufs (bs : list buf) (s : bcache) : bcache := mkbc (lock s) bs (disk s) (woken s).
Definition set_disk (d : D) (s : bcache) : bcache := mkbc (lock s) (bufs s) d (woken s).

Definition getb (i : nat) : M bcache buf := gets (fun s => bufs s !!! i).
Definition updb (i : nat) (f : buf -> buf) : M bcache unit :=
  modify (fun s => set_bufs (alter f i (bufs s)) s).

(** [acquire(&bcache.lock)], [release(&bcache.lock)] as the CPU that runs the
    routine sees them: taking a lock it holds is a panic. *)
Definition acquire : M bcache unit :=
  l <-- gets lock ;; if (l : bool) then panic "acquire" else modify (set_lock true).
Definition release : M bcache unit :=
  l <-- gets lock ;; if (l : bool) then modify (set_lock false) else panic "release".
Definition wakeup (chan : nat) : M bcache unit :=
  modify (fun s => mkbc (lock s) (bufs s) (disk s) (woken s ++ [chan])).

(** ** Operations *)

Definition binit_step (i : nat) : M bcache unit :=
  h <-- getb HEAD ;;
  updb i (fun b => set_next (b_next h) b) ;;;
  updb i (set_prev HEAD) ;;;
  updb i (fun b => mkbuf (b_flags b) NODEV (b_blockno b) (b_prev b) (b_next b) (b_qnext b) (b_data b)) ;;;
  h <-- getb HEAD ;;
  updb (b_next h) (set_prev i) ;;;
  updb HEAD (set_next i).

Definition binit : M bcache unit :=
  modify (set_lock false) ;;;
  updb HEAD (set_prev HEAD) ;;;
  updb HEAD (set_next HEAD) ;;;
  for_each (seq 0 nbuf) binit_step.

(** First loop of [bget]: is the block already cached?  [sleep(b, &bcache.lock)]
    releases the lock; the awakened process takes it and starts over at [loop:],
    that is, calls [bget] again. *)
Definition bget_lookup (d bno : Z) (b : nat) : M bcache (nat + option nat) :=
  if decide (b = HEAD) then ret (inr None)
  else
    bf <-- getb b ;;
    if (b_dev bf =? d) && (b_blockno bf =? bno) then
      if negb (has (b_flags bf) B_BUSY) then
        updb b (fun b => set_flags (Z.lor (b_flags b) B_BUSY) b) ;;;
        release ;;;
        ret (inr (Some b))
      else
        release ;;; sleep_on (Z.of_nat b)
    else ret (inl (b_next bf)).

(** Second loop of [bget]: recycle some non-busy and clean buffer, least
    recently used first. *)
Definition bget_recycle (d bno : Z) (b : nat) : M bcache (nat + option nat) :=
  if decide (b = HEAD) then ret (inr None)
  else
    bf <-- getb b ;;
    if (Z.land (b_flags bf) B_BUSY =? 0) && (Z.land (b_flags bf) B_DIRTY =? 0) then
      updb b (fun b => mkbuf B_BUSY d bno (b_prev b) (b_next b) (b_qnext b) (b_data b)) ;;;
      release ;;;
      ret (inr (Some b))
    else ret (inl (b_prev bf)).

Definition bget (d bno : Z) : M bcache nat :=
  acquire ;;;
  h <-- getb HEAD ;;
  hit <-- loop (S nbuf) (bget_lookup d bno) (b_next h) ;;
  match hit with
  | Some b => ret b
  | None =>
      h <-- getb HEAD ;;
      free <-- loop (S nbuf) (bget_recycle d bno) (b_prev h) ;;
      match free with
      | Some b => ret b
      | None => panic "bget: no buffers"
      end
  end.

(** [iderw(b)] on the buffer at index [i]. *)
Definition iderw_at (i : nat) : M bcache unit :=
  s <-- get ;;
  b' <-- zoom disk set_disk (iderw (bufs s !!! i)) ;;
  updb i (fun _ => b').

Definition bread (d bno : Z) : M bcache nat :=
  b <-- bget d bno ;;
  bf <-- getb b ;;
  (if negb (has (b_flags bf) B_VALID) then iderw_at b else ret tt) ;;;
  ret b.

Definition bwrite (b : nat) : M bcache unit :=
  bf <-- getb b ;;
  if Z.land (b_flags bf) B_BUSY =? 0 then panic "bwrite"
  else
    updb b (fun b => set_flags (Z.lor (b_flags b) B_DIRTY) b) ;;;
    iderw_at b.

Definition brelse (b : nat) : M bcache unit :=
  bf <-- getb b ;;
  if Z.land (b_flags bf) B_BUSY =? 0 then panic "brelse"
  else
    acquire ;;;
    bf <-- getb b ;;
    updb (b_next bf) (set_prev (b_prev bf)) ;;;
    bf <-- getb b ;;
    updb (b_prev bf) (set_next (b_next bf)) ;;;
    h <-- getb HEAD ;;
    updb b (set_next (b_next h)) ;;;
    updb b (set_prev HEAD) ;;;
    h <-- getb HEAD ;;
    updb (b_next h) (set_prev b) ;;;
    updb HEAD (set_next b) ;;;
    updb b (fun b => set_flags (clr (b_flags b) B_BUSY) b) ;;;
    wakeup b ;;;
    release.

(** Uses of a held buffer by its owner: [b->data], [b->data = d],
    [b->flags |= B_DIRTY]. *)
Definition bdata (b : nat) : M bcache block := bf <-- getb b ;; ret (b_data bf).
Definition bset (b : nat) (d : block) : M bcache unit := updb b (set_data d).
Definition bmark (b : nat) : M bcache unit :=
  updb b (fun b => set_flags (Z.lor (b_flags b) B_DIRTY) b).
Definition bblockno (b : nat) : M bcache Z := bf <-- getb b ;; ret (b_blockno bf).

(** ** The LRU list *)

(** [y] follows [x] in the doubly linked list. *)
Definition link (bs : list buf) (x y : nat) : Prop :=
  b_next (bs !!! x) = y /\ b_prev (bs !!! y) = x.
Fixpoint linked (bs : list buf) (l : list nat) : Prop :=
  match l with
  | x :: (y :: _) as t => link bs x y /\ linked bs t
  | _ => True
  end.
(** [lru]: the buffers from most to least recently used. *)
Definition ring (bs : list buf) (lru : list nat) : Prop :=
  lru ≡ₚ seq 0 nbuf /\ linked bs (HEAD :: lru ++ [HEAD]).

Lemma linked_cons bs x y l : linked bs (x :: y :: l) <-> link bs x y /\ linked bs (y :: l).
Proof. done. Qed.

Lemma linked_app bs l1 x l2 :
  linked bs (l1 ++ x :: l2) <-> linked bs (l1 ++ [x]) /\ linked bs (x :: l2).
Proof.
  induction l1 as [|a l1 IH]; simpl; [tauto|].
  destruct l1 as [|a' l1]; simpl in *; [|rewrite IH]; tauto.
Qed.

Lemma ring_lt bs lru x : ring bs lru -> In x lru -> (x < nbuf)%nat.
Proof. intros [Hp _] Hx. rewrite Hp in Hx. apply in_seq in Hx. lia. Qed.

Lemma ring_nodup bs lru : ring bs lru -> NoDup lru /\ HEAD ∉ lru.
Proof.
  intros [Hp _]. split.
  - rewrite Hp. apply NoDup_seq.
  - rewrite Hp, list_elem_of_In, in_seq. unfold HEAD. lia.
Qed.

Lemma linked_set_prev bs i v l :
  (i < length bs)%nat -> i ∉ tail l -> linked bs l -> linked (alter (set_prev v) i bs) l.
Proof.
  intros Hi. induction l as [|x [|y l] IH]; try done.
  cbn [linked tail]. intros Hn [[Hx Hy] Hl]. apply not_elem_of_cons in Hn as [Hne Hn].
  split; [|by apply IH]. unfold link. rewrite !lookup_alter_buf by done.
  destruct (decide (i = x)), (decide (i = y)); simplify_eq; done.
Qed.

Lemma linked_set_next bs i v l :
  (i < length bs)%nat -> i ∉ removelast l -> linked bs l -> linked (alter (set_next v) i bs) l.
Proof.
  intros Hi. induction l as [|x [|y l] IH]; try done.
  cbn [linked]. intros Hn [[Hx Hy] Hl]. change (i ∉ x :: removelast (y :: l)) in Hn.
  apply not_elem_of_cons in Hn as [Hne Hn].
  split; [|by apply IH]. unfold link. rewrite !lookup_alter_buf by done.
  destruct (decide (i = x)), (decide (i = y)); simplify_eq; done.
Qed.

(** An update that keeps [prev] and [next] keeps the list. *)
Lemma linked_alter bs i f l :
  (i < length bs)%nat ->
  b_prev (f (bs !!! i)) = b_prev (bs !!! i) -> b_next (f (bs !!! i)) = b_next (bs !!! i) ->
  linked bs l -> linked (alter f i bs) l.
Proof.
  intros Hi Hp Hn. induction l as [|x [|y l] IH]; try done.
  cbn [linked]. intros [[Hx Hy] Hl]. split; [|by apply IH].
  unfold link. rewrite !lookup_alter_buf by done.
  destruct (decide (i = x)) as [<-|], (decide (i = y)) as [<-|]; rewrite ?Hp, ?Hn; done.
Qed.

Lemma map_flags_at bs f x :
  (x < length bs)%nat -> map (set_flags f) bs !!! x = set_flags f (bs !!! x).
Proof. intros. by apply list_lookup_total_fmap. Qed.

(** Changing only flags keeps the list. *)
Lemma ring_set_flags bs f lru :
  length bs = S nbuf -> ring bs lru -> ring (map (set_flags f) bs) lru.
Proof.
  intros Hlen [Hp Hl]. split; [done|].
  assert (Hat : forall x, (x <= nbuf)%nat -> map (set_flags f) bs !!! x = set_flags f (bs !!! x)).
  { intros x Hx. apply map_flags_at. lia. }
  assert (Hin : Forall (fun x => (x <= nbuf)%nat) (HEAD :: lru ++ [HEAD])).
  { constructor; [done|]. apply Forall_app. split; [|by constructor].
    rewrite Hp. apply Forall_seq. lia. }
  revert Hin Hl. generalize (HEAD :: lru ++ [HEAD]).
  induction l as [|x [|y l] IH]; try done.
  rewrite !linked_cons. intros [Hx [Hy Hl]%Forall_cons]%Forall_cons [[H1 H2] Hlk].
  split; [|apply IH; [by constructor|done]]. unfold link. by rewrite !Hat.
Qed.

(** Taking [b] out: its neighbours are linked to each other. *)
Lemma linked_unlink bs l1 p b n l2 :
  linked bs (l1 ++ p :: b :: n :: l2) ->
  (p < length bs)%nat -> (n < length bs)%nat ->
  n ∉ tail (l1 ++ [p]) -> p ∉ l1 -> n ∉ l2 -> p ∉ removelast (n :: l2) ->
  linked (alter (set_next n) p (alter (set_prev p) n bs)) (l1 ++ p :: n :: l2).
Proof.
  intros Hl Hp Hn Hn1 Hp1 Hn2 Hp2.
  apply linked_app in Hl as [Hl1 Hl2]. rewrite !linked_cons in Hl2. destruct Hl2 as (_ & _ & Hl2).
  apply linked_app. rewrite linked_cons. split; [|split].
  - apply linked_set_next; [by rewrite length_alter| |by apply linked_set_prev].
    by rewrite removelast_last.
  - unfold link. rewrite !lookup_alter_buf by (rewrite ?length_alter; done).
    destruct (decide (p = p)), (decide (n = n)); try congruence.
    destruct (decide (n = p)), (decide (p = n)); simplify_eq; done.
  - apply linked_set_next; [by rewrite length_alter|done|by apply linked_set_prev].
Qed.

(** Putting [b] right after [h]. *)
Lemma linked_push bs h b f l :
  linked bs (f :: l) ->
  (h < length bs)%nat -> (b < length bs)%nat -> (f < length bs)%nat ->
  b ∉ f :: l -> b <> h -> f ∉ l -> h ∉ removelast (f :: l) ->
  linked (alter (set_next b) h (alter (set_prev b) f
           (alter (set_prev h) b (alter (set_next f) b bs)))) (h :: b :: f :: l).
Proof.
  intros Hl Hh Hb Hf Hbl Hbh Hfl Hhl. apply not_elem_of_cons in Hbl as [Hbf Hbl].
  rewrite !linked_cons. split; [|split].
  - unfold link. rewrite !lookup_alter_buf by (rewrite ?length_alter; done).
    repeat case_decide; simplify_eq; done.
  - unfold link. rewrite !lookup_alter_buf by (rewrite ?length_alter; done).
    repeat case_decide; simplify_eq; done.
  - assert (b ∉ removelast (f :: l)) as Hb1.
    { intros Hin%elem_of_removelast. by apply elem_of_cons in Hin as [|]. }
    repeat first [ apply linked_set_next; [rewrite ?length_alter; done|done|]
                 | apply linked_set_prev; [rewrite ?length_alter; done|done|] ].
    done.
Qed.

(** The pointer updates of [brelse] on the buffer array. *)
Definition to_front (b : nat) (bs : list buf) : list buf :=
  let bs := alter (set_prev (b_prev (bs !!! b))) (b_next (bs !!! b)) bs in
  let bs := alter (set_next (b_next (bs !!! b))) (b_prev (bs !!! b)) bs in
  let bs := alter (set_next (b_next (bs !!! HEAD))) b bs in
  let bs := alter (set_prev HEAD) b bs in
  let bs := alter (set_prev b) (b_next (bs !!! HEAD)) bs in
  alter (set_next b) HEAD bs.

Lemma cycle_split l1 b l2 :
  HEAD :: (l1 ++ b :: l2) ++ [HEAD] = (HEAD :: l1) ++ b :: (l2 ++ [HEAD]).
Proof. simpl. by rewrite <-app_assoc. Qed.

Lemma ring_split bs l1 b l2 :
  ring bs (l1 ++ b :: l2) ->
  exists p l1' n l2', HEAD :: l1 = l1' ++ [p] /\ l2 ++ [HEAD] = n :: l2' /\
    b_prev (bs !!! b) = p /\ b_next (bs !!! b) = n.
Proof.
  intros [_ Hl].
  destruct (exists_last (l := HEAD :: l1)) as (l1' & p & Hp); [done|].
  destruct (l2 ++ [HEAD]) as [|n l2'] eqn:Hn; [by destruct l2|].
  exists p, l1', n, l2'. split; [done|]. split; [done|].
  rewrite cycle_split, Hp, Hn, <-app_assoc in Hl. simpl in Hl.
  apply linked_app in Hl as [_ Hl]. rewrite !linked_cons in Hl.
  destruct Hl as ([_ ?] & [? _] & _). done.
Qed.

Lemma ring_to_front bs l1 b l2 :
  length bs = S nbuf -> ring bs (l1 ++ b :: l2) -> ring (to_front b bs) (b :: l1 ++ l2).
Proof.
  intros Hlen Hring.
  destruct (ring_nodup _ _ Hring) as [Hnd Hh].
  assert (Hlt : forall x, x ∈ HEAD :: l1 ++ b :: l2 -> (x < length bs)%nat).
  { intros x [->|Hx]%elem_of_cons; [unfold HEAD; lia|].
    apply list_elem_of_In in Hx. pose proof (ring_lt _ _ x Hring Hx). lia. }
  destruct (ring_split _ _ _ _ Hring) as (p & l1' & n & l2' & Hp & Hn & Hbp & Hbn).
  destruct Hring as [Hperm Hl]. split; [by rewrite <-Hperm, Permutation_middle|].
  apply NoDup_app in Hnd as (Hnd1 & Hdisj & Hnd2). apply NoDup_cons in Hnd2 as [Hb2 Hnd2].
  rewrite elem_of_app, elem_of_cons in Hh.
  assert (Hin_p : p ∈ HEAD :: l1) by (rewrite Hp; apply elem_of_app; right; by left).
  assert (Hin_n : n ∈ l2 ++ [HEAD]) by (rewrite Hn; by left).
  rewrite elem_of_cons in Hin_p. rewrite elem_of_app, list_elem_of_singleton in Hin_n.
  assert (Hb1 : b ∉ l1) by (intros Hb; by apply (Hdisj b Hb); left).
  assert (HbH : b <> HEAD) by (intros ->; tauto).
  assert (Hdis : forall x, x ∈ l1 -> x ∉ l2) by (intros x Hx Hx2; apply (Hdisj x Hx); by right).
  assert (Hpb : p <> b) by (intros ->; tauto). assert (Hnb : n <> b) by (intros ->; tauto).
  assert (Hnd1' : NoDup (l1' ++ [p])) by (rewrite <-Hp; constructor; tauto).
  assert (Hnd2' : NoDup (n :: l2')).
  { rewrite <-Hn. apply NoDup_app. split_and!; [done| |apply NoDup_singleton].
    intros x Hx ->%list_elem_of_singleton. tauto. }
  unfold to_front. rewrite Hbn, Hbp.
  set (bs1 := alter (set_prev p) n bs).
  assert (Hbs1 : bs1 !!! b = bs !!! b).
  { unfold bs1. rewrite lookup_alter_buf by (apply Hlt; set_solver). by rewrite decide_False. }
  rewrite Hbs1, Hbn, Hbp. set (bs2 := alter (set_next n) p bs1).
  assert (Hl2 : linked bs2 (HEAD :: (l1 ++ l2) ++ [HEAD])).
  { rewrite <-app_assoc, Hn, app_comm_cons, Hp, <-app_assoc. simpl.
    rewrite cycle_split, Hp, Hn, <-app_assoc in Hl.
    apply linked_unlink with b; [done| | | | | |].
    - apply Hlt. set_solver.
    - apply Hlt. set_solver.
    - rewrite <-Hp. simpl. destruct Hin_n as [?| ->]; [|tauto]. intros ?. by apply (Hdis n).
    - apply NoDup_app in Hnd1' as (_ & Hd & _). intros Hx. apply (Hd _ Hx). by left.
    - by apply NoDup_cons in Hnd2' as [? _].
    - rewrite <-Hn, removelast_last. destruct Hin_p as [->|Hx]; [tauto|]. by apply Hdis. }
  assert (Hlen2 : length bs2 = S nbuf) by (unfold bs2, bs1; by rewrite !length_alter).
  assert (Hbn12 : b ∉ (l1 ++ l2) ++ [HEAD]).
  { rewrite !elem_of_app, list_elem_of_singleton. tauto. }
  assert (HH12 : HEAD ∉ l1 ++ l2) by (rewrite elem_of_app; tauto).
  assert (Hnd12 : NoDup ((l1 ++ l2) ++ [HEAD])).
  { apply NoDup_app. split_and!; [by apply NoDup_app| |apply NoDup_singleton].
    intros x Hx ->%list_elem_of_singleton. tauto. }
  assert (Hlt12 : forall x, x ∈ (l1 ++ l2) ++ [HEAD] -> (x < length bs2)%nat).
  { intros x Hx. rewrite Hlen2, <-Hlen. apply Hlt. set_solver. }
  clear -Hl2 Hlen2 Hbn12 HH12 Hnd12 Hlt12 HbH Hlt Hlen.
  assert (Hb : (b < length bs2)%nat) by (rewrite Hlen2, <-Hlen; apply Hlt; set_solver).
  replace ((b :: l1 ++ l2) ++ [HEAD]) with (b :: (l1 ++ l2) ++ [HEAD]) by done.
  assert (Hr : removelast ((l1 ++ l2) ++ [HEAD]) = l1 ++ l2) by apply removelast_last.
  destruct ((l1 ++ l2) ++ [HEAD]) as [|f l] eqn:Hf; [by destruct (l1 ++ l2)|].
  apply linked_cons in Hl2 as [[Hfn _] Hl2]. rewrite Hfn.
  rewrite (lookup_alter_buf _ b HEAD) by (by rewrite length_alter).
  rewrite decide_False by done. rewrite lookup_alter_buf by done.
  rewrite decide_False, Hfn by done. apply NoDup_cons in Hnd12 as [??].
  apply linked_push; try done; [|apply Hlt12; by left|by rewrite Hr].
  unfold HEAD. lia.
Qed.

(** ** Walking the list *)

(** A loop that only advances along [next] over [l] arrives at [i]. *)
Lemma walk_next {R} (body : nat -> M bcache (nat + R)) s l i fuel :
  linked (bufs s) (l ++ [i]) ->
  (forall x, x ∈ l -> body x s = Ok (inl (b_next (bufs s !!! x))) s) ->
  loop (length l + fuel) body (hd i l) s = loop fuel body i s.
Proof.
  induction l as [|x l IH]; [done|]. intros Hl Hbody.
  change (length (x :: l) + fuel)%nat with (S (length l + fuel)). cbn [hd loop].
  unfold bind at 1. rewrite (Hbody x) by set_solver.
  assert (Hx : b_next (bufs s !!! x) = hd i l).
  { destruct l as [|y l]; simpl in Hl; apply Hl. }
  rewrite Hx. apply IH; [|intros y Hy; apply Hbody; by right].
  destruct l; [done|]. apply Hl.
Qed.

(** The same along [prev]. *)
Lemma walk_prev {R} (body : nat -> M bcache (nat + R)) s l i fuel :
  linked (bufs s) (i :: l) ->
  (forall x, x ∈ l -> body x s = Ok (inl (b_prev (bufs s !!! x))) s) ->
  loop (length l + fuel) body (List.last l i) s = loop fuel body i s.
Proof.
  induction l as [|x l IH] using rev_ind; [done|]. intros Hl Hbody.
  rewrite last_last, length_app, Nat.add_comm. simpl length.
  replace (fuel + (length l + 1))%nat with (S (length l + fuel)) by lia.
  cbn [loop]. unfold bind at 1. rewrite (Hbody x) by set_solver.
  assert (Hx : linked (bufs s) (i :: l) /\ b_prev (bufs s !!! x) = List.last l i).
  { destruct (exists_last (l := i :: l)) as (l' & y & Hy); [done|].
    rewrite app_comm_cons, Hy, <-app_assoc in Hl. simpl in Hl.
    apply linked_app in Hl as [Hl1 [[_ Hp] _]]. rewrite Hy. split; [done|]. rewrite Hp.
    destruct l as [|z l].
    - by destruct l' as [|? [|]]; simplify_eq/=.
    - rewrite <-(last_last l' y i), <-Hy. by destruct l. }
  destruct Hx as [Hl' ->]. apply IH; [done|].
  intros y Hy. apply Hbody. apply elem_of_app. by left.
Qed.

(** ** [bget], branch by branch *)

(** Between operations: the lock is free and the list is well formed. *)
Definition wf (s : bcache) : Prop :=
  lock s = false /\ length (bufs s) = S nbuf /\ exists lru, ring (bufs s) lru.

Definition key_at (s : bcache) (i : nat) : key := b_key (bufs s !!! i).
(** A buffer [bget] may recycle. *)
Definition clean (b : buf) : bool := negb (busy b) && negb (dirty b).
(** A buffer taken by [bget] on a hit, and on a miss. *)
Definition taken (b : buf) : buf := set_flags (Z.lor (b_flags b) B_BUSY) b.
Definition recycled (k : key) (b : buf) : buf :=
  mkbuf B_BUSY (fst k) (snd k) (b_prev b) (b_next b) (b_qnext b) (b_data b).

Lemma ring_length bs lru : ring bs lru -> length lru = nbuf.
Proof. intros [Hp _]. by rewrite Hp, length_seq. Qed.

Lemma ring_elem bs lru i : ring bs lru -> i ∈ lru <-> (i < nbuf)%nat.
Proof. intros [Hp _]. rewrite Hp, list_elem_of_In, in_seq. lia. Qed.

Lemma ring_head bs l1 i l2 :
  ring bs (l1 ++ i :: l2) ->
  b_next (bs !!! HEAD) = hd i l1 /\ b_prev (bs !!! HEAD) = List.last l2 i /\
  linked bs (l1 ++ [i]) /\ linked bs (i :: l2).
Proof.
  intros [_ Hl]. rewrite cycle_split in Hl.
  apply linked_app in Hl as [Hl1 Hl2]. simpl in Hl1.
  assert (b_next (bs !!! HEAD) = hd i l1 /\ linked bs (l1 ++ [i])) as [??].
  { destruct l1; simpl in *; by destruct Hl1 as [[? _] ?]. }
  split_and!; try done.
  - destruct (exists_last (l := i :: l2)) as (l' & y & Hy); [done|].
    rewrite app_comm_cons, Hy, <-app_assoc in Hl2. apply linked_app in Hl2 as [_ [[_ ->] _]].
    destruct l2; [by destruct l' as [|? [|]]; simplify_eq/=|].
    rewrite <-(last_last l' y i), <-Hy. by destruct l2.
  - rewrite app_comm_cons in Hl2. destruct l2 as [|y l2] using rev_ind; [done|].
    rewrite app_comm_cons, <-app_assoc in Hl2. by apply linked_app in Hl2 as [? _].
Qed.

Lemma lookup_skip d bno x s :
  x <> HEAD -> key_at s x <> (d, bno) ->
  bget_lookup d bno x s = Ok (inl (b_next (bufs s !!! x))) s.
Proof.
  intros Hx Hk. unfold bget_lookup. rewrite decide_False by done.
  unfold bind, getb, gets. destruct (_ && _) eqn:E; [|done].
  exfalso. apply Hk. unfold key_at, b_key.
  apply andb_true_iff in E as [->%Z.eqb_eq ->%Z.eqb_eq]. done.
Qed.

Lemma recycle_skip d bno x s :
  x <> HEAD -> clean (bufs s !!! x) = false ->
  bget_recycle d bno x s = Ok (inl (b_prev (bufs s !!! x))) s.
Proof.
  intros Hx Hk. unfold bget_recycle. rewrite decide_False by done.
  unfold bind, getb, gets. destruct (_ && _) eqn:E; [|done].
  exfalso. unfold clean, busy, dirty, has in Hk. rewrite !negb_involutive in Hk. congruence.
Qed.

(** The first loop stops at the buffer that caches the block, if any. *)
Lemma lookup_loop d bno s i l1 l2 :
  ring (bufs s) (l1 ++ i :: l2) -> key_at s i = (d, bno) ->
  (forall j, (j < nbuf)%nat -> key_at s j = (d, bno) -> j = i) ->
  exists k, loop (S nbuf) (bget_lookup d bno) (b_next (bufs s !!! HEAD)) s =
    loop (S k) (bget_lookup d bno) i s.
Proof.
  intros Hr Hk Hu. pose proof (ring_length _ _ Hr) as Hlen.
  destruct (ring_head _ _ _ _ Hr) as (-> & _ & Hl & _).
  rewrite length_app in Hlen. simpl in Hlen. exists (S (length l2)).
  replace (S nbuf) with (length l1 + S (S (length l2)))%nat by lia.
  pose proof (ring_nodup _ _ Hr) as [Hnd Hh].
  apply walk_next; [done|]. intros x Hx. apply lookup_skip.
  - intros ->. apply Hh, elem_of_app. by left.
  - intros Hkx. apply NoDup_app in Hnd as (_ & Hd & _). apply (Hd x Hx).
    rewrite (Hu x); [by left| |done]. apply (ring_elem _ _ _ Hr), elem_of_app. by left.
Qed.

Lemma lookup_loop_miss d bno s lru :
  ring (bufs s) lru -> (forall j, (j < nbuf)%nat -> key_at s j <> (d, bno)) ->
  loop (S nbuf) (bget_lookup d bno) (b_next (bufs s !!! HEAD)) s = Ok None s.
Proof.
  intros Hr Hu. pose proof (ring_nodup _ _ Hr) as [Hnd Hh].
  pose proof (ring_length _ _ Hr) as Hlen.
  assert (Hx : b_next (bufs s !!! HEAD) = hd HEAD lru /\ linked (bufs s) (lru ++ [HEAD])).
  { destruct Hr as [_ Hl]. destruct lru; simpl in *; by destruct Hl as [[? _] ?]. }
  destruct Hx as [-> Hl]. replace (S nbuf) with (length lru + 1)%nat by lia.
  rewrite walk_next; [| done |].
  - simpl. unfold bind, bget_lookup. by rewrite decide_True.
  - intros x Hx. apply lookup_skip; [by intros ->|]. by apply Hu, (ring_elem _ _ _ Hr).
Qed.

Lemma bget_hit s d bno i :
  wf s -> (i < nbuf)%nat -> key_at s i = (d, bno) ->
  (forall j, (j < nbuf)%nat -> key_at s j = (d, bno) -> j = i) ->
  bget d bno s =
    if busy (bufs s !!! i) then Sleep (Z.of_nat i) s
    else Ok i (set_bufs (alter taken i (bufs s)) s).
Proof.
  intros (Hlock & Hlen & lru & Hr) Hi Hk Hu.
  apply (ring_elem _ _ _ Hr), list_elem_of_split in Hi as (l1 & l2 & ->).
  unfold bget, acquire, bind at 1 2, gets. rewrite Hlock. unfold modify.
  destruct (lookup_loop d bno (set_lock true s) i l1 l2) as [k Hloop]; [done..|].
  unfold bind at 1, getb, gets. unfold bind at 1. rewrite Hloop.
  pose proof (ring_nodup _ _ Hr) as [_ Hh].
  simpl loop. unfold bind at 1, bget_lookup. rewrite decide_False by (intros ->; set_solver).
  unfold bind, getb, gets, updb, modify, release, sleep_on, ret, gets. simpl.
  unfold key_at, b_key in Hk. simplify_eq. rewrite !Z.eqb_refl. simpl.
  fold (busy (bufs s !!! i)). destruct s; simpl in *; subst. by destruct (busy _).
Qed.

(** On a miss, the least recently used clean buffer is recycled. *)
Lemma bget_miss s d bno l1 i l2 :
  lock s = false -> length (bufs s) = S nbuf -> ring (bufs s) (l1 ++ i :: l2) ->
  (forall j, (j < nbuf)%nat -> key_at s j <> (d, bno)) ->
  clean (bufs s !!! i) = true -> (forall j, j ∈ l2 -> clean (bufs s !!! j) = false) ->
  bget d bno s = Ok i (set_bufs (alter (recycled (d, bno)) i (bufs s)) s).
Proof.
  intros Hlock Hlen Hr Hu Hc Hl2.
  unfold bget, acquire, bind at 1 2, gets. rewrite Hlock. unfold modify.
  unfold bind at 1, getb, gets. unfold bind at 1.
  rewrite (lookup_loop_miss d bno (set_lock true s) _ Hr Hu).
  destruct (ring_head _ _ _ _ Hr) as (_ & Hprev & _ & Hl).
  pose proof (ring_nodup _ _ Hr) as [_ Hh]. pose proof (ring_length _ _ Hr) as Hn.
  rewrite length_app in Hn. simpl in Hn.
  unfold bind at 1, getb, gets. unfold bind at 1. simpl bufs. rewrite Hprev.
  replace (S nbuf) with (length l2 + S (S (length l1)))%nat by lia.
  rewrite walk_prev; [|done|intros x Hx; apply recycle_skip; [intros ->; set_solver|by apply Hl2]].
  cbn [loop]. unfold bind at 1, bget_recycle. rewrite decide_False by (intros ->; set_solver).
  unfold bind, getb, gets, updb, modify, release, ret, gets. simpl.
  unfold clean, busy, dirty, has in Hc. rewrite !negb_involutive in Hc. rewrite Hc.
  destruct s; simpl in *; by subst.
Qed.

(** When every buffer is busy or pinned and the block is not cached,
    [bget] panics. *)
Lemma bget_full s d bno :
  wf s -> (forall j, (j < nbuf)%nat -> key_at s j <> (d, bno)) ->
  (forall j, (j < nbuf)%nat -> clean (bufs s !!! j) = false) ->
  bget d bno s = Panic "bget: no buffers".
Proof.
  intros (Hlock & Hlen & lru & Hr) Hu Hc.
  unfold bget, acquire, bind at 1 2, gets. rewrite Hlock. unfold modify.
  unfold bind at 1, getb, gets. unfold bind at 1.
  rewrite (lookup_loop_miss d bno (set_lock true s) _ Hr Hu).
  pose proof (ring_nodup _ _ Hr) as [_ Hh]. pose proof (ring_length _ _ Hr) as Hn.
  destruct lru as [|i lru]; [done|].
  destruct (ring_head _ [] _ _ Hr) as (_ & Hprev & _ & Hl).
  unfold bind at 1, getb, gets. unfold bind at 1. simpl bufs. rewrite Hprev.
  assert (Hrec : forall x, x ∈ i :: lru -> bget_recycle d bno x (set_lock true s) =
    Ok (inl (b_prev (bufs s !!! x))) (set_lock true s)).
  { intros x Hx. apply (recycle_skip _ _ _ (set_lock true s)); [by intros ->|].
    by apply Hc, (ring_elem _ _ _ Hr). }
  simpl in Hn. replace (S nbuf) with (length lru + 2)%nat by lia.
  rewrite walk_prev; [|done|intros x Hx; apply Hrec; by right].
  assert (Hi : b_prev (bufs s !!! i) = HEAD) by (destruct Hr as [_ [[_ ?] _]]; done).
  simpl loop. unfold bind at 1 2. rewrite Hrec by (by left). rewrite Hi.
  unfold bind, bget_recycle. by rewrite decide_True.
Qed.

End bio.
Arguments bcache D : clear implicits.
