(* ===== verification/BioSpec.v ===== *)
(** * The block store promised by the buffer cache

    [acache] is what [bio.c] promises its clients ([log.c], [fs.c]): the
    buffers held between [bread] and [brelse], the blocks pinned in the cache
    by [B_DIRTY], and the disk.  [BlockStore] states the promise as laws;
    [bio_store] proves that [bio.c] over any driver keeps it. *)

From S2P Require Import Prelude Params Disk Bio.

(** A held buffer: block, [B_DIRTY], data. *)
Record hold := mkhold { h_key : key; h_dirty : bool; h_data : block }.

Record acache := mkac {
  a_held : gmap nat hold;
  a_pend : gmap key block;
  a_disk : contents;
  a_writes : list (key * block)
}.

(** ** Abstract operations *)

Definition a_current (k : key) (a : acache) : block := default (a_disk a k) (a_pend a !! k).
Definition a_read (i : nat) (k : key) (a : acache) : acache :=
  mkac (<[i := mkhold k (bool_decide (is_Some (a_pend a !! k))) (a_current k a)]> (a_held a))
       (delete k (a_pend a)) (a_disk a) (a_writes a).
Definition a_write (i : nat) (h : hold) (a : acache) : acache :=
  mkac (<[i := mkhold (h_key h) false (h_data h)]> (a_held a)) (a_pend a)
       (upd (a_disk a) (h_key h) (h_data h)) (a_writes a ++ [(h_key h, h_data h)]).
Definition a_release (i : nat) (h : hold) (a : acache) : acache :=
  mkac (delete i (a_held a))
       (if h_dirty h then <[h_key h := h_data h]> (a_pend a) else a_pend a)
       (a_disk a) (a_writes a).
Definition a_set (i : nat) (h : hold) (d : block) (a : acache) : acache :=
  mkac (<[i := mkhold (h_key h) (h_dirty h) d]> (a_held a)) (a_pend a) (a_disk a) (a_writes a).
Definition a_mark (i : nat) (h : hold) (a : acache) : acache :=
  mkac (<[i := mkhold (h_key h) true (h_data h)]> (a_held a)) (a_pend a) (a_disk a) (a_writes a).

Definition unheld (k : key) (a : acache) : Prop :=
  forall i h, a_held a !! i = Some h -> h_key h <> k.
(** A buffer is neither held nor pinned. *)
Definition room (a : acache) : Prop := (size (a_held a) + size (a_pend a) < nbuf)%nat.

(** ** The interface *)

(** [rep R s a]: the concrete state [s] stands for [a], and every block of
    [R] is one the disk accepts. *)
Class BlockStore (S : Type) := {
  bread : Z -> Z -> M S nat;
  bwrite : nat -> M S unit;
  brelse : nat -> M S unit;
  bdata : nat -> M S block;
  bset : nat -> block -> M S unit;
  bmark : nat -> M S unit;
  bblockno : nat -> M S Z;
  rep : (key -> Prop) -> S -> acache -> Prop;
  bread_ok R s a k :
    rep R s a -> R k -> unheld k a -> is_Some (a_pend a !! k) \/ room a ->
    wp (bread (fst k) (snd k)) (fun i s' => a_held a !! i = None /\ rep R s' (a_read i k a)) s;
  bwrite_ok R s a i h :
    rep R s a -> a_held a !! i = Some h -> R (h_key h) ->
    wp (bwrite i) (fun _ s' => rep R s' (a_write i h a)) s;
  brelse_ok R s a i h :
    rep R s a -> a_held a !! i = Some h ->
    h_dirty h = true \/ h_data h = a_disk a (h_key h) ->
    wp (brelse i) (fun _ s' => rep R s' (a_release i h a)) s;
  bdata_ok R s a i h :
    rep R s a -> a_held a !! i = Some h -> wp (bdata i) (fun d s' => d = h_data h /\ s' = s) s;
  bblockno_ok R s a i h :
    rep R s a -> a_held a !! i = Some h ->
    wp (bblockno i) (fun b s' => b = snd (h_key h) /\ s' = s) s;
  bset_ok R s a i h d :
    rep R s a -> a_held a !! i = Some h ->
    wp (bset i d) (fun _ s' => rep R s' (a_set i h d a)) s;
  bmark_ok R s a i h :
    rep R s a -> a_held a !! i = Some h ->
    wp (bmark i) (fun _ s' => rep R s' (a_mark i h a)) s
}.

(** ** [bio.c] keeps the promise *)

Module BioImpl.
Section impl.
Context {D : Type} `{!Driver D}.

(** Buffer [i] as [a] describes it: held, pinned, or a clean copy of the disk. *)
Definition buf_rep (a : acache) (i : nat) (b : buf) : Prop :=
  match a_held a !! i with
  | Some h => busy b = true /\ valid b = true /\ b_dev b <> NODEV /\
              h = mkhold (b_key b) (dirty b) (b_data b)
  | None => busy b = false /\
      (if dirty b
       then valid b = true /\ b_dev b <> NODEV /\ a_pend a !! b_key b = Some (b_data b)
       else valid b = true -> b_data b = a_disk a (b_key b))
  end.

Record bio_rep (R : key -> Prop) (s : bcache D) (a : acache) : Prop := {
  br_wf : wf s;
  br_ready : forall k, R k -> fst k <> NODEV /\ drv_ready k (disk s);
  br_disk : forall k, drv_contents (disk s) k = a_disk a k;
  br_writes : drv_writes (disk s) = a_writes a;
  br_uniq : forall i j, (i < nbuf)%nat -> (j < nbuf)%nat ->
    key_at s i = key_at s j -> fst (key_at s i) <> NODEV -> i = j;
  br_bufs : forall i, (i < nbuf)%nat -> buf_rep a i (bufs s !!! i);
  br_held : forall i h, a_held a !! i = Some h -> (i < nbuf)%nat;
  br_pend : forall k v, a_pend a !! k = Some v ->
    exists i, (i < nbuf)%nat /\ key_at s i = k /\ a_held a !! i = None /\ dirty (bufs s !!! i) = true
}.

(** Change buffer [i] and the disk, leaving the other buffers alone. *)
Lemma rep_alter R s a a' i f d' w' :
  bio_rep R s a -> (i < nbuf)%nat ->
  b_prev (f (bufs s !!! i)) = b_prev (bufs s !!! i) ->
  b_next (f (bufs s !!! i)) = b_next (bufs s !!! i) ->
  (forall k, R k -> drv_ready k d') ->
  (forall k, drv_contents d' k = a_disk a' k) -> drv_writes d' = a_writes a' ->
  buf_rep a' i (f (bufs s !!! i)) ->
  b_key (f (bufs s !!! i)) = key_at s i \/
    (forall j, (j < nbuf)%nat -> key_at s j <> b_key (f (bufs s !!! i))) ->
  (forall j, j <> i -> (j < nbuf)%nat -> buf_rep a j (bufs s !!! j) -> buf_rep a' j (bufs s !!! j)) ->
  (forall j h, j <> i -> a_held a' !! j = Some h -> a_held a !! j = Some h) ->
  (forall k v, a_pend a' !! k = Some v ->
     (k = b_key (f (bufs s !!! i)) /\ a_held a' !! i = None /\ dirty (f (bufs s !!! i)) = true) \/
     exists j, j <> i /\ (j < nbuf)%nat /\ key_at s j = k /\ a_held a' !! j = None /\
       dirty (bufs s !!! j) = true) ->
  bio_rep R (mkbc false (alter f i (bufs s)) d' w') a'.
Proof.
  intros Hrep Hi Hp Hn Hready Hd Hw Hbi Hkey Hoth Hheld Hpend.
  destruct (br_wf _ _ _ Hrep) as (Hlock & Hlen & lru & Hperm & Hl).
  assert (Hat : forall j, alter f i (bufs s) !!! j =
    if decide (i = j) then f (bufs s !!! j) else bufs s !!! j).
  { intros j. apply lookup_alter_buf. lia. }
  assert (Hk : forall j, key_at (mkbc false (alter f i (bufs s)) d' w') j =
    if decide (i = j) then b_key (f (bufs s !!! j)) else key_at s j).
  { intros j. unfold key_at. simpl. rewrite Hat. by case_decide. }
  split; try done.
  - split; [done|]. simpl. rewrite length_alter. split; [done|]. exists lru. split; [done|].
    apply linked_alter; [lia|done..].
  - intros k HR. split; [by apply (br_ready _ _ _ Hrep)|by apply Hready].
  - intros j1 j2 H1 H2. rewrite !Hk.
    destruct (decide (i = j1)) as [<-|], (decide (i = j2)) as [<-|]; [done| | |].
    + destruct Hkey as [->|Hkey]; [by apply (br_uniq _ _ _ Hrep)|].
      intros Heq. by destruct (Hkey j2).
    + destruct Hkey as [->|Hkey]; [by apply (br_uniq _ _ _ Hrep)|].
      intros Heq. by destruct (Hkey j1).
    + by apply (br_uniq _ _ _ Hrep).
  - intros j Hj. cbn [bufs]. rewrite Hat. case_decide as Hij; [by subst|].
    apply Hoth; [done..|]. by apply (br_bufs _ _ _ Hrep).
  - intros j h Hh. destruct (decide (j = i)) as [->|]; [done|].
    eapply (br_held _ _ _ Hrep). by apply Hheld.
  - intros k v Hv. destruct (Hpend k v Hv) as [(-> & ? & ?)|(j & Hji & Hj & <- & ? & ?)].
    + exists i. cbn [bufs]. rewrite Hk, Hat, !decide_True by done. done.
    + exists j. cbn [bufs]. by rewrite Hk, Hat, !decide_False by done.
Qed.

(** The buffer that holds [i] is not the buffer of another block. *)
Lemma rep_key_ne R s a i j :
  bio_rep R s a -> (i < nbuf)%nat -> (j < nbuf)%nat -> i <> j -> fst (key_at s i) <> NODEV ->
  key_at s j <> key_at s i.
Proof. intros Hrep Hi Hj Hne Hnd Heq. apply Hne. by apply (br_uniq _ _ _ Hrep). Qed.

Lemma rep_held R s a i h :
  bio_rep R s a -> a_held a !! i = Some h ->
  (i < nbuf)%nat /\ busy (bufs s !!! i) = true /\ valid (bufs s !!! i) = true /\
  b_dev (bufs s !!! i) <> NODEV /\
  h = mkhold (key_at s i) (dirty (bufs s !!! i)) (b_data (bufs s !!! i)).
Proof.
  intros Hrep Hh. pose proof (br_held _ _ _ Hrep _ _ Hh) as Hi. split; [done|].
  pose proof (br_bufs _ _ _ Hrep i Hi) as Hb. unfold buf_rep in Hb. by rewrite Hh in Hb.
Qed.

Lemma busy_land b : busy b = true -> (Z.land (b_flags b) B_BUSY =? 0) = false.
Proof. unfold busy, has. by destruct (_ =? _). Qed.

(** Change a held buffer: the other buffers keep their meaning as long as the
    disk changes at most at the held block. *)
Lemma rep_alter_held R s a i h f d' w' disk' ws' :
  bio_rep R s a -> a_held a !! i = Some h ->
  b_prev (f (bufs s !!! i)) = b_prev (bufs s !!! i) ->
  b_next (f (bufs s !!! i)) = b_next (bufs s !!! i) ->
  b_key (f (bufs s !!! i)) = key_at s i ->
  busy (f (bufs s !!! i)) = true -> valid (f (bufs s !!! i)) = true ->
  (forall k, R k -> drv_ready k d') ->
  (forall k, drv_contents d' k = disk' k) -> drv_writes d' = ws' ->
  (forall k, k <> h_key h -> disk' k = a_disk a k) ->
  bio_rep R (mkbc false (alter f i (bufs s)) d' w')
    (mkac (<[i := mkhold (h_key h) (dirty (f (bufs s !!! i))) (b_data (f (bufs s !!! i)))]> (a_held a))
          (a_pend a) disk' ws').
Proof.
  intros Hrep Hh Hp Hn Hk Hb Hv Hready Hd Hw Hsame.
  destruct (rep_held _ _ _ _ _ Hrep Hh) as (Hi & _ & _ & Hdev & ->). simpl in *.
  apply (rep_alter _ _ a); try done.
  - unfold buf_rep. simpl. rewrite lookup_insert_eq. split_and!; try done.
    + intros Heq. apply Hdev. rewrite <-Heq. by injection Hk.
    + by rewrite Hk.
  - by left.
  - intros j Hj Hjn Hbj. unfold buf_rep in *. simpl. rewrite lookup_insert_ne by done.
    destruct (a_held a !! j); [done|]. destruct Hbj as [? Hbj]. split; [done|].
    destruct (dirty (bufs s !!! j)); [done|]. intros Hvj. rewrite Hsame; [by apply Hbj|].
    by apply (rep_key_ne _ _ _ _ _ Hrep).
  - intros j h' Hj. simpl. by rewrite lookup_insert_ne.
  - simpl. intros k v Hpk. right.
    destruct (br_pend _ _ _ Hrep _ _ Hpk) as (j & Hj & <- & Hhj & Hdj).
    assert (j <> i) by congruence. exists j. by rewrite lookup_insert_ne.
Qed.

Lemma bdata_rep R s a i h :
  bio_rep R s a -> a_held a !! i = Some h ->
  wp (Bio.bdata i) (fun d s' => d = h_data h /\ s' = s) s.
Proof. intros Hrep Hh. by destruct (rep_held _ _ _ _ _ Hrep Hh) as (_ & _ & _ & _ & ->). Qed.

Lemma bblockno_rep R s a i h :
  bio_rep R s a -> a_held a !! i = Some h ->
  wp (Bio.bblockno i) (fun b s' => b = snd (h_key h) /\ s' = s) s.
Proof. intros Hrep Hh. by destruct (rep_held _ _ _ _ _ Hrep Hh) as (_ & _ & _ & _ & ->). Qed.

Lemma bset_rep R s a i h d :
  bio_rep R s a -> a_held a !! i = Some h ->
  wp (Bio.bset i d) (fun _ s' => bio_rep R s' (a_set i h d a)) s.
Proof.
  intros Hrep Hh. destruct (br_wf _ _ _ Hrep) as (Hlock & _).
  destruct (rep_held _ _ _ _ _ Hrep Hh) as (Hi & Hb & Hv & _ & Heq).
  unfold Bio.bset, updb. apply wp_modify. unfold set_bufs. rewrite Hlock.
  replace (a_set i h d a) with (mkac (<[i := mkhold (h_key h) (dirty (set_data d (bufs s !!! i)))
    (b_data (set_data d (bufs s !!! i)))]> (a_held a)) (a_pend a) (a_disk a) (a_writes a)).
  - apply rep_alter_held; try done; apply Hrep.
  - unfold a_set. by rewrite Heq.
Qed.

Lemma bmark_rep R s a i h :
  bio_rep R s a -> a_held a !! i = Some h ->
  wp (Bio.bmark i) (fun _ s' => bio_rep R s' (a_mark i h a)) s.
Proof.
  intros Hrep Hh. destruct (br_wf _ _ _ Hrep) as (Hlock & _).
  destruct (rep_held _ _ _ _ _ Hrep Hh) as (Hi & Hb & Hv & _ & Heq).
  unfold Bio.bmark, updb. apply wp_modify. unfold set_bufs. rewrite Hlock.
  set (f := fun b => set_flags (Z.lor (b_flags b) B_DIRTY) b).
  replace (a_mark i h a) with (mkac (<[i := mkhold (h_key h) (dirty (f (bufs s !!! i)))
    (b_data (f (bufs s !!! i)))]> (a_held a)) (a_pend a) (a_disk a) (a_writes a)).
  - apply rep_alter_held; try done; try apply Hrep; unfold f; by flags.
  - unfold a_mark. rewrite Heq. repeat f_equal. unfold f. by flags.
Qed.

Lemma bwrite_rep R s a i h :
  bio_rep R s a -> a_held a !! i = Some h -> R (h_key h) ->
  wp (Bio.bwrite i) (fun _ s' => bio_rep R s' (a_write i h a)) s.
Proof.
  intros Hrep Hh HR. destruct (br_wf _ _ _ Hrep) as (Hlock & Hlen & _).
  destruct (rep_held _ _ _ _ _ Hrep Hh) as (Hi & Hb & Hv & Hdev & Heq).
  unfold Bio.bwrite, getb, updb. wp_steps; [by rewrite busy_land in *|].
  unfold iderw_at, updb. wp_steps. unfold set_bufs. cbn [bufs disk lock woken].
  rewrite lookup_alter_buf by lia. rewrite decide_True by done.
  set (b := set_flags (Z.lor (b_flags (bufs s !!! i)) B_DIRTY) (bufs s !!! i)).
  eapply wp_mono.
  - apply (iderw_write b); [subst b; by flags|subst b; by flags|].
    cbn [disk]. apply (br_ready _ _ _ Hrep). by rewrite Heq in HR.
  - cbn [disk set_disk]. intros b' d' (-> & Hd & Hw & Hr). apply wp_modify.
    unfold set_disk, set_bufs. cbn [bufs lock woken disk]. rewrite Hlock.
    rewrite list_alter_alter_eq.
    match goal with |- context [alter ?g i _] => set (f := g) end.
    replace (a_write i h a) with (mkac (<[i := mkhold (h_key h)
        (dirty (f (bufs s !!! i))) (b_data (f (bufs s !!! i)))]> (a_held a)) (a_pend a)
        (upd (a_disk a) (h_key h) (b_data b)) (a_writes a ++ [(h_key h, b_data b)])).
    + apply rep_alter_held; try done; subst f; cbn [compose].
      * rewrite synced_busy. subst b. by flags.
      * apply synced_valid.
      * intros k Hk. by apply Hr, (br_ready _ _ _ Hrep).
      * intros k. rewrite Hd. unfold upd. rewrite Heq. cbn [h_key].
        change (b_key b) with (key_at s i). case_decide; [done|apply (br_disk _ _ _ Hrep)].
      * rewrite Hw, (br_writes _ _ _ Hrep), Heq. done.
      * intros k Hk. by rewrite upd_ne.
    + subst f. cbn [compose]. rewrite synced_dirty. unfold a_write. by rewrite Heq.
Qed.

(** Taking a buffer that is not held for block [k]. *)
Lemma rep_take R s a i k f d' w' :
  bio_rep R s a -> R k -> (i < nbuf)%nat -> a_held a !! i = None -> unheld k a ->
  b_prev (f (bufs s !!! i)) = b_prev (bufs s !!! i) ->
  b_next (f (bufs s !!! i)) = b_next (bufs s !!! i) ->
  b_key (f (bufs s !!! i)) = k ->
  busy (f (bufs s !!! i)) = true -> valid (f (bufs s !!! i)) = true ->
  dirty (f (bufs s !!! i)) = bool_decide (is_Some (a_pend a !! k)) ->
  b_data (f (bufs s !!! i)) = a_current k a ->
  key_at s i = k \/ ((forall j, (j < nbuf)%nat -> key_at s j <> k) /\ dirty (bufs s !!! i) = false) ->
  (forall k, R k -> drv_ready k d') ->
  (forall k, drv_contents d' k = a_disk a k) -> drv_writes d' = a_writes a ->
  bio_rep R (mkbc false (alter f i (bufs s)) d' w') (a_read i k a).
Proof.
  intros Hrep HR Hi Hni Hun Hp Hn Hk Hb Hv Hdirty Hdata Hcase Hready Hd Hw.
  destruct (br_ready _ _ _ Hrep k HR) as [Hnd _].
  assert (Hne : forall j, j <> i -> (j < nbuf)%nat -> key_at s j <> k).
  { intros j Hj Hjn. destruct Hcase as [<-|[Hc _]]; [|by apply Hc].
    by apply (rep_key_ne _ _ _ _ _ Hrep). }
  apply (rep_alter _ _ a); simpl; try done.
  - unfold buf_rep. simpl. rewrite lookup_insert_eq. split_and!; try done.
    + intros Heq. apply Hnd. rewrite <-Hk. done.
    + by rewrite Hk, Hdirty, Hdata.
  - destruct Hcase as [Hc|[Hc _]]; [left|right]; by rewrite Hk.
  - intros j Hj Hjn Hbj. unfold buf_rep in *. simpl. rewrite lookup_insert_ne by done.
    destruct (a_held a !! j); [done|]. destruct Hbj as [? Hbj]. split; [done|].
    destruct (dirty (bufs s !!! j)); [|done]. rewrite lookup_delete_ne; [done|].
    intros Heq. by apply (Hne j).
  - intros j h' Hj. by rewrite lookup_insert_ne.
  - intros k' v [Hkk' Hpk]%lookup_delete_Some. right.
    destruct (br_pend _ _ _ Hrep _ _ Hpk) as (j & Hj & <- & Hhj & Hdj).
    assert (j <> i). { intros ->. destruct Hcase as [Hc|[_ Hc]]; congruence. }
    exists j. by rewrite lookup_insert_ne.
Qed.

(** Some buffer is neither busy nor dirty. *)
Lemma rep_room R s a :
  bio_rep R s a -> room a -> exists i, (i < nbuf)%nat /\ clean (bufs s !!! i) = true.
Proof.
  intros Hrep Hroom.
  destruct (existsb (fun i => clean (bufs s !!! i)) (seq 0 nbuf)) eqn:E.
  { apply existsb_exists in E as (i & Hi%in_seq & Hc). exists i. split; [lia|done]. }
  exfalso. unfold room in Hroom.
  assert (Hc : forall i, (i < nbuf)%nat -> clean (bufs s !!! i) = false).
  { intros i Hi. destruct (clean _) eqn:Hc; [|done]. rewrite <-E. symmetry.
    apply existsb_exists. exists i. rewrite in_seq. split; [lia|done]. }
  set (H := filter (fun i => is_Some (a_held a !! i)) (seq 0 nbuf)).
  set (P := filter (fun i => ~ is_Some (a_held a !! i)) (seq 0 nbuf)).
  assert (Hnd : NoDup H /\ NoDup P) by (split; apply NoDup_filter, NoDup_seq).
  assert (HP : forall i, i ∈ P -> (i < nbuf)%nat /\ fst (key_at s i) <> NODEV /\
    is_Some (a_pend a !! key_at s i)).
  { intros i [Hni Hi%elem_of_seq]%list_elem_of_filter.
    assert (Hin : (i < nbuf)%nat) by lia. split; [done|].
    pose proof (br_bufs _ _ _ Hrep i Hin) as Hb. unfold buf_rep in Hb.
    destruct (a_held a !! i); [by destruct Hni|]. destruct Hb as [Hb1 Hb2].
    specialize (Hc i Hin). unfold clean in Hc. rewrite Hb1 in Hc. simpl in Hc.
    apply negb_false_iff in Hc. rewrite Hc in Hb2. destruct Hb2 as (_ & ? & ?). eauto. }
  assert (HlenH : (length H <= size (a_held a))%nat).
  { rewrite <-size_dom. apply nodup_le_size; [apply Hnd|].
    intros i [Hi _]%list_elem_of_filter. by apply elem_of_dom. }
  assert (HlenP : (length P <= size (a_pend a))%nat).
  { rewrite <-size_dom, <-(length_map (key_at s)). apply nodup_le_size.
    - apply NoDup_fmap_2_strong; [|apply Hnd]. intros i j Hi Hj Heq.
      apply (br_uniq _ _ _ Hrep); try apply HP; done.
    - intros k (i & -> & Hi)%list_elem_of_fmap. by apply elem_of_dom, HP. }
  assert (length H + length P = nbuf)%nat; [|lia].
  rewrite <-(length_seq nbuf 0) at 1. subst H P. generalize (seq 0 nbuf) as l.
  induction l as [|x l IH]; [done|]. rewrite !filter_cons.
  destruct (decide (is_Some (a_held a !! x))); destruct (decide (~ is_Some (a_held a !! x)));
    simpl; try tauto; lia.
Qed.

(** The part of [bread] after [bget] chose buffer [i]. *)
Lemma bread_after R s a i k f :
  bio_rep R s a -> R k -> (i < nbuf)%nat -> a_held a !! i = None -> unheld k a ->
  b_prev (f (bufs s !!! i)) = b_prev (bufs s !!! i) ->
  b_next (f (bufs s !!! i)) = b_next (bufs s !!! i) ->
  b_key (f (bufs s !!! i)) = k -> busy (f (bufs s !!! i)) = true ->
  key_at s i = k \/ ((forall j, (j < nbuf)%nat -> key_at s j <> k) /\ dirty (bufs s !!! i) = false) ->
  (if valid (f (bufs s !!! i))
   then dirty (f (bufs s !!! i)) = bool_decide (is_Some (a_pend a !! k)) /\
        b_data (f (bufs s !!! i)) = a_current k a
   else dirty (f (bufs s !!! i)) = false /\ a_pend a !! k = None) ->
  wp (bf <-- getb i ;;
      (if negb (has (b_flags bf) B_VALID) then iderw_at i else ret tt) ;;; ret i)
     (fun j s' => a_held a !! j = None /\ bio_rep R s' (a_read j k a))
     (set_bufs (alter f i (bufs s)) s).
Proof.
  intros Hrep HR Hi Hni Hun Hp Hn Hk Hb Hcase Hval.
  destruct (br_wf _ _ _ Hrep) as (Hlock & Hlen & _).
  destruct (br_ready _ _ _ Hrep k HR) as [Hnd Hrdy].
  unfold getb. wp_step. wp_step. cbn [bufs set_bufs]. rewrite lookup_alter_buf by lia.
  rewrite decide_True by done. fold (valid (f (bufs s !!! i))).
  wp_step. destruct (valid (f (bufs s !!! i))) eqn:Hv; simpl negb; cbv iota.
  - wp_steps. split; [done|]. unfold set_bufs. rewrite Hlock.
    destruct Hval. apply rep_take; try done; apply Hrep || (intros; by apply (br_ready _ _ _ Hrep)).
  - destruct Hval as [Hdf Hpk]. unfold iderw_at, updb. wp_steps.
    cbn [bufs set_bufs disk]. rewrite lookup_alter_buf by lia. rewrite decide_True by done.
    eapply wp_mono; [apply iderw_read; try done; by rewrite Hk|].
    intros b' d' (-> & Hd & Hw & Hr). wp_steps. split; [done|].
    unfold set_bufs, set_disk. cbn [bufs lock woken disk]. rewrite Hlock, list_alter_alter_eq, Hk.
    apply rep_take; try done; cbn [compose].
    + exact (eq_trans (synced_busy _ (f (bufs s !!! i))) Hb).
    + exact (synced_valid _ (f (bufs s !!! i))).
    + rewrite Hpk. exact (synced_dirty _ (f (bufs s !!! i))).
    + unfold a_current. rewrite Hpk. simpl. apply (br_disk _ _ _ Hrep).
    + intros k' Hk'. by apply Hr, (br_ready _ _ _ Hrep).
    + intros k'. rewrite Hd. apply (br_disk _ _ _ Hrep).
    + rewrite Hw. apply (br_writes _ _ _ Hrep).
Qed.

Lemma bread_rep R s a k :
  bio_rep R s a -> R k -> unheld k a -> is_Some (a_pend a !! k) \/ room a ->
  wp (Bio.bread (fst k) (snd k)) (fun i s' => a_held a !! i = None /\ bio_rep R s' (a_read i k a)) s.
Proof.
  intros Hrep HR Hun Hroom.
  pose proof (br_wf _ _ _ Hrep) as Hwf.
  destruct (br_ready _ _ _ Hrep k HR) as [Hnd _].
  assert (Hkd : k = (fst k, snd k)) by (by destruct k).
  unfold Bio.bread. apply wp_bind. unfold wp at 1.
  destruct (existsb (fun i => bool_decide (key_at s i = k)) (seq 0 nbuf)) eqn:E.
  - apply existsb_exists in E as (i & Hi%in_seq & Hki%bool_decide_eq_true).
    assert (Hin : (i < nbuf)%nat) by lia. clear Hi.
    pose proof (br_bufs _ _ _ Hrep i Hin) as Hbi. unfold buf_rep in Hbi.
    destruct (a_held a !! i) as [h|] eqn:Hhi.
    { exfalso. apply (Hun _ _ Hhi). destruct Hbi as (_ & _ & _ & ->). done. }
    destruct Hbi as [Hbusy Hbi].
    rewrite (bget_hit s _ _ i); [|done|done|by rewrite <-Hkd|].
    2:{ intros j Hj Hkj. apply (br_uniq _ _ _ Hrep); [done..|by rewrite Hkj, Hki, <-Hkd|].
        by rewrite Hkj. }
    rewrite Hbusy. apply bread_after; try done; [unfold taken; by flags|by left|].
    assert (Ht : valid (taken (bufs s !!! i)) = valid (bufs s !!! i) /\
      dirty (taken (bufs s !!! i)) = dirty (bufs s !!! i)) by (unfold taken; by flags).
    destruct Ht as [-> ->]. cbn [taken b_data set_flags].
    assert (Hpend : dirty (bufs s !!! i) = false -> a_pend a !! k = None).
    { intros Hd. destruct (a_pend a !! k) eqn:Hpk; [|done].
      destruct (br_pend _ _ _ Hrep _ _ Hpk) as (j & Hj & Hkj & _ & Hdj).
      assert (i = j); [|congruence].
      apply (br_uniq _ _ _ Hrep); [done..|congruence|by rewrite Hki]. }
    unfold a_current. change (b_key (bufs s !!! i)) with (key_at s i) in Hbi. rewrite Hki in Hbi.
    destruct (dirty (bufs s !!! i)) eqn:Hdi.
    + destruct Hbi as (-> & _ & ->). done.
    + rewrite Hpend by done. destruct (valid (bufs s !!! i)); [|done]. split; [done|by apply Hbi].
  - assert (Hmiss : forall j, (j < nbuf)%nat -> key_at s j <> k).
    { intros j Hj Hkj. assert (true = false); [|done]. rewrite <-E. symmetry.
      apply existsb_exists. exists j. rewrite in_seq. split; [lia|]. by apply bool_decide_eq_true. }
    assert (Hpk : a_pend a !! k = None).
    { destruct (a_pend a !! k) eqn:Hpk; [|done].
      destruct (br_pend _ _ _ Hrep _ _ Hpk) as (j & Hj & Hkj & _). by destruct (Hmiss j). }
    destruct Hroom as [[? ?]|Hroom]; [congruence|].
    destruct (rep_room _ _ _ Hrep Hroom) as (i0 & Hi0 & Hc0).
    destruct Hwf as (Hlock & Hlen & lru & Hring).
    destruct (exists_last_such (fun i => clean (bufs s !!! i)) lru) as (l1 & i & l2 & -> & Hc & Hl2).
    { exists i0. by rewrite (ring_elem _ _ _ Hring). }
    rewrite (bget_miss s _ _ l1 i l2); try done; [|by rewrite <-Hkd].
    assert (Hi : (i < nbuf)%nat) by (apply (ring_elem _ _ _ Hring), elem_of_app; right; by left).
    unfold clean in Hc. apply andb_true_iff in Hc as [Hnb%negb_true_iff Hnd'%negb_true_iff].
    apply bread_after; try done.
    + pose proof (br_bufs _ _ _ Hrep i Hi) as Hbi. unfold buf_rep in Hbi.
      destruct (a_held a !! i); [|done]. destruct Hbi; congruence.
    + right. done.
Qed.

(** What [acache] sees of a buffer: everything but the list pointers. *)
Definition core (b : buf) : Z * key * block := (b_flags b, b_key b, b_data b).

Lemma core_alter f (i j : nat) (bs : list buf) :
  (forall b, core (f b) = core b) -> core (alter f i bs !!! j) = core (bs !!! j).
Proof.
  intros Hf. rewrite !list_lookup_total_alt, list_lookup_alter. case_decide; [|done].
  subst. destruct (bs !! j); simpl; [apply Hf|done].
Qed.

Lemma core_to_front b j bs : core (to_front b bs !!! j) = core (bs !!! j).
Proof. unfold to_front. by repeat rewrite core_alter by done. Qed.

Lemma rep_ext R s s' a :
  bio_rep R s a -> wf s' -> disk s' = disk s ->
  (forall j, core (bufs s' !!! j) = core (bufs s !!! j)) -> bio_rep R s' a.
Proof.
  intros Hrep Hwf Hd Hc.
  assert (Hk : forall j, key_at s' j = key_at s j) by (intros j; exact (f_equal (fun c => snd (fst c)) (Hc j))).
  assert (Hf : forall j, b_flags (bufs s' !!! j) = b_flags (bufs s !!! j))
    by (intros j; exact (f_equal (fun c => fst (fst c)) (Hc j))).
  assert (Hda : forall j, b_data (bufs s' !!! j) = b_data (bufs s !!! j))
    by (intros j; exact (f_equal snd (Hc j))).
  split; rewrite ?Hd; try apply Hrep; try done.
  - intros i j. rewrite !Hk. apply Hrep.
  - intros i Hi. pose proof (br_bufs _ _ _ Hrep i Hi) as Hb.
    unfold buf_rep, busy, valid, dirty in *. specialize (Hk i). unfold key_at in Hk.
    assert (b_dev (bufs s' !!! i) = b_dev (bufs s !!! i)) as Hdev by (by injection Hk).
    by rewrite Hk, Hf, Hda, Hdev.
  - intros k v Hv. destruct (br_pend _ _ _ Hrep k v Hv) as (i & Hi).
    exists i. unfold dirty in *. by rewrite Hk, Hf.
Qed.

Definition released (b : buf) : buf := set_flags (clr (b_flags b) B_BUSY) b.

Lemma brelse_run (s : bcache D) i :
  lock s = false -> busy (bufs s !!! i) = true ->
  Bio.brelse i s = Ok tt (mkbc false (alter released i (to_front i (bufs s))) (disk s) (woken s ++ [i])).
Proof.
  intros Hlock Hb. unfold Bio.brelse, getb, updb, acquire, release, wakeup, bind, gets, modify.
  rewrite busy_land by done. by rewrite Hlock.
Qed.

Lemma wf_to_front (s : bcache D) i w :
  wf s -> (i < nbuf)%nat -> wf (mkbc false (to_front i (bufs s)) (disk s) w).
Proof.
  intros (Hlock & Hlen & lru & Hr) Hi.
  apply (ring_elem _ _ _ Hr), list_elem_of_split in Hi as (l1 & l2 & ->).
  split; [done|]. split; [unfold to_front; simpl; by rewrite !length_alter|].
  exists (i :: l1 ++ l2). by apply ring_to_front.
Qed.

Lemma brelse_rep R s a i h :
  bio_rep R s a -> a_held a !! i = Some h ->
  h_dirty h = true \/ h_data h = a_disk a (h_key h) ->
  wp (Bio.brelse i) (fun _ s' => bio_rep R s' (a_release i h a)) s.
Proof.
  intros Hrep0 Hh Hok.
  destruct (rep_held _ _ _ _ _ Hrep0 Hh) as (Hi & Hb & _ & _ & _).
  pose proof (br_wf _ _ _ Hrep0) as Hwf. unfold wp.
  rewrite brelse_run by (apply Hwf || done).
  set (s1 := mkbc false (to_front i (bufs s)) (disk s) (woken s ++ [i])).
  assert (Hrep : bio_rep R s1 a).
  { apply (rep_ext _ s); [done|by apply wf_to_front|done|].
    intros j. apply core_to_front. }
  clear Hrep0 Hwf Hb Hi. destruct (rep_held _ _ _ _ _ Hrep Hh) as (Hi & Hb & Hv & Hdev & Heq).
  change (to_front i (bufs s)) with (bufs s1). change (disk s) with (disk s1).
  assert (Hd : busy (released (bufs s1 !!! i)) = false /\
    valid (released (bufs s1 !!! i)) = valid (bufs s1 !!! i) /\
    dirty (released (bufs s1 !!! i)) = dirty (bufs s1 !!! i)) by (unfold released; by flags).
  destruct Hd as (Hb' & Hv' & Hd'). subst h. cbn [h_dirty h_data h_key] in Hok.
  apply (rep_alter _ _ a); try done; cbn [a_release a_held a_pend h_dirty h_key h_data].
  - intros k Hk. by apply (br_ready _ _ _ Hrep).
  - apply (br_disk _ _ _ Hrep).
  - apply (br_writes _ _ _ Hrep).
  - unfold buf_rep. cbn [a_release a_held a_pend a_disk h_dirty h_key h_data]. rewrite lookup_delete_eq, Hb', Hv', Hd'. split; [done|].
    destruct (dirty (bufs s1 !!! i)) eqn:Hdi.
    2:{ destruct Hok as [Hok|Hok]; [done|intros _; exact Hok]. }
    split_and!; [done|done|apply lookup_insert_eq].
  - by left.
  - intros j Hj Hjn Hbj. unfold buf_rep in *.
    cbn [a_release a_held a_pend a_disk h_dirty h_key h_data]. rewrite lookup_delete_ne by done.
    destruct (a_held a !! j); [done|]. destruct Hbj as [? Hbj]. split; [done|].
    destruct (dirty (bufs s1 !!! j)); [|done]. destruct Hbj as (? & ? & ?). split_and!; try done.
    destruct (dirty (bufs s1 !!! i)); [|done]. rewrite lookup_insert_ne; [done|].
    intros Hk. symmetry in Hk. revert Hk. by apply (rep_key_ne _ _ _ _ _ Hrep).
  - intros j h' Hj. by rewrite lookup_delete_ne.
  - intros k v Hk. destruct (dirty (bufs s1 !!! i)) eqn:Hdi.
    + apply lookup_insert_Some in Hk as [[<- _]|[_ Hk]].
      * left. by rewrite lookup_delete_eq, Hd'.
      * right. destruct (br_pend _ _ _ Hrep _ _ Hk) as (j & Hj & <- & Hhj & Hdj).
        exists j. rewrite lookup_delete_ne by congruence. split_and!; try done. congruence.
    + right. destruct (br_pend _ _ _ Hrep _ _ Hk) as (j & Hj & <- & Hhj & Hdj).
      exists j. rewrite lookup_delete_ne by congruence. split_and!; try done. congruence.
Qed.

#[export] Instance bio_store : BlockStore (bcache D) := {
  bread := Bio.bread; bwrite := Bio.bwrite; brelse := Bio.brelse;
  bdata := Bio.bdata; bset := Bio.bset; bmark := Bio.bmark; bblockno := Bio.bblockno;
  rep := bio_rep;
  bread_ok := bread_rep; bwrite_ok := bwrite_rep; brelse_ok := brelse_rep;
  bdata_ok := bdata_rep; bblockno_ok := bblockno_rep; bset_ok := bset_rep; bmark_ok := bmark_rep
}.

(** ** [binit] *)

(** [bcache.buf] and [bcache.head] at boot: zeroed memory. *)
Definition zero_bufs : list buf := replicate (S nbuf) (mkbuf 0 0 0 0 0 None (replicate (Z.to_nat BSIZE) 0)).
(** What [binit] leaves: every buffer on device [-1], linked from the last
    one to the first. *)
Definition boot_buf (i : nat) : buf :=
  mkbuf 0 (if decide (i = HEAD) then 0 else NODEV) 0
    (if decide (i = HEAD) then O else S i)
    (if decide (i = O) then HEAD else pred i) None (replicate (Z.to_nat BSIZE) 0).
Definition boot_bufs : list buf := map boot_buf (seq 0 (S nbuf)).

Lemma boot_bufs_at i : (i <= nbuf)%nat -> boot_bufs !!! i = boot_buf i.
Proof.
  intros Hi. unfold boot_bufs. rewrite list_lookup_total_alt, list_lookup_fmap.
  rewrite lookup_seq_lt by lia. done.
Qed.

Lemma binit_run l (d : D) w : binit (mkbc l zero_bufs d w) = Ok tt (mkbc false boot_bufs d w).
Proof. vm_compute. reflexivity. Qed.

Lemma boot_linked n : (n <= nbuf)%nat -> linked boot_bufs (rev (seq 0 n) ++ [HEAD]).
Proof.
  induction n as [|n IH]; intros Hn; [done|].
  rewrite seq_S, rev_app_distr. simpl. specialize (IH ltac:(lia)).
  destruct (rev (seq 0 n) ++ [HEAD]) as [|y l] eqn:E; [done|]. split; [|done].
  assert (y = if decide (n = O) then HEAD else pred n) as ->.
  { destruct n as [|n]; [by injection E|]. rewrite seq_S, rev_app_distr in E. by injection E. }
  unfold link. rewrite !boot_bufs_at by (case_decide; unfold HEAD in *; lia).
  split; [done|]. unfold boot_buf, HEAD in *. simpl.
  repeat case_decide; subst; lia.
Qed.

Lemma boot_ring : ring boot_bufs (rev (seq 0 nbuf)).
Proof.
  split; [by rewrite <-Permutation_rev|]. pose proof (boot_linked nbuf (le_n _)) as Hl.
  assert (rev (seq 0 nbuf) ++ [HEAD] = pred nbuf :: rev (seq 0 (pred nbuf)) ++ [HEAD]) as E by done.
  rewrite E in Hl |- *. rewrite linked_cons. split; [|done]. by split.
Qed.

Lemma boot_rep R (d : D) w :
  (forall k, R k -> fst k <> NODEV /\ drv_ready k d) ->
  bio_rep R (mkbc false boot_bufs d w) (mkac ∅ ∅ (drv_contents d) (drv_writes d)).
Proof.
  intros HR.
  assert (Hflags : forall i, b_flags (boot_buf i) = 0) by done.
  split; try done.
  - split; [done|]. split; [done|]. exists (rev (seq 0 nbuf)). apply boot_ring.
  - intros i j Hi Hj _. unfold key_at. cbn [bufs]. rewrite boot_bufs_at by lia.
    unfold b_key, boot_buf. cbn [b_dev fst]. rewrite decide_False by (unfold HEAD; lia). done.
  - intros i Hi. cbn [bufs]. rewrite boot_bufs_at by lia. unfold buf_rep. cbn [a_held].
    rewrite lookup_empty. split; [done|]. unfold dirty, valid. rewrite Hflags. done.
Qed.

(** [binit] establishes the representation: nothing held, nothing pinned. *)
Lemma binit_rep R l (d : D) w :
  (forall k, R k -> fst k <> NODEV /\ drv_ready k d) ->
  wp binit (fun _ s' => bio_rep R s' (mkac ∅ ∅ (drv_contents d) (drv_writes d))) (mkbc l zero_bufs d w).
Proof. intros HR. apply (proj2 (wp_ok _ _ _)). exists tt, (mkbc false boot_bufs d w). split; [apply binit_run|]. by apply boot_rep. Qed.

(** ** What the cache guarantees *)

(** C3. The buffer cache refines the abstract block store: from a state that
    represents [a], [bread] returns a buffer that holds the latest contents of
    the block (pinned copy, or disk), [bwrite] puts the buffer on disk, and
    [brelse] gives it back, keeping it pinned if dirty; each returns and
    preserves the representation. *)
Theorem bio_refines R (s : bcache D) a :
  bio_rep R s a ->
  (forall k, R k -> unheld k a -> is_Some (a_pend a !! k) \/ room a ->
    wp (Bio.bread (fst k) (snd k)) (fun i s' => a_held a !! i = None /\
      b_data (bufs s' !!! i) = a_current k a /\ bio_rep R s' (a_read i k a)) s) /\
  (forall i h, a_held a !! i = Some h -> R (h_key h) ->
    wp (Bio.bwrite i) (fun _ s' => bio_rep R s' (a_write i h a) /\
      drv_contents (disk s') (h_key h) = h_data h) s) /\
  (forall i h, a_held a !! i = Some h -> h_dirty h = true \/ h_data h = a_disk a (h_key h) ->
    wp (Bio.brelse i) (fun _ s' => bio_rep R s' (a_release i h a)) s).
Proof.
  intros Hrep. split_and!.
  - intros k HR Hu Hr. eapply wp_mono; [by apply bread_rep|].
    intros i s' (Hi & Hr'). split_and!; [done| |done].
    destruct (rep_held _ _ _ i _ Hr' (lookup_insert_eq _ _ _)) as (_ & _ & _ & _ & [= _ _ ->]). done.
  - intros i h Hi HR. eapply wp_mono; [by apply bwrite_rep|].
    intros [] s' Hr'. split; [done|]. rewrite (br_disk _ _ _ Hr'). apply upd_eq.
  - intros i h Hi Hc. by apply brelse_rep.
Qed.

(** Replacement is least recently used: [brelse] makes its buffer the
    most recently used one, and a [bget] that misses recycles the least
    recently used buffer that is neither busy nor dirty. *)
Theorem bio_lru (s : bcache D) l1 i l2 :
  lock s = false -> length (bufs s) = S nbuf -> ring (bufs s) (l1 ++ i :: l2) ->
  (busy (bufs s !!! i) = true ->
    wp (Bio.brelse i) (fun _ s' => ring (bufs s') (i :: l1 ++ l2) /\ lock s' = false) s) /\
  (forall d bno, (forall j, (j < nbuf)%nat -> key_at s j <> (d, bno)) ->
    clean (bufs s !!! i) = true -> (forall j, j ∈ l2 -> clean (bufs s !!! j) = false) ->
    wp (bget d bno) (fun j s' => j = i /\ key_at s' i = (d, bno) /\ ring (bufs s') (l1 ++ i :: l2)) s).
Proof.
  intros Hlock Hlen Hr. split.
  - intros Hb. unfold wp. rewrite brelse_run by done. split; [|done]. cbn [bufs].
    destruct (ring_to_front _ _ _ _ Hlen Hr) as [Hp Hl]. split; [done|].
    apply linked_alter; [|done..]. pose proof (ring_elem _ _ i Hr) as Hi.
    unfold to_front. rewrite !length_alter, Hlen. rewrite elem_of_app, elem_of_cons in Hi. lia.
  - intros d bno Hu Hc Hl2. unfold wp. rewrite (bget_miss s d bno l1 i l2) by done.
    assert (Hi : (i < nbuf)%nat) by (apply (ring_elem _ _ i Hr); rewrite elem_of_app, elem_of_cons; auto).
    split_and!; [done| |].
    + unfold key_at. cbn [bufs set_bufs]. rewrite lookup_alter_buf by lia. by rewrite decide_True.
    + destruct Hr as [Hp Hl]. split; [done|]. cbn [bufs set_bufs]. apply linked_alter; [lia|done..].
Qed.

End impl.
End BioImpl.

(** ** Example: the cache over a memory disk, just booted *)

Module BootedCache.
Definition image : list block := replicate 40 (replicate (Z.to_nat BSIZE) 5).
Definition disk0 : Memide.state := Memide.ideinit image (40 * BSIZE).
Definition booted : bcache Memide.state := mkbc false BioImpl.boot_bufs disk0 [].
Definition known (k : key) : Prop := k = (1, 3).
Definition abstract : acache := mkac ∅ ∅ (Memide.contents_of disk0) [].

Lemma booted_rep : BioImpl.bio_rep known booted abstract.
Proof.
  assert (H : forall k, known k -> fst k <> NODEV /\ drv_ready k disk0) by (intros k ->; by split_and!).
  exact (BioImpl.boot_rep known disk0 [] H).
Qed.
End BootedCache.

Lemma bio_refines_witness :
  wp (Bio.bread 1 3) (fun i s' => b_data (bufs s' !!! i) = replicate (Z.to_nat BSIZE) 5) BootedCache.booted.
Proof.
  eapply wp_mono;
    [apply (proj1 (BioImpl.bio_refines BootedCache.known _ _ BootedCache.booted_rep) (1, 3))|].
  - reflexivity.
  - intros i h. unfold BootedCache.abstract. cbn. rewrite lookup_empty. discriminate.
  - right. unfold room. cbn [BootedCache.abstract a_held a_pend]. rewrite !map_size_empty. compute. lia.
  - intros i s' (_ & -> & _). reflexivity.
Defined.

Lemma bio_lru_witness :
  wp (bget 1 3) (fun j s' => j = 0%nat /\ key_at s' 0 = (1, 3)) BootedCache.booted.
Proof.
  eapply wp_mono;
    [apply (proj2 (BioImpl.bio_lru BootedCache.booted (rev (seq 1 29)) 0 [] eq_refl eq_refl BioImpl.boot_ring) 1 3)|].
  - intros j Hj. unfold key_at. cbn [bufs BootedCache.booted]. rewrite BioImpl.boot_bufs_at by lia.
    unfold b_key. intros [= H _].
  - reflexivity.
  - intros j Hj. by apply elem_of_nil in Hj.
  - intros j s' (-> & Hk & _). done.
Defined.

(** Every buffer busy on another block. *)
Lemma bget_full_witness :
  bget 1 3 (mkbc false (map (set_flags B_BUSY) BioImpl.boot_bufs) BootedCache.disk0 []) =
  Panic "bget: no buffers".
Proof.
  assert (Hat : forall j, (j < nbuf)%nat ->
    map (set_flags B_BUSY) BioImpl.boot_bufs !!! j = set_flags B_BUSY (BioImpl.boot_buf j)).
  { intros j Hj. rewrite map_flags_at by (change (j < 31)%nat; change nbuf with 30%nat in Hj; lia).
    by rewrite BioImpl.boot_bufs_at by lia. }
  apply bget_full.
  - split; [done|]. split; [done|]. exists (rev (seq 0 nbuf)). apply ring_set_flags; [done|apply BioImpl.boot_ring].
  - intros j Hj. unfold key_at. cbn [bufs]. rewrite Hat by done.
    unfold b_key. intros [= H _].
  - intros j Hj. cbn [bufs]. rewrite Hat by done. done.
Defined.

(** ** The reference store

    [acache] run directly: the interface's laws hold by definition.  It is the
    executable model the clients' examples evaluate on. *)
Module Ideal.

Definition held_keys (a : acache) : list key := map (fun ih => h_key (snd ih)) (map_to_list (a_held a)).

Definition bread (d b : Z) : M acache nat := fun a =>
  if decide ((d, b) ∈ held_keys a) then Sleep 0 a
  else if decide (is_Some (a_pend a !! (d, b)) \/ (size (a_held a) + size (a_pend a) < nbuf)%nat) then
    let i := fresh (dom (a_held a)) in Ok i (a_read i (d, b) a)
  else Panic "bget: no buffers".
(** An operation on a held buffer. *)
Definition on_held {A} (f : hold -> acache -> A * acache) (i : nat) : M acache A := fun a =>
  match a_held a !! i with
  | Some h => let '(r, a') := f h a in Ok r a'
  | None => Panic "not held"
  end.
Definition bwrite (i : nat) : M acache unit := on_held (fun h a => (tt, a_write i h a)) i.
Definition brelse (i : nat) : M acache unit := on_held (fun h a => (tt, a_release i h a)) i.
Definition bdata (i : nat) : M acache block := on_held (fun h a => (h_data h, a)) i.
Definition bset (i : nat) (d : block) : M acache unit := on_held (fun h a => (tt, a_set i h d a)) i.
Definition bmark (i : nat) : M acache unit := on_held (fun h a => (tt, a_mark i h a)) i.
Definition bblockno (i : nat) : M acache Z := on_held (fun h a => (snd (h_key h), a)) i.

Definition ideal_rep (R : key -> Prop) (s a : acache) : Prop := s = a.

Lemma unheld_keys k a : unheld k a -> k ∉ held_keys a.
Proof.
  intros Hu ([i h] & -> & Hin)%list_elem_of_fmap. apply elem_of_map_to_list in Hin. by apply (Hu i h).
Qed.

Lemma bread_law R s a k :
  ideal_rep R s a -> R k -> unheld k a -> is_Some (a_pend a !! k) \/ room a ->
  wp (bread (fst k) (snd k)) (fun i s' => a_held a !! i = None /\ ideal_rep R s' (a_read i k a)) s.
Proof.
  intros -> _ Hu Hr. destruct k as [d b]. unfold wp, bread. simpl.
  rewrite decide_False by by apply unheld_keys. rewrite decide_True by done.
  split; [|done]. apply not_elem_of_dom. apply is_fresh.
Qed.

Lemma held_law {A} (f : hold -> acache -> A * acache) i a h :
  a_held a !! i = Some h -> wp (on_held f i) (fun r s' => (r, s') = f h a) a.
Proof. intros Hi. unfold wp, on_held. rewrite Hi. by destruct (f h a). Qed.

Ltac law := unfold ideal_rep; intros; subst; eapply wp_mono; [by apply held_law|]; by intros ? ? [= -> ->].

#[export] Instance ideal_store : BlockStore acache.
Proof.
  refine {| BioSpec.bread := bread; BioSpec.bwrite := bwrite; BioSpec.brelse := brelse;
    BioSpec.bdata := bdata; BioSpec.bset := bset; BioSpec.bmark := bmark;
    BioSpec.bblockno := bblockno; rep := ideal_rep; bread_ok := bread_law |}; law.
Defined.

End Ideal.
#[export] Existing Instance Ideal.ideal_store.
#[export] Existing Instance BioImpl.bio_store.
