(* ===== verification/Layout.v ===== *)
(** * On-disk structures

    Byte-level access to a block, the log header of [log.c] and the
    superblock of [fs.h], as the C code overlays them on [bp->data]. *)

From S2P Require Import Prelude Params.

(** ** Little-endian words inside a block *)

Definition get32 (off : nat) (l : list Z) : Z := le_value (take 4 (drop off l)).
Definition put32 (off : nat) (v : Z) (l : list Z) : list Z := splice off (le_bytes 4 v) l.
Definition get16 (off : nat) (l : list Z) : Z := le_value (take 2 (drop off l)).
Definition put16 (off : nat) (v : Z) (l : list Z) : list Z := splice off (le_bytes 2 v) l.

Lemma splice_in n l' l :
  (n + length l' <= length l)%nat -> splice n l' l = take n l ++ l' ++ drop (n + length l') l.
Proof. intros. unfold splice. by rewrite (take_ge l') by lia. Qed.

Lemma take_drop_splice n l' l :
  (n + length l' <= length l)%nat -> take (length l') (drop n (splice n l' l)) = l'.
Proof.
  intros. rewrite splice_in by done. rewrite drop_app_length' by (rewrite length_take; lia).
  by rewrite take_app_length.
Qed.

(** Bytes outside the spliced range keep their value. *)
Lemma take_drop_splice_ne n l' l m k :
  (n + length l' <= length l)%nat -> (m + k <= n \/ n + length l' <= m)%nat ->
  take k (drop m (splice n l' l)) = take k (drop m l).
Proof.
  intros Hn [Hm|Hm]; rewrite splice_in by done.
  - rewrite drop_app_le by (rewrite length_take; lia).
    rewrite take_app_le by (rewrite length_drop, length_take; lia).
    rewrite <-(take_drop n l) at 2. rewrite drop_app_le by (rewrite length_take; lia).
    by rewrite take_app_le by (rewrite length_drop, length_take; lia).
  - rewrite drop_app_ge by (rewrite length_take; lia).
    rewrite length_take, Nat.min_l by lia. rewrite drop_app_ge by lia.
    rewrite drop_drop. do 2 f_equal. lia.
Qed.

Lemma length_put32 off v l : (off <= length l)%nat -> length (put32 off v l) = length l.
Proof. apply length_splice. Qed.
Lemma length_put16 off v l : (off <= length l)%nat -> length (put16 off v l) = length l.
Proof. apply length_splice. Qed.

Lemma get_put32 off v l : (off + 4 <= length l)%nat -> get32 off (put32 off v l) = u32 v.
Proof.
  intros. unfold get32, put32.
  change 4%nat with (length (le_bytes 4 v)) at 1.
  rewrite take_drop_splice by (rewrite length_le_bytes; lia). by rewrite le_value_bytes.
Qed.
Lemma get_put16 off v l : (off + 2 <= length l)%nat -> get16 off (put16 off v l) = u16 v.
Proof.
  intros. unfold get16, put16.
  change 2%nat with (length (le_bytes 2 v)) at 1.
  rewrite take_drop_splice by (rewrite length_le_bytes; lia). by rewrite le_value_bytes.
Qed.
Lemma get_put32_ne off off' v l :
  (off + 4 <= length l)%nat -> (off' + 4 <= off \/ off + 4 <= off')%nat ->
  get32 off' (put32 off v l) = get32 off' l.
Proof.
  intros. unfold get32, put32.
  by rewrite take_drop_splice_ne by (rewrite length_le_bytes; lia).
Qed.

(** ** struct logheader (log.c)

    [int n; int block[LOGSIZE]]: [n] at offset 0, [block[i]] at [4 + 4 i]. *)
Definition lh_n (b : list Z) : Z := i32 (get32 0 b).
Definition lh_block (i : nat) (b : list Z) : Z := i32 (get32 (4 + 4 * i) b).
Definition set_lh_n (n : Z) (b : list Z) : list Z := put32 0 n b.
Definition set_lh_block (i : nat) (v : Z) (b : list Z) : list Z := put32 (4 + 4 * i) v b.
(** [sizeof(struct logheader)] *)
Definition sizeof_logheader : Z := 4 + 4 * LOGSIZE.

(** ** struct superblock (fs.h): seven [uint]s *)
Record superblock := mksb {
  sb_size : Z;
  sb_nblocks : Z;
  sb_ninodes : Z;
  sb_nlog : Z;
  sb_logstart : Z;
  sb_inodestart : Z;
  sb_bmapstart : Z
}.
Definition decode_sb (b : list Z) : superblock :=
  mksb (get32 0 b) (get32 4 b) (get32 8 b) (get32 12 b) (get32 16 b) (get32 20 b) (get32 24 b).

#[global] Arguments get32 : simpl never.
#[global] Arguments put32 : simpl never.
#[global] Arguments get16 : simpl never.
#[global] Arguments put16 : simpl never.
#[global] Arguments set_lh_n : simpl never.
#[global] Arguments set_lh_block : simpl never.
#[global] Arguments lh_n : simpl never.
#[global] Arguments lh_block : simpl never.
