(* ===== verification/Log.v ===== *)
(** * log.c: the redo log

    [begin_op]/[end_op], [log_write], commit and recovery, over any block
    store ([BlockStore]).  The theorems are in [LogSpec] (functional) and
    [LogCrash] (crash safety). *)

From S2P Require Import Prelude Params Disk BioSpec Layout.

Section log.
Context {S : Type} `{!BlockStore S}.

(** ** State *)

(** [struct log] and the buffer cache below it.  [lh_count] and [lh_blocks] are
    [log.lh]; [committing] is the C int as a boolean; [wakeups] counts the calls
    of [wakeup(&log)]. *)
Record log := mklog {
  l_lock : bool;
  l_start : Z;
  l_size : Z;
  outstanding : Z;
  committing : bool;
  l_dev : Z;
  lh_count : Z;
  lh_blocks : list Z;
  wakeups : nat;
  bc : S
}.

Definition set_l_lock v s := mklog v (l_start s) (l_size s) (outstanding s) (committing s) (l_dev s)
  (lh_count s) (lh_blocks s) (wakeups s) (bc s).
Definition set_outstanding v s := mklog (l_lock s) (l_start s) (l_size s) v (committing s) (l_dev s)
  (lh_count s) (lh_blocks s) (wakeups s) (bc s).
Definition set_committing v s := mklog (l_lock s) (l_start s) (l_size s) (outstanding s) v (l_dev s)
  (lh_count s) (lh_blocks s) (wakeups s) (bc s).
Definition set_geometry st sz dv s := mklog (l_lock s) st sz (outstanding s) (committing s) dv
  (lh_count s) (lh_blocks s) (wakeups s) (bc s).
Definition set_count v s := mklog (l_lock s) (l_start s) (l_size s) (outstanding s) (committing s)
  (l_dev s) v (lh_blocks s) (wakeups s) (bc s).
Definition set_blocks v s := mklog (l_lock s) (l_start s) (l_size s) (outstanding s) (committing s)
  (l_dev s) (lh_count s) v (wakeups s) (bc s).
Definition set_bc v s := mklog (l_lock s) (l_start s) (l_size s) (outstanding s) (committing s)
  (l_dev s) (lh_count s) (lh_blocks s) (wakeups s) v.
Definition set_wakeups v s := mklog (l_lock s) (l_start s) (l_size s) (outstanding s) (committing s)
  (l_dev s) (lh_count s) (lh_blocks s) v (bc s).

(** A block-store operation inside a log operation. *)
Definition on_bc {A} (m : M S A) : M log A := zoom bc set_bc m.

Definition acquire : M log unit :=
  l <-- gets l_lock ;; if (l : bool) then panic "acquire" else modify (set_l_lock true).
Definition release : M log unit :=
  l <-- gets l_lock ;; if (l : bool) then modify (set_l_lock false) else panic "release".
Definition wakeup : M log unit := modify (fun s => set_wakeups (Datatypes.S (wakeups s)) s).

(** [log.lh.block[i] = v]; an index outside the array is undefined in C. *)
Definition put_block (i : nat) (v : Z) : M log unit :=
  s <-- get ;;
  if decide (i < length (lh_blocks s))%nat
  then modify (set_blocks (<[i := v]> (lh_blocks s)))
  else panic "undefined: log.lh.block[] out of bounds".
Definition get_block (i : nat) : M log Z :=
  s <-- get ;;
  match lh_blocks s !! i with
  | Some v => ret v
  | None => panic "undefined: log.lh.block[] out of bounds"
  end.

(** ** fs.c:readsb, which [initlog] calls *)
Definition readsb (dev : Z) : M log superblock :=
  bp <-- on_bc (bread dev 1) ;;
  d <-- on_bc (bdata bp) ;;
  on_bc (brelse bp) ;;;
  ret (decode_sb d).

(** ** Commit and recovery *)

Definition install_step (tail : nat) : M log unit :=
  s <-- get ;;
  lbuf <-- on_bc (bread (l_dev s) (u32 (l_start s + Z.of_nat tail + 1))) ;;
  b <-- get_block tail ;;
  dbuf <-- on_bc (bread (l_dev s) (u32 b)) ;;
  d <-- on_bc (bdata lbuf) ;;
  on_bc (bset dbuf d) ;;;
  on_bc (bwrite dbuf) ;;;
  on_bc (brelse lbuf) ;;;
  on_bc (brelse dbuf).

Definition install_trans : M log unit :=
  s <-- get ;; for_each (seq 0 (Z.to_nat (lh_count s))) install_step.

Definition read_head : M log unit :=
  s <-- get ;;
  buf <-- on_bc (bread (l_dev s) (u32 (l_start s))) ;;
  d <-- on_bc (bdata buf) ;;
  modify (set_count (lh_n d)) ;;;
  for_each (seq 0 (Z.to_nat (lh_n d))) (fun i => put_block i (lh_block i d)) ;;;
  on_bc (brelse buf).

Definition write_head : M log unit :=
  s <-- get ;;
  buf <-- on_bc (bread (l_dev s) (u32 (l_start s))) ;;
  d <-- on_bc (bdata buf) ;;
  on_bc (bset buf (set_lh_n (lh_count s) d)) ;;;
  for_each (seq 0 (Z.to_nat (lh_count s))) (fun i =>
    b <-- get_block i ;;
    d <-- on_bc (bdata buf) ;;
    on_bc (bset buf (set_lh_block i b d))) ;;;
  on_bc (bwrite buf) ;;;
  on_bc (brelse buf).

Definition recover_from_log : M log unit :=
  read_head ;;;
  install_trans ;;;
  modify (set_count 0) ;;;
  write_head.

Definition initlog (dev : Z) : M log unit :=
  if BSIZE <=? sizeof_logheader then panic "initlog: too big logheader"
  else
    modify (set_l_lock false) ;;;
    sb <-- readsb dev ;;
    modify (set_geometry (i32 (sb_logstart sb)) (i32 (sb_nlog sb)) dev) ;;;
    recover_from_log.

Definition write_log_step (tail : nat) : M log unit :=
  s <-- get ;;
  to <-- on_bc (bread (l_dev s) (u32 (l_start s + Z.of_nat tail + 1))) ;;
  b <-- get_block tail ;;
  from <-- on_bc (bread (l_dev s) (u32 b)) ;;
  d <-- on_bc (bdata from) ;;
  on_bc (bset to d) ;;;
  on_bc (bwrite to) ;;;
  on_bc (brelse from) ;;;
  on_bc (brelse to).

Definition write_log : M log unit :=
  s <-- get ;; for_each (seq 0 (Z.to_nat (lh_count s))) write_log_step.

Definition commit : M log unit :=
  s <-- get ;;
  if 0 <? lh_count s then
    write_log ;;;
    write_head ;;;
    install_trans ;;;
    modify (set_count 0) ;;;
    write_head
  else ret tt.

(** ** System-call brackets *)

(** [sleep(&log, &log.lock)] releases the lock; the awakened process takes it
    again and re-tests both conditions, that is, calls [begin_op] again.  The
    channel [&log] is the only one of the log: 0. *)
Definition begin_op : M log unit :=
  acquire ;;;
  s <-- get ;;
  if committing s then release ;;; sleep_on 0
  else if LOGSIZE <? lh_count s + (outstanding s + 1) * MAXOPBLOCKS then release ;;; sleep_on 0
  else
    modify (set_outstanding (outstanding s + 1)) ;;;
    release.

Definition end_op : M log unit :=
  acquire ;;;
  modify (fun s => set_outstanding (outstanding s - 1) s) ;;;
  s <-- get ;;
  if committing s then panic "log.committing"
  else if outstanding s =? 0 then
    modify (set_committing true) ;;;
    release ;;;
    commit ;;;
    acquire ;;;
    modify (set_committing false) ;;;
    wakeup ;;;
    release
  else
    wakeup ;;;
    release.

(** The index at which [log_write] records block [b]: the first equal entry
    among the first [n] ("log absorbtion"), else [n]. *)
Fixpoint log_slot (n : nat) (blocks : list Z) (b : Z) : nat :=
  match n, blocks with
  | Datatypes.S n', x :: blocks' => if u32 x =? b then O else Datatypes.S (log_slot n' blocks' b)
  | _, _ => O
  end.

Definition log_write (b : nat) : M log unit :=
  s <-- get ;;
  if (LOGSIZE <=? lh_count s) || (l_size s - 1 <=? lh_count s) then panic "too big a transaction"
  else if outstanding s <? 1 then panic "log_write outside of trans"
  else
    acquire ;;;
    bno <-- on_bc (bblockno b) ;;
    let i := log_slot (Z.to_nat (lh_count s)) (lh_blocks s) bno in
    put_block i (i32 bno) ;;;
    (if Z.of_nat i =? lh_count s then modify (set_count (lh_count s + 1)) else ret tt) ;;;
    on_bc (bmark b) ;;;
    release.

End log.
Arguments log S : clear implicits.
