(* ===== verification/LogSpec.v ===== *)
(** * Functional correctness of the log

    What commit, recovery and [log_write] do, in terms of the block store:
    which blocks are written, in which order, with which contents. *)

From S2P Require Import Prelude Params Disk BioSpec Layout Log.

(** ** Disk writes *)

Definition apply_writes (d : contents) (ws : list (key * block)) : contents :=
  foldl (fun d kv => upd d (fst kv) (snd kv)) d ws.

(** The copies of the logged blocks in the log, and in their home location. *)
Definition log_writes (dev st : Z) (vs : list block) : list (key * block) :=
  imap (fun t v => ((dev, st + Z.of_nat t + 1), v)) vs.
Definition home_writes (dev : Z) (bs : list Z) (vs : list block) : list (key * block) :=
  zip_with (fun b v => ((dev, b), v)) bs vs.
(** A header block: [n] and the first block numbers, the rest as it was. *)
Definition head_block (n : Z) (bs : list Z) (old : block) : block :=
  foldl (fun d ib => set_lh_block (fst ib) (snd ib) d) (set_lh_n n old) (imap pair bs).
(** The blocks of a transaction leave the set of pinned blocks. *)
Definition unpin (dev : Z) (bs : list Z) (m : gmap key block) : gmap key block :=
  foldl (fun m b => delete (dev, b) m) m bs.

Lemma apply_writes_app d ws1 ws2 :
  apply_writes d (ws1 ++ ws2) = apply_writes (apply_writes d ws1) ws2.
Proof. apply foldl_app. Qed.

Lemma apply_writes_other d ws k :
  (forall v, (k, v) ∉ ws) -> apply_writes d ws k = d k.
Proof.
  revert d. induction ws as [|[k' v'] ws IH]; intros d Hk; [done|].
  simpl. rewrite IH.
  - apply upd_ne. intros ->. apply (Hk v'). by left.
  - intros v Hv. apply (Hk v). by right.
Qed.

Lemma lookup_unpin dev bs m k :
  unpin dev bs m !! k = if decide (k ∈ map (pair dev) bs) then None else m !! k.
Proof.
  revert m. induction bs as [|b bs IH]; intros m; [done|]. simpl. rewrite IH.
  destruct (decide (k = (dev, b))) as [->|].
  - rewrite lookup_delete_eq, (decide_True (P := _ ∈ _ :: _)) by left. by case_decide.
  - rewrite lookup_delete_ne by done. apply decide_ext. rewrite elem_of_cons. naive_solver.
Qed.
Lemma unpin_empty dev bs : unpin dev bs ∅ = ∅.
Proof. apply map_eq. intros k. rewrite lookup_unpin, lookup_empty. by case_decide. Qed.
Lemma size_unpin dev bs m : (size (unpin dev bs m) <= size m)%nat.
Proof.
  revert m. induction bs as [|b bs IH]; intros m; [done|]. simpl.
  etrans; [apply IH|]. apply map_subseteq_size, delete_subseteq.
Qed.

(** A block outside [bs] keeps its contents. *)
Lemma home_writes_off dev bs vs d k :
  k ∉ map (pair dev) bs -> apply_writes d (home_writes dev bs vs) k = d k.
Proof.
  intros Hk. apply apply_writes_other. intros v Hv. apply Hk.
  unfold home_writes in Hv. apply list_elem_of_lookup in Hv as [t Ht].
  apply lookup_zip_with_Some in Ht as (b & w & [= -> ->] & Hb & _).
  apply (list_elem_of_fmap_2 (pair dev) bs b). by eapply list_elem_of_lookup_2.
Qed.

(** ** The header block *)

Lemma head_block_snoc n bs b old :
  head_block n (bs ++ [b]) old = set_lh_block (length bs) b (head_block n bs old).
Proof. unfold head_block. rewrite imap_app, foldl_app. cbn [imap foldl fst snd compose length]. simpl. by rewrite Nat.add_0_r. Qed.

Lemma length_head_block n bs old : length old = Z.to_nat BSIZE ->
  (length bs <= Z.to_nat LOGSIZE)%nat -> length (head_block n bs old) = Z.to_nat BSIZE.
Proof.
  change (Z.to_nat LOGSIZE) with 30%nat. change (Z.to_nat BSIZE) with 512%nat. intros Hold.
  induction bs as [|b bs IH] using rev_ind; intros Hlen.
  - unfold head_block, set_lh_n. simpl. rewrite length_put32; lia.
  - rewrite length_app in Hlen. simpl in Hlen.
    rewrite head_block_snoc. unfold set_lh_block.
    rewrite length_put32; rewrite IH by lia; lia.
Qed.

(** What [write_head] stores is what [read_head] reads back. *)
Lemma head_block_n n bs old : length old = Z.to_nat BSIZE ->
  (length bs <= Z.to_nat LOGSIZE)%nat -> 0 <= n <= LOGSIZE -> lh_n (head_block n bs old) = n.
Proof.
  change (Z.to_nat LOGSIZE) with 30%nat. change LOGSIZE with 30. intros Hold Hlen Hn.
  induction bs as [|b bs IH] using rev_ind.
  - unfold head_block, set_lh_n, lh_n. simpl. rewrite get_put32, i32_u32; [done|lia|].
    rewrite Hold. change (Z.to_nat BSIZE) with 512%nat. lia.
  - rewrite length_app in Hlen. simpl in Hlen. rewrite head_block_snoc. unfold lh_n, set_lh_block.
    rewrite get_put32_ne; [apply IH; lia| |lia].
    rewrite length_head_block by (done || change (Z.to_nat LOGSIZE) with 30%nat; lia).
    change (Z.to_nat BSIZE) with 512%nat. lia.
Qed.

Lemma head_block_lookup n bs old t b : length old = Z.to_nat BSIZE ->
  (length bs <= Z.to_nat LOGSIZE)%nat -> bs !! t = Some b -> 0 <= b < 2 ^ 31 ->
  lh_block t (head_block n bs old) = b.
Proof.
  intros Hold. revert t. induction bs as [|b' bs IH] using rev_ind; intros t Hlen Ht Hb; [done|].
  rewrite length_app in Hlen. simpl in Hlen. rewrite head_block_snoc. unfold lh_block, set_lh_block.
  assert (Hl : length (head_block n bs old) = 512%nat) by (rewrite length_head_block; [done..|lia]).
  change (Z.to_nat LOGSIZE) with 30%nat in Hlen.
  destruct (decide (t = length bs)) as [->|Hne].
  - rewrite list_lookup_middle in Ht by done. injection Ht as ->.
    rewrite get_put32 by lia. rewrite i32_u32; lia.
  - pose proof (lookup_lt_Some _ _ _ Ht) as Hlt. rewrite length_app in Hlt. simpl in Hlt.
    rewrite get_put32_ne by lia. apply IH; [change (Z.to_nat LOGSIZE) with 30%nat; lia| |done].
    by rewrite lookup_app_l in Ht by lia.
Qed.

Section spec.
Context {S : Type} `{!BlockStore S}.
Implicit Types (s : log S) (a : acache) (R : key -> Prop).

(** Look up a held buffer, and compare two maps after case analysis. *)
Ltac held := cbn [a_held a_pend a_disk a_writes]; simplify_map_eq; done.
Ltac maps := apply map_eq; intros ?x;
  repeat first [rewrite lookup_insert | rewrite lookup_delete | rewrite lookup_empty
               | rewrite lookup_singleton];
  repeat case_decide; simplify_eq; done.

Lemma wp_on_bc {A} (m : M S A) Q s :
  wp m (fun r b => Q r (set_bc b s)) (bc s) -> wp (on_bc m) Q s.
Proof. apply wp_zoom. Qed.

(** One block-store operation of a log routine, by its law. *)
Tactic Notation "bstep" uconstr(law) :=
  try apply wp_bind; apply wp_on_bc; eapply wp_mono; [eapply law|]; cbn [bc set_bc].

Lemma install_step_ok R s a tail b :
  rep R (bc s) a -> a_held a = ∅ ->
  lh_blocks s !! tail = Some b -> 0 <= b < 2 ^ 31 ->
  b <> l_start s + Z.of_nat tail + 1 -> 0 <= l_start s + Z.of_nat tail + 1 < 2 ^ 31 ->
  R (l_dev s, l_start s + Z.of_nat tail + 1) -> R (l_dev s, b) ->
  a_pend a !! (l_dev s, l_start s + Z.of_nat tail + 1) = None ->
  (size (a_pend a) < nbuf)%nat ->
  is_Some (a_pend a !! (l_dev s, b)) \/ (1 + size (a_pend a) < nbuf)%nat ->
  wp (install_step tail) (fun _ s' => exists bc', s' = set_bc bc' s /\
    rep R bc' (mkac ∅ (delete (l_dev s, b) (a_pend a))
      (upd (a_disk a) (l_dev s, b) (a_disk a (l_dev s, l_start s + Z.of_nat tail + 1)))
      (a_writes a ++ [((l_dev s, b), a_disk a (l_dev s, l_start s + Z.of_nat tail + 1))]))) s.
Proof.
  intros Hrep Hheld Hb Hrange Hne Hst HR1 HR2 Hp1 Hsz Hp2.
  unfold install_step. wp_step. wp_step. rewrite (u32_id (l_start s + _ + _)) by lia.
  set (k1 := (l_dev s, l_start s + Z.of_nat tail + 1)) in *. set (k2 := (l_dev s, b)) in *.
  assert (Hk : k1 <> k2) by (unfold k1, k2; congruence).
  bstep (bread_ok R _ a k1); [done|done| |right; unfold room; rewrite Hheld, map_size_empty; lia|].
  { intros i h. by rewrite Hheld, lookup_empty. }
  intros i1 bc1 (_ & Hr1).
  assert (Ha1 : a_read i1 k1 a = mkac {[i1 := mkhold k1 false (a_disk a k1)]} (a_pend a) (a_disk a) (a_writes a)).
  { unfold a_read, a_current. rewrite Hp1, Hheld, delete_id by done. done. }
  rewrite Ha1 in Hr1. clear Ha1.
  unfold get_block. wp_steps. cbn [lh_blocks set_bc]. rewrite Hb. wp_steps.
  rewrite u32_id by lia.
  bstep (bread_ok R _ _ k2); [done|done| | |].
  { intros i h. cbn [a_held]. intros [_ <-]%lookup_singleton_Some. done. }
  { cbn [a_pend]. destruct Hp2; [by left|right]. unfold room. cbn [a_held a_pend].
    rewrite map_size_singleton. lia. }
  intros i2 bc2 (Hi2 & Hr2). cbn [a_held] in Hi2.
  assert (Hi : i1 <> i2). { intros ->. by rewrite lookup_singleton_eq in Hi2. }
  set (d1 := a_disk a k1) in *.
  unfold a_read, a_current in Hr2. cbn [a_held a_pend a_disk a_writes] in Hr2.
  set (h2 := mkhold k2 _ _) in Hr2.
  bstep (bdata_ok R _ _ i1); [done|held|].
  cbn [h_data]. intros d bc3 [-> ->].
  bstep (bset_ok R _ _ i2); [done|held|].
  intros _ bc3 Hr3. unfold a_set in Hr3. cbn [a_held a_pend a_disk a_writes] in Hr3.
  bstep (bwrite_ok R _ _ i2); [done|held|done|].
  intros _ bc4 Hr4. unfold a_write in Hr4. cbn [a_held a_pend a_disk a_writes h_key h_data] in Hr4.
  bstep (brelse_ok R _ _ i1); [done|held|right; cbn [a_disk h_data h_key]; by rewrite upd_ne|].
  intros _ bc5 Hr5. unfold a_release in Hr5. cbn [a_held a_pend a_disk a_writes h_key h_data h_dirty] in Hr5.
  bstep (brelse_ok R _ _ i2); [done|held|right; cbn [a_disk h_data h_key]; by rewrite upd_eq|].
  intros _ bc6 Hr6. unfold a_release in Hr6. cbn [a_held a_pend a_disk a_writes h_key h_data h_dirty] in Hr6.
  exists bc6. split; [done|]. 
  match type of Hr6 with rep _ _ (mkac ?h _ _ _) => replace h with (∅ : gmap nat hold) in Hr6 end; [done|].
  maps.
Qed.

Lemma write_log_step_ok R s a tail b v :
  rep R (bc s) a -> a_held a = ∅ ->
  lh_blocks s !! tail = Some b -> 0 <= b < 2 ^ 31 ->
  b <> l_start s + Z.of_nat tail + 1 -> 0 <= l_start s + Z.of_nat tail + 1 < 2 ^ 31 ->
  R (l_dev s, l_start s + Z.of_nat tail + 1) -> R (l_dev s, b) ->
  a_pend a !! (l_dev s, l_start s + Z.of_nat tail + 1) = None ->
  (size (a_pend a) < nbuf)%nat -> a_pend a !! (l_dev s, b) = Some v ->
  wp (write_log_step tail) (fun _ s' => exists bc', s' = set_bc bc' s /\
    rep R bc' (mkac ∅ (a_pend a)
      (upd (a_disk a) (l_dev s, l_start s + Z.of_nat tail + 1) v)
      (a_writes a ++ [((l_dev s, l_start s + Z.of_nat tail + 1), v)]))) s.
Proof.
  intros Hrep Hheld Hb Hrange Hne Hst HR1 HR2 Hp1 Hsz Hp2.
  unfold write_log_step. wp_step. wp_step. rewrite (u32_id (l_start s + _ + _)) by lia.
  set (k1 := (l_dev s, l_start s + Z.of_nat tail + 1)) in *. set (k2 := (l_dev s, b)) in *.
  assert (Hk : k1 <> k2) by (unfold k1, k2; congruence).
  bstep (bread_ok R _ a k1); [done|done| |right; unfold room; rewrite Hheld, map_size_empty; lia|].
  { intros i h. by rewrite Hheld, lookup_empty. }
  intros i1 bc1 (_ & Hr1).
  assert (Ha1 : a_read i1 k1 a = mkac {[i1 := mkhold k1 false (a_disk a k1)]} (a_pend a) (a_disk a) (a_writes a)).
  { unfold a_read, a_current. rewrite Hp1, Hheld, delete_id by done. done. }
  rewrite Ha1 in Hr1. clear Ha1.
  unfold get_block. wp_steps. cbn [lh_blocks set_bc]. rewrite Hb. wp_steps.
  rewrite u32_id by lia.
  bstep (bread_ok R _ _ k2); [done|done| |left; cbn [a_pend]; eauto|].
  { intros i h. cbn [a_held]. intros [_ <-]%lookup_singleton_Some. done. }
  intros i2 bc2 (Hi2 & Hr2). cbn [a_held] in Hi2.
  assert (Hi : i1 <> i2). { intros ->. by rewrite lookup_singleton_eq in Hi2. }
  unfold a_read, a_current in Hr2. cbn [a_held a_pend a_disk a_writes] in Hr2.
  rewrite Hp2 in Hr2. cbn [default] in Hr2. rewrite bool_decide_eq_true_2 in Hr2 by eauto.
  bstep (bdata_ok R _ _ i2); [done|held|].
  cbn [h_data]. intros d bc3 [-> ->].
  bstep (bset_ok R _ _ i1); [done|held|].
  intros _ bc3 Hr3. unfold a_set in Hr3. cbn [a_held a_pend a_disk a_writes h_key h_dirty] in Hr3.
  bstep (bwrite_ok R _ _ i1); [done|held|done|].
  intros _ bc4 Hr4. unfold a_write in Hr4. cbn [a_held a_pend a_disk a_writes h_key h_data] in Hr4.
  bstep (brelse_ok R _ _ i2); [done|held|by left|].
  intros _ bc5 Hr5. unfold a_release in Hr5. cbn [a_held a_pend a_disk a_writes h_key h_data h_dirty] in Hr5.
  bstep (brelse_ok R _ _ i1); [done|held|right; cbn [a_disk h_data h_key]; by rewrite upd_eq|].
  intros _ bc6 Hr6. unfold a_release in Hr6. cbn [a_held a_pend a_disk a_writes h_key h_data h_dirty] in Hr6.
  rewrite insert_delete_id in Hr6 by done.
  exists bc6. split; [done|].
  match type of Hr6 with rep _ _ (mkac ?h _ _ _) => replace h with (∅ : gmap nat hold) in Hr6 end; [done|].
  maps.
Qed.

(** The geometry of the log: [l_size] blocks from [l_start] on, the header
    first, all accepted by the disk and none of them pinned in the cache. *)
Record log_geom R s a : Prop := {
  lg_range : 0 <= l_start s /\ 0 < l_size s /\ l_start s + l_size s < 2 ^ 31;
  lg_ready : forall i, 0 <= i < l_size s -> R (l_dev s, l_start s + i);
  lg_pend : forall i, 0 <= i < l_size s -> a_pend a !! (l_dev s, l_start s + i) = None
}.

(** [b] is a home block: a block number outside the log that the disk accepts. *)
Definition home R s (b : Z) : Prop :=
  0 <= b < 2 ^ 31 /\ R (l_dev s, b) /\ ~ (l_start s <= b < l_start s + l_size s).

(** The in-memory header lists the blocks [bs], which fit the log beside its
    header. *)
Record logged R s (bs : list Z) : Prop := {
  lo_count : lh_count s = Z.of_nat (length bs);
  lo_blocks : take (length bs) (lh_blocks s) = bs;
  lo_array : length (lh_blocks s) = Z.to_nat LOGSIZE;
  lo_fits : Z.of_nat (length bs) < l_size s;
  lo_home : Forall (home R s) bs
}.

Lemma logged_lookup R s bs t : logged R s bs -> (t < length bs)%nat ->
  exists b, bs !! t = Some b /\ lh_blocks s !! t = Some b /\ home R s b /\ Z.of_nat t + 1 < l_size s.
Proof.
  intros [_ Hb Ha Hf Hh] Ht. destruct (lookup_lt_is_Some_2 bs t Ht) as [b Hbt].
  exists b. split; [done|]. rewrite Forall_lookup in Hh. split; [|split; [by eapply Hh|lia]].
  rewrite <-Hb, lookup_take in Hbt. by destruct (decide _).
Qed.

(** [write_log]: each pinned block of the transaction is copied to the log. *)
Lemma write_log_ok R s a bs vs :
  rep R (bc s) a -> a_held a = ∅ -> log_geom R s a -> logged R s bs ->
  Forall2 (fun b v => a_pend a !! (l_dev s, b) = Some v) bs vs ->
  (size (a_pend a) < nbuf)%nat ->
  wp write_log (fun _ s' => exists bc', s' = set_bc bc' s /\
    rep R bc' (mkac ∅ (a_pend a) (apply_writes (a_disk a) (log_writes (l_dev s) (l_start s) vs))
      (a_writes a ++ log_writes (l_dev s) (l_start s) vs))) s.
Proof.
  intros Hrep Hheld Hg Hl Hvs Hsz. pose proof (Forall2_length _ _ _ Hvs) as Hlen.
  unfold write_log. wp_step. wp_step. rewrite (lo_count _ _ _ Hl), Nat2Z.id.
  eapply wp_mono; [apply (wp_for_seq _ (fun t s' => exists bc', s' = set_bc bc' s /\
    rep R bc' (mkac ∅ (a_pend a) (apply_writes (a_disk a) (log_writes (l_dev s) (l_start s) (take t vs)))
      (a_writes a ++ log_writes (l_dev s) (l_start s) (take t vs)))))|].
  - intros t ? Ht (bc' & -> & Hr).
    destruct (logged_lookup _ _ _ _ Hl Ht) as (b & Hbt & Hb & (Hb1 & Hb2 & Hb3) & Ht').
    destruct (Forall2_lookup_l _ _ _ _ _ Hvs Hbt) as (v & Hv & Hp).
    destruct Hg as [Hg1 Hg2 Hg3].
    eapply wp_mono; [eapply (write_log_step_ok R (set_bc bc' s) _ t b v Hr)|]; cbn; try done; try lia.
    + rewrite <-Z.add_assoc. apply Hg2. lia.
    + rewrite <-Z.add_assoc. apply Hg3. lia.
    + intros [] s' (bc'' & -> & Hr'). exists bc''. split; [done|].
      rewrite (take_S_r _ _ _ Hv). unfold log_writes in *. rewrite imap_app. cbn.
      rewrite length_take_le, Nat.add_0_r by lia.
      by rewrite apply_writes_app, app_assoc.
  - exists (bc s). split; [by destruct s|]. cbn. rewrite app_nil_r. by destruct a; cbn in *; subst.
  - intros [] s' (bc' & -> & Hr). exists bc'. rewrite take_ge in Hr by lia. done.
Qed.

(** [install_trans]: each log block is copied to its home block, which is no
    longer pinned. *)
Lemma install_trans_ok R s a bs vs :
  rep R (bc s) a -> a_held a = ∅ -> log_geom R s a -> logged R s bs -> length vs = length bs ->
  (forall t v, vs !! t = Some v -> a_disk a (l_dev s, l_start s + Z.of_nat t + 1) = v) ->
  (size (a_pend a) < nbuf)%nat ->
  (NoDup bs /\ forall b, b ∈ bs -> is_Some (a_pend a !! (l_dev s, b))) \/ (1 + size (a_pend a) < nbuf)%nat ->
  wp install_trans (fun _ s' => exists bc', s' = set_bc bc' s /\
    rep R bc' (mkac ∅ (unpin (l_dev s) bs (a_pend a))
      (apply_writes (a_disk a) (home_writes (l_dev s) bs vs))
      (a_writes a ++ home_writes (l_dev s) bs vs))) s.
Proof.
  intros Hrep Hheld Hg Hl Hlen Hlog Hsz Hroom.
  unfold install_trans. wp_step. wp_step. rewrite (lo_count _ _ _ Hl), Nat2Z.id.
  eapply wp_mono; [apply (wp_for_seq _ (fun t s' => exists bc', s' = set_bc bc' s /\
    rep R bc' (mkac ∅ (unpin (l_dev s) (take t bs) (a_pend a))
      (apply_writes (a_disk a) (home_writes (l_dev s) (take t bs) (take t vs)))
      (a_writes a ++ home_writes (l_dev s) (take t bs) (take t vs)))))|].
  - intros t ? Ht (bc' & -> & Hr).
    destruct (logged_lookup _ _ _ _ Hl Ht) as (b & Hbt & Hb & (Hb1 & Hb2 & Hb3) & Ht').
    destruct (lookup_lt_is_Some_2 vs t) as [v Hv]; [lia|].
    pose proof (size_unpin (l_dev s) (take t bs) (a_pend a)) as Hsz'.
    assert (Hd : apply_writes (a_disk a) (home_writes (l_dev s) (take t bs) (take t vs))
       (l_dev s, l_start s + Z.of_nat t + 1) = v).
    { rewrite home_writes_off; [by apply Hlog|]. intros (b' & [= Heq] & Hb')%list_elem_of_fmap.
      assert (Hh : home R s b'); [|unfold home in Hh; lia].
      pose proof (lo_home _ _ _ Hl) as Hf. rewrite Forall_forall in Hf. apply Hf.
      by eapply elem_of_take in Hb' as (? & ?%list_elem_of_lookup_2 & _). }
    destruct Hg as [Hg1 Hg2 Hg3].
    eapply wp_mono; [eapply (install_step_ok R (set_bc bc' s) _ t b Hr)|]; cbn; try done; try lia.
    + rewrite <-Z.add_assoc. apply Hg2. lia.
    + rewrite <-Z.add_assoc, lookup_unpin. case_decide; [done|]. apply Hg3. lia.
    + destruct Hroom as [[Hnd Hp]|]; [left|right; lia]. rewrite lookup_unpin, decide_False.
      { apply Hp. by eapply list_elem_of_lookup_2. }
      intros (b' & [= <-] & Hb')%list_elem_of_fmap. apply elem_of_take in Hb' as (t' & Ht1 & Ht2).
      pose proof (NoDup_lookup _ _ _ _ Hnd Hbt Ht1). lia.
    + rewrite Hd. intros [] s' (bc'' & -> & Hr'). exists bc''. split; [done|].
      rewrite (take_S_r _ _ _ Hv), (take_S_r _ _ _ Hbt). unfold home_writes, unpin in *.
      rewrite zip_with_app by (rewrite !length_take; lia). cbn.
      by rewrite apply_writes_app, app_assoc, foldl_app.
  - exists (bc s). split; [by destruct s|]. cbn. rewrite app_nil_r. by destruct a; cbn in *; subst.
  - intros [] s' (bc' & -> & Hr). exists bc'. rewrite !take_ge in Hr by lia. done.
Qed.

(** [write_head]: the header block receives the count and the block numbers. *)
Lemma write_head_ok R s a bs :
  rep R (bc s) a -> a_held a = ∅ -> log_geom R s a -> logged R s bs ->
  (size (a_pend a) < nbuf)%nat ->
  wp write_head (fun _ s' => exists bc', s' = set_bc bc' s /\
    let k := (l_dev s, l_start s) in
    let h := head_block (Z.of_nat (length bs)) bs (a_disk a k) in
    rep R bc' (mkac ∅ (a_pend a) (upd (a_disk a) k h) (a_writes a ++ [(k, h)]))) s.
Proof.
  intros Hrep Hheld [Hg1 Hg2 Hg3] Hl Hsz.
  unfold write_head. wp_step. wp_step. rewrite u32_id by lia.
  set (k := (l_dev s, l_start s)) in *. rewrite (lo_count _ _ _ Hl), Nat2Z.id.
  assert (HR : R k). { unfold k. rewrite <-(Z.add_0_r (l_start s)). apply Hg2. lia. }
  assert (Hp : a_pend a !! k = None). { unfold k. rewrite <-(Z.add_0_r (l_start s)). apply Hg3. lia. }
  bstep (bread_ok R _ a k); [done|done| |right; unfold room; rewrite Hheld, map_size_empty; lia|].
  { intros i h. by rewrite Hheld, lookup_empty. }
  intros i bc1 (_ & Hr1).
  unfold a_read, a_current in Hr1. rewrite Hp, Hheld, delete_id in Hr1 by done. cbn [default] in Hr1.
  bstep (bdata_ok R _ _ i); [done|held|]. cbn [h_data]. intros d bc2 [-> ->].
  bstep (bset_ok R _ _ i); [done|held|]. intros _ bc2 Hr2.
  unfold a_set in Hr2. cbn [a_held a_pend a_disk a_writes h_key h_dirty] in Hr2.
  rewrite insert_insert_eq in Hr2. 
  apply wp_bind. eapply wp_mono; [apply (wp_for_seq _ (fun t s' => exists bc', s' = set_bc bc' s /\
    rep R bc' (mkac {[i := mkhold k false (head_block (Z.of_nat (length bs)) (take t bs) (a_disk a k))]}
      (a_pend a) (a_disk a) (a_writes a))))|].
  - intros t ? Ht (bc' & -> & Hr).
    destruct (logged_lookup _ _ _ _ Hl Ht) as (b & Hbt & Hb & _ & _).
    unfold get_block. wp_steps. cbn [lh_blocks set_bc]. rewrite Hb. wp_steps.
    bstep (bdata_ok R _ _ i); [done|held|]. cbn [h_data]. intros d bc3 [-> ->].
    bstep (bset_ok R _ _ i); [done|held|]. intros _ bc3 Hr3.
    unfold a_set in Hr3. cbn [a_held a_pend a_disk a_writes h_key h_dirty] in Hr3.
    exists bc3. split; [done|]. rewrite (take_S_r _ _ _ Hbt).
    unfold head_block in *. rewrite imap_app, foldl_app. cbn.
    rewrite length_take_le, Nat.add_0_r by lia.
    rewrite insert_singleton_eq in Hr3. done.
  - exists bc2. done.
  - intros [] ? (bc3 & -> & Hr3). rewrite take_ge in Hr3 by done.
    bstep (bwrite_ok R _ _ i); [done|held|done|]. intros _ bc4 Hr4.
    unfold a_write in Hr4. cbn [a_held a_pend a_disk a_writes h_key h_data] in Hr4.
    bstep (brelse_ok R _ _ i); [done|held|right; cbn [a_disk h_data h_key]; by rewrite upd_eq|].
    intros _ bc5 Hr5. unfold a_release in Hr5. cbn [a_held a_pend a_disk a_writes h_key h_data h_dirty] in Hr5.
    exists bc5. split; [done|]. rewrite insert_singleton_eq, delete_singleton_eq in Hr5. done.
Qed.

(** ** Commit *)

(** A transaction ready to commit: the blocks [bs] are logged and pinned with
    contents [vs], and nothing else is pinned or held. *)
Record txn R s a (bs : list Z) (vs : list block) : Prop := {
  tx_rep : rep R (bc s) a;
  tx_held : a_held a = ∅;
  tx_geom : log_geom R s a;
  tx_logged : logged R s bs;
  tx_nodup : NoDup bs;
  tx_len : length vs = length bs;
  tx_pend : a_pend a = list_to_map (zip (map (pair (l_dev s)) bs) vs);
  tx_small : (length bs < Z.to_nat LOGSIZE)%nat
}.

(** Every disk write of a commit, in order. *)
Definition commit_writes (dev st : Z) (bs : list Z) (vs : list block) (hd : block) : list (key * block) :=
  let hd1 := head_block (Z.of_nat (length bs)) bs hd in
  log_writes dev st vs ++ [((dev, st), hd1)] ++
  home_writes dev bs vs ++ [((dev, st), head_block 0 [] hd1)].

Lemma NoDup_pair {A} (d : A) (bs : list Z) : NoDup bs -> NoDup (map (pair d) bs).
Proof. apply NoDup_fmap_2. intros x y. congruence. Qed.

Lemma txn_lookup R s a bs vs t b v :
  txn R s a bs vs -> bs !! t = Some b -> vs !! t = Some v -> a_pend a !! (l_dev s, b) = Some v.
Proof.
  intros Ht Hb Hv. rewrite (tx_pend _ _ _ _ _ Ht). apply elem_of_list_to_map_1.
  - rewrite fst_zip; [by apply NoDup_pair, (tx_nodup _ _ _ _ _ Ht)|].
    rewrite length_map, (tx_len _ _ _ _ _ Ht). done.
  - apply (list_elem_of_lookup_2 _ t). apply lookup_zip_with_Some. exists (l_dev s, b), v.
    split; [done|]. split; [|done]. by apply list_lookup_fmap_Some_2.
Qed.

Lemma txn_size R s a bs vs : txn R s a bs vs -> size (a_pend a) = length bs.
Proof.
  intros Ht. pose proof (tx_len _ _ _ _ _ Ht).
  rewrite (tx_pend _ _ _ _ _ Ht), map_size_list_to_map.
  - rewrite length_zip_with, length_map. lia.
  - rewrite fst_zip by (rewrite length_map; lia). apply NoDup_pair, (tx_nodup _ _ _ _ _ Ht).
Qed.

Lemma txn_unpin R s a bs vs : txn R s a bs vs -> unpin (l_dev s) bs (a_pend a) = ∅.
Proof.
  intros Ht. apply map_eq. intros k. rewrite lookup_unpin, lookup_empty. case_decide as Hk; [done|].
  rewrite (tx_pend _ _ _ _ _ Ht). apply not_elem_of_list_to_map_1.
  rewrite fst_zip; [done|]. rewrite length_map, (tx_len _ _ _ _ _ Ht). done.
Qed.

Lemma log_geom_bc R s a a' b :
  log_geom R s a -> a_pend a' ⊆ a_pend a -> log_geom R (set_bc b s) a'.
Proof. intros [H1 H2 H3] Hp. split; [done..|]. intros i Hi. eapply lookup_weaken_None; eauto. Qed.
Lemma log_geom_count R s a n : log_geom R s a -> log_geom R (set_count n s) a.
Proof. by intros []. Qed.

Lemma logged_bc R s bs b : logged R s bs -> logged R (set_bc b s) bs.
Proof. by intros []. Qed.

Lemma log_writes_at dev st vs d t v :
  vs !! t = Some v -> apply_writes d (log_writes dev st vs) (dev, st + Z.of_nat t + 1) = v.
Proof.
  intros Hv. rewrite <-(take_drop_middle _ _ _ Hv). unfold log_writes.
  pose proof (lookup_lt_Some _ _ _ Hv).
  rewrite imap_app, apply_writes_app. simpl. rewrite length_take_le, Nat.add_0_r by lia.
  rewrite apply_writes_other; [apply upd_eq|].
  intros w (t' & Ht')%list_elem_of_lookup. rewrite list_lookup_imap in Ht'.
  destruct (drop _ _ !! t'); simpl in Ht'; [|done]. injection Ht'. lia.
Qed.

Lemma log_writes_off dev st vs d k :
  (forall t, 0 <= t -> k <> (dev, st + t + 1)) -> apply_writes d (log_writes dev st vs) k = d k.
Proof.
  intros Hk. apply apply_writes_other. intros w (t & Ht)%list_elem_of_lookup.
  unfold log_writes in Ht. rewrite list_lookup_imap in Ht.
  destruct (vs !! t); simpl in Ht; [|done]. injection Ht as Heq. apply (Hk (Z.of_nat t)); [lia|].
  by rewrite <-Heq.
Qed.
Lemma head_not_home R s bs :
  0 < l_size s -> Forall (home R s) bs -> (l_dev s, l_start s) ∉ map (pair (l_dev s)) bs.
Proof.
  intros Hsz Hf (b & [= <-] & Hb)%list_elem_of_fmap. rewrite Forall_forall in Hf.
  destruct (Hf _ Hb) as (_ & _ & Hn). apply Hn. lia.
Qed.

Lemma commit_wp R s a bs vs :
  txn R s a bs vs -> bs <> [] ->
  let W := commit_writes (l_dev s) (l_start s) bs vs (a_disk a (l_dev s, l_start s)) in
  wp commit (fun _ s' => exists bc', s' = set_bc bc' (set_count 0 s) /\
    rep R bc' (mkac ∅ ∅ (apply_writes (a_disk a) W) (a_writes a ++ W))) s.
Proof.
  intros Ht Hne. pose proof Ht as [Hrep Hheld Hg Hl Hnd Hlen Hp Hsm].
  pose proof (txn_size _ _ _ _ _ Ht) as Hsize. 
  assert (Hroom : (size (a_pend a) < nbuf)%nat) by (change nbuf with (Z.to_nat LOGSIZE); lia).
  unfold commit. wp_step. wp_step. rewrite (lo_count _ _ _ Hl).
  rewrite (proj2 (Z.ltb_lt _ _)) by (destruct bs; simpl; [done|lia]).
  apply wp_bind. eapply wp_mono; [apply (write_log_ok R s a bs vs); try done|].
  { apply Forall2_same_length_lookup. split; [done|]. intros t b v Hb Hv. by eapply txn_lookup. }
  intros [] ? (bc1 & -> & Hr1).

  set (dk := apply_writes (a_disk a) (log_writes (l_dev s) (l_start s) vs)) in *.
  apply wp_bind. eapply wp_mono; [apply (write_head_ok R (set_bc bc1 s) _ bs Hr1); try done|].
  { by apply log_geom_bc with a. }
  { by apply logged_bc. }
  intros [] ? (bc2 & -> & Hr2). cbn [l_dev l_start set_bc a_disk a_pend a_writes] in Hr2.
  set (h1 := head_block _ _ _) in Hr2.
  apply wp_bind. eapply wp_mono; [apply (install_trans_ok R (set_bc bc2 s) _ bs vs Hr2); try done|].
  { by apply log_geom_bc with a. }
  { by apply logged_bc. }
  { intros t v Hv. cbn. rewrite upd_ne by (intros [= ?]; lia). by apply log_writes_at. }
  { left. split; [done|]. intros b (t & Hb)%list_elem_of_lookup.
    destruct (lookup_lt_is_Some_2 vs t) as [v Hv]; [apply lookup_lt_Some in Hb; lia|].
    exists v. by apply (txn_lookup _ _ _ _ _ t b v Ht). }
  intros [] ? (bc3 & -> & Hr3). cbn [l_dev l_start set_bc a_disk a_pend a_writes] in Hr3.
  rewrite (txn_unpin _ _ _ _ _ Ht) in Hr3. wp_step. wp_step.
  eapply wp_mono; [apply (write_head_ok R (set_count 0 (set_bc bc3 s)) _ [] Hr3); try done|].
  { apply log_geom_count, log_geom_bc with a; [done|]. apply map_empty_subseteq. }
  { split; [done..| | |constructor]; [by apply (lo_array _ _ _ Hl)|apply Hg]. }
  { cbn [a_pend]. rewrite map_size_empty. change nbuf with 30%nat. lia. }
  intros [] ? (bc4 & -> & Hr4). cbn [l_dev l_start set_bc set_count a_disk a_pend a_writes length] in Hr4.
  exists bc4. split; [done|].
  rewrite home_writes_off, upd_eq in Hr4 by (apply (head_not_home R s); apply Hg || apply Hl).
  unfold h1, dk in Hr4. rewrite log_writes_off in Hr4 by (intros ? ? [= ?]; lia).
  unfold commit_writes. rewrite !apply_writes_app, !app_assoc. done.
Qed.

(** ** Recovery *)

(** The block numbers a header block lists. *)
Definition head_list (hd : block) : list Z := map (fun i => lh_block i hd) (seq 0 (Z.to_nat (lh_n hd))).

Lemma length_head_list hd : length (head_list hd) = Z.to_nat (lh_n hd).
Proof. unfold head_list. by rewrite length_map, length_seq. Qed.

(** The log before recovery: an empty cache. *)
Record booted R s a : Prop := {
  bo_rep : rep R (bc s) a;
  bo_held : a_held a = ∅;
  bo_pend : a_pend a = ∅;
  bo_geom : log_geom R s a;
  bo_array : length (lh_blocks s) = Z.to_nat LOGSIZE
}.

(** [read_head]: the in-memory header becomes the one on disk. *)
Lemma read_head_ok R s a :
  booted R s a ->
  let hd := a_disk a (l_dev s, l_start s) in
  0 <= lh_n hd <= LOGSIZE ->
  wp read_head (fun _ s' => exists bc' bl, s' = set_bc bc' (set_blocks bl (set_count (lh_n hd) s)) /\
    length bl = length (lh_blocks s) /\ take (Z.to_nat (lh_n hd)) bl = head_list hd /\ rep R bc' a) s.
Proof.
  intros [Hrep Hheld Hpend [Hg1 Hg2 Hg3] Harr] hd Hn.
  unfold read_head. wp_step. wp_step. rewrite u32_id by lia.
  set (k := (l_dev s, l_start s)) in *.
  assert (HR : R k). { unfold k. rewrite <-(Z.add_0_r (l_start s)). apply Hg2. lia. }
  bstep (bread_ok R _ a k); [done|done| | |].
  { intros i h. by rewrite Hheld, lookup_empty. }
  { right. unfold room. rewrite Hheld, Hpend, !map_size_empty. change nbuf with 30%nat. lia. }
  intros i bc1 (_ & Hr1).
  unfold a_read, a_current in Hr1. rewrite Hpend, Hheld, lookup_empty, delete_empty in Hr1. cbn [default] in Hr1.
  bstep (bdata_ok R _ _ i); [done|held|]. cbn [h_data]. intros d bc2 [-> ->]. fold hd.
  wp_step. wp_step. apply wp_bind.
  eapply wp_mono; [apply (wp_for_seq _ (fun t s' => exists bl,
    s' = set_bc bc1 (set_blocks bl (set_count (lh_n hd) s)) /\
    length bl = length (lh_blocks s) /\ take t bl = map (fun i => lh_block i hd) (seq 0 t)))|].
  - intros t ? Ht (bl & -> & Hbl & Htake). unfold put_block. wp_step. wp_step.
    cbn [lh_blocks set_bc set_blocks]. rewrite decide_True by lia. apply wp_modify.
    exists (<[t:=lh_block t hd]> bl). split; [done|]. split; [by rewrite length_insert|].
    rewrite (take_S_r _ _ (lh_block t hd)) by (apply list_lookup_insert_eq; lia).
    rewrite take_insert_ge, Htake by lia. by rewrite seq_S, map_app.
  - exists (lh_blocks s). split; [done|]. by rewrite take_0.
  - intros [] ? (bl & -> & Hbl & Htake).
    bstep (brelse_ok R _ _ i); [done|held|by right|].
    intros _ bc2 Hr2. unfold a_release in Hr2. cbn [a_held a_pend a_disk a_writes h_key h_data h_dirty] in Hr2.
    exists bc2, bl. split_and!; [done..|]. rewrite delete_insert_id in Hr2 by done.
    destruct a; cbn in *; by subst.
Qed.

(** What recovery writes, as a function of the disk. *)
Definition log_contents (dev st : Z) (d : contents) (n : nat) : list block :=
  map (fun t => d (dev, st + Z.of_nat t + 1)) (seq 0 n).
Definition recover_writes (dev st : Z) (d : contents) : list (key * block) :=
  let hd := d (dev, st) in
  home_writes dev (head_list hd) (log_contents dev st d (Z.to_nat (lh_n hd))) ++
  [((dev, st), head_block 0 [] hd)].

Lemma recover_wp R s a :
  booted R s a -> 0 <= lh_n (a_disk a (l_dev s, l_start s)) <= LOGSIZE ->
  lh_n (a_disk a (l_dev s, l_start s)) < l_size s ->
  Forall (home R s) (head_list (a_disk a (l_dev s, l_start s))) ->
  let W := recover_writes (l_dev s) (l_start s) (a_disk a) in
  wp recover_from_log (fun _ s' => exists bc' bl, s' = set_bc bc' (set_blocks bl (set_count 0 s)) /\
    length bl = length (lh_blocks s) /\
    rep R bc' (mkac ∅ ∅ (apply_writes (a_disk a) W) (a_writes a ++ W))) s.
Proof.
  intros Hb Hn Hn' Hh W. pose proof Hb as [Hrep Hheld Hpend Hg Harr].
  unfold recover_from_log. apply wp_bind. eapply wp_mono; [by apply (read_head_ok R s a)|].
  intros [] ? (bc1 & bl & -> & Hbl & Htake & Hr1). set (hd := a_disk a _) in *.
  set (s1 := set_blocks bl _).
  assert (Hl : logged R (set_bc bc1 s1) (head_list hd)).
  { split; [|by rewrite length_head_list|unfold s1; cbn; by rewrite Hbl| |done]; cbn; rewrite length_head_list; lia. }
  apply wp_bind. eapply wp_mono; [eapply (install_trans_ok R (set_bc bc1 s1) a (head_list hd)
    (log_contents (l_dev s) (l_start s) (a_disk a) (Z.to_nat (lh_n hd)))); try done|].
  { destruct Hg. by split. }
  { unfold log_contents. by rewrite length_head_list, length_map, length_seq. }
  { intros t v Hv. apply list_lookup_fmap_Some in Hv as (t' & Hv & Ht').
    apply lookup_seq in Ht' as [-> _]. done. }
  { rewrite Hpend, map_size_empty. change nbuf with 30%nat. lia. }
  { right. rewrite Hpend, map_size_empty. change nbuf with 30%nat. lia. }
  intros [] ? (bc2 & -> & Hr2). cbn [l_dev set_bc s1 set_blocks set_count] in Hr2.
  rewrite Hpend, unpin_empty in Hr2. wp_step. wp_step.
  eapply wp_mono; [apply (write_head_ok R (set_count 0 (set_bc bc2 s1)) _ [] Hr2); try done|].
  { destruct Hg as [? ? Hp]. split; try done. }
  { split; [done..| | |constructor]; [unfold s1; cbn; lia|apply Hg]. }
  { cbn [a_pend]. rewrite map_size_empty. change nbuf with 30%nat. lia. }
  intros [] ? (bc3 & -> & Hr3).
  cbn [l_dev l_start set_bc s1 set_blocks set_count a_disk a_pend a_writes length] in Hr3.
  rewrite home_writes_off in Hr3 by (apply (head_not_home R s); [apply Hg|done]).
  exists bc3, bl. split_and!; [done..|].
  unfold W, recover_writes. by rewrite !apply_writes_app, app_assoc.
Qed.

(** ** The transaction in memory *)

(** Between [begin_op] and the last [end_op]: the logged blocks are those
    whose latest contents are in the cache only, pinned or held dirty. *)
Record in_txn R s a (bs : list Z) : Prop := {
  it_rep : rep R (bc s) a;
  it_lock : l_lock s = false;
  it_geom : log_geom R s a;
  it_logged : logged R s bs;
  it_nodup : NoDup bs;
  it_pend : forall k v, a_pend a !! k = Some v -> exists b, k = (l_dev s, b) /\ b ∈ bs;
  it_dirty : forall i h, a_held a !! i = Some h -> h_dirty h = true -> exists b, h_key h = (l_dev s, b) /\ b ∈ bs;
  it_cover : forall b, b ∈ bs -> is_Some (a_pend a !! (l_dev s, b)) \/
    exists i h, a_held a !! i = Some h /\ h_dirty h = true /\ h_key h = (l_dev s, b)
}.

(** The slot found by the absorption loop. *)
Lemma log_slot_in n bl b i :
  bl !! i = Some b -> (forall j x, (j < i)%nat -> bl !! j = Some x -> u32 x <> b) ->
  u32 b = b -> (i < n)%nat -> log_slot n bl b = i.
Proof.
  revert bl i. induction n as [|n IH]; intros bl i Hi Hlt Hb Hn; [lia|].
  destruct bl as [|x bl]; [done|]. simpl. destruct i as [|i].
  - injection Hi as ->. by rewrite Hb, Z.eqb_refl.
  - rewrite (proj2 (Z.eqb_neq _ _)) by (apply (Hlt O); [lia|done]). f_equal.
    apply IH; [done| |done|lia]. intros j y Hj. apply (Hlt (Datatypes.S j)). lia.
Qed.
Lemma log_slot_out n bl b :
  (n <= length bl)%nat -> (forall x, x ∈ take n bl -> u32 x <> b) -> log_slot n bl b = n.
Proof.
  revert bl. induction n as [|n IH]; intros bl Hn Hx; [by destruct bl|].
  destruct bl as [|x bl]; simpl in *; [lia|].
  rewrite (proj2 (Z.eqb_neq _ _)) by (apply Hx; left). f_equal.
  apply IH; [lia|]. intros y Hy. apply Hx. by right.
Qed.

(** The header after recording [b]. *)
Definition record_block (b : Z) (bs : list Z) : list Z := if decide (b ∈ bs) then bs else bs ++ [b].

Lemma logged_le R s bs : logged R s bs -> (length bs <= length (lh_blocks s))%nat.
Proof. intros [_ Hb _ _ _]. rewrite <-Hb at 1. rewrite length_take. lia. Qed.

(** The slot [log_write] picks and the array it leaves. *)
Lemma log_slot_record R s bs b :
  logged R s bs -> NoDup bs -> home R s b -> (length bs < Z.to_nat LOGSIZE)%nat ->
  let i := log_slot (length bs) (lh_blocks s) b in
  (i < length (lh_blocks s))%nat /\
  (if Z.of_nat i =? Z.of_nat (length bs) then Z.of_nat (length bs) + 1 else Z.of_nat (length bs))
    = Z.of_nat (length (record_block b bs)) /\
  take (length (record_block b bs)) (<[i := b]> (lh_blocks s)) = record_block b bs.
Proof.
  intros Hl Hnd (Hb & _) Hlen. pose proof Hl as [_ Hbl Ha _ Hh]. rewrite Forall_forall in Hh.
  assert (Hu : forall x, x ∈ bs -> u32 x = x). { intros x Hx. destruct (Hh x Hx) as (? & _). apply u32_id. lia. }
  intros i. unfold record_block. case_decide as Hin.
  - apply list_elem_of_lookup in Hin as [j Hj]. pose proof (lookup_lt_Some _ _ _ Hj) as Hjl.
    assert (Hj' : lh_blocks s !! j = Some b). { rewrite <-Hbl, lookup_take in Hj. by case_decide. }
    assert (Hi : i = j).
    { apply log_slot_in; [done| |apply u32_id; lia|done]. intros j' x Hlt Hx.
      assert (Hx' : bs !! j' = Some x) by (rewrite <-Hbl, lookup_take, decide_True; [done|lia]).
      rewrite Hu by by eapply list_elem_of_lookup_2. intros ->.
      pose proof (NoDup_lookup _ _ _ _ Hnd Hx' Hj). lia. }
    rewrite Hi. pose proof (lookup_lt_Some _ _ _ Hj'). split; [done|]. split.
    + destruct (Z.eqb_spec (Z.of_nat j) (Z.of_nat (length bs))); lia.
    + by rewrite list_insert_id.
  - assert (Hi : i = length bs).
    { apply log_slot_out; [lia|]. rewrite Hbl. intros x Hx. rewrite Hu by done. congruence. }
    rewrite Hi. split; [lia|]. rewrite Z.eqb_refl, length_app. simpl. split; [lia|].
    rewrite Nat.add_1_r, (take_S_r _ _ b) by (apply list_lookup_insert_eq; lia).
    by rewrite take_insert_ge, Hbl.
Qed.

Lemma record_block_in b bs x : x ∈ record_block b bs <-> x = b \/ x ∈ bs.
Proof. unfold record_block. case_decide; set_solver. Qed.

Lemma record_block_nodup b bs : NoDup bs -> NoDup (record_block b bs).
Proof.
  intros. unfold record_block. case_decide; [done|]. apply NoDup_app. split_and!; [done| |apply NoDup_singleton].
  set_solver.
Qed.

Lemma log_write_wp R s a bs i h b :
  in_txn R s a bs -> 1 <= outstanding s ->
  Z.of_nat (length bs) < LOGSIZE -> Z.of_nat (length bs) < l_size s - 1 ->
  a_held a !! i = Some h -> h_key h = (l_dev s, b) -> home R s b ->
  wp (log_write i) (fun _ s' => exists bc' bl,
    s' = set_bc bc' (set_blocks bl (set_count (Z.of_nat (length (record_block b bs))) s)) /\
    in_txn R s' (a_mark i h a) (record_block b bs)) s.
Proof.
  intros [Hrep Hlock Hg Hl Hnd Hp Hd Hc] Hout Hn1 Hn2 Hi Hk Hhome.
  destruct (log_slot_record R s bs b) as (Hs1 & Hs2 & Hs3); [done..|lia|].
  unfold log_write. wp_step. wp_step. rewrite (lo_count _ _ _ Hl), Nat2Z.id.
  rewrite (proj2 (Z.leb_gt _ _)), (proj2 (Z.leb_gt _ _)), (proj2 (Z.ltb_ge _ _)) by lia. cbn [orb].
  unfold acquire. wp_steps; [congruence|].
  bstep (bblockno_ok R _ _ i); [done|done|]. intros ? ? [-> ->]. rewrite Hk. cbn [snd].
  assert (Hib : i32 b = b) by (apply i32_id; destruct Hhome; lia). rewrite Hib.
  unfold put_block. wp_step. wp_step. wp_step. cbn [lh_blocks set_bc set_l_lock].
  rewrite decide_True by done. apply wp_modify.
  set (i0 := log_slot _ _ _) in *. set (s1 := set_blocks _ _).
  apply wp_bind, (wp_mono _ (fun _ s' => s' = set_count (Z.of_nat (length (record_block b bs))) s1)).
  { rewrite <-Hs2. destruct (_ =? _); apply wp_ok; eexists _, _; (split; [done|]); [done|].
    unfold s1. rewrite <-(lo_count _ _ _ Hl). done. }
  intros [] ? ->. bstep (bmark_ok R _ _ i); [done|done|]. intros _ bc' Hr.
  unfold release. wp_steps; [|discriminate].
  exists bc', (<[i0 := b]> (lh_blocks s)). split.
  { unfold s1. destruct s; cbn in *. by subst. }
  split; cbn; [done|done| | |by apply record_block_nodup|..].
  - destruct Hg. by split.
  - split; cbn; [done|done|by rewrite length_insert; apply (lo_array _ _ _ Hl)| |].
    { unfold record_block. case_decide; rewrite ?length_app; cbn; lia. }
    apply Forall_forall. intros x [->|Hx]%record_block_in; [done|].
    pose proof (lo_home _ _ _ Hl) as Hf. rewrite Forall_forall in Hf. by apply Hf.
  - intros k v Hv. destruct (Hp k v Hv) as (b' & -> & Hb'). exists b'. rewrite record_block_in. auto.
  - intros j h'. rewrite lookup_insert. case_decide as Hij.
    + intros [= <-] _. exists b. rewrite record_block_in. cbn. auto.
    + intros Hj Hdh. destruct (Hd j h' Hj Hdh) as (b' & ? & ?). exists b'. rewrite record_block_in. auto.
  - intros x [->|Hx]%record_block_in.
    + right. exists i. eexists. rewrite lookup_insert_eq. split; [done|]. done.
    + destruct (Hc x Hx) as [|(j & h' & Hj & Hdj & Hkj)]; [by left|right].
      destruct (decide (i = j)) as [->|Hij]; [|exists j, h'; by rewrite lookup_insert_ne].
      exists j. eexists. rewrite lookup_insert_eq. split; [done|]. cbn. by simplify_eq.
Qed.

(** [in_txn] with no buffer held is a transaction ready to commit. *)
Lemma in_txn_commit R s a bs :
  in_txn R s a bs -> a_held a = ∅ -> (length bs < Z.to_nat LOGSIZE)%nat ->
  exists vs, txn R s a bs vs.
Proof.
  intros [Hrep Hlock Hg Hl Hnd Hp Hd Hc] Hheld Hlen.
  exists (map (fun b => default [] (a_pend a !! (l_dev s, b))) bs).
  split; try done; [by rewrite length_map|].
  rewrite zip_with_fmap_l, zip_with_fmap_r, zip_with_diag.
  set (l := _ <$> bs).
  assert (Hfst : l.*1 = map (pair (l_dev s)) bs) by (unfold l; by rewrite <-list_fmap_compose).
  symmetry. apply map_eq. intros k. destruct (a_pend a !! k) as [v|] eqn:Hk.
  - destruct (Hp k v Hk) as (b & -> & Hb). apply elem_of_list_to_map_1; [rewrite Hfst; by apply NoDup_pair|].
    unfold l. apply list_elem_of_fmap. exists b. by rewrite Hk.
  - apply not_elem_of_list_to_map_1. rewrite Hfst. intros (b & -> & Hb)%list_elem_of_fmap.
    destruct (Hc b Hb) as [[v Hv]|(i & h & Hh & _)]; [congruence|]. by rewrite Hheld, lookup_empty in Hh.
Qed.

Lemma wp_acquire Q s : l_lock s = false -> Q tt (set_l_lock true s) -> wp acquire Q s.
Proof. intros Hl HQ. unfold acquire. do 2 wp_step. by rewrite Hl. Qed.
Lemma wp_release Q s : l_lock s = true -> Q tt (set_l_lock false s) -> wp release Q s.
Proof. intros Hl HQ. unfold release. do 2 wp_step. by rewrite Hl. Qed.

(** [txn] does not depend on the lock, the counters and the wakeups. *)
Lemma txn_control R s a bs vs lk out com wk :
  txn R s a bs vs ->
  txn R (mklog lk (l_start s) (l_size s) out com (l_dev s) (lh_count s) (lh_blocks s) wk (bc s)) a bs vs.
Proof. intros [Hrep Hheld [] [] Hnd Hlen Hp Hsm]. by split. Qed.

(** [end_op] of the last operation commits the transaction. *)
Lemma end_op_last R s a bs vs :
  txn R s a bs vs -> l_lock s = false -> committing s = false -> outstanding s = 1 -> bs <> [] ->
  let W := commit_writes (l_dev s) (l_start s) bs vs (a_disk a (l_dev s, l_start s)) in
  wp end_op (fun _ s' => exists bc',
    s' = set_bc bc' (set_wakeups (Datatypes.S (wakeups s)) (set_outstanding 0 (set_count 0 s))) /\
    rep R bc' (mkac ∅ ∅ (apply_writes (a_disk a) W) (a_writes a ++ W))) s.
Proof.
  intros Ht Hlock Hc Ho Hne W. unfold end_op, wakeup.
  apply wp_bind, wp_acquire; [done|]. do 4 wp_step. cbn [committing outstanding set_outstanding set_l_lock].
  rewrite Hc, Ho. change (1 - 1 =? 0) with true. do 3 wp_step. apply wp_bind, wp_release; [done|].
  apply wp_bind. eapply wp_mono; [eapply commit_wp; [|done]|].
  { apply (txn_control _ s), Ht. }
  intros [] ? (bc' & -> & Hr). apply wp_bind, wp_acquire; [done|]. do 4 wp_step. apply wp_release; [done|].
  exists bc'. split; [|done]. destruct s; cbn in *. by subst.
Qed.

End spec.
