(* ===== verification/LogCrash.v ===== *)
(** * Crash safety of the log

    A crash leaves the disk with a prefix of the block writes performed so
    far (block writes are atomic).  Whatever the prefix of a commit, recovery
    restores either the blocks before the transaction or all of the
    transaction, and recovery may itself be cut short any number of times. *)

From S2P Require Import Prelude Params Disk Bio BioSpec Layout Log LogSpec.

(** ** Disks *)

(** The log of [sz] blocks that starts at block [st]; disks that are equal
    outside it. *)
Definition log_block (dev st sz : Z) (k : key) : Prop := fst k = dev /\ st <= snd k < st + sz.
Definition agree (dev st sz : Z) (d1 d2 : contents) : Prop :=
  forall k, ~ log_block dev st sz k -> d1 k = d2 k.
(** The disk after a complete recovery. *)
Definition recovered (dev st : Z) (d : contents) : contents :=
  apply_writes d (recover_writes dev st d).

#[export] Instance agree_equiv dev st sz : Equivalence (agree dev st sz).
Proof.
  split; [by intros d k| |].
  - intros d1 d2 H k Hk. symmetry. by apply H.
  - intros d1 d2 d3 H1 H2 k Hk. etrans; [by apply H1|by apply H2].
Qed.

(** The value a sequence of writes leaves in a block does not depend on what
    a part of the same sequence did before. *)
Lemma apply_writes_replay d1 d2 ws k :
  (d1 k = d2 k \/ exists v, (k, v) ∈ ws) -> apply_writes d1 ws k = apply_writes d2 ws k.
Proof.
  revert d1 d2. induction ws as [|[k' v'] ws IH]; intros d1 d2 H; simpl.
  - destruct H as [H|[v Hv]]; [done|]. by apply elem_of_nil in Hv.
  - apply IH. unfold upd. case_decide as Hk; [by left|].
    destruct H as [H|[v Hv]]; [by left|right]. exists v. apply elem_of_cons in Hv as [[= -> _]|]; done.
Qed.

Lemma apply_writes_prefix d j ws k :
  apply_writes (apply_writes d (take j ws)) ws k = apply_writes d ws k.
Proof.
  apply apply_writes_replay.
  destruct (decide (Exists (fun kv => fst kv = k) (take j ws))) as [He|Hn].
  - right. apply Exists_exists in He as ([k' v] & Hin & <-). exists v.
    apply elem_of_take in Hin as (i & Hi & _). by eapply list_elem_of_lookup_2.
  - left. apply apply_writes_other. intros v Hv. apply Hn, Exists_exists. by exists (k, v).
Qed.

(** A duplicate-free sequence of home writes leaves each value. *)
Lemma home_writes_at dev bs vs d t b v :
  NoDup bs -> bs !! t = Some b -> vs !! t = Some v -> apply_writes d (home_writes dev bs vs) (dev, b) = v.
Proof.
  revert bs vs d. induction t as [|t IH]; intros [|b' bs] [|v' vs] d Hnd Hb Hv; try done; simpl in *;
    apply NoDup_cons in Hnd as [Hnb Hnd].
  - simplify_eq. rewrite home_writes_off; [apply upd_eq|]. by intros (x & [= ->] & Hx)%list_elem_of_fmap.
  - by apply IH.
Qed.

Section disk.
Context (dev st sz : Z).

(** A disk whose log holds the committed transaction [bs] with contents [vs];
    [bs = []] is an empty log. *)
Record committed (d : contents) (bs : list Z) (vs : list block) : Prop := {
  cm_len : length (d (dev, st)) = Z.to_nat BSIZE;
  cm_n : lh_n (d (dev, st)) = Z.of_nat (length bs);
  cm_small : (length bs <= Z.to_nat LOGSIZE)%nat;
  cm_fits : Z.of_nat (length bs) < sz;
  cm_list : head_list (d (dev, st)) = bs;
  cm_home : Forall (fun b => ~ log_block dev st sz (dev, b)) bs;
  cm_vs : log_contents dev st d (length bs) = vs
}.

Lemma home_writes_log bs vs d k :
  Forall (fun b => ~ log_block dev st sz (dev, b)) bs -> log_block dev st sz k ->
  apply_writes d (home_writes dev bs vs) k = d k.
Proof.
  intros Hf Hk. apply home_writes_off. intros (b & -> & Hb)%list_elem_of_fmap.
  rewrite Forall_forall in Hf. by apply (Hf b).
Qed.

Lemma take_home_writes j bs vs :
  take j (home_writes dev bs vs) = home_writes dev (take j bs) (take j vs).
Proof. apply zip_with_take. Qed.

Lemma log_block_at t : Z.of_nat t < sz -> log_block dev st sz (dev, st + Z.of_nat t).
Proof. split; [done|]. cbn. lia. Qed.
Lemma log_block_head : 0 < sz -> log_block dev st sz (dev, st).
Proof. split; [done|]. cbn. lia. Qed.
Lemma log_head d bs vs : committed d bs vs -> log_block dev st sz (dev, st).
Proof. intros Hc. apply log_block_head. pose proof (cm_fits _ _ _ Hc). lia. Qed.

(** Writes outside the log keep it. *)
Lemma committed_home d bs vs bs' vs' :
  committed d bs vs -> Forall (fun b => ~ log_block dev st sz (dev, b)) bs' ->
  committed (apply_writes d (home_writes dev bs' vs')) bs vs.
Proof.
  intros Hc Hf. pose proof Hc as [H1 H2 H3 H3' H4 H5 H6].
  assert (Hh : apply_writes d (home_writes dev bs' vs') (dev, st) = d (dev, st)).
  { apply home_writes_log; [done|]. by eapply log_head. }
  split; rewrite ?Hh; try done.
  rewrite <-H6. unfold log_contents. apply map_ext_in. intros t Ht%in_seq.
  apply home_writes_log; [done|].
  replace (st + Z.of_nat t + 1) with (st + Z.of_nat (S t)) by lia. apply log_block_at. lia.
Qed.

(** An empty log: recovery changes no block outside the log. *)
Lemma committed_cleared d bs vs :
  committed d bs vs -> committed (upd d (dev, st) (head_block 0 [] (d (dev, st)))) [] [].
Proof.
  intros [H1 H2 H3 H3' H4 H5 H6].
  assert (Hn : lh_n (head_block 0 [] (d (dev, st))) = 0).
  { apply head_block_n; [done|simpl; lia|]. change LOGSIZE with 30. lia. }
  split; rewrite ?upd_eq; try done.
  - apply length_head_block; [done|]. simpl. lia.
  - simpl. lia.
  - simpl. lia.
  - unfold head_list. by rewrite Hn.
Qed.

Lemma committed_writes d bs vs :
  committed d bs vs ->
  recover_writes dev st d = home_writes dev bs vs ++ [((dev, st), head_block 0 [] (d (dev, st)))].
Proof.
  intros Hc. unfold recover_writes. rewrite (cm_list _ _ _ Hc), (cm_n _ _ _ Hc), Nat2Z.id.
  by rewrite (cm_vs _ _ _ Hc).
Qed.

Lemma upd_log d k v : log_block dev st sz k -> agree dev st sz (upd d k v) d.
Proof. intros Hk k' Hk'. apply upd_ne. by intros ->. Qed.

Lemma recovered_committed d bs vs :
  committed d bs vs -> agree dev st sz (recovered dev st d) (apply_writes d (home_writes dev bs vs)).
Proof.
  intros Hc. unfold recovered. rewrite (committed_writes _ _ _ Hc), apply_writes_app.
  apply upd_log. by eapply log_head.
Qed.

(** A recovery cut after [j] writes leaves a log that recovers to the same
    blocks. *)
Lemma cut_recovery d bs vs j :
  committed d bs vs ->
  exists bs' vs', committed (apply_writes d (take j (recover_writes dev st d))) bs' vs' /\ incl bs' bs /\
    agree dev st sz
      (apply_writes (apply_writes d (take j (recover_writes dev st d))) (home_writes dev bs' vs'))
      (apply_writes d (home_writes dev bs vs)).
Proof.
  intros Hc. rewrite (committed_writes _ _ _ Hc).
  destruct (decide (j <= length (home_writes dev bs vs))%nat) as [Hj|Hj].
  - rewrite take_app_le by done. exists bs, vs. split_and!; [|apply incl_refl|].
    + rewrite take_home_writes. apply committed_home; [done|]. apply Forall_take, (cm_home _ _ _ Hc).
    + intros k _. apply apply_writes_prefix.
  - rewrite take_ge by (rewrite length_app; simpl; lia). rewrite apply_writes_app. exists [], [].
    split_and!; [|apply incl_nil_l|apply upd_log; by eapply log_head].
    pose proof (committed_home d bs vs bs vs Hc (cm_home _ _ _ Hc)) as Hc'.
    rewrite <-(home_writes_log bs vs d (dev, st)) by (by eapply log_head || apply (cm_home _ _ _ Hc)).
    by eapply committed_cleared.
Qed.

(** ** A crash during commit *)

Lemma log_writes_take j vs : take j (log_writes dev st vs) = log_writes dev st (take j vs).
Proof.
  unfold log_writes. apply list_eq. intros i. rewrite list_lookup_imap, !lookup_take.
  case_decide; [by rewrite list_lookup_imap|done].
Qed.

Lemma log_writes_agree vs d :
  Z.of_nat (length vs) < sz -> agree dev st sz (apply_writes d (log_writes dev st vs)) d.
Proof.
  intros Hlen k Hk. apply apply_writes_other. intros v (t & Ht)%list_elem_of_lookup.
  unfold log_writes in Ht. rewrite list_lookup_imap in Ht.
  destruct (vs !! t) as [w|] eqn:E; simpl in Ht; [|done]. injection Ht as <- _.
  apply lookup_lt_Some in E. apply Hk.
  replace (st + Z.of_nat t + 1) with (st + Z.of_nat (S t)) by lia. apply log_block_at. lia.
Qed.

(** The log blocks are written but not yet the header: the log stays empty. *)
Lemma empty_log_writes vs d : committed d [] [] -> committed (apply_writes d (log_writes dev st vs)) [] [].
Proof.
  intros [H1 H2 H3 H3' H4 H5 H6].
  assert (Hh : apply_writes d (log_writes dev st vs) (dev, st) = d (dev, st)).
  { apply log_writes_off. intros t Ht [= ?]. lia. }
  by split; rewrite ?Hh.
Qed.

(** Writing the header is the commit point. *)
Lemma head_commits d bs vs hd :
  length (d (dev, st)) = Z.to_nat BSIZE -> length hd = Z.to_nat BSIZE -> length vs = length bs ->
  (length bs <= Z.to_nat LOGSIZE)%nat -> Z.of_nat (length bs) < sz ->
  Forall (fun b => 0 <= b < 2 ^ 31 /\ ~ log_block dev st sz (dev, b)) bs ->
  committed (upd (apply_writes d (log_writes dev st vs)) (dev, st)
    (head_block (Z.of_nat (length bs)) bs hd)) bs vs.
Proof.
  intros Hd Hhd Hlen Hsm Hfit Hf. rewrite Forall_forall in Hf.
  assert (Hn : lh_n (head_block (Z.of_nat (length bs)) bs hd) = Z.of_nat (length bs)).
  { apply head_block_n; [done..|]. change (Z.to_nat LOGSIZE) with 30%nat in Hsm. change LOGSIZE with 30. lia. }
  split; rewrite ?upd_eq; try done.
  - by apply length_head_block.
  - unfold head_list. rewrite Hn, Nat2Z.id. apply list_eq. intros t. rewrite list_lookup_fmap.
    destruct (bs !! t) as [b|] eqn:Hb.
    + pose proof (lookup_lt_Some _ _ _ Hb). rewrite lookup_seq_lt by done. simpl. f_equal.
      apply head_block_lookup; [done..|]. apply Hf. by eapply list_elem_of_lookup_2.
    + apply lookup_ge_None in Hb. by rewrite lookup_seq_ge.
  - apply Forall_forall. intros b Hb. by apply Hf.
  - unfold log_contents. apply list_eq. intros t. rewrite list_lookup_fmap.
    destruct (vs !! t) as [v|] eqn:Hv.
    + pose proof (lookup_lt_Some _ _ _ Hv). rewrite lookup_seq_lt by lia. simpl. f_equal.
      rewrite upd_ne by (intros [= ?]; lia). by apply log_writes_at.
    + apply lookup_ge_None in Hv. by rewrite lookup_seq_ge by lia.
Qed.

(** Atomicity of a commit cut after [j] writes: old below the commit point,
    new from it on. *)
Lemma crash_committed d bs vs j :
  committed d [] [] -> length vs = length bs -> (length bs <= Z.to_nat LOGSIZE)%nat -> Z.of_nat (length bs) < sz ->
  Forall (fun b => 0 <= b < 2 ^ 31 /\ ~ log_block dev st sz (dev, b)) bs ->
  exists bs' vs', committed (apply_writes d (take j (commit_writes dev st bs vs (d (dev, st))))) bs' vs' /\
    incl bs' bs /\
    agree dev st sz
      (apply_writes (apply_writes d (take j (commit_writes dev st bs vs (d (dev, st)))))
        (home_writes dev bs' vs'))
      (if decide (j <= length bs)%nat then d else apply_writes d (home_writes dev bs vs)).
Proof.
  intros Hd Hlen Hsm Hfit Hf. pose proof (log_head _ _ _ Hd) as Hlh. unfold commit_writes. set (h1 := head_block (Z.of_nat (length bs)) bs _).
  assert (Hl : length (log_writes dev st vs) = length bs) by (unfold log_writes; by rewrite length_imap).
  assert (Hh : Forall (fun b => ~ log_block dev st sz (dev, b)) bs).
  { eapply Forall_impl; [done|]. by intros ? []. }
  case_decide as Hj.
  { rewrite take_app_le, log_writes_take by lia. exists [], []. split; [by apply empty_log_writes|].
    split; [apply incl_nil_l|]. apply log_writes_agree. rewrite length_take. lia. }
  rewrite take_app_ge by lia. rewrite Hl, apply_writes_app.
  destruct (j - length bs)%nat as [|m] eqn:Em; [lia|]. cbn [app take].
  change (apply_writes ?d (?x :: ?l)) with (apply_writes (upd d (fst x) (snd x)) l). cbn [fst snd].
  set (d1 := upd _ _ _).
  assert (Hc1 : committed d1 bs vs) by (apply head_commits; [apply (cm_len _ _ _ Hd)..|done|done|done|done]).
  assert (Hd1 : agree dev st sz d1 d).
  { etrans; [by apply upd_log|]. apply log_writes_agree. lia. }
  assert (Hnew : agree dev st sz (apply_writes d1 (home_writes dev bs vs)) (apply_writes d (home_writes dev bs vs))).
  { intros k Hk. apply apply_writes_replay. left. by apply Hd1. }
  destruct (decide (m <= length (home_writes dev bs vs))%nat) as [Hm|Hm].
  - rewrite take_app_le by done. exists bs, vs. split_and!; [|apply incl_refl|].
    + rewrite take_home_writes. apply committed_home; [done|]. by apply Forall_take.
    + etrans; [|done]. intros k Hk. apply apply_writes_prefix.
  - rewrite take_ge by (rewrite length_app; simpl; lia). rewrite apply_writes_app. exists [], [].
    pose proof (committed_home d1 bs vs bs vs Hc1 Hh) as Hc2.
    assert (Hhd : apply_writes d1 (home_writes dev bs vs) (dev, st) = h1).
    { rewrite home_writes_log; [apply upd_eq|done..]. }
    split_and!; [|apply incl_nil_l|].
    + rewrite <-Hhd. by eapply committed_cleared.
    + etrans; [by apply upd_log|done].
Qed.

End disk.

(** ** The log *)

Section log.
Context {S : Type} `{!BlockStore S}.

Lemma txn_homes R (s : log S) a bs vs :
  txn R s a bs vs ->
  Forall (fun b => 0 <= b < 2 ^ 31 /\ ~ log_block (l_dev s) (l_start s) (l_size s) (l_dev s, b)) bs.
Proof.
  intros Ht. eapply Forall_impl; [apply (lo_home _ _ _ (tx_logged _ _ _ _ _ Ht))|].
  intros b (H1 & _ & H2). split; [done|]. by intros [_ ?].
Qed.

(** The disk a commit leaves, block by block. *)
Lemma commit_disk R (s : log S) a bs vs :
  txn R s a bs vs ->
  agree (l_dev s) (l_start s) (l_size s)
    (apply_writes (a_disk a) (commit_writes (l_dev s) (l_start s) bs vs (a_disk a (l_dev s, l_start s))))
    (apply_writes (a_disk a) (home_writes (l_dev s) bs vs)).
Proof.
  intros Ht. pose proof (lo_fits _ _ _ (tx_logged _ _ _ _ _ Ht)) as Hfit.
  unfold commit_writes. rewrite !apply_writes_app.
  etrans; [apply upd_log, log_block_head; lia|]. intros k Hk. apply apply_writes_replay. left.
  transitivity (apply_writes (a_disk a) (log_writes (l_dev s) (l_start s) vs) k).
  { apply (upd_log (l_dev s) (l_start s) (l_size s)); [apply log_block_head; lia|done]. }
  apply (log_writes_agree (l_dev s) (l_start s) (l_size s)); [|done].
  by rewrite (tx_len _ _ _ _ _ Ht).
Qed.
Lemma commit_new R (s : log S) a bs vs b v :
  txn R s a bs vs -> a_pend a !! (l_dev s, b) = Some v ->
  apply_writes (a_disk a) (commit_writes (l_dev s) (l_start s) bs vs (a_disk a (l_dev s, l_start s)))
    (l_dev s, b) = v.
Proof.
  intros Ht Hv. pose proof Hv as Hin. rewrite (tx_pend _ _ _ _ _ Ht) in Hin.
  apply elem_of_list_to_map_2, list_elem_of_lookup in Hin as [t Ht0].
  apply lookup_zip_with_Some in Ht0 as (k & v' & [= <- ->] & Hk & Hv').
  apply list_lookup_fmap_Some in Hk as (b' & [= <-] & Hb).
  rewrite (commit_disk _ _ _ _ _ Ht).
  - by apply home_writes_at with t; [apply (tx_nodup _ _ _ _ _ Ht)|..].
  - pose proof (txn_homes _ _ _ _ _ Ht) as Hf. rewrite Forall_forall in Hf.
    apply Hf. by eapply list_elem_of_lookup_2.
Qed.
Lemma commit_old R (s : log S) a bs vs k :
  txn R s a bs vs -> a_pend a !! k = None -> ~ log_block (l_dev s) (l_start s) (l_size s) k ->
  apply_writes (a_disk a) (commit_writes (l_dev s) (l_start s) bs vs (a_disk a (l_dev s, l_start s))) k
  = a_disk a k.
Proof.
  intros Ht Hk Hlog. rewrite (commit_disk _ _ _ _ _ Ht) by done. apply home_writes_off.
  intros (b & -> & (t & Hb)%list_elem_of_lookup)%list_elem_of_fmap.
  destruct (lookup_lt_is_Some_2 vs t) as [v Hv].
  { apply lookup_lt_Some in Hb. by rewrite (tx_len _ _ _ _ _ Ht). }
  by rewrite (txn_lookup _ _ _ _ _ _ _ _ Ht Hb Hv) in Hk.
Qed.

(** The state of a machine that has booted on the disk [d], before recovery. *)
Definition boots R (dev st sz : Z) (d : contents) (s : log S) (a : acache) : Prop :=
  booted R s a /\ l_dev s = dev /\ l_start s = st /\ l_size s = sz /\ a_disk a = d.

(** Recovery of a committed log. *)
Lemma recover_committed R dev st sz d (s1 : log S) a1 bs vs :
  boots R dev st sz d s1 a1 -> committed dev st sz d bs vs -> Forall (home R s1) bs ->
  wp recover_from_log (fun _ s2 => exists a2, rep R (bc s2) a2 /\
    a_writes a2 = a_writes a1 ++ recover_writes dev st d /\ a_disk a2 = apply_writes d (recover_writes dev st d) /\
    agree dev st sz (a_disk a2) (apply_writes d (home_writes dev bs vs))) s1.
Proof.
  intros (Hb & Hdev & Hst & Hsz & Hd) Hc Hh.
  eapply wp_mono; [apply (recover_wp R s1 a1 Hb)|]; rewrite ?Hdev, ?Hst, ?Hsz, ?Hd.
  - rewrite (cm_n _ _ _ _ _ _ Hc). pose proof (cm_small _ _ _ _ _ _ Hc) as Hs.
    change (Z.to_nat LOGSIZE) with 30%nat in Hs. change LOGSIZE with 30. lia.
  - rewrite (cm_n _ _ _ _ _ _ Hc). apply (cm_fits _ _ _ _ _ _ Hc).
  - by rewrite (cm_list _ _ _ _ _ _ Hc).
  - intros [] ? (bc' & bl & -> & _ & Hr). eexists. split; [done|]. cbn [a_disk a_writes]. split_and!; [done..|].
    by apply recovered_committed.
Qed.

Lemma home_boots R (s s1 : log S) d a1 bs :
  boots R (l_dev s) (l_start s) (l_size s) d s1 a1 -> Forall (home R s) bs -> Forall (home R s1) bs.
Proof.
  intros (_ & Hdev & Hst & Hsz & _) Hf. eapply Forall_impl; [done|]. intros b. unfold home. by rewrite Hdev, Hst, Hsz.
Qed.

(** The state of the disk after [j] writes of the commit of a transaction. *)
Lemma crash_txn R (s : log S) a bs vs j :
  txn R s a bs vs -> committed (l_dev s) (l_start s) (l_size s) (a_disk a) [] [] ->
  let W := commit_writes (l_dev s) (l_start s) bs vs (a_disk a (l_dev s, l_start s)) in
  let d := apply_writes (a_disk a) (take j W) in
  exists bs' vs', committed (l_dev s) (l_start s) (l_size s) d bs' vs' /\ Forall (home R s) bs' /\
    agree (l_dev s) (l_start s) (l_size s) (apply_writes d (home_writes (l_dev s) bs' vs'))
      (if decide (j <= length bs)%nat then a_disk a else apply_writes (a_disk a) (home_writes (l_dev s) bs vs)).
Proof.
  intros Ht Hc.
  destruct (crash_committed _ _ _ (a_disk a) bs vs j Hc (tx_len _ _ _ _ _ Ht)) as (bs' & vs' & Hc' & Hin & Hag);
    [pose proof (tx_small _ _ _ _ _ Ht); lia|apply (lo_fits _ _ _ (tx_logged _ _ _ _ _ Ht))|by eapply txn_homes|].
  exists bs', vs'. split_and!; [done| |done].
  pose proof (lo_home _ _ _ (tx_logged _ _ _ _ _ Ht)) as Hh. rewrite !Forall_forall in Hh |- *.
  intros b Hb. by apply Hh, list_elem_of_In, Hin, list_elem_of_In.
Qed.


(** A machine that boots on [d]: [recover_from_log] returns, having performed
    some block writes [W], with the blocks of [d'] outside the log; and if it is
    cut short after any number of these writes, the machine that boots next
    recovers as well, up to [n] times in a row. *)
Fixpoint recovers R (dev st sz : Z) (d' : contents) (n : nat) (d : contents) : Prop :=
  forall (s1 : log S) a1, boots R dev st sz d s1 a1 ->
    wp recover_from_log (fun _ s2 => exists a2 W, rep R (bc s2) a2 /\
      a_writes a2 = a_writes a1 ++ W /\ a_disk a2 = apply_writes d W /\ agree dev st sz (a_disk a2) d' /\
      match n with
      | O => True
      | Datatypes.S n' => forall j, recovers R dev st sz d' n' (apply_writes d (take j W))
      end) s1.

Lemma committed_recovers R (s : log S) d' n d bs vs :
  committed (l_dev s) (l_start s) (l_size s) d bs vs -> Forall (home R s) bs ->
  agree (l_dev s) (l_start s) (l_size s) (apply_writes d (home_writes (l_dev s) bs vs)) d' ->
  recovers R (l_dev s) (l_start s) (l_size s) d' n d.
Proof.
  revert d bs vs. induction n as [|n IH]; intros d bs vs Hc Hh Hag; cbn [recovers]; intros s1 a1 Hb;
    (eapply wp_mono; [by eapply recover_committed; [..|eapply home_boots]|]);
    intros [] s2 (a2 & Hr & Hw & Hd & Ha); exists a2, (recover_writes (l_dev s) (l_start s) d);
    (split_and!; [done..|by etrans|]); [done|].
  intros j. destruct (cut_recovery _ _ _ d bs vs j Hc) as (bs' & vs' & Hc' & Hin & Hag').
  apply (IH _ bs' vs'); [done| |by etrans].
  rewrite !Forall_forall in Hh |- *. intros b Hb'. by apply Hh, list_elem_of_In, Hin, list_elem_of_In.
Qed.

(** C2. Crashes during recovery: [commit] returns having performed the writes
    [W]; and when it is cut after any [j] of them, and the recoveries of the
    machines that boot afterwards are themselves cut after any number of their
    writes, any number [n] of times in a row, then every [recover_from_log] that
    is not cut returns with all blocks outside the log as before the transaction
    (if [j] is below the commit point), or all as the transaction left them. *)
Theorem log_reboots_atomic R (s : log S) a bs vs j n :
  txn R s a bs vs -> bs <> [] -> committed (l_dev s) (l_start s) (l_size s) (a_disk a) [] [] ->
  wp commit (fun _ s' => exists a' W, rep R (bc s') a' /\ a_writes a' = a_writes a ++ W /\
    a_disk a' = apply_writes (a_disk a) W /\
    recovers R (l_dev s) (l_start s) (l_size s)
      (if decide (j <= length bs)%nat then a_disk a
       else apply_writes (a_disk a) (home_writes (l_dev s) bs vs))
      n (apply_writes (a_disk a) (take j W))) s.
Proof.
  intros Ht Hne Hc. destruct (crash_txn R s a bs vs j Ht Hc) as (bs' & vs' & Hc' & Hh & Hag).
  eapply wp_mono; [by apply (commit_wp R s a bs vs)|]. intros [] ? (bc' & -> & Hr).
  do 2 eexists. split_and!; [done..|]. by eapply committed_recovers.
Qed.

(** [log_write] on every branch: a full log panics, a call outside a
    transaction panics; otherwise it returns with the block recorded once
    ([record_block]: a block already logged is absorbed), the buffer pinned by
    [B_DIRTY], and the transaction invariant preserved. *)
Theorem log_write_spec R (s : log S) a bs i h b :
  in_txn R s a bs -> a_held a !! i = Some h -> h_key h = (l_dev s, b) -> home R s b ->
  (LOGSIZE <= lh_count s \/ l_size s - 1 <= lh_count s -> log_write i s = Panic "too big a transaction") /\
  (lh_count s < LOGSIZE -> lh_count s < l_size s - 1 -> outstanding s < 1 ->
    log_write i s = Panic "log_write outside of trans") /\
  (lh_count s < LOGSIZE -> lh_count s < l_size s - 1 -> 1 <= outstanding s ->
    wp (log_write i) (fun _ s' => lh_count s' = Z.of_nat (length (record_block b bs)) /\
      outstanding s' = outstanding s /\
      in_txn R s' (a_mark i h a) (record_block b bs)) s).
Proof.
  intros Ht Hi Hk Hh. pose proof (lo_count _ _ _ (it_logged _ _ _ _ Ht)) as Hn.
  split_and!.
  - intros Hfull. unfold log_write, bind, get. replace (_ || _) with true; [done|]. symmetry. apply orb_true_iff.
    rewrite !Z.leb_le. done.
  - intros H1 H2 Ho. unfold log_write, bind, get. rewrite (proj2 (Z.leb_gt _ _)), (proj2 (Z.leb_gt _ _)) by done.
    rewrite (proj2 (Z.ltb_lt _ _)) by done. done.
  - intros H1 H2 Ho. eapply wp_mono; [by apply (log_write_wp R s a bs i h b); rewrite <-?Hn|].
    intros [] ? (bc' & bl & -> & Ht'). done.
Qed.

(** [begin_op] on every branch: it waits, with the state unchanged and
    the lock free, while a commit runs or while the operations admitted could
    overflow the log; otherwise the operation is counted. *)
Theorem begin_op_spec (s : log S) :
  l_lock s = false ->
  begin_op s =
    if committing s || (LOGSIZE <? lh_count s + (outstanding s + 1) * MAXOPBLOCKS)
    then Sleep 0 s
    else Ok tt (set_outstanding (outstanding s + 1) s).
Proof.
  intros Hl. destruct s; cbn in *. subst. unfold begin_op, acquire, release. cbn.
  unfold bind, gets, get, modify, sleep_on. cbn. repeat case_match; simplify_eq; done.
Qed.

(** The last [end_op] commits: from a transaction with no buffer held it
    returns with every logged block at its home location on disk, nothing
    pinned, an empty in-memory header, no operation outstanding, the lock free
    and the waiting operations woken. *)
Theorem end_op_commits R (s : log S) a bs :
  in_txn R s a bs -> a_held a = ∅ -> (length bs < Z.to_nat LOGSIZE)%nat -> bs <> [] ->
  committing s = false -> outstanding s = 1 ->
  wp end_op (fun _ s' => exists a', rep R (bc s') a' /\ a_held a' = ∅ /\ a_pend a' = ∅ /\
    (forall b v, a_pend a !! (l_dev s, b) = Some v -> a_disk a' (l_dev s, b) = v) /\
    (forall k, a_pend a !! k = None -> ~ log_block (l_dev s) (l_start s) (l_size s) k -> a_disk a' k = a_disk a k) /\
    lh_count s' = 0 /\ outstanding s' = 0 /\ committing s' = false /\ l_lock s' = false /\
    wakeups s' = Datatypes.S (wakeups s)) s.
Proof.
  intros Ht Hh Hlen Hne Hc Ho. destruct (in_txn_commit _ _ _ _ Ht Hh Hlen) as [vs Htx].
  eapply wp_mono; [by apply (end_op_last R s a bs vs); [|apply (it_lock _ _ _ _ Ht)|..]|].
  intros [] ? (bc' & -> & Hr). eexists. split; [done|]. cbn [a_held a_pend a_disk]. split_and!; try done.
  - intros b v Hv. by eapply commit_new.
  - intros k Hk Hlog. by eapply commit_old.
  - apply (it_lock _ _ _ _ Ht).
Qed.

(** C40. The reservation of [begin_op] is one block too generous: on a log of
    [LOGSIZE] blocks (the size [mkfs] lays out) three operations are admitted
    together, so they may log 3 * MAXOPBLOCKS = 30 blocks, but [log_write]
    panics on the 30th. *)
Theorem reservation_short (s : log S) i :
  l_size s = LOGSIZE -> committing s = false -> lh_count s = 0 -> outstanding s = 0 -> l_lock s = false ->
  (exists s1 s2 s3, begin_op s = Ok tt s1 /\ begin_op s1 = Ok tt s2 /\ begin_op s2 = Ok tt s3 /\
    outstanding s3 = 3) /\
  forall s', l_size s' = LOGSIZE -> lh_count s' = 3 * MAXOPBLOCKS - 1 ->
    log_write i s' = Panic "too big a transaction".
Proof.
  intros Hs Hc Hn Ho Hl. split.
  - destruct s; cbn in *. subst. do 3 eexists. cbv. done.
  - intros s' Hs' Hn'. unfold log_write, bind, get. rewrite Hn', Hs'. done.
Qed.

End log.

(** ** Example: one logged block *)

Module Demo.

Definition all (k : key) : Prop := True.
Definition zero : block := replicate (Z.to_nat BSIZE) 0.
Definition disk0 : contents := fun _ => zero.
Definition v32 : block := replicate (Z.to_nat BSIZE) 7.
(** Block 32, the first inode block of the layout that mkfs makes, is logged and pinned; one operation is running. *)
Definition cache : acache := mkac ∅ {[(1, 32) := v32]} disk0 [].
Definition running : log acache := mklog false 2 30 1 false 1 1 (32 :: replicate 29 0) 0 cache.
(** A fresh boot on disk [d]. *)
Definition cache_on (d : contents) : acache := mkac ∅ ∅ d [].
Definition boot (d : contents) : log acache := mklog false 2 30 0 false 1 0 (replicate 30 0) 0 (cache_on d).

Lemma geom (s : log acache) a :
  l_start s = 2 -> l_size s = LOGSIZE -> l_dev s = 1 -> (forall i, 0 <= i < LOGSIZE -> a_pend a !! (1, 2 + i) = None) ->
  log_geom all s a.
Proof. intros Hs Hz Hd Hp. split; rewrite ?Hs, ?Hz, ?Hd; [done|done|exact Hp]. Qed.

Lemma running_geom : log_geom all running cache.
Proof. apply geom; [done..|]. intros i Hi. change LOGSIZE with 30 in Hi. apply lookup_singleton_ne. intros [= ?]. lia. Qed.

Lemma running_logged : logged all running [32].
Proof. split; try done. constructor; [|done]. split_and!; [done..|]. cbn. change LOGSIZE with 30. lia. Qed.

Lemma running_txn : txn all running cache [32] [v32].
Proof.
  split; try done; [apply running_geom|apply running_logged|apply NoDup_singleton|].
  change (Z.to_nat LOGSIZE) with 30%nat. simpl. lia.
Qed.

Lemma running_in_txn : in_txn all running cache [32].
Proof.
  split; try done; [apply running_geom|apply running_logged|apply NoDup_singleton| |].
  - intros k v Hk. cbn [cache a_pend] in Hk. apply lookup_singleton_Some in Hk as [<- _]. exists 32. by rewrite list_elem_of_singleton.
  - intros b ->%list_elem_of_singleton. left. exists v32. apply lookup_singleton_eq.
Qed.

Lemma boot_booted d : booted all (boot d) (cache_on d).
Proof. by split; try apply geom. Qed.

Lemma boots_on d : boots all 1 2 30 d (boot d) (cache_on d).
Proof. split; [apply boot_booted|done]. Qed.

Lemma disk0_empty : committed 1 2 30 disk0 [] [].
Proof. split; try done; simpl; lia. Qed.

Definition writes : list (key * block) := commit_writes 1 2 [32] [v32] zero.

End Demo.


(** The commit is cut after its second write, the first recovery after its
    first. *)
Lemma log_reboots_atomic_witness :
  wp commit (fun _ s' => exists a' W, rep Demo.all (bc s') a' /\ a_writes a' = a_writes Demo.cache ++ W /\
    a_disk a' = apply_writes Demo.disk0 W /\
    recovers Demo.all 1 2 30 (apply_writes Demo.disk0 (home_writes 1 [32] [Demo.v32])) 1
      (apply_writes Demo.disk0 (take 2 W))) Demo.running.
Proof.
  apply (log_reboots_atomic Demo.all Demo.running Demo.cache [32] [Demo.v32] 2 1).
  - apply Demo.running_txn.
  - done.
  - apply Demo.disk0_empty.
Defined.

(** The buffer of block 41 is held in the running transaction. *)
Lemma log_write_spec_witness :
  let a := mkac {[0%nat := mkhold (1, 41) false Demo.v32]} {[(1, 32) := Demo.v32]} Demo.disk0 [] in
  wp (log_write 0) (fun _ s' => lh_count s' = 2) (set_bc a Demo.running).
Proof.
  intros a.
  assert (Ht : in_txn Demo.all (set_bc a Demo.running) a [32]).
  { destruct Demo.running_in_txn as [H1 H2 H3 H4 H5 H6 H7 H8]. split; try done.
    - destruct H3. by split.
    - destruct H4. by split.
    - intros i h Hh. cbn [a a_held] in Hh. by apply lookup_singleton_Some in Hh as [_ <-].
    - intros b Hb. destruct (H8 b Hb) as [|(i & h & Hh & _)]; [by left|done]. }
  eapply wp_mono; [apply (log_write_spec Demo.all _ a [32] 0 (mkhold (1, 41) false Demo.v32) 41 Ht); try done|].
  - split_and!; [done..|]. cbn. change LOGSIZE with 30. lia.
  - by intros [] s' (Hn & _).
Defined.

Lemma begin_op_spec_witness : begin_op Demo.running = Ok tt (set_outstanding 2 Demo.running).
Proof. rewrite (begin_op_spec Demo.running) by reflexivity. reflexivity. Defined.

Lemma end_op_commits_witness :
  wp end_op (fun _ s' => lh_count s' = 0 /\ outstanding s' = 0) Demo.running.
Proof.
  eapply wp_mono; [apply (end_op_commits Demo.all Demo.running Demo.cache [32] Demo.running_in_txn); try done|].
  - change (Z.to_nat LOGSIZE) with 30%nat. simpl. lia.
  - intros [] s' (a' & _ & _ & _ & _ & _ & H1 & H2 & _). done.
Defined.

Lemma reservation_short_witness :
  log_write 0 (set_count 29 (Demo.boot Demo.disk0)) = Panic "too big a transaction".
Proof.
  apply (proj2 (reservation_short (Demo.boot Demo.disk0) 0 ltac:(done) ltac:(done) ltac:(done) ltac:(done) ltac:(done)));
    reflexivity.
Defined.
