(* ===== verification/Strings.v ===== *)
(** * Byte memory and string.c

    Memory is a map from addresses to bytes.  Pointer arithmetic stays inside
    an object, so an address is an unbounded [Z]; the routines are those of
    [string.c] and the string instructions of [x86.h] they use. *)

From S2P Require Import Prelude.

(** ** Memory *)

Definition mem := Z -> Z.
Definition store (m : mem) (a v : Z) : mem := fun x => if x =? a then u8 v else m x.
Definition load32 (m : mem) (a : Z) : Z := le_value [m a; m (a + 1); m (a + 2); m (a + 3)].
(** Store the bytes [l] from address [a] on. *)
Fixpoint store_bytes (m : mem) (a : Z) (l : list Z) : mem :=
  match l with
  | [] => m
  | v :: l' => store_bytes (store m a v) (a + 1) l'
  end.
Definition store32 (m : mem) (a v : Z) : mem := store_bytes m a (le_bytes 4 v).
(** The [n] bytes at [a]. *)
Definition bytes_at (m : mem) (a : Z) (n : nat) : list Z := map (fun i => m (a + Z.of_nat i)) (seq 0 n).
(** The bytes of memory are bytes. *)
Definition wf_mem (m : mem) : Prop := forall a, 0 <= m a < 256.

(** ** x86.h *)

Fixpoint stosb (m : mem) (a data : Z) (cnt : nat) : mem :=
  match cnt with
  | O => m
  | S c => stosb (store m a data) (a + 1) data c
  end.
Fixpoint stosl (m : mem) (a data : Z) (cnt : nat) : mem :=
  match cnt with
  | O => m
  | S c => stosl (store32 m a data) (a + 4) data c
  end.

(** ** string.c *)

Definition memset (m : mem) (dst c n : Z) : mem :=
  if (Z.rem (i32 dst) 4 =? 0) && (n mod 4 =? 0) then
    let c := Z.land c 0xFF in
    stosl m dst (Z.lor (Z.lor (Z.lor (Z.shiftl c 24) (Z.shiftl c 16)) (Z.shiftl c 8)) c) (Z.to_nat (n / 4))
  else stosb m dst c (Z.to_nat n).

Fixpoint memcmp (m : mem) (s1 s2 : Z) (n : nat) : Z :=
  match n with
  | O => 0
  | S n' => if negb (m s1 =? m s2) then m s1 - m s2 else memcmp m (s1 + 1) (s2 + 1) n'
  end.

(** [while(n-- > 0) *--d = *--s;] and [while(n-- > 0) *d++ = *s++;] *)
Fixpoint copy_down (m : mem) (d s : Z) (n : nat) : mem :=
  match n with
  | O => m
  | S n' => copy_down (store m (d - 1) (m (s - 1))) (d - 1) (s - 1) n'
  end.
Fixpoint copy_up (m : mem) (d s : Z) (n : nat) : mem :=
  match n with
  | O => m
  | S n' => copy_up (store m d (m s)) (d + 1) (s + 1) n'
  end.
Definition memmove (m : mem) (dst src n : Z) : mem :=
  if (src <? dst) && (dst <? src + n) then copy_down m (dst + n) (src + n) (Z.to_nat n)
  else copy_up m dst src (Z.to_nat n).
Definition memcpy := memmove.

Fixpoint strncmp (m : mem) (p q : Z) (n : nat) : Z :=
  match n with
  | O => 0
  | S n' =>
      if negb (m p =? 0) && (m p =? m q) then strncmp m (p + 1) (q + 1) n'
      else u8 (m p) - u8 (m q)
  end.

(** The first loop of [strncpy]: the memory, the next [s] and the remaining
    count when it stops. *)
Fixpoint strncpy_copy (m : mem) (s t : Z) (n : nat) : mem * Z * nat :=
  match n with
  | O => (m, s, O)
  | S n' =>
      let c := m t in
      let m := store m s c in
      if negb (c =? 0) then strncpy_copy m (s + 1) (t + 1) n' else (m, s + 1, n')
  end.
Definition strncpy (m : mem) (s t n : Z) : mem :=
  let '(m, s, r) := strncpy_copy m s t (Z.to_nat n) in stosb m s 0 r.

Fixpoint safestrcpy_copy (m : mem) (s t : Z) (n : nat) : mem * Z :=
  match n with
  | O => (m, s)
  | S n' =>
      let c := m t in
      let m := store m s c in
      if negb (c =? 0) then safestrcpy_copy m (s + 1) (t + 1) n' else (m, s + 1)
  end.
Definition safestrcpy (m : mem) (s t n : Z) : mem :=
  if n <=? 0 then m
  else let '(m, s) := safestrcpy_copy m s t (Z.to_nat (n - 1)) in store m s 0.

Fixpoint strlen_from (fuel : nat) (m : mem) (s n : Z) : option Z :=
  match fuel with
  | O => None
  | S f => if m (s + n) =? 0 then Some n else strlen_from f m s (n + 1)
  end.
(** [strlen] within the first [fuel] bytes. *)
Definition strlen (fuel : nat) (m : mem) (s : Z) : option Z := strlen_from fuel m s 0.

(** ** Specifications *)

(** The string at [p], cut at [n] characters: the bytes before the first NUL. *)
Fixpoint cstr (m : mem) (p : Z) (n : nat) : list Z :=
  match n with
  | O => []
  | S n' => if m p =? 0 then [] else m p :: cstr m (p + 1) n'
  end.

Lemma store_eq m a v : store m a v a = u8 v.
Proof. unfold store. by rewrite Z.eqb_refl. Qed.
Lemma store_ne m a v x : x <> a -> store m a v x = m x.
Proof. intros. unfold store. by rewrite (proj2 (Z.eqb_neq _ _)). Qed.
Lemma store_wf m a v : wf_mem m -> wf_mem (store m a v).
Proof. intros Hm x. unfold store. destruct (_ =? _); [apply u8_range|apply Hm]. Qed.

(** Case analysis on a store. *)
Ltac stores := repeat match goal with
  | |- context [store ?m ?a ?v ?x] =>
      destruct (decide (x = a)) as [?E|?E]; [rewrite ?E, store_eq|rewrite (store_ne m a v x) by done]
  end.

Lemma copy_up_spec n m d s : wf_mem m -> ~ (s < d < s + Z.of_nat n) ->
  forall x, copy_up m d s n x = if decide (d <= x < d + Z.of_nat n) then m (s + (x - d)) else m x.
Proof.
  revert m d s. induction n as [|n IH]; intros m d s Hm Hov x; simpl.
  - rewrite decide_False by lia. done.
  - rewrite IH by (try apply store_wf; auto; lia).
    destruct (decide (d <= x < d + Z.of_nat (S n))) as [Hx|Hx].
    + destruct (decide (x = d)) as [->|Hne].
      * rewrite decide_False by lia. rewrite store_eq, u8_id by apply Hm. f_equal. lia.
      * rewrite decide_True by lia. rewrite store_ne by lia. f_equal. lia.
    + rewrite decide_False by lia. apply store_ne. lia.
Qed.

Lemma copy_down_spec n m d s : wf_mem m -> ~ (d < s < d + Z.of_nat n) ->
  forall x, copy_down m (d + Z.of_nat n) (s + Z.of_nat n) n x =
    if decide (d <= x < d + Z.of_nat n) then m (s + (x - d)) else m x.
Proof.
  revert m. induction n as [|n IH]; intros m Hm Hov x; cbn [copy_down].
  - rewrite decide_False by lia. done.
  - rewrite !Nat2Z.inj_succ in *.
    replace (d + Z.succ (Z.of_nat n) - 1) with (d + Z.of_nat n) by lia.
    replace (s + Z.succ (Z.of_nat n) - 1) with (s + Z.of_nat n) by lia.
    rewrite IH by (try apply store_wf; auto; lia).
    destruct (decide (d <= x < d + Z.succ (Z.of_nat n))) as [Hx|Hx].
    + destruct (decide (x = d + Z.of_nat n)) as [->|Hne].
      * rewrite decide_False by lia. rewrite store_eq, u8_id by apply Hm. f_equal. lia.
      * rewrite decide_True by lia. rewrite store_ne by lia. done.
    + rewrite decide_False by lia. apply store_ne. lia.
Qed.

Lemma memmove_at m dst src n x : wf_mem m -> 0 <= n ->
  memmove m dst src n x = if decide (dst <= x < dst + n) then m (src + (x - dst)) else m x.
Proof.
  intros Hm Hn. unfold memmove. destruct (_ && _) eqn:E.
  - apply andb_true_iff in E as [H1%Z.ltb_lt H2%Z.ltb_lt].
    rewrite <-(Z2Nat.id n) at 1 2 by done. rewrite copy_down_spec by (auto; lia). by rewrite Z2Nat.id.
  - rewrite copy_up_spec by (auto; apply andb_false_iff in E as [H%Z.ltb_ge|H%Z.ltb_ge]; lia).
    by rewrite Z2Nat.id.
Qed.

(** [memmove] copies [n] bytes whether or not the regions overlap: every
    destination byte receives the source byte of the memory before the call,
    and no other byte changes. *)
Theorem memmove_spec m dst src n : wf_mem m -> 0 <= n ->
  bytes_at (memmove m dst src n) dst (Z.to_nat n) = bytes_at m src (Z.to_nat n) /\
  forall x, ~ (dst <= x < dst + n) -> memmove m dst src n x = m x.
Proof.
  intros Hm Hn. split.
  - apply map_ext_in. intros i Hi%in_seq. rewrite memmove_at, decide_True by (done || lia). f_equal. lia.
  - intros x Hx. by rewrite memmove_at, decide_False.
Qed.

Lemma memmove_spec_witness :
  let m := fun a => u8 a in
  bytes_at (memmove m 12 10 4) 12 4 = [10; 11; 12; 13] /\ memmove m 12 10 4 10 = 10.
Proof.
  intros m. assert (Hm : wf_mem m) by (intros a; apply u8_range).
  destruct (memmove_spec m 12 10 4 Hm ltac:(lia)) as [H1 H2].
  split; [exact H1|]. rewrite H2 by lia. reflexivity.
Defined.

Lemma stosb_spec cnt m a data x :
  stosb m a data cnt x = if decide (a <= x < a + Z.of_nat cnt) then u8 data else m x.
Proof.
  revert m a. induction cnt as [|n IH]; intros m a; simpl.
  - rewrite decide_False by lia. done.
  - rewrite IH. destruct (decide (x = a)) as [->|].
    + rewrite decide_False, decide_True by lia. apply store_eq.
    + rewrite store_ne by done. repeat case_decide; done || lia.
Qed.

Lemma store_bytes_spec l m a x :
  store_bytes m a l x = if decide (a <= x < a + Z.of_nat (length l)) then u8 (nth (Z.to_nat (x - a)) l 0) else m x.
Proof.
  revert m a. induction l as [|v l IH]; intros m a; simpl store_bytes; cbn [length].
  - rewrite decide_False by (simpl; lia). done.
  - rewrite IH. destruct (decide (x = a)) as [->|].
    + rewrite decide_False, decide_True by lia. rewrite store_eq, Z.sub_diag. done.
    + rewrite store_ne by done. repeat case_decide; try done; try lia.
      replace (Z.to_nat (x - a)) with (S (Z.to_nat (x - (a + 1)))) by lia. done.
Qed.

(** The word [memset] stores is its byte four times. *)
Definition fill_word (c : Z) : Z :=
  Z.lor (Z.lor (Z.lor (Z.shiftl c 24) (Z.shiftl c 16)) (Z.shiftl c 8)) c.
Lemma fill_word_bytes c : 0 <= c < 256 -> le_bytes 4 (fill_word c) = [c; c; c; c].
Proof.
  intros Hc.
  assert (H : Forall (fun c => le_bytes 4 (fill_word c) = [c; c; c; c]) (seqZ 0 256)).
  { apply (bool_decide_eq_true_1 _). vm_compute. reflexivity. }
  rewrite Forall_forall in H. apply H, elem_of_seqZ. lia.
Qed.

Lemma stosl_spec cnt m a c x : 0 <= c < 256 ->
  stosl m a (fill_word c) cnt x = if decide (a <= x < a + 4 * Z.of_nat cnt) then c else m x.
Proof.
  intros Hc. revert m a. induction cnt as [|n IH]; intros m a; cbn [stosl].
  - rewrite decide_False by lia. done.
  - rewrite IH. unfold store32. rewrite fill_word_bytes by done. rewrite store_bytes_spec. cbn [length].
    destruct (decide (a <= x < a + Z.of_nat 4)) as [Hx|Hx].
    + rewrite decide_False, decide_True by lia.
      assert (Hi : (Z.to_nat (x - a) < 4)%nat) by lia.
      destruct (Z.to_nat (x - a)) as [|[|[|[|]]]]; [simpl; by apply u8_id..|lia].
    + repeat case_decide; done || lia.
Qed.

Lemma memset_at m dst c n x : 0 <= n ->
  memset m dst c n x = if decide (dst <= x < dst + n) then u8 c else m x.
Proof.
  intros Hn. unfold memset. destruct (_ && _) eqn:E.
  - apply andb_true_iff in E as [_ E%Z.eqb_eq]. fold (fill_word (Z.land c 255)).
    change 255 with (Z.ones 8). rewrite Z.land_ones by lia. change (c mod 2 ^ 8) with (u8 c).
    rewrite stosl_spec by apply u8_range.
    replace (4 * Z.of_nat (Z.to_nat (n / 4))) with n by zlia. done.
  - rewrite stosb_spec. by rewrite Z2Nat.id.
Qed.

Lemma memset_wf m dst c n : wf_mem m -> 0 <= n -> wf_mem (memset m dst c n).
Proof. intros Hm Hn x. rewrite memset_at by done. case_decide; [apply u8_range|apply Hm]. Qed.
Lemma memmove_wf m dst src n : wf_mem m -> 0 <= n -> wf_mem (memmove m dst src n).
Proof. intros Hm Hn x. rewrite memmove_at by done. case_decide; apply Hm. Qed.

Lemma store32_at m a v x :
  store32 m a v x = if decide (a <= x < a + 4) then nth (Z.to_nat (x - a)) (le_bytes 4 v) 0 else m x.
Proof.
  unfold store32. rewrite store_bytes_spec, length_le_bytes. change (Z.of_nat 4) with 4. case_decide; [|done].
  apply u8_id. assert (Hi : (Z.to_nat (x - a) < 4)%nat) by lia.
  pose proof (le_bytes_range 4 v) as Hr. rewrite Forall_forall in Hr. apply Hr.
  apply list_elem_of_In, nth_In. by rewrite length_le_bytes.
Qed.
Lemma store32_wf m a v : wf_mem m -> wf_mem (store32 m a v).
Proof.
  intros Hm x. unfold store32. rewrite store_bytes_spec. case_decide; [apply u8_range|apply Hm].
Qed.

Lemma load_store32 m a v : load32 (store32 m a v) a = u32 v.
Proof.
  unfold load32. rewrite !store32_at, !decide_True by lia.
  replace (a - a) with 0 by lia. replace (a + 1 - a) with 1 by lia.
  replace (a + 2 - a) with 2 by lia. replace (a + 3 - a) with 3 by lia.
  change (le_value (le_bytes 4 v) = u32 v). apply le_value_bytes.
Qed.

(** A word disjoint from the change reads the same. *)
Lemma load32_ext m m' a : (forall x, a <= x < a + 4 -> m' x = m x) -> load32 m' a = load32 m a.
Proof. intros H. unfold load32. by rewrite !H by lia. Qed.
Lemma load32_range m a : wf_mem m -> 0 <= load32 m a < 2 ^ 32.
Proof.
  intros Hm. unfold load32. cbn [le_value].
  pose proof (Hm a). pose proof (Hm (a + 1)). pose proof (Hm (a + 2)). pose proof (Hm (a + 3)). lia.
Qed.

(** ** Strings *)

Lemma strncmp_0 n m p q : wf_mem m -> strncmp m p q n = 0 <-> cstr m p n = cstr m q n.
Proof.
  intros Hm. revert p q. induction n as [|n IH]; intros p q; [done|]. cbn [strncmp cstr].
  pose proof (Hm p). pose proof (Hm q). rewrite !u8_id by done.
  destruct (Z.eqb_spec (m p) 0) as [E|E]; destruct (Z.eqb_spec (m q) 0) as [E'|E'];
    destruct (Z.eqb_spec (m p) (m q)) as [Epq|Epq]; cbn [negb andb]; try lia.
  - split; [done|lia].
  - split; [lia|done].
  - split; [lia|done].
  - rewrite IH. rewrite Epq. split; [by intros ->|by intros [= ?]].
  - split; [lia|]. intros [= ?]. done.
Qed.

Lemma cstr_store n m a v p : ~ (p <= a < p + Z.of_nat n) -> cstr (store m a v) p n = cstr m p n.
Proof.
  revert p. induction n as [|n IH]; intros p Ha; [done|]. cbn [cstr].
  rewrite store_ne by lia. rewrite IH by lia. done.
Qed.

Lemma strncpy_copy_spec n m s t m' s' r : wf_mem m ->
  s + Z.of_nat n <= t \/ t + Z.of_nat n <= s ->
  strncpy_copy m s t n = (m', s', r) ->
  s' + Z.of_nat r = s + Z.of_nat n /\ s <= s' /\
  forall x, m' x = if decide (s <= x < s') then default 0 (cstr m t n !! Z.to_nat (x - s)) else m x.
Proof.
  revert m s t. induction n as [|n IH]; intros m s t Hm Hd; cbn [strncpy_copy].
  - intros [= <- <- <-]. split_and!; [lia|lia|]. intros x. by rewrite decide_False by lia.
  - cbn [cstr]. destruct (Z.eqb_spec (m t) 0) as [E|E]; cbn [negb].
    + intros [= <- <- <-]. split_and!; [lia|lia|]. intros x. rewrite lookup_nil. simpl.
      destruct (decide (x = s)) as [->|].
      * rewrite store_eq, decide_True, E by lia. done.
      * rewrite store_ne, decide_False by lia. done.
    + intros H. apply IH in H as (H1 & H2 & H3); [|by apply store_wf|lia].
      split_and!; [lia|lia|]. intros x. rewrite H3. rewrite cstr_store by lia.
      destruct (decide (x = s)) as [->|].
      * rewrite decide_False, decide_True by lia. rewrite store_eq, Z.sub_diag. simpl. by apply u8_id.
      * rewrite store_ne by done. repeat case_decide; try done; try lia.
        replace (Z.to_nat (x - s)) with (S (Z.to_nat (x - (s + 1)))) by lia. done.
Qed.

Lemma length_cstr n m p : (length (cstr m p n) <= n)%nat.
Proof. revert p. induction n as [|n IH]; intros p; cbn [cstr]; [done|]. case_match; simpl; [lia|]. specialize (IH (p + 1)). lia. Qed.

Lemma strncpy_copy_len n m s t m' s' r :
  s + Z.of_nat n <= t \/ t + Z.of_nat n <= s ->
  strncpy_copy m s t n = (m', s', r) -> Z.of_nat (length (cstr m t n)) <= s' - s.
Proof.
  revert m s t. induction n as [|n IH]; intros m s t Hd; cbn [strncpy_copy cstr].
  - intros [= <- <- <-]. simpl. lia.
  - destruct (Z.eqb_spec (m t) 0); cbn [negb].
    + intros [= <- <- <-]. simpl. lia.
    + intros H. apply IH in H; [|lia]. rewrite cstr_store in H by lia. cbn [length]. lia.
Qed.
Lemma cstr_elem n m p c : c ∈ cstr m p n -> exists y, c = m y.
Proof.
  revert p. induction n as [|n IH]; intros p; cbn [cstr]; [by intros ?%elem_of_nil|].
  case_match; [by intros ?%elem_of_nil|]. intros [->|H']%elem_of_cons; [by exists p|eauto].
Qed.
Lemma cstr_ext n m m' p : (forall i, p <= i < p + Z.of_nat n -> m' i = m i) -> cstr m' p n = cstr m p n.
Proof.
  revert p. induction n as [|n IH]; intros p H; [done|]. cbn [cstr].
  rewrite H, IH by (intros; try apply H; lia). done.
Qed.

Lemma strncpy_at m s t n x : wf_mem m -> 0 <= n -> s + n <= t \/ t + n <= s ->
  strncpy m s t n x =
    if decide (s <= x < s + n) then default 0 (cstr m t (Z.to_nat n) !! Z.to_nat (x - s)) else m x.
Proof.
  intros Hm Hn Hd. unfold strncpy. destruct (strncpy_copy m s t (Z.to_nat n)) as [[m' s'] r] eqn:E.
  pose proof E as Hc. apply strncpy_copy_spec in E as (H1 & H2 & H3); [|done|lia].
  rewrite stosb_spec, H3. rewrite Z2Nat.id in H1 by done.
  repeat case_decide; try done; try lia. rewrite lookup_ge_None_2; [done|].
  apply strncpy_copy_len in Hc; lia.
Qed.

(** A string is determined by its bytes. *)
Lemma cstr_lookup n m p l : (length l <= n)%nat -> Forall (fun c => c <> 0) l ->
  (forall i, (i < n)%nat -> m (p + Z.of_nat i) = default 0 (l !! i)) -> cstr m p n = l.
Proof.
  revert p l. induction n as [|n IH]; intros p l Hl Hz H; [by destruct l; simpl in *; [|lia]|].
  cbn [cstr]. pose proof (H O ltac:(lia)) as H0. rewrite Z.add_0_r in H0. rewrite H0.
  destruct l as [|c l]; simpl; [done|]. apply Forall_cons in Hz as [Hc Hz].
  rewrite (proj2 (Z.eqb_neq _ _)) by done. f_equal. apply IH; [simpl in Hl; lia|done|].
  intros i Hi. pose proof (H (S i) ltac:(lia)) as Hi'. simpl in Hi'. rewrite <-Hi'. f_equal. lia.
Qed.
(** ... or by its bytes and a terminator. *)
Lemma cstr_term n m p l : (length l < n)%nat -> Forall (fun c => c <> 0) l ->
  (forall i, (i <= length l)%nat -> m (p + Z.of_nat i) = default 0 (l !! i)) -> cstr m p n = l.
Proof.
  revert p l. induction n as [|n IH]; intros p l Hl Hz H; [lia|].
  cbn [cstr]. pose proof (H O ltac:(lia)) as H0. rewrite Z.add_0_r in H0. rewrite H0.
  destruct l as [|c l]; simpl; [done|]. apply Forall_cons in Hz as [Hc Hz].
  rewrite (proj2 (Z.eqb_neq _ _)) by done. f_equal. apply IH; [simpl in Hl; lia|done|].
  intros i Hi. pose proof (H (S i) ltac:(simpl; lia)) as Hi'. simpl in Hi'. rewrite <-Hi'. f_equal. lia.
Qed.
Lemma cstr_nonzero n m p : Forall (fun c => c <> 0) (cstr m p n).
Proof.
  revert p. induction n as [|n IH]; intros p; cbn [cstr]; [constructor|].
  destruct (Z.eqb_spec (m p) 0); constructor; auto.
Qed.

(** [strncpy] into a fixed-size name field and [strncmp] agree: the field
    holds the string cut at [n] and padded with NULs, nothing else changes, and
    comparing the field with the source yields 0; [strncmp] yields 0 exactly
    for equal strings (cut at [n]). *)
Theorem strncpy_strncmp m s t n : wf_mem m -> 0 <= n -> s + n <= t \/ t + n <= s ->
  let m' := strncpy m s t n in
  cstr m' s (Z.to_nat n) = cstr m t (Z.to_nat n) /\
  (forall x, ~ (s <= x < s + n) -> m' x = m x) /\
  strncmp m' s t (Z.to_nat n) = 0 /\
  (forall p q k, strncmp m p q k = 0 <-> cstr m p k = cstr m q k).
Proof.
  intros Hm Hn Hd m'.
  assert (Hm' : wf_mem m').
  { intros x. unfold m'. rewrite strncpy_at by done. case_decide; [|apply Hm].
    destruct (cstr _ _ _ !! _) as [c|] eqn:E; simpl; [|lia].
    apply list_elem_of_lookup_2, cstr_elem in E as (y & ->). apply Hm. }
  assert (Hs : cstr m' s (Z.to_nat n) = cstr m t (Z.to_nat n)).
  { apply cstr_lookup; [apply length_cstr|apply cstr_nonzero|]. intros i Hi. unfold m'.
    rewrite strncpy_at, decide_True by (done || lia). do 2 f_equal. lia. }
  split_and!; [done| | |intros; by apply strncmp_0].
  - intros x Hx. unfold m'. by rewrite strncpy_at, decide_False.
  - apply strncmp_0; [done|]. rewrite Hs. symmetry. apply cstr_ext. intros i Hi. unfold m'.
    rewrite strncpy_at, decide_False by (done || lia). done.
Qed.

Lemma strncpy_strncmp_witness :
  let m := store_bytes (fun _ => 7) 100 [104; 105; 0] in
  cstr (strncpy m 200 100 14) 200 14 = [104; 105].
Proof.
  intros m.
  assert (Hm : wf_mem m).
  { intros x. unfold m. rewrite store_bytes_spec. case_decide; [apply u8_range|lia]. }
  etrans; [apply (proj1 (strncpy_strncmp m 200 100 14 Hm ltac:(lia) ltac:(lia)))|reflexivity].
Defined.

Lemma safestrcpy_copy_spec n m s t m' s' : wf_mem m ->
  s + Z.of_nat n <= t \/ t + Z.of_nat n <= s ->
  safestrcpy_copy m s t n = (m', s') ->
  s <= s' <= s + Z.of_nat n /\
  (forall x, m' x = if decide (s <= x < s') then default 0 (cstr m t n !! Z.to_nat (x - s)) else m x) /\
  Z.of_nat (length (cstr m t n)) <= s' - s <= Z.of_nat (length (cstr m t n)) + 1.
Proof.
  revert m s t. induction n as [|n IH]; intros m s t Hm Hd; cbn [safestrcpy_copy].
  - intros [= <- <-]. split_and!; try (simpl; lia). intros x. by rewrite decide_False by lia.
  - cbn [cstr]. destruct (Z.eqb_spec (m t) 0) as [E|E]; cbn [negb].
    + intros [= <- <-]. split_and!; try (simpl; lia). intros x. rewrite lookup_nil. simpl.
      destruct (decide (x = s)) as [->|].
      * rewrite store_eq, decide_True, E by lia. done.
      * rewrite store_ne, decide_False by lia. done.
    + intros H. apply IH in H as (H1 & H3 & H4); [|by apply store_wf|lia].
      rewrite cstr_store in * by lia.
      split_and!; try (cbn [length]; lia). intros x. rewrite H3.
      destruct (decide (x = s)) as [->|].
      * rewrite decide_False, decide_True by lia. rewrite store_eq, Z.sub_diag. simpl. by apply u8_id.
      * rewrite store_ne by done. repeat case_decide; try done; try lia.
        replace (Z.to_nat (x - s)) with (S (Z.to_nat (x - (s + 1)))) by lia. done.
Qed.

(** [safestrcpy] leaves a NUL-terminated string within its [n] bytes, equal
    to the source cut at [n - 1] characters, and changes no byte outside. *)
Theorem safestrcpy_spec m s t n : wf_mem m -> 0 < n -> s + n <= t \/ t + n <= s ->
  let m' := safestrcpy m s t n in
  cstr m' s (Z.to_nat n) = cstr m t (Z.to_nat (n - 1)) /\
  (exists i, 0 <= i < n /\ m' (s + i) = 0) /\
  (forall x, ~ (s <= x < s + n) -> m' x = m x).
Proof.
  intros Hm Hn Hd m'. unfold m', safestrcpy. rewrite (proj2 (Z.leb_gt _ _)) by done.
  destruct (safestrcpy_copy m s t (Z.to_nat (n - 1))) as [m1 s1] eqn:E.
  apply safestrcpy_copy_spec in E as (H1 & H2 & H3); [|done|lia].
  pose proof (length_cstr (Z.to_nat (n - 1)) m t) as Hl.
  split_and!.
  - apply cstr_term; [lia|apply cstr_nonzero|]. intros i Hi.
    destruct (decide (s + Z.of_nat i = s1)) as [Heq|Hne].
    + rewrite Heq, store_eq, lookup_ge_None_2 by lia. done.
    + rewrite store_ne, H2, decide_True by (done || lia). do 2 f_equal. lia.
  - exists (s1 - s). split; [lia|]. replace (s + (s1 - s)) with s1 by lia. apply store_eq.
  - intros x Hx. rewrite store_ne, H2, decide_False by lia. done.
Qed.

Lemma safestrcpy_spec_witness :
  let m := store_bytes (fun _ => 7) 100 [104; 105; 106; 0] in
  cstr (safestrcpy m 200 100 3) 200 3 = [104; 105].
Proof.
  intros m.
  assert (Hm : wf_mem m).
  { intros x. unfold m. rewrite store_bytes_spec. case_decide; [apply u8_range|lia]. }
  etrans; [apply (proj1 (safestrcpy_spec m 200 100 3 Hm ltac:(lia) ltac:(lia)))|reflexivity].
Defined.

#[global] Arguments store : simpl never.
#[global] Arguments store32 : simpl never.
#[global] Arguments load32 : simpl never.
#[global] Arguments memset : simpl never.
#[global] Arguments memmove : simpl never.
