(* ===== verification/Kalloc.v ===== *)
(** * kalloc.c: the physical page allocator

    The free list is threaded through the free pages themselves ([struct run]);
    the theorems show that it behaves as a list of distinct pages. *)

From S2P Require Import Prelude Params Strings.

Section kalloc.
(** [end]: first address after the kernel, from the linker script. *)
Context (end_ : Z).

(** ** State *)

(** [kmem] and the memory that holds the pages. *)
Record kmem := mkkmem {
  k_lock : bool;
  use_lock : bool;
  freelist : Z;
  kmemory : mem
}.
Definition set_k_lock b k := mkkmem b (use_lock k) (freelist k) (kmemory k).
Definition set_use_lock b k := mkkmem (k_lock k) b (freelist k) (kmemory k).
Definition set_freelist p k := mkkmem (k_lock k) (use_lock k) p (kmemory k).
Definition set_kmemory m k := mkkmem (k_lock k) (use_lock k) (freelist k) m.

Definition acquire : M kmem unit :=
  l <-- gets k_lock ;; if (l : bool) then panic "acquire" else modify (set_k_lock true).
Definition release : M kmem unit :=
  l <-- gets k_lock ;; if (l : bool) then modify (set_k_lock false) else panic "release".

(** ** Operations *)

(** [kfree]'s sanity test: the argument is not a page of free memory. *)
Definition bad_page (v : Z) : bool :=
  negb (v mod PGSIZE =? 0) || (v <? end_) || (PHYSTOP <=? v2p v).

Definition kfree (v : Z) : M kmem unit :=
  if bad_page v then panic "kfree"
  else
    modify (fun k => set_kmemory (memset (kmemory k) v 1 PGSIZE) k) ;;;
    ul <-- gets use_lock ;;
    (if (ul : bool) then acquire else ret tt) ;;;
    modify (fun k => set_kmemory (store32 (kmemory k) v (freelist k)) k) ;;;
    modify (set_freelist v) ;;;
    ul <-- gets use_lock ;;
    (if (ul : bool) then release else ret tt).

Definition kalloc : M kmem Z :=
  ul <-- gets use_lock ;;
  (if (ul : bool) then acquire else ret tt) ;;;
  r <-- gets freelist ;;
  (if negb (r =? 0) then modify (fun k => set_freelist (load32 (kmemory k) r) k) else ret tt) ;;;
  ul <-- gets use_lock ;;
  (if (ul : bool) then release else ret tt) ;;;
  ret r.

(** [for(; p + PGSIZE <= vend; p += PGSIZE) kfree(p);] *)
Definition freerange_step (vend p : Z) : M kmem (Z + unit) :=
  if p + PGSIZE <=? vend then kfree p ;;; ret (inl (p + PGSIZE)) else ret (inr tt).
Definition freerange (vstart vend : Z) : M kmem unit :=
  let p := PGROUNDUP vstart in
  loop (S (Z.to_nat ((vend - p) / PGSIZE))) (freerange_step vend) p.

Definition kinit1 (vstart vend : Z) : M kmem unit :=
  modify (set_k_lock false) ;;;
  modify (set_use_lock false) ;;;
  freerange vstart vend.
Definition kinit2 (vstart vend : Z) : M kmem unit :=
  freerange vstart vend ;;;
  modify (set_use_lock true).

(** ** The free list *)

Definition page (v : Z) : Prop := bad_page v = false /\ 0 < v < 2 ^ 32.

Fixpoint free_chain (m : mem) (p : Z) (l : list Z) : Prop :=
  match l with
  | [] => p = 0
  | x :: l' => p = x /\ free_chain m (load32 m x) l'
  end.
(** [l]: the free pages, next to allocate first. *)
Record free_pages (k : kmem) (l : list Z) : Prop := {
  fp_lock : k_lock k = false;
  fp_mem : wf_mem (kmemory k);
  fp_chain : free_chain (kmemory k) (freelist k) l;
  fp_page : Forall page l;
  fp_nodup : NoDup l
}.

Lemma page_aligned v : page v -> v mod 4096 = 0.
Proof.
  intros [Hb _]. unfold bad_page in Hb. rewrite !orb_false_iff, negb_false_iff in Hb.
  by destruct Hb as [[H%Z.eqb_eq _] _].
Qed.
(** Distinct pages do not overlap. *)
Lemma page_disjoint v w : page v -> page w -> v <> w -> v + 4096 <= w \/ w + 4096 <= v.
Proof. intros Hv%page_aligned Hw%page_aligned Hne. zlia. Qed.

(** A change confined to page [v] keeps a chain that avoids it. *)
Lemma free_chain_frame m m' v p l : page v -> Forall page l -> v ∉ l ->
  (forall x, ~ (v <= x < v + 4096) -> m' x = m x) ->
  free_chain m p l -> free_chain m' p l.
Proof.
  intros Hv Hl Hn Hm. revert p. induction l as [|x l IH]; intros p; [done|].
  apply not_elem_of_cons in Hn as [Hne Hn]. apply Forall_cons in Hl as [Hx Hl].
  intros [-> Hc]. split; [done|]. rewrite (load32_ext m m'); [by apply IH|].
  intros y Hy. apply Hm. destruct (page_disjoint v x) as [?|?]; [done..|lia|lia].
Qed.

Lemma kfree_wp k l v :
  free_pages k l -> page v -> v ∉ l ->
  wp (kfree v) (fun _ k' => free_pages k' (v :: l) /\ use_lock k' = use_lock k /\
    forall x, ~ (v <= x < v + 4096) -> kmemory k' x = kmemory k x) k.
Proof.
  intros [Hl Hm Hc Hp Hnd] Hv Hn.
  set (m1 := memset (kmemory k) v 1 PGSIZE). set (m2 := store32 m1 v (freelist k)).
  assert (Hm1 : forall x, ~ (v <= x < v + 4096) -> m2 x = kmemory k x).
  { intros x Hx. unfold m2, m1. rewrite store32_at, decide_False by lia.
    rewrite memset_at, decide_False; done. }
  assert (Hfp : forall u, free_pages (mkkmem false u v m2) (v :: l)).
  { intros u. split; cbn [k_lock use_lock freelist kmemory]; [done| | |by constructor|by constructor].
    - apply store32_wf, memset_wf; done.
    - split; [done|]. unfold m2 at 2. rewrite load_store32.
      apply free_chain_frame with (kmemory k) v; try done.
      replace (u32 (freelist k)) with (freelist k); [done|]. symmetry. apply u32_id.
      destruct l as [|x l]; simpl in Hc; [lia|]. destruct Hc as [-> _].
      apply Forall_cons in Hp as [[_ Hx] _]. lia. }
  unfold kfree. destruct Hv as [Hb _]. rewrite Hb. do 4 wp_step. destruct k as [lk ul fl mm]. cbn in *. subst.
  destruct ul; unfold wp; cbn; (split_and!; [apply Hfp|done|done]).
Qed.

Lemma kalloc_run k l :
  free_pages k l ->
  kalloc k = match l with
             | [] => Ok 0 k
             | x :: _ => Ok x (set_freelist (load32 (kmemory k) x) k)
             end.
Proof.
  intros [Hl Hm Hc Hp Hnd]. destruct k as [lk ul fl mm]. cbn in *. subst.
  unfold kalloc, acquire, release, bind, gets, modify, ret. cbn [use_lock]. destruct l as [|x l].
  - simpl in Hc. subst. by destruct ul.
  - destruct Hc as [-> Hc]. apply Forall_cons in Hp as [[_ Hx] Hp].
    destruct (Z.eqb_spec x 0) as [|E]; [lia|]. apply Z.eqb_neq in E. destruct ul; cbn [k_lock freelist set_k_lock]; by rewrite E.
Qed.

(** C36. The allocator refines a stack of distinct free pages: [kfree] pushes
    its page and touches no other, a bad address panics; [kalloc] pops the
    first page without changing memory, or returns 0 when none is left. *)
Theorem kalloc_refines k l :
  free_pages k l ->
  (forall v, page v -> v ∉ l ->
    wp (kfree v) (fun _ k' => free_pages k' (v :: l) /\
      forall x, ~ (v <= x < v + PGSIZE) -> kmemory k' x = kmemory k x) k) /\
  (forall v, bad_page v = true -> kfree v k = Panic "kfree") /\
  (l = [] -> kalloc k = Ok 0 k) /\
  (forall v l', l = v :: l' ->
    wp kalloc (fun r k' => r = v /\ v <> 0 /\ v ∉ l' /\ free_pages k' l' /\ kmemory k' = kmemory k) k).
Proof.
  intros Hf. split_and!.
  - intros v Hv Hn. eapply wp_mono; [by apply (kfree_wp k l)|]. intros [] k' (H1 & _ & H2). done.
  - intros v Hb. unfold kfree. by rewrite Hb.
  - intros ->. by apply (kalloc_run k []).
  - intros v l' ->. unfold wp. rewrite (kalloc_run k (v :: l')) by done.
    destruct Hf as [H1 H2 [H3 H3'] H4 H5]. apply Forall_cons in H4 as [[Hb Hv] H4].
    apply NoDup_cons in H5 as [Hn H5]. split_and!; try done. lia.
Qed.

(** ** Initialisation *)

(** The pages [freerange] frees, in order. *)
Fixpoint pages_from (n : nat) (p : Z) : list Z :=
  match n with
  | O => []
  | S n' => p :: pages_from n' (p + 4096)
  end.

Lemma pages_from_ge n p x : x ∈ pages_from n p -> p <= x.
Proof.
  revert p. induction n as [|n IH]; intros p; simpl; [by intros ?%elem_of_nil|].
  intros [->|H]%elem_of_cons; [lia|]. specialize (IH _ H). lia.
Qed.

Lemma freerange_loop n vend p k l fuel :
  (n < fuel)%nat -> free_pages k l -> Forall page (pages_from n p) ->
  (forall x, x ∈ pages_from n p -> x ∉ l) ->
  p + 4096 * Z.of_nat n <= vend < p + 4096 * Z.of_nat n + 4096 ->
  wp (loop fuel (freerange_step vend) p) (fun _ k' => free_pages k' (rev (pages_from n p) ++ l) /\
    use_lock k' = use_lock k) k.
Proof.
  revert p k l fuel. induction n as [|n IH]; intros p k l fuel Hfuel Hf Hp Hd Hend;
    (destruct fuel as [|fuel]; [lia|]); cbn [loop]; apply wp_bind; unfold freerange_step;
    change PGSIZE with 4096.
  - rewrite (proj2 (Z.leb_gt _ _)) by lia. by apply wp_ret, wp_ret.
  - rewrite (proj2 (Z.leb_le _ _)) by lia. apply wp_bind.
    cbn [pages_from] in *. apply Forall_cons in Hp as [Hv Hp].
    eapply wp_mono; [apply (kfree_wp k l); [done|done|apply Hd; by left]|].
    intros [] k' (Hf' & Hul & _). apply wp_ret.
    eapply wp_mono; [apply (IH (p + 4096) k' (p :: l)); [lia|done|done| |lia]|].
    + intros x Hx [->|Hxl]%elem_of_cons; [apply pages_from_ge in Hx; lia|].
      by apply (Hd x); [right|].
    + intros [] k2 [H1 H2]. cbn [rev]. rewrite <-app_assoc. split; [done|congruence].
Qed.

(** [freerange] returns and frees exactly the whole pages between
    [vstart] (rounded up) and [vend], each once. *)
Theorem freerange_spec k l vstart vend :
  let p := PGROUNDUP vstart in
  let n := Z.to_nat ((vend - p) / PGSIZE) in
  free_pages k l -> p <= vend -> Forall page (pages_from n p) ->
  (forall x, x ∈ pages_from n p -> x ∉ l) ->
  wp (freerange vstart vend) (fun _ k' => free_pages k' (rev (pages_from n p) ++ l)) k.
Proof.
  intros p n Hf Hle Hp Hd. unfold freerange. fold p.
  eapply wp_mono; [apply (freerange_loop n); try done|].
  - unfold n. lia.
  - unfold n. change PGSIZE with 4096. zlia.
  - by intros [] k' [? _].
Qed.

End kalloc.

(** ** Example: three pages after [end = 0x80108000] *)

Module KallocExample.
Definition end_addr : Z := 0x80108000.
Definition booted : kmem := mkkmem false false 0 (fun _ => 0).
Lemma booted_free : free_pages end_addr booted [].
Proof. split; try done; constructor. Qed.
Lemma pages3 : Forall (page end_addr) (pages_from 3 0x80109000).
Proof. repeat constructor; by vm_compute. Qed.
End KallocExample.

Lemma freerange_spec_witness :
  wp (freerange KallocExample.end_addr 0x80108abc 0x8010c123)
    (fun _ k' => free_pages KallocExample.end_addr k' [0x8010b000; 0x8010a000; 0x80109000])
    KallocExample.booted.
Proof.
  apply (freerange_spec KallocExample.end_addr KallocExample.booted [] 0x80108abc 0x8010c123).
  - apply KallocExample.booted_free.
  - vm_compute. discriminate.
  - apply KallocExample.pages3.
  - intros x _ Hx. by apply elem_of_nil in Hx.
Defined.

Lemma kalloc_refines_witness :
  wp (kfree KallocExample.end_addr 0x80109000) (fun _ k' => free_pages KallocExample.end_addr k' [0x80109000])
    KallocExample.booted.
Proof.
  eapply wp_mono.
  - apply (proj1 (kalloc_refines KallocExample.end_addr _ _ KallocExample.booted_free) 0x80109000).
    + by vm_compute.
    + intros Hx. by apply elem_of_nil in Hx.
  - intros [] k' [Hk _]. exact Hk.
Defined.
