(* ===== verification/Pipe.v ===== *)
(** * pipe.c: pipes

    A pipe is a ring of [PIPESIZE] bytes indexed by two free-running 32-bit
    counters.  A process inside [pipewrite] or [piperead] runs until it returns
    or sleeps; it continues at the same byte when it is woken. *)

From stdpp Require Import relations.
From S2P Require Import Prelude.

Definition PIPESIZE : Z := 512.

(** ** State *)

(** The two sleep channels, [&p->nread] and [&p->nwrite]. *)
Inductive chan := NREAD | NWRITE.

(** [struct pipe]; [p_woken] lists the channels passed to [wakeup], [p_freed]
    says whether the page has been given back. *)
Record pipe := mkpipe {
  p_lock : bool;
  p_data : list Z;
  nread : Z;
  nwrite : Z;
  readopen : bool;
  writeopen : bool;
  p_woken : list chan;
  p_freed : bool
}.
Definition set_p_lock b p := mkpipe b (p_data p) (nread p) (nwrite p) (readopen p) (writeopen p) (p_woken p) (p_freed p).
Definition wake c p := mkpipe (p_lock p) (p_data p) (nread p) (nwrite p) (readopen p) (writeopen p) (p_woken p ++ [c]) (p_freed p).
Definition set_open ro wo p := mkpipe (p_lock p) (p_data p) (nread p) (nwrite p) ro wo (p_woken p) (p_freed p).
Definition set_freed p := mkpipe (p_lock p) (p_data p) (nread p) (nwrite p) (readopen p) (writeopen p) (p_woken p) true.
(** [p->data[p->nwrite++ % PIPESIZE] = c] and [p->nread++]. *)
Definition put_byte c p := mkpipe (p_lock p) (<[Z.to_nat (nwrite p mod PIPESIZE) := c]> (p_data p)) (nread p)
  (u32 (nwrite p + 1)) (readopen p) (writeopen p) (p_woken p) (p_freed p).
Definition next_read p := mkpipe (p_lock p) (p_data p) (u32 (nread p + 1)) (nwrite p) (readopen p) (writeopen p)
  (p_woken p) (p_freed p).

Definition acquire : M pipe unit :=
  l <-- gets p_lock ;; if (l : bool) then panic "acquire" else modify (set_p_lock true).
Definition release : M pipe unit :=
  l <-- gets p_lock ;; if (l : bool) then modify (set_p_lock false) else panic "release".
Definition wakeup (c : chan) : M pipe unit := modify (wake c).

(** The part of [pipealloc] that initialises the pipe in its fresh page, whose
    contents [page] are arbitrary. *)
Definition pipe_init (page : list Z) : pipe := mkpipe false (take (Z.to_nat PIPESIZE) page) 0 0 true true [] false.

Definition pipeclose (writable : bool) : M pipe unit :=
  acquire ;;;
  (if writable then
     modify (fun p => set_open (readopen p) false p) ;;; wakeup NREAD
   else
     modify (fun p => set_open false (writeopen p) p) ;;; wakeup NWRITE) ;;;
  p <-- get ;;
  if negb (readopen p) && negb (writeopen p) then release ;;; modify set_freed
  else release.

(** ** Reading and writing *)

(** How a run ends: with a return value, or asleep. *)
Inductive progress := Returned (r : Z) | Asleep.

(** One iteration of the loops of [pipewrite] at byte [i]; the result also
    carries the [i] reached. *)
Definition pipewrite_step (killed : bool) (addr : list Z) (n i : Z) : M pipe (Z + (progress * Z)) :=
  if i <? n then
    p <-- get ;;
    if nwrite p =? u32 (nread p + PIPESIZE) then
      if negb (readopen p) || killed then release ;;; ret (inr (Returned (-1), i))
      else wakeup NREAD ;;; release ;;; ret (inr (Asleep, i))
    else
      modify (put_byte (addr !!! Z.to_nat i)) ;;;
      ret (inl (i + 1))
  else wakeup NREAD ;;; release ;;; ret (inr (Returned n, i)).
(** [pipewrite] from byte [i] on: its call is [i = 0]; awakened on
    [&p->nwrite], it goes on from the [i] it slept at. *)
Definition pipewrite (killed : bool) (addr : list Z) (n i : Z) : M pipe (progress * Z) :=
  acquire ;;;
  loop (S (Z.to_nat (n - i))) (pipewrite_step killed addr n) i.

(** The copy loop of [piperead]; the bytes stored in [addr]. *)
Definition piperead_step (n : Z) (got : list Z) : M pipe (list Z + list Z) :=
  if Z.of_nat (length got) <? n then
    p <-- get ;;
    if nread p =? nwrite p then ret (inr got)
    else
      modify next_read ;;;
      ret (inl (got ++ [p_data p !!! Z.to_nat (nread p mod PIPESIZE)]))
  else ret (inr got).
Definition piperead (killed : bool) (n : Z) : M pipe (progress * list Z) :=
  acquire ;;;
  p <-- get ;;
  if (nread p =? nwrite p) && writeopen p then
    if killed then release ;;; ret (Returned (-1), [])
    else release ;;; ret (Asleep, [])
  else
    got <-- loop (S (Z.to_nat n)) (piperead_step n) [] ;;
    wakeup NWRITE ;;;
    release ;;;
    ret (Returned (Z.of_nat (length got)), got).

(** ** The bytes in the pipe *)

Definition level (p : pipe) : Z := u32 (nwrite p - nread p).
Definition queue (p : pipe) : list Z :=
  map (fun k => p_data p !!! Z.to_nat ((nread p + Z.of_nat k) mod PIPESIZE)) (seq 0 (Z.to_nat (level p))).

Record pipe_wf (p : pipe) : Prop := {
  pw_data : length (p_data p) = Z.to_nat PIPESIZE;
  pw_read : 0 <= nread p < 2 ^ 32;
  pw_write : 0 <= nwrite p < 2 ^ 32;
  pw_level : level p <= PIPESIZE
}.

Lemma length_queue p : Z.of_nat (length (queue p)) = level p.
Proof. unfold queue. rewrite length_map, length_seq. unfold level. pose proof (u32_range (nwrite p - nread p)). lia. Qed.

(** The tests of the code in terms of the level. *)
Lemma full_iff p : pipe_wf p -> (nwrite p =? u32 (nread p + PIPESIZE)) = (level p =? PIPESIZE).
Proof.
  intros [_ Hr Hw Hl]. apply eq_bool_prop_intro. rewrite !Is_true_true, !Z.eqb_eq.
  unfold level, PIPESIZE in *. split; ulia.
Qed.
Lemma empty_iff p : pipe_wf p -> (nread p =? nwrite p) = (level p =? 0).
Proof.
  intros [_ Hr Hw Hl]. apply eq_bool_prop_intro. rewrite !Is_true_true, !Z.eqb_eq.
  unfold level in *. split; ulia.
Qed.

(** Writing a byte appends it; reading takes the first. *)
Lemma queue_put p c : pipe_wf p -> level p < PIPESIZE ->
  queue (put_byte c p) = queue p ++ [c] /\ level (put_byte c p) = level p + 1.
Proof.
  intros [Hd Hr Hw Hl] Hlt.
  assert (Hlev : level (put_byte c p) = level p + 1).
  { unfold level, PIPESIZE in *. cbn. ulia. }
  split; [|done]. unfold queue. rewrite Hlev.
  assert (Hge : 0 <= level p) by (unfold level; ulia).
  rewrite Z2Nat.inj_add by lia. change (Z.to_nat 1) with 1%nat. rewrite Nat.add_1_r, seq_S, map_app. cbn [map].
  rewrite Nat.add_0_l. f_equal.
  - apply map_ext_in. intros k Hk%in_seq. cbn [p_data nread put_byte].
    apply list_lookup_total_insert_ne. unfold level, PIPESIZE in *. ulia.
  - f_equal. cbn [p_data nread put_byte]. rewrite Z2Nat.id by done.
    replace ((nread p + level p) mod PIPESIZE) with (nwrite p mod PIPESIZE) by (unfold level, PIPESIZE in *; ulia).
    apply list_lookup_total_insert_eq. rewrite Hd. unfold PIPESIZE. zlia.
Qed.

Lemma queue_next p : pipe_wf p -> 0 < level p ->
  queue p = p_data p !!! Z.to_nat (nread p mod PIPESIZE) :: queue (next_read p) /\
  level (next_read p) = level p - 1.
Proof.
  intros [Hd Hr Hw Hl] Hlt.
  assert (Hlev : level (next_read p) = level p - 1).
  { unfold level, PIPESIZE in *. cbn. ulia. }
  split; [|done]. unfold queue. rewrite Hlev.
  replace (Z.to_nat (level p)) with (S (Z.to_nat (level p - 1))) by lia. cbn [seq map].
  rewrite Z.add_0_r. f_equal. rewrite <-seq_shift, map_map. apply map_ext. intros k.
  cbn [p_data nread next_read]. do 2 f_equal. unfold PIPESIZE. ulia.
Qed.

Lemma put_wf p c : pipe_wf p -> level p < PIPESIZE -> pipe_wf (put_byte c p).
Proof.
  intros Hp Hlt. pose proof (queue_put p c Hp Hlt) as [_ Hl]. destruct Hp.
  split; cbn; [by rewrite length_insert|done|apply u32_range|rewrite Hl; lia].
Qed.
Lemma next_wf p : pipe_wf p -> 0 < level p -> pipe_wf (next_read p).
Proof.
  intros Hp Hlt. pose proof (queue_next p Hp Hlt) as [_ Hl]. destruct Hp.
  split; cbn; [done|apply u32_range|done|rewrite Hl; lia].
Qed.

(** ** What a run does *)

Record write_result (killed : bool) (addr : list Z) (n i : Z) (p : pipe) (r : progress) (i' : Z) (p' : pipe) : Prop := {
  wr_i : i' = i + Z.min (n - i) (PIPESIZE - level p);
  wr_wf : pipe_wf p';
  wr_lock : p_lock p' = false;
  wr_queue : queue p' = queue p ++ take (Z.to_nat (i' - i)) (drop (Z.to_nat i) addr);
  wr_open : readopen p' = readopen p /\ writeopen p' = writeopen p;
  wr_woken : r = Returned (-1) \/ last (p_woken p') = Some NREAD;
  wr_r : r = if i' =? n then Returned n else if negb (readopen p) || killed then Returned (-1) else Asleep
}.

Lemma write_loop killed addr n fuel i p :
  pipe_wf p -> p_lock p = true -> 0 <= i <= n -> n <= Z.of_nat (length addr) ->
  (Z.to_nat (n - i) < fuel)%nat ->
  wp (loop fuel (pipewrite_step killed addr n) i) (fun ri p' => write_result killed addr n i p (fst ri) (snd ri) p') p.
Proof.
  revert i p. induction fuel as [|fuel IH]; intros i p Hp Hl Hi Hn Hf; [lia|].
  cbn [loop]. apply wp_bind. unfold pipewrite_step.
  pose proof (pw_level p Hp) as Hlev. assert (Hge : 0 <= level p) by (unfold level; ulia).
  destruct (Z.ltb_spec i n) as [Hin|Hin].
  - apply wp_bind, wp_get. rewrite full_iff by done. destruct (Z.eqb_spec (level p) PIPESIZE) as [Hfull|Hfull].
    + assert (Hres : forall r, (r = Returned (-1) \/ r = Asleep) -> forall w,
        r = (if negb (readopen p) || killed then Returned (-1) else Asleep) ->
        (r = Returned (-1) \/ last w = Some NREAD) ->
        write_result killed addr n i p r i (mkpipe false (p_data p) (nread p) (nwrite p) (readopen p) (writeopen p) w (p_freed p))).
      { intros r _ w Hr Hw. split; cbn; try done; [lia|by destruct Hp| |].
        - rewrite Z.sub_diag. by rewrite app_nil_r.
        - by rewrite (proj2 (Z.eqb_neq i n)) by lia. }
      destruct (negb (readopen p) || killed) eqn:E; unfold wp, release, wakeup, bind, gets, modify, ret;
        cbn [p_lock wake]; rewrite Hl; apply Hres; auto. right. cbn. by rewrite last_snoc.
    + apply wp_bind, wp_modify, wp_ret. eapply wp_mono; [apply (IH (i + 1)); try lia|].
      * apply put_wf; [done|lia].
      * done.
      * intros [r i'] p' [H1 H2 H3 H4 H5 H6 H7]. destruct (queue_put p (addr !!! Z.to_nat i) Hp) as [Hq Hlv]; [lia|].
        rewrite Hlv in H1. cbn [fst snd] in *. split; try done; [lia|].
        rewrite H4, Hq, <-app_assoc. f_equal. cbn [app].
        replace (Z.to_nat (i' - i)) with (S (Z.to_nat (i' - (i + 1)))) by lia.
        rewrite (drop_S addr (addr !!! Z.to_nat i) (Z.to_nat i)) by (apply list_lookup_lookup_total_lt; lia).
        cbn [take]. do 3 f_equal. lia.
  - unfold wp, release, wakeup, bind, gets, modify, ret. cbn [p_lock wake]. rewrite Hl. split; cbn; try done; [lia|by destruct Hp| | |].
    + replace (i - i) with 0 by lia. by rewrite app_nil_r.
    + right. by rewrite last_snoc.
    + by rewrite (proj2 (Z.eqb_eq i n)) by lia.
Qed.

Lemma pipewrite_wp killed addr n i p :
  pipe_wf p -> p_lock p = false -> 0 <= i <= n -> n <= Z.of_nat (length addr) ->
  wp (pipewrite killed addr n i) (fun ri p' => write_result killed addr n i p (fst ri) (snd ri) p') p.
Proof.
  intros Hp Hl Hi Hn. unfold pipewrite, acquire. do 3 wp_step. rewrite Hl. wp_step.
  eapply wp_mono; [apply write_loop; try done; [by destruct Hp|lia]|].
  intros [r i'] p' [H1 H2 H3 H4 H5 H6 H7]. by split.
Qed.

Lemma read_loop n fuel got p :
  pipe_wf p -> Z.of_nat (length got) <= n -> (Z.to_nat (n - Z.of_nat (length got)) < fuel)%nat ->
  wp (loop fuel (piperead_step n) got) (fun g p' =>
    let m := Z.to_nat (Z.min (n - Z.of_nat (length got)) (level p)) in
    g = got ++ take m (queue p) /\ queue p' = drop m (queue p) /\ pipe_wf p' /\ p_lock p' = p_lock p /\
    readopen p' = readopen p /\ writeopen p' = writeopen p /\ p_woken p' = p_woken p) p.
Proof.
  revert got p. induction fuel as [|fuel IH]; intros got p Hp Hg Hf; [lia|].
  cbn [loop]. apply wp_bind. unfold piperead_step.
  assert (Hge : 0 <= level p) by (unfold level; ulia).
  destruct (Z.ltb_spec (Z.of_nat (length got)) n) as [Hn|Hn].
  - apply wp_bind, wp_get. rewrite empty_iff by done. destruct (Z.eqb_spec (level p) 0) as [He|He].
    + apply wp_ret, wp_ret. rewrite He, Z.min_r by lia. cbn. rewrite app_nil_r, drop_0. done.
    + apply wp_bind, wp_modify, wp_ret. destruct (queue_next p Hp) as [Hq Hlv]; [lia|].
      eapply wp_mono; [apply IH; [apply next_wf; [done|lia]|rewrite length_app; simpl; lia..]|].
      intros g p' (H1 & H2 & H3 & H4 & H5 & H6 & H7). rewrite length_app, Hlv in H1, H2. cbn [length] in *.
      replace (Z.to_nat (Z.min (n - Z.of_nat (length got)) (level p))) with
        (S (Z.to_nat (Z.min (n - Z.of_nat (length got + 1)) (level p - 1)))) by lia.
      rewrite Hq. cbn [take drop]. rewrite <-app_assoc in H1. done.
  - apply wp_ret, wp_ret. rewrite Z.min_l by lia.
    replace (n - Z.of_nat (length got)) with 0 by lia. cbn. rewrite app_nil_r, drop_0. done.
Qed.

Record read_result (killed : bool) (n : Z) (p : pipe) (r : progress) (got : list Z) (p' : pipe) : Prop := {
  rr_got : got = take (Z.to_nat n) (queue p);
  rr_queue : queue p' = drop (Z.to_nat n) (queue p);
  rr_wf : pipe_wf p';
  rr_lock : p_lock p' = false;
  rr_open : readopen p' = readopen p /\ writeopen p' = writeopen p;
  rr_r : if (level p =? 0) && writeopen p then r = (if killed then Returned (-1) else Asleep)
         else r = Returned (Z.of_nat (length got)) /\ last (p_woken p') = Some NWRITE
}.

Lemma take_drop_min {A} (m : nat) (k : Z) (l : list A) : Z.of_nat (length l) = k ->
  take (Z.to_nat (Z.min (Z.of_nat m) k)) l = take m l /\ drop (Z.to_nat (Z.min (Z.of_nat m) k)) l = drop m l.
Proof.
  intros Hl. destruct (decide (Z.of_nat m <= k)).
  - rewrite Z.min_l, Nat2Z.id by lia. done.
  - rewrite Z.min_r by lia. rewrite !take_ge, !drop_ge by lia. done.
Qed.

Lemma piperead_wp killed n p :
  pipe_wf p -> p_lock p = false -> 0 <= n ->
  wp (piperead killed n) (fun rg p' => read_result killed n p (fst rg) (snd rg) p') p.
Proof.
  intros Hp Hl Hn. unfold piperead, acquire. do 3 wp_step. rewrite Hl. do 3 wp_step. cbn [nread nwrite writeopen set_p_lock].
  rewrite empty_iff by done. destruct ((level p =? 0) && writeopen p) eqn:E.
  - pose proof E as E'. apply andb_true_iff in E' as [E1%Z.eqb_eq E2].
    assert (Hq : queue p = []) by (apply nil_length_inv; pose proof (length_queue p); lia).
    assert (Hr : forall r, r = (if killed then Returned (-1) else Asleep) ->
      read_result killed n p r [] (set_p_lock false (set_p_lock true p))).
    { intros r ->. split; cbn; try done; [by rewrite Hq, take_nil|rewrite Hq, drop_nil; apply Hq|by destruct Hp|by rewrite E]. }
    destruct killed; unfold wp; cbn; by apply Hr.
  - apply wp_bind. eapply wp_mono; [apply (read_loop n); [by destruct Hp|simpl; lia|simpl; lia]|].
    intros got p1 (H1 & H2 & H3 & H4 & H5 & H6 & H7). cbn [length] in *.
    destruct (take_drop_min (Z.to_nat n) (level p) (queue p) (length_queue p)) as [Ht Hd].
    rewrite Z2Nat.id in Ht, Hd by done.
    change (queue (set_p_lock true p)) with (queue p) in *. change (level (set_p_lock true p)) with (level p) in *.
    rewrite Z.sub_0_r in *. rewrite Ht in H1. rewrite Hd in H2. cbn [app] in H1.
    unfold wp, wakeup, release, bind, gets, modify, ret. cbn [p_lock wake]. rewrite H4. cbn [p_lock set_p_lock fst snd].
    split; cbn; try done; [by destruct H3|]. rewrite E. split; [done|]. by rewrite last_snoc.
Qed.

(** ** A pipe shared by any number of processes *)

(** The pipe with the bytes accepted by [pipewrite] and delivered by
    [piperead] so far. *)
Record psys := mkps { ps_pipe : pipe; ps_written : list Z; ps_read : list Z }.

(** Runs of the operations in any order by any processes: [i] is where the
    process starts or slept before. *)
Inductive pstep : psys -> psys -> Prop :=
| pstep_write killed addr n i r i' p p' W Rd :
    0 <= i <= n -> n <= Z.of_nat (length addr) -> pipewrite killed addr n i p = Ok (r, i') p' ->
    pstep (mkps p W Rd) (mkps p' (W ++ take (Z.to_nat (i' - i)) (drop (Z.to_nat i) addr)) Rd)
| pstep_read killed n r got p p' W Rd :
    0 <= n -> piperead killed n p = Ok (r, got) p' ->
    pstep (mkps p W Rd) (mkps p' W (Rd ++ got))
| pstep_close w p p' W Rd :
    pipeclose w p = Ok tt p' -> pstep (mkps p W Rd) (mkps p' W Rd).

Definition pipe_inv (s : psys) : Prop :=
  pipe_wf (ps_pipe s) /\ p_lock (ps_pipe s) = false /\ ps_written s = ps_read s ++ queue (ps_pipe s).

Lemma pipeclose_run w p : p_lock p = false ->
  exists ro wo wk fr, pipeclose w p = Ok tt (mkpipe false (p_data p) (nread p) (nwrite p) ro wo wk fr) /\
    fr = (p_freed p || (negb ro && negb wo)) /\ ro = (if w then readopen p else false) /\
    wo = (if w then false else writeopen p) /\ last wk = Some (if w then NREAD else NWRITE).
Proof.
  intros Hl. destruct p as [lk d nr nw ro wo wk fr]. cbn in Hl. subst lk.
  destruct w, ro, wo; cbn; do 4 eexists; (split; [reflexivity|]); cbn;
    rewrite ?last_snoc, ?orb_false_r, ?orb_true_r; auto.
Qed.

Lemma pipe_inv_step s s' : pipe_inv s -> pstep s s' -> pipe_inv s'.
Proof.
  intros (Hp & Hl & Hq) Hstep.
  destruct Hstep as [killed addr n i r i' p p' W Rd Hi Hn Hrun|killed n r got p p' W Rd Hn Hrun|w p p' W Rd Hrun]; cbn in *.
  - pose proof (pipewrite_wp killed addr n i p Hp Hl Hi Hn) as Hw. unfold wp in Hw. rewrite Hrun in Hw. cbn in Hw.
    destruct Hw as [_ H2 H3 H4 _ _ _]. split_and!; try done. cbn. by rewrite Hq, H4, app_assoc.
  - pose proof (piperead_wp killed n p Hp Hl Hn) as Hw. unfold wp in Hw. rewrite Hrun in Hw. cbn in Hw.
    destruct Hw as [H1 H2 H3 H4 _ _]. split_and!; try done. cbn. rewrite Hq, H1, H2, <-app_assoc. by rewrite take_drop.
  - destruct (pipeclose_run w p Hl) as (ro & wo & wk & fr & Hrun' & _). rewrite Hrun' in Hrun.
    injection Hrun as <-. by split_and!; [destruct Hp|..].
Qed.

(** C17. A pipe is a FIFO of at most [PIPESIZE] bytes: after any interleaving
    of writes, reads and closes by any processes, sleeping and resuming, the
    bytes accepted are the bytes delivered followed by those in the ring, in
    order, although the 32-bit counters wrap around. *)
Theorem pipe_fifo page s :
  (Z.to_nat PIPESIZE <= length page)%nat -> rtc pstep (mkps (pipe_init page) [] []) s ->
  ps_written s = ps_read s ++ queue (ps_pipe s) /\ Z.of_nat (length (queue (ps_pipe s))) <= PIPESIZE.
Proof.
  intros Hpage Hs.
  assert (Hinv : pipe_inv s).
  { eapply (rtc_ind_r (pipe_inv)); [|by intros; eapply pipe_inv_step|exact Hs].
    split_and!; [|done|done]. split; cbn; try done. rewrite length_take. lia. }
  destruct Hinv as (Hp & _ & Hq). split; [done|]. rewrite length_queue. by apply pw_level.
Qed.

(** What each call does, and that it returns: [pipewrite] stores as many
    bytes as fit and then returns [n], or sleeps, or fails with -1 when no
    reader is left or the process was killed; [piperead] delivers the first
    bytes of the ring, reports end of file (0) once the writers are gone, and
    sleeps on an empty pipe; whoever makes progress wakes the other side. *)
Theorem pipe_calls p :
  pipe_wf p -> p_lock p = false ->
  (forall killed addr n i, 0 <= i <= n -> n <= Z.of_nat (length addr) ->
    wp (pipewrite killed addr n i) (fun ri p' => write_result killed addr n i p (fst ri) (snd ri) p') p) /\
  (forall killed n, 0 <= n ->
    wp (piperead killed n) (fun rg p' => read_result killed n p (fst rg) (snd rg) p') p) /\
  (forall w, wp (pipeclose w) (fun _ p' => queue p' = queue p /\ p_lock p' = false /\
    (p_freed p' = true <-> p_freed p = true \/ (if w then readopen p else writeopen p) = false)) p).
Proof.
  intros Hp Hl. split_and!.
  - intros. by apply pipewrite_wp.
  - intros. by apply piperead_wp.
  - intros w. destruct (pipeclose_run w p Hl) as (ro & wo & wk & fr & Hrun & -> & -> & -> & _).
    unfold wp. rewrite Hrun. split_and!; [done..|]. cbn. destruct w, (readopen p), (writeopen p), (p_freed p); naive_solver.
Qed.

(** ** Example: counters about to wrap *)

Module PipeExample.
Definition page : list Z := replicate 512 0.
Definition fresh : pipe := pipe_init page.
(** The pipe after writing 3 bytes and reading 2. *)
Definition written : pipe := mkpipe false (1 :: 2 :: 3 :: replicate 509 0) 0 3 true true [NREAD] false.
Definition rest : pipe := mkpipe false (1 :: 2 :: 3 :: replicate 509 0) 2 3 true true [NREAD; NWRITE] false.
Lemma pipe_run : rtc pstep (mkps fresh [] []) (mkps rest [1; 2; 3] [1; 2]).
Proof.
  eapply rtc_l; [|eapply rtc_l; [|apply rtc_refl]].
  - apply (pstep_write false [1; 2; 3] 3 0 (Returned 3) 3 fresh written [] []); [lia|simpl; lia|reflexivity].
  - apply (pstep_read false 2 (Returned 2) [1; 2] written rest [1; 2; 3] []); [lia|reflexivity].
Qed.
(** [nwrite] = 2^32 - 1. *)
Definition wrapping : pipe := mkpipe false page (2 ^ 32 - 3) (2 ^ 32 - 1) true true [] false.
Lemma wrapping_wf : pipe_wf wrapping.
Proof. by split. Qed.
End PipeExample.

Lemma pipe_fifo_witness : [1; 2; 3] = [1; 2] ++ queue PipeExample.rest.
Proof.
  apply (proj1 (pipe_fifo PipeExample.page (mkps PipeExample.rest [1; 2; 3] [1; 2])
    ltac:(vm_compute; lia) PipeExample.pipe_run)).
Defined.

Lemma pipe_calls_witness :
  wp (pipewrite false [7; 8] 2 0) (fun ri p' => queue p' = [0; 0; 7; 8] /\ nwrite p' = 1) PipeExample.wrapping.
Proof.
  apply wp_and; [|reflexivity].
  eapply wp_mono.
  - apply (proj1 (pipe_calls PipeExample.wrapping PipeExample.wrapping_wf eq_refl) false [7; 8] 2 0); simpl; lia.
  - intros [r i'] p' [-> _ _ Hq _ _ _]. exact Hq.
Defined.
