(* ===== verification/Spinlock.v ===== *)
(** * spinlock.c: mutual exclusion between CPUs

    Interrupt-disable nesting ([pushcli], [popcli]) and the spin lock, as a
    step relation in which every CPU is somewhere inside [acquire], the
    critical section or [release], and each shared access is one step. *)

From stdpp Require Import relations.
From S2P Require Import Prelude Params Strings.

(** ** Per-CPU interrupt state *)

(** [struct cpu] (proc.h): [ncli], [intena] and the IF flag of EFLAGS. *)
Record cpu := mkcpu { ncli : Z; intena : bool; iflag : bool }.

Definition pushcli (c : cpu) : cpu :=
  mkcpu (ncli c + 1) (if ncli c =? 0 then iflag c else intena c) false.
Definition popcli (c : cpu) : string + cpu :=
  if iflag c then inl "popcli - interruptible"%string
  else
    let n := ncli c - 1 in
    if n <? 0 then inl "popcli"%string
    else inr (mkcpu n (intena c) (if (n =? 0) && intena c then true else iflag c)).

(** ** The lock *)

(** [struct spinlock]; [lk_cpu] is the CPU recorded by [acquire]. *)
Record spinlock := mklk { locked : bool; lk_cpu : option nat; pcs : list Z }.
Definition initlock : spinlock := mklk false None (replicate 10 0).

Definition holding (lk : spinlock) (c : nat) : bool := locked lk && bool_decide (lk_cpu lk = Some c).

(** The first loop of [getcallerpcs]: follow the saved %ebp chain. *)
Fixpoint caller_pcs (n : nat) (m : mem) (ebp : Z) : list Z :=
  match n with
  | O => []
  | S n' =>
      if (ebp =? 0) || (ebp <? KERNBASE) || (ebp =? 0xffffffff) then []
      else load32 m (ebp + 4) :: caller_pcs n' m (load32 m ebp)
  end.
Definition getcallerpcs (m : mem) (v : Z) : list Z :=
  let l := caller_pcs 10 m (u32 (v - 8)) in l ++ replicate (10 - length l) 0.

(** ** CPUs running [acquire] and [release] *)

(** Where a CPU is: outside, in the [xchg] loop, between the [xchg] and the
    record of the owner, in the critical section, between the erasure of the
    record and the releasing [xchg], stopped by a panic. *)
Inductive pc := Outside | Spin | Took | Critical | Leaving | Panicked (msg : string).

#[export] Instance pc_eq_dec : EqDecision pc.
Proof. solve_decision. Defined.

Record machine := mkm { m_lock : spinlock; m_cpus : list (cpu * pc) }.

(** One step of CPU [c]; [stack] is the memory [getcallerpcs] walks and [sp]
    the address of its argument. *)
Definition cpu_step (stack : mem) (sp : Z) (lk : spinlock) (c : nat) (st : cpu * pc) : spinlock * (cpu * pc) :=
  let '(cp, p) := st in
  match p with
  | Outside =>                         (* acquire: pushcli(); if(holding(lk)) panic *)
      let cp := pushcli cp in
      if holding lk c then (lk, (cp, Panicked "acquire")) else (lk, (cp, Spin))
  | Spin =>                            (* while(xchg(&lk->locked, 1) != 0) *)
      (mklk true (lk_cpu lk) (pcs lk), (cp, if locked lk then Spin else Took))
  | Took =>                            (* lk->cpu = cpu; getcallerpcs *)
      (mklk (locked lk) (Some c) (getcallerpcs stack sp), (cp, Critical))
  | Critical =>                        (* release: if(!holding(lk)) panic; lk->pcs[0] = 0; lk->cpu = 0 *)
      if holding lk c then (mklk (locked lk) None (<[0%nat := 0]> (pcs lk)), (cp, Leaving))
      else (lk, (cp, Panicked "release"))
  | Leaving =>                         (* xchg(&lk->locked, 0); popcli() *)
      let lk := mklk false (lk_cpu lk) (pcs lk) in
      match popcli cp with
      | inl msg => (lk, (cp, Panicked msg))
      | inr cp => (lk, (cp, Outside))
      end
  | Panicked _ => (lk, st)
  end.

(** Any CPU may run next. *)
Inductive mstep (stack : mem) (sp : Z) : machine -> machine -> Prop :=
| mstep_cpu lk cpus c st lk' st' :
    cpus !! c = Some st -> cpu_step stack sp lk c st = (lk', st') ->
    mstep stack sp (mkm lk cpus) (mkm lk' (<[c := st']> cpus)).

(** ** Invariant *)

(** The CPU owns the lock. *)
Definition owner (p : pc) : bool := match p with Took | Critical | Leaving => true | _ => false end.

(** What holds of CPU [c]: outside it is as at boot; inside interrupts are off,
    [ncli] is 1 and [intena] remembers the interrupt flag [e c] it had outside. *)
Definition cpu_ok (e : bool) (cp : cpu) (p : pc) : Prop :=
  match p with
  | Outside => ncli cp = 0 /\ iflag cp = e
  | Panicked _ => False
  | _ => ncli cp = 1 /\ intena cp = e /\ iflag cp = false
  end.

(** [o] is the CPU that owns the lock. *)
Record lock_inv (es : list bool) (o : option nat) (m : machine) : Prop := {
  li_len : length es = length (m_cpus m);
  li_cpu : forall c cp p e, m_cpus m !! c = Some (cp, p) -> es !! c = Some e -> cpu_ok e cp p;
  li_owner : forall c cp p, m_cpus m !! c = Some (cp, p) -> owner p = true <-> o = Some c;
  li_locked : locked (m_lock m) = bool_decide (is_Some o);
  li_record : forall c, lk_cpu (m_lock m) = Some c <-> exists cp, m_cpus m !! c = Some (cp, Critical)
}.

(** The owner after CPU [c] moves from [p] to [p']. *)
Definition owner_after (o : option nat) (c : nat) (p' : pc) : option nat :=
  if owner p' then Some c else if decide (o = Some c) then None else o.

Lemma lock_inv_move es o lk cpus c cp p lk' cp' p' :
  lock_inv es o (mkm lk cpus) -> cpus !! c = Some (cp, p) ->
  (forall e, es !! c = Some e -> cpu_ok e cp p -> cpu_ok e cp' p') ->
  (owner p = false -> owner p' = true -> locked lk = false) ->
  locked lk' = bool_decide (is_Some (owner_after o c p')) ->
  lk_cpu lk' = (match p' with Critical => Some c | _ => if decide (p = Critical) then None else lk_cpu lk end) ->
  (p' = Critical -> owner p = true) ->
  lock_inv es (owner_after o c p') (mkm lk' (<[c := (cp', p')]> cpus)).
Proof.
  intros [Hlen Hcpu Hown Hlk Hrec] Hc Hok Hfree Hlk' Hrec' Hcrit. cbn in *.
  pose proof (Hown c cp p Hc) as Ho.
  split; cbn; [by rewrite length_insert| | |done|].
  - intros c' cp1 p1 e H1 He. apply list_lookup_insert_Some in H1 as [(<- & [= <- <-] & _)|[_ H1]]; eauto.
  - intros c' cp1 p1 H1. unfold owner_after.
    apply list_lookup_insert_Some in H1 as [(<- & [= <- <-] & _)|[Hne H1]].
    + destruct (owner p'); [done|]. destruct (decide (o = Some c)); split; intros; congruence.
    + specialize (Hown c' cp1 p1 H1). destruct (owner p') eqn:Ep'.
      * rewrite Hown. destruct (owner p) eqn:Ep; [split; intros; destruct Ho as [Ho _]; specialize (Ho eq_refl); congruence|].
        assert (o = None) as ->; [|split; intros; congruence].
        specialize (Hfree eq_refl eq_refl). rewrite Hfree in Hlk. destruct o; [|done].
        by rewrite bool_decide_eq_true_2 in Hlk by eauto.
      * rewrite Hown. destruct (decide (o = Some c)); split; intros; congruence.
  - intros c'. rewrite Hrec'. destruct (decide (c' = c)) as [->|Hne].
    + rewrite list_lookup_insert_eq by by eapply lookup_lt_Some.
      split; [|intros (cp1 & [= <- ->]); done].
      destruct p'; try (by eexists); case_decide as Hp; try done; intros (cp1 & Hx)%Hrec; congruence.
    + rewrite list_lookup_insert_ne by done. rewrite <-Hrec.
      assert (Hx : lk_cpu lk = Some c' -> o = Some c').
      { intros (cp1 & H1)%Hrec. by apply (Hown c' cp1 Critical H1). }
      assert (Hy : p = Critical -> lk_cpu lk = Some c) by (intros ->; apply Hrec; eauto).
      assert (Hz : p' = Critical -> o = Some c) by (intros ->; by apply Ho, Hcrit).
      destruct p'; try destruct (decide (p = Critical)) as [Hp|]; try done;
        split; intros H'; try (specialize (Hy Hp)); try (specialize (Hz eq_refl); specialize (Hx H')); congruence.
Qed.

Lemma lock_inv_step stack sp es o m m' :
  lock_inv es o m -> mstep stack sp m m' -> exists o', lock_inv es o' m'.
Proof.
  intros Hi Hs. destruct Hs as [lk cpus c [cp p] lk' st' Hc Hstep].
  pose proof Hi as [Hlen Hcpu Hown Hlk Hrec]. cbn in *. pose proof (Hown c cp p Hc) as Ho.
  destruct (lookup_lt_is_Some_2 es c) as [e He]; [rewrite Hlen; by eapply lookup_lt_Some|].
  pose proof (Hcpu c cp p e Hc He) as Hok.
  assert (Hhold : holding lk c = bool_decide (p = Critical)).
  { unfold holding. destruct p; cbn in Ho; try (rewrite (bool_decide_eq_false_2 (_ = Some c));
      [by rewrite andb_false_r|intros (? & ?)%Hrec; congruence]).
    rewrite Hlk, !bool_decide_eq_true_2; [done|done|by apply Hrec; eauto|rewrite (proj1 Ho eq_refl); by eexists]. }
  assert (Hnone : owner p = false -> o <> Some c) by (destruct (owner p); intros; rewrite <-?Ho; congruence).
  unfold cpu_step in Hstep.
  destruct p as [| | | | |msg]; cbn in Hok, Ho, Hhold, Hnone; try done.
  - rewrite Hhold in Hstep. injection Hstep as <- <-. exists (owner_after o c Spin).
    apply (lock_inv_move es o lk cpus c cp Outside); try done.
    + intros e' He' [H1 H2]. cbn. rewrite H1. cbn. by rewrite H2.
    + unfold owner_after. cbn. rewrite decide_False by auto. done.
  - injection Hstep as <- <-. destruct (locked lk) eqn:El.
    + exists (owner_after o c Spin). apply (lock_inv_move es o lk cpus c cp Spin); try done.
      unfold owner_after. cbn. rewrite decide_False by auto. done.
    + exists (owner_after o c Took). by apply (lock_inv_move es o lk cpus c cp Spin).
  - injection Hstep as <- <-. exists (owner_after o c Critical).
    apply (lock_inv_move es o lk cpus c cp Took); try done. rewrite (proj1 Ho eq_refl) in Hlk. done.
  - rewrite Hhold in Hstep. injection Hstep as <- <-. exists (owner_after o c Leaving).
    apply (lock_inv_move es o lk cpus c cp Critical); try done. rewrite (proj1 Ho eq_refl) in Hlk. done.
  - destruct Hok as (H1 & H2 & H3). unfold popcli in Hstep. rewrite H1, H3 in Hstep. cbn in Hstep.
    injection Hstep as <- <-. exists (owner_after o c Outside).
    apply (lock_inv_move es o lk cpus c cp Leaving); try done.
    + intros e' He' _. assert (e' = e) as -> by congruence. cbn. rewrite H2. by destruct e.
    + unfold owner_after. cbn. rewrite decide_True by by apply Ho. done.
Qed.

(** Every CPU outside, with interrupt flag [es !! c], before the lock is used. *)
Definition boot_machine (es : list bool) : machine :=
  mkm initlock (map (fun e => (mkcpu 0 false e, Outside)) es).

Lemma boot_inv es : lock_inv es None (boot_machine es).
Proof.
  assert (Hat : forall c cp p, m_cpus (boot_machine es) !! c = Some (cp, p) ->
    exists e, es !! c = Some e /\ cp = mkcpu 0 false e /\ p = Outside).
  { intros c cp p H. apply list_lookup_fmap_Some in H as (e & [= -> ->] & He). eauto. }
  split; cbn [boot_machine m_cpus m_lock]; [by rewrite length_map| | |done|].
  - intros c cp p e H He. apply Hat in H as (e' & He' & -> & ->). cbn. split; [done|congruence].
  - intros c cp p H. apply Hat in H as (e' & He' & -> & ->). cbn. split; intros; congruence.
  - intros c. cbn. split; [done|]. intros (cp & (e & _ & _ & ?)%Hat). congruence.
Qed.

(** C19. Mutual exclusion: from a free lock, whatever the interleaving of the
    CPUs' steps through [acquire] and [release], no CPU panics, at most one CPU
    is past the [xchg] of [acquire] and not yet past that of [release],
    [holding] is true exactly of the CPU in the critical section, and a CPU
    inside has interrupts off and gets its own interrupt state back outside. *)
Theorem spinlock_mutex stack sp es m :
  rtc (mstep stack sp) (boot_machine es) m ->
  (forall c1 c2 cp1 cp2 p1 p2, m_cpus m !! c1 = Some (cp1, p1) -> m_cpus m !! c2 = Some (cp2, p2) ->
    owner p1 = true -> owner p2 = true -> c1 = c2) /\
  (forall c cp p, m_cpus m !! c = Some (cp, p) -> holding (m_lock m) c = true <-> p = Critical) /\
  (forall c cp p e, m_cpus m !! c = Some (cp, p) -> es !! c = Some e ->
    (forall msg, p <> Panicked msg) /\ (p <> Outside -> iflag cp = false) /\
    (p = Outside -> iflag cp = e /\ ncli cp = 0)).
Proof.
  intros Hr.
  assert (Hi : exists o, lock_inv es o m).
  { eapply (rtc_ind_r (fun m => exists o, lock_inv es o m)); [|intros m1 m2 _ Hs [o Ho]|exact Hr].
    - exists None. apply boot_inv.
    - by eapply lock_inv_step. }
  destruct Hi as [o [Hlen Hcpu Hown Hlk Hrec]]. split_and!.
  - intros c1 c2 cp1 cp2 p1 p2 H1 H2 Ho1 Ho2. apply (Hown _ _ _ H1) in Ho1. apply (Hown _ _ _ H2) in Ho2. congruence.
  - intros c cp p Hc. unfold holding. rewrite andb_true_iff, bool_decide_eq_true, Hrec. split.
    + intros [_ (cp' & Hc')]. congruence.
    + intros ->. split; [|eauto]. rewrite Hlk. apply bool_decide_eq_true_2.
      exists c. by apply (Hown _ _ _ Hc).
  - intros c cp p e Hc He. pose proof (Hcpu c cp p e Hc He) as Hok.
    destruct p; cbn in Hok; try (by exfalso); (split_and!; [done|intros ?|intros ?]); try done; tauto.
Qed.

(** ** Nesting *)

Fixpoint popclis (n : nat) (c : cpu) : string + cpu :=
  match n with
  | O => inr c
  | S n' => match popcli c with inl e => inl e | inr c' => popclis n' c' end
  end.

(** [pushcli]/[popcli] are matched: after [n] calls of [pushcli], fewer
    than [n] calls of [popcli] leave interrupts off, the [n]th restores the
    interrupt flag of before the first, and one more panics. *)
Theorem pushcli_popcli c n k :
  ncli c = 0 -> (0 < n)%nat -> (k < n)%nat ->
  (exists c', popclis k (Nat.iter n pushcli c) = inr c' /\ iflag c' = false /\ ncli c' = Z.of_nat (n - k)) /\
  (exists c', popclis n (Nat.iter n pushcli c) = inr c' /\ iflag c' = iflag c /\ ncli c' = 0 /\
    exists e, popcli c' = inl e).
Proof.
  intros Hc Hn Hk.
  assert (Hpush : forall m, (0 < m)%nat -> Nat.iter m pushcli c = mkcpu (Z.of_nat m) (iflag c) false).
  { induction m as [|m IH]; [lia|]. intros _. rewrite Nat.iter_succ. destruct m as [|m].
    - unfold pushcli. cbn. rewrite Hc. done.
    - rewrite IH by lia. unfold pushcli. cbn [ncli intena iflag].
      rewrite (proj2 (Z.eqb_neq _ _)) by lia. f_equal. lia. }
  assert (Hpop : forall k m, (k < m)%nat ->
    popclis k (mkcpu (Z.of_nat m) (iflag c) false) = inr (mkcpu (Z.of_nat (m - k)) (iflag c) false)).
  { induction k0 as [|k0 IH]; intros m Hm; [by rewrite Nat.sub_0_r|]. cbn [popclis]. unfold popcli. cbn [iflag ncli intena].
    rewrite (proj2 (Z.ltb_ge _ _)), (proj2 (Z.eqb_neq _ _)) by lia. cbn [andb].
    replace (Z.of_nat m - 1) with (Z.of_nat (m - 1)) by lia. rewrite IH by lia. do 3 f_equal. lia. }
  rewrite Hpush by done. split.
  - rewrite Hpop by done. eexists. done.
  - destruct n as [|n]; [lia|].
    assert (Happ : forall j c1, popclis (S j) c1 = match popclis j c1 with inl e => inl e | inr c2 => popcli c2 end).
    { induction j as [|j IH]; intros c1; cbn [popclis]; [by destruct (popcli c1)|]. destruct (popcli c1); [done|]. apply IH. }
    rewrite Happ, Hpop by lia. replace (S n - n)%nat with 1%nat by lia. unfold popcli at 1. cbn.
    eexists. split; [done|]. cbn. split; [by destruct (iflag c)|]. split; [done|].
    unfold popcli. cbn. destruct (iflag c); eauto.
Qed.

Lemma pushcli_popcli_witness :
  exists c', popclis 2 (Nat.iter 2 pushcli (mkcpu 0 false true)) = inr c' /\ iflag c' = true.
Proof.
  destruct (proj2 (pushcli_popcli (mkcpu 0 false true) 2 1 eq_refl ltac:(lia) ltac:(lia))) as (c' & H1 & H2 & _).
  exists c'. split; [exact H1|exact H2].
Defined.

(** CPU 0 takes the lock while CPU 1 spins. *)
Module SpinExample.
Definition zeroes : mem := fun _ => 0.
Definition contended : machine :=
  mkm (mklk true (Some 0%nat) (replicate 10 0)) [(mkcpu 1 true false, Critical); (mkcpu 1 false false, Spin)].
Lemma spin_run : rtc (mstep zeroes 0) (boot_machine [true; false]) contended.
Proof.
  eapply rtc_l; [eapply (mstep_cpu _ _ _ _ 0); reflexivity|].
  eapply rtc_l; [eapply (mstep_cpu _ _ _ _ 1); reflexivity|].
  eapply rtc_l; [eapply (mstep_cpu _ _ _ _ 0); reflexivity|].
  eapply rtc_l; [eapply (mstep_cpu _ _ _ _ 1); reflexivity|].
  eapply rtc_l; [eapply (mstep_cpu _ _ _ _ 0); reflexivity|]. apply rtc_refl.
Qed.
End SpinExample.

Lemma spinlock_mutex_witness :
  holding (m_lock SpinExample.contended) 0 = true /\ holding (m_lock SpinExample.contended) 1 <> true.
Proof.
  pose proof (proj1 (proj2 (spinlock_mutex _ _ _ _ SpinExample.spin_run))) as H.
  split.
  - apply (H 0%nat _ _ eq_refl). reflexivity.
  - intros H1. apply (H 1%nat _ _ eq_refl) in H1. discriminate.
Defined.
