(* ===== verification/TxStore.v ===== *)
(** * The transactional block store promised by the log

    What [fs.c] relies on inside [begin_op]/[end_op]: [bread] delivers the
    latest contents of a block, [log_write] makes the buffer's data the latest
    contents, [brelse] gives the buffer back.  [TxStore] states it as laws;
    [log_store] proves that [log.c] over any block store keeps them. *)

From S2P Require Import Prelude Params Disk BioSpec Layout Log LogSpec LogCrash.

(** [tv_blk]: the latest contents; [tv_held]: the buffers held, with their
    data; [tv_log]: the blocks of the transaction, at most [tv_cap]. *)
Record tview := mktv {
  tv_blk : contents;
  tv_held : gmap nat (key * block);
  tv_log : gset key;
  tv_cap : nat
}.

Definition tv_read (i : nat) (k : key) (v : tview) : tview :=
  mktv (tv_blk v) (<[i := (k, tv_blk v k)]> (tv_held v)) (tv_log v) (tv_cap v).
Definition tv_set (i : nat) (k : key) (d : block) (v : tview) : tview :=
  mktv (tv_blk v) (<[i := (k, d)]> (tv_held v)) (tv_log v) (tv_cap v).
Definition tv_commit (k : key) (d : block) (v : tview) : tview :=
  mktv (upd (tv_blk v) k d) (tv_held v) ({[k]} ∪ tv_log v) (tv_cap v).
Definition tv_release (i : nat) (v : tview) : tview :=
  mktv (tv_blk v) (delete i (tv_held v)) (tv_log v) (tv_cap v).

Definition tv_unheld (k : key) (v : tview) : Prop := forall i k' d, tv_held v !! i = Some (k', d) -> k' <> k.
Definition tv_room (v : tview) : Prop := (size (tv_held v) + size (tv_log v) < nbuf)%nat.

(** [trep F s v]: the state [s] stands for [v], and the blocks of [F] may be
    read and written. *)
Class TxStore (T : Type) := {
  tbread : Z -> Z -> M T nat;
  tbrelse : nat -> M T unit;
  tbdata : nat -> M T block;
  tbset : nat -> block -> M T unit;
  tblog : nat -> M T unit;
  trep : (key -> Prop) -> T -> tview -> Prop;
  tbread_ok F s v k :
    trep F s v -> F k -> tv_unheld k v -> tv_room v ->
    wp (tbread (fst k) (snd k)) (fun i s' => tv_held v !! i = None /\ trep F s' (tv_read i k v)) s;
  tbrelse_ok F s v i k d :
    trep F s v -> tv_held v !! i = Some (k, d) -> d = tv_blk v k ->
    wp (tbrelse i) (fun _ s' => trep F s' (tv_release i v)) s;
  tbdata_ok F s v i k d :
    trep F s v -> tv_held v !! i = Some (k, d) -> wp (tbdata i) (fun d' s' => d' = d /\ s' = s) s;
  tbset_ok F s v i k d d' :
    trep F s v -> tv_held v !! i = Some (k, d) ->
    wp (tbset i d') (fun _ s' => trep F s' (tv_set i k d' v)) s;
  tblog_ok F s v i k d :
    trep F s v -> tv_held v !! i = Some (k, d) -> F k -> (size (tv_log v) < tv_cap v)%nat ->
    wp (tblog i) (fun _ s' => trep F s' (tv_commit k d v)) s
}.

(** ** [log.c] keeps the promise *)

Module LogTx.
Section impl.
Context {S : Type} `{!BlockStore S}.
Implicit Types (s : log S) (a : acache).

Definition tbread (d b : Z) : M (log S) nat := on_bc (bread d b).
Definition tbrelse (i : nat) : M (log S) unit := on_bc (brelse i).
Definition tbdata (i : nat) : M (log S) block := on_bc (bdata i).
Definition tbset (i : nat) (d : block) : M (log S) unit := on_bc (bset i d).

Definition view_hold (h : hold) : key * block := (h_key h, h_data h).

(** [v] is the view of the running transaction [bs] over the cache [a]. *)
Record tx_inv (F : key -> Prop) s (v : tview) (R : key -> Prop) a (bs : list Z) : Prop := {
  tr_txn : in_txn R s a bs;
  tr_out : 1 <= outstanding s;
  tr_cap : Z.of_nat (tv_cap v) <= LOGSIZE /\ Z.of_nat (tv_cap v) <= l_size s - 1;
  tr_F : forall k, F k -> fst k = l_dev s /\ home R s (snd k);
  tr_held : tv_held v = view_hold <$> a_held a;
  tr_uniq : forall i j h h', a_held a !! i = Some h -> a_held a !! j = Some h' -> h_key h = h_key h' -> i = j;
  tr_clean : forall i h, a_held a !! i = Some h -> h_dirty h = false -> tv_blk v (h_key h) = a_disk a (h_key h);
  tr_free : forall k, unheld k a -> tv_blk v k = a_current k a;
  tr_log : tv_log v = list_to_set (map (pair (l_dev s)) bs);
  tr_pend : forall i h, a_held a !! i = Some h -> a_pend a !! h_key h = None
}.
Definition tx_rep (F : key -> Prop) s (v : tview) : Prop := exists R a bs, tx_inv F s v R a bs.

Lemma held_view F s v R a bs i k d :
  tx_inv F s v R a bs -> tv_held v !! i = Some (k, d) ->
  exists h, a_held a !! i = Some h /\ h_key h = k /\ h_data h = d.
Proof.
  intros Hi Hh. rewrite (tr_held _ _ _ _ _ _ Hi), lookup_fmap in Hh.
  destruct (a_held a !! i) as [h|]; [|done]. injection Hh as <- <-. eauto.
Qed.

Lemma in_txn_size R s a bs : in_txn R s a bs -> (size (a_pend a) <= length bs)%nat.
Proof.
  intros Ht. rewrite <-size_dom.
  rewrite <-(length_map (pair (l_dev s))).
  rewrite <-(size_list_to_set (C := gset key)) by apply NoDup_pair, (it_nodup _ _ _ _ Ht).
  apply subseteq_size. intros k [v Hv]%elem_of_dom. destruct (it_pend _ _ _ _ Ht k v Hv) as (b & -> & Hb).
  apply elem_of_list_to_set, list_elem_of_fmap. eauto.
Qed.
Lemma tx_log_size F s v R a bs : tx_inv F s v R a bs -> size (tv_log v) = length bs.
Proof.
  intros Hi. rewrite (tr_log _ _ _ _ _ _ Hi), size_list_to_set, length_map; [done|].
  apply NoDup_pair, (it_nodup _ _ _ _ (tr_txn _ _ _ _ _ _ Hi)).
Qed.

(** [in_txn] does not change when only the cache does. *)
Lemma in_txn_bc R s a bs b a' :
  in_txn R s a bs -> rep R b a' ->
  (forall k v, a_pend a' !! k = Some v -> exists b, k = (l_dev s, b) /\ b ∈ bs) ->
  (forall i h, a_held a' !! i = Some h -> h_dirty h = true -> exists b, h_key h = (l_dev s, b) /\ b ∈ bs) ->
  (forall b, b ∈ bs -> is_Some (a_pend a' !! (l_dev s, b)) \/
    exists i h, a_held a' !! i = Some h /\ h_dirty h = true /\ h_key h = (l_dev s, b)) ->
  in_txn R (set_bc b s) a' bs.
Proof.
  intros [Hrep Hlock Hg Hl Hnd Hp Hd Hc] Hr Hp' Hd' Hc'. split; try done; [|by apply logged_bc].
  destruct Hg as [H1 H2 H3]. split; [done..|]. intros i Hi.
  destruct (a_pend a' !! _) as [v|] eqn:E; [|done]. exfalso.
  destruct (Hp' _ _ E) as (b' & [= Hb] & Hin).
  pose proof (lo_home _ _ _ Hl) as Hh. rewrite Forall_forall in Hh. destruct (Hh _ Hin) as (_ & _ & Hn).
  cbn in Hb, Hi. lia.
Qed.

Lemma tbread_law F s v k :
  tx_rep F s v -> F k -> tv_unheld k v -> tv_room v ->
  wp (tbread (fst k) (snd k)) (fun i s' => tv_held v !! i = None /\ tx_rep F s' (tv_read i k v)) s.
Proof.
  intros (R & a & bs & Hi) HF Hu Hroom. pose proof Hi as [Ht Ho Hcap HFs Hh Huq Hcl Hfr Hlog Hpd].
  destruct (HFs k HF) as (Hdev & Hb & HR & Hn).
  assert (Hku : unheld k a).
  { intros i h Hih. apply (Hu i _ (h_data h)). by rewrite Hh, lookup_fmap, Hih. }
  unfold tbread. apply wp_on_bc.
  eapply wp_mono; [apply (bread_ok R _ a k); [apply Ht|by destruct k; cbn in *; subst|done|]|].
  { right. unfold tv_room in Hroom. unfold room. rewrite Hh, map_size_fmap in Hroom.
    pose proof (in_txn_size _ _ _ _ Ht). pose proof (tx_log_size _ _ _ _ _ _ Hi). lia. }
  intros i b' (Hi0 & Hr). split; [by rewrite Hh, lookup_fmap, Hi0|].
  exists R, (a_read i k a), bs.
  assert (Hcase : forall j h, a_held (a_read i k a) !! j = Some h ->
    (j = i /\ h = mkhold k (bool_decide (is_Some (a_pend a !! k))) (a_current k a)) \/
    (j <> i /\ a_held a !! j = Some h /\ h_key h <> k)).
  { intros j h Hj. cbn in Hj. apply lookup_insert_Some in Hj as [[<- <-]|[Hne Hj]]; [by left|right].
    split_and!; [done..|]. by apply (Hku j). }
  split; try done.
  - apply (in_txn_bc R s a bs b'); [done|done| | |].
    + intros k' w Hw. cbn in Hw. apply lookup_delete_Some in Hw as [_ Hw]. by apply (it_pend _ _ _ _ Ht k' w).
    + intros j h Hj Hd. apply Hcase in Hj as [(-> & ->)|(_ & Hj & _)]; [|by apply (it_dirty _ _ _ _ Ht j h)].
      cbn in *. apply bool_decide_eq_true in Hd as [w Hw]. by apply (it_pend _ _ _ _ Ht k w).
    + intros b Hbs. destruct (it_cover _ _ _ _ Ht b Hbs) as [Hp|(j & h & Hj & Hd & Hk)].
      * destruct (decide ((l_dev s, b) = k)) as [E|Hne].
        -- right. exists i. eexists. cbn. rewrite lookup_insert_eq. split; [done|]. cbn.
           split; [|done]. apply bool_decide_eq_true. by rewrite <-E.
        -- left. cbn. by rewrite lookup_delete_ne.
      * right. exists j, h. cbn. rewrite lookup_insert_ne; [done|]. intros ->. congruence.
  - cbn. rewrite fmap_insert, Hh. f_equal. unfold view_hold. cbn. by rewrite Hfr.
  - intros j1 j2 h1 h2 H1 H2 Hk. apply Hcase in H1 as [(-> & ->)|(? & H1 & ?)], H2 as [(-> & ->)|(? & H2 & ?)];
      cbn in *; try congruence. by eapply Huq.
  - intros j h Hj Hd. apply Hcase in Hj as [(-> & ->)|(_ & Hj & _)]; [|by apply (Hcl j)].
    cbn in *. rewrite Hfr by done. unfold a_current.
    destruct (a_pend a !! k) as [w|] eqn:E; [|done]. by rewrite bool_decide_eq_true_2 in Hd by eauto.
  - intros k' Hk'. assert (k' <> k) as Hne.
    { intros ->. apply (Hk' i (mkhold k (bool_decide (is_Some (a_pend a !! k))) (a_current k a))); [|done].
      cbn. by rewrite lookup_insert_eq. }
    cbn. rewrite Hfr.
    + unfold a_current. cbn. by rewrite lookup_delete_ne.
    + intros j h Hj. apply (Hk' j h). cbn. rewrite lookup_insert_ne; [done|]. intros ->. congruence.
  - intros j h Hj. cbn. apply Hcase in Hj as [(-> & ->)|(_ & Hj & Hne)]; [apply lookup_delete_eq|].
    rewrite lookup_delete_ne by done. by apply (Hpd j).
Qed.

Lemma tbdata_law F s v i k d :
  tx_rep F s v -> tv_held v !! i = Some (k, d) -> wp (tbdata i) (fun d' s' => d' = d /\ s' = s) s.
Proof.
  intros (R & a & bs & Hi) Hv. destruct (held_view _ _ _ _ _ _ _ _ _ Hi Hv) as (h & Hh & _ & Hd).
  unfold tbdata. apply wp_on_bc. eapply wp_mono; [eapply bdata_ok; [apply (tr_txn _ _ _ _ _ _ Hi)|done]|].
  intros d' b [-> ->]. split; [done|]. by destruct s.
Qed.

(** Changing held buffer [i], its key kept. *)
Lemma tx_inv_held F s v R a bs b i h h' blk' :
  tx_inv F s v R a bs -> a_held a !! i = Some h -> h_key h' = h_key h ->
  rep R b (mkac (<[i := h']> (a_held a)) (a_pend a) (a_disk a) (a_writes a)) ->
  (h_dirty h' = true -> h_dirty h = true) -> (h_dirty h = true -> h_dirty h' = true) ->
  (forall k, k <> h_key h -> blk' k = tv_blk v k) ->
  (h_dirty h' = false -> blk' (h_key h) = a_disk a (h_key h)) ->
  tx_inv F (set_bc b s) (mktv blk' (<[i := view_hold h']> (tv_held v)) (tv_log v) (tv_cap v)) R
    (mkac (<[i := h']> (a_held a)) (a_pend a) (a_disk a) (a_writes a)) bs.
Proof.
  intros [Ht Ho Hcap HFs Hh Huq Hcl Hfr Hlog Hpd] Hi Hk Hrep Hd1 Hd2 Hb1 Hb2.
  assert (Hcase : forall j g, <[i := h']> (a_held a) !! j = Some g ->
    exists g0, a_held a !! j = Some g0 /\ h_key g = h_key g0 /\ ((j = i /\ g = h') \/ (j <> i /\ g = g0))).
  { intros j g Hj. apply lookup_insert_Some in Hj as [[<- <-]|[Hne Hj]]; [exists h|exists g]; auto. }
  split; try done; cbn.
  - apply (in_txn_bc R s a bs b); [done|done|apply (it_pend _ _ _ _ Ht)| |].
    + intros j g Hj Hd. cbn in Hj. destruct (Hcase j g Hj) as (g0 & Hg0 & -> & [(-> & ->)|(_ & ->)]);
        [|by apply (it_dirty _ _ _ _ Ht j)].
      apply (it_dirty _ _ _ _ Ht i); [done|]. assert (g0 = h) as -> by congruence. auto.
    + intros b0 Hb0. destruct (it_cover _ _ _ _ Ht b0 Hb0) as [|(j & g & Hj & Hd & Hg)]; [by left|right].
      destruct (decide (j = i)) as [->|Hne].
      * exists i, h'. cbn. rewrite lookup_insert_eq. assert (g = h) as -> by congruence. rewrite Hk. auto.
      * exists j, g. cbn. by rewrite lookup_insert_ne.
  - by rewrite fmap_insert, Hh.
  - intros j1 j2 h1 h2 H1 H2 Heq. destruct (Hcase _ _ H1) as (g1 & ? & Hk1 & _), (Hcase _ _ H2) as (g2 & ? & Hk2 & _).
    apply (Huq j1 j2 g1 g2); congruence.
  - intros j g Hj Hd. destruct (Hcase j g Hj) as (g0 & Hg0 & Hk0 & [(-> & ->)|(Hne & ->)]).
    + rewrite Hk. by apply Hb2.
    + rewrite Hb1; [by apply (Hcl j)|]. intros Heq. apply Hne. by apply (Huq j i g0 h).
  - intros k Hk'. rewrite Hb1.
    + apply Hfr. intros j g Hj. destruct (decide (j = i)) as [->|Hne].
      * assert (g = h) as -> by congruence. rewrite <-Hk. apply (Hk' i). cbn. by rewrite lookup_insert_eq.
      * apply (Hk' j). cbn. by rewrite lookup_insert_ne.
    + intros ->. apply (Hk' i h'); [|done]. cbn. by rewrite lookup_insert_eq.
  - intros j g Hj. destruct (Hcase j g Hj) as (g0 & Hg0 & -> & _). by apply (Hpd j).
Qed.

Lemma tbset_law F s v i k d d' :
  tx_rep F s v -> tv_held v !! i = Some (k, d) ->
  wp (tbset i d') (fun _ s' => tx_rep F s' (tv_set i k d' v)) s.
Proof.
  intros (R & a & bs & Hi) Hv. destruct (held_view _ _ _ _ _ _ _ _ _ Hi Hv) as (h & Hh & <- & Hd).
  unfold tbset. apply wp_on_bc. eapply wp_mono; [eapply bset_ok; [apply (tr_txn _ _ _ _ _ _ Hi)|done]|].
  intros [] b Hr. exists R. eexists. exists bs.
  apply (tx_inv_held F s v R a bs b i h (mkhold (h_key h) (h_dirty h) d') (tv_blk v) Hi Hh); try done.
  intros Hc. by apply (tr_clean _ _ _ _ _ _ Hi i h).
Qed.

Lemma record_block_set dev b bs :
  list_to_set (map (pair dev) (record_block b bs)) =@{gset key} {[(dev, b)]} ∪ list_to_set (map (pair dev) bs).
Proof.
  apply set_eq. intros k. rewrite elem_of_union, elem_of_singleton, !elem_of_list_to_set, !list_elem_of_fmap.
  setoid_rewrite record_block_in. naive_solver.
Qed.

Lemma tblog_law F s v i k d :
  tx_rep F s v -> tv_held v !! i = Some (k, d) -> F k -> (size (tv_log v) < tv_cap v)%nat ->
  wp (log_write i) (fun _ s' => tx_rep F s' (tv_commit k d v)) s.
Proof.
  intros (R & a & bs & Hi) Hv HF Hsz. pose proof Hi as [Ht Ho Hcap HFs Hh Huq Hcl Hfr Hlog Hpd].
  destruct (held_view _ _ _ _ _ _ _ _ _ Hi Hv) as (h & Hih & Hk & Hd).
  destruct (HFs k HF) as (Hdev & Hhome). rewrite (tx_log_size _ _ _ _ _ _ Hi) in Hsz.
  eapply wp_mono; [apply (log_write_wp R s a bs i h (snd k)); try done; try lia|].
  { rewrite Hk. destruct k; cbn in *. by subst. }
  intros [] s' (bc' & bl & -> & Ht').
  exists R, (a_mark i h a), (record_block (snd k) bs).
  assert (Hcase : forall j g, a_held (a_mark i h a) !! j = Some g ->
    exists g0, a_held a !! j = Some g0 /\ h_key g = h_key g0 /\ h_data g = h_data g0 /\
      ((j = i /\ h_dirty g = true) \/ (j <> i /\ g = g0))).
  { intros j g Hj. cbn in Hj. apply lookup_insert_Some in Hj as [[<- <-]|[Hne Hj]]; [exists h|exists g]; cbn; auto 10. }
  split; try done; cbn.
  - rewrite fmap_insert, Hh. symmetry. apply insert_id. by rewrite lookup_fmap, Hih.
  - intros j1 j2 h1 h2 H1 H2 Heq. destruct (Hcase _ _ H1) as (g1 & ? & Hk1 & _), (Hcase _ _ H2) as (g2 & ? & Hk2 & _).
    apply (Huq j1 j2 g1 g2); congruence.
  - intros j g Hj Hgd. destruct (Hcase j g Hj) as (g0 & Hg0 & Hk0 & _ & [(-> & ?)|(Hne & ->)]); [congruence|].
    rewrite upd_ne; [by apply (Hcl j)|]. intros Heq. apply Hne, (Huq j i g0 h); congruence.
  - intros k' Hk'. assert (k' <> k).
    { intros ->. apply (Hk' i (mkhold (h_key h) true (h_data h))); [cbn; by rewrite lookup_insert_eq|done]. }
    rewrite upd_ne by done. apply Hfr. intros j g Hj. destruct (decide (j = i)) as [->|Hne]; [congruence|].
    apply (Hk' j). cbn. by rewrite lookup_insert_ne.
  - rewrite record_block_set, Hlog. destruct k as [k1 k2]. cbn in *. by subst.
  - intros j g Hj. destruct (Hcase j g Hj) as (g0 & Hg0 & -> & _). by apply (Hpd j).
Qed.

Lemma tbrelse_law F s v i k d :
  tx_rep F s v -> tv_held v !! i = Some (k, d) -> d = tv_blk v k ->
  wp (tbrelse i) (fun _ s' => tx_rep F s' (tv_release i v)) s.
Proof.
  intros (R & a & bs & Hi) Hv Hdk. pose proof Hi as [Ht Ho Hcap HFs Hh Huq Hcl Hfr Hlog Hpd].
  destruct (held_view _ _ _ _ _ _ _ _ _ Hi Hv) as (h & Hih & <- & <-).
  unfold tbrelse. apply wp_on_bc. eapply wp_mono; [eapply brelse_ok; [apply Ht|done|]|].
  { destruct (h_dirty h) eqn:E; [by left|right]. rewrite Hdk. by apply (Hcl i). }
  intros [] b Hr. exists R, (a_release i h a), bs.
  assert (Hcase : forall j g, delete i (a_held a) !! j = Some g -> j <> i /\ a_held a !! j = Some g /\ h_key g <> h_key h).
  { intros j g [Hne Hj]%lookup_delete_Some. split_and!; [done..|]. intros Heq. apply Hne. symmetry. by apply (Huq j i g h). }
  assert (Hpend : forall k w, a_pend (a_release i h a) !! k = Some w ->
    (k = h_key h /\ h_dirty h = true) \/ a_pend a !! k = Some w).
  { intros k w. cbn. destruct (h_dirty h); [|auto]. intros [[<- _]|[_ ?]]%lookup_insert_Some; auto. }
  assert (Hother : forall k, k <> h_key h -> a_pend (a_release i h a) !! k = a_pend a !! k).
  { intros k Hk. cbn. destruct (h_dirty h); [by rewrite lookup_insert_ne|done]. }
  split; try done; cbn [tv_release tv_blk tv_held tv_log tv_cap].
  - apply (in_txn_bc R s a bs b); [done|done| | |].
    + intros k w Hw. apply Hpend in Hw as [[-> Hd]|Hw]; [by apply (it_dirty _ _ _ _ Ht i)|by apply (it_pend _ _ _ _ Ht k w)].
    + intros j g Hj Hg. cbn in Hj. destruct (Hcase j g Hj) as (_ & Hj' & _). by apply (it_dirty _ _ _ _ Ht j).
    + intros b0 Hb0. destruct (it_cover _ _ _ _ Ht b0 Hb0) as [Hp|(j & g & Hj & Hg & Hk)].
      * left. destruct (decide ((l_dev s, b0) = h_key h)) as [E|]; [|by rewrite Hother].
        rewrite E in Hp. rewrite (Hpd i h Hih) in Hp. by destruct Hp.
      * destruct (decide (j = i)) as [->|Hne]; [|right; exists j, g; cbn; by rewrite lookup_delete_ne].
        assert (g = h) as -> by congruence. left. cbn. rewrite Hg, <-Hk, lookup_insert_eq. eauto.
  - cbn [a_release a_held]. by rewrite fmap_delete, Hh.
  - intros j1 j2 h1 h2 H1 H2. cbn in H1, H2. apply Hcase in H1 as (_ & H1 & _), H2 as (_ & H2 & _). by apply (Huq j1 j2 h1 h2).
  - intros j g Hj Hg. cbn in Hj. apply Hcase in Hj as (_ & Hj & _). by apply (Hcl j).
  - intros k Hk. destruct (decide (k = h_key h)) as [->|Hne].
    + rewrite <-Hdk. unfold a_current. cbn. destruct (h_dirty h) eqn:E; [by rewrite lookup_insert_eq|].
      rewrite (Hpd i h Hih). cbn. rewrite Hdk. by apply (Hcl i).
    + rewrite Hfr; [unfold a_current; by rewrite Hother|].
      intros j g Hj. destruct (decide (j = i)) as [->|Hji]; [congruence|].
      apply (Hk j). cbn. by rewrite lookup_delete_ne.
  - intros j g Hj. cbn in Hj. apply Hcase in Hj as (_ & Hj & Hne). rewrite Hother by done. by apply (Hpd j).
Qed.

#[export] Instance log_store : TxStore (log S) := {
  TxStore.tbread := tbread; TxStore.tbrelse := tbrelse; TxStore.tbdata := tbdata;
  TxStore.tbset := tbset; tblog := log_write; trep := tx_rep;
  tbread_ok := tbread_law; tbrelse_ok := tbrelse_law; tbdata_ok := tbdata_law;
  tbset_ok := tbset_law; tblog_ok := tblog_law
}.

End impl.
End LogTx.
#[export] Existing Instance LogTx.log_store.

(** C5. Inside a transaction, [log.c] over the buffer cache refines the
    abstract store that [fs.c] is written against: a read returns the latest
    contents logged or on disk, changes of a held buffer become the latest
    contents at [log_write] and not before, and giving a buffer back changes no
    contents; each call returns. *)
Theorem log_tx_refines {S} `{!BlockStore S} F (s : log S) v :
  trep F s v ->
  (forall k, F k -> tv_unheld k v -> tv_room v ->
    wp (LogTx.tbread (fst k) (snd k)) (fun i s' => tv_held v !! i = None /\ trep F s' (tv_read i k v)) s) /\
  (forall i k d, tv_held v !! i = Some (k, d) ->
    wp (LogTx.tbdata i) (fun d' s' => d' = d /\ s' = s) s /\
    (forall d', wp (LogTx.tbset i d') (fun _ s' => trep F s' (tv_set i k d' v)) s) /\
    (d = tv_blk v k -> wp (LogTx.tbrelse i) (fun _ s' => trep F s' (tv_release i v)) s) /\
    (F k -> (size (tv_log v) < tv_cap v)%nat -> wp (log_write i) (fun _ s' => trep F s' (tv_commit k d v)) s)).
Proof.
  intros Hs. split; [intros; by apply LogTx.tbread_law|]. intros i k d Hi. split_and!; intros.
  - by apply (LogTx.tbdata_law F s v i k).
  - by apply (LogTx.tbset_law F s v i k d).
  - by apply (LogTx.tbrelse_law F s v i k d).
  - by apply (LogTx.tblog_law F s v i k d).
Qed.

(** The running transaction of [Demo] on the layout that mkfs makes: the blocks
    from 32 on, inodes, bitmap and data, are the file system's.  The first of
    them is logged, and read back. *)
Lemma demo_trep :
  trep (fun k => fst k = 1 /\ 32 <= snd k < FSSIZE) Demo.running
    (mktv (fun k => a_current k Demo.cache) ∅ {[(1, 32)]} 29).
Proof.
  exists Demo.all, Demo.cache, [32]. split; try done.
  - apply Demo.running_in_txn.
  - intros k (Hk & Hb). split; [done|]. change FSSIZE with 1000 in Hb. split; [lia|]. split; [done|]. cbn. lia.
Qed.
Lemma log_tx_refines_witness :
  wp (LogTx.tbread 1 32) (fun i s' => trep (fun k => fst k = 1 /\ 32 <= snd k < FSSIZE) s'
    (tv_read i (1, 32) (mktv (fun k => a_current k Demo.cache) ∅ {[(1, 32)]} 29))) Demo.running.
Proof.
  eapply wp_mono; [apply (proj1 (log_tx_refines _ _ _ demo_trep) (1, 32)); [done| |vm_compute; lia]|].
  - by intros ? ? ? ?.
  - by intros i s' [_ H].
Defined.

(** ** A reference store: the view itself *)

Module TxIdeal.

Definition held_keys (v : tview) : list key := map (fun ih => fst (snd ih)) (map_to_list (tv_held v)).
Definition tbread (d b : Z) : M tview nat := fun v =>
  if decide ((d, b) ∈ held_keys v) then Sleep 0 v
  else let i := fresh (dom (tv_held v)) in Ok i (tv_read i (d, b) v).
Definition on_held {A} (f : key -> block -> tview -> A * tview) (i : nat) : M tview A := fun v =>
  match tv_held v !! i with
  | Some (k, d) => let '(r, v') := f k d v in Ok r v'
  | None => Panic "not held"
  end.
Definition tbrelse (i : nat) : M tview unit := on_held (fun _ _ v => (tt, tv_release i v)) i.
Definition tbdata (i : nat) : M tview block := on_held (fun _ d v => (d, v)) i.
Definition tbset (i : nat) (d' : block) : M tview unit := on_held (fun k _ v => (tt, tv_set i k d' v)) i.
Definition tblog (i : nat) : M tview unit := on_held (fun k d v => (tt, tv_commit k d v)) i.
Definition tv_rep (F : key -> Prop) (s v : tview) : Prop := s = v.

Lemma view_read_law F s v k :
  tv_rep F s v -> F k -> tv_unheld k v -> tv_room v ->
  wp (tbread (fst k) (snd k)) (fun i s' => tv_held v !! i = None /\ tv_rep F s' (tv_read i k v)) s.
Proof.
  intros -> _ Hu _. destruct k as [d b]. unfold wp, tbread. cbn [fst snd]. rewrite decide_False.
  - split; [|done]. apply not_elem_of_dom, is_fresh.
  - intros ([i [k' d']] & E & Hin)%list_elem_of_fmap. apply elem_of_map_to_list in Hin. cbn in E.
    by apply (Hu i k' d').
Qed.

Lemma view_held_law {A} (f : key -> block -> tview -> A * tview) i v k d :
  tv_held v !! i = Some (k, d) -> wp (on_held f i) (fun r s' => (r, s') = f k d v) v.
Proof. intros Hi. unfold wp, on_held. rewrite Hi. by destruct (f k d v). Qed.

Ltac law := unfold tv_rep; intros; subst; eapply wp_mono; [by apply view_held_law|]; by intros ? ? [= -> ->].

#[export] Instance ideal_tx : TxStore tview.
Proof.
  refine {| TxStore.tbread := tbread; TxStore.tbrelse := tbrelse; TxStore.tbdata := tbdata;
    TxStore.tbset := tbset; TxStore.tblog := tblog; trep := tv_rep; tbread_ok := view_read_law |}; law.
Defined.

End TxIdeal.
