(* ===== verification/Fs.v ===== *)
(** * fs.c: blocks, inodes, directories, path names

    The file system over any transactional block store ([TxStore]).  An inode
    pointer is the index of its entry in [icache.inode]; a NULL result is
    [None].  C strings are lists of bytes, read as 0 past their end.  The
    theorems are in [FsBlocks], [FsFile], [FsInode] and [FsRw]. *)

From S2P Require Import Prelude Params Disk Layout TxStore.

(** ** Structures *)

(** [struct inode] (file.h). *)
Record inode := mkinode {
  i_dev : Z;
  i_inum : Z;
  i_ref : Z;
  i_flags : Z;
  i_type : Z;
  i_major : Z;
  i_minor : Z;
  i_nlink : Z;
  i_size : Z;
  i_addrs : list Z
}.
#[export] Instance inode_inhabited : Inhabited inode := populate (mkinode 0 0 0 0 0 0 0 0 0 (replicate 13 0)).

Definition set_ref v ip := mkinode (i_dev ip) (i_inum ip) v (i_flags ip) (i_type ip) (i_major ip) (i_minor ip)
  (i_nlink ip) (i_size ip) (i_addrs ip).
Definition set_iflags v ip := mkinode (i_dev ip) (i_inum ip) (i_ref ip) v (i_type ip) (i_major ip) (i_minor ip)
  (i_nlink ip) (i_size ip) (i_addrs ip).
Definition set_type v ip := mkinode (i_dev ip) (i_inum ip) (i_ref ip) (i_flags ip) v (i_major ip) (i_minor ip)
  (i_nlink ip) (i_size ip) (i_addrs ip).
Definition set_size v ip := mkinode (i_dev ip) (i_inum ip) (i_ref ip) (i_flags ip) (i_type ip) (i_major ip) (i_minor ip)
  (i_nlink ip) v (i_addrs ip).
Definition set_addr (i : nat) v ip := mkinode (i_dev ip) (i_inum ip) (i_ref ip) (i_flags ip) (i_type ip) (i_major ip)
  (i_minor ip) (i_nlink ip) (i_size ip) (<[i := v]> (i_addrs ip)).

(** [struct dinode] (fs.h) in its 64 bytes at offset [off] of an inode block. *)
Definition sizeof_dinode : Z := 64.
Definition IPB : Z := BSIZE / sizeof_dinode.
Definition IBLOCK (i : Z) (sb : superblock) : Z := i / IPB + sb_inodestart sb.
Definition BBLOCK (b : Z) (sb : superblock) : Z := b / BPB + sb_bmapstart sb.
Definition dinode_off (inum : Z) : nat := Z.to_nat (inum mod IPB * sizeof_dinode).
Definition addr_off (off i : nat) : nat := (off + 12 + 4 * i)%nat.

(** [ip->type = dip->type; ...; memmove(ip->addrs, dip->addrs, ...)] *)
Definition load_dinode (off : nat) (d : block) (ip : inode) : inode :=
  mkinode (i_dev ip) (i_inum ip) (i_ref ip) (i_flags ip)
    (i16 (get16 off d)) (i16 (get16 (off + 2) d)) (i16 (get16 (off + 4) d)) (i16 (get16 (off + 6) d))
    (get32 (off + 8) d) (map (fun i => get32 (addr_off off i) d) (seq 0 13)).
(** [dip->type = ip->type; ...; memmove(dip->addrs, ip->addrs, ...)] *)
Definition store_addrs (off : nat) (l : list Z) (d : block) : block :=
  foldl (fun d ia => put32 (addr_off off (fst ia)) (snd ia) d) d (imap pair l).
Definition store_dinode (off : nat) (ip : inode) (d : block) : block :=
  let d := put16 off (i_type ip) d in
  let d := put16 (off + 2) (i_major ip) d in
  let d := put16 (off + 4) (i_minor ip) d in
  let d := put16 (off + 6) (i_nlink ip) d in
  let d := put32 (off + 8) (i_size ip) d in
  store_addrs off (i_addrs ip) d.

(** [struct stat] (stat.h). *)
Record stat := mkstat { st_type : Z; st_dev : Z; st_ino : Z; st_nlink : Z; st_size : Z }.

(** [struct dirent] (fs.h): 2 bytes of inode number, 14 of name. *)
Definition sizeof_dirent : Z := 16.
Record dirent := mkde { de_inum : Z; de_name : list Z }.
Definition decode_dirent (l : list Z) : dirent := mkde (get16 0 l) (take 14 (drop 2 l)).
Definition encode_dirent (de : dirent) : list Z := le_bytes 2 (de_inum de) ++ de_name de.

(** [strncmp(s, t, DIRSIZ)]. *)
Fixpoint strncmp (n : nat) (p q : list Z) : Z :=
  match n with
  | O => 0
  | S n' =>
      let a := hd 0 p in
      let b := hd 0 q in
      if negb (a =? 0) && (a =? b) then strncmp n' (tl p) (tl q) else a - b
  end.
Definition namecmp (s t : list Z) : Z := strncmp (Z.to_nat DIRSIZ) s t.

(** The string in a buffer: the bytes before the first NUL. *)
Fixpoint cut (l : list Z) : list Z :=
  match l with
  | [] => []
  | c :: l' => if c =? 0 then [] else c :: cut l'
  end.
(** [strncpy(de.name, name, DIRSIZ)] into a 14-byte field. *)
Definition name_field (name : list Z) : list Z :=
  let s := take (Z.to_nat DIRSIZ) (cut name) in s ++ replicate (Z.to_nat DIRSIZ - length s) 0.

Definition SLASH : Z := 47.
(** [while ( *path == '/') path++;] *)
Fixpoint skip_slashes (path : list Z) : list Z :=
  match path with
  | c :: path' => if c =? SLASH then skip_slashes path' else path
  | [] => []
  end.
(** [while ( *path != '/' && *path != 0) path++;]: the element and the rest. *)
Fixpoint take_elem (path : list Z) : list Z * list Z :=
  match path with
  | c :: path' =>
      if negb (c =? SLASH) && negb (c =? 0) then let '(e, r) := take_elem path' in (c :: e, r)
      else ([], path)
  | [] => ([], [])
  end.
(** [skipelem]: the rest of the path and the string left in [name]. *)
Definition skipelem (path : list Z) : option (list Z * list Z) :=
  let path := skip_slashes path in
  if hd 0 path =? 0 then None
  else
    let '(s, path) := take_elem path in
    let name := take (Z.to_nat DIRSIZ) s in
    Some (skip_slashes path, name).

Section fs.
Context {T : Type} `{!TxStore T}.

(** [sb], [icache] and the store below; [f_woken] lists the inodes passed to
    [wakeup]. *)
Record fs := mkfs {
  f_sb : superblock;
  ic_lock : bool;
  inodes : list inode;
  f_woken : list nat;
  f_tx : T
}.
Definition set_sb v s := mkfs v (ic_lock s) (inodes s) (f_woken s) (f_tx s).
Definition set_ic_lock v s := mkfs (f_sb s) v (inodes s) (f_woken s) (f_tx s).
Definition set_inodes v s := mkfs (f_sb s) (ic_lock s) v (f_woken s) (f_tx s).
Definition set_tx v s := mkfs (f_sb s) (ic_lock s) (inodes s) (f_woken s) v.

Definition on_tx {A} (m : M T A) : M fs A := zoom f_tx set_tx m.
Definition bread (dev b : Z) : M fs nat := on_tx (tbread dev b).
Definition brelse (bp : nat) : M fs unit := on_tx (tbrelse bp).
Definition bdata (bp : nat) : M fs block := on_tx (tbdata bp).
Definition bset (bp : nat) (d : block) : M fs unit := on_tx (tbset bp d).
Definition log_write (bp : nat) : M fs unit := on_tx (tblog bp).

Definition acquire : M fs unit :=
  l <-- gets ic_lock ;; if (l : bool) then panic "acquire" else modify (set_ic_lock true).
Definition release : M fs unit :=
  l <-- gets ic_lock ;; if (l : bool) then modify (set_ic_lock false) else panic "release".
Definition wakeup (i : nat) : M fs unit :=
  modify (fun s => mkfs (f_sb s) (ic_lock s) (inodes s) (f_woken s ++ [i]) (f_tx s)).
Definition geti (i : nat) : M fs inode := gets (fun s => inodes s !!! i).
Definition updi (i : nat) (f : inode -> inode) : M fs unit :=
  modify (fun s => set_inodes (alter f i (inodes s)) s).

(** ** Blocks *)

(** [readsb(dev, &sb)]. *)
Definition readsb (dev : Z) : M fs unit :=
  bp <-- bread dev 1 ;;
  d <-- bdata bp ;;
  modify (set_sb (decode_sb d)) ;;;
  brelse bp.

Definition bzero (dev bno : Z) : M fs unit :=
  bp <-- bread dev bno ;;
  bset bp (replicate (Z.to_nat BSIZE) 0) ;;;
  log_write bp ;;;
  brelse bp.

(** The inner loop of [balloc] on the bitmap block held in [bp]. *)
Definition balloc_bit (dev b : Z) (bp : nat) (bi : Z) : M fs (Z + option Z) :=
  s <-- get ;;
  if (bi <? BPB) && (b + bi <? sb_size (f_sb s)) then
    let m := Z.shiftl 1 (bi mod 8) in
    d <-- bdata bp ;;
    if Z.land (d !!! Z.to_nat (bi / 8)) m =? 0 then
      bset bp (<[Z.to_nat (bi / 8) := Z.lor (d !!! Z.to_nat (bi / 8)) m]> d) ;;;
      log_write bp ;;;
      brelse bp ;;;
      bzero dev (b + bi) ;;;
      ret (inr (Some (b + bi)))
    else ret (inl (bi + 1))
  else ret (inr None).
Definition balloc_block (dev b : Z) : M fs (Z + option Z) :=
  s <-- get ;;
  if b <? sb_size (f_sb s) then
    bp <-- bread dev (BBLOCK b (f_sb s)) ;;
    r <-- loop (S (Z.to_nat BPB)) (balloc_bit dev b bp) 0 ;;
    match r with
    | Some x => ret (inr (Some x))
    | None => brelse bp ;;; ret (inl (b + BPB))
    end
  else ret (inr None).
Definition balloc (dev : Z) : M fs Z :=
  s <-- get ;;
  r <-- loop (S (S (Z.to_nat (sb_size (f_sb s) / BPB)))) (balloc_block dev) 0 ;;
  match r with
  | Some x => ret x
  | None => panic "balloc: out of blocks"
  end.

Definition bfree (dev b : Z) : M fs unit :=
  readsb dev ;;;
  s <-- get ;;
  bp <-- bread dev (BBLOCK b (f_sb s)) ;;
  let bi := b mod BPB in
  let m := Z.shiftl 1 (bi mod 8) in
  d <-- bdata bp ;;
  if Z.land (d !!! Z.to_nat (bi / 8)) m =? 0 then panic "freeing free block"
  else
    bset bp (<[Z.to_nat (bi / 8) := clr (d !!! Z.to_nat (bi / 8)) m]> d) ;;;
    log_write bp ;;;
    brelse bp.

(** ** Inodes *)

Definition iinit (dev : Z) : M fs unit :=
  modify (set_ic_lock false) ;;;
  readsb dev.

(** The scan of [iget]; [empty] is the first free slot seen. *)
Definition iget_step (dev inum : Z) (st : nat * option nat) : M fs ((nat * option nat) + (nat + option nat)) :=
  let '(i, empty) := st in
  s <-- get ;;
  if decide (i < length (inodes s))%nat then
    ip <-- geti i ;;
    if (0 <? i_ref ip) && (i_dev ip =? dev) && (i_inum ip =? inum) then
      updi i (set_ref (i_ref ip + 1)) ;;;
      release ;;;
      ret (inr (inl i))
    else
      ret (inl (S i, match empty with
                     | None => if i_ref ip =? 0 then Some i else None
                     | Some e => Some e
                     end))
  else ret (inr (inr empty)).
Definition iget (dev inum : Z) : M fs nat :=
  acquire ;;;
  s <-- get ;;
  r <-- loop (S (length (inodes s))) (iget_step dev inum) (O, None) ;;
  match r with
  | inl i => ret i
  | inr None => panic "iget: no inodes"
  | inr (Some i) =>
      updi i (fun ip => mkinode dev inum 1 0 (i_type ip) (i_major ip) (i_minor ip) (i_nlink ip) (i_size ip) (i_addrs ip)) ;;;
      release ;;;
      ret i
  end.

Definition idup (i : nat) : M fs nat :=
  acquire ;;;
  updi i (fun ip => set_ref (i_ref ip + 1) ip) ;;;
  release ;;;
  ret i.

Definition ialloc_step (dev type inum : Z) : M fs (Z + option nat) :=
  s <-- get ;;
  if inum <? sb_ninodes (f_sb s) then
    bp <-- bread dev (IBLOCK inum (f_sb s)) ;;
    d <-- bdata bp ;;
    let off := dinode_off inum in
    if i16 (get16 off d) =? 0 then
      bset bp (put16 off type (splice off (replicate (Z.to_nat sizeof_dinode) 0) d)) ;;;
      log_write bp ;;;
      brelse bp ;;;
      i <-- iget dev inum ;;
      ret (inr (Some i))
    else brelse bp ;;; ret (inl (inum + 1))
  else ret (inr None).
Definition ialloc (dev type : Z) : M fs nat :=
  s <-- get ;;
  r <-- loop (S (Z.to_nat (sb_ninodes (f_sb s)))) (ialloc_step dev type) 1 ;;
  match r with
  | Some i => ret i
  | None => panic "ialloc: no inodes"
  end.

Definition iupdate (i : nat) : M fs unit :=
  s <-- get ;;
  ip <-- geti i ;;
  bp <-- bread (i_dev ip) (IBLOCK (i_inum ip) (f_sb s)) ;;
  d <-- bdata bp ;;
  bset bp (store_dinode (dinode_off (i_inum ip)) ip d) ;;;
  log_write bp ;;;
  brelse bp.

(** [sleep(ip, &icache.lock)] releases the lock; the awakened process takes it
    again and re-tests [I_BUSY], that is, runs [ilock] again. *)
Definition ilock (i : nat) : M fs unit :=
  ip <-- geti i ;;
  if i_ref ip <? 1 then panic "ilock"
  else
    acquire ;;;
    ip <-- geti i ;;
    if has (i_flags ip) I_BUSY then release ;;; sleep_on (Z.of_nat i)
    else
      updi i (fun ip => set_iflags (Z.lor (i_flags ip) I_BUSY) ip) ;;;
      release ;;;
      ip <-- geti i ;;
      if negb (has (i_flags ip) I_VALID) then
        s <-- get ;;
        bp <-- bread (i_dev ip) (IBLOCK (i_inum ip) (f_sb s)) ;;
        d <-- bdata bp ;;
        updi i (load_dinode (dinode_off (i_inum ip)) d) ;;;
        brelse bp ;;;
        updi i (fun ip => set_iflags (Z.lor (i_flags ip) I_VALID) ip) ;;;
        ip <-- geti i ;;
        if i_type ip =? 0 then panic "ilock: no type" else ret tt
      else ret tt.

Definition iunlock (i : nat) : M fs unit :=
  ip <-- geti i ;;
  if negb (has (i_flags ip) I_BUSY) || (i_ref ip <? 1) then panic "iunlock"
  else
    acquire ;;;
    updi i (fun ip => set_iflags (clr (i_flags ip) I_BUSY) ip) ;;;
    wakeup i ;;;
    release.

(** ** Inode content *)

(** [ip->addrs[j]], allocated if it is zero. *)
Definition bmap_addr (i j : nat) : M fs Z :=
  ip <-- geti i ;;
  let addr := i_addrs ip !!! j in
  if addr =? 0 then
    addr <-- balloc (i_dev ip) ;;
    updi i (set_addr j addr) ;;;
    ret addr
  else ret addr.

Definition bmap (i : nat) (bn : Z) : M fs Z :=
  if bn <? NDIRECT then bmap_addr i (Z.to_nat bn)
  else
    let bn := bn - NDIRECT in
    if bn <? NINDIRECT then
      addr <-- bmap_addr i (Z.to_nat NDIRECT) ;;
      ip <-- geti i ;;
      bp <-- bread (i_dev ip) addr ;;
      a <-- bdata bp ;;
      let addr := get32 (Z.to_nat (4 * bn)) a in
      if addr =? 0 then
        addr <-- balloc (i_dev ip) ;;
        bset bp (put32 (Z.to_nat (4 * bn)) addr a) ;;;
        log_write bp ;;;
        brelse bp ;;;
        ret addr
      else
        brelse bp ;;;
        ret addr
    else panic "bmap: out of range".

Definition itrunc (i : nat) : M fs unit :=
  for_each (seq 0 (Z.to_nat NDIRECT)) (fun j =>
    ip <-- geti i ;;
    if negb (i_addrs ip !!! j =? 0) then
      bfree (i_dev ip) (i_addrs ip !!! j) ;;;
      updi i (set_addr j 0)
    else ret tt) ;;;
  ip <-- geti i ;;
  let ind := i_addrs ip !!! Z.to_nat NDIRECT in
  (if negb (ind =? 0) then
     bp <-- bread (i_dev ip) ind ;;
     for_each (seq 0 (Z.to_nat NINDIRECT)) (fun j =>
       a <-- bdata bp ;;
       if negb (get32 (4 * j) a =? 0) then bfree (i_dev ip) (get32 (4 * j) a) else ret tt) ;;;
     brelse bp ;;;
     bfree (i_dev ip) ind ;;;
     updi i (set_addr (Z.to_nat NDIRECT) 0)
   else ret tt) ;;;
  updi i (set_size 0) ;;;
  iupdate i.

Definition iput (i : nat) : M fs unit :=
  acquire ;;;
  ip <-- geti i ;;
  (if (i_ref ip =? 1) && has (i_flags ip) I_VALID && (i_nlink ip =? 0) then
     if has (i_flags ip) I_BUSY then panic "iput busy"
     else
       updi i (fun ip => set_iflags (Z.lor (i_flags ip) I_BUSY) ip) ;;;
       release ;;;
       itrunc i ;;;
       updi i (set_type 0) ;;;
       iupdate i ;;;
       acquire ;;;
       updi i (set_iflags 0) ;;;
       wakeup i
   else ret tt) ;;;
  updi i (fun ip => set_ref (i_ref ip - 1) ip) ;;;
  release.

Definition iunlockput (i : nat) : M fs unit := iunlock i ;;; iput i.

Definition stati (i : nat) : M fs stat :=
  ip <-- geti i ;;
  ret (mkstat (i_type ip) (i_dev ip) (i_inum ip) (i_nlink ip) (i_size ip)).

(** [devsw[major].read] and [.write], installed at run time by the device
    drivers. *)
Context (devsw_read : Z -> option (nat -> Z -> M fs (Z * list Z)))
        (devsw_write : Z -> option (nat -> list Z -> Z -> M fs Z)).

(** One iteration of the loop of [readi]: [tot], [off] and the bytes copied. *)
Definition readi_step (i : nat) (n : Z) (st : Z * Z * list Z) : M fs ((Z * Z * list Z) + list Z) :=
  let '(tot, off, got) := st in
  if tot <? n then
    ip <-- geti i ;;
    addr <-- bmap i (off / BSIZE) ;;
    bp <-- bread (i_dev ip) addr ;;
    let m := Z.min (n - tot) (BSIZE - off mod BSIZE) in
    d <-- bdata bp ;;
    brelse bp ;;;
    ret (inl (u32 (tot + m), u32 (off + m), got ++ take (Z.to_nat m) (drop (Z.to_nat (off mod BSIZE)) d)))
  else ret (inr got).
(** The return value and the bytes stored at [dst]. *)
Definition readi (i : nat) (off n : Z) : M fs (Z * list Z) :=
  ip <-- geti i ;;
  if i_type ip =? T_DEV then
    if (i_major ip <? 0) || (NDEV <=? i_major ip) then ret (-1, [])
    else match devsw_read (i_major ip) with
         | None => ret (-1, [])
         | Some read => read i n
         end
  else if (i_size ip <? off) || (u32 (off + n) <? off) then ret (-1, [])
  else
    let n := if i_size ip <? u32 (off + n) then i_size ip - off else n in
    got <-- loop (S (Z.to_nat n)) (readi_step i n) (0, off, []) ;;
    ret (n, got).

Definition writei_step (i : nat) (src : list Z) (n : Z) (st : Z * Z) : M fs ((Z * Z) + Z) :=
  let '(tot, off) := st in
  if tot <? n then
    ip <-- geti i ;;
    addr <-- bmap i (off / BSIZE) ;;
    bp <-- bread (i_dev ip) addr ;;
    let m := Z.min (n - tot) (BSIZE - off mod BSIZE) in
    d <-- bdata bp ;;
    bset bp (splice (Z.to_nat (off mod BSIZE)) (take (Z.to_nat m) (drop (Z.to_nat tot) src)) d) ;;;
    log_write bp ;;;
    brelse bp ;;;
    ret (inl (u32 (tot + m), u32 (off + m)))
  else ret (inr off).
Definition writei (i : nat) (src : list Z) (off n : Z) : M fs Z :=
  ip <-- geti i ;;
  if i_type ip =? T_DEV then
    if (i_major ip <? 0) || (NDEV <=? i_major ip) then ret (-1)
    else match devsw_write (i_major ip) with
         | None => ret (-1)
         | Some write => write i src n
         end
  else if (i_size ip <? off) || (u32 (off + n) <? off) then ret (-1)
  else if MAXFILE * BSIZE <? u32 (off + n) then ret (-1)
  else
    off <-- loop (S (Z.to_nat n)) (writei_step i src n) (0, off) ;;
    ip <-- geti i ;;
    (if (0 <? n) && (i_size ip <? off) then
       updi i (set_size off) ;;;
       iupdate i
     else ret tt) ;;;
    ret n.

(** ** Directories *)

(** [dirlookup]: the inode found, referenced, with the offset of its entry. *)
Definition dirlookup_step (dp : nat) (name : list Z) (off : Z) : M fs (Z + option (nat * Z)) :=
  ip <-- geti dp ;;
  if off <? i_size ip then
    r <-- readi dp off sizeof_dirent ;;
    let '(n, bytes) := r in
    if negb (n =? sizeof_dirent) then panic "dirlink read"
    else
      let de := decode_dirent bytes in
      if de_inum de =? 0 then ret (inl (u32 (off + sizeof_dirent)))
      else if namecmp name (de_name de) =? 0 then
        i <-- iget (i_dev ip) (de_inum de) ;;
        ret (inr (Some (i, off)))
      else ret (inl (u32 (off + sizeof_dirent)))
  else ret (inr None).
Definition dirlookup (dp : nat) (name : list Z) : M fs (option (nat * Z)) :=
  ip <-- geti dp ;;
  if negb (i_type ip =? T_DIR) then panic "dirlookup not DIR"
  else loop (S (Z.to_nat (i_size ip))) (dirlookup_step dp name) 0.

(** The search of [dirlink] for an empty entry: the offset where it stops. *)
Definition dirlink_step (dp : nat) (off : Z) : M fs (Z + Z) :=
  ip <-- geti dp ;;
  if off <? i_size ip then
    r <-- readi dp off sizeof_dirent ;;
    let '(n, bytes) := r in
    if negb (n =? sizeof_dirent) then panic "dirlink read"
    else if de_inum (decode_dirent bytes) =? 0 then ret (inr off)
    else ret (inl (off + sizeof_dirent))
  else ret (inr off).
Definition dirlink (dp : nat) (name : list Z) (inum : Z) : M fs Z :=
  r <-- dirlookup dp name ;;
  match r with
  | Some (ip, _) => iput ip ;;; ret (-1)
  | None =>
      ip <-- geti dp ;;
      off <-- loop (S (Z.to_nat (i_size ip))) (dirlink_step dp) 0 ;;
      n <-- writei dp (encode_dirent (mkde (u16 inum) (name_field name))) off sizeof_dirent ;;
      if negb (n =? sizeof_dirent) then panic "dirlink" else ret 0
  end.

(** ** Paths *)

(** [namex]; [cwd] is [proc->cwd].  The result of [nameiparent] carries the
    final path element. *)
Definition namex_step (nameiparent : bool) (st : nat * list Z * list Z)
    : M fs ((nat * list Z * list Z) + option (nat * list Z)) :=
  let '(i, path, name) := st in
  match skipelem path with
  | None =>
      if nameiparent then iput i ;;; ret (inr None) else ret (inr (Some (i, name)))
  | Some (rest, name) =>
      ilock i ;;;
      ip <-- geti i ;;
      if negb (i_type ip =? T_DIR) then iunlockput i ;;; ret (inr None)
      else if nameiparent && (hd 0 rest =? 0) then iunlock i ;;; ret (inr (Some (i, name)))
      else
        next <-- dirlookup i name ;;
        match next with
        | None => iunlockput i ;;; ret (inr None)
        | Some (j, _) => iunlockput i ;;; ret (inl (j, rest, name))
        end
  end.
Definition namex (cwd : nat) (path : list Z) (nameiparent : bool) : M fs (option (nat * list Z)) :=
  i <-- (if hd 0 path =? SLASH then iget ROOTDEV ROOTINO else idup cwd) ;;
  loop (S (length path)) (namex_step nameiparent) (i, path, []).

Definition namei (cwd : nat) (path : list Z) : M fs (option nat) :=
  r <-- namex cwd path false ;; ret (fst <$> r).
Definition nameiparent (cwd : nat) (path : list Z) : M fs (option (nat * list Z)) := namex cwd path true.

End fs.
Arguments fs T : clear implicits.
