(* ===== verification/FsBlocks.v ===== *)
(** * The block allocator of fs.c

    [balloc] takes the first free block of the bitmap, [bfree] gives a block
    back; both log what they change. *)

From S2P Require Import Prelude Params Disk Layout TxStore Fs.

(** ** Bits of a bitmap block *)

Definition bit (d : block) (bi : Z) : bool := Z.testbit (d !!! Z.to_nat (bi / 8)) (bi mod 8).
Definition set_bit (bi : Z) (d : block) : block :=
  <[Z.to_nat (bi / 8) := Z.lor (d !!! Z.to_nat (bi / 8)) (Z.shiftl 1 (bi mod 8))]> d.
Definition clear_bit (bi : Z) (d : block) : block :=
  <[Z.to_nat (bi / 8) := clr (d !!! Z.to_nat (bi / 8)) (Z.shiftl 1 (bi mod 8))]> d.

(** The test of the code. *)
Lemma bit_test d bi : 0 <= bi ->
  (Z.land (d !!! Z.to_nat (bi / 8)) (Z.shiftl 1 (bi mod 8)) =? 0) = negb (bit d bi).
Proof.
  intros. unfold bit. rewrite Z.shiftl_1_l, <-has_pow2 by zlia. unfold has. by rewrite negb_involutive.
Qed.

Lemma bit_update (f : Z -> Z) d bi j : 0 <= bi < 8 * Z.of_nat (length d) -> 0 <= j ->
  (forall n, 0 <= n -> Z.testbit (f (d !!! Z.to_nat (bi / 8))) n =
     if decide (n = bi mod 8) then Z.testbit (f (d !!! Z.to_nat (bi / 8))) n
     else Z.testbit (d !!! Z.to_nat (bi / 8)) n) ->
  bit (<[Z.to_nat (bi / 8) := f (d !!! Z.to_nat (bi / 8))]> d) j =
    if decide (j = bi) then Z.testbit (f (d !!! Z.to_nat (bi / 8))) (bi mod 8) else bit d j.
Proof.
  intros Hbi Hj Hf. unfold bit.
  destruct (decide (j / 8 = bi / 8)) as [E|E].
  - rewrite E, list_lookup_total_insert_eq by (apply Nat2Z.inj_lt; rewrite Z2Nat.id; zlia).
    case_decide as Hd; [by subst|]. rewrite Hf by zlia. by rewrite decide_False by zlia.
  - rewrite list_lookup_total_insert_ne by zlia. by rewrite decide_False by (intros ->; done).
Qed.

Lemma bit_set d bi j : 0 <= bi < 8 * Z.of_nat (length d) -> 0 <= j ->
  bit (set_bit bi d) j = if decide (j = bi) then true else bit d j.
Proof.
  intros Hbi Hj. unfold set_bit. rewrite (bit_update (fun x => Z.lor x (Z.shiftl 1 (bi mod 8)))); [|done..|].
  - case_decide; [|done]. rewrite Z.shiftl_1_l, lor_pow2_bit by zlia. by rewrite decide_True.
  - intros n Hn. rewrite Z.shiftl_1_l, lor_pow2_bit by zlia. by case_decide.
Qed.
Lemma bit_clear d bi j : 0 <= bi < 8 * Z.of_nat (length d) -> 0 <= j ->
  bit (clear_bit bi d) j = if decide (j = bi) then false else bit d j.
Proof.
  intros Hbi Hj. unfold clear_bit. rewrite (bit_update (fun x => clr x (Z.shiftl 1 (bi mod 8)))); [|done..|].
  - case_decide; [|done]. rewrite Z.shiftl_1_l, clr_pow2_bit by zlia. by rewrite decide_True.
  - intros n Hn. rewrite Z.shiftl_1_l, clr_pow2_bit by zlia. by case_decide.
Qed.

Section blocks.
Context {T : Type} `{!TxStore T}.
Implicit Types (s : fs T) (v : tview) (F : key -> Prop).

Lemma wp_on_tx {A} (m : M T A) Q s :
  wp m (fun r t => Q r (set_tx t s)) (f_tx s) -> wp (on_tx m) Q s.
Proof. apply wp_zoom. Qed.

(** ** Steps on blocks *)

Lemma wp_bread {A} (K : nat -> M (fs T) A) Q F s v dev b :
  trep F (f_tx s) v -> F (dev, b) -> tv_unheld (dev, b) v -> tv_room v ->
  (forall i t, tv_held v !! i = None -> trep F t (tv_read i (dev, b) v) -> wp (K i) Q (set_tx t s)) ->
  wp (bind (bread dev b) K) Q s.
Proof.
  intros Hr HF Hu Hroom HK. apply wp_bind, wp_on_tx. eapply wp_mono; [by apply (tbread_ok F _ v (dev, b))|].
  intros i t [Hi Ht]. by apply HK.
Qed.
Lemma wp_bdata {A} (K : block -> M (fs T) A) Q F s v i k d :
  trep F (f_tx s) v -> tv_held v !! i = Some (k, d) -> wp (K d) Q s -> wp (bind (bdata i) K) Q s.
Proof.
  intros Hr Hi HK. apply wp_bind, wp_on_tx. eapply wp_mono; [by eapply tbdata_ok|].
  intros ? ? [-> ->]. by destruct s.
Qed.
Lemma wp_brelse Q F s v i k d :
  trep F (f_tx s) v -> tv_held v !! i = Some (k, d) -> d = tv_blk v k ->
  (forall t, trep F t (tv_release i v) -> Q tt (set_tx t s)) -> wp (brelse i) Q s.
Proof.
  intros Hr Hi Hd HQ. apply wp_on_tx. eapply wp_mono; [by eapply tbrelse_ok|]. intros [] t Ht. by apply HQ.
Qed.
(** Modify, log and release a held buffer. *)
Lemma wp_update {A} (K : M (fs T) A) Q F s v i k d d' :
  trep F (f_tx s) v -> tv_held v !! i = Some (k, d) -> F k -> (size (tv_log v) < tv_cap v)%nat ->
  (forall t, trep F t (tv_release i (tv_commit k d' v)) -> wp K Q (set_tx t s)) ->
  wp (bset i d' ;;; log_write i ;;; brelse i ;;; K) Q s.
Proof.
  intros Hr Hi HF Hsz HK. apply wp_bind, wp_on_tx. eapply wp_mono; [by eapply tbset_ok|]. intros [] t1 H1.
  apply wp_bind, wp_on_tx. cbn [f_tx set_tx].
  eapply wp_mono; [eapply tblog_ok; [done|cbn; apply lookup_insert_eq|done|done]|]. intros [] t2 H2.
  apply wp_bind, (wp_brelse _ F _ (tv_commit k d' (tv_set i k d' v)) i k d'); [done| |cbn; by rewrite upd_eq|].
  - cbn. apply lookup_insert_eq.
  - intros t3 H3. apply HK.
    replace (tv_release i (tv_commit k d' v)) with (tv_release i (tv_commit k d' (tv_set i k d' v))); [done|].
    unfold tv_release, tv_commit, tv_set. cbn. f_equal. by rewrite delete_insert_eq.
Qed.

(** ... at the end of a routine. *)
Lemma wp_update_end Q F s v i k d d' :
  trep F (f_tx s) v -> tv_held v !! i = Some (k, d) -> F k -> (size (tv_log v) < tv_cap v)%nat ->
  (forall t, trep F t (tv_release i (tv_commit k d' v)) -> Q tt (set_tx t s)) ->
  wp (bset i d' ;;; log_write i ;;; brelse i) Q s.
Proof.
  intros Hr Hi HF Hsz HK.
  pose proof (wp_update (ret tt) Q F s v i k d d' Hr Hi HF Hsz (fun t Ht => wp_ret tt Q _ (HK t Ht))) as Hw.
  unfold wp, bind, ret in *. destruct (bset i d' s) as [[] s1| | |]; try done.
  destruct (log_write i s1) as [[] s2| | |]; try done. by destruct (brelse i s2) as [[] s3| | |].
Qed.

(** Reading a block and releasing it changes nothing. *)
Lemma release_read i k v : tv_held v !! i = None -> tv_release i (tv_read i k v) = v.
Proof. intros Hi. unfold tv_release, tv_read. cbn. rewrite delete_insert_id by done. by destruct v. Qed.
(** Reading, modifying, logging and releasing. *)
Lemma release_commit i k d v : tv_held v !! i = None ->
  tv_release i (tv_commit k d (tv_read i k v)) = tv_commit k d v.
Proof. intros Hi. unfold tv_release, tv_commit, tv_read. cbn. by rewrite delete_insert_id. Qed.

(** [bread] of a whole block followed by an update of it. *)
Lemma wp_rewrite {A} (K : M (fs T) A) Q F s v dev b (f : block -> block) :
  trep F (f_tx s) v -> F (dev, b) -> tv_unheld (dev, b) v -> tv_room v -> (size (tv_log v) < tv_cap v)%nat ->
  (forall t, trep F t (tv_commit (dev, b) (f (tv_blk v (dev, b))) v) -> wp K Q (set_tx t s)) ->
  wp (bp <-- bread dev b ;; d <-- bdata bp ;; bset bp (f d) ;;; log_write bp ;;; brelse bp ;;; K) Q s.
Proof.
  intros Hr HF Hu Hroom Hsz HK. apply (wp_bread _ _ F _ v); [done..|]. intros i t Hi Ht.
  apply (wp_bdata _ _ F _ (tv_read i (dev, b) v) i (dev, b) (tv_blk v (dev, b))); [done|cbn; apply lookup_insert_eq|].
  apply (wp_update _ _ F _ (tv_read i (dev, b) v) i (dev, b) (tv_blk v (dev, b)));
    [done|cbn; apply lookup_insert_eq|done|done|].
  intros t2 H2. cbn [set_tx]. rewrite release_commit in H2 by done. by apply HK.
Qed.

Lemma wp_rewrite_end Q F s v dev b (f : block -> block) :
  trep F (f_tx s) v -> F (dev, b) -> tv_unheld (dev, b) v -> tv_room v -> (size (tv_log v) < tv_cap v)%nat ->
  (forall t, trep F t (tv_commit (dev, b) (f (tv_blk v (dev, b))) v) -> Q tt (set_tx t s)) ->
  wp (bp <-- bread dev b ;; d <-- bdata bp ;; bset bp (f d) ;;; log_write bp ;;; brelse bp) Q s.
Proof.
  intros Hr HF Hu Hroom Hsz HK. apply (wp_bread _ _ F _ v); [done..|]. intros i t Hi Ht.
  apply (wp_bdata _ _ F _ (tv_read i (dev, b) v) i (dev, b) (tv_blk v (dev, b))); [done|cbn; apply lookup_insert_eq|].
  apply (wp_update_end _ F _ (tv_read i (dev, b) v) i (dev, b) (tv_blk v (dev, b)));
    [done|cbn; apply lookup_insert_eq|done|done|].
  intros t2 H2. cbn [set_tx]. rewrite release_commit in H2 by done. by apply HK.
Qed.

Lemma log_size_commit k d v : (size (tv_log (tv_commit k d v)) <= S (size (tv_log v)))%nat.
Proof.
  cbn. pose proof (size_union_alt {[k]} (tv_log v)) as Hs. rewrite size_singleton in Hs.
  pose proof (subseteq_size (tv_log v ∖ {[k]}) (tv_log v)). set_solver by lia.
Qed.
Lemma room_commit k d v : (S (size (tv_held v) + size (tv_log v)) < nbuf)%nat -> tv_room (tv_commit k d v).
Proof. intros H. unfold tv_room. pose proof (log_size_commit k d v). cbn [tv_held tv_commit] in *. lia. Qed.
Lemma room_read i k v : tv_held v !! i = None -> (S (size (tv_held v) + size (tv_log v)) < nbuf)%nat ->
  tv_room (tv_read i k v).
Proof. intros Hi H. unfold tv_room. cbn. rewrite map_size_insert_None by done. lia. Qed.

(** ** The bitmap *)

(** Block [b] is marked in use. *)
Definition used v (sb : superblock) (dev b : Z) : bool := bit (tv_blk v (dev, BBLOCK b sb)) (b mod BPB).

(** The layout the file system relies on: the blocks of the bitmap and of the
    inodes are distinct, whole, not held, and marked in use themselves; free
    blocks are not held. *)
Record alloc_ok F v (sb : superblock) (dev : Z) : Prop := {
  ao_size : 0 <= sb_size sb;
  ao_boot : used v sb dev 0 = true;
  ao_bmap : forall b, 0 <= b < sb_size sb -> F (dev, BBLOCK b sb) /\ tv_unheld (dev, BBLOCK b sb) v /\
    length (tv_blk v (dev, BBLOCK b sb)) = Z.to_nat BSIZE;
  ao_free : forall b, 0 <= b < sb_size sb -> used v sb dev b = false -> F (dev, b) /\ tv_unheld (dev, b) v;
  ao_meta : forall b b', 0 <= b < sb_size sb -> 0 <= b' < sb_size sb -> used v sb dev b = false -> b <> BBLOCK b' sb;
  ao_inode : forall i, 0 <= i < sb_ninodes sb -> F (dev, IBLOCK i sb) /\ tv_unheld (dev, IBLOCK i sb) v /\
    length (tv_blk v (dev, IBLOCK i sb)) = Z.to_nat BSIZE;
  ao_inode_free : forall b i, 0 <= b < sb_size sb -> 0 <= i < sb_ninodes sb -> used v sb dev b = false -> b <> IBLOCK i sb;
  ao_inode_bmap : forall b i, 0 <= b < sb_size sb -> 0 <= i < sb_ninodes sb -> BBLOCK b sb <> IBLOCK i sb
}.

(** The view after [balloc] returns [b]. *)
Definition tv_alloc (sb : superblock) (dev b : Z) v : tview :=
  let k := (dev, BBLOCK b sb) in
  tv_commit (dev, b) (replicate (Z.to_nat BSIZE) 0) (tv_commit k (set_bit (b mod BPB) (tv_blk v k)) v).
(** [b] is the first free block. *)
Definition first_free v (sb : superblock) (dev b : Z) : Prop :=
  0 <= b < sb_size sb /\ used v sb dev b = false /\ forall b', 0 <= b' < b -> used v sb dev b' = true.

(** The bitmap position of block [b + bi], for [b] the first of its group. *)
Lemma bmap_block b bi sb : b mod BPB = 0 -> 0 <= bi < BPB ->
  BBLOCK (b + bi) sb = BBLOCK b sb /\ (b + bi) mod BPB = bi.
Proof. unfold BBLOCK. change BPB with 4096. intros. split; zlia. Qed.

Lemma bzero_wp F s v dev b {A} (K : M (fs T) A) Q :
  trep F (f_tx s) v -> F (dev, b) -> tv_unheld (dev, b) v -> tv_room v -> (size (tv_log v) < tv_cap v)%nat ->
  (forall t, trep F t (tv_commit (dev, b) (replicate (Z.to_nat BSIZE) 0) v) -> wp K Q (set_tx t s)) ->
  wp (bzero dev b ;;; K) Q s.
Proof.
  intros Hr HF Hu Hroom Hsz HK. apply wp_bind. unfold bzero. apply (wp_bread _ _ F _ v); [done..|]. intros i t Hi Ht.
  apply wp_bind, wp_on_tx. eapply wp_mono; [eapply (tbset_ok F); [done|cbn; apply lookup_insert_eq]|]. intros [] t1 H1.
  apply wp_bind, wp_on_tx. cbn [f_tx set_tx].
  eapply wp_mono; [eapply tblog_ok; [done|cbn; apply lookup_insert_eq|done|done]|]. intros [] t2 H2.
  eapply (wp_brelse _ F _ _ i (dev, b)); [done|cbn; apply lookup_insert_eq|cbn; by rewrite upd_eq|].
  intros t3 H3. apply HK.
  match type of H3 with trep _ _ ?v' => replace v' with (tv_commit (dev, b) (replicate (Z.to_nat BSIZE) 0) v) in H3; [done|] end.
  unfold tv_release, tv_commit, tv_set, tv_read. cbn. f_equal. by rewrite insert_insert_eq, delete_insert_id.
Qed.

(** The inner loop, on the bitmap block of [b] held in [bp]. *)
Lemma balloc_bits F s v0 dev b bp t fuel bi :
  let sb := f_sb s in let k := (dev, BBLOCK b sb) in
  alloc_ok F v0 sb dev -> tv_held v0 !! bp = None -> trep F t (tv_read bp k v0) ->
  b mod BPB = 0 -> 0 <= b < sb_size sb -> 0 <= bi ->
  (2 + (size (tv_held v0) + size (tv_log v0)) < nbuf)%nat -> (S (size (tv_log v0)) < tv_cap v0)%nat ->
  (forall j, 0 <= j < b + bi -> used v0 sb dev j = true) -> bi <= BPB -> (Z.to_nat (BPB - bi) < fuel)%nat ->
  wp (loop fuel (balloc_bit dev b bp) bi) (fun r s' =>
    match r with
    | Some x => exists t', s' = set_tx t' s /\ b <= x < b + BPB /\ first_free v0 sb dev x /\
        trep F t' (tv_alloc sb dev x v0)
    | None => s' = set_tx t s /\ forall j, 0 <= j < b + BPB -> j < sb_size sb -> used v0 sb dev j = true
    end) (set_tx t s).
Proof.
  intros sb k Ha Hbp Ht Hb0 Hb Hbi Hroom Hcap. revert bi Hbi.
  induction fuel as [|fuel IH]; intros bi Hbi Hprev Hle Hfuel; [lia|].
  cbn [loop]. apply wp_bind. unfold balloc_bit. apply wp_bind, wp_get. cbn [f_sb set_tx]. fold sb.
  destruct (Z.ltb_spec bi BPB) as [Hlt|Hge]; cbn [andb];
    [destruct (Z.ltb_spec (b + bi) (sb_size sb)) as [Hs|Hs]|].
  - destruct (bmap_block b bi sb Hb0 ltac:(lia)) as [Hblk Hmod].
    destruct (ao_bmap _ _ _ _ Ha b Hb) as (HFk & Hku & Hlen).
    apply (wp_bdata _ _ F _ (tv_read bp k v0) bp k (tv_blk v0 k)); [done|apply lookup_insert_eq|].
    rewrite bit_test by lia.
    assert (Hu : used v0 sb dev (b + bi) = bit (tv_blk v0 k) bi) by (unfold used; by rewrite Hblk, Hmod).
    destruct (bit (tv_blk v0 k) bi) eqn:Eb; cbn [negb].
    + apply wp_ret. apply IH; [lia| |lia|lia]. intros j Hj.
      destruct (decide (j = b + bi)) as [->|]; [done|]. apply Hprev. lia.
    + destruct (ao_free _ _ _ _ Ha (b + bi) ltac:(lia) Hu) as [HFb Hbu].
      apply (wp_update _ _ F _ (tv_read bp k v0) bp k (tv_blk v0 k) (set_bit bi (tv_blk v0 k)));
        [done|apply lookup_insert_eq|done|cbn; lia|].
      intros t1 H1. rewrite release_commit in H1 by done.
      pose proof (log_size_commit k (set_bit bi (tv_blk v0 k)) v0) as Hls.
      apply (bzero_wp F _ (tv_commit k (set_bit bi (tv_blk v0 k)) v0)); [done|done|done|apply room_commit; lia|cbn in *; lia|].
      intros t2 H2. apply wp_ret, wp_ret. exists t2. split; [done|]. split; [lia|]. split.
      * split_and!; [lia|lia|done|]. intros b' Hb'. apply Hprev. lia.
      * unfold tv_alloc. by rewrite Hblk, Hmod.
  - apply wp_ret, wp_ret. split; [done|]. intros j Hj Hjs. apply Hprev. lia.
  - apply wp_ret, wp_ret. split; [done|]. intros j Hj Hjs. apply Hprev. lia.
Qed.

(** The outer loop. *)
Lemma balloc_blocks F s v dev fuel b :
  let sb := f_sb s in
  alloc_ok F v sb dev -> trep F (f_tx s) v -> b mod BPB = 0 -> 0 <= b ->
  (2 + (size (tv_held v) + size (tv_log v)) < nbuf)%nat -> (S (size (tv_log v)) < tv_cap v)%nat ->
  (forall j, 0 <= j < b -> j < sb_size sb -> used v sb dev j = true) ->
  (Z.to_nat ((sb_size sb + BPB - b) / BPB) < fuel)%nat -> b < sb_size sb + BPB ->
  wp (loop fuel (balloc_block dev) b) (fun r s' =>
    match r with
    | Some x => exists t', s' = set_tx t' s /\ first_free v sb dev x /\ trep F t' (tv_alloc sb dev x v)
    | None => forall j, 0 <= j < sb_size sb -> used v sb dev j = true
    end) s.
Proof.
  intros sb Ha Ht Hb0 Hb Hroom Hcap. revert s sb b Ha Ht Hb0 Hb.
  induction fuel as [|fuel IH]; intros s sb b Ha Ht Hb0 Hb Hprev Hfuel Hbs; [lia|].
  cbn [loop]. apply wp_bind. unfold balloc_block. apply wp_bind, wp_get. fold sb.
  destruct (Z.ltb_spec b (sb_size sb)) as [Hlt|Hge].
  - destruct (ao_bmap _ _ _ _ Ha b ltac:(lia)) as (HFk & Hku & Hlen).
    apply (wp_bread _ _ F _ v); [done|done|done|unfold tv_room; lia|]. intros bp t Hbp H1.
    apply wp_bind. eapply wp_mono.
    + apply (balloc_bits F s v dev b bp t); try done; try lia.
      intros j Hj. apply Hprev; lia.
    + intros [x|] s'.
      * intros (t' & -> & _ & Hx). apply wp_ret, wp_ret. exists t'. done.
      * intros [-> Hall]. apply wp_bind.
        apply (wp_brelse _ F _ (tv_read bp (dev, BBLOCK b sb) v) bp (dev, BBLOCK b sb) (tv_blk v (dev, BBLOCK b sb)));
          [done|apply lookup_insert_eq|done|].
        intros t2 H2. rewrite release_read in H2 by done. apply wp_ret.
        eapply wp_mono; [apply (IH (set_tx t2 (set_tx t s)) (b + BPB)); try done; change BPB with 4096 in *; try zlia|].
        -- cbn [f_sb set_tx]. fold sb. zlia.
        -- cbn [f_sb set_tx]. fold sb. zlia.
        -- intros [x|] s'; [|done]. intros (t3 & -> & Hx). exists t3. done.
  - apply wp_ret, wp_ret. intros j Hj. apply Hprev; lia.
Qed.

Lemma balloc_wp F s v dev :
  let sb := f_sb s in
  alloc_ok F v sb dev -> trep F (f_tx s) v ->
  (2 + (size (tv_held v) + size (tv_log v)) < nbuf)%nat -> (S (size (tv_log v)) < tv_cap v)%nat ->
  (exists b, 0 <= b < sb_size sb /\ used v sb dev b = false) ->
  wp (balloc dev) (fun b s' => exists t', s' = set_tx t' s /\ first_free v sb dev b /\
    trep F t' (tv_alloc sb dev b v)) s.
Proof.
  intros sb Ha Ht Hroom Hcap (b & Hb & Hfree). unfold balloc. apply wp_bind, wp_get, wp_bind.
  eapply wp_mono; [apply (balloc_blocks F s v dev); try done|].
  - intros j Hj. lia.
  - fold sb. change BPB with 4096. zlia.
  - pose proof (ao_size _ _ _ _ Ha). fold sb. change BPB with 4096. lia.
  - intros [x|] s'; [intros Hx; by apply wp_ret|]. intros Hall. by rewrite Hall in Hfree.
Qed.

Lemma balloc_panics F s v dev :
  let sb := f_sb s in
  alloc_ok F v sb dev -> trep F (f_tx s) v ->
  (2 + (size (tv_held v) + size (tv_log v)) < nbuf)%nat -> (S (size (tv_log v)) < tv_cap v)%nat ->
  (forall b, 0 <= b < sb_size sb -> used v sb dev b = true) ->
  panics (balloc dev) "balloc: out of blocks" s.
Proof.
  intros sb Ha Ht Hroom Hcap Hall. unfold balloc. apply panics_bind, wp_get, panics_bind.
  eapply wp_mono; [apply (balloc_blocks F s v dev); try done|].
  - intros j Hj. lia.
  - fold sb. change BPB with 4096. zlia.
  - pose proof (ao_size _ _ _ _ Ha). fold sb. change BPB with 4096. lia.
  - intros [x|] s'; [|done]. intros (t' & _ & (Hx & Hfree & _) & _). by rewrite Hall in Hfree.
Qed.

(** The bitmap after [balloc]. *)
Lemma used_alloc F v sb dev b b' :
  alloc_ok F v sb dev -> first_free v sb dev b -> 0 <= b' < sb_size sb ->
  used (tv_alloc sb dev b v) sb dev b' = if decide (b' = b) then true else used v sb dev b'.
Proof.
  intros Ha (Hb & Hfree & _) Hb'. unfold used, tv_alloc. cbn [tv_commit tv_blk].
  rewrite upd_ne by (intros [= E]; symmetry in E; revert E; apply (ao_meta _ _ _ _ Ha); done).
  destruct (ao_bmap _ _ _ _ Ha b Hb) as (_ & _ & Hlen).
  destruct (decide (BBLOCK b' sb = BBLOCK b sb)) as [E|E].
  - rewrite E, upd_eq, bit_set.
    + unfold BBLOCK in E. change BPB with 4096 in *. repeat case_decide; try done; exfalso; zlia.
    + rewrite Hlen. change BPB with 4096. change (Z.to_nat BSIZE) with 512%nat. zlia.
    + change BPB with 4096. zlia.
  - rewrite upd_ne by congruence. rewrite decide_False by (intros ->; done). done.
Qed.

(** [balloc] takes the first block not marked in the bitmap, marks it, fills
    it with zeroes, logs both changes and leaves every other block alone; when
    every block is in use it panics. *)
Theorem balloc_spec F s v dev :
  alloc_ok F v (f_sb s) dev -> trep F (f_tx s) v ->
  (2 + (size (tv_held v) + size (tv_log v)) < nbuf)%nat -> (S (size (tv_log v)) < tv_cap v)%nat ->
  ((forall b, 0 <= b < sb_size (f_sb s) -> used v (f_sb s) dev b = true) ->
    balloc dev s = Panic "balloc: out of blocks") /\
  ((exists b, 0 <= b < sb_size (f_sb s) /\ used v (f_sb s) dev b = false) ->
   wp (balloc dev) (fun b s' => exists t' v', s' = set_tx t' s /\ trep F t' v' /\
    first_free v (f_sb s) dev b /\ tv_held v' = tv_held v /\
    tv_blk v' (dev, b) = replicate (Z.to_nat BSIZE) 0 /\
    (forall b', 0 <= b' < sb_size (f_sb s) ->
      used v' (f_sb s) dev b' = if decide (b' = b) then true else used v (f_sb s) dev b') /\
    (forall k, k <> (dev, b) -> k <> (dev, BBLOCK b (f_sb s)) -> tv_blk v' k = tv_blk v k)) s).
Proof.
  intros Ha Ht Hroom Hcap. split; [intros; by eapply balloc_panics|]. intros Hex.
  eapply wp_mono; [by apply (balloc_wp F s v dev)|].
  intros b s' (t' & -> & Hb & Ht'). exists t', (tv_alloc (f_sb s) dev b v).
  split_and!; try done.
  - cbn. by rewrite upd_eq.
  - intros b' Hb'. by apply (used_alloc F).
  - intros k H1 H2. cbn. by rewrite !upd_ne.
Qed.

(** ** Freeing *)

(** [readsb] delivers the superblock the kernel already has. *)
Definition sb_ok F v (sb : superblock) (dev : Z) : Prop :=
  F (dev, 1) /\ tv_unheld (dev, 1) v /\ decode_sb (tv_blk v (dev, 1)) = sb.

Lemma readsb_wp F s v dev :
  trep F (f_tx s) v -> sb_ok F v (f_sb s) dev -> tv_room v ->
  wp (readsb dev) (fun _ s' => exists t, s' = set_tx t s /\ trep F t v) s.
Proof.
  intros Ht (HF & Hu & Hsb) Hroom. unfold readsb. apply (wp_bread _ _ F _ v); [done..|].
  intros i t Hi H1. apply (wp_bdata _ _ F _ (tv_read i (dev, 1) v) i (dev, 1) (tv_blk v (dev, 1))); [done|apply lookup_insert_eq|].
  apply wp_bind, wp_modify.
  apply (wp_brelse _ F _ (tv_read i (dev, 1) v) i (dev, 1) (tv_blk v (dev, 1))); [done|apply lookup_insert_eq|done|].
  intros t2 H2. rewrite release_read in H2 by done. rewrite Hsb. by exists t2.
Qed.

(** The view after [bfree] of [b]. *)
Definition tv_free (sb : superblock) (dev b : Z) v : tview :=
  let k := (dev, BBLOCK b sb) in tv_commit k (clear_bit (b mod BPB) (tv_blk v k)) v.

Lemma bfree_wp F s v dev b :
  alloc_ok F v (f_sb s) dev -> sb_ok F v (f_sb s) dev -> trep F (f_tx s) v -> 0 <= b < sb_size (f_sb s) -> tv_room v ->
  (size (tv_log v) < tv_cap v)%nat -> used v (f_sb s) dev b = true ->
  wp (bfree dev b) (fun _ s' => exists t', s' = set_tx t' s /\ trep F t' (tv_free (f_sb s) dev b v)) s.
Proof.
  intros Ha Hsb Ht Hb Hroom Hcap Hu. destruct (ao_bmap _ _ _ _ Ha b Hb) as (HFk & Hku & Hlen).
  set (k := (dev, BBLOCK b (f_sb s))) in *.
  unfold bfree. apply wp_bind. eapply wp_mono; [by apply (readsb_wp F s v)|]. intros [] s1 (t & -> & H1).
  apply wp_bind, wp_get. apply (wp_bread _ _ F _ v); [done..|]. intros i t2 Hi H2.
  apply (wp_bdata _ _ F _ (tv_read i k v) i k (tv_blk v k)); [done|apply lookup_insert_eq|].
  rewrite bit_test by (change BPB with 4096; zlia). unfold used in Hu. fold k in Hu. rewrite Hu. cbn [negb].
  apply (wp_update_end _ F _ (tv_read i k v) i k (tv_blk v k)); [done|apply lookup_insert_eq|done|done|].
  intros t3 H3. rewrite release_commit in H3 by done. by exists t3.
Qed.

Lemma bfree_panics F s v dev b :
  alloc_ok F v (f_sb s) dev -> sb_ok F v (f_sb s) dev -> trep F (f_tx s) v -> 0 <= b < sb_size (f_sb s) -> tv_room v ->
  used v (f_sb s) dev b = false -> panics (bfree dev b) "freeing free block" s.
Proof.
  intros Ha Hsb Ht Hb Hroom Hu. destruct (ao_bmap _ _ _ _ Ha b Hb) as (HFk & Hku & Hlen).
  set (k := (dev, BBLOCK b (f_sb s))) in *.
  unfold bfree. apply panics_bind. eapply wp_mono; [by apply (readsb_wp F s v)|]. intros [] s1 (t & -> & H1).
  apply panics_bind, wp_get, panics_bind, wp_on_tx. cbn [f_sb f_tx set_tx].
  eapply wp_mono; [by apply (tbread_ok F _ v k)|]. intros i t2 [Hi H2].
  apply panics_bind, wp_on_tx. cbn [f_tx set_tx].
  eapply wp_mono; [eapply tbdata_ok; [done|apply lookup_insert_eq]|]. intros d t3 [-> ->].
  rewrite bit_test by (change BPB with 4096; zlia). unfold used in Hu. fold k in Hu. by rewrite Hu.
Qed.

Lemma used_free F v sb dev b b' :
  alloc_ok F v sb dev -> 0 <= b < sb_size sb -> 0 <= b' < sb_size sb ->
  used (tv_free sb dev b v) sb dev b' = if decide (b' = b) then false else used v sb dev b'.
Proof.
  intros Ha Hb Hb'. unfold used, tv_free. cbn [tv_commit tv_blk].
  destruct (ao_bmap _ _ _ _ Ha b Hb) as (_ & _ & Hlen).
  destruct (decide (BBLOCK b' sb = BBLOCK b sb)) as [E|E].
  - rewrite E, upd_eq, bit_clear.
    + unfold BBLOCK in E. change BPB with 4096 in *. repeat case_decide; try done; exfalso; zlia.
    + rewrite Hlen. change BPB with 4096. change (Z.to_nat BSIZE) with 512%nat. zlia.
    + change BPB with 4096. zlia.
  - rewrite upd_ne by congruence. rewrite decide_False by (intros ->; done). done.
Qed.

(** [bfree] clears the block's bit and nothing else; freeing a block that
    is not in use stops the kernel. *)
Theorem bfree_spec F s v dev b :
  alloc_ok F v (f_sb s) dev -> sb_ok F v (f_sb s) dev -> trep F (f_tx s) v -> 0 <= b < sb_size (f_sb s) -> tv_room v ->
  (size (tv_log v) < tv_cap v)%nat ->
  (used v (f_sb s) dev b = false -> bfree dev b s = Panic "freeing free block") /\
  (used v (f_sb s) dev b = true ->
    wp (bfree dev b) (fun _ s' => exists t' v', s' = set_tx t' s /\ trep F t' v' /\
      (forall b', 0 <= b' < sb_size (f_sb s) ->
        used v' (f_sb s) dev b' = if decide (b' = b) then false else used v (f_sb s) dev b') /\
      (forall k, k <> (dev, BBLOCK b (f_sb s)) -> tv_blk v' k = tv_blk v k)) s).
Proof.
  intros Ha Hsb Ht Hb Hroom Hcap. split; [intros; by eapply bfree_panics|]. intros Hu.
  eapply wp_mono; [by apply (bfree_wp F s v)|]. intros [] s' (t' & -> & H'). exists t', (tv_free (f_sb s) dev b v).
  split_and!; try done.
  - intros b' Hb'. by apply (used_free F).
  - intros k Hk. cbn. by apply upd_ne.
Qed.

End blocks.
