(* ===== verification/FsFile.v ===== *)
(** * File contents: [bmap]

    The blocks of a file are listed in the inode and in its indirect block.
    [bmap] allocates a missing block and keeps the contents of the file, in which
    a block not yet allocated counts as zeroes. *)

From S2P Require Import Prelude Params Disk Layout TxStore Fs FsBlocks.

(** ** Budget of a transaction *)

(** [n] more blocks can be logged, and the cache has buffers for them. *)
Definition budget (n : nat) (v : tview) : Prop :=
  (n + (size (tv_held v) + size (tv_log v)) < nbuf)%nat /\ (n + size (tv_log v) <= tv_cap v)%nat.

Lemma budget_weaken n m v : (m <= n)%nat -> budget n v -> budget m v.
Proof. unfold budget. lia. Qed.
Lemma budget_commit n k d v : budget (S n) v -> budget n (tv_commit k d v).
Proof. intros [H1 H2]. pose proof (log_size_commit k d v). unfold budget. cbn [tv_held tv_cap tv_commit] in *. lia. Qed.
Lemma budget_room n v : budget n v -> tv_room v.
Proof. intros [H _]. unfold tv_room. lia. Qed.
Lemma budget_log n v : budget (S n) v -> (size (tv_log v) < tv_cap v)%nat.
Proof. intros [_ H]. lia. Qed.
Lemma budget_alloc n sb dev b v : budget (S (S n)) v -> budget n (tv_alloc sb dev b v).
Proof. intros H. by do 2 apply budget_commit. Qed.
Lemma budget_read n i k v : tv_held v !! i = None -> budget (S n) v -> budget n (tv_read i k v).
Proof. intros Hi [H1 H2]. unfold budget. cbn. rewrite map_size_insert_None by done. lia. Qed.
Create HintDb fsdb.
#[export] Hint Resolve budget_room budget_log budget_alloc budget_commit budget_read : fsdb.

(** ** The blocks of a file *)

Section file.
Implicit Types (v : tview) (ip : inode) (F : key -> Prop) (sb : superblock).

Definition NSLOT : nat := 141.
(** Slot [j]: the 12 direct addresses, the indirect block, the 128 addresses
    it lists. *)
Definition slot v ip (j : nat) : Z :=
  if decide (j < 13)%nat then i_addrs ip !!! j
  else if i_addrs ip !!! 12%nat =? 0 then 0
  else get32 (4 * (j - 13)) (tv_blk v (i_dev ip, i_addrs ip !!! 12%nat)).
(** The slot of block number [bn]. *)
Definition sidx (bn : Z) : nat := Z.to_nat (if bn <? NDIRECT then bn else bn + 1).

(** Block [bn] of the file; zeroes where nothing is allocated. *)
Definition fblock v ip (bn : Z) : block :=
  let a := slot v ip (sidx bn) in
  if a =? 0 then replicate (Z.to_nat BSIZE) 0 else tv_blk v (i_dev ip, a).
(** Byte [j] of the file. *)
Definition fbyte v ip (j : Z) : Z := fblock v ip (j / BSIZE) !!! Z.to_nat (j mod BSIZE).

(** An allocated block: marked in use, whole, not part of the bitmap. *)
Record block_ok F v sb (dev a : Z) : Prop := {
  bk_range : 0 < a < sb_size sb;
  bk_used : used v sb dev a = true;
  bk_F : F (dev, a);
  bk_unheld : tv_unheld (dev, a) v;
  bk_len : length (tv_blk v (dev, a)) = Z.to_nat BSIZE;
  bk_meta : forall b, 0 <= b < sb_size sb -> a <> BBLOCK b sb;
  bk_inode : forall i, 0 <= i < sb_ninodes sb -> a <> IBLOCK i sb
}.

Record file_ok F v sb ip : Prop := {
  fo_len : length (i_addrs ip) = 13%nat;
  fo_blocks : forall j, (j < NSLOT)%nat -> slot v ip j <> 0 -> block_ok F v sb (i_dev ip) (slot v ip j);
  fo_inj : forall j j', (j < NSLOT)%nat -> (j' < NSLOT)%nat -> slot v ip j = slot v ip j' -> slot v ip j <> 0 -> j = j'
}.

(** ** Allocating a block for a slot *)

Section alloc.
Context F v sb dev x (Ha : alloc_ok F v sb dev) (Hx : first_free v sb dev x).

Lemma alloc_range : 0 < x < sb_size sb.
Proof using Ha Hx.
  destruct Hx as (Hr & Hu & _). destruct (decide (x = 0)) as [->|]; [|lia].
  by rewrite (ao_boot _ _ _ _ Ha) in Hu.
Qed.

(** Blocks in use and the bitmap block are other blocks. *)
Lemma alloc_other a : block_ok F v sb dev a -> a <> x.
Proof using Hx. intros Hb ->. destruct Hx as (_ & Hu & _). by rewrite (bk_used _ _ _ _ _ Hb) in Hu. Qed.
Lemma alloc_blk a : block_ok F v sb dev a -> tv_blk (tv_alloc sb dev x v) (dev, a) = tv_blk v (dev, a).
Proof using Hx.
  intros Hb. unfold tv_alloc. cbn [tv_commit tv_blk]. rewrite !upd_ne; [done| |].
  - intros [= E]. destruct Hx as (Hr & _). by apply (bk_meta _ _ _ _ _ Hb x).
  - intros [= E]. by apply (alloc_other a).
Qed.
Lemma alloc_new : tv_blk (tv_alloc sb dev x v) (dev, x) = replicate (Z.to_nat BSIZE) 0.
Proof. unfold tv_alloc. cbn [tv_commit tv_blk]. by rewrite upd_eq. Qed.

Lemma alloc_block_ok a : block_ok F v sb dev a \/ a = x -> block_ok F (tv_alloc sb dev x v) sb dev a.
Proof using Ha Hx.
  pose proof alloc_range as Hr. destruct Hx as (Hr' & Hu & _).
  intros [Hb| ->].
  - pose proof (alloc_blk a Hb) as Hblk. pose proof (alloc_other a Hb). destruct Hb as [H1 H2 H3 H4 H5 H6 H7].
    split; try done; [|by rewrite Hblk].
    rewrite (used_alloc F v sb dev x a Ha Hx) by lia. by rewrite decide_False.
  - split; try done.
    + rewrite (used_alloc F v sb dev x x Ha Hx) by lia. by rewrite decide_True.
    + by apply (ao_free _ _ _ _ Ha x).
    + by apply (ao_free _ _ _ _ Ha x).
    + rewrite alloc_new. by rewrite length_replicate.
    + intros b Hb. by apply (ao_meta _ _ _ _ Ha).
    + intros i Hi. by apply (ao_inode_free _ _ _ _ Ha).
Qed.

Lemma alloc_alloc_ok : alloc_ok F (tv_alloc sb dev x v) sb dev.
Proof using Ha Hx.
  pose proof alloc_range as Hr. pose proof (used_alloc F v sb dev x) as Hua.
  assert (Hu : forall b, 0 <= b < sb_size sb -> used (tv_alloc sb dev x v) sb dev b = false ->
    used v sb dev b = false).
  { intros b Hb. rewrite Hua by done. by case_decide. }
  split.
  - apply (ao_size _ _ _ _ Ha).
  - rewrite Hua by (done || lia). rewrite decide_False by lia. apply (ao_boot _ _ _ _ Ha).
  - intros b Hb. destruct (ao_bmap _ _ _ _ Ha b Hb) as (H1 & H2 & H3). split_and!; [done..|].
    unfold tv_alloc. cbn [tv_commit tv_blk]. destruct Hx as (Hxr & Hxu & _).
    rewrite upd_ne by (intros [= E]; symmetry in E; revert E; by apply (ao_meta _ _ _ _ Ha)).
    destruct (decide (BBLOCK b sb = BBLOCK x sb)) as [E|E]; [|by rewrite upd_ne by congruence].
    rewrite E, upd_eq. unfold set_bit. rewrite length_insert. by rewrite <-E.
  - intros b Hb Hf. by apply (ao_free _ _ _ _ Ha b Hb), Hu.
  - intros b b' Hb Hb' Hf. apply (ao_meta _ _ _ _ Ha b b'); auto.
  - intros i Hi. destruct (ao_inode _ _ _ _ Ha i Hi) as (H1 & H2 & H3). split_and!; [done..|].
    destruct Hx as (Hxr & Hxu & _). unfold tv_alloc. cbn [tv_commit tv_blk].
    rewrite !upd_ne; [done| |].
    + intros [= E]. symmetry in E. revert E. by apply (ao_inode_bmap _ _ _ _ Ha).
    + intros [= E]. symmetry in E. revert E. by apply (ao_inode_free _ _ _ _ Ha).
  - intros b i Hb Hi Hf. apply (ao_inode_free _ _ _ _ Ha b i); auto.
  - apply (ao_inode_bmap _ _ _ _ Ha).
Qed.
End alloc.

(** A file whose slot [j], empty before, now holds the fresh block [x]. *)
Lemma file_ok_upd F v v' sb ip ip' j x :
  file_ok F v sb ip -> i_dev ip' = i_dev ip -> length (i_addrs ip') = 13%nat ->
  (forall k, (k < NSLOT)%nat -> slot v' ip' k = if decide (k = j) then x else slot v ip k) ->
  (forall a, block_ok F v sb (i_dev ip) a \/ a = x -> block_ok F v' sb (i_dev ip) a) ->
  (forall a, block_ok F v sb (i_dev ip) a -> a <> x) ->
  file_ok F v' sb ip'.
Proof.
  intros [Hl Hb Hi] Hdev Hlen Hs Hok Hfr. split; [done| |].
  - intros k Hk. rewrite Hdev, Hs by done. case_decide; intros; apply Hok; auto.
  - intros k k' Hk Hk'. rewrite !Hs by done. intros Heq Hnz. repeat case_decide; subst; try done.
    + destruct (Hfr (slot v ip k')); [apply Hb; congruence|done].
    + destruct (Hfr (slot v ip k)); [by apply Hb|done].
    + by apply Hi.
Qed.

Lemma sidx_ok bn : 0 <= bn < MAXFILE -> (sidx bn < NSLOT)%nat /\ sidx bn <> 12%nat.
Proof. change MAXFILE with 140. unfold sidx, NSLOT. change NDIRECT with 12. intros. destruct (Z.ltb_spec bn 12); lia. Qed.
Lemma sidx_inj a b : 0 <= a -> 0 <= b -> sidx a = sidx b -> a = b.
Proof.
  unfold sidx. change NDIRECT with 12. intros. destruct (Z.ltb_spec a 12), (Z.ltb_spec b 12); lia.
Qed.

(** Contents are kept when the only new block reads as zeroes. *)
Lemma fblock_upd F v v' sb ip ip' j x bn :
  file_ok F v sb ip -> i_dev ip' = i_dev ip -> x <> 0 -> slot v ip j = 0 ->
  (forall k, (k < NSLOT)%nat -> slot v' ip' k = if decide (k = j) then x else slot v ip k) ->
  (forall k, (k < NSLOT)%nat -> k <> 12%nat -> slot v ip k <> 0 ->
     tv_blk v' (i_dev ip, slot v ip k) = tv_blk v (i_dev ip, slot v ip k)) ->
  tv_blk v' (i_dev ip, x) = replicate (Z.to_nat BSIZE) 0 ->
  0 <= bn < MAXFILE -> fblock v' ip' bn = fblock v ip bn.
Proof.
  intros Hf Hdev Hx Hj Hs Hblk Hnew Hbn. destruct (sidx_ok bn Hbn) as [Hlt Hne].
  unfold fblock. rewrite Hs, Hdev by done. case_decide as E.
  - rewrite (proj2 (Z.eqb_neq x 0)) by done. rewrite E, Hj. done.
  - destruct (Z.eqb_spec (slot v ip (sidx bn)) 0); [done|]. by apply Hblk.
Qed.

Lemma get32_zeroes off n : (off + 4 <= n)%nat -> get32 off (replicate n 0) = 0.
Proof.
  intros H. unfold get32. rewrite drop_replicate, take_replicate, Nat.min_l by lia. done.
Qed.

(** ** Direct slots and the indirect block *)

Section direct.
Context F v sb ip j x (Hf : file_ok F v sb ip) (Ha : alloc_ok F v sb (i_dev ip))
  (Hx : first_free v sb (i_dev ip) x) (Hj : (j < 13)%nat) (H0 : slot v ip j = 0).

Lemma direct_slot k : (k < NSLOT)%nat ->
  slot (tv_alloc sb (i_dev ip) x v) (set_addr j x ip) k = if decide (k = j) then x else slot v ip k.
Proof using All.
  intros Hk. unfold slot. cbn [i_addrs i_dev set_addr]. pose proof (fo_len _ _ _ _ Hf) as Hlen.
  pose proof (alloc_range F v sb _ x Ha Hx) as Hr.
  destruct (decide (k < 13)%nat) as [Hk13|Hk13].
  - case_decide as E; [subst; apply list_lookup_total_insert_eq; lia|apply list_lookup_total_insert_ne; lia].
  - rewrite (decide_False (P := k = j)) by lia. destruct (decide (j = 12%nat)) as [->|Hj12].
    + rewrite list_lookup_total_insert_eq by lia. rewrite (proj2 (Z.eqb_neq x 0)) by lia.
      rewrite alloc_new, get32_zeroes by (change (Z.to_nat BSIZE) with 512%nat; unfold NSLOT in Hk; lia).
      unfold slot in H0. rewrite decide_True in H0 by lia. by rewrite H0.
    + rewrite list_lookup_total_insert_ne by lia.
      destruct (Z.eqb_spec (i_addrs ip !!! 12%nat) 0) as [|Hnz]; [done|]. f_equal. apply (alloc_blk F v sb (i_dev ip) x Hx).
      apply (fo_blocks _ _ _ _ Hf 12%nat); unfold slot, NSLOT; [lia|]. rewrite decide_True by lia. done.
Qed.

Lemma direct_file_ok : file_ok F (tv_alloc sb (i_dev ip) x v) sb (set_addr j x ip).
Proof using All.
  apply (file_ok_upd F v _ sb ip _ j x); [done|done|cbn; rewrite length_insert; apply Hf|apply direct_slot| |].
  - intros a. by apply (alloc_block_ok F v sb _ x).
  - intros a. by apply (alloc_other F v sb _ x).
Qed.

Lemma direct_fblock bn : 0 <= bn < MAXFILE ->
  fblock (tv_alloc sb (i_dev ip) x v) (set_addr j x ip) bn = fblock v ip bn.
Proof using All.
  intros Hbn. apply (fblock_upd F v _ sb ip _ j x); try done; [|apply direct_slot| |by apply alloc_new].
  - pose proof (alloc_range F v sb _ x Ha Hx). lia.
  - intros k Hk _ Hnz. by apply (alloc_blk F v sb _ x Hx), (fo_blocks _ _ _ _ Hf).
Qed.
End direct.

(** ** Entries of the indirect block *)

Section indirect.
Context F v sb ip (m : nat) x (Hf : file_ok F v sb ip) (Ha : alloc_ok F v sb (i_dev ip))
  (Hx : first_free v sb (i_dev ip) x) (Hm : (m < 128)%nat) (Hsb : sb_size sb < 2 ^ 32).
Local Abbreviation ind := (i_addrs ip !!! 12%nat).
Context (Hind : ind <> 0) (H0 : slot v ip (13 + m) = 0).

(** The view after the indirect block has received the fresh block. *)
Definition tv_indirect : tview :=
  tv_commit (i_dev ip, ind) (put32 (4 * m) x (tv_blk v (i_dev ip, ind))) (tv_alloc sb (i_dev ip) x v).

Lemma ind_ok : block_ok F v sb (i_dev ip) ind.
Proof using Hf Hind.
  clear Hm H0. pose proof (fo_blocks _ _ _ _ Hf 12%nat) as H. unfold slot in H. rewrite decide_True in H by lia.
  apply H; [unfold NSLOT; lia|done].
Qed.

Lemma indirect_slot k : (k < NSLOT)%nat ->
  slot tv_indirect ip k = if decide (k = (13 + m)%nat) then x else slot v ip k.
Proof using All.
  intros Hk. pose proof (alloc_range F v sb _ x Ha Hx) as Hr. pose proof ind_ok as Hio.
  assert (Hlen : length (tv_blk v (i_dev ip, ind)) = 512%nat) by apply (bk_len _ _ _ _ _ Hio).
  unfold slot. destruct (decide (k < 13)%nat); [rewrite decide_False by lia; done|].
  rewrite (proj2 (Z.eqb_neq ind 0)) by done. unfold tv_indirect. cbn [tv_commit tv_blk]. rewrite upd_eq.
  unfold NSLOT in Hk. case_decide as E.
  - subst k. replace (13 + m - 13)%nat with m by lia. rewrite get_put32 by lia. apply u32_id. lia.
  - rewrite get_put32_ne by lia. done.
Qed.

Lemma indirect_blk a : a <> ind -> tv_blk tv_indirect (i_dev ip, a) = tv_blk (tv_alloc sb (i_dev ip) x v) (i_dev ip, a).
Proof. intros Hne. unfold tv_indirect. cbn [tv_commit tv_blk]. rewrite upd_ne; [done|congruence]. Qed.

Lemma indirect_used b : 0 <= b < sb_size sb ->
  used tv_indirect sb (i_dev ip) b = used (tv_alloc sb (i_dev ip) x v) sb (i_dev ip) b.
Proof using Hf Hind.
  intros Hb. unfold used. rewrite indirect_blk; [done|]. intros E.
  by apply (bk_meta _ _ _ _ _ ind_ok b).
Qed.

Lemma indirect_block_ok a :
  block_ok F (tv_alloc sb (i_dev ip) x v) sb (i_dev ip) a -> block_ok F tv_indirect sb (i_dev ip) a.
Proof using All.
  intros [H1 H2 H3 H4 H5 H6 H7]. split; try done; [rewrite indirect_used; [done|lia]|].
  destruct (decide (a = ind)) as [->|]; [|by rewrite indirect_blk].
  unfold tv_indirect. cbn [tv_commit tv_blk]. rewrite upd_eq, length_put32; [apply (bk_len _ _ _ _ _ ind_ok)|].
  rewrite (bk_len _ _ _ _ _ ind_ok). change (Z.to_nat BSIZE) with 512%nat. lia.
Qed.

Lemma indirect_file_ok : file_ok F tv_indirect sb ip.
Proof using All.
  apply (file_ok_upd F v _ sb ip _ (13 + m) x); [done|done|apply Hf|apply indirect_slot| |].
  - intros a H. by apply indirect_block_ok, (alloc_block_ok F v sb _ x).
  - intros a. by apply (alloc_other F v sb _ x).
Qed.

Lemma indirect_alloc_ok : alloc_ok F tv_indirect sb (i_dev ip).
Proof using All.
  pose proof (alloc_alloc_ok F v sb _ x Ha Hx) as [H1 H2 H3 H4 H5 H6 H7 H8].
  assert (Hsz : 0 < sb_size sb) by (pose proof (alloc_range F v sb _ x Ha Hx); lia).
  split; [done|rewrite indirect_used; [done|lia]| | | | | |done].
  - intros b Hb. destruct (H3 b Hb) as (? & ? & ?). split_and!; [done..|].
    rewrite indirect_blk; [done|]. intros E. by apply (bk_meta _ _ _ _ _ ind_ok b).
  - intros b Hb. rewrite indirect_used by done. by apply H4.
  - intros b b' Hb Hb'. rewrite indirect_used by done. by apply H5.
  - intros i Hi. destruct (H6 i Hi) as (? & ? & ?). split_and!; [done..|].
    rewrite indirect_blk; [done|]. intros E. by apply (bk_inode _ _ _ _ _ ind_ok i).
  - intros b i Hb Hi. rewrite indirect_used by done. by apply H7.
Qed.

Lemma indirect_fblock bn : 0 <= bn < MAXFILE -> fblock tv_indirect ip bn = fblock v ip bn.
Proof using All.
  intros Hbn. pose proof (alloc_other F v sb _ x Hx ind ind_ok) as Hne.
  apply (fblock_upd F v _ sb ip _ (13 + m) x); try done; [|apply indirect_slot| |].
  - pose proof (alloc_range F v sb _ x Ha Hx). lia.
  - intros k Hk Hk12 Hnz. rewrite indirect_blk.
    + by apply (alloc_blk F v sb _ x Hx), (fo_blocks _ _ _ _ Hf).
    + intros E. apply Hk12. apply (fo_inj _ _ _ _ Hf); [done|unfold NSLOT; lia|rewrite E; done|done].
  - rewrite indirect_blk by done. apply alloc_new.
Qed.
End indirect.


(** ** Free blocks *)

Definition free_list v sb (dev : Z) : list Z := filter (fun b => used v sb dev b = false) (seqZ 0 (sb_size sb)).

Lemma elem_free v sb dev b : b ∈ free_list v sb dev <-> used v sb dev b = false /\ 0 <= b < sb_size sb.
Proof. unfold free_list. rewrite list_elem_of_filter, elem_of_seqZ. rewrite Z.add_0_l. done. Qed.

Lemma free_list_alloc F v v' sb dev x :
  alloc_ok F v sb dev -> first_free v sb dev x ->
  (forall b, 0 <= b < sb_size sb -> used v' sb dev b = used (tv_alloc sb dev x v) sb dev b) ->
  length (free_list v sb dev) = S (length (free_list v' sb dev)).
Proof.
  intros Ha Hx Hv'. change (S (length (free_list v' sb dev))) with (length (x :: free_list v' sb dev)).
  apply Permutation_length, NoDup_Permutation.
  - apply NoDup_filter, NoDup_seqZ.
  - constructor; [|apply NoDup_filter, NoDup_seqZ]. rewrite elem_free. intros [Hu Hr].
    rewrite Hv', (used_alloc F v sb dev x x Ha Hx) in Hu by done. by rewrite decide_True in Hu.
  - intros b. rewrite elem_of_cons, !elem_free. destruct Hx as (Hr & Hu & Hmin). split.
    + intros [Hb Hbr]. destruct (decide (b = x)) as [->|]; [by left|right]. split; [|done].
      rewrite Hv', (used_alloc F v sb dev x b Ha) by done. by rewrite decide_False.
    + intros [->|[Hb Hbr]]; [done|]. split; [|done].
      rewrite Hv', (used_alloc F v sb dev x b Ha) in Hb by done. by case_decide.
Qed.

End file.

(** ** [bmap] *)

Section bmap.
Context {T : Type} `{!TxStore T}.
Implicit Types (s : fs T) (v : tview) (ip : inode) (F : key -> Prop).

(** Inode [i] is [ip], its file is well formed, [n] blocks can still be logged
    and [m] allocated. *)
Record file_state F (n m : nat) s v (i : nat) ip : Prop := {
  fs_inode : inodes s !! i = Some ip;
  fs_rep : trep F (f_tx s) v;
  fs_alloc : alloc_ok F v (f_sb s) (i_dev ip);
  fs_file : file_ok F v (f_sb s) ip;
  fs_size : sb_size (f_sb s) < 2 ^ 32;
  fs_budget : budget n v;
  fs_free : (m <= length (free_list v (f_sb s) (i_dev ip)))%nat
}.

(** [ip'] is [ip] with possibly more blocks; the contents are the same. *)
Record grown v ip v' ip' : Prop := {
  gr_ip : ip' = mkinode (i_dev ip) (i_inum ip) (i_ref ip) (i_flags ip) (i_type ip) (i_major ip) (i_minor ip)
    (i_nlink ip) (i_size ip) (i_addrs ip');
  gr_held : tv_held v' = tv_held v;
  gr_cap : tv_cap v' = tv_cap v;
  gr_fblock : forall bn, 0 <= bn < MAXFILE -> fblock v' ip' bn = fblock v ip bn;
  gr_slot : forall j, (j < NSLOT)%nat -> slot v ip j <> 0 -> slot v' ip' j = slot v ip j
}.
(** The state after inode [i] became [ip'] and the store [t]. *)
Definition with_inode (i : nat) ip' (t : T) s : fs T := set_tx t (set_inodes (<[i := ip']> (inodes s)) s).

Lemma grown_refl v ip : grown v ip v ip.
Proof. split; try done. by destruct ip. Qed.
Lemma grown_trans v ip v1 ip1 v2 ip2 : grown v ip v1 ip1 -> grown v1 ip1 v2 ip2 -> grown v ip v2 ip2.
Proof.
  intros [H1 H2 H3 H4 H5] [G1 G2 G3 G4 G5]. split; [|congruence|congruence| |].
  - rewrite G1, H1. done.
  - intros bn Hbn. by rewrite G4, H4.
  - intros j Hj Hnz. rewrite G5, H5; [done..|]. by rewrite H5.
Qed.
Lemma grown_dev v ip v' ip' : grown v ip v' ip' -> i_dev ip' = i_dev ip /\ i_size ip' = i_size ip /\ i_type ip' = i_type ip.
Proof. intros [-> _ _ _ _]. done. Qed.

Lemma wp_geti Q s i ip : inodes s !! i = Some ip -> Q ip s -> wp (geti i) Q s.
Proof. intros Hi HQ. unfold geti. apply wp_gets. by rewrite (list_lookup_total_correct _ _ _ Hi). Qed.

Lemma alter_insert (f : inode -> inode) i ip (l : list inode) :
  l !! i = Some ip -> alter f i l = <[i := f ip]> l.
Proof.
  intros Hi. apply list_eq. intros j. destruct (decide (i = j)) as [->|Hne].
  - rewrite list_lookup_alter_eq, Hi. symmetry. apply list_lookup_insert_eq. by eapply lookup_lt_Some.
  - by rewrite list_lookup_alter_ne, list_lookup_insert_ne.
Qed.

Lemma with_inode_id s i ip : inodes s !! i = Some ip -> with_inode i ip (f_tx s) s = s.
Proof. intros Hi. destruct s. unfold with_inode, set_tx, set_inodes. cbn in *. by rewrite list_insert_id. Qed.
Lemma with_inode_same s i ip t : inodes s !! i = Some ip -> with_inode i ip t s = set_tx t s.
Proof. intros Hi. destruct s. unfold with_inode, set_tx, set_inodes. cbn in *. by rewrite list_insert_id. Qed.
Lemma with_inode_twice s i ip1 t1 ip2 t2 : with_inode i ip2 t2 (with_inode i ip1 t1 s) = with_inode i ip2 t2 s.
Proof. destruct s. unfold with_inode, set_tx, set_inodes. cbn. by rewrite list_insert_insert_eq. Qed.
Lemma with_inode_lookup s i ip ip' t : inodes s !! i = Some ip -> inodes (with_inode i ip' t s) !! i = Some ip'.
Proof. intros Hi. apply list_lookup_insert_eq. by eapply lookup_lt_Some. Qed.

Lemma updi_with s t f i ip : inodes s !! i = Some ip ->
  set_inodes (alter f i (inodes (set_tx t s))) (set_tx t s) = with_inode i (f ip) t s.
Proof. intros Hi. unfold with_inode, set_tx, set_inodes. cbn. by rewrite (alter_insert _ _ ip). Qed.

Lemma free_exists v sb dev m : (S m <= length (free_list v sb dev))%nat ->
  exists b, 0 <= b < sb_size sb /\ used v sb dev b = false.
Proof.
  intros Hm. destruct (free_list v sb dev) as [|b l] eqn:E; [simpl in Hm; lia|].
  assert (Hb : b ∈ free_list v sb dev) by (rewrite E; by left). apply elem_free in Hb as [? ?]. eauto.
Qed.

(** A direct slot, or the address of the indirect block. *)
Lemma bmap_addr_wp F n m s v i ip j :
  file_state F (S (S n)) (S m) s v i ip -> (j < 13)%nat ->
  wp (bmap_addr i j) (fun a s' => exists t' v' ip', s' = with_inode i ip' t' s /\
    file_state F n m s' v' i ip' /\ grown v ip v' ip' /\ a = slot v' ip' j /\ a <> 0) s.
Proof.
  intros [Hi Ht Ha Hf Hsz Hbud Hfree] Hj. unfold bmap_addr. apply wp_bind, (wp_geti _ _ _ ip Hi).
  assert (Hsl : i_addrs ip !!! j = slot v ip j) by (unfold slot; by rewrite decide_True).
  rewrite Hsl. destruct (Z.eqb_spec (slot v ip j) 0) as [H0|Hnz].
  - apply wp_bind. eapply wp_mono.
    { apply (balloc_wp F s v (i_dev ip)); [done|done|destruct Hbud; lia|destruct Hbud; lia|by eapply free_exists]. }
    intros x s' (t' & -> & Hx & Ht'). unfold updi. apply wp_bind, wp_modify, wp_ret.
    rewrite (updi_with _ _ _ _ ip) by done.
    exists t', (tv_alloc (f_sb s) (i_dev ip) x v), (set_addr j x ip).
    split_and!; [done|..].
    + split; cbn [with_inode set_tx set_inodes f_tx f_sb i_dev set_addr].
      * by eapply with_inode_lookup.
      * done.
      * by apply (alloc_alloc_ok F).
      * by apply direct_file_ok.
      * done.
      * by apply budget_alloc.
      * rewrite (free_list_alloc F v (tv_alloc (f_sb s) (i_dev ip) x v) _ _ x) in Hfree by done. lia.
    + split; try done.
      * intros bn Hbn. by apply (direct_fblock F).
      * intros k Hk Hkz. rewrite (direct_slot F) by done. rewrite decide_False; [done|]. by intros ->.
    + unfold slot. rewrite decide_True by done. cbn [i_addrs set_addr]. symmetry.
      apply list_lookup_total_insert_eq. by rewrite (fo_len _ _ _ _ Hf).
    + pose proof (alloc_range F v _ _ x Ha Hx). lia.
  - apply wp_ret. exists (f_tx s), v, ip. rewrite with_inode_id by done. split_and!; try done; [|apply grown_refl].
    split; try done; [by eapply budget_weaken; [|done]; lia|lia].
Qed.

Lemma file_state_weaken F n m n' m' s v i ip :
  file_state F n m s v i ip -> (n' <= n)%nat -> (m' <= m)%nat -> file_state F n' m' s v i ip.
Proof. intros [H1 H2 H3 H4 H5 H6 H7] Hn Hm. split; try done; [by eapply budget_weaken|lia]. Qed.

(** Holding an allocated block does not disturb the allocator. *)
Lemma alloc_ok_read F v sb dev i a :
  alloc_ok F v sb dev -> block_ok F v sb dev a -> alloc_ok F (tv_read i (dev, a) v) sb dev.
Proof.
  intros [H1 H2 H3 H4 H5 H6 H7 H8] Hb.
  assert (Hun : forall b, b <> a -> tv_unheld (dev, b) v -> tv_unheld (dev, b) (tv_read i (dev, a) v)).
  { intros b Hne Hu j k d Hj. cbn in Hj. apply lookup_insert_Some in Hj as [[_ [= <- _]]|[_ Hj]]; [congruence|by eapply Hu]. }
  split; try done.
  - intros b Hb'. destruct (H3 b Hb') as (? & ? & ?). split_and!; [done| |done].
    apply Hun; [|done]. intros E. by apply (bk_meta _ _ _ _ _ Hb b).
  - intros b Hb' Hu. destruct (H4 b Hb' Hu) as [? ?]. split; [done|]. apply Hun; [|done].
    intros ->. change (used v sb dev a = false) in Hu. by rewrite (bk_used _ _ _ _ _ Hb) in Hu.
  - intros j Hj. destruct (H6 j Hj) as (? & ? & ?). split_and!; [done| |done].
    apply Hun; [|done]. intros E. by apply (bk_inode _ _ _ _ _ Hb j).
Qed.

Lemma indirect_release v sb ip m x i :
  tv_held v !! i = None ->
  tv_release i (tv_commit (i_dev ip, i_addrs ip !!! 12%nat)
    (put32 (4 * m) x (tv_blk v (i_dev ip, i_addrs ip !!! 12%nat)))
    (tv_alloc sb (i_dev ip) x (tv_read i (i_dev ip, i_addrs ip !!! 12%nat) v))) = tv_indirect v sb ip m x.
Proof.
  intros Hi. unfold tv_indirect, tv_release, tv_alloc, tv_commit, tv_read. cbn. by rewrite delete_insert_id.
Qed.

(** The indirect half of [bmap], once the indirect block is known. *)
Lemma bmap_indirect_wp F n m s v i ip (b : nat) :
  file_state F (4 + n) (S m) s v i ip -> (b < 128)%nat -> i_addrs ip !!! 12%nat <> 0 ->
  wp (bp <-- bread (i_dev ip) (i_addrs ip !!! 12%nat) ;;
      a <-- bdata bp ;;
      if get32 (4 * b) a =? 0 then
        x <-- balloc (i_dev ip) ;;
        bset bp (put32 (4 * b) x a) ;;; log_write bp ;;; brelse bp ;;; ret x
      else brelse bp ;;; ret (get32 (4 * b) a))
   (fun a s' => exists t' v', s' = with_inode i ip t' s /\
    file_state F n m s' v' i ip /\ grown v ip v' ip /\ a = slot v' ip (13 + b) /\ a <> 0) s.
Proof.
  intros [Hi Ht Ha Hf Hsz Hbud Hfree] Hb Hind. set (ind := i_addrs ip !!! 12%nat) in *. set (k := (i_dev ip, ind)).
  pose proof (ind_ok F v (f_sb s) ip Hf Hind) as Hio.
  assert (Hsl : slot v ip (13 + b) = get32 (4 * b) (tv_blk v k)).
  { unfold slot. rewrite decide_False by lia. fold ind. rewrite (proj2 (Z.eqb_neq ind 0)) by done.
    replace (13 + b - 13)%nat with b by lia. done. }
  apply (wp_bread _ _ F _ v); [done|apply Hio|apply Hio|by eapply budget_room|]. intros bp t Hbp H1.
  apply (wp_bdata _ _ F _ (tv_read bp k v) bp k (tv_blk v k)); [done|apply lookup_insert_eq|].
  rewrite <-Hsl. destruct (Z.eqb_spec (slot v ip (13 + b)) 0) as [H0|Hnz].
  - pose proof (budget_read (3 + n) bp k v Hbp Hbud) as Hb2.
    apply wp_bind. eapply wp_mono.
    { apply (balloc_wp F (set_tx t s) (tv_read bp k v) (i_dev ip)); [by apply alloc_ok_read|done|destruct Hb2; lia|destruct Hb2; lia|].
      by eapply (free_exists v). }
    intros x s2 (t2 & -> & Hx & H2). change (first_free v (f_sb s) (i_dev ip) x) in Hx.
    apply (wp_update _ _ F _ (tv_alloc (f_sb s) (i_dev ip) x (tv_read bp k v)) bp k (tv_blk v k));
      [done|apply lookup_insert_eq|apply Hio| |].
    { pose proof (budget_alloc (1 + n) (f_sb s) (i_dev ip) x _ Hb2) as [_ ?]. lia. }
    intros t3 H3. unfold k, ind in H3. rewrite indirect_release in H3 by done. apply wp_ret.
    exists t3, (tv_indirect v (f_sb s) ip b x). split_and!.
    + by rewrite with_inode_same.
    + split; cbn [f_tx f_sb with_inode set_tx set_inodes].
      * done.
      * done.
      * by apply (indirect_alloc_ok F).
      * by apply (indirect_file_ok F).
      * done.
      * apply budget_commit, budget_alloc. eapply budget_weaken; [|apply Hbud]. lia.
      * rewrite (free_list_alloc F v (tv_indirect v (f_sb s) ip b x) _ _ x Ha Hx) in Hfree; [lia|].
        intros b' Hb'. by apply (indirect_used F).
    + split; try done; [by destruct ip| |].
      * intros bn Hbn. by apply (indirect_fblock F).
      * intros j Hj Hjz. rewrite (indirect_slot F) by done. rewrite decide_False; [done|]. by intros ->.
    + rewrite (indirect_slot F) by (done || unfold NSLOT; lia). by rewrite decide_True.
    + pose proof (alloc_range F v _ _ x Ha Hx). lia.
  - apply wp_bind. apply (wp_brelse _ F _ (tv_read bp k v) bp k (tv_blk v k)); [done|apply lookup_insert_eq|done|].
    intros t2 H2. rewrite release_read in H2 by done. apply wp_ret. exists t2, v.
    split_and!; [| |apply grown_refl|done|done].
    + by rewrite with_inode_same.
    + split; try done; [eapply budget_weaken; [|done]; lia|cbn; lia].
Qed.

Lemma bmap_wp F n m s v i ip bn :
  file_state F (6 + n) (2 + m) s v i ip -> 0 <= bn < MAXFILE ->
  wp (bmap i bn) (fun a s' => exists t' v' ip', s' = with_inode i ip' t' s /\
    file_state F n m s' v' i ip' /\ grown v ip v' ip' /\ a = slot v' ip' (sidx bn) /\ a <> 0) s.
Proof.
  intros Hs Hbn. unfold bmap. change NDIRECT with 12. change NINDIRECT with 128. change MAXFILE with 140 in Hbn.
  assert (Hsx : sidx bn = if bn <? 12 then Z.to_nat bn else (13 + Z.to_nat (bn - 12))%nat).
  { unfold sidx. change NDIRECT with 12. destruct (Z.ltb_spec bn 12); lia. }
  destruct (Z.ltb_spec bn 12) as [Hd|Hd].
  - eapply wp_mono; [apply (bmap_addr_wp F (4 + n) (S m) s v i ip (Z.to_nat bn) Hs); lia|].
    intros a s' (t' & v' & ip' & -> & Hs' & Hg & Ha & Hnz). exists t', v', ip'. rewrite Hsx.
    split_and!; try done. eapply file_state_weaken; [done|lia..].
  - rewrite (proj2 (Z.ltb_lt _ _)) by lia. apply wp_bind.
    eapply wp_mono; [apply (bmap_addr_wp F (4 + n) (S m) s v i ip 12 Hs); lia|].
    intros a s' (t' & v1 & ip1 & -> & Hs1 & Hg1 & Ha & Hnz). change (Z.to_nat 12) with 12%nat in *.
    apply wp_bind, (wp_geti _ _ _ ip1 (fs_inode _ _ _ _ _ _ _ Hs1)).
    assert (Hai : a = i_addrs ip1 !!! 12%nat) by (rewrite Ha; unfold slot; by rewrite decide_True by lia).
    rewrite Hai in *. rewrite (Z2Nat.inj_mul 4) by lia. change (Z.to_nat 4) with 4%nat.
    eapply wp_mono; [apply (bmap_indirect_wp F n m _ v1 i ip1 (Z.to_nat (bn - 12)) Hs1); [lia|done]|].
    intros a' s' (t2 & v2 & -> & Hs2 & Hg2 & Ha2 & Hnz2). rewrite with_inode_twice in *.
    exists t2, v2, ip1. rewrite Hsx. split_and!; try done. by eapply grown_trans.
Qed.

(** [bmap] returns the address of block [bn] of the file, allocating the
    block and the indirect block if they are missing; no allocated block moves,
    the contents of the file (zeroes where nothing was allocated) do not
    change, and no block is listed twice afterwards. *)
Theorem bmap_spec F n m s v i ip bn :
  file_state F (6 + n) (2 + m) s v i ip -> 0 <= bn < MAXFILE ->
  wp (bmap i bn) (fun a s' => exists t' v' ip', s' = with_inode i ip' t' s /\
    file_state F n m s' v' i ip' /\ a = slot v' ip' (sidx bn) /\ 0 < a < sb_size (f_sb s) /\
    (forall j, (j < NSLOT)%nat -> slot v ip j <> 0 -> slot v' ip' j = slot v ip j) /\
    (forall bn', 0 <= bn' < MAXFILE -> fblock v' ip' bn' = fblock v ip bn')) s.
Proof.
  intros Hs Hbn. eapply wp_mono; [by apply (bmap_wp F n m s v i ip bn)|].
  intros a s' (t' & v' & ip' & -> & Hs' & Hg & Ha & Hnz). exists t', v', ip'. destruct (sidx_ok bn Hbn).
  split_and!; try done; try apply Hg;
    rewrite Ha in *; apply (bk_range _ _ _ _ _ (fo_blocks _ _ _ _ (fs_file _ _ _ _ _ _ _ Hs') _ ltac:(done) Hnz)).
Qed.
End bmap.
