(* ===== verification/FsInode.v ===== *)
(** * The on-disk inode

    [iupdate] copies the fields of a [struct inode] into its [struct dinode];
    [ilock] copies them back.  Here: the two copies are inverse to each other
    and touch no other inode of the block. *)

From S2P Require Import Prelude Params Disk Layout Fs.

Lemma length_store_addrs off l d :
  (length l <= 13)%nat -> (off + 64 <= length d)%nat -> length (store_addrs off l d) = length d.
Proof.
  intros Hl Hd. unfold store_addrs.
  assert (Hxs : Forall (fun ia => (addr_off off (fst ia) <= length d)%nat) (imap pair l)).
  { apply Forall_forall. intros ia (j & a & -> & Hj%lookup_lt_Some)%elem_of_lookup_imap_1.
    unfold addr_off. cbn. lia. }
  revert Hxs. clear Hd. generalize (imap pair l). intros xs. revert d.
  induction xs as [|x xs IH]; intros d Hxs; [done|]. apply Forall_cons in Hxs as [Hx Hxs].
  assert (Hlen : length (put32 (addr_off off x.1) x.2 d) = length d) by (by apply length_put32).
  cbn [foldl]. rewrite IH; [done|]. by rewrite Hlen.
Qed.
Lemma length_store_dinode off ip d :
  (length (i_addrs ip) <= 13)%nat -> (off + 64 <= length d)%nat -> length (store_dinode off ip d) = length d.
Proof.
  intros Ha Hd. unfold store_dinode.
  repeat first [rewrite length_store_addrs | rewrite length_put32 | rewrite length_put16]; lia.
Qed.
Lemma dinode_off_lt inum : (dinode_off inum + 64 <= 512)%nat.
Proof. unfold dinode_off. change IPB with 8. change sizeof_dinode with 64. zlia. Qed.


Ltac dlen := repeat first [rewrite length_put32 | rewrite length_put16]; lia.

(** Bytes outside the dinode at [off] keep their value. *)
Lemma slice_put32_ne off v l m k :
  (off + 4 <= length l)%nat -> (m + k <= off \/ off + 4 <= m)%nat ->
  take k (drop m (put32 off v l)) = take k (drop m l).
Proof. intros. unfold put32. by rewrite take_drop_splice_ne by (rewrite length_le_bytes; lia). Qed.
Lemma slice_put16_ne off v l m k :
  (off + 2 <= length l)%nat -> (m + k <= off \/ off + 2 <= m)%nat ->
  take k (drop m (put16 off v l)) = take k (drop m l).
Proof. intros. unfold put16. by rewrite take_drop_splice_ne by (rewrite length_le_bytes; lia). Qed.

Lemma get16_put16_ne off off' v l :
  (off + 2 <= length l)%nat -> (off' + 2 <= off \/ off + 2 <= off')%nat -> get16 off' (put16 off v l) = get16 off' l.
Proof. intros. unfold get16. by rewrite slice_put16_ne. Qed.
Lemma get16_put32_ne off off' v l :
  (off + 4 <= length l)%nat -> (off' + 2 <= off \/ off + 4 <= off')%nat -> get16 off' (put32 off v l) = get16 off' l.
Proof. intros. unfold get16. by rewrite slice_put32_ne. Qed.

(** The entries [j0, j0 + length l) of the address array. *)
Lemma store_addrs_from off l d j0 :
  (j0 + length l <= 13)%nat -> (off + 64 <= length d)%nat ->
  let d' := foldl (fun d ia => put32 (addr_off off (fst ia)) (snd ia) d) d (imap (fun j a => ((j0 + j)%nat, a)) l) in
  (forall m k, (m + k <= addr_off off j0 \/ addr_off off (j0 + length l) <= m)%nat ->
    take k (drop m d') = take k (drop m d)) /\
  (forall j a, l !! j = Some a -> get32 (addr_off off (j0 + j)) d' = u32 a).
Proof.
  unfold addr_off. revert d j0. induction l as [|a l IH]; intros d j0 Hl Hd; [done|]. cbn [length] in Hl.
  cbn [imap foldl length fst snd]. rewrite Nat.add_0_r.
  assert (E : imap (λ j a0, ((j0 + S j)%nat, a0)) l = imap (λ j a0, ((S j0 + j)%nat, a0)) l).
  { apply imap_ext. intros. f_equal. lia. }
  unfold compose. rewrite E.
  set (d1 := put32 (off + 12 + 4 * j0) a d).
  assert (Hd1 : length d1 = length d) by (apply length_put32; lia).
  destruct (IH d1 (S j0)) as [IH1 IH2]; [lia|lia|]. split.
  - intros m k Hmk. rewrite IH1 by lia. apply slice_put32_ne; lia.
  - intros [|j] x Hx; simplify_eq/=.
    + unfold get32. rewrite IH1 by lia. rewrite Nat.add_0_r. apply get_put32. lia.
    + replace (j0 + S j)%nat with (S j0 + j)%nat by lia. by apply IH2.
Qed.

Section dinode.
Context (off : nat) (ip : inode) (d : block).
Context (Hlen : length (i_addrs ip) = 13%nat) (Hd : (off + 64 <= length d)%nat).

Lemma store_dinode_frame m k : (m + k <= off \/ off + 64 <= m)%nat ->
  take k (drop m (store_dinode off ip d)) = take k (drop m d).
Proof using Hlen Hd.
  intros Hmk. unfold store_dinode, store_addrs.
  set (d5 := put32 _ _ _). assert (Hd5 : length d5 = length d).
  { unfold d5. dlen. }
  destruct (store_addrs_from off (i_addrs ip) d5 0) as [Hf _]; [lia|lia|].
  change (imap (fun j a => ((0 + j)%nat, a)) (i_addrs ip)) with (imap pair (i_addrs ip)) in Hf.
  rewrite Hf by (unfold addr_off; rewrite Hlen; lia). unfold d5.
  rewrite slice_put32_ne; [|dlen|lia].
  repeat (rewrite slice_put16_ne; [|dlen|lia]). done.
Qed.

Lemma load_store_dinode jp :
  load_dinode off (store_dinode off ip d) jp =
  mkinode (i_dev jp) (i_inum jp) (i_ref jp) (i_flags jp) (i16 (i_type ip)) (i16 (i_major ip)) (i16 (i_minor ip))
    (i16 (i_nlink ip)) (u32 (i_size ip)) (map u32 (i_addrs ip)).
Proof using Hlen Hd.
  unfold load_dinode, store_dinode, store_addrs.
  set (d5 := put32 _ _ _). assert (Hd5 : length d5 = length d).
  { unfold d5. dlen. }
  destruct (store_addrs_from off (i_addrs ip) d5 0) as [Hf Hget]; [lia|lia|].
  change (imap (fun j a => ((0 + j)%nat, a)) (i_addrs ip)) with (imap pair (i_addrs ip)) in Hf, Hget.
  set (d6 := foldl _ _ _) in *. unfold addr_off in Hf.
  assert (H16 : forall o, (o + 2 <= off + 12)%nat -> get16 o d6 = get16 o d5).
  { intros o Ho. unfold get16. by rewrite Hf by lia. }
  f_equal.
  1-4: rewrite H16 by lia; unfold d5; rewrite get16_put32_ne by dlen;
    repeat (rewrite get16_put16_ne by dlen); rewrite get_put16 by dlen; apply i16_u16.
  - unfold get32. rewrite Hf by lia. apply (get_put32 (off + 8)). dlen.
  - apply list_eq. intros j. rewrite list_lookup_fmap.
    destruct (decide (j < 13)%nat) as [Hj|Hj].
    + rewrite lookup_seq_lt by done. cbn. destruct (lookup_lt_is_Some_2 (i_addrs ip) j) as [a Ha]; [lia|].
      rewrite list_lookup_fmap, Ha. cbn. f_equal. by apply Hget.
    + rewrite lookup_seq_ge by lia. rewrite list_lookup_fmap, (lookup_ge_None_2 (i_addrs ip)) by lia. done.
Qed.
End dinode.

(** The fields fit their types ([short], [uint]). *)
Definition inode_range (ip : inode) : Prop :=
  (- 32768 <= i_type ip < 32768) /\ (- 32768 <= i_major ip < 32768) /\ (- 32768 <= i_minor ip < 32768) /\
  (- 32768 <= i_nlink ip < 32768) /\ (0 <= i_size ip < 2 ^ 32) /\ Forall (fun a => 0 <= a < 2 ^ 32) (i_addrs ip).

(** What [ilock] reads after [iupdate] wrote: the same inode. *)
Lemma load_store_same off ip d :
  length (i_addrs ip) = 13%nat -> (off + 64 <= length d)%nat -> inode_range ip ->
  load_dinode off (store_dinode off ip d) ip = ip.
Proof.
  intros Hlen Hd (H1 & H2 & H3 & H4 & H5 & H6). rewrite load_store_dinode by done.
  rewrite !i16_id, u32_id by lia. destruct ip; cbn in *. f_equal.
  clear Hlen. induction H6; cbn; f_equal; [apply u32_id; lia|done].
Qed.
