(* ===== verification/FsRw.v ===== *)
(** * Reading and writing a file: [readi] and [writei] *)

From S2P Require Import Prelude Params Disk Layout TxStore Fs FsBlocks FsFile FsInode.

(** ** Changing one data block of a file *)

Section data.
Context (F : key -> Prop) (v : tview) (sb : superblock) (ip : inode) (bn : Z) (d' : block).
Context (Hf : file_ok F v sb ip) (Ha : alloc_ok F v sb (i_dev ip)) (Hbn : 0 <= bn < MAXFILE).
Local Abbreviation a := (slot v ip (sidx bn)).
Context (Hnz : a <> 0) (Hd : length d' = Z.to_nat BSIZE).

Definition tv_data : tview := tv_commit (i_dev ip, a) d' v.

Lemma data_ok : block_ok F v sb (i_dev ip) a.
Proof using Hf Hbn Hnz. clear Hd. apply (fo_blocks _ _ _ _ Hf); [by apply sidx_ok|done]. Qed.

Lemma data_blk b : b <> a -> tv_blk tv_data (i_dev ip, b) = tv_blk v (i_dev ip, b).
Proof. intros. cbn. rewrite upd_ne; [done|congruence]. Qed.

Lemma data_slot k : (k < NSLOT)%nat -> slot tv_data ip k = slot v ip k.
Proof using Hf Hbn Hnz.
  clear Hd. intros Hk. unfold slot. destruct (decide (k < 13)%nat); [done|].
  destruct (Z.eqb_spec (i_addrs ip !!! 12%nat) 0) as [|Hi]; [done|]. f_equal. apply data_blk. intros E.
  destruct (sidx_ok bn Hbn) as [Hlt Hne]. apply Hne. symmetry.
  apply (fo_inj _ _ _ _ Hf); [unfold NSLOT; lia|done| |]; unfold slot at 1; rewrite decide_True by lia; done.
Qed.

Lemma data_used b : 0 <= b < sb_size sb -> used tv_data sb (i_dev ip) b = used v sb (i_dev ip) b.
Proof using Hf Hbn Hnz. clear Hd. intros Hb. unfold used. rewrite data_blk; [done|]. intros E. by apply (bk_meta _ _ _ _ _ data_ok b). Qed.

Lemma data_block_ok b : block_ok F v sb (i_dev ip) b -> block_ok F tv_data sb (i_dev ip) b.
Proof using Hf Hbn Hnz Hd.
  intros [H1 H2 H3 H4 H5 H6 H7]. split; try done; [rewrite data_used; [done|lia]|].
  destruct (decide (b = a)) as [->|]; [cbn; by rewrite upd_eq|by rewrite data_blk].
Qed.

Lemma data_file_ok : file_ok F tv_data sb ip.
Proof using Hf Hbn Hnz Hd.
  split; [apply Hf| |].
  - intros j Hj. rewrite data_slot by done. intros. by apply data_block_ok, (fo_blocks _ _ _ _ Hf).
  - intros j j' Hj Hj'. rewrite !data_slot by done. by apply (fo_inj _ _ _ _ Hf).
Qed.

Lemma data_alloc_ok : alloc_ok F tv_data sb (i_dev ip).
Proof using Hf Ha Hbn Hnz.
  clear Hd. pose proof Ha as [H1 H2 H3 H4 H5 H6 H7 H8]. pose proof (bk_range _ _ _ _ _ data_ok).
  split; [done|rewrite data_used; [done|lia]| | | | | |done].
  - intros b Hb. destruct (H3 b Hb) as (? & ? & ?). split_and!; [done..|].
    rewrite data_blk; [done|]. intros E. by apply (bk_meta _ _ _ _ _ data_ok b).
  - intros b Hb. rewrite data_used by done. by apply H4.
  - intros b b' Hb Hb'. rewrite data_used by done. by apply H5.
  - intros i Hi. destruct (H6 i Hi) as (? & ? & ?). split_and!; [done..|].
    rewrite data_blk; [done|]. intros E. by apply (bk_inode _ _ _ _ _ data_ok i).
  - intros b i Hb Hi. rewrite data_used by done. by apply H7.
Qed.

Lemma data_free : length (free_list tv_data sb (i_dev ip)) = length (free_list v sb (i_dev ip)).
Proof using Hf Hbn Hnz.
  clear Hd. unfold free_list. f_equal. apply filter_ext_elem. intros b Hb%elem_of_seqZ.
  rewrite data_used by lia. done.
Qed.

Lemma data_fblock bn' : 0 <= bn' < MAXFILE ->
  fblock tv_data ip bn' = if decide (bn' = bn) then d' else fblock v ip bn'.
Proof using Hf Hbn Hnz.
  clear Hd. intros Hbn'. destruct (sidx_ok bn' Hbn') as [Hlt _], (sidx_ok bn Hbn) as [Hlt2 _].
  unfold fblock. rewrite data_slot by done. case_decide as E.
  - subst. rewrite (proj2 (Z.eqb_neq a 0)) by done. cbn. by rewrite upd_eq.
  - destruct (Z.eqb_spec (slot v ip (sidx bn')) 0) as [|Hnz']; [done|]. apply data_blk. intros Heq.
    apply E, sidx_inj; [lia..|]. by apply (fo_inj _ _ _ _ Hf).
Qed.
End data.

(** ** Changing an inode block *)

Section meta.
Context (F : key -> Prop) (v : tview) (sb : superblock) (ip : inode) (inum : Z) (d' : block).
Context (Hf : file_ok F v sb ip) (Ha : alloc_ok F v sb (i_dev ip)) (Hin : 0 <= inum < sb_ninodes sb).
Context (Hd : length d' = Z.to_nat BSIZE).

Definition tv_meta : tview := tv_commit (i_dev ip, IBLOCK inum sb) d' v.

Lemma meta_blk b : b <> IBLOCK inum sb -> tv_blk tv_meta (i_dev ip, b) = tv_blk v (i_dev ip, b).
Proof. intros. cbn. rewrite upd_ne; [done|congruence]. Qed.
Lemma meta_used b : 0 <= b < sb_size sb -> used tv_meta sb (i_dev ip) b = used v sb (i_dev ip) b.
Proof using Ha Hin. clear Hd. intros Hb. unfold used. rewrite meta_blk; [done|]. by apply (ao_inode_bmap _ _ _ _ Ha). Qed.
Lemma meta_block_ok b : block_ok F v sb (i_dev ip) b ->
  block_ok F tv_meta sb (i_dev ip) b /\ tv_blk tv_meta (i_dev ip, b) = tv_blk v (i_dev ip, b).
Proof using Ha Hin.
  clear Hd. intros [H1 H2 H3 H4 H5 H6 H7].
  assert (Hb : tv_blk tv_meta (i_dev ip, b) = tv_blk v (i_dev ip, b)) by (apply meta_blk, H7, Hin).
  split; [|done]. split; try done; [rewrite meta_used; [done|lia]|by rewrite Hb].
Qed.
Lemma meta_slot k : (k < NSLOT)%nat -> slot tv_meta ip k = slot v ip k.
Proof using Hf Ha Hin.
  clear Hd. intros Hk. unfold slot. destruct (decide (k < 13)%nat); [done|].
  destruct (Z.eqb_spec (i_addrs ip !!! 12%nat) 0) as [|Hi]; [done|]. f_equal.
  apply meta_block_ok, (ind_ok F v sb ip Hf Hi).
Qed.
Lemma meta_file_ok : file_ok F tv_meta sb ip.
Proof using Hf Ha Hin.
  clear Hd. split; [apply Hf| |].
  - intros j Hj. rewrite meta_slot by done. intros. by apply meta_block_ok, (fo_blocks _ _ _ _ Hf).
  - intros j j' Hj Hj'. rewrite !meta_slot by done. by apply (fo_inj _ _ _ _ Hf).
Qed.
Lemma meta_alloc_ok : 0 < sb_size sb -> alloc_ok F tv_meta sb (i_dev ip).
Proof using Ha Hin Hd.
  intros Hsz. pose proof Ha as [H1 H2 H3 H4 H5 H6 H7 H8].
  split; [done|rewrite meta_used; [done|lia]| | | | | |done].
  - intros b Hb. destruct (H3 b Hb) as (? & ? & ?). split_and!; [done..|]. rewrite meta_blk; [done|]. by apply H8.
  - intros b Hb. rewrite meta_used by done. by apply H4.
  - intros b b' Hb Hb'. rewrite meta_used by done. by apply H5.
  - intros i Hi. destruct (H6 i Hi) as (? & ? & ?). split_and!; [done..|].
    destruct (decide (IBLOCK i sb = IBLOCK inum sb)) as [->|]; [cbn; by rewrite upd_eq|by rewrite meta_blk].
  - intros b i Hb Hi. rewrite meta_used by done. by apply H7.
Qed.
Lemma meta_free : length (free_list tv_meta sb (i_dev ip)) = length (free_list v sb (i_dev ip)).
Proof using Ha Hin.
  clear Hd. unfold free_list. f_equal. apply filter_ext_elem. intros b Hb%elem_of_seqZ. rewrite meta_used by lia. done.
Qed.
Lemma meta_fblock bn : 0 <= bn < MAXFILE -> fblock tv_meta ip bn = fblock v ip bn.
Proof using Hf Ha Hin.
  clear Hd. intros Hbn. destruct (sidx_ok bn Hbn) as [Hlt _]. unfold fblock. rewrite meta_slot by done.
  destruct (Z.eqb_spec (slot v ip (sidx bn)) 0) as [|Hnz]; [done|].
  by apply meta_block_ok, (fo_blocks _ _ _ _ Hf).
Qed.
End meta.

(** ** Bytes of a file *)

Lemma length_fblock F v sb ip bn : file_ok F v sb ip -> 0 <= bn < MAXFILE -> length (fblock v ip bn) = Z.to_nat BSIZE.
Proof.
  intros Hf Hbn. unfold fblock. destruct (Z.eqb_spec (slot v ip (sidx bn)) 0); [by rewrite length_replicate|].
  apply (bk_len _ _ _ _ _ (fo_blocks _ _ _ _ Hf (sidx bn) ltac:(by apply sidx_ok) ltac:(done))).
Qed.

(** The bytes [o, o + m) of the file. *)
Definition fbytes (v : tview) (ip : inode) (o m : Z) : list Z := map (fbyte v ip) (seqZ o m).

Lemma fbytes_lookup v ip o m (i : nat) : Z.of_nat i < m -> fbytes v ip o m !! i = Some (fbyte v ip (o + Z.of_nat i)).
Proof. intros Hi. unfold fbytes. rewrite list_lookup_fmap, lookup_seqZ_lt by lia. done. Qed.
Lemma length_fbytes v ip o m : length (fbytes v ip o m) = Z.to_nat m.
Proof. unfold fbytes. by rewrite length_map, length_seqZ. Qed.
Lemma fbytes_app v ip o m k : 0 <= m -> 0 <= k -> fbytes v ip o (m + k) = fbytes v ip o m ++ fbytes v ip (o + m) k.
Proof. intros. unfold fbytes. by rewrite seqZ_app, map_app by done. Qed.

(** A piece of a block is a piece of the file. *)
Lemma fbytes_slice v ip o m :
  0 <= o -> 0 <= m <= BSIZE - o mod BSIZE -> length (fblock v ip (o / BSIZE)) = Z.to_nat BSIZE ->
  take (Z.to_nat m) (drop (Z.to_nat (o mod BSIZE)) (fblock v ip (o / BSIZE))) = fbytes v ip o m.
Proof.
  change BSIZE with 512. intros Ho Hm Hlen. change (Z.to_nat 512) with 512%nat in Hlen.
  apply list_eq. intros i. destruct (decide (Z.of_nat i < m)) as [Hi|Hi].
  - rewrite fbytes_lookup by done. rewrite lookup_take, decide_True, lookup_drop by lia.
    unfold fbyte. change BSIZE with 512.
    replace ((o + Z.of_nat i) / 512) with (o / 512) by zlia.
    replace (Z.to_nat ((o + Z.of_nat i) mod 512)) with (Z.to_nat (o mod 512) + i)%nat by zlia.
    apply list_lookup_lookup_total_lt. rewrite Hlen. zlia.
  - rewrite lookup_take, decide_False by lia. symmetry. apply lookup_ge_None_2. rewrite length_fbytes. lia.
Qed.

Section rw.
Context {T : Type} `{!TxStore T}.
Implicit Types (s : fs T) (v : tview) (ip : inode) (F : key -> Prop).

Lemma set_tx_id s : set_tx (f_tx s) s = s.
Proof. by destruct s. Qed.
Lemma file_state_tx F n m s v i ip t : file_state F n m s v i ip -> trep F t v -> file_state F n m (set_tx t s) v i ip.
Proof. intros [H1 H2 H3 H4 H5 H6 H7] Ht. by split. Qed.

(** [bmap] on an allocated block only looks it up. *)
Lemma bmap_hit F n m s v i ip bn :
  file_state F n m s v i ip -> 0 <= bn < MAXFILE -> slot v ip (sidx bn) <> 0 ->
  wp (bmap i bn) (fun a s' => exists t', s' = set_tx t' s /\ trep F t' v /\ a = slot v ip (sidx bn)) s.
Proof.
  intros Hs Hbn Hnz. pose proof Hs as [Hi Ht Ha Hf Hsz Hbud Hfree].
  unfold bmap. change NDIRECT with 12. change NINDIRECT with 128. change MAXFILE with 140 in Hbn.
  assert (Hsx : sidx bn = if bn <? 12 then Z.to_nat bn else (13 + Z.to_nat (bn - 12))%nat).
  { unfold sidx. change NDIRECT with 12. destruct (Z.ltb_spec bn 12); lia. }
  pose proof (set_tx_id s) as Hself.
  rewrite Hsx in *. destruct (Z.ltb_spec bn 12) as [Hd|Hd].
  - unfold bmap_addr. apply wp_bind, (wp_geti _ _ _ ip Hi).
    assert (Hsl : i_addrs ip !!! Z.to_nat bn = slot v ip (Z.to_nat bn)) by (unfold slot; by rewrite decide_True by lia).
    rewrite Hsl, (proj2 (Z.eqb_neq _ 0)) by done. apply wp_ret. exists (f_tx s). by rewrite Hself.
  - rewrite (proj2 (Z.ltb_lt _ _)) by lia. set (b := Z.to_nat (bn - 12)) in *.
    assert (Hind : i_addrs ip !!! 12%nat <> 0).
    { intros E. apply Hnz. unfold slot. rewrite decide_False by lia. by rewrite E. }
    unfold bmap_addr. apply wp_bind, wp_bind, (wp_geti _ _ _ ip Hi).
    change (Z.to_nat 12) with 12%nat. rewrite (proj2 (Z.eqb_neq _ 0)) by done. apply wp_ret.
    apply wp_bind, (wp_geti _ _ _ ip Hi). set (ind := i_addrs ip !!! 12%nat) in *.
    pose proof (ind_ok F v (f_sb s) ip Hf Hind) as Hio.
    apply (wp_bread _ _ F _ v); [done|apply Hio|apply Hio|by eapply budget_room|]. intros bp t Hbp H1.
    apply (wp_bdata _ _ F _ (tv_read bp (i_dev ip, ind) v) bp (i_dev ip, ind) (tv_blk v (i_dev ip, ind))); [done|apply lookup_insert_eq|].
    assert (Hg : get32 (Z.to_nat (4 * (bn - 12))) (tv_blk v (i_dev ip, ind)) = slot v ip (13 + b)).
    { unfold slot. rewrite decide_False by lia. fold ind. rewrite (proj2 (Z.eqb_neq ind 0)) by done.
      replace (Z.to_nat (4 * (bn - 12))) with (4 * (13 + b - 13))%nat by lia. done. }
    rewrite Hg, (proj2 (Z.eqb_neq _ 0)) by done.
    apply wp_bind. apply (wp_brelse _ F _ (tv_read bp (i_dev ip, ind) v) bp (i_dev ip, ind) (tv_blk v (i_dev ip, ind)));
      [done|apply lookup_insert_eq|done|].
    intros t2 H2. rewrite release_read in H2 by done. apply wp_ret. by exists t2.
Qed.

(** Bytes [o, o + n) lie in allocated blocks. *)
Definition allocated v ip (o n : Z) : Prop := forall j, o <= j < o + n -> slot v ip (sidx (j / BSIZE)) <> 0.

Lemma readi_loop F s v i ip n off :
  file_state F 0 0 s v i ip -> 0 <= off -> off + n <= MAXFILE * BSIZE -> allocated v ip off n ->
  forall fuel tot t, 0 <= tot <= n -> (Z.to_nat (n - tot) < fuel)%nat -> trep F t v ->
  wp (loop fuel (readi_step i n) (tot, off + tot, fbytes v ip off tot)) (fun g s' =>
    exists t', s' = set_tx t' s /\ trep F t' v /\ g = fbytes v ip off n) (set_tx t s).
Proof.
  intros Hs Hoff Hmax Hall. change (MAXFILE * BSIZE) with 71680 in Hmax.
  induction fuel as [|fuel IH]; intros tot t Htot Hfuel Ht; [lia|].
  cbn [loop]. apply wp_bind. unfold readi_step.
  destruct (Z.ltb_spec tot n) as [Hlt|Hge].
  - pose proof (file_state_tx _ _ _ _ _ _ _ t Hs Ht) as Hs1.
    apply wp_bind, (wp_geti _ _ _ ip); [apply Hs1|].
    assert (Hbn : 0 <= (off + tot) / BSIZE < MAXFILE) by (change MAXFILE with 140; change BSIZE with 512; zlia).
    assert (Hnz : slot v ip (sidx ((off + tot) / BSIZE)) <> 0) by (apply Hall; lia).
    apply wp_bind. eapply wp_mono; [by apply (bmap_hit F 0 0 _ v i ip)|]. intros a s2 (t2 & -> & H2 & ->).
    pose proof (data_ok F v (f_sb s) ip _ (fs_file _ _ _ _ _ _ _ Hs) Hbn Hnz) as Hok.
    set (a := slot v ip _) in *.
    apply (wp_bread _ _ F _ v); [done|apply Hok|apply Hok|eapply budget_room, (fs_budget _ _ _ _ _ _ _ Hs)|].
    intros bp t3 Hbp H3.
    apply (wp_bdata _ _ F _ (tv_read bp (i_dev ip, a) v) bp (i_dev ip, a) (tv_blk v (i_dev ip, a))); [done|apply lookup_insert_eq|].
    apply wp_bind, (wp_brelse _ F _ (tv_read bp (i_dev ip, a) v) bp (i_dev ip, a) (tv_blk v (i_dev ip, a)));
      [done|apply lookup_insert_eq|done|].
    intros t4 H4. rewrite release_read in H4 by done. apply wp_ret.
    set (m := Z.min (n - tot) (BSIZE - (off + tot) mod BSIZE)).
    assert (Hm : 0 < m <= n - tot /\ m <= BSIZE - (off + tot) mod BSIZE) by (unfold m; change BSIZE with 512; zlia).
    assert (Hfb : tv_blk v (i_dev ip, a) = fblock v ip ((off + tot) / BSIZE)).
    { unfold fblock. fold a. by rewrite (proj2 (Z.eqb_neq a 0)). }
    rewrite Hfb, fbytes_slice by (lia || (eapply length_fblock; [apply (fs_file _ _ _ _ _ _ _ Hs)|done])).
    rewrite <-fbytes_app by lia. rewrite !u32_id by lia. rewrite <-Z.add_assoc.
    apply (IH (tot + m) t4); [lia..|done].
  - apply wp_ret, wp_ret. exists t. replace tot with n by lia. done.
Qed.

Lemma readi_wp devsw_read F s v i ip off n :
  file_state F 0 0 s v i ip -> i_type ip <> T_DEV -> 0 <= off < 2 ^ 32 -> 0 <= n < 2 ^ 32 ->
  0 <= i_size ip <= MAXFILE * BSIZE -> allocated v ip 0 (i_size ip) ->
  wp (readi devsw_read i off n) (fun r s' => exists t', s' = set_tx t' s /\ trep F t' v /\
    r = if (i_size ip <? off) || (2 ^ 32 <=? off + n) then (-1, [])
        else let n' := Z.min n (i_size ip - off) in (n', fbytes v ip off n')) s.
Proof.
  intros Hs Hty Hoff Hn Hsz Hall. unfold readi. apply wp_bind, (wp_geti _ _ _ ip); [apply Hs|].
  rewrite (proj2 (Z.eqb_neq _ T_DEV)) by done.
  assert (Hself : set_tx (f_tx s) s = s) by apply set_tx_id.
  assert (Hov : (u32 (off + n) <? off) = (2 ^ 32 <=? off + n)).
  { apply eq_bool_prop_intro. rewrite !Is_true_true, Z.ltb_lt, Z.leb_le. ulia. }
  rewrite Hov. destruct ((i_size ip <? off) || (2 ^ 32 <=? off + n)) eqn:E.
  - apply wp_ret. exists (f_tx s). rewrite Hself. split; [done|]. split; [apply Hs|done].
  - apply orb_false_iff in E as [E1%Z.ltb_ge E2%Z.leb_gt]. rewrite u32_id by lia.
    set (n' := if i_size ip <? off + n then i_size ip - off else n).
    assert (Hn' : n' = Z.min n (i_size ip - off)) by (unfold n'; destruct (Z.ltb_spec (i_size ip) (off + n)); lia).
    apply wp_bind. rewrite <-Hself. rewrite <-(Z.add_0_r off) at 1. change (@nil Z) with (fbytes v ip off 0).
    eapply wp_mono; [apply (readi_loop F s v i ip n' off); [done|lia|lia| |lia|lia|apply Hs]|].
    + intros j Hj. apply Hall. lia.
    + intros g s' (t' & -> & Ht' & ->). apply wp_ret. exists t'. rewrite Hself, <-Hn'. done.
Qed.

(** ** Writing *)

(** Bytes [lo, hi) of the file come from [src] (byte [o0] of the file is byte 0
    of [src]); the others are as before. *)
Record wrote (src : list Z) (o0 lo hi : Z) v ip v' ip' : Prop := {
  wt_ip : ip' = mkinode (i_dev ip) (i_inum ip) (i_ref ip) (i_flags ip) (i_type ip) (i_major ip) (i_minor ip)
    (i_nlink ip) (i_size ip) (i_addrs ip');
  wt_held : tv_held v' = tv_held v;
  wt_cap : tv_cap v' = tv_cap v;
  wt_slot : forall j, (j < NSLOT)%nat -> slot v ip j <> 0 -> slot v' ip' j = slot v ip j;
  wt_bytes : forall j, 0 <= j < MAXFILE * BSIZE ->
    fbyte v' ip' j = if decide (lo <= j < hi) then src !!! Z.to_nat (j - o0) else fbyte v ip j;
  wt_alloc : allocated v' ip' lo (hi - lo)
}.

Lemma splice_lookup (n : nat) (l' l : list Z) (i : nat) :
  (n + length l' <= length l)%nat ->
  splice n l' l !!! i = if decide (n <= i < n + length l')%nat then l' !!! (i - n)%nat else l !!! i.
Proof.
  intros Hn. rewrite splice_in by done. rewrite !list_lookup_total_alt.
  destruct (decide (i < n)%nat) as [H1|H1].
  - rewrite decide_False by lia. rewrite lookup_app_l by (rewrite length_take; lia).
    by rewrite lookup_take, decide_True by lia.
  - rewrite lookup_app_r by (rewrite length_take; lia). rewrite length_take, Nat.min_l by lia. case_decide as H2.
    + by rewrite lookup_app_l by lia.
    + rewrite lookup_app_r by lia. rewrite lookup_drop. do 2 f_equal. lia.
Qed.

(** One iteration: [m] bytes at [o = o0 + tot] within block [o / BSIZE]. *)
Lemma wrote_step F v sb ip src o0 tot m :
  let o := o0 + tot in let bn := o / BSIZE in
  file_ok F v sb ip -> slot v ip (sidx bn) <> 0 -> 0 <= o0 -> 0 <= tot -> 0 <= bn < MAXFILE ->
  0 < m <= BSIZE - o mod BSIZE -> tot + m <= Z.of_nat (length src) ->
  wrote src o0 o (o + m) v ip
    (tv_data v ip bn (splice (Z.to_nat (o mod BSIZE)) (take (Z.to_nat m) (drop (Z.to_nat tot) src)) (fblock v ip bn))) ip.
Proof.
  intros o bn Hf Hnz Ho0 Htot Hbn Hm Hsrc. set (chunk := take (Z.to_nat m) (drop (Z.to_nat tot) src)).
  assert (Hch : length chunk = Z.to_nat m) by (unfold chunk; rewrite length_take, length_drop; lia).
  pose proof (length_fblock F v sb ip bn Hf Hbn) as Hlb. change (Z.to_nat BSIZE) with 512%nat in Hlb.
  change BSIZE with 512 in *. change MAXFILE with 140 in *.
  split; try done; [by destruct ip| | |].
  - intros j Hj _. by apply (data_slot F v sb).
  - intros j Hj. change (MAXFILE * BSIZE) with 71680 in Hj. unfold fbyte. change BSIZE with 512.
    rewrite (data_fblock F v sb) by (done || (change MAXFILE with 140; zlia)).
    destruct (decide (j / 512 = bn)) as [E|E].
    + rewrite splice_lookup by (rewrite Hch, Hlb; zlia). rewrite Hch.
      destruct (decide (o <= j < o + m)) as [Hj'|Hj'].
      * rewrite decide_True by zlia. unfold chunk. rewrite !list_lookup_total_alt, lookup_take, decide_True by zlia.
        rewrite lookup_drop. do 2 f_equal. unfold o, bn in *. zlia.
      * rewrite decide_False by (unfold bn in *; zlia). by rewrite E.
    + rewrite decide_False by (unfold bn in *; zlia). done.
  - intros j Hj. change BSIZE with 512. replace (j / 512) with bn by (unfold bn in *; zlia).
    rewrite (data_slot F v sb) by (done || by apply sidx_ok). done.
Qed.

Lemma wrote_trans src o0 lo mid hi v ip v1 ip1 v2 ip2 :
  lo <= mid <= hi -> 0 <= lo -> hi <= MAXFILE * BSIZE ->
  wrote src o0 lo mid v ip v1 ip1 -> wrote src o0 mid hi v1 ip1 v2 ip2 -> wrote src o0 lo hi v ip v2 ip2.
Proof.
  intros Hr Hlo Hhi [A1 A2 A3 A4 A5 A6] [B1 B2 B3 B4 B5 B6].
  change (MAXFILE * BSIZE) with 71680 in *. split; [rewrite B1, A1; done|congruence|congruence| | |].
  - intros j Hj Hnz. rewrite B4, A4; [done..|]. by rewrite A4.
  - intros j Hj. rewrite B5, A5 by done. repeat case_decide; try done; lia.
  - intros j Hj. destruct (decide (j < mid)); [|apply B6; lia].
    assert (Hs : (sidx (j / BSIZE) < NSLOT)%nat).
    { apply sidx_ok. change MAXFILE with 140. change BSIZE with 512. zlia. }
    pose proof (A6 j ltac:(lia)) as Hnz. by rewrite B4.
Qed.

Lemma grown_wrote src o0 lo v ip v' ip' : grown v ip v' ip' -> wrote src o0 lo lo v ip v' ip'.
Proof.
  intros [H1 H2 H3 H4 H5]. split; try done.
  - intros j Hj. change (MAXFILE * BSIZE) with 71680 in *. rewrite decide_False by lia. unfold fbyte. rewrite H4; [done|].
    change MAXFILE with 140. change BSIZE with 512. zlia.
  - intros j Hj. lia.
Qed.

(** [bp = bread(...); memmove(...); log_write(bp); brelse(bp)] on data block [bn]. *)
Lemma write_block F n m s v i ip bn d' :
  file_state F (S n) m s v i ip -> 0 <= bn < MAXFILE -> slot v ip (sidx bn) <> 0 -> length d' = Z.to_nat BSIZE ->
  forall t, trep F t (tv_data v ip bn d') -> file_state F n m (set_tx t s) (tv_data v ip bn d') i ip.
Proof.
  intros [Hi Ht Ha Hf Hsz Hbud Hfree] Hbn Hnz Hd' t Ht'. split; try done.
  - by apply data_alloc_ok.
  - by apply data_file_ok.
  - by apply budget_commit.
  - cbn [f_sb set_tx]. by rewrite (data_free F).
Qed.

Lemma set_tx_with i ip t t' s : set_tx t' (with_inode i ip t s) = with_inode i ip t' s.
Proof. done. Qed.

(** The number of blocks that the bytes [o, e) touch. *)
Definition nrem (o e : Z) : nat := if o <? e then Z.to_nat ((e - 1) / 512 - o / 512 + 1) else 0%nat.

(** [bmap] as [bmap_wp], and nothing moves if the block is there already. *)
Lemma bmap_wp' F n m s v i ip bn :
  file_state F (6 + n) (2 + m) s v i ip -> 0 <= bn < MAXFILE ->
  wp (bmap i bn) (fun a s' => exists t' v' ip', s' = with_inode i ip' t' s /\
    file_state F n m s' v' i ip' /\ grown v ip v' ip' /\ a = slot v' ip' (sidx bn) /\ a <> 0 /\
    (slot v ip (sidx bn) <> 0 -> v' = v /\ ip' = ip)) s.
Proof.
  intros Hs Hbn. destruct (decide (slot v ip (sidx bn) = 0)) as [H0|Hnz].
  - eapply wp_mono; [by apply (bmap_wp F n m s v i ip)|]. intros a s' (t' & v' & ip' & ? & ? & ? & ? & ?).
    exists t', v', ip'. split_and!; done.
  - eapply wp_mono; [by eapply bmap_hit|]. intros a s' (t' & -> & Ht' & ->). exists t', v, ip.
    assert (E : set_tx t' s = with_inode i ip t' s).
    { unfold with_inode. rewrite list_insert_id by apply Hs. by destruct s. }
    rewrite <-E. split_and!; try done; [|apply grown_refl].
    eapply file_state_tx; [|done]. eapply file_state_weaken; [done|lia..].
Qed.

(** The inode and the inode blocks are as before. *)
Definition same_inode sb v ip v' ip' : Prop :=
  ip' = ip /\ forall inum, 0 <= inum < sb_ninodes sb -> tv_blk v' (i_dev ip, IBLOCK inum sb) = tv_blk v (i_dev ip, IBLOCK inum sb).

Lemma data_same_inode F v sb ip bn d' :
  file_ok F v sb ip -> 0 <= bn < MAXFILE -> slot v ip (sidx bn) <> 0 -> same_inode sb v ip (tv_data v ip bn d') ip.
Proof.
  intros Hf Hbn Hnz. split; [done|]. intros inum Hin. apply data_blk. intros E.
  by apply (bk_inode _ _ _ _ _ (data_ok F v sb ip bn Hf Hbn Hnz) inum).
Qed.

Lemma hit_same F sb v ip v1 ip1 o n m d' v' ip' :
  let bn := o / BSIZE in
  file_ok F v1 sb ip1 -> 0 <= bn < MAXFILE -> slot v1 ip1 (sidx bn) <> 0 ->
  (slot v ip (sidx bn) <> 0 -> v1 = v /\ ip1 = ip) ->
  (allocated (tv_data v1 ip1 bn d') ip1 (o + m) (n - m) -> same_inode sb (tv_data v1 ip1 bn d') ip1 v' ip') ->
  0 <= o -> 0 < m <= n -> o + n <= MAXFILE * BSIZE ->
  allocated v ip o n -> same_inode sb v ip v' ip'.
Proof.
  intros bn Hf Hbn Hnz Hhit Hrec Ho Hm Hmax Hall. change (MAXFILE * BSIZE) with 71680 in Hmax.
  destruct Hhit as [-> ->]; [apply Hall; lia|].
  destruct Hrec as [-> Hblk].
  - intros j Hj. rewrite (data_slot F v sb) by (done || (apply sidx_ok; change MAXFILE with 140; change BSIZE with 512; zlia)).
    apply Hall. lia.
  - split; [done|]. intros inum Hin. rewrite Hblk by done. by apply (data_same_inode F v sb ip bn).
Qed.

Lemma writei_loop F i src n o0 r m0 :
  0 <= o0 -> 0 <= n <= Z.of_nat (length src) -> o0 + n <= MAXFILE * BSIZE ->
  forall fuel tot s v ip, 0 <= tot <= n -> (Z.to_nat (n - tot) < fuel)%nat ->
  let K := nrem (o0 + tot) (o0 + n) in
  file_state F (7 * K + r) (2 * K + m0) s v i ip ->
  wp (loop fuel (writei_step i src n) (tot, o0 + tot)) (fun e s' => exists t' v' ip',
    s' = with_inode i ip' t' s /\ file_state F r m0 s' v' i ip' /\ e = o0 + n /\
    wrote src o0 (o0 + tot) (o0 + n) v ip v' ip' /\
    (allocated v ip (o0 + tot) (n - tot) -> same_inode (f_sb s) v ip v' ip')) s.
Proof.
  intros Ho0 Hn Hmax. change (MAXFILE * BSIZE) with 71680 in Hmax.
  induction fuel as [|fuel IH]; intros tot s v ip Htot Hfuel K Hs; [lia|].
  cbn [loop]. apply wp_bind. unfold writei_step. destruct (Z.ltb_spec tot n) as [Hlt|Hge].
  - assert (Hbn : 0 <= (o0 + tot) / BSIZE < MAXFILE) by (change MAXFILE with 140; change BSIZE with 512; zlia).
    set (m := Z.min (n - tot) (BSIZE - (o0 + tot) mod BSIZE)).
    assert (Hm : 0 < m <= n - tot /\ m <= BSIZE - (o0 + tot) mod BSIZE) by (unfold m; change BSIZE with 512; zlia).
    set (K' := nrem (o0 + (tot + m)) (o0 + n)).
    assert (HK : K = S K').
    { unfold K, K', nrem. change BSIZE with 512 in *. rewrite (proj2 (Z.ltb_lt _ _)) by lia.
      destruct (Z.ltb_spec (o0 + (tot + m)) (o0 + n)); unfold m in *; zlia. }
    apply wp_bind, (wp_geti _ _ _ ip); [apply Hs|].
    apply wp_bind. eapply wp_mono.
    { apply (bmap_wp' F (S (7 * K' + r)) (2 * K' + m0) s v i ip); [|done]. eapply file_state_weaken; [done|lia..]. }
    intros a s1 (t1 & v1 & ip1 & -> & Hs1 & Hg & -> & Hnz & Hhit).
    assert (Hdev : i_dev ip = i_dev ip1) by (by rewrite (gr_ip _ _ _ _ Hg)). rewrite Hdev.
    pose proof (data_ok F v1 _ ip1 _ (fs_file _ _ _ _ _ _ _ Hs1) Hbn Hnz) as Hok.
    apply (wp_rewrite _ _ F _ v1); [apply Hs1|apply Hok|apply Hok|eapply budget_room, (fs_budget _ _ _ _ _ _ _ Hs1)|
      pose proof (fs_budget _ _ _ _ _ _ _ Hs1) as []; lia|].
    intros t2 Ht2. fold m in Ht2. apply wp_ret.
    assert (Hfb : tv_blk v1 (i_dev ip1, slot v1 ip1 (sidx ((o0 + tot) / BSIZE))) = fblock v1 ip1 ((o0 + tot) / BSIZE)).
    { unfold fblock. by rewrite (proj2 (Z.eqb_neq _ 0)). }
    rewrite Hfb in Ht2. rewrite set_tx_with.
    eapply write_block in Ht2 as Hs2; [|apply Hs1|done..|].
    + rewrite set_tx_with in Hs2. rewrite !u32_id by lia. rewrite <-Z.add_assoc. eapply wp_mono; [apply IH; [lia..|exact Hs2]|].
      intros e s' (t' & v' & ip' & -> & Hs' & -> & Hw & Hsame). rewrite with_inode_twice in *. exists t', v', ip'.
      split_and!; try done.
      2: { eapply (hit_same F _ v ip v1 ip1 (o0 + tot) (n - tot) m); [apply Hs1|done..| |lia|lia|change (MAXFILE * BSIZE) with 71680; lia].
        intros Hrem. apply Hsame. by replace (n - (tot + m)) with (n - tot - m) by lia; rewrite Z.add_assoc. }
      eapply wrote_trans; [| | |by eapply grown_wrote|]; [lia|lia|change (MAXFILE * BSIZE) with 71680; lia|].
      eapply wrote_trans; [| | | |exact Hw]; [|lia|change (MAXFILE * BSIZE) with 71680; lia|]; [lia|].
      rewrite Z.add_assoc. eapply wrote_step; [apply Hs1|done|lia|lia|done|lia|lia].
    + rewrite length_splice; rewrite (length_fblock F v1 _ ip1 _ (fs_file _ _ _ _ _ _ _ Hs1) Hbn); [done|].
      change BSIZE with 512. zlia.
  - apply wp_ret, wp_ret. exists (f_tx s), v, ip. replace tot with n by lia.
    assert (K = 0%nat) as HK. { unfold K, nrem. destruct (Z.ltb_spec (o0 + tot) (o0 + n)); lia. } rewrite HK in Hs.
    split_and!; [|done|done|apply grown_wrote, grown_refl|done].
    unfold with_inode. rewrite list_insert_id by apply Hs. by destruct s.
Qed.

(** ** [iupdate] *)

Definition tv_inode v sb ip : tview :=
  tv_meta v sb ip (i_inum ip) (store_dinode (dinode_off (i_inum ip)) ip (tv_blk v (i_dev ip, IBLOCK (i_inum ip) sb))).

Lemma iupdate_wp F n m s v i ip :
  file_state F (S n) m s v i ip -> 0 <= i_inum ip < sb_ninodes (f_sb s) -> 0 < sb_size (f_sb s) ->
  wp (iupdate i) (fun _ s' => exists t', s' = set_tx t' s /\
    file_state F n m s' (tv_inode v (f_sb s) ip) i ip) s.
Proof.
  intros [Hi Ht Ha Hf Hsz Hbud Hfree] Hin Hpos. unfold iupdate. apply wp_bind, wp_get, wp_bind, (wp_geti _ _ _ ip Hi).
  destruct (ao_inode _ _ _ _ Ha (i_inum ip) Hin) as (HF & Hu & Hlen).
  apply (wp_rewrite_end _ F _ v); [done|done|done|by eapply budget_room|destruct Hbud; lia|].
  intros t' Ht'. exists t'. split; [done|].
  assert (Hl : length (store_dinode (dinode_off (i_inum ip)) ip (tv_blk v (i_dev ip, IBLOCK (i_inum ip) (f_sb s)))) = Z.to_nat BSIZE)
    by (rewrite length_store_dinode; [done|rewrite (fo_len _ _ _ _ Hf); lia|rewrite Hlen; apply dinode_off_lt]).
  split; try done.
  - by apply meta_alloc_ok.
  - by apply (meta_file_ok F).
  - by apply budget_commit.
  - cbn [f_sb set_tx]. unfold tv_inode. by rewrite (meta_free F).
Qed.

(** ** [writei] *)

(** The dinode on disk holds the fields of the inode. *)
Definition synced v sb ip : Prop :=
  load_dinode (dinode_off (i_inum ip)) (tv_blk v (i_dev ip, IBLOCK (i_inum ip) sb)) ip = ip.

Lemma addrs_range F v sb ip : file_ok F v sb ip -> sb_size sb < 2 ^ 32 -> Forall (fun a => 0 <= a < 2 ^ 32) (i_addrs ip).
Proof.
  intros Hf Hsz. apply Forall_lookup. intros j a Hj. pose proof (lookup_lt_Some _ _ _ Hj) as Hlt.
  rewrite (fo_len _ _ _ _ Hf) in Hlt. destruct (decide (a = 0)) as [->|Hnz]; [lia|].
  assert (E : slot v ip j = a) by (unfold slot; rewrite decide_True by lia; by apply list_lookup_total_correct).
  rewrite <-E in *. pose proof (bk_range _ _ _ _ _ (fo_blocks _ _ _ _ Hf j ltac:(unfold NSLOT; lia) Hnz)). lia.
Qed.

Lemma file_state_size F n m s v i ip t z :
  file_state F n m (with_inode i ip t s) v i ip -> file_state F n m (with_inode i (set_size z ip) t s) v i (set_size z ip).
Proof.
  intros [Hi Ht Ha Hf Hsz Hbud Hfree]. split; try done.
  - cbn in *. apply list_lookup_insert_Some. left. split_and!; [done..|].
    apply list_lookup_insert_Some in Hi. naive_solver eauto using lookup_lt_Some.
  - destruct Hf as [H1 H2 H3]. split; [done|exact H2|exact H3].
Qed.

Record written F (src : list Z) off n s v i ip s' v' ip' : Prop := {
  wn_slot : forall j, (j < NSLOT)%nat -> slot v ip j <> 0 -> slot v' ip' j = slot v ip j;
  wn_bytes : forall j, 0 <= j < MAXFILE * BSIZE ->
    fbyte v' ip' j = if decide (off <= j < off + n) then src !!! Z.to_nat (j - off) else fbyte v ip j;
  wn_alloc : allocated v' ip' 0 (i_size ip');
  wn_ip : ip' = mkinode (i_dev ip) (i_inum ip) (i_ref ip) (i_flags ip) (i_type ip) (i_major ip) (i_minor ip)
    (i_nlink ip) (Z.max (i_size ip) (off + n)) (i_addrs ip');
  wn_synced : synced v' (f_sb s) ip';
  wn_state : exists t', s' = with_inode i ip' t' s
}.

Lemma tv_inode_synced F v sb ip :
  file_ok F v sb ip -> length (tv_blk v (i_dev ip, IBLOCK (i_inum ip) sb)) = Z.to_nat BSIZE -> inode_range ip ->
  synced (tv_inode v sb ip) sb ip.
Proof.
  intros Hf Hlen Hrg. unfold synced, tv_inode, tv_meta. cbn [tv_blk tv_commit]. rewrite upd_eq.
  apply load_store_same; [apply Hf|rewrite Hlen; apply dinode_off_lt|done].
Qed.

(** No block below the old end or in the written range is missing. *)
Lemma wrote_alloc src off n v ip v' ip' :
  wrote src off off (off + n) v ip v' ip' -> allocated v ip 0 (i_size ip) ->
  0 <= off <= i_size ip -> i_size ip <= MAXFILE * BSIZE -> 0 <= n -> off + n <= MAXFILE * BSIZE ->
  allocated v' ip' 0 (Z.max (i_size ip) (off + n)).
Proof.
  intros [W1 W2 W3 W4 W5 W6] Hall Hoff Hsz Hn Hmax j Hj. change (MAXFILE * BSIZE) with 71680 in *.
  destruct (decide (off <= j < off + n)) as [H|H]; [apply W6; lia|].
  pose proof (Hall j ltac:(lia)) as Hnz. rewrite W4; [done| |done].
  apply sidx_ok. change MAXFILE with 140. change BSIZE with 512. zlia.
Qed.

Lemma written_keep F src off n s v i ip t v' ip' :
  wrote src off off (off + n) v ip v' ip' -> same_inode (f_sb s) v ip v' ip' -> allocated v ip 0 (i_size ip) ->
  0 <= off <= i_size ip -> i_size ip <= MAXFILE * BSIZE -> 0 <= n -> off + n <= i_size ip ->
  0 <= i_inum ip < sb_ninodes (f_sb s) -> synced v (f_sb s) ip ->
  written F src off n s v i ip (with_inode i ip' t s) v' ip'.
Proof.
  intros Hw [-> Hblk] Hall Hoff Hsz Hn Hle Hin Hsy. pose proof Hw as [W1 W2 W3 W4 W5 W6]. split; try done.
  - pose proof (wrote_alloc _ _ _ _ _ _ _ Hw Hall Hoff Hsz Hn ltac:(lia)) as H. by rewrite Z.max_l in H by lia.
  - rewrite Z.max_l by lia. by destruct ip.
  - unfold synced. by rewrite Hblk.
  - by exists t.
Qed.

Lemma written_grow F src off n s v i ip t v1 ip1 :
  wrote src off off (off + n) v ip v1 ip1 -> allocated v ip 0 (i_size ip) ->
  file_ok F v1 (f_sb s) ip1 -> alloc_ok F v1 (f_sb s) (i_dev ip1) -> inode_range ip -> sb_size (f_sb s) < 2 ^ 32 ->
  0 <= off <= i_size ip -> i_size ip <= MAXFILE * BSIZE -> i_size ip < off + n <= MAXFILE * BSIZE ->
  0 <= i_inum ip < sb_ninodes (f_sb s) ->
  let ip2 := set_size (off + n) ip1 in
  written F src off n s v i ip (with_inode i ip2 t s) (tv_inode v1 (f_sb s) ip2) ip2.
Proof.
  intros Hw Hall Hf Ha Hrg Hsb Hoff Hsz Hn Hin ip2. pose proof Hw as [W1 W2 W3 W4 W5 W6].
  pose proof (wrote_alloc _ _ _ _ _ _ _ Hw Hall Hoff Hsz ltac:(lia) ltac:(lia)) as Hall1. rewrite Z.max_r in Hall1 by lia.
  change (MAXFILE * BSIZE) with 71680 in *.
  assert (Hin1 : 0 <= i_inum ip1 < sb_ninodes (f_sb s)) by (rewrite W1; done).
  assert (Hf2 : file_ok F v1 (f_sb s) ip2) by (destruct Hf as [F1 F2 F3]; split; [exact F1|exact F2|exact F3]).
  assert (Hslot : forall j, (j < NSLOT)%nat -> slot (tv_inode v1 (f_sb s) ip2) ip2 j = slot v1 ip1 j).
  { intros j Hj. unfold tv_inode. by rewrite (meta_slot F) by done. }
  split.
  - intros j Hj Hnz. rewrite Hslot by done. by apply W4.
  - intros j Hj. rewrite <-W5 by done. unfold fbyte, tv_inode. change (MAXFILE * BSIZE) with 71680 in Hj.
    rewrite (meta_fblock F) by (done || (change MAXFILE with 140; change BSIZE with 512; zlia)). done.
  - intros j Hj. rewrite Hslot; [apply Hall1; cbn in Hj; lia|]. apply sidx_ok. cbn in Hj.
    change MAXFILE with 140. change BSIZE with 512. zlia.
  - rewrite Z.max_r by lia. unfold ip2. rewrite W1. done.
  - apply (tv_inode_synced F); [done|by apply (ao_inode _ _ _ _ Ha)|].
    destruct Hrg as (R1 & R2 & R3 & R4 & R5 & R6). unfold ip2, inode_range. rewrite W1. cbn. split_and!; try lia.
    by apply (addrs_range F v1 (f_sb s) ip1).
  - by exists t.
Qed.

Lemma writei_wp devsw_write F s v i ip src off n r m0 :
  file_state F (7 * nrem off (off + n) + S r) (2 * nrem off (off + n) + m0) s v i ip ->
  i_type ip <> T_DEV -> 0 <= i_inum ip < sb_ninodes (f_sb s) -> 0 < sb_size (f_sb s) ->
  inode_range ip -> i_size ip <= MAXFILE * BSIZE -> allocated v ip 0 (i_size ip) -> synced v (f_sb s) ip ->
  0 <= off < 2 ^ 32 -> 0 <= n < 2 ^ 32 -> n <= Z.of_nat (length src) ->
  wp (writei devsw_write i src off n) (fun res s' =>
    if (i_size ip <? off) || (MAXFILE * BSIZE <? off + n) then res = -1 /\ s' = s
    else res = n /\ exists v' ip', file_state F r m0 s' v' i ip' /\ written F src off n s v i ip s' v' ip') s.
Proof.
  intros Hs Hty Hin Hpos Hrg Hmax Hall Hsy Hoff Hn Hsrc. unfold writei. apply wp_bind, (wp_geti _ _ _ ip); [apply Hs|].
  rewrite (proj2 (Z.eqb_neq _ T_DEV)) by done. change (MAXFILE * BSIZE) with 71680 in *.
  destruct (Z.ltb_spec (i_size ip) off) as [|H1]; [by apply wp_ret|]. cbn [orb].
  destruct (Z.ltb_spec (u32 (off + n)) off) as [H2|H2].
  { apply wp_ret. rewrite (proj2 (Z.ltb_lt _ _)); [done|]. ulia. }
  assert (Hu : u32 (off + n) = off + n) by ulia. rewrite Hu.
  destruct (Z.ltb_spec 71680 (off + n)) as [|H3]; [by apply wp_ret|].
  apply wp_bind. rewrite <-(Z.add_0_r off) at 1. eapply wp_mono.
  { apply (writei_loop F i src n off (S r) m0); [lia|lia|change (MAXFILE * BSIZE) with 71680; lia|lia|lia|].
    by rewrite Z.add_0_r. }
  rewrite Z.add_0_r, Z.sub_0_r. intros e s1 (t1 & v1 & ip1 & -> & Hs1 & -> & Hw & Hsame).
  apply wp_bind, (wp_geti _ _ _ ip1); [apply Hs1|].
  assert (Hsz1 : i_size ip1 = i_size ip) by (by rewrite (wt_ip _ _ _ _ _ _ _ _ Hw)). rewrite Hsz1.
  pose proof (wt_ip _ _ _ _ _ _ _ _ Hw) as W1.
  destruct (Z.ltb_spec (i_size ip) (off + n)) as [H4|H4]; [rewrite (proj2 (Z.ltb_lt 0 n)) by lia; cbn [andb]|rewrite andb_false_r].
  - apply wp_bind. unfold updi. apply wp_bind, wp_modify.
    pose proof (updi_with (with_inode i ip1 t1 s) t1 (set_size (off + n)) i ip1 (fs_inode _ _ _ _ _ _ _ Hs1)) as E.
    change (set_tx t1 (with_inode i ip1 t1 s)) with (with_inode i ip1 t1 s) in E. rewrite E, with_inode_twice.
    eapply wp_mono; [apply (iupdate_wp F r m0 _ v1 i (set_size (off + n) ip1)); [by apply file_state_size|..]|].
    + cbn. by rewrite W1.
    + done.
    + intros [] s2 (t2 & -> & Hs2). apply wp_ret. split; [done|]. rewrite set_tx_with in *.
      exists (tv_inode v1 (f_sb s) (set_size (off + n) ip1)), (set_size (off + n) ip1).
      split; [exact Hs2|]. apply (written_grow F); try done;
        first [apply Hs1|change (MAXFILE * BSIZE) with 71680; lia].
  - apply wp_bind, wp_ret, wp_ret. split; [done|]. exists v1, ip1. split; [eapply file_state_weaken; [done|lia..]|].
    apply written_keep; try done; try lia. apply Hsame. intros j Hj. apply Hall. lia.
Qed.

(** ** What reading and writing do *)

(** [readi] on a file returns the bytes asked for, cut at the end of the
    file, and changes neither the inode nor any block; an offset beyond the end
    or an overflow of [off + n] is refused with -1. *)
Theorem readi_spec devsw_read F s v i ip off n :
  file_state F 0 0 s v i ip -> i_type ip <> T_DEV -> 0 <= off < 2 ^ 32 -> 0 <= n < 2 ^ 32 ->
  0 <= i_size ip <= MAXFILE * BSIZE -> allocated v ip 0 (i_size ip) ->
  wp (readi devsw_read i off n) (fun r s' => exists t', s' = set_tx t' s /\ trep F t' v /\
    r = if (i_size ip <? off) || (2 ^ 32 <=? off + n) then (-1, [])
        else let n' := Z.min n (i_size ip - off) in (n', fbytes v ip off n')) s.
Proof. apply readi_wp. Qed.

(** C4. [writei] on a file puts the [n] bytes at [off], grows the file to
    [off + n] if that is beyond its end, allocating what is missing, leaves
    every other byte, every other field of the inode and the layout of the file
    system intact, and brings the inode on disk up to date; an offset beyond
    the end or a file larger than [MAXFILE] blocks is refused with -1 and
    nothing changes. *)
Theorem writei_spec devsw_write F s v i ip src off n r m0 :
  file_state F (7 * nrem off (off + n) + S r) (2 * nrem off (off + n) + m0) s v i ip ->
  i_type ip <> T_DEV -> 0 <= i_inum ip < sb_ninodes (f_sb s) -> 0 < sb_size (f_sb s) ->
  inode_range ip -> i_size ip <= MAXFILE * BSIZE -> allocated v ip 0 (i_size ip) -> synced v (f_sb s) ip ->
  0 <= off < 2 ^ 32 -> 0 <= n < 2 ^ 32 -> n <= Z.of_nat (length src) ->
  wp (writei devsw_write i src off n) (fun res s' =>
    if (i_size ip <? off) || (MAXFILE * BSIZE <? off + n) then res = -1 /\ s' = s
    else res = n /\ exists v' ip', file_state F r m0 s' v' i ip' /\ written F src off n s v i ip s' v' ip') s.
Proof. apply writei_wp. Qed.

(** C16. Reading back what [writei] wrote gives the same bytes. *)
Theorem writei_readi devsw_read devsw_write F s v i ip src off n :
  file_state F (7 * nrem off (off + n) + 1) (2 * nrem off (off + n)) s v i ip ->
  i_type ip <> T_DEV -> 0 <= i_inum ip < sb_ninodes (f_sb s) -> 0 < sb_size (f_sb s) ->
  inode_range ip -> i_size ip <= MAXFILE * BSIZE -> allocated v ip 0 (i_size ip) -> synced v (f_sb s) ip ->
  0 <= off <= i_size ip -> 0 <= n -> off + n <= MAXFILE * BSIZE -> n <= Z.of_nat (length src) ->
  wp (w <-- writei devsw_write i src off n ;; r <-- readi devsw_read i off n ;; ret (w, r))
    (fun res _ => res = (n, (n, take (Z.to_nat n) src))) s.
Proof.
  intros Hs Hty Hin Hpos Hrg Hsz Hall Hsy Hoff Hn Hmax Hsrc. change (MAXFILE * BSIZE) with 71680 in *.
  apply wp_bind. eapply wp_mono.
  { apply (writei_wp devsw_write F s v i ip src off n 0 0); try done; try lia. by rewrite Nat.add_0_r. }
  intros w s' Hw. change (MAXFILE * BSIZE) with 71680 in *.
  rewrite (proj2 (Z.ltb_ge (i_size ip) off)), (proj2 (Z.ltb_ge 71680 (off + n))) in Hw by lia.
  destruct Hw as (-> & v' & ip' & Hs' & [H1 H2 H3 H4 H5 H6]).
  assert (Hsz' : i_size ip' = Z.max (i_size ip) (off + n)) by (by rewrite H4).
  apply wp_bind. eapply wp_mono.
  { apply (readi_wp devsw_read F s' v' i ip'); try done; [by rewrite H4|lia|lia|]. change (MAXFILE * BSIZE) with 71680. lia. }
  intros r s'' (t' & -> & _ & ->). apply wp_ret.
  rewrite (proj2 (Z.ltb_ge (i_size ip') off)), (proj2 (Z.leb_gt _ _)) by lia. cbn [orb].
  rewrite Z.min_l by lia. do 2 f_equal. apply list_eq. intros j.
  destruct (decide (Z.of_nat j < n)) as [Hj|Hj].
  - rewrite fbytes_lookup, lookup_take, decide_True by lia. rewrite H2, decide_True by (change (MAXFILE * BSIZE) with 71680; lia).
    rewrite list_lookup_lookup_total_lt by lia. do 2 f_equal. lia.
  - rewrite !lookup_ge_None_2; [done|rewrite length_take; lia|rewrite length_fbytes; lia].
Qed.
End rw.
