(* ===== verification/FsDemo.v ===== *)
(** * A small file-system image

    A disk of 64 blocks with one five-byte file, over the reference store; the
    theorems on blocks and files are applied to it. *)

From S2P Require Import Prelude Params Disk Layout TxStore Fs FsBlocks FsFile FsInode FsRw.

Module FsDemo.
#[local] Existing Instance TxIdeal.ideal_tx.

Definition sb : superblock := mksb 64 29 16 30 2 32 34.
Definition zero_block : block := replicate 512 0.
(** Blocks 0..34 (boot, superblock, log, inodes, bitmap) and 40 are in use. *)
Definition bitmap : block := splice 0 [255; 255; 255; 255; 7; 1] zero_block.
Definition sb_block : block :=
  foldl (fun d iv => put32 (4 * fst iv) (snd iv) d) zero_block (imap pair [64; 29; 16; 30; 2; 32; 34]).
Definition hello : list Z := [104; 101; 108; 108; 111].
Definition file : inode := mkinode 1 2 1 3 2 0 0 1 5 (40 :: replicate 12 0).

Definition disk : contents := fun k =>
  if snd k =? 1 then sb_block
  else if snd k =? 32 then store_dinode (dinode_off 2) file zero_block
  else if snd k =? 34 then bitmap
  else if snd k =? 40 then splice 0 hello zero_block
  else zero_block.
Definition view : tview := mktv disk ∅ ∅ 29.
Definition any : key -> Prop := fun _ => True.
Definition image : fs tview := mkfs sb false [file] [] view.

Lemma disk_len k : length (disk k) = Z.to_nat BSIZE.
Proof. unfold disk. repeat case_match; reflexivity. Qed.
Lemma view_used b : 0 <= b < 64 -> used view sb 1 b = (b <? 35) || (b =? 40).
Proof.
  intros Hb. assert (H : forallb (fun b => Bool.eqb (used view sb 1 b) ((b <? 35) || (b =? 40))) (seqZ 0 64) = true)
    by (vm_compute; reflexivity).
  rewrite forallb_forall in H. apply eqb_prop, H, list_elem_of_In, elem_of_seqZ. lia.
Qed.
Lemma view_alloc_ok : alloc_ok any view sb 1.
Proof.
  assert (HB : forall b, 0 <= b < 64 -> BBLOCK b sb = 34).
  { intros b Hb. unfold BBLOCK. change BPB with 4096. cbn [sb_bmapstart sb]. zlia. }
  assert (HI : forall i, 0 <= i < 16 -> 32 <= IBLOCK i sb <= 33).
  { intros i Hi. unfold IBLOCK. change IPB with 8. cbn [sb_inodestart sb]. zlia. }
  split; cbn [sb_size sb_ninodes sb].
  - lia.
  - by apply view_used.
  - intros b Hb. split_and!; [done|done|apply disk_len].
  - done.
  - intros b b' Hb Hb'. rewrite view_used, HB by done. lia.
  - intros i Hi. split_and!; [done|done|apply disk_len].
  - intros b i Hb Hi. rewrite view_used by done. specialize (HI i Hi). lia.
  - intros b i Hb Hi. rewrite HB by done. specialize (HI i Hi). lia.
Qed.
Lemma view_slot j : (j < NSLOT)%nat -> slot view file j = if decide (j = 0%nat) then 40 else 0.
Proof.
  intros Hj. unfold slot, NSLOT in *. destruct (decide (j < 13)%nat) as [H|H].
  - do 13 (destruct j as [|j]; [done|]). lia.
  - rewrite decide_False by lia. done.
Qed.
Lemma view_block_ok : block_ok any view sb 1 40.
Proof.
  split; [done..| |].
  - intros b Hb. unfold BBLOCK. change BPB with 4096. cbn [sb_bmapstart sb sb_size] in *. zlia.
  - intros i Hi. unfold IBLOCK. change IPB with 8. cbn [sb_inodestart sb sb_ninodes] in *. zlia.
Qed.
Lemma view_file_ok : file_ok any view sb file.
Proof.
  split; [done| |].
  - intros j Hj. rewrite view_slot by done. case_decide; [|done]. intros _. apply view_block_ok.
  - intros j j' Hj Hj'. rewrite !view_slot by done. repeat case_decide; congruence.
Qed.
Lemma image_state n m : (n <= 29)%nat -> (m <= 28)%nat -> file_state any n m image view 0 file.
Proof.
  intros Hn Hm. split; [done|done|apply view_alloc_ok|apply view_file_ok|done| |].
  - unfold budget. change (tv_cap view) with 29%nat. change nbuf with 30%nat.
    change (size (tv_held view)) with 0%nat. change (size (tv_log view)) with 0%nat. lia.
  - replace (length (free_list view (f_sb image) (i_dev file))) with 28%nat; [done|vm_compute; reflexivity].
Qed.
Lemma image_allocated : allocated view file 0 (i_size file).
Proof. intros j Hj. cbn in Hj. replace (j / BSIZE) with 0 by (change BSIZE with 512; zlia). by vm_compute. Qed.
Lemma image_synced : synced view sb file.
Proof. unfold synced. vm_compute. reflexivity. Qed.
Lemma file_range : inode_range file.
Proof. unfold inode_range. cbn. split_and!; try lia. repeat constructor; lia. Qed.
End FsDemo.
Import FsDemo.

(** ** The theorems on the image *)

Definition dev_read : Z -> option (nat -> Z -> M (fs tview) (Z * list Z)) := fun _ => None.
Definition dev_write : Z -> option (nat -> list Z -> Z -> M (fs tview) Z) := fun _ => None.
#[local] Existing Instance TxIdeal.ideal_tx.

Lemma balloc_spec_witness : exists b s', balloc 1 image = Ok b s' /\ first_free view sb 1 b.
Proof.
  pose proof (proj2 (balloc_spec any image view 1 view_alloc_ok eq_refl ltac:(vm_compute; lia) ltac:(vm_compute; lia))) as H.
  specialize (H ltac:(exists 35; split; [cbn; lia|by vm_compute])).
  unfold wp in H. destruct (balloc 1 image) as [b s'| | |]; [|done..].
  destruct H as (t' & v' & _ & _ & H & _). by exists b, s'.
Defined.

Lemma bfree_spec_witness : exists s', bfree 1 40 image = Ok tt s'.
Proof.
  pose proof (bfree_spec any image view 1 40 view_alloc_ok) as H.
  specialize (H ltac:(split_and!; [done|done|vm_compute; reflexivity]) eq_refl ltac:(cbn; lia)).
  specialize (H ltac:(vm_compute; lia) ltac:(vm_compute; lia)). destruct H as [_ H].
  specialize (H ltac:(by vm_compute)). unfold wp in H. destruct (bfree 1 40 image) as [[] s'| | |]; [by exists s'|done..].
Defined.

Lemma bmap_spec_witness : exists a s', bmap 0 20 image = Ok a s' /\ 0 < a < 64.
Proof.
  pose proof (bmap_spec any 0 0 image view 0 file 20 (image_state 6 2 ltac:(lia) ltac:(lia))
    ltac:(change MAXFILE with 140; lia)) as H.
  unfold wp in H. destruct (bmap 0 20 image) as [a s'| | |]; [|done..].
  destruct H as (t' & v' & ip' & _ & _ & _ & H & _). exists a, s'. by split.
Defined.

Lemma readi_spec_witness : exists s', readi dev_read 0 1 100 image = Ok (4, [101; 108; 108; 111]) s'.
Proof.
  pose proof (readi_spec dev_read any image view 0 file 1 100 (image_state 0 0 ltac:(lia) ltac:(lia))
    ltac:(done) ltac:(lia) ltac:(lia) ltac:(cbn; change (MAXFILE * BSIZE) with 71680; lia) image_allocated) as H.
  unfold wp in H. destruct (readi dev_read 0 1 100 image) as [r s'| | |]; [|done..].
  destruct H as (t' & _ & _ & ->). exists s'. vm_compute. reflexivity.
Defined.

Lemma writei_spec_witness : exists s' v' ip',
  writei dev_write 0 hello 5 5 image = Ok 5 s' /\ file_state any 0 0 s' v' 0 ip' /\ i_size ip' = 10.
Proof.
  pose proof (writei_spec dev_write any image view 0 file hello 5 5 0 0 (image_state 8 2 ltac:(lia) ltac:(lia))
    ltac:(done) ltac:(cbn; lia) ltac:(cbn; lia) file_range ltac:(cbn; change (MAXFILE * BSIZE) with 71680; lia)
    image_allocated image_synced ltac:(lia) ltac:(lia) ltac:(cbn; lia)) as H.
  unfold wp in H. destruct (writei dev_write 0 hello 5 5 image) as [r s'| | |]; [|done..].
  destruct H as (-> & v' & ip' & Hs' & Hw). exists s', v', ip'. split_and!; [done|done|].
  by rewrite (wn_ip _ _ _ _ _ _ _ _ _ _ _ Hw).
Defined.

Lemma writei_readi_witness : exists s',
  (w <-- writei dev_write 0 hello 3 5 ;; r <-- readi dev_read 0 3 5 ;; ret (w, r)) image = Ok (5, (5, hello)) s'.
Proof.
  pose proof (writei_readi dev_read dev_write any image view 0 file hello 3 5 (image_state 8 2 ltac:(lia) ltac:(lia))
    ltac:(done) ltac:(cbn; lia) ltac:(cbn; lia) file_range ltac:(cbn; change (MAXFILE * BSIZE) with 71680; lia)
    image_allocated image_synced ltac:(cbn; lia) ltac:(lia) ltac:(change (MAXFILE * BSIZE) with 71680; lia) ltac:(cbn; lia)) as H.
  unfold wp in H. destruct ((w <-- writei dev_write 0 hello 3 5 ;; _) image) as [r s'| | |]; [|done..].
  exists s'. by rewrite H.
Defined.
