(* ===== verification/Ulib.v ===== *)
(** * The user library: [ulib.c] and [printf.c]

    A C string is the list of its bytes before the NUL.  [read] is the system
    call: from a reader state it returns [None] on error and otherwise the
    bytes delivered (none at end of file). *)

From S2P Require Import Prelude Strings.

(** ** ulib.c *)

(** [while(( *s++ = *t++ ) != 0);] within [fuel] bytes. *)
Fixpoint strcpy_from (fuel : nat) (m : mem) (s t : Z) : option mem :=
  match fuel with
  | O => None
  | S f => let c := m t in
           let m := store m s c in
           if c =? 0 then Some m else strcpy_from f m (s + 1) (t + 1)
  end.
Definition strcpy (fuel : nat) (m : mem) (s t : Z) : option mem := strcpy_from fuel m s t.

Fixpoint strcmp (p q : list Z) : Z :=
  let a := hd 0 p in
  let b := hd 0 q in
  match p with
  | [] => a - b
  | _ :: p' => if negb (a =? 0) && (a =? b) then strcmp p' (tl q) else a - b
  end.

(** [memset] of the user library. *)
Definition umemset (m : mem) (dst c n : Z) : mem := stosb m dst c (Z.to_nat n).

(** The offset of the first [c] before the end of the string. *)
Fixpoint strchr (s : list Z) (c : Z) : option nat :=
  match s with
  | [] => None
  | x :: s' => if x =? 0 then None else if x =? c then Some O else option_map S (strchr s' c)
  end.

Fixpoint atoi_from (n : Z) (s : list Z) : Z :=
  match s with
  | [] => n
  | c :: s' => if (48 <=? c) && (c <=? 57) then atoi_from (i32 (n * 10 + c - 48)) s' else n
  end.
Definition atoi (s : list Z) : Z := atoi_from 0 s.

(** [while(n-- > 0) *dst++ = *src++;] whatever the regions. *)
Definition umemmove (m : mem) (dst src n : Z) : mem := copy_up m dst src (Z.to_nat n).

Section reader.
Context {R : Type} (read : R -> nat -> option (list Z) * R).

(** [gets(buf, max)]: the string left in [buf]. *)
Fixpoint gets_from (fuel : nat) (max : Z) (got : list Z) (r : R) : list Z * R :=
  match fuel with
  | O => (got, r)
  | S f =>
      if Z.of_nat (length got) + 1 <? max then
        match read r 1 with
        | (Some (c :: _), r) =>
            let got := got ++ [c] in
            if (c =? 10) || (c =? 13) then (got, r) else gets_from f max got r
        | (_, r) => (got, r)
        end
      else (got, r)
  end.
Definition ugets (max : Z) (r : R) : list Z * R := gets_from (Z.to_nat max) max [] r.
End reader.

(** A regular file at its offset: the bytes left. *)
Definition regular (rest : list Z) (n : nat) : option (list Z) * list Z := (Some (take n rest), drop n rest).

(** ** printf.c *)

Definition digits : list Z := str "0123456789ABCDEF".

(** [do buf[i++] = digits[x % base]; while((x /= base) != 0);]: the contents of
    [buf], last digit first. *)
Fixpoint printint_digits (fuel : nat) (x base : Z) (buf : list Z) : list Z :=
  match fuel with
  | O => buf
  | S f =>
      let buf := buf ++ [digits !!! Z.to_nat (x mod base)] in
      let x := x / base in
      if x =? 0 then buf else printint_digits f x base buf
  end.
(** The bytes left in [buf] by [printint(fd, xx, base, sgn)]. *)
Definition printint_buf (xx base : Z) (sgn : bool) : list Z :=
  let neg := sgn && (xx <? 0) in
  let x := if neg then u32 (- xx) else u32 xx in
  let buf := printint_digits 32 x base [] in
  if neg then buf ++ [45] else buf.
(** What it writes: [while(--i >= 0) putc(fd, buf[i]);]. *)
Definition printint (xx base : Z) (sgn : bool) : list Z := rev (printint_buf xx base sgn).

(** The argument words: a number, or the string a pointer refers to ([None]
    for a null pointer). *)
Inductive arg := Num (x : Z) | Str (s : option (list Z)).

Definition null_text : list Z := str "(null)".
(** [ *ap ] as an [int], a string, a character. *)
Definition arg_num (a : option arg) : Z := match a with Some (Num x) => x | _ => 0 end.
Definition arg_str (a : option arg) : list Z := match a with Some (Str (Some s)) => s | _ => null_text end.

(** One character of the format: the state, the arguments left, the output. *)
Definition printf_step (st : bool) (args : list arg) (c : Z) : bool * list arg * list Z :=
  if negb st then
    if c =? 37 then (true, args, []) else (false, args, [c])
  else if c =? 100 then (false, tl args, printint (i32 (arg_num (head args))) 10 true)
  else if (c =? 120) || (c =? 112) then (false, tl args, printint (i32 (arg_num (head args))) 16 false)
  else if c =? 115 then (false, tl args, arg_str (head args))
  else if c =? 99 then (false, tl args, [u8 (arg_num (head args))])
  else if c =? 37 then (false, args, [c])
  else (false, args, [37; c]).
Fixpoint printf_from (st : bool) (fmt : list Z) (args : list arg) : list Z :=
  match fmt with
  | [] => []
  | c :: fmt' => let '(st, args, out) := printf_step st args c in out ++ printf_from st fmt' args
  end.
Definition printf (fmt : list Z) (args : list arg) : list Z := printf_from false fmt args.

(** ** Numbers *)

(** The number written by the digits [s] after [n], in base 10. *)
Fixpoint dec_from (n : Z) (s : list Z) : Z :=
  match s with
  | [] => n
  | c :: s' => dec_from (n * 10 + (c - 48)) s'
  end.
Definition is_digit (c : Z) : Prop := 48 <= c <= 57.

Lemma dec_from_app n s s' : dec_from n (s ++ s') = dec_from (dec_from n s) s'.
Proof. revert n. induction s as [|c s IH]; intros n; cbn; [done|apply IH]. Qed.
Lemma dec_from_ge n s : Forall is_digit s -> 0 <= n -> n <= dec_from n s.
Proof.
  intros Hs. revert n. induction Hs as [|c s Hc _ IH]; intros n Hn; cbn; [lia|].
  unfold is_digit in Hc. etrans; [|apply IH]; lia.
Qed.
Lemma atoi_dec n s : Forall is_digit s -> 0 <= n -> dec_from n s < 2 ^ 31 -> atoi_from n s = dec_from n s.
Proof.
  intros Hs. revert n. induction Hs as [|c s Hc Hs IH]; intros n Hn Hlt; cbn; [done|]. cbn in Hlt. unfold is_digit in Hc.
  rewrite (proj2 (Z.leb_le 48 c)), (proj2 (Z.leb_le c 57)) by lia. cbn [andb].
  pose proof (dec_from_ge (n * 10 + (c - 48)) s Hs ltac:(lia)).
  rewrite i32_id by lia. replace (n * 10 + c - 48) with (n * 10 + (c - 48)) by lia. apply IH; lia.
Qed.

Lemma digit_dec d : 0 <= d < 10 -> digits !!! Z.to_nat d = 48 + d.
Proof.
  intros Hd. assert (H : forallb (fun d => digits !!! Z.to_nat d =? 48 + d) (seqZ 0 10) = true) by reflexivity.
  rewrite forallb_forall in H. apply Z.eqb_eq, H, list_elem_of_In, elem_of_seqZ. lia.
Qed.

(** The digits of [x < base ^ k]: at most [k], the last one first. *)
Lemma printint_digits_len fuel k x base buf :
  2 <= base -> 0 <= x < base ^ Z.of_nat k -> (1 <= k)%nat ->
  (length (printint_digits fuel x base buf) <= length buf + k)%nat.
Proof.
  intros Hb. revert k x buf. induction fuel as [|f IH]; intros k x buf Hx Hk; cbn [printint_digits]; [lia|].
  destruct (Z.eqb_spec (x / base) 0) as [|Hnz]; [rewrite length_app; cbn; lia|].
  destruct k as [|[|k]]; [lia| |].
  - exfalso. apply Hnz, Z.div_small. change (Z.of_nat 1) with 1 in Hx. lia.
  - assert (Hq : 0 <= x / base < base ^ Z.of_nat (S k)).
    { split; [apply Z.div_pos; lia|]. apply Z.div_lt_upper_bound; [lia|].
      rewrite <-Z.pow_succ_r by lia. rewrite <-Nat2Z.inj_succ. apply Hx. }
    specialize (IH (S k) (x / base) (buf ++ [digits !!! Z.to_nat (x mod base)]) Hq ltac:(lia)).
    rewrite length_app in IH. cbn in *. lia.
Qed.

Lemma printint_digits_dec fuel x buf :
  0 <= x < 10 ^ Z.of_nat fuel -> (1 <= fuel)%nat ->
  exists l, printint_digits fuel x 10 buf = buf ++ l /\ Forall is_digit l /\ dec_from 0 (rev l) = x.
Proof.
  revert x buf. induction fuel as [|f IH]; intros x buf Hx Hf; [lia|]. cbn [printint_digits].
  assert (Hm : 0 <= x mod 10 < 10) by (apply Z.mod_pos_bound; lia).
  rewrite digit_dec by done. destruct (Z.eqb_spec (x / 10) 0) as [H0|Hnz].
  - exists [48 + x mod 10]. split_and!; [done|repeat constructor; lia|]. cbn. zlia.
  - assert (Hq : 0 <= x / 10 < 10 ^ Z.of_nat f).
    { split; [apply Z.div_pos; lia|]. apply Z.div_lt_upper_bound; [lia|].
      rewrite <-Z.pow_succ_r by lia. rewrite <-Nat2Z.inj_succ. apply Hx. }
    destruct f as [|f]; [change (10 ^ Z.of_nat 0) with 1 in Hq; lia|].
    destruct (IH (x / 10) (buf ++ [48 + x mod 10]) Hq ltac:(lia)) as (l & -> & Hl & Hv).
    exists ((48 + x mod 10) :: l). split_and!; [by rewrite <-app_assoc|constructor; [unfold is_digit; lia|done]|].
    cbn [rev]. rewrite dec_from_app, Hv. cbn. zlia.
Qed.

(** The text of [printint] in base 10. *)
Lemma printint_dec x : - 2 ^ 31 <= x < 2 ^ 31 ->
  exists ds, Forall is_digit ds /\ dec_from 0 ds = Z.abs x /\ printint x 10 true = (if x <? 0 then 45 :: ds else ds).
Proof.
  intros Hx. unfold printint, printint_buf. cbn [andb].
  destruct (Z.ltb_spec x 0) as [Hn|Hn].
  - destruct (printint_digits_dec 32 (u32 (- x)) []) as (l & -> & Hl & Hv); [ulia|lia|].
    exists (rev l). rewrite u32_id in Hv by lia. split_and!; [by apply Forall_rev|lia|by rewrite rev_app_distr].
  - destruct (printint_digits_dec 32 (u32 x) []) as (l & -> & Hl & Hv); [ulia|lia|].
    exists (rev l). rewrite u32_id in Hv by lia. split_and!; [by apply Forall_rev|lia|done].
Qed.

(** [printint] and [atoi] are inverse: the text of a non-negative [int]
    reads back as that number, the text of a negative one is [-] followed by
    its absolute value (also for the smallest [int], whose negation overflows),
    and the digits always fit the 16 bytes of [buf], in base 10 and 16. *)
Theorem printint_atoi x : - 2 ^ 31 <= x < 2 ^ 31 ->
  (0 <= x -> atoi (printint x 10 true) = x) /\
  (x < 0 -> exists ds, printint x 10 true = 45 :: ds /\ Forall is_digit ds /\ dec_from 0 ds = - x) /\
  (length (printint_buf x 10 true) <= 11)%nat /\ (length (printint_buf x 16 false) <= 8)%nat.
Proof.
  intros Hx. destruct (printint_dec x Hx) as (ds & Hds & Hv & E). split_and!.
  - intros H. rewrite E, (proj2 (Z.ltb_ge x 0)) by lia. unfold atoi. rewrite atoi_dec by (done || lia). lia.
  - intros H. exists ds. rewrite E, (proj2 (Z.ltb_lt x 0)) by lia. split_and!; [done..|lia].
  - unfold printint_buf. cbn [andb].
    pose proof (printint_digits_len 32 10 (if x <? 0 then u32 (- x) else u32 x) 10 [] ltac:(lia)) as H.
    specialize (H ltac:(destruct (x <? 0); ulia) ltac:(lia)). cbn [length] in H.
    destruct (x <? 0); [rewrite length_app; cbn [length]|]; lia.
  - apply (printint_digits_len 32 8 (u32 x) 16 []); [lia|ulia|lia].
Qed.

Lemma printint_atoi_witness : atoi (printint 1234 10 true) = 1234.
Proof. apply (proj1 (printint_atoi 1234 ltac:(lia))). lia. Defined.

(** ** Formats *)

(** A format as its author thinks of it. *)
Inductive directive :=
  | DLit (c : Z)                     (* an ordinary character *)
  | DDec (x : Z)                     (* %d *)
  | DHex (x : Z) (p : bool)          (* %x, %p *)
  | DStr (s : option (list Z))       (* %s *)
  | DChr (x : Z)                     (* %c *)
  | DPct                             (* %% *)
  | DOther (c : Z).                  (* an unknown sequence *)

Definition known (c : Z) : bool := bool_decide (c ∈ [100; 120; 112; 115; 99; 37]).
Definition directive_ok (d : directive) : Prop :=
  match d with
  | DLit c => c <> 37
  | DOther c => known c = false
  | _ => True
  end.
Definition directive_fmt (d : directive) : list Z :=
  match d with
  | DLit c => [c]
  | DDec _ => str "%d"
  | DHex _ p => if p then str "%p" else str "%x"
  | DStr _ => str "%s"
  | DChr _ => str "%c"
  | DPct => str "%%"
  | DOther c => [37; c]
  end.
Definition directive_args (d : directive) : list arg :=
  match d with
  | DDec x | DHex x _ | DChr x => [Num x]
  | DStr s => [Str s]
  | _ => []
  end.
Definition directive_out (d : directive) : list Z :=
  match d with
  | DLit c => [c]
  | DDec x => printint (i32 x) 10 true
  | DHex x _ => printint (i32 x) 16 false
  | DStr s => default null_text s
  | DChr x => [u8 x]
  | DPct => str "%"
  | DOther c => [37; c]
  end.

Lemma printf_directive d fmt args : directive_ok d ->
  printf_from false (directive_fmt d ++ fmt) (directive_args d ++ args) = directive_out d ++ printf_from false fmt args.
Proof.
  destruct d as [c|x|x []|[s|]|x| |c]; intros Hok; cbn [directive_ok directive_fmt directive_args directive_out] in *; try reflexivity.
  - cbn [app printf_from]. unfold printf_step. cbn [negb]. by rewrite (proj2 (Z.eqb_neq c 37)).
  - unfold known in Hok. apply bool_decide_eq_false in Hok. rewrite !not_elem_of_cons in Hok.
    destruct Hok as (H1 & H2 & H3 & H4 & H5 & H6 & _). cbn [app printf_from printf_step negb].
    change (37 =? 37) with true. cbn [negb app]. unfold printf_step. cbn [negb].
    rewrite !(proj2 (Z.eqb_neq c _)) by done. done.
Qed.

(** [printf] prints a format the way its author means it: the output of a
    sequence of ordinary characters and directives is the concatenation of
    their texts, each directive taking its own argument; unknown directives
    are printed as they are and take none. *)
Theorem printf_spec ds : Forall directive_ok ds ->
  printf (flat_map directive_fmt ds) (flat_map directive_args ds) = flat_map directive_out ds.
Proof.
  intros Hds. unfold printf. induction Hds as [|d ds Hd Hds IH]; [done|].
  cbn [flat_map]. rewrite printf_directive by done. by rewrite IH.
Qed.

Lemma printf_spec_witness :
  printf (str "%d:%s%%") [Num 7; Str None] = str "7:(null)%".
Proof.
  apply (printf_spec [DDec 7; DLit 58; DStr None; DPct]). repeat constructor. done.
Defined.

(** ** Strings *)

Lemma strcmp_eq p q : Forall (fun c => c <> 0) p -> Forall (fun c => c <> 0) q -> strcmp p q = 0 <-> p = q.
Proof.
  intros Hp. revert q. induction Hp as [|a p Ha Hp IH]; intros q Hq; destruct Hq as [|b q Hb Hq]; cbn; try done.
  - split; [lia|done].
  - rewrite (proj2 (Z.eqb_neq a 0)) by done. cbn. destruct (Z.eqb_spec a 0); [done|].
    rewrite ?(proj2 (Z.eqb_neq a 0)) by done. split; [lia|done].
  - rewrite (proj2 (Z.eqb_neq a 0)) by done. cbn. destruct (Z.eqb_spec a b) as [->|Hab]; cbn.
    + rewrite IH by done. split; congruence.
    + split; [lia|congruence].
Qed.
(** The user [memmove] agrees with the kernel's unless the destination starts
    inside the source. *)
Lemma umemmove_eq m dst src n : wf_mem m -> 0 <= n -> ~ (src < dst < src + n) ->
  forall x, umemmove m dst src n x = memmove m dst src n x.
Proof.
  intros Hm Hn Hov x. rewrite memmove_at by done. unfold umemmove. rewrite copy_up_spec by (done || lia).
  by rewrite Z2Nat.id.
Qed.
