(* ===== verification/Console.v ===== *)
(** * console.c and kbd.c: console and keyboard

    Output goes to the serial port and to the CGA screen; input is a ring buffer
    with three free-running indices, filled by interrupts and emptied by
    [consoleread]. *)

From S2P Require Import Prelude Params Ulib.

Definition BACKSPACE : Z := 0x100.
Definition INPUT_BUF : Z := 128.
(** [C('P')], [C('U')], [C('H')], [C('D')] *)
Definition C_P : Z := 16.
Definition C_U : Z := 21.
Definition C_H : Z := 8.
Definition C_D : Z := 4.

Section console.
(** The rest of the kernel, with [iunlock] and [ilock]. *)
Context {E : Type} (c_iunlock c_ilock : nat -> M E unit).

(** [cons], [panicked], [input]; the screen memory [crt] with its cursor
    register, and the bytes sent to the serial port.  [c_woken] counts the calls
    of [wakeup(&input.r)]. *)
Record con := mkcon {
  c_lock : bool;
  locking : bool;
  panicked : bool;
  crt : Z -> Z;
  cursor : Z;
  uart : list Z;
  i_buf : list Z;
  i_r : Z;
  i_w : Z;
  i_e : Z;
  c_woken : nat;
  c_env : E
}.
Definition set_c_lock v s := mkcon v (locking s) (panicked s) (crt s) (cursor s) (uart s) (i_buf s) (i_r s) (i_w s) (i_e s) (c_woken s) (c_env s).
Definition set_locking v s := mkcon (c_lock s) v (panicked s) (crt s) (cursor s) (uart s) (i_buf s) (i_r s) (i_w s) (i_e s) (c_woken s) (c_env s).
Definition set_panicked v s := mkcon (c_lock s) (locking s) v (crt s) (cursor s) (uart s) (i_buf s) (i_r s) (i_w s) (i_e s) (c_woken s) (c_env s).
Definition set_screen v c s := mkcon (c_lock s) (locking s) (panicked s) v c (uart s) (i_buf s) (i_r s) (i_w s) (i_e s) (c_woken s) (c_env s).
Definition set_uart v s := mkcon (c_lock s) (locking s) (panicked s) (crt s) (cursor s) v (i_buf s) (i_r s) (i_w s) (i_e s) (c_woken s) (c_env s).
Definition set_i_buf v s := mkcon (c_lock s) (locking s) (panicked s) (crt s) (cursor s) (uart s) v (i_r s) (i_w s) (i_e s) (c_woken s) (c_env s).
Definition set_i_r v s := mkcon (c_lock s) (locking s) (panicked s) (crt s) (cursor s) (uart s) (i_buf s) v (i_w s) (i_e s) (c_woken s) (c_env s).
Definition set_i_w v s := mkcon (c_lock s) (locking s) (panicked s) (crt s) (cursor s) (uart s) (i_buf s) (i_r s) v (i_e s) (c_woken s) (c_env s).
Definition set_i_e v s := mkcon (c_lock s) (locking s) (panicked s) (crt s) (cursor s) (uart s) (i_buf s) (i_r s) (i_w s) v (c_woken s) (c_env s).
Definition set_c_woken v s := mkcon (c_lock s) (locking s) (panicked s) (crt s) (cursor s) (uart s) (i_buf s) (i_r s) (i_w s) (i_e s) v (c_env s).
Definition set_c_env v s := mkcon (c_lock s) (locking s) (panicked s) (crt s) (cursor s) (uart s) (i_buf s) (i_r s) (i_w s) (i_e s) (c_woken s) v.

Definition acquire : M con unit :=
  l <-- gets c_lock ;; if (l : bool) then panic "acquire" else modify (set_c_lock true).
Definition release : M con unit :=
  l <-- gets c_lock ;; if (l : bool) then modify (set_c_lock false) else panic "release".
Definition on_c_env {A} (m : M E A) : M con A := zoom c_env set_c_env m.
(** [for(;;);] *)
Definition spin {A} : M con A := fun _ => OutOfFuel.

(** ** Output *)

Definition uartputc (c : Z) : M con unit := modify (fun s => set_uart (uart s ++ [u8 c]) s).
(** A cell of the screen: the character, black on white. *)
Definition cell (c : Z) : Z := Z.lor (Z.land c 0xff) 0x0700.
Definition set_crt (crt : Z -> Z) (pos v : Z) : Z -> Z := fun i => if i =? pos then v else crt i.
(** [memmove(crt, crt+80, 2*23*80); pos -= 80; memset(crt+pos, 0, 2*(24*80-pos))] *)
Definition scroll (crt : Z -> Z) (pos : Z) : Z -> Z := fun i =>
  if (pos - 80 <=? i) && (i <? 24 * 80) then 0
  else if (0 <=? i) && (i <? 23 * 80) then crt (i + 80)
  else crt i.
Definition cgaputc (c : Z) : M con unit :=
  s <-- get ;;
  let pos := cursor s in
  let '(m, pos) :=
    if c =? 10 then (crt s, pos + (80 - pos mod 80))
    else if c =? BACKSPACE then (crt s, if 0 <? pos then pos - 1 else pos)
    else (set_crt (crt s) pos (cell c), pos + 1) in
  if (pos <? 0) || (25 * 80 <? pos) then panic "pos under/overflow"
  else
    let '(m, pos) := if 24 <=? pos / 80 then (scroll m pos, pos - 80) else (m, pos) in
    modify (set_screen (set_crt m pos (Z.lor 32 0x0700)) (Z.land pos 0xffff)).

Definition consputc (c : Z) : M con unit :=
  p <-- gets panicked ;;
  if (p : bool) then spin
  else
    (if c =? BACKSPACE then uartputc 8 ;;; uartputc 32 ;;; uartputc 8 else uartputc c) ;;;
    cgaputc c.

Definition kdigits : list Z := str "0123456789abcdef".
Fixpoint kprintint_digits (fuel : nat) (x base : Z) (buf : list Z) : list Z :=
  match fuel with
  | O => buf
  | S f =>
      let buf := buf ++ [kdigits !!! Z.to_nat (x mod base)] in
      let x := x / base in
      if x =? 0 then buf else kprintint_digits f x base buf
  end.
Definition kprintint (xx base : Z) (sign : bool) : M con unit :=
  let neg := sign && (xx <? 0) in
  let x := if neg then u32 (- xx) else u32 xx in
  let buf := kprintint_digits 32 x base [] in
  let buf := if neg then buf ++ [45] else buf in
  for_each (rev buf) consputc.

Fixpoint cprintf_from (fmt : list Z) (args : list arg) : M con unit :=
  match fmt with
  | [] => ret tt
  | c :: fmt' =>
      if negb (c =? 37) then consputc c ;;; cprintf_from fmt' args
      else match fmt' with
      | [] => ret tt
      | c :: fmt' =>
          if c =? 100 then kprintint (i32 (arg_num (head args))) 10 true ;;; cprintf_from fmt' (tl args)
          else if (c =? 120) || (c =? 112) then kprintint (i32 (arg_num (head args))) 16 false ;;; cprintf_from fmt' (tl args)
          else if c =? 115 then for_each (arg_str (head args)) (fun c => consputc (i8 c)) ;;; cprintf_from fmt' (tl args)
          else if c =? 37 then consputc 37 ;;; cprintf_from fmt' args
          else consputc 37 ;;; consputc c ;;; cprintf_from fmt' args
      end
  end.
(** [fmt]: [None] is a null pointer. *)
Definition cprintf (fmt : option (list Z)) (args : list arg) : M con unit :=
  lk <-- gets locking ;;
  (if (lk : bool) then acquire else ret tt) ;;;
  match fmt with
  | None => panic "null fmt"
  | Some fmt =>
      cprintf_from fmt args ;;;
      (if (lk : bool) then release else ret tt)
  end.
(** [panic], up to its endless loop; [id] is [cpu->id] and [pcs] the call
    stack. *)
Definition con_panic (id : Z) (s : list Z) (pcs : list Z) : M con unit :=
  modify (set_locking false) ;;;
  cprintf (Some (str "cpu%d: panic: ")) [Num id] ;;;
  cprintf (Some s) [] ;;;
  cprintf (Some [10]) [] ;;;
  for_each (take 10 pcs) (fun pc => cprintf (Some (str " %p")) [Num pc]) ;;;
  modify (set_panicked true).

(** ** Input *)

(** [input.buf[i % INPUT_BUF]] *)
Definition in_at (i : Z) (s : con) : Z := i_buf s !!! Z.to_nat (i mod INPUT_BUF).
(** The loop of [C('U')]. *)
Definition kill_step (u : unit) : M con (unit + unit) :=
  s <-- get ;;
  if negb (i_e s =? i_w s) && negb (in_at (u32 (i_e s - 1)) s =? 10) then
    modify (set_i_e (u32 (i_e s - 1))) ;;;
    consputc BACKSPACE ;;;
    ret (inl tt)
  else ret (inr tt).
(** The body of the loop of [consoleintr] for the character [c]. *)
Definition intr_char (c : Z) : M con unit :=
  if c =? C_P then ret tt
  else if c =? C_U then
    s <-- get ;;
    loop (S (Z.to_nat (u32 (i_e s - i_w s)))) kill_step tt
  else if (c =? C_H) || (c =? 0x7f) then
    s <-- get ;;
    if negb (i_e s =? i_w s) then
      modify (set_i_e (u32 (i_e s - 1))) ;;;
      consputc BACKSPACE
    else ret tt
  else
    s <-- get ;;
    if negb (c =? 0) && (u32 (i_e s - i_r s) <? INPUT_BUF) then
      let c := if c =? 13 then 10 else c in
      modify (set_i_buf (<[Z.to_nat (i_e s mod INPUT_BUF) := u8 c]> (i_buf s))) ;;;
      modify (set_i_e (u32 (i_e s + 1))) ;;;
      consputc c ;;;
      s <-- get ;;
      if (c =? 10) || (c =? C_D) || (i_e s =? u32 (i_r s + INPUT_BUF)) then
        modify (set_i_w (i_e s)) ;;;
        modify (set_c_woken (S (c_woken s)))
      else ret tt
    else ret tt.
(** [consoleintr(getc)], where [getc] returns the characters [cs] and then a
    negative number; the result says whether [procdump] is called at the end. *)
Definition consoleintr (cs : list Z) : M con bool :=
  acquire ;;;
  for_each cs intr_char ;;;
  release ;;;
  ret (existsb (fun c => c =? C_P) cs).

(** How a read ends: it returns, or sleeps on [&input.r]. *)
Inductive con_result := CReturned (r : Z) | CAsleep.
(** One turn of the outer loop of [consoleread]: [n] and the bytes stored. *)
Definition read_step (killed : bool) (ip : nat) (target : Z) (st : Z * list Z) : M con ((Z * list Z) + (con_result * list Z)) :=
  let '(n, got) := st in
  let finish n got := release ;;; on_c_env (c_ilock ip) ;;; ret (inr (CReturned (i32 (target - n)), got)) in
  if 0 <? n then
    s <-- get ;;
    if i_r s =? i_w s then
      if killed then release ;;; on_c_env (c_ilock ip) ;;; ret (inr (CReturned (-1), got))
      else release ;;; ret (inr (CAsleep, got))
    else
      let c := in_at (i_r s) s in
      modify (set_i_r (u32 (i_r s + 1))) ;;;
      if c =? C_D then
        (if n <? target then modify (fun s => set_i_r (u32 (i_r s - 1)) s) else ret tt) ;;;
        finish n got
      else if c =? 10 then finish (n - 1) (got ++ [c])
      else ret (inl (n - 1, got ++ [c]))
  else finish n got.
(** [consoleread] from the point where it takes the lock, with [n] bytes still
    to read: its call, or its continuation when the process is woken. *)
Definition consoleread_from (killed : bool) (ip : nat) (target n : Z) (got : list Z) : M con (con_result * list Z) :=
  acquire ;;;
  loop (S (Z.to_nat n)) (read_step killed ip target) (n, got).
Definition consoleread (killed : bool) (ip : nat) (n : Z) : M con (con_result * list Z) :=
  on_c_env (c_iunlock ip) ;;;
  consoleread_from killed ip n n [].
Definition consolewrite (ip : nat) (buf : list Z) (n : Z) : M con Z :=
  on_c_env (c_iunlock ip) ;;;
  acquire ;;;
  for_each (take (Z.to_nat n) buf) (fun c => consputc (Z.land c 0xff)) ;;;
  release ;;;
  on_c_env (c_ilock ip) ;;;
  ret n.
Definition consoleinit : M con unit :=
  modify (set_c_lock false) ;;;
  modify (set_locking true).
End console.
Arguments con E : clear implicits.

(** ** kbd.c *)

Definition KBS_DIB : Z := 1.
Definition SHIFT : Z := 1.
Definition CTL : Z := 2.
Definition ALT : Z := 4.
Definition CAPSLOCK : Z := 8.
Definition NUMLOCK : Z := 16.
Definition SCROLLLOCK : Z := 32.
Definition E0ESC : Z := 64.

(** A table of 256 bytes, given by its initialisers: the entries from 0 on, and
    single entries. *)
Fixpoint override (t : list Z) (l : list (Z * Z)) : list Z :=
  match l with
  | [] => t
  | (i, v) :: l' => override (<[Z.to_nat i := v]> t) l'
  end.
Definition table (init : list Z) (l : list (Z * Z)) : list Z := override (init ++ replicate (256 - length init) 0) l.

Definition shiftcode : list Z :=
  table [] [(0x1D, CTL); (0x2A, SHIFT); (0x36, SHIFT); (0x38, ALT); (0x9D, CTL); (0xB8, ALT)].
Definition togglecode : list Z := table [] [(0x3A, CAPSLOCK); (0x45, NUMLOCK); (0x46, SCROLLLOCK)].
(** The keys of the keypad and the cursor block, the same in all maps. *)
Definition key_block : list (Z * Z) :=
  [(0xC8, 0xE2); (0xD0, 0xE3); (0xC9, 0xE6); (0xD1, 0xE7); (0xCB, 0xE4); (0xCD, 0xE5); (0x97, 0xE0); (0xCF, 0xE1); (0xD2, 0xE8); (0xD3, 0xE9)].
Definition normalmap : list Z :=
  table ([0; 0x1B] ++ str "1234567890-=" ++ [8; 9] ++ str "qwertyuiop[]" ++ [10; 0] ++ str "asdfghjkl;'`" ++ [0; 92] ++ str "zxcvbnm,./" ++ [0; 42] ++
         [0; 32; 0; 0; 0; 0; 0; 0] ++ [0; 0; 0; 0; 0; 0; 0; 55] ++ str "89-456+1" ++ str "230." ++ [0; 0; 0; 0])
        ((0x9C, 10) :: (0xB5, 47) :: key_block).
Definition shiftmap : list Z :=
  table ([0; 27] ++ str "!@#$%^&*()_+" ++ [8; 9] ++ str "QWERTYUIOP{}" ++ [10; 0] ++ str "ASDFGHJKL:" ++ [34; 126; 0; 124] ++ str "ZXCVBNM<>?" ++ [0; 42] ++
         [0; 32; 0; 0; 0; 0; 0; 0] ++ [0; 0; 0; 0; 0; 0; 0; 55] ++ str "89-456+1" ++ str "230." ++ [0; 0; 0; 0])
        ((0x9C, 10) :: (0xB5, 47) :: key_block).
(** [C(x)], as a byte. *)
Definition ctl (s : string) : list Z := map (fun x => u8 (x - 64)) (str s).
Definition ctlmap : list Z :=
  table (replicate 16 0 ++ ctl "QWERTYUI" ++ ctl "OP" ++ [0; 0; 13; 0] ++ ctl "AS" ++ ctl "DFGHJKL" ++ [0] ++
         [0; 0; 0] ++ ctl "\ZXCV" ++ ctl "BNM" ++ [0; 0] ++ ctl "/" ++ [0; 0])
        ((0x9C, 13) :: (0xB5, u8 (47 - 64)) :: key_block).
Definition charcode : list (list Z) := [normalmap; shiftmap; ctlmap; ctlmap].

(** [kbdgetc]: the status port holds [st], the data port [data]; the static
    variable [shift] is the state. *)
Definition kbdgetc (st data : Z) : M Z Z :=
  if Z.land st KBS_DIB =? 0 then ret (-1)
  else
    shift <-- get ;;
    if data =? 0xE0 then modify (fun _ => Z.lor shift E0ESC) ;;; ret 0
    else if has data 0x80 then
      let data := if has shift E0ESC then data else Z.land data 0x7F in
      modify (fun _ => Z.ldiff shift (Z.lor (shiftcode !!! Z.to_nat data) E0ESC)) ;;;
      ret 0
    else
      let '(data, shift) := if has shift E0ESC then (Z.lor data 0x80, Z.ldiff shift E0ESC) else (data, shift) in
      let shift := Z.lor shift (shiftcode !!! Z.to_nat data) in
      let shift := Z.lxor shift (togglecode !!! Z.to_nat data) in
      modify (fun _ => shift) ;;;
      let c := (charcode !!! Z.to_nat (Z.land shift (Z.lor CTL SHIFT))) !!! Z.to_nat data in
      ret (if has shift CAPSLOCK then
             if (97 <=? c) && (c <=? 122) then c + (65 - 97)
             else if (65 <=? c) && (c <=? 90) then c + (97 - 65)
             else c
           else c).
