(* ===== verification/ConsoleSpec.v ===== *)
(** * The console refines a line discipline

    The ring buffer with its three 32-bit indices behaves as a queue of complete
    lines and a line being edited. *)

From S2P Require Import Prelude Params Ulib Console.

(** ** The line discipline *)

(** [t_ready]: what [consoleread] may return; [t_line]: the line being edited. *)
Record tty := mktty { t_ready : list Z; t_line : list Z }.
Definition rubout : list Z := [8; 32; 8].
Definition accepts (c : Z) (t : tty) : bool := negb (c =? 0) && (Z.of_nat (length (t_ready t ++ t_line t)) <? INPUT_BUF).
(** A character typed. *)
Definition tty_type (t : tty) (c : Z) : tty :=
  if c =? C_P then t
  else if c =? C_U then mktty (t_ready t) []
  else if (c =? C_H) || (c =? 127) then mktty (t_ready t) (removelast (t_line t))
  else if accepts c t then
    let c := if c =? 13 then 10 else c in
    let line := t_line t ++ [c] in
    if (c =? 10) || (c =? C_D) || (Z.of_nat (length (t_ready t ++ line)) =? INPUT_BUF) then mktty (t_ready t ++ line) []
    else mktty (t_ready t) line
  else t.
(** What is echoed. *)
Definition tty_echo (t : tty) (c : Z) : list Z :=
  if c =? C_P then []
  else if c =? C_U then concat (map (fun _ => rubout) (t_line t))
  else if (c =? C_H) || (c =? 127) then (if decide (t_line t = []) then [] else rubout)
  else if accepts c t then [if c =? 13 then 10 else c]
  else [].
Fixpoint tty_types (t : tty) (cs : list Z) : tty * list Z :=
  match cs with
  | [] => (t, [])
  | c :: cs' => let '(t', o) := tty_types (tty_type t c) cs' in (t', tty_echo t c ++ o)
  end.
(** Reading up to [n] bytes: the bytes, what is left, and whether the read is
    complete.  A line ends it; so does [C('D')], which a read that has already
    returned something leaves for the next one. *)
Fixpoint tty_take (n : nat) (fresh : bool) (l : list Z) : list Z * list Z * bool :=
  match n, l with
  | O, _ => ([], l, true)
  | S _, [] => ([], [], false)
  | S n', c :: l' =>
      if c =? C_D then ([], if fresh then l' else l, true)
      else if c =? 10 then ([c], l', true)
      else let '(g, rest, fin) := tty_take n' false l' in (c :: g, rest, fin)
  end.

Section spec.
Context {E : Type} (c_ilock : nat -> M E unit).
Implicit Types (s : con E) (t : tty).

Record inp (s : con E) (t : tty) : Prop := {
  in_len : length (i_buf s) = 128%nat;
  in_r : 0 <= i_r s < 2 ^ 32;
  in_w : i_w s = u32 (i_r s + Z.of_nat (length (t_ready t)));
  in_e : i_e s = u32 (i_r s + Z.of_nat (length (t_ready t ++ t_line t)));
  in_cap : Z.of_nat (length (t_ready t ++ t_line t)) <= 128;
  in_buf : forall j x, (t_ready t ++ t_line t) !! j = Some x -> i_buf s !! Z.to_nat ((i_r s + Z.of_nat j) mod 128) = Some x;
  in_nl : 10 ∉ t_line t;
  in_run : panicked s = false;
  in_cur : 0 <= cursor s < 1920
}.

(** ** Output *)

(** [o] is sent; nothing else changes but the screen. *)
Definition sends (o : list Z) (s s' : con E) : Prop :=
  exists m p, s' = set_screen m p (set_uart (uart s ++ o) s) /\ 0 <= p < 1920.
Lemma cgaputc_wp c s : 0 <= cursor s < 1920 ->
  wp (cgaputc c) (fun _ s' => exists m p, s' = set_screen m p s /\ 0 <= p < 1920) s.
Proof.
  intros Hc. unfold cgaputc. apply wp_bind, wp_get. set (x := if c =? 10 then _ else _).
  assert (Hx : 0 <= snd x <= 1920).
  { unfold x. destruct (c =? 10); cbn; [zlia|]. destruct (c =? BACKSPACE); cbn; [case_match; lia|lia]. }
  destruct x as [m pos]. cbn in Hx. rewrite (proj2 (Z.ltb_ge pos 0)), (proj2 (Z.ltb_ge _ pos)) by lia. cbn [orb].
  destruct (24 <=? pos / 80) eqn:Es; apply wp_modify; eexists _, _; (split; [done|]).
  - change 65535 with (Z.ones 16). rewrite Z.land_ones by lia. zlia.
  - change 65535 with (Z.ones 16). rewrite Z.land_ones by lia. zlia.
Qed.
Lemma consputc_wp c s : panicked s = false -> 0 <= cursor s < 1920 ->
  wp (consputc c) (fun _ s' => sends (if c =? BACKSPACE then rubout else [u8 c]) s s') s.
Proof.
  intros Hp Hc. unfold consputc, uartputc. apply wp_bind, wp_gets. rewrite Hp. destruct (c =? BACKSPACE); wp_steps.
  - eapply wp_mono; [by apply cgaputc_wp|]. intros [] s' (m & p & -> & Hp'). exists m, p. cbn. by rewrite <- !app_assoc.
  - eapply wp_mono; [by apply cgaputc_wp|]. intros [] s' (m & p & -> & Hp'). by exists m, p.
Qed.
Lemma sends_inp o s s' t : sends o s s' -> inp s t -> inp s' t.
Proof. intros (m & p & -> & Hp) []. by split. Qed.
Lemma sends_uart o s s' : sends o s s' -> uart s' = uart s ++ o.
Proof. by intros (m & p & -> & Hp). Qed.
Lemma sends_lock o s s' : sends o s s' -> c_lock s' = c_lock s.
Proof. by intros (m & p & -> & Hp). Qed.

(** ** cprintf *)

(** The digits of a number and the text of a format, as they are read. *)
Definition kint_text (xx base : Z) (sign : bool) : list Z :=
  let neg := sign && (xx <? 0) in
  (if neg then [45] else []) ++ rev (kprintint_digits 32 (if neg then u32 (- xx) else u32 xx) base []).
Fixpoint cprintf_text (fmt : list Z) (args : list arg) : list Z :=
  match fmt with
  | [] => []
  | c :: fmt' =>
      if negb (c =? 37) then c :: cprintf_text fmt' args
      else match fmt' with
      | [] => []
      | d :: fmt' =>
          if d =? 100 then kint_text (i32 (arg_num (head args))) 10 true ++ cprintf_text fmt' (tl args)
          else if (d =? 120) || (d =? 112) then kint_text (i32 (arg_num (head args))) 16 false ++ cprintf_text fmt' (tl args)
          else if d =? 115 then map u8 (arg_str (head args)) ++ cprintf_text fmt' (tl args)
          else if d =? 37 then 37 :: cprintf_text fmt' args
          else 37 :: d :: cprintf_text fmt' args
      end
  end.

Definition live s : Prop := panicked s = false /\ 0 <= cursor s < 1920.
Lemma sends_live o s s' : sends o s s' -> live s -> live s'.
Proof. intros (m & p & -> & Hp) [? ?]. done. Qed.
Lemma sends_nil s : live s -> sends [] s s.
Proof. intros [_ Hc]. exists (crt s), (cursor s). rewrite app_nil_r. by destruct s. Qed.
Lemma sends_app o1 o2 s s1 s2 : sends o1 s s1 -> sends o2 s1 s2 -> sends (o1 ++ o2) s s2.
Proof. intros (m1 & p1 & -> & _) (m2 & p2 & -> & H2). exists m2, p2. cbn. by rewrite app_assoc. Qed.
(** Sending [o1] and then [o2]. *)
Lemma sends_bind {A} o1 o2 (m1 : M (con E) unit) (m2 : M (con E) A) s : live s ->
  wp m1 (fun _ => sends o1 s) s -> (forall s1, live s1 -> wp m2 (fun _ => sends o2 s1) s1) ->
  wp (m1 ;;; m2) (fun _ => sends (o1 ++ o2) s) s.
Proof.
  intros Hs H1 H2. apply wp_bind. eapply wp_mono; [exact H1|]. intros [] s1 S1. cbn in *.
  eapply wp_mono; [apply H2; by eapply sends_live|]. intros a s2 S2. by eapply sends_app.
Qed.
Lemma char_wp c s : live s -> c <> BACKSPACE -> wp (consputc c) (fun _ => sends [u8 c] s) s.
Proof. intros [? ?] Hc. eapply wp_mono; [by apply consputc_wp|]. cbn. by rewrite (proj2 (Z.eqb_neq c BACKSPACE)). Qed.
Lemma chars_wp (f : Z -> Z) (l : list Z) s : live s -> Forall (fun c => f c <> BACKSPACE) l ->
  wp (for_each l (fun c => consputc (f c))) (fun _ => sends (map (fun c => u8 (f c)) l) s) s.
Proof.
  intros Hs Hl. revert s Hs. induction Hl as [|c l Hc Hl IH]; intros s Hs; [by apply wp_ret, sends_nil|].
  apply (sends_bind [_]); [done|by apply char_wp|by auto].
Qed.
Lemma kdigit_byte n : 0 <= kdigits !!! n < 256.
Proof. do 16 (destruct n as [|n]; [done|]). by destruct n. Qed.
Lemma kprintint_digits_byte f x base buf : Forall (fun c => 0 <= c < 256) buf ->
  Forall (fun c => 0 <= c < 256) (kprintint_digits f x base buf).
Proof.
  revert x buf. induction f as [|f IH]; intros x buf Hb; [done|]. cbn [kprintint_digits].
  assert (Hb' : Forall (fun c => 0 <= c < 256) (buf ++ [kdigits !!! Z.to_nat (x mod base)])).
  { apply Forall_app. split; [done|]. constructor; [apply kdigit_byte|done]. }
  case_match; [done|by apply IH].
Qed.
Lemma kint_text_byte xx base sign : Forall (fun c => 0 <= c < 256) (kint_text xx base sign).
Proof.
  apply Forall_app. split; [case_match; by repeat constructor|].
  apply Forall_rev. by apply kprintint_digits_byte.
Qed.
Lemma map_u8 l : Forall (fun c => 0 <= c < 256) l -> map u8 l = l.
Proof. induction 1 as [|c l Hc Hl IH]; [done|]. cbn. by rewrite u8_id, IH. Qed.
Lemma kprintint_wp xx base sign s : live s -> wp (kprintint xx base sign) (fun _ => sends (kint_text xx base sign) s) s.
Proof.
  intros Hs. pose proof (kint_text_byte xx base sign) as Hb. unfold kprintint.
  replace (rev _) with (kint_text xx base sign) by (unfold kint_text; case_match; by rewrite ?rev_app_distr).
  eapply wp_mono; [apply (chars_wp (fun c => c)); [done|]|].
  - eapply Forall_impl; [exact Hb|]. cbn. unfold BACKSPACE. lia.
  - intros [] s'. cbn. by rewrite map_u8.
Qed.
Lemma cprintf_from_wp fmt args s : Forall (fun c => 0 <= c < 256) fmt -> live s ->
  wp (cprintf_from fmt args) (fun _ => sends (cprintf_text fmt args) s) s.
Proof.
  remember (length fmt) as n eqn:Hn. revert fmt args s Hn.
  induction (lt_wf n) as [n _ IH]. intros fmt args s Hn Hf Hs.
  destruct Hf as [|c fmt Hc Hf]; [by apply wp_ret, sends_nil|]. cbn [cprintf_from cprintf_text].
  assert (Hput : forall c s, 0 <= c < 256 -> live s -> wp (consputc c) (fun _ => sends [c] s) s).
  { intros x s' Hx Hs'. eapply wp_mono; [apply char_wp; [done|unfold BACKSPACE; lia]|]. cbn. by rewrite u8_id. }
  destruct (Z.eqb_spec c 37) as [->|]; cbn [negb].
  2:{ apply (sends_bind [c]); [done|by apply Hput|]. intros s1 Hs1. eapply IH; [|done..]. cbn in Hn. lia. }
  destruct Hf as [|d fmt Hd Hf]; [by apply wp_ret, sends_nil|].
  assert (Hrest : forall args s, live s -> wp (cprintf_from fmt args) (fun _ => sends (cprintf_text fmt args) s) s).
  { intros a s1 Hs1. eapply IH; [|done..]. cbn in Hn. lia. }
  destruct (d =? 100); [apply sends_bind; auto using kprintint_wp|].
  destruct ((d =? 120) || (d =? 112)); [apply sends_bind; auto using kprintint_wp|].
  destruct (d =? 115).
  { apply sends_bind; [done| |auto]. replace (map u8 (arg_str (head args))) with (map (fun c => u8 (i8 c)) (arg_str (head args))).
    - apply chars_wp; [done|]. apply Forall_forall. intros x _. unfold BACKSPACE. ulia.
    - apply map_ext. intros x. ulia. }
  destruct (d =? 37); [apply (sends_bind [37]); auto; by apply Hput|].
  apply (sends_bind [37]); [done|by apply Hput|]. intros s1 Hs1. apply (sends_bind [d]); auto.
Qed.

(** [cprintf] prints its format: every character, [%d], [%x] and [%p] as a number,
    [%s] as a string or [(null)], [%%] as itself, and an unknown directive as it
    stands.  The console lock is free again. *)
Theorem cprintf_spec fmt args s : Forall (fun c => 0 <= c < 256) fmt -> live s -> c_lock s = false ->
  exists s', cprintf (Some fmt) args s = Ok tt s' /\ uart s' = uart s ++ cprintf_text fmt args /\
    c_lock s' = false /\ live s'.
Proof.
  intros Hf Hs Hl. assert (Hw : wp (cprintf (Some fmt) args) (fun _ s' => uart s' = uart s ++ cprintf_text fmt args /\ c_lock s' = false /\ live s') s).
  2:{ apply wp_ok in Hw as ([] & s' & E1 & H). by exists s'. }
  unfold cprintf, acquire, release. apply wp_bind, wp_gets. destruct (locking s).
  - apply wp_bind, wp_bind, wp_gets. rewrite Hl. apply wp_modify, wp_bind.
    eapply wp_mono; [by apply cprintf_from_wp|]. intros [] s1 (m & p & -> & Hp).
    apply wp_bind, wp_gets, wp_modify. split_and!; [done..|]. by destruct Hs.
  - apply wp_bind, wp_ret, wp_bind. eapply wp_mono; [by apply cprintf_from_wp|]. intros [] s1 (m & p & -> & Hp).
    apply wp_ret. split_and!; [done..|]. by destruct Hs.
Qed.

(** ** Input *)

Lemma e_eq_w s t : inp s t -> (i_e s =? i_w s) = bool_decide (t_line t = []).
Proof.
  intros [Hl Hr Hw He Hcap Hb Hn Hp Hc]. rewrite He, Hw, length_app, Nat2Z.inj_add in *.
  destruct (t_line t) as [|x l] eqn:El; cbn [length] in *.
  - rewrite Z.add_0_r, Z.eqb_refl. done.
  - rewrite bool_decide_false by done. apply Z.eqb_neq. ulia.
Qed.
Lemma u32_mod128 x : u32 x mod 128 = x mod 128.
Proof. ulia. Qed.
Lemma u32_pred x : u32 (u32 (x + 1) - 1) = u32 x.
Proof. ulia. Qed.
Lemma u32_diff x b : 0 <= b < 2 ^ 32 -> u32 (u32 (x + b) - u32 x) = b.
Proof. intros. ulia. Qed.
Lemma u32_diff_l x b : 0 <= x < 2 ^ 32 -> 0 <= b < 2 ^ 32 -> u32 (u32 (x + b) - x) = b.
Proof. intros. rewrite <- (u32_id x) at 2 by done. by apply u32_diff. Qed.
Lemma u32_eqb x a b : 0 <= a < 2 ^ 32 -> 0 <= b < 2 ^ 32 -> (u32 (x + a) =? u32 (x + b)) = (a =? b).
Proof.
  intros. destruct (Z.eqb_spec a b) as [->|Hne]; [apply Z.eqb_refl|]. apply Z.eqb_neq. ulia.
Qed.
Lemma inp_shift s t j x : inp s t -> (t_ready t ++ t_line t) !! j = Some x ->
  in_at (u32 (i_r s + Z.of_nat j)) s = x.
Proof.
  intros Hi Hj. unfold in_at. change INPUT_BUF with 128. rewrite u32_mod128. apply list_lookup_total_correct. by apply Hi.
Qed.
(** The last character of the line is rubbed out. *)
Lemma inp_rub s t l x : inp s t -> t_line t = l ++ [x] -> inp (set_i_e (u32 (i_e s - 1)) s) (mktty (t_ready t) l).
Proof.
  intros [Hl Hr Hw He Hcap Hb Hn Hp Hc] El. rewrite El, app_assoc, length_app in *. cbn [length] in *.
  split; cbn [i_buf i_r i_w i_e panicked cursor set_i_e t_ready t_line]; try done.
  - rewrite He. ulia.
  - lia.
  - intros j y Hj. apply Hb. by apply lookup_app_l_Some.
  - intros Hin. apply Hn. set_solver.
Qed.
(** A character is stored after those in the buffer. *)
Lemma inp_store s q c j x : length (i_buf s) = 128%nat -> 0 <= i_r s < 2 ^ 32 -> Z.of_nat (length q) < 128 ->
  (forall j x, q !! j = Some x -> i_buf s !! Z.to_nat ((i_r s + Z.of_nat j) mod 128) = Some x) ->
  (q ++ [c]) !! j = Some x ->
  <[Z.to_nat (u32 (i_r s + Z.of_nat (length q)) mod 128) := c]> (i_buf s) !! Z.to_nat ((i_r s + Z.of_nat j) mod 128) = Some x.
Proof.
  intros Hl Hr Hq Hb Hj. rewrite u32_mod128.
  assert (Hm : forall y, 0 <= y mod 128 < 128) by (intros; apply Z.mod_pos_bound; lia).
  apply lookup_app_Some in Hj as [Hj|[Hle Hj]].
  - pose proof (lookup_lt_Some _ _ _ Hj). rewrite list_lookup_insert_ne; [by apply Hb|].
    intros E1. apply Z2Nat.inj in E1; [|apply Hm..]. zlia.
  - destruct (j - length q)%nat as [|k] eqn:Ej; [|done]. injection Hj as [= <-].
    replace j with (length q) by lia. apply list_lookup_insert_eq. rewrite Hl.
    pose proof (Hm (i_r s + Z.of_nat (length q))). lia.
Qed.
Lemma inp_type s t c : inp s t -> Z.of_nat (length (t_ready t ++ t_line t)) < 128 -> c <> 10 ->
  inp (set_i_e (u32 (i_e s + 1)) (set_i_buf (<[Z.to_nat (i_e s mod 128) := c]> (i_buf s)) s)) (mktty (t_ready t) (t_line t ++ [c])).
Proof.
  intros [Hl Hr Hw He Hcap Hb Hn Hp Hc] Hlt Hc10.
  split; cbn [i_buf i_r i_w i_e panicked cursor set_i_e set_i_buf t_ready t_line]; try done.
  - by rewrite length_insert.
  - rewrite app_assoc, (length_app (_ ++ _)), He. cbn [length]. ulia.
  - rewrite app_assoc, (length_app (_ ++ _)). cbn [length]. lia.
  - rewrite app_assoc. intros j x Hj. rewrite He. by apply inp_store.
  - set_solver.
Qed.
(** ... and the line is handed over. *)
Lemma inp_commit s t c : inp s t -> Z.of_nat (length (t_ready t ++ t_line t)) < 128 ->
  let s' := set_i_e (u32 (i_e s + 1)) (set_i_buf (<[Z.to_nat (i_e s mod 128) := c]> (i_buf s)) s) in
  inp (set_i_w (i_e s') s') (mktty (t_ready t ++ t_line t ++ [c]) []).
Proof.
  intros [Hl Hr Hw He Hcap Hb Hn Hp Hc] Hlt s'. unfold s'.
  split; cbn [i_buf i_r i_w i_e panicked cursor set_i_e set_i_buf set_i_w t_ready t_line]; rewrite ?app_nil_r; try done.
  - by rewrite length_insert.
  - rewrite app_assoc, (length_app (_ ++ _)), He. cbn [length]. ulia.
  - rewrite app_assoc, (length_app (_ ++ _)), He. cbn [length]. ulia.
  - rewrite app_assoc, (length_app (_ ++ _)). cbn [length]. lia.
  - rewrite app_assoc. intros j x Hj. rewrite He. by apply inp_store.
  - set_solver.
Qed.
Lemma inp_woken n s t : inp s t -> inp (set_c_woken n s) t.
Proof. intros []. by split. Qed.

Lemma kill_wp t s n : inp s t -> (length (t_line t) < n)%nat ->
  wp (loop n kill_step tt) (fun _ s' => inp s' (mktty (t_ready t) []) /\
    uart s' = uart s ++ concat (map (fun _ => rubout) (t_line t)) /\ c_lock s' = c_lock s) s.
Proof.
  destruct t as [rd ln]. cbn [t_ready t_line]. revert s n. induction ln as [|x l IH] using rev_ind; intros s n Hi Hn;
    (destruct n as [|n]; [lia|]); cbn [loop]; apply wp_bind; unfold kill_step; apply wp_bind, wp_get; rewrite (e_eq_w _ _ Hi); cbn [t_line].
  - rewrite bool_decide_true by done. cbn [negb andb]. do 2 apply wp_ret. split_and!; [done|by rewrite app_nil_r|done].
  - rewrite bool_decide_false by (by destruct l). cbn [negb andb].
    assert (Hx : in_at (u32 (i_e s - 1)) s = x).
    { rewrite (in_e _ _ Hi). cbn [t_ready t_line]. rewrite app_assoc, length_app. cbn [length].
      rewrite Nat2Z.inj_add, Z.add_assoc, u32_pred.
      apply (inp_shift s _ _ _ Hi). cbn [t_ready t_line]. rewrite app_assoc. by apply list_lookup_middle. }
    rewrite Hx, (proj2 (Z.eqb_neq x 10)) by (intros ->; apply (in_nl _ _ Hi); set_solver). cbn [negb].
    apply wp_bind, wp_modify, wp_bind. pose proof (inp_rub _ _ _ _ Hi eq_refl) as Hi'. cbn [t_ready] in Hi'.
    eapply wp_mono; [apply consputc_wp; apply Hi'|]. intros [] s1 Hs1. apply wp_ret. rewrite length_app in Hn. cbn in Hn.
    eapply wp_mono; [apply IH; [by eapply sends_inp|lia]|]. intros [] s2 (H1 & H2 & H3). split_and!; [done| |].
    + rewrite H2, (sends_uart _ _ _ Hs1), map_app, concat_app. cbn. rewrite <- app_assoc. f_equal.
      clear. induction l as [|y l IH]; [done|]. cbn. rewrite <- IH. done.
    + rewrite H3, (sends_lock _ _ _ Hs1). done.
Qed.
Lemma intr_char_wp t s c : inp s t -> 0 <= c < 256 ->
  wp (intr_char c) (fun _ s' => inp s' (tty_type t c) /\ uart s' = uart s ++ tty_echo t c /\ c_lock s' = c_lock s) s.
Proof.
  intros Hi Hc. unfold intr_char, tty_type, tty_echo. destruct (Z.eqb_spec c C_P); [apply wp_ret; by rewrite app_nil_r|].
  destruct (Z.eqb_spec c C_U).
  { apply wp_bind, wp_get. apply kill_wp; [done|]. pose proof (in_cap _ _ Hi) as Hcap.
    rewrite (in_e _ _ Hi), (in_w _ _ Hi), length_app, Nat2Z.inj_add, Z.add_assoc in *. rewrite u32_diff; lia. }
  destruct ((c =? C_H) || (c =? 127)) eqn:Eh; apply wp_bind, wp_get.
  - rewrite (e_eq_w _ _ Hi). destruct t as [rd ln]. cbn [t_ready t_line]. destruct (decide (ln = [])) as [->|Hne].
    + rewrite bool_decide_true by done. cbn. by rewrite app_nil_r.
    + rewrite bool_decide_false by done. cbn [negb]. destruct (exists_last Hne) as (l & x & ->). rewrite removelast_last.
      apply wp_bind, wp_modify. pose proof (inp_rub _ _ _ _ Hi eq_refl) as Hi'. cbn [t_ready] in Hi'.
      eapply wp_mono; [apply consputc_wp; apply Hi'|]. intros [] s1 Hs1. split_and!; [by eapply sends_inp|by apply sends_uart in Hs1|by apply sends_lock in Hs1].
  - pose proof (in_cap _ _ Hi) as Hcap. pose proof (in_e _ _ Hi) as He.
    unfold accepts. rewrite He, u32_diff_l by (try apply Hi; lia). rewrite <- He.
    destruct (negb (c =? 0) && _) eqn:Ea; [|apply wp_ret; by rewrite app_nil_r]. apply andb_true_iff in Ea as [_ Ea%Z.ltb_lt].
    change INPUT_BUF with 128 in *. set (c' := if c =? 13 then 10 else c).
    assert (Hc' : 0 <= c' < 256) by (unfold c'; destruct (c =? 13); lia).
    rewrite (u8_id c') by done. apply wp_bind, wp_modify, wp_bind, wp_modify, wp_bind. set (s1 := set_i_e _ _).
    eapply wp_mono; [apply consputc_wp; apply Hi|]. intros [] s2 Hs2. change BACKSPACE with 256 in Hs2.
    rewrite (proj2 (Z.eqb_neq c' 256)), u8_id in Hs2 by lia. apply wp_bind, wp_get.
    assert (E2 : i_e s2 = i_e s1 /\ i_r s2 = i_r s) by (by destruct Hs2 as (m & p & -> & _)). destruct E2 as [E2 E2'].
    assert (He1 : i_e s1 = u32 (i_r s + Z.of_nat (length (t_ready t ++ t_line t ++ [c'])))).
    { cbn [s1 i_e set_i_e]. rewrite He, app_assoc, (length_app (_ ++ _)). cbn [length]. ulia. }
    rewrite E2, E2', He1, u32_eqb by (rewrite ?app_assoc, ?(length_app (_ ++ _)); cbn [length]; lia). rewrite <- He1.
    destruct ((c' =? 10) || (c' =? C_D) || _) eqn:Ek.
    + wp_steps. split_and!.
      * apply inp_woken. pose proof (inp_commit s t c' Hi Ea) as Hk. fold s1 in Hk. cbv zeta in Hk.
        destruct Hs2 as (m & p & -> & Hp). destruct Hk. by split.
      * by apply sends_uart in Hs2.
      * by apply sends_lock in Hs2.
    + wp_steps. apply orb_false_iff in Ek as [Ek _]. apply orb_false_iff in Ek as [Ek%Z.eqb_neq _]. split_and!.
      * eapply sends_inp; [exact Hs2|]. by apply inp_type.
      * by apply sends_uart in Hs2.
      * by apply sends_lock in Hs2.
Qed.
Lemma consoleintr_wp t s cs : inp s t -> Forall (fun c => 0 <= c < 256) cs -> c_lock s = false ->
  wp (consoleintr cs) (fun dump s' => let '(t', o) := tty_types t cs in
    inp s' t' /\ uart s' = uart s ++ o /\ c_lock s' = false /\ dump = existsb (fun c => c =? C_P) cs) s.
Proof.
  intros Hi Hcs Hl. unfold consoleintr, acquire, release. apply wp_bind, wp_bind, wp_gets. rewrite Hl. apply wp_modify, wp_bind.
  assert (Hgo : forall s, inp s t -> c_lock s = true ->
    wp (for_each cs intr_char) (fun _ s' => let '(t', o) := tty_types t cs in inp s' t' /\ uart s' = uart s ++ o /\ c_lock s' = true) s).
  { clear s Hi Hl. revert t. induction Hcs as [|c cs Hc Hcs IH]; intros t s Hi Hl; cbn [for_each tty_types].
    - apply wp_ret. by rewrite app_nil_r.
    - apply wp_bind. eapply wp_mono; [by apply intr_char_wp|]. intros [] s1 (H1 & H2 & H3).
      eapply wp_mono; [apply (IH (tty_type t c)); [done|by rewrite H3]|]. intros [] s2. destruct (tty_types (tty_type t c) cs) as [t' o].
      intros (H4 & H5 & H6). split_and!; [done|by rewrite H5, H2, <- app_assoc|done]. }
  eapply wp_mono; [apply Hgo; [destruct Hi; by split|done]|]. intros [] s1. destruct (tty_types t cs) as [t' o]. intros (H1 & H2 & H3).
  apply wp_bind, wp_bind, wp_gets. rewrite H3. apply wp_modify, wp_ret. split_and!; [destruct H1; by split|done|done|done].
Qed.

(** ** Reading *)

Lemma r_eq_w s t : inp s t -> (i_r s =? i_w s) = bool_decide (t_ready t = []).
Proof.
  intros [Hl Hr Hw He Hcap Hb Hn Hp Hc]. rewrite length_app in Hcap. rewrite Hw, <- (u32_id (i_r s)) at 1 by done.
  rewrite <- (Z.add_0_r (i_r s)) at 1. rewrite u32_eqb by lia.
  destruct (t_ready t) as [|x l]; [done|]. rewrite bool_decide_false by done. apply Z.eqb_neq. cbn [length]. lia.
Qed.
Lemma inp_read s t c l : inp s t -> t_ready t = c :: l ->
  in_at (i_r s) s = c /\ inp (set_i_r (u32 (i_r s + 1)) s) (mktty l (t_line t)).
Proof.
  intros Hi El. split.
  - rewrite <- (u32_id (i_r s)) by apply Hi. rewrite <- (Z.add_0_r (i_r s)) at 1. apply (inp_shift s t 0%nat c Hi). by rewrite El.
  - destruct Hi as [Hl Hr Hw He Hcap Hb Hn Hp Hc]. rewrite El in *. cbn [app length] in *.
    split; cbn [i_buf i_r i_w i_e panicked cursor set_i_r t_ready t_line]; try done.
    + apply u32_range.
    + rewrite Hw. ulia.
    + rewrite He. ulia.
    + lia.
    + intros j x Hj. rewrite <- (Hb (S j) x Hj). f_equal. f_equal. ulia.
Qed.

(** [ilock] returns when no other process holds the inode. *)
Context (ilock_ok : forall i e, exists e', c_ilock i e = Ok tt e').
Definition tail_of (t : tty) (rest : list Z) : tty := mktty rest (t_line t).
Lemma inp_tail s t : inp s t -> inp s (tail_of t (t_ready t)).
Proof. by destruct t. Qed.
Definition ends (killed : bool) (target : Z) (got : list Z) (t : tty) (x : list Z * list Z * bool)
    (r : con_result * list Z) (s' : con E) : Prop :=
  let '(g, rest, fin) := x in
  snd r = got ++ g /\ inp s' (tail_of t rest) /\ c_lock s' = false /\
  fst r = (if fin then CReturned (Z.of_nat (length (got ++ g))) else if killed then CReturned (-1) else CAsleep).
(** The lock is released and the inode locked again. *)
Lemma finish_wp {A} ip (v : A) s t (Q : A -> con E -> Prop) : inp s t -> c_lock s = true ->
  (forall s', inp s' t -> c_lock s' = false -> Q v s') ->
  wp (release ;;; on_c_env (c_ilock ip) ;;; ret v) Q s.
Proof.
  intros Hi Hl HQ. unfold release, on_c_env. apply wp_bind, wp_bind, wp_gets. rewrite Hl. apply wp_modify, wp_bind, wp_zoom.
  unfold wp. destruct (ilock_ok ip (c_env (set_c_lock false s))) as [e' ->]. apply HQ; [destruct Hi; by split|done].
Qed.
Lemma read_loop_wp killed ip target t : 0 <= target < 2 ^ 31 -> forall n s got f,
  target = n + Z.of_nat (length got) -> 0 <= n -> (Z.to_nat n < f)%nat -> inp s t -> c_lock s = true ->
  wp (loop f (read_step c_ilock killed ip target) (n, got))
     (fun r s' => ends killed target got t (tty_take (Z.to_nat n) (bool_decide (got = [])) (t_ready t)) r s') s.
Proof.
  intros Ht n s got f En Hn Hf Hi Hl. destruct t as [rd ln].
  remember (Z.to_nat n) as k eqn:Ek. revert n s got f rd En Hn Hf Hi Hl Ek.
  induction k as [|k IH]; intros n s got f rd En Hn Hf Hi Hl Ek; (destruct f as [|f]; [lia|]); cbn [loop tty_take t_ready]; apply wp_bind;
    unfold read_step.
  - rewrite (proj2 (Z.ltb_ge 0 n)) by lia. eapply finish_wp; [done|done|]. intros s' Hi' Hl'. apply wp_ret. cbn.
    rewrite app_nil_r, i32_id by lia. split_and!; [done|done|done|]. f_equal. lia.
  - rewrite (proj2 (Z.ltb_lt 0 n)) by lia. apply wp_bind, wp_get. rewrite (r_eq_w _ _ Hi). cbn [t_ready]. destruct rd as [|c rd].
    + rewrite bool_decide_true by done. destruct killed.
      * eapply finish_wp; [done|done|]. intros s' Hi' Hl'. apply wp_ret. cbn. by rewrite app_nil_r.
      * unfold release. apply wp_bind, wp_bind, wp_gets. rewrite Hl. apply wp_modify, wp_ret, wp_ret. cbn. rewrite app_nil_r.
        split_and!; [done|destruct Hi; by split|done|done].
    + rewrite bool_decide_false by done. destruct (inp_read s _ c rd Hi eq_refl) as [Ec Hi']. cbn [t_line] in Hi'. rewrite Ec.
      apply wp_bind, wp_modify. destruct (Z.eqb_spec c C_D) as [->|Hd].
      * assert (Hc : (n <? target) = negb (bool_decide (got = []))).
        { destruct got; cbn [length] in *; [rewrite bool_decide_true by done; apply Z.ltb_ge; lia|rewrite bool_decide_false by done; apply Z.ltb_lt; lia]. }
        rewrite Hc. destruct (bool_decide (got = [])); cbn [negb]; apply wp_bind.
        -- apply wp_ret. eapply finish_wp; [done|done|]. intros s' Hs' Hl'. apply wp_ret. cbn.
           rewrite app_nil_r, i32_id by lia. split_and!; [done|done|done|]. f_equal. lia.
        -- apply wp_modify. assert (Hb : inp (set_i_r (u32 (i_r (set_i_r (u32 (i_r s + 1)) s) - 1)) (set_i_r (u32 (i_r s + 1)) s)) (mktty (C_D :: rd) ln)).
           { cbn [set_i_r i_r]. rewrite u32_pred, u32_id by apply Hi. destruct Hi. by split. }
           eapply finish_wp; [exact Hb|done|]. intros s' Hs' Hl'. apply wp_ret. cbn.
           rewrite app_nil_r, i32_id by lia. split_and!; [done|done|done|]. f_equal. lia.
      * destruct (Z.eqb_spec c 10) as [->|Hnl].
        -- eapply finish_wp; [exact Hi'|done|]. intros s' Hs' Hl'. apply wp_ret. cbn. rewrite i32_id by lia.
           split_and!; [done|done|done|]. f_equal. rewrite length_app. cbn. lia.
        -- do 2 apply wp_ret. eapply wp_mono; [apply (IH (n - 1) _ (got ++ [c]) f rd); [rewrite length_app; cbn; lia|lia|lia|exact Hi'|done|lia]|].
           intros [r out] s'. rewrite bool_decide_false by (by destruct got). cbn [t_ready].
           destruct (tty_take k false rd) as [[g rest] fin]. cbn. rewrite <- !app_assoc. done.
Qed.

(** C33. The console refines the line discipline.  Characters typed are edited,
    echoed and handed over line by line as [tty_types] says; a read returns what
    [tty_take] gives, up to the end of a line, of the input or of the buffer, and
    sleeps (or fails, if the process is killed) when the input runs out first.
    Nothing is lost when the indices of the ring buffer wrap around, and the
    cursor never leaves the screen. *)
Theorem console_refines t s :
  inp s t -> c_lock s = false ->
  (forall cs, Forall (fun c => 0 <= c < 256) cs ->
     wp (consoleintr cs) (fun dump s' => let '(t', o) := tty_types t cs in
       inp s' t' /\ uart s' = uart s ++ o /\ c_lock s' = false /\ dump = existsb (fun c => c =? C_P) cs) s) /\
  (forall killed ip target got, 0 <= target - Z.of_nat (length got) -> 0 <= target < 2 ^ 31 ->
     let n := target - Z.of_nat (length got) in
     wp (consoleread_from c_ilock killed ip target n got)
        (ends killed target got t (tty_take (Z.to_nat n) (bool_decide (got = [])) (t_ready t))) s).
Proof.
  intros Hi Hl. split; [intros; by apply consoleintr_wp|]. intros killed ip target got Hn Ht n. unfold n.
  unfold consoleread_from, acquire. apply wp_bind, wp_bind, wp_gets. rewrite Hl. apply wp_modify.
  apply read_loop_wp; [done|lia|lia|lia|destruct Hi; by split|done].
Qed.
End spec.

(** ** The keyboard *)

(** The state of the keyboard: the modifier keys that are held down, the locks,
    and whether the last byte was the prefix of an extended key. *)
Record keys := mkkeys { k_shift : bool; k_ctl : bool; k_alt : bool; k_caps : bool; k_num : bool; k_scroll : bool; k_esc : bool }.
#[export] Instance keys_eq_dec : EqDecision keys.
Proof. solve_decision. Defined.
(** Its representation in the variable [shift]. *)
Definition bits_of (k : keys) : Z :=
  Z.b2z (k_shift k) + 2 * Z.b2z (k_ctl k) + 4 * Z.b2z (k_alt k) + 8 * Z.b2z (k_caps k) + 16 * Z.b2z (k_num k) + 32 * Z.b2z (k_scroll k) + 64 * Z.b2z (k_esc k).
(** Key [code], extended keys from 0x80 on, is held down or let go. *)
Definition hold (down : bool) (code : Z) (k : keys) : keys :=
  let among l := existsb (Z.eqb code) l in
  mkkeys (if among [0x2A; 0x36] then down else k_shift k) (if among [0x1D; 0x9D] then down else k_ctl k) (if among [0x38; 0xB8] then down else k_alt k)
    (k_caps k) (k_num k) (k_scroll k) (k_esc k).
(** The keys that turn a lock on and off. *)
Definition toggle (code : Z) (k : keys) : keys :=
  mkkeys (k_shift k) (k_ctl k) (k_alt k) (xorb (k_caps k) (code =? 0x3A)) (xorb (k_num k) (code =? 0x45)) (xorb (k_scroll k) (code =? 0x46)) (k_esc k).
Definition set_k_esc v (k : keys) : keys := mkkeys (k_shift k) (k_ctl k) (k_alt k) (k_caps k) (k_num k) (k_scroll k) v.
Definition swapcase (c : Z) : Z :=
  if (97 <=? c) && (c <=? 122) then c - 32 else if (65 <=? c) && (c <=? 90) then c + 32 else c.
(** What key [code] types. *)
Definition typed (code : Z) (k : keys) : Z :=
  let c := (if k_ctl k then ctlmap else if k_shift k then shiftmap else normalmap) !!! Z.to_nat code in
  if k_caps k then swapcase c else c.
(** The byte [data] arrives from the keyboard: the new state, and the character. *)
Definition key_byte (data : Z) (k : keys) : keys * Z :=
  let code := if k_esc k then 0x80 + data mod 0x80 else data mod 0x80 in
  if data =? 0xE0 then (set_k_esc true k, 0)
  else if 0x80 <=? data then (set_k_esc false (hold false code k), 0)
  else let k := set_k_esc false (toggle code (hold true code k)) in (k, typed code k).

Definition all_keys : list keys :=
  let bb := [false; true] in
  a ← bb; b ← bb; c ← bb; d ← bb; e ← bb; f ← bb; g ← bb; [mkkeys a b c d e f g].
Lemma elem_of_all_keys k : k ∈ all_keys.
Proof. by destruct k as [[] [] [] [] [] [] []]; refine (bool_decide_unpack _ _); vm_compute. Qed.
Definition kbd_ok (k : keys) (data : Z) : bool :=
  let '(k', c) := key_byte data k in
  match kbdgetc 1 data (bits_of k) with Ok c' sh => (c' =? c) && (sh =? bits_of k') && (0 <=? c) && (c <? 256) | _ => false end.
Lemma kbd_ok_all k data : 0 <= data < 256 -> kbd_ok k data = true.
Proof.
  intros Hd. assert (H : forallb (fun k => forallb (kbd_ok k) (seqZ 0 256)) all_keys = true) by (vm_compute; reflexivity).
  rewrite forallb_forall in H. specialize (H k ltac:(apply list_elem_of_In, elem_of_all_keys)).
  rewrite forallb_forall in H. apply H, list_elem_of_In, elem_of_seqZ. lia.
Qed.
(** C34. [kbdgetc] decodes the bytes of the keyboard: it returns -1 and changes
    nothing if the controller has no byte; otherwise the variable [shift] follows
    the state of the keyboard, in which a modifier is held from the press of its
    key to the release, a lock changes at every press of its key, and a prefix
    lasts for one code, and the result is the character that the key types with
    the modifiers and caps lock, or 0 for a release and a prefix. *)
Theorem kbdgetc_refines st data k : 0 <= data < 256 ->
  (Z.land st KBS_DIB = 0 -> kbdgetc st data (bits_of k) = Ok (-1) (bits_of k)) /\
  (Z.land st KBS_DIB <> 0 ->
     let '(k', c) := key_byte data k in kbdgetc st data (bits_of k) = Ok c (bits_of k') /\ 0 <= c < 256).
Proof.
  intros Hd. split; intros E0; [unfold kbdgetc; by rewrite E0|].
  assert (E1 : kbdgetc st data (bits_of k) = kbdgetc 1 data (bits_of k)) by (unfold kbdgetc; by rewrite (proj2 (Z.eqb_neq _ _) E0)).
  pose proof (kbd_ok_all k data Hd) as H. rewrite E1. unfold kbd_ok in H. destruct (key_byte data k) as [k' c].
  destruct (kbdgetc 1 data (bits_of k)) as [c' sh| | |]; try discriminate.
  repeat (apply andb_true_iff in H as [H ?]). split; [f_equal|]; lia.
Qed.

(** ** Examples *)

Module ConsoleExample.
(** [input.e] is about to wrap around. *)
Definition start : con unit := mkcon false true false (fun _ => 0) 1900 [] (replicate 128 0) (2 ^ 32 - 2) (2 ^ 32 - 2) (2 ^ 32 - 2) 0 tt.
Lemma start_inp : inp start (mktty [] []).
Proof. split; cbn; try done; apply not_elem_of_nil. Qed.
Definition lock (i : nat) : M unit unit := ret tt.
End ConsoleExample.
Lemma console_refines_witness :
  wp (consoleintr (str "lx" ++ [8] ++ str "s" ++ [13])) (fun _ s' => uart s' = str "lx" ++ rubout ++ str "s" ++ [10]) ConsoleExample.start /\
  wp (consoleread_from ConsoleExample.lock false 0 100 100 []) (fun r _ => fst r = CAsleep) ConsoleExample.start.
Proof.
  destruct (console_refines ConsoleExample.lock (fun i e => ex_intro _ e eq_refl) (mktty [] []) ConsoleExample.start ConsoleExample.start_inp eq_refl) as [H1 H2].
  split.
  - eapply wp_mono; [apply H1; repeat constructor; done|]. intros dump s' H. vm_compute (tty_types _ _) in H. apply H.
  - eapply wp_mono; [apply (H2 false 0%nat 100 []); cbn; lia|]. intros r s' H. apply H.
Defined.
(** The key A with shift held and caps lock on. *)
Lemma kbdgetc_refines_witness : kbdgetc 1 0x1E (bits_of (mkkeys true false false true false false false)) = Ok 97 9.
Proof.
  destruct (kbdgetc_refines 1 0x1E (mkkeys true false false true false false false) ltac:(lia)) as [_ H].
  destruct (H ltac:(done)) as [H1 _]. exact H1.
Defined.
