(* ===== verification/Umalloc.v ===== *)
(** * umalloc.c: the user memory allocator

    The allocator of Kernighan and Ritchie: a ring of free blocks in address
    order, threaded through the blocks themselves.  A [Header] is 8 bytes, the
    pointer and the size in units of 8 bytes. *)

From S2P Require Import Prelude Params Strings.

Section umalloc.
(** The address of [base]; [grant b n]: the kernel's answer to [sbrk(n)] at
    break [b]; the fuel of the loops around the ring. *)
Context (base : Z) (grant : Z -> Z -> bool) (fuel : nat).

(** The memory of the process, [freep] and the break. *)
Record heap := mkheap { h_mem : mem; h_freep : Z; h_brk : Z }.
Definition set_h_mem v s := mkheap v (h_freep s) (h_brk s).
Definition set_h_freep v s := mkheap (h_mem s) v (h_brk s).
Definition set_h_brk v s := mkheap (h_mem s) (h_freep s) v.

(** [p->s.ptr] is the word at [p], [p->s.size] the word at [p + 4]. *)
Definition rd (a : Z) : M heap Z := gets (fun s => load32 (h_mem s) a).
Definition wr (a v : Z) : M heap unit := modify (fun s => set_h_mem (store32 (h_mem s) a v) s).
Definition sizeof_Header : Z := 8.
(** [p + n] on headers. *)
Definition padd (p n : Z) : Z := u32 (p + sizeof_Header * n).

(** The system call: the old break, or -1. *)
Definition sbrk (n : Z) : M heap Z :=
  b <-- gets h_brk ;;
  if grant b n then modify (set_h_brk (u32 (b + n))) ;;; ret b else ret (u32 (-1)).

(** The search of [free] for the block before [bp]. *)
Definition free_step (bp p : Z) : M heap (Z + Z) :=
  next <-- rd p ;;
  if (p <? bp) && (bp <? next) then ret (inr p)
  else if (next <=? p) && ((p <? bp) || (bp <? next)) then ret (inr p)
  else ret (inl next).
Definition free (ap : Z) : M heap unit :=
  let bp := u32 (ap - sizeof_Header) in
  fp <-- gets h_freep ;;
  p <-- loop fuel (free_step bp) fp ;;
  n <-- rd (bp + 4) ;;
  next <-- rd p ;;
  (if padd bp n =? next then
     nn <-- rd (next + 4) ;;
     wr (bp + 4) (u32 (n + nn)) ;;;
     next <-- rd p ;;
     nnext <-- rd next ;;
     wr bp nnext
   else wr bp next) ;;;
  sz <-- rd (p + 4) ;;
  (if padd p sz =? bp then
     n <-- rd (bp + 4) ;;
     wr (p + 4) (u32 (sz + n)) ;;;
     next <-- rd bp ;;
     wr p next
   else wr p bp) ;;;
  modify (set_h_freep p).

Definition morecore (nu : Z) : M heap Z :=
  let nu := if nu <? 4096 then 4096 else nu in
  p <-- sbrk (i32 (nu * sizeof_Header)) ;;
  if p =? u32 (-1) then ret 0
  else
    wr (p + 4) nu ;;;
    free (padd p 1) ;;;
    gets h_freep.

(** One turn of the loop of [malloc]: [prevp] and [p]. *)
Definition malloc_step (nunits : Z) (st : Z * Z) : M heap ((Z * Z) + Z) :=
  let '(prevp, p) := st in
  sz <-- rd (p + 4) ;;
  if nunits <=? sz then
    p <-- (if sz =? nunits then
             next <-- rd p ;;
             wr prevp next ;;;
             ret p
           else
             wr (p + 4) (sz - nunits) ;;;
             sz <-- rd (p + 4) ;;
             let p := padd p sz in
             wr (p + 4) nunits ;;;
             ret p) ;;
    modify (set_h_freep prevp) ;;;
    ret (inr (padd p 1))
  else
    fp <-- gets h_freep ;;
    if p =? fp then
      p <-- morecore nunits ;;
      if p =? 0 then ret (inr 0)
      else next <-- rd p ;; ret (inl (p, next))
    else next <-- rd p ;; ret (inl (p, next)).
Definition malloc (nbytes : Z) : M heap Z :=
  let nunits := u32 (nbytes + sizeof_Header - 1) / sizeof_Header + 1 in
  fp <-- gets h_freep ;;
  prevp <-- (if fp =? 0 then
               modify (set_h_freep base) ;;;
               wr base base ;;;
               wr (base + 4) 0 ;;;
               ret base
             else ret fp) ;;
  p <-- rd prevp ;;
  loop fuel (malloc_step nunits) (prevp, p).
End umalloc.
