(* ===== verification/UmallocSpec.v ===== *)
(** * Correctness of malloc and free

    The heap is a row of chunks, used or free, that fills the memory obtained
    from the kernel; [malloc] and [free] change the row as they should and do not
    touch the contents of used chunks. *)

From S2P Require Import Prelude Params Strings Umalloc.

(** ** Rows of chunks *)

Record chunk := mkchunk { c_at : Z; c_n : Z; c_used : bool }.
(** [cs] fills the memory from [lo] to [hi]. *)
Fixpoint tile (lo : Z) (cs : list chunk) (hi : Z) : Prop :=
  match cs with
  | [] => lo = hi
  | c :: cs' => c_at c = lo /\ 1 <= c_n c /\ tile (lo + 8 * c_n c) cs' hi
  end.
(** Two free chunks are never neighbours. *)
Fixpoint apart (cs : list chunk) : Prop :=
  match cs with
  | c :: (d :: _) as cs' => (c_used c = true \/ c_used d = true) /\ apart cs'
  | _ => True
  end.
Definition used (cs : list chunk) : list chunk := filter (fun c => c_used c = true) cs.
Definition frees (cs : list chunk) : list (Z * Z) :=
  map (fun c => (c_at c, c_n c)) (filter (fun c => c_used c = false) cs).

Lemma tile_app lo c1 c2 hi : tile lo (c1 ++ c2) hi <-> exists mid, tile lo c1 mid /\ tile mid c2 hi.
Proof.
  revert lo. induction c1 as [|c c1 IH]; intros lo; cbn.
  - split; [by exists lo|]. by intros (mid & -> & H).
  - rewrite IH. naive_solver.
Qed.
Lemma tile_le lo cs hi : tile lo cs hi -> lo <= hi.
Proof. revert lo. induction cs as [|c cs IH]; cbn; intros lo H; [lia|]. destruct H as (_ & Hn & H%IH). lia. Qed.
Lemma tile_in lo cs hi c : tile lo cs hi -> c ∈ cs -> lo <= c_at c /\ c_at c + 8 * c_n c <= hi /\ 1 <= c_n c.
Proof.
  revert lo. induction cs as [|d cs IH]; cbn; intros lo; [set_solver|]. intros (Ha & Hn & Ht) [->|Hc]%elem_of_cons.
  - apply tile_le in Ht. lia.
  - specialize (IH _ Ht Hc). lia.
Qed.
(** Two chunks of a row do not overlap. *)
Lemma tile_disjoint lo c1 c c2 hi d : tile lo (c1 ++ c :: c2) hi -> d ∈ c1 ++ c2 ->
  c_at d + 8 * c_n d <= c_at c \/ c_at c + 8 * c_n c <= c_at d.
Proof.
  intros (mid & H1 & Ha & Hn & H2)%tile_app [Hd|Hd]%elem_of_app.
  - pose proof (tile_in _ _ _ _ H1 Hd). lia.
  - pose proof (tile_in _ _ _ _ H2 Hd). lia.
Qed.
Lemma tile_eq_or_disjoint lo cs hi c d : tile lo cs hi -> c ∈ cs -> d ∈ cs ->
  c = d \/ c_at d + 8 * c_n d <= c_at c \/ c_at c + 8 * c_n c <= c_at d.
Proof.
  intros Ht (c1 & c2 & ->)%list_elem_of_split Hd.
  assert (Hd' : d = c \/ d ∈ c1 ++ c2) by set_solver. destruct Hd' as [->|Hd']; [by left|]. right. by eapply tile_disjoint.
Qed.
Lemma tile_NoDup lo cs hi : tile lo cs hi -> NoDup cs.
Proof.
  revert lo. induction cs as [|c cs IH]; intros lo; cbn; [by constructor|]. intros (Ha & Hn & Ht). constructor; [|by eapply IH].
  intros Hc. pose proof (tile_in _ _ _ _ Ht Hc). lia.
Qed.
Lemma apart_app c1 c2 : apart (c1 ++ c2) <->
  apart c1 /\ apart c2 /\ (forall c1' c d c2', c1 = c1' ++ [c] -> c2 = d :: c2' -> c_used c = true \/ c_used d = true).
Proof.
  induction c1 as [|c c1 IH]; [cbn|].
  - split; [|naive_solver]. intros H. split_and!; [done|done|]. intros [|? ?]; discriminate.
  - destruct c1 as [|e c1].
    + destruct c2 as [|d c2]; cbn.
      * split; [|done]. intros _. split_and!; [done|done|]. intros. discriminate.
      * split.
        -- intros [H1 H2]. split_and!; [done|done|]. intros [|x [|y l]] c' d' c2' E1 E2; try discriminate.
           injection E1 as [= ->]. by injection E2 as [= -> ->].
        -- intros (_ & H2 & H3). split; [by eapply (H3 [])|done].
    + change (((c :: e :: c1) ++ c2)) with (c :: e :: (c1 ++ c2)). cbn [apart].
      change (e :: c1 ++ c2) with ((e :: c1) ++ c2). rewrite IH. split.
      * intros (H0 & H1 & H2 & H3). split_and!; [done|done|done|]. intros c1' c' d c2' E1 E2.
        destruct c1' as [|x c1']; [discriminate|]. injection E1 as [= _ E1]. by eapply H3.
      * intros ((H0 & H1) & H2 & H3). split_and!; [done|done|done|]. intros c1' c' d c2' E1 E2.
        eapply (H3 (c :: c1')); [|done]. by rewrite E1.
Qed.

Lemma used_app c1 c2 : used (c1 ++ c2) = used c1 ++ used c2.
Proof. apply filter_app. Qed.
Lemma frees_app c1 c2 : frees (c1 ++ c2) = frees c1 ++ frees c2.
Proof. unfold frees. by rewrite filter_app, map_app. Qed.
Lemma frees_cons c cs : frees (c :: cs) = (if c_used c then [] else [(c_at c, c_n c)]) ++ frees cs.
Proof. unfold frees. rewrite filter_cons. destruct (c_used c); [by rewrite decide_False|by rewrite decide_True]. Qed.
Lemma used_cons c cs : used (c :: cs) = (if c_used c then [c] else []) ++ used cs.
Proof. unfold used. rewrite filter_cons. destruct (c_used c); [by rewrite decide_True|by rewrite decide_False]. Qed.
Lemma frees_in a n cs : (a, n) ∈ frees cs -> mkchunk a n false ∈ cs.
Proof.
  unfold frees. intros ([x y []] & E & H)%list_elem_of_fmap; cbn in E; apply list_elem_of_filter in H as [? ?]; [done|].
  injection E as [= -> ->]. done.
Qed.
Lemma frees_range lo cs hi a n : tile lo cs hi -> (a, n) ∈ frees cs -> lo <= a /\ a + 8 * n <= hi /\ 1 <= n.
Proof. intros Ht H%frees_in. apply (tile_in _ _ _ _ Ht H). Qed.

(** ** The ring *)

Definition first (l : list (Z * Z)) (z : Z) : Z := match l with [] => z | (b, _) :: _ => b end.
(** The blocks of [l] are linked in memory, the last one to [z]. *)
Fixpoint linked (m : mem) (l : list (Z * Z)) (z : Z) : Prop :=
  match l with
  | [] => True
  | (a, n) :: l' => load32 m a = first l' z /\ load32 m (a + 4) = n /\ linked m l' z
  end.
Lemma ulinked_app m l1 l2 z : linked m (l1 ++ l2) z <-> linked m l1 (first l2 z) /\ linked m l2 z.
Proof.
  induction l1 as [|[a n] l1 IH]; cbn; [naive_solver|]. rewrite IH.
  assert (E : first (l1 ++ l2) z = first l1 (first l2 z)) by (by destruct l1 as [|[]]). rewrite E. naive_solver.
Qed.
Lemma linked_ext m m' l z : (forall a n x, (a, n) ∈ l -> a <= x < a + 8 -> m' x = m x) -> linked m l z -> linked m' l z.
Proof.
  induction l as [|[a n] l IH]; cbn; [done|]. intros Hx (H1 & H2 & H3). split_and!.
  - rewrite <- H1. apply load32_ext. intros x Hr. apply (Hx a n); [by left|lia].
  - rewrite <- H2. apply load32_ext. intros x Hr. apply (Hx a n); [by left|lia].
  - apply IH; [|done]. intros b k x Hb. apply (Hx b k). by right.
Qed.
Lemma linked_at m l z i a n : linked m l z -> l !! i = Some (a, n) ->
  load32 m a = first (drop (S i) l) z /\ load32 m (a + 4) = n.
Proof.
  revert i. induction l as [|[b k] l IH]; intros [|i] H; try done; cbn.
  - intros [= -> ->]. cbn in H. naive_solver.
  - destruct H as (_ & _ & H). by apply IH.
Qed.
(** A store to the header of [a] leaves headers elsewhere alone. *)
Lemma store32_off m a v x : x < a \/ a + 4 <= x -> store32 m a v x = m x.
Proof. intros H. rewrite store32_at, decide_False by lia. done. Qed.

Section spec.
Context (base : Z) (grant : Z -> Z -> bool) (fuel : nat).

Definition ring (cs : list chunk) : list (Z * Z) := (base, 0) :: frees cs.
Record hinv (lo : Z) (s : heap) (cs : list chunk) : Prop := {
  hi_base : 0 < base /\ base + 8 <= lo;
  hi_tile : tile lo cs (h_brk s);
  hi_brk : h_brk s <= KERNBASE;
  hi_apart : apart cs;
  hi_ring : linked (h_mem s) (ring cs) base;
  hi_freep : h_freep s ∈ map fst (ring cs);
  hi_size : forall c, c ∈ used cs -> load32 (h_mem s) (c_at c + 4) = c_n c
}.

(** The free block after [mid] is adjacent exactly if the next chunk is free. *)
Lemma first_frees mid cs hi : tile mid cs hi -> base < mid ->
  (exists d cs', cs = d :: cs' /\ c_used d = false /\ first (frees cs) base = mid) \/
  ((forall d cs', cs = d :: cs' -> c_used d = true) /\ first (frees cs) base <> mid).
Proof.
  intros Ht Hb. destruct cs as [|d cs].
  - right. split; [done|]. cbn. lia.
  - destruct Ht as (Ha & Hn & Ht). rewrite frees_cons. destruct (c_used d) eqn:Hu.
    + right. split; [by intros ? ? [= <- _]|]. cbn [app]. destruct (frees cs) as [|[a n] l] eqn:E; cbn; [lia|].
      assert (Hin : (a, n) ∈ frees cs) by (rewrite E; left). pose proof (frees_range _ _ _ _ _ Ht Hin). lia.
    + left. exists d, cs. done.
Qed.
(** The free block before [mid], [base] if there is none, likewise. *)
Lemma last_frees lo cs mid : tile lo cs mid -> base + 8 <= lo -> exists l p sz, ring cs = l ++ [(p, sz)] /\
  ((exists cs', cs = cs' ++ [mkchunk p sz false] /\ l = ring cs' /\ p + 8 * sz = mid) \/
   ((forall c cs', cs = cs' ++ [c] -> c_used c = true) /\ p + 8 * sz < mid /\ 0 <= sz)).
Proof.
  intros Ht Hb. destruct (decide (cs = [])) as [->|Hne].
  - exists [], base, 0. split; [done|]. right. cbn in Ht. split_and!; [|lia|done]. intros c [|? ?]; discriminate.
  - destruct (exists_last Hne) as (cs' & c & ->). apply tile_app in Ht as (m & H1 & Ha & Hn & Hm). cbn in Hm.
    unfold ring. rewrite frees_app, frees_cons. cbn [frees app]. destruct c as [a n u]. cbn in *. destruct u; cbn [app].
    + rewrite app_nil_r. change (filter _ []) with (@nil chunk).
      destruct (exists_last (l := (base, 0) :: frees cs') ltac:(done)) as (l & [p sz] & E). exists l, p, sz.
      split; [by rewrite E, app_nil_r || exact E|]. right. split.
      { intros c cs2 E2. apply app_inj_tail in E2 as [_ <-]. done. }
      assert (Hin : (p, sz) ∈ (base, 0) :: frees cs') by (rewrite E; set_solver).
      apply elem_of_cons in Hin as [[= -> ->]|Hin].
      * apply tile_le in H1. lia.
      * pose proof (frees_range _ _ _ _ _ H1 Hin). lia.
    + exists ((base, 0) :: frees cs'), a, n. split; [done|]. left. exists cs'. split_and!; [done|done|lia].
Qed.

(** ** The search of free *)

(** Steps from index [i] to index [j] around a ring of [m]. *)
Definition dist (m i j : nat) : nat := if decide (i <= j)%nat then (j - i)%nat else (m - i + j)%nat.
Definition succ (m i : nat) : nat := if decide (S i < m)%nat then S i else O.
Lemma dist_succ m i j : (i < m)%nat -> (j < m)%nat -> i <> j -> dist m i j = S (dist m (succ m i) j).
Proof. unfold dist, succ. intros. repeat case_decide; lia. Qed.
Lemma dist_zero m i j : (i < m)%nat -> O = dist m i j -> i = j.
Proof. unfold dist. intros. case_decide; lia. Qed.
Lemma dist_self m i : dist m i i = O.
Proof. unfold dist. rewrite decide_True by lia. lia. Qed.
Lemma dist_lt m i j : (i < m)%nat -> (j < m)%nat -> (dist m i j < m)%nat.
Proof. unfold dist. intros. case_decide; lia. Qed.
Lemma ring_next m l i a n : linked m l base -> first l base = base -> l !! i = Some (a, n) ->
  exists b k, l !! succ (length l) i = Some (b, k) /\ load32 m a = b /\ load32 m (a + 4) = n.
Proof.
  intros Hl Hf Hi. destruct (linked_at _ _ _ _ _ _ Hl Hi) as [H1 H2]. unfold succ. case_decide as Hs.
  - destruct (lookup_lt_is_Some_2 _ _ Hs) as [[b k] Hb]. exists b, k. split_and!; [done| |done].
    rewrite H1, (drop_S _ _ _ Hb). done.
  - rewrite drop_ge in H1 by lia. destruct l as [|[b k] l]; [done|]. exists b, k. split_and!; [done| |done]. by rewrite H1.
Qed.
(** [l] in address order, [base] first, and [bp] just after index [j]. *)
Record sorted_at (l : list (Z * Z)) (bp : Z) (j : nat) : Prop := {
  sa_first : first l base = base;
  sa_sort : forall i i' a b n k, l !! i = Some (a, n) -> l !! i' = Some (b, k) -> (i < i')%nat -> a < b;
  sa_lt : forall i a n, l !! i = Some (a, n) -> (i <= j)%nat -> a < bp;
  sa_gt : forall i a n, l !! i = Some (a, n) -> (j < i)%nat -> bp < a
}.
Lemma free_find s l bp j p sz i a n f :
  linked (h_mem s) l base -> sorted_at l bp j -> l !! j = Some (p, sz) ->
  l !! i = Some (a, n) -> (dist (length l) i j < f)%nat ->
  loop f (free_step bp) a s = Ok p s.
Proof.
  intros Hl [Hf Hsort Hlt Hgt] Hj. pose proof (lookup_lt_Some _ _ _ Hj) as Hjm. remember (dist (length l) i j) as d eqn:Ed.
  revert f i a n Ed. induction d as [|d IH]; intros f i a n Ed Hi Hfuel; (destruct f as [|f]; [lia|]).
  all: destruct (ring_next _ _ _ _ _ Hl Hf Hi) as (b & k & Hb & Hload & _); pose proof (lookup_lt_Some _ _ _ Hi) as Him.
  all: assert (H0 : exists k0, l !! 0%nat = Some (base, k0)) by (destruct l as [|[b0 k0] l]; [done|exists k0; cbn in Hf; by rewrite Hf]).
  all: destruct H0 as [k0 H0]; pose proof (Hlt 0%nat _ _ H0 (Nat.le_0_l _)) as Hb0.
  all: cbn [loop]; unfold free_step at 1, rd, bind, gets; rewrite Hload; unfold succ in Hb.
  - assert (i = j) as -> by (by eapply dist_zero). assert (E : (a, n) = (p, sz)) by congruence.
    injection E as [= -> ->]. pose proof (Hlt _ _ _ Hj ltac:(lia)). rewrite (proj2 (Z.ltb_lt p bp)) by done.
    case_decide as Hs.
    + pose proof (Hgt _ _ _ Hb ltac:(lia)). by rewrite (proj2 (Z.ltb_lt bp b)) by done.
    + rewrite H0 in Hb. injection Hb as [= <- <-]. rewrite (proj2 (Z.ltb_ge bp base)) by lia. cbn [andb orb].
      rewrite (proj2 (Z.leb_le base p)); [done|]. destruct j as [|j]; [rewrite H0 in Hj; injection Hj; lia|].
      pose proof (Hsort _ _ _ _ _ _ H0 Hj ltac:(lia)). lia.
  - assert (Hij : i <> j) by (intros ->; rewrite dist_self in Ed; done).
    rewrite dist_succ in Ed by done. injection Ed as [= Ed].
    assert (Hc1 : (a <? bp) && (bp <? b) = false).
    { apply andb_false_iff. destruct (decide (i < j)%nat) as [Hlt'|Hge].
      - right. apply Z.ltb_ge. rewrite decide_True in Hb by lia. pose proof (Hlt _ _ _ Hb ltac:(lia)). lia.
      - left. apply Z.ltb_ge. pose proof (Hgt _ _ _ Hi ltac:(lia)). lia. }
    assert (Hc2 : (b <=? a) && ((a <? bp) || (bp <? b)) = false).
    { case_decide as Hs.
      - apply andb_false_iff. left. apply Z.leb_gt. apply (Hsort _ _ _ _ _ _ Hi Hb). lia.
      - apply andb_false_iff. right. rewrite H0 in Hb. injection Hb as [= <- <-].
        pose proof (Hgt _ _ _ Hi ltac:(lia)). apply orb_false_iff. split; apply Z.ltb_ge; lia. }
    rewrite Hc1, Hc2. eapply (IH f); [exact Ed|exact Hb|lia].
Qed.

Lemma frees_sorted lo cs hi i i' a b n k : tile lo cs hi ->
  frees cs !! i = Some (a, n) -> frees cs !! i' = Some (b, k) -> (i < i')%nat -> a + 8 * n <= b.
Proof.
  revert lo i i'. induction cs as [|c cs IH]; intros lo i i' Ht; [done|]. destruct Ht as (Ha & Hn & Ht). rewrite frees_cons.
  destruct (c_used c); [by apply (IH _ _ _ Ht)|]. destruct i as [|i], i' as [|i']; cbn; intros H1 H2 Hi; try lia.
  - injection H1 as [= <- <-]. apply list_elem_of_lookup_2 in H2. pose proof (frees_range _ _ _ _ _ Ht H2). lia.
  - apply (IH _ _ _ Ht H1 H2). lia.
Qed.
Lemma ring_in lo cs hi a n : tile lo cs hi -> base + 8 <= lo -> (a, n) ∈ ring cs ->
  (a = base /\ n = 0) \/ (lo <= a /\ a + 8 * n <= hi /\ 1 <= n /\ mkchunk a n false ∈ cs).
Proof.
  intros Ht Hb [[= -> ->]|H]%elem_of_cons; [by left|]. right.
  pose proof (frees_range _ _ _ _ _ Ht H). split_and!; [lia..|by apply frees_in].
Qed.
Lemma ring_sorted lo cs hi i i' a b n k : tile lo cs hi -> base + 8 <= lo ->
  ring cs !! i = Some (a, n) -> ring cs !! i' = Some (b, k) -> (i < i')%nat -> a + 8 <= b.
Proof.
  intros Ht Hb. destruct i as [|i], i' as [|i']; cbn; intros Hi Hi' Hlt; try lia.
  - injection Hi as [= <- <-]. apply list_elem_of_lookup_2 in Hi'. pose proof (frees_range _ _ _ _ _ Ht Hi'). lia.
  - pose proof (frees_sorted _ _ _ _ _ _ _ _ _ Ht Hi Hi' ltac:(lia)).
    apply list_elem_of_lookup_2 in Hi. pose proof (frees_range _ _ _ _ _ Ht Hi). lia.
Qed.
Lemma ring_before lo cs hi l p sz r a n : tile lo cs hi -> base + 8 <= lo -> ring cs = l ++ (p, sz) :: r ->
  (a, n) ∈ l -> a + 8 <= p.
Proof.
  intros Ht Hb E (i & Hi)%list_elem_of_lookup_1. pose proof (lookup_lt_Some _ _ _ Hi).
  apply (ring_sorted _ _ _ i (length l) a p n sz Ht Hb); [| |done]; rewrite E.
  - by rewrite lookup_app_l.
  - rewrite lookup_app_r, Nat.sub_diag by lia. done.
Qed.
Lemma ring_app c1 c2 : ring (c1 ++ c2) = ring c1 ++ frees c2.
Proof. unfold ring. by rewrite frees_app. Qed.
Lemma ring_sorted_at lo c1 c c2 hi : tile lo (c1 ++ c :: c2) hi -> base + 8 <= lo -> c_used c = true ->
  sorted_at (ring (c1 ++ c :: c2)) (c_at c) (length (frees c1)).
Proof.
  intros Ht Hb Hu. assert (E : ring (c1 ++ c :: c2) = ring c1 ++ frees c2) by (rewrite ring_app, frees_cons, Hu; done).
  pose proof Ht as (mid & H1 & Ha & Hn & H2)%tile_app. split.
  - done.
  - intros i i' a b n k Hi Hi' Hlt. pose proof (ring_sorted _ _ _ _ _ _ _ _ _ Ht Hb Hi Hi' Hlt). lia.
  - intros i a n Hi Hle. rewrite E in Hi. rewrite lookup_app_l in Hi by (cbn; lia). apply list_elem_of_lookup_2 in Hi.
    apply tile_le in H1 as Hl. destruct (ring_in _ _ _ _ _ H1 Hb Hi) as [[-> ->]|(? & ? & ? & _)]; lia.
  - intros i a n Hi Hgt. rewrite E in Hi. rewrite lookup_app_r in Hi by (cbn; lia). apply list_elem_of_lookup_2 in Hi.
    pose proof (frees_range _ _ _ _ _ H2 Hi). lia.
Qed.
Lemma padd_id p n : 0 <= p + 8 * n < 2 ^ 32 -> padd p n = p + 8 * n.
Proof. intros. unfold padd, sizeof_Header. by apply u32_id. Qed.

Lemma load_store_ne m a b v : b + 4 <= a \/ a + 4 <= b -> load32 (store32 m a v) b = load32 m b.
Proof. intros H. apply load32_ext. intros x Hx. apply store32_off. lia. Qed.
Lemma first_range mid cs hi : tile mid cs hi -> 0 < base <= mid -> hi <= 2 ^ 31 -> 0 < first (frees cs) base < 2 ^ 32.
Proof.
  intros Ht Hb Hh. pose proof (tile_le _ _ _ Ht). destruct (frees cs) as [|[a n] l] eqn:E; cbn; [lia|].
  assert (Hin : (a, n) ∈ frees cs) by (rewrite E; left). pose proof (frees_range _ _ _ _ _ Ht Hin). lia.
Qed.
Lemma apart_cons_free a n cs : apart cs -> (forall d cs', cs = d :: cs' -> c_used d = true) -> apart (mkchunk a n false :: cs).
Proof. destruct cs as [|d cs]; [done|]. intros H Hd. split; [right; by eapply Hd|done]. Qed.
Lemma ring_last_in c1 l p sz lo mid : tile lo c1 mid -> base + 8 <= lo -> ring c1 = l ++ [(p, sz)] ->
  p + 8 <= mid /\ 0 <= sz /\ p + 8 * sz <= mid /\ base <= p.
Proof.
  intros Ht Hb E. assert (Hin : (p, sz) ∈ ring c1) by (rewrite E; set_solver). pose proof (tile_le _ _ _ Ht).
  destruct (ring_in _ _ _ _ _ Ht Hb Hin) as [[-> ->]|(? & ? & ? & _)]; lia.
Qed.

(** ** free *)

(** The first half of [free]: the block [bp] takes in the free chunk after it. *)
Lemma up_wp lo s c1 c c2 p sz l :
  hinv lo s (c1 ++ c :: c2) -> c_used c = true -> ring c1 = l ++ [(p, sz)] ->
  wp (if padd (c_at c) (c_n c) =? first (frees c2) base then
        nn <-- rd (first (frees c2) base + 4) ;;
        wr (c_at c + 4) (u32 (c_n c + nn)) ;;;
        next <-- rd p ;;
        nnext <-- rd next ;;
        wr (c_at c) nnext
      else wr (c_at c) (first (frees c2) base))
     (fun _ s1 => exists N c2s,
       (forall x, x < c_at c \/ c_at c + 8 <= x -> h_mem s1 x = h_mem s x) /\ h_freep s1 = h_freep s /\ h_brk s1 = h_brk s /\
       load32 (h_mem s1) (c_at c) = first (frees c2s) base /\ load32 (h_mem s1) (c_at c + 4) = N /\ c_n c <= N /\
       tile (c_at c + 8 * N) c2s (h_brk s) /\ apart (mkchunk (c_at c) N false :: c2s) /\ used c2s = used c2 /\
       (length c2s <= length c2)%nat /\ linked (h_mem s1) (frees c2s) base) s.
Proof.
  intros [[Hb0 Hb] Ht Hbrk Hap Hr Hfp Hsz] Hu El.
  pose proof Ht as (mid & H1 & Ha & Hn & H2)%tile_app. pose proof (tile_le _ _ _ H1). pose proof (tile_le _ _ _ H2).
  apply apart_app in Hap as (Ha1 & Ha2 & _). change KERNBASE with (2 ^ 31) in *.
  rewrite ring_app, frees_cons, Hu in Hr. cbn [app] in Hr. apply ulinked_app in Hr as [Hr1 Hr2].
  assert (Hc : load32 (h_mem s) (c_at c + 4) = c_n c) by (apply Hsz, list_elem_of_filter; set_solver).
  destruct (ring_last_in _ _ _ _ _ _ H1 Hb El) as (Hp & _).
  rewrite El in Hr1. apply ulinked_app in Hr1 as [_ (Hpn & Hps & _)]. cbn [first] in Hpn.
  rewrite padd_id by lia. destruct (first_frees (c_at c + 8 * c_n c) c2 (h_brk s)) as [(d & c2' & -> & Hd & Ef)|[Hd Ef]];
    [by rewrite Ha|lia| |].
  - rewrite Ef, Z.eqb_refl in *. destruct H2 as (Hda & Hdn & H2). pose proof (tile_le _ _ _ H2).
    rewrite frees_cons, Hd in Hr2. cbn [app] in Hr2. destruct Hr2 as (Hd1 & Hd2 & Hr2). rewrite Hda, <- Ha in Hd1, Hd2.
    pose proof (first_range _ _ _ H2 ltac:(lia) ltac:(lia)) as Hfr.
    unfold rd, wr. wp_steps. cbn [h_mem set_h_mem h_freep h_brk]. rewrite Hd2.
    rewrite (load_store_ne _ _ p), Hpn, (load_store_ne _ _ (c_at c + 8 * c_n c)), Hd1 by lia.
    exists (c_n c + c_n d), c2'. split_and!; try done.
    + intros x Hx. by rewrite !store32_off by lia.
    + rewrite load_store32. apply u32_id. lia.
    + rewrite load_store_ne, load_store32 by lia. rewrite u32_id by apply u32_range. apply u32_id. lia.
    + lia.
    + replace (c_at c + 8 * (c_n c + c_n d)) with (c_at c + 8 * c_n c + 8 * c_n d) by lia. by rewrite Ha.
    + destruct c2' as [|e c2']; [done|]. destruct Ha2 as (_ & Hde & Ha2). split; [right; destruct Hde as [Hde|Hde]; congruence|done].
    + by rewrite used_cons, Hd.
    + cbn. lia.
    + revert Hr2. apply linked_ext. intros a n x Hin Hx. pose proof (frees_range _ _ _ _ _ H2 Hin).
      by rewrite !store32_off by lia.
  - rewrite (proj2 (Z.eqb_neq _ _)) by lia. pose proof (first_range _ _ _ H2 ltac:(lia) ltac:(lia)) as Hfr.
    apply wp_modify. exists (c_n c), c2. cbn [h_mem set_h_mem h_freep h_brk]. split_and!; try done.
    + intros x Hx. by rewrite store32_off by lia.
    + rewrite load_store32. apply u32_id. lia.
    + by rewrite load_store_ne by lia.
    + by rewrite Ha.
    + apply apart_cons_free; [by destruct c2 as [|e c2]; [|apply Ha2]|done].
    + revert Hr2. apply linked_ext. intros a n x Hin Hx. pose proof (frees_range _ _ _ _ _ H2 Hin).
      by rewrite store32_off by lia.
Qed.

(** The second half: the free chunk before takes in the block [bp]. *)
Lemma down_wp lo s c1 bp N c2 p sz l z :
  0 < base /\ base + 8 <= lo -> tile lo c1 bp -> 1 <= N -> tile (bp + 8 * N) c2 (h_brk s) -> h_brk s <= KERNBASE ->
  apart c1 -> apart (mkchunk bp N false :: c2) ->
  ring c1 = l ++ [(p, sz)] -> linked (h_mem s) (ring c1) z -> linked (h_mem s) (frees c2) base ->
  load32 (h_mem s) bp = first (frees c2) base -> load32 (h_mem s) (bp + 4) = N ->
  wp (sz <-- rd (p + 4) ;;
      if padd p sz =? bp then
        n <-- rd (bp + 4) ;;
        wr (p + 4) (u32 (sz + n)) ;;;
        next <-- rd bp ;;
        wr p next
      else wr p bp)
     (fun _ s2 => exists c1s A N',
       (forall x, x < p \/ p + 8 <= x -> h_mem s2 x = h_mem s x) /\ h_freep s2 = h_freep s /\ h_brk s2 = h_brk s /\
       A + 8 * N' = bp + 8 * N /\ N <= N' /\ tile lo c1s A /\ apart (c1s ++ mkchunk A N' false :: c2) /\ used c1s = used c1 /\
       (length c1s <= length c1)%nat /\
       linked (h_mem s2) (ring (c1s ++ mkchunk A N' false :: c2)) base /\
       p ∈ map fst (ring (c1s ++ mkchunk A N' false :: c2))) s.
Proof.
  intros [Hb0 Hb] H1 HN H2 Hbrk Ha1 Ha2 El Hr1 Hr2 Hbp HbN. change KERNBASE with (2 ^ 31) in *.
  pose proof (tile_le _ _ _ H1). pose proof (tile_le _ _ _ H2).
  destruct (ring_last_in _ _ _ _ _ _ H1 Hb El) as (Hp & Hsz0 & Hpsz & Hpb).
  assert (Hl : forall m', (forall x, x < p \/ p + 8 <= x -> m' x = h_mem s x) -> linked m' l p).
  { intros m' Hm'. rewrite El in Hr1. apply ulinked_app in Hr1 as [Hl _]. revert Hl. apply linked_ext. intros a n x Hin Hx.
    pose proof (ring_before _ _ _ _ _ _ _ _ _ H1 Hb El Hin). apply Hm'. lia. }
  assert (Hc2 : forall m', (forall x, x < p \/ p + 8 <= x -> m' x = h_mem s x) -> linked m' (frees c2) base).
  { intros m' Hm'. revert Hr2. apply linked_ext. intros a n x Hin Hx. pose proof (frees_range _ _ _ _ _ H2 Hin).
    apply Hm'. lia. }
  pose proof (first_range _ _ _ H2 ltac:(lia) ltac:(lia)) as Hfr.
  assert (Hps : load32 (h_mem s) (p + 4) = sz) by (rewrite El in Hr1; apply ulinked_app in Hr1 as [_ Hr1]; apply Hr1).
  unfold rd, wr. apply wp_bind, wp_gets. rewrite Hps, padd_id by lia.
  destruct (last_frees lo c1 bp H1 Hb) as (l' & p' & sz' & El' & Hcase).
  rewrite El in El'. apply app_inj_tail in El' as [<- [= <- <-]]. destruct Hcase as [(c1' & -> & -> & Emid)|(Hu & Hlt & _)].
  - rewrite Emid, Z.eqb_refl. wp_steps. cbn [h_mem set_h_mem h_freep h_brk]. rewrite HbN.
    rewrite (load_store_ne _ _ bp), Hbp by lia. set (m' := store32 _ p _).
    assert (Hm' : forall x, x < p \/ p + 8 <= x -> m' x = h_mem s x) by (intros x Hx; unfold m'; by rewrite !store32_off by lia).
    apply tile_app in H1 as (mid & H1 & Hat & Hn1 & Hmid). cbn in Hat, Hn1, Hmid. subst mid.
    exists c1', p, (sz + N). split_and!; try done; [lia|lia| | | | |].
    + apply apart_app in Ha1 as (Ha1 & _ & Hlast). apply apart_app. split_and!; [done| |].
      * destruct c2; [done|]. apply Ha2.
      * intros c1'' c d c2' -> [= <- _]. left. destruct (Hlast c1'' c _ [] eq_refl eq_refl) as [|E]; [done|done].
    + rewrite used_app, used_cons. cbn. by rewrite app_nil_r.
    + rewrite length_app. lia.
    + rewrite ring_app, frees_cons. cbn [c_used c_at c_n app]. apply ulinked_app. split; [by apply Hl|].
      cbn [linked]. split_and!; [| |by apply Hc2].
      * unfold m'. rewrite load_store32. apply u32_id. lia.
      * unfold m'. rewrite load_store_ne, load_store32 by lia. rewrite u32_id by apply u32_range. apply u32_id. lia.
    + rewrite ring_app, frees_cons, map_app. cbn. set_solver.
  - rewrite (proj2 (Z.eqb_neq _ _)) by lia. apply wp_modify. cbn [h_mem set_h_mem h_freep h_brk]. set (m' := store32 _ p _).
    assert (Hm' : forall x, x < p \/ p + 8 <= x -> m' x = h_mem s x) by (intros x Hx; unfold m'; by rewrite !store32_off by lia).
    exists c1, bp, N. split_and!; try done.
    + apply apart_app. split_and!; [done|done|]. intros c1' c d c2' E _. left. by eapply Hu.
    + rewrite ring_app, frees_cons, El. cbn [c_used c_at c_n app]. rewrite <- app_assoc. apply ulinked_app. split; [by apply Hl|].
      cbn [linked app first]. split_and!; [| | | |by apply Hc2].
      * unfold m'. rewrite load_store32. apply u32_id. lia.
      * unfold m'. by rewrite load_store_ne by lia.
      * rewrite <- Hbp. apply load32_ext. intros x Hx. apply Hm'. lia.
      * rewrite <- HbN. apply load32_ext. intros x Hx. apply Hm'. lia.
    + rewrite ring_app, El, !map_app. cbn. set_solver.
Qed.

Lemma wp_assoc {S A B C} (m : M S A) (k : A -> M S B) (f : B -> M S C) Q s :
  wp (bind (bind m k) f) Q s -> wp (bind m (fun x => bind (k x) f)) Q s.
Proof. unfold wp, bind. by destruct (m s). Qed.
(** A used chunk is clear of the header of a block of the ring. *)
Lemma used_off_ring lo cs hi p sz d : tile lo cs hi -> base + 8 <= lo -> (p, sz) ∈ ring cs -> d ∈ used cs ->
  forall x, c_at d <= x < c_at d + 8 * c_n d -> x < p \/ p + 8 <= x.
Proof.
  intros Ht Hb Hp [Hu Hd]%list_elem_of_filter x Hx. pose proof (tile_in _ _ _ _ Ht Hd).
  destruct (ring_in _ _ _ _ _ Ht Hb Hp) as [[-> _]|(? & ? & ? & Hc)]; [lia|].
  destruct (tile_eq_or_disjoint _ _ _ _ _ Ht Hd Hc) as [->|[Ho|Ho]]; cbn in *; [done|lia|lia].
Qed.
Definition data_kept (ds : list chunk) (m m' : mem) : Prop :=
  forall d x, d ∈ ds -> c_at d <= x < c_at d + 8 * c_n d -> m' x = m x.
Lemma used_lt_size cs : (length (ring cs) <= S (length cs))%nat.
Proof. unfold ring, frees. cbn. rewrite length_map. pose proof (length_filter (fun c => c_used c = false) cs). lia. Qed.

Lemma used_mid c1 c c2 d : d ∈ used (c1 ++ c2) -> d ∈ used (c1 ++ c :: c2).
Proof. unfold used. rewrite !list_elem_of_filter. set_solver. Qed.
Lemma free_wp lo s c1 c c2 :
  hinv lo s (c1 ++ c :: c2) -> c_used c = true -> (length (c1 ++ c :: c2) < fuel)%nat ->
  wp (free fuel (c_at c + 8)) (fun _ s' => exists c1s fr c2s,
    hinv lo s' (c1s ++ fr :: c2s) /\ c_used fr = false /\ c_n c <= c_n fr /\ used c1s = used c1 /\ used c2s = used c2 /\
    (length (c1s ++ fr :: c2s) <= length (c1 ++ c :: c2))%nat /\
    h_brk s' = h_brk s /\ data_kept (used (c1 ++ c2)) (h_mem s) (h_mem s')) s.
Proof.
  intros Hs Hu Hfuel. pose proof Hs as [[Hb0 Hb] Ht Hbrk Hap Hr Hfp Hsz]. change KERNBASE with (2 ^ 31) in Hbrk.
  pose proof Ht as (mid & H1 & Ha & Hn & H2)%tile_app. subst mid. pose proof (tile_le _ _ _ H1). pose proof (tile_le _ _ _ H2).
  destruct (last_frees lo c1 _ H1 Hb) as (l & p & sz & El & _).
  assert (Er : ring (c1 ++ c :: c2) = ring c1 ++ frees c2) by (by rewrite ring_app, frees_cons, Hu).
  assert (Hpin : (p, sz) ∈ ring (c1 ++ c :: c2)) by (rewrite Er, El; set_solver).
  assert (Hc : load32 (h_mem s) (c_at c + 4) = c_n c) by (apply Hsz, list_elem_of_filter; set_solver).
  pose proof Hr as Hr'. rewrite Er in Hr'. apply ulinked_app in Hr' as [Hr1 _].
  assert (Hpn : load32 (h_mem s) p = first (frees c2) base) by (rewrite El in Hr1; apply ulinked_app in Hr1 as [_ Hr1]; apply Hr1).
  unfold free. replace (u32 (c_at c + 8 - sizeof_Header)) with (c_at c) by (unfold sizeof_Header; rewrite u32_id; lia).
  apply wp_bind, wp_gets. apply list_elem_of_fmap in Hfp as ([fa fn] & Efp & (i & Hi)%list_elem_of_lookup_1). cbn in Efp.
  assert (Hj : ring (c1 ++ c :: c2) !! length (frees c1) = Some (p, sz)).
  { rewrite Er, lookup_app_l by (cbn; lia). rewrite El. apply (f_equal length) in El. rewrite length_app in El. cbn in El.
    rewrite lookup_app_r by lia. replace (length (frees c1) - length l)%nat with O by lia. done. }
  apply wp_bind. unfold wp at 1. rewrite Efp.
  rewrite (free_find s _ _ _ p sz i fa fn fuel Hr (ring_sorted_at _ _ _ _ _ Ht Hb Hu) Hj Hi).
  2: { pose proof (dist_lt (length (ring (c1 ++ c :: c2))) i (length (frees c1)) (lookup_lt_Some _ _ _ Hi) (lookup_lt_Some _ _ _ Hj)).
       pose proof (used_lt_size (c1 ++ c :: c2)). lia. }
  apply wp_bind, wp_gets, wp_bind, wp_gets. rewrite Hc, Hpn. apply wp_bind.
  eapply wp_mono; [by eapply up_wp|]. intros [] s1 (N & c2s & Hoff1 & Hf1 & Hbk1 & Hbp1 & HN1 & HN & Ht1 & Hap1 & Hu1 & Hlen1 & Hl1).
  apply wp_assoc, wp_bind. apply apart_app in Hap as (Hap & _ & _).
  assert (Hr1' : linked (h_mem s1) (ring c1) (first (frees c2) base)).
  { revert Hr1. apply linked_ext. intros a n x Hin Hx. apply Hoff1.
    destruct (ring_in _ _ _ _ _ H1 Hb Hin) as [[-> _]|(? & ? & ? & _)]; lia. }
  eapply wp_mono; [apply (down_wp lo s1 c1 (c_at c) N c2s p sz l (first (frees c2) base)); try done; rewrite ?Hbk1; try done; lia|].
  intros [] s2 (c1s & A & N' & Hoff2 & Hf2 & Hbk2 & EA & HNN & HtA & HapA & HuA & HlenA & HlA & HpA).
  assert (Hdata : data_kept (used (c1 ++ c2)) (h_mem s) (h_mem s2)).
  { intros d x Hd Hx. pose proof (used_mid _ c _ _ Hd) as Hd'.
    rewrite Hoff2 by (by apply (used_off_ring _ _ _ _ _ _ Ht Hb Hpin Hd')). apply Hoff1. apply list_elem_of_filter in Hd as [_ Hd].
    pose proof (tile_disjoint _ _ _ _ _ _ Ht Hd). lia. }
  apply wp_modify. exists c1s, (mkchunk A N' false), c2s. split_and!; cbn; try done; [|lia|rewrite !length_app; cbn; lia|by rewrite Hbk2].
  split; cbn [h_mem h_freep h_brk set_h_freep]; rewrite ?Hbk2, ?Hbk1; try done.
  - apply tile_app. exists A. split; [done|]. cbn. split_and!; [done|lia|]. by rewrite EA.
  - intros d Hd. assert (Hd' : d ∈ used (c1 ++ c2)).
    { rewrite used_app, used_cons in Hd. cbn in Hd. rewrite HuA, Hu1, <- used_app in Hd. done. }
    rewrite <- (Hsz d) by (by apply used_mid). apply load32_ext. intros x Hx.
    apply (Hdata d); [done|]. apply list_elem_of_filter in Hd' as [_ Hd'].
    assert (1 <= c_n d) by (apply elem_of_app in Hd' as [Hd'|Hd']; [apply (tile_in _ _ _ _ H1 Hd')|apply (tile_in _ _ _ _ H2 Hd')]). lia.
Qed.

(** ** malloc *)

Lemma frees_split cs i p sz : frees cs !! i = Some (p, sz) ->
  exists c1 c2, cs = c1 ++ mkchunk p sz false :: c2 /\ length (frees c1) = i.
Proof.
  revert i. induction cs as [|c cs IH]; intros i; [done|]. rewrite frees_cons. destruct c as [a n []]; cbn [c_used app c_at c_n].
  - intros (c1 & c2 & -> & <-)%IH. exists (mkchunk a n true :: c1), c2. by rewrite frees_cons.
  - destruct i as [|i]; cbn [lookup list_lookup].
    + intros [= -> ->]. by exists [], cs.
    + intros (c1 & c2 & -> & <-)%IH. exists (mkchunk a n false :: c1), c2. by rewrite frees_cons.
Qed.
Lemma apart_used_mid c1 c c2 a n : apart (c1 ++ c :: c2) -> apart (c1 ++ mkchunk a n true :: c2).
Proof.
  rewrite !apart_app. intros (H1 & H2 & H3). split_and!; [done| |].
  - destruct c2; [done|]. split; [by left|]. apply H2.
  - intros c1' d e c2' -> [= <- _]. by right.
Qed.
Lemma apart_split_mid c1 a n b k a' n' c2 : apart (c1 ++ mkchunk a n false :: c2) ->
  apart (c1 ++ mkchunk a' n' false :: mkchunk b k true :: c2).
Proof.
  rewrite !apart_app. intros (H1 & H2 & H3). split_and!; [done| |].
  - split; [by right|]. destruct c2; [done|]. split; [by left|]. apply H2.
  - intros c1' d e c2' -> [= <- _]. left. destruct (H3 c1' d _ c2 eq_refl eq_refl) as [|E]; [done|done].
Qed.

Lemma hinv_size lo s cs c1 c2 new m' :
  hinv lo s cs -> used cs = used (c1 ++ c2) -> data_kept (used cs) (h_mem s) m' -> load32 m' (c_at new + 4) = c_n new ->
  forall c, c ∈ used (c1 ++ new :: c2) -> load32 m' (c_at c + 4) = c_n c.
Proof.
  intros Hs Eu Hk Hnew c Hc. rewrite used_app, used_cons in Hc.
  assert (Hc' : c = new \/ c ∈ used cs). { rewrite Eu, used_app. destruct (c_used new); set_solver. }
  destruct Hc' as [->|Hc']; [done|]. rewrite <- (hi_size _ _ _ Hs c Hc'). apply load32_ext. intros x Hx. apply (Hk c); [done|].
  apply list_elem_of_filter in Hc' as [_ Hc']. pose proof (tile_in _ _ _ _ (hi_tile _ _ _ Hs) Hc'). lia.
Qed.

(** A free chunk of the right size leaves the ring. *)
Lemma take_exact lo s c1 c2 l prevp psz p n :
  hinv lo s (c1 ++ mkchunk p n false :: c2) -> ring c1 = l ++ [(prevp, psz)] ->
  let m' := store32 (h_mem s) prevp (load32 (h_mem s) p) in
  hinv lo (mkheap m' prevp (h_brk s)) (c1 ++ mkchunk p n true :: c2) /\
  data_kept (used (c1 ++ mkchunk p n false :: c2)) (h_mem s) m'.
Proof.
  intros Hs El m'. pose proof Hs as [[Hb0 Hb] Ht Hbrk Hap Hr Hfp Hsz]. change KERNBASE with (2 ^ 31) in *.
  pose proof Ht as (mid & H1 & Ha & Hn & H2)%tile_app. cbn in Ha, Hn, H2. subst mid. pose proof (tile_le _ _ _ H1). pose proof (tile_le _ _ _ H2).
  destruct (ring_last_in _ _ _ _ _ _ H1 Hb El) as (Hp & Hsz0 & Hpsz & Hpb).
  pose proof (first_range _ _ _ H2 ltac:(lia) ltac:(lia)) as Hfr.
  assert (Hoff : forall x, x < prevp \/ prevp + 8 <= x -> m' x = h_mem s x) by (intros x Hx; apply store32_off; lia).
  rewrite ring_app, frees_cons in Hr. cbn [c_used c_at c_n app] in Hr. apply ulinked_app in Hr as [Hr1 (Hp1 & Hp2 & Hr2)].
  assert (Hk : data_kept (used (c1 ++ mkchunk p n false :: c2)) (h_mem s) m').
  { intros d x Hd Hx. apply Hoff. apply (used_off_ring _ _ _ prevp psz d Ht Hb); [|done|done].
    rewrite ring_app, El. set_solver. }
  split; [|done]. split; cbn [h_mem h_freep h_brk]; try done.
  - apply tile_app. by exists p.
  - by eapply apart_used_mid.
  - rewrite ring_app, frees_cons, El. cbn [c_used app]. rewrite <- app_assoc. rewrite El in Hr1.
    apply ulinked_app in Hr1 as [Hl (_ & Hs1 & _)]. apply ulinked_app. split; [|cbn [app linked first]; split_and!].
    + revert Hl. apply linked_ext. intros a k x Hin Hx. pose proof (ring_before _ _ _ _ _ _ _ _ _ H1 Hb El Hin). apply Hoff. lia.
    + unfold m'. rewrite load_store32, Hp1. apply u32_id. lia.
    + unfold m'. by rewrite load_store_ne by lia.
    + revert Hr2. apply linked_ext. intros a k x Hin Hx. pose proof (frees_range _ _ _ _ _ H2 Hin). apply Hoff. lia.
  - rewrite ring_app, El, !map_app. cbn. set_solver.
  - apply (hinv_size lo s _ c1 c2 (mkchunk p n true) m' Hs); [by rewrite !used_app, used_cons|done|]. cbn.
    unfold m'. by rewrite load_store_ne by lia.
Qed.
(** A larger one is cut: the end is used, the rest stays in the ring. *)
Lemma take_part lo s c1 c2 l prevp psz p sz n :
  hinv lo s (c1 ++ mkchunk p sz false :: c2) -> ring c1 = l ++ [(prevp, psz)] -> 1 <= n < sz ->
  let q := p + 8 * (sz - n) in
  let m' := store32 (store32 (h_mem s) (p + 4) (sz - n)) (q + 4) n in
  hinv lo (mkheap m' prevp (h_brk s)) (c1 ++ mkchunk p (sz - n) false :: mkchunk q n true :: c2) /\
  data_kept (used (c1 ++ mkchunk p sz false :: c2)) (h_mem s) m'.
Proof.
  intros Hs El Hn q m'. pose proof Hs as [[Hb0 Hb] Ht Hbrk Hap Hr Hfp Hsz]. change KERNBASE with (2 ^ 31) in *.
  pose proof Ht as (mid & H1 & Ha & _ & H2)%tile_app. cbn in Ha, H2. subst mid. pose proof (tile_le _ _ _ H1). pose proof (tile_le _ _ _ H2).
  assert (Hoff : forall x, x < p \/ p + 8 * sz <= x -> m' x = h_mem s x) by (intros x Hx; unfold m', q; rewrite !store32_off by lia; done).
  rewrite ring_app, frees_cons in Hr. cbn [c_used c_at c_n app] in Hr. apply ulinked_app in Hr as [Hr1 (Hp1 & Hp2 & Hr2)].
  assert (Hk : data_kept (used (c1 ++ mkchunk p sz false :: c2)) (h_mem s) m').
  { intros d x [Hu Hd]%list_elem_of_filter Hx. apply Hoff. assert (Hd' : d ∈ c1 ++ c2).
    { apply elem_of_app in Hd as [Hd|[->|Hd]%elem_of_cons]; [set_solver|done|set_solver]. }
    destruct (tile_disjoint _ _ _ _ _ _ Ht Hd') as [Hx'|Hx']; cbn in Hx'; lia. }
  split; [|done]. split; cbn [h_mem h_freep h_brk]; try done.
  - apply tile_app. exists p. split; [done|]. cbn. split_and!; [done|lia|unfold q; lia|lia|].
    by replace (p + 8 * (sz - n) + 8 * n) with (p + 8 * sz) by lia.
  - by eapply apart_split_mid.
  - rewrite ring_app, !frees_cons. cbn [c_used c_at c_n app]. apply ulinked_app. split; [|cbn [linked first]; split_and!].
    + revert Hr1. apply linked_ext. intros a k x Hin Hx. apply Hoff.
      destruct (ring_in _ _ _ _ _ H1 Hb Hin) as [[-> _]|(? & ? & ? & _)]; lia.
    + rewrite <- Hp1. apply load32_ext. intros x Hx. unfold m', q. rewrite !store32_off by lia. done.
    + unfold m', q. rewrite load_store_ne, load_store32 by lia. apply u32_id. lia.
    + revert Hr2. apply linked_ext. intros a k x Hin Hx. pose proof (frees_range _ _ _ _ _ H2 Hin). apply Hoff. lia.
  - rewrite ring_app, El, !map_app. cbn. set_solver.
  - change (c1 ++ mkchunk p (sz - n) false :: mkchunk q n true :: c2) with (c1 ++ [mkchunk p (sz - n) false] ++ mkchunk q n true :: c2).
    rewrite app_assoc. apply (hinv_size lo s _ (c1 ++ [mkchunk p (sz - n) false]) c2 (mkchunk q n true) m' Hs); [|done|].
    + rewrite !used_app, !used_cons. cbn. by rewrite app_nil_r.
    + cbn. unfold m'. rewrite load_store32. apply u32_id. lia.
Qed.

Definition gives (cs : list chunk) (lo n : Z) (s : heap) (r : Z) (s' : heap) : Prop :=
  exists cs', hinv lo s' cs' /\ 8 < r /\ used cs' ≡ₚ mkchunk (r - 8) n true :: used cs /\
    data_kept (used cs) (h_mem s) (h_mem s').
(** The block [p] after [prevp] in the ring is large enough: [malloc] takes its
    last [nunits] units. *)
Lemma take_wp lo s cs i prevp psz p sz nunits :
  hinv lo s cs -> ring cs !! i = Some (prevp, psz) -> ring cs !! succ (length (ring cs)) i = Some (p, sz) ->
  1 <= nunits <= sz ->
  wp (malloc_step grant fuel nunits (prevp, p)) (fun r s' => exists a, r = inr a /\ gives cs lo nunits s a s') s.
Proof.
  intros Hs Hi Hp Hn. pose proof Hs as [[Hb0 Hb] Ht Hbrk Hap Hr Hfp Hsz]. change KERNBASE with (2 ^ 31) in Hbrk.
  destruct (linked_at _ _ _ _ _ _ Hr Hp) as [_ Hpsz].
  unfold succ in Hp. case_decide as Hlt; [|cbn in Hp; injection Hp; lia].
  destruct (frees_split _ _ _ _ Hp) as (c1 & c2 & -> & Hlen).
  pose proof Ht as (mid & H1 & Ha & _ & H2)%tile_app. cbn in Ha, H2. subst mid. pose proof (tile_le _ _ _ H1). pose proof (tile_le _ _ _ H2).
  destruct (last_frees lo c1 p H1 Hb) as (l & pp & ps & El & _).
  assert (Ep : (pp, ps) = (prevp, psz)).
  { rewrite ring_app, El, <- app_assoc in Hi. apply (f_equal length) in El. rewrite length_app in El. cbn in El.
    rewrite lookup_app_r in Hi by lia. replace (i - length l)%nat with O in Hi by lia. cbn in Hi. congruence. }
  injection Ep as [= -> ->].
  unfold malloc_step. apply wp_bind, wp_gets. rewrite Hpsz, (proj2 (Z.leb_le _ _)) by lia.
  destruct (Z.eqb_spec sz nunits) as [->|Hne]; unfold rd, wr; wp_steps; cbn [h_mem h_freep h_brk set_h_mem set_h_freep].
  - exists (padd p 1). rewrite padd_id by lia. split; [done|]. destruct (take_exact _ _ _ _ _ _ _ _ _ Hs El) as [H3 H4].
    eexists. split; [exact H3|]. split; [lia|]. split; [|done]. rewrite !used_app, !used_cons. cbn [c_used app].
    replace (p + 8 * 1 - 8) with p by lia. symmetry. apply Permutation_middle.
  - rewrite load_store32, u32_id by lia. rewrite (padd_id p) by lia. eexists. split; [done|]. rewrite padd_id by lia.
    destruct (take_part _ _ _ _ _ _ _ _ _ nunits Hs El ltac:(lia)) as [H3 H4].
    eexists. split; [exact H3|]. split; [lia|]. split; [|done]. rewrite !used_app, !used_cons. cbn [c_used app].
    replace (p + 8 * (sz - nunits) + 8 * 1 - 8) with (p + 8 * (sz - nunits)) by lia. symmetry. apply Permutation_middle.
Qed.

(** The kernel keeps a process below [KERNBASE]. *)
Context (grant_limit : forall b n, grant b n = true -> b + n <= KERNBASE).
Definition core_units (nu : Z) : Z := if nu <? 4096 then 4096 else nu.

Lemma morecore_wp lo s cs nu : hinv lo s cs -> 1 <= nu < 2 ^ 28 -> (S (length cs) < fuel)%nat ->
  wp (morecore grant fuel nu) (fun q s' =>
    (q = 0 /\ s' = s /\ grant (h_brk s) (8 * core_units nu) = false) \/
    (q = h_freep s' /\ q <> 0 /\ exists cs', hinv lo s' cs' /\ used cs' = used cs /\ (length cs' <= S (length cs))%nat /\
       data_kept (used cs) (h_mem s) (h_mem s') /\ exists a n, (a, n) ∈ ring cs' /\ nu <= n)) s.
Proof.
  intros Hs Hnu Hfuel. pose proof Hs as [[Hb0 Hb] Ht Hbrk Hap Hr Hfp Hsz]. change KERNBASE with (2 ^ 31) in Hbrk.
  pose proof (tile_le _ _ _ Ht). unfold morecore, sbrk. change (if nu <? 4096 then 4096 else nu) with (core_units nu).
  assert (Hc : nu <= core_units nu < 2 ^ 28 /\ 1 <= core_units nu) by (unfold core_units; case_match; lia).
  replace (i32 (core_units nu * sizeof_Header)) with (8 * core_units nu) by (unfold sizeof_Header; rewrite i32_id; lia).
  apply wp_bind, wp_bind, wp_gets. destruct (grant (h_brk s) (8 * core_units nu)) eqn:Eg; [|apply wp_ret; left; done].
  apply grant_limit in Eg. change KERNBASE with (2 ^ 31) in Eg. wp_step. wp_step. wp_step.
  change (u32 (-1)) with 4294967295. rewrite (proj2 (Z.eqb_neq _ _)) by lia. apply wp_bind, wp_modify, wp_bind.
  cbn [h_mem h_freep h_brk set_h_mem set_h_brk]. rewrite (u32_id (h_brk s + _)) by lia. rewrite padd_id by lia.
  set (c := mkchunk (h_brk s) (core_units nu) true).
  assert (Hs1 : hinv lo (mkheap (store32 (h_mem s) (h_brk s + 4) (core_units nu)) (h_freep s) (h_brk s + 8 * core_units nu)) (cs ++ [c])).
  { assert (Hoff : forall x, x < h_brk s -> store32 (h_mem s) (h_brk s + 4) (core_units nu) x = h_mem s x) by (intros; apply store32_off; lia).
    split; cbn [h_mem h_freep h_brk]; try done.
    - apply tile_app. exists (h_brk s). split; [done|]. cbn. lia.
    - apply apart_app. split_and!; [done|done|]. intros ? ? ? ? _ [= <- _]. by right.
    - rewrite ring_app, frees_cons. cbn [c_used c app]. rewrite app_nil_r. revert Hr. apply linked_ext. intros a n x Hin Hx.
      apply Hoff. destruct (ring_in _ _ _ _ _ Ht Hb Hin) as [[-> _]|(? & ? & ? & _)]; lia.
    - rewrite ring_app, frees_cons. cbn [c_used c app]. by rewrite app_nil_r.
    - apply (hinv_size lo s cs cs [] c _ Hs); [by rewrite app_nil_r| |].
      + intros d x [_ Hd]%list_elem_of_filter Hx. pose proof (tile_in _ _ _ _ Ht Hd). apply Hoff. lia.
      + cbn. rewrite load_store32. apply u32_id. lia. }
  eapply wp_mono; [apply (free_wp lo _ cs c []); [exact Hs1|done|rewrite length_app; cbn; lia]|].
  intros [] s' (c1s & fr & c2s & Hs' & Hfr & Hn & Hu1 & Hu2 & Hlen & _ & Hk). apply wp_gets. right. split; [done|]. split.
  { pose proof (hi_freep _ _ _ Hs') as Hin. apply list_elem_of_fmap in Hin as ([a n] & -> & Hin).
    destruct (ring_in _ _ _ _ _ (hi_tile _ _ _ Hs') Hb Hin) as [[-> _]|(? & ? & ? & _)]; cbn; lia. }
  exists (c1s ++ fr :: c2s). split_and!.
  - done.
  - rewrite used_app, used_cons, Hfr, Hu1, Hu2. cbn. by rewrite app_nil_r.
  - rewrite (length_app cs) in Hlen. cbn in Hlen. lia.
  - rewrite app_nil_r in Hk. intros d x Hd Hx. rewrite (Hk d x Hd Hx). apply list_elem_of_filter in Hd as [_ Hd].
    pose proof (tile_in _ _ _ _ Ht Hd). cbn. apply store32_off. lia.
  - exists (c_at fr), (c_n fr). split; [|cbn in Hn; lia]. rewrite ring_app, frees_cons, Hfr. set_solver.
Qed.

(** ** The loop of malloc *)

Lemma dist_last m k : (k < m)%nat -> dist m (succ m k) k = (m - 1)%nat.
Proof. unfold dist, succ. intros. repeat case_decide; lia. Qed.
Lemma succ_lt m i : (0 < m)%nat -> (succ m i < m)%nat.
Proof. unfold succ. intros. case_decide; lia. Qed.
Lemma ring_index lo s cs i j a n k : hinv lo s cs -> ring cs !! i = Some (a, n) -> ring cs !! j = Some (a, k) -> i = j.
Proof.
  intros [[_ Hb] Ht _ _ _ _ _] Hi Hj. destruct (decide (i < j)%nat) as [H|H].
  - pose proof (ring_sorted _ _ _ _ _ _ _ _ _ Ht Hb Hi Hj H). lia.
  - destruct (decide (j < i)%nat) as [H'|H']; [|lia]. pose proof (ring_sorted _ _ _ _ _ _ _ _ _ Ht Hb Hj Hi H'). lia.
Qed.

Section search.
Context (lo : Z) (s : heap) (cs : list chunk) (k : nat) (fn nunits : Z) (Q : Z -> heap -> Prop).
Context (Hs : hinv lo s cs) (Hk : ring cs !! k = Some (h_freep s, fn)) (Hn : 1 <= nunits).
Context (HQ : forall r s', gives cs lo nunits s r s' -> Q r s').
Let m := length (ring cs).

(** One turn: the block [p] at the next index is taken, or the search moves on. *)
Lemma turn_wp f i prevp psz p sz :
  ring cs !! i = Some (prevp, psz) -> ring cs !! succ m i = Some (p, sz) ->
  (sz < nunits -> p <> h_freep s -> forall next nsz, ring cs !! succ m (succ m i) = Some (next, nsz) ->
     wp (loop f (malloc_step grant fuel nunits) (p, next)) Q s) ->
  (sz < nunits -> p = h_freep s -> wp (loop (S f) (malloc_step grant fuel nunits) (prevp, p)) Q s) ->
  wp (loop (S f) (malloc_step grant fuel nunits) (prevp, p)) Q s.
Proof.
  intros Hi Hp Hnext Hfp. destruct (decide (nunits <= sz)) as [Hle|Hgt].
  - cbn [loop]. apply wp_bind. eapply wp_mono; [eapply take_wp; eauto|]. intros r s' (a & -> & Hg). apply wp_ret. by apply HQ.
  - destruct (decide (p = h_freep s)) as [E|Hne]; [apply Hfp; [lia|done]|].
    destruct (ring_next _ _ _ _ _ (hi_ring _ _ _ Hs) eq_refl Hp) as (b & nb & Hb & Hload & Hsz).
    cbn [loop]. apply wp_bind. unfold malloc_step at 1. apply wp_bind, wp_gets. rewrite Hsz, (proj2 (Z.leb_gt _ _)) by lia.
    apply wp_bind, wp_gets. rewrite (proj2 (Z.eqb_neq _ _)) by done. apply wp_bind, wp_gets, wp_ret. rewrite Hload.
    eapply Hnext; [lia|done|exact Hb].
Qed.
(** The search reaches [freep] if nothing before is large enough. *)
Lemma search_wp d : forall f i prevp psz p sz,
  ring cs !! i = Some (prevp, psz) -> ring cs !! succ m i = Some (p, sz) -> d = dist m (succ m i) k -> (d < f)%nat ->
  (forall f' pp, (f = f' + S d)%nat -> fn < nunits -> wp (loop (S f') (malloc_step grant fuel nunits) (pp, h_freep s)) Q s) ->
  wp (loop f (malloc_step grant fuel nunits) (prevp, p)) Q s.
Proof.
  induction d as [|d IH]; intros f i prevp psz p sz Hi Hp Ed Hf Hc; (destruct f as [|f]; [lia|]);
    pose proof (lookup_lt_Some _ _ _ Hp) as Hlt; pose proof (lookup_lt_Some _ _ _ Hk) as Hklt; fold m in Hlt, Hklt.
  - apply dist_zero in Ed; [|done]. rewrite Ed, Hk in Hp. injection Hp as [= <- <-].
    eapply turn_wp; [exact Hi|by rewrite Ed, Hk|done|]. intros Hsm _. apply Hc; [lia|done].
  - eapply turn_wp; [exact Hi|exact Hp| |].
    + intros Hsm Hne next nsz Hnx. assert (Hik : succ m i <> k) by (intros E; rewrite E, Hk in Hp; congruence).
      rewrite dist_succ in Ed by done. injection Ed as [= Ed].
      eapply (IH f (succ m i)); [exact Hp|exact Hnx|exact Ed|lia|]. intros f' pp Ef. apply Hc. lia.
    + intros Hsm ->. assert (E : succ m i = k) by (by eapply ring_index). rewrite E, dist_self in Ed. done.
Qed.
(** The search takes a block if it passes one large enough before [freep]. *)
Lemma found_wp j ja jn : ring cs !! j = Some (ja, jn) -> nunits <= jn -> forall d f i prevp psz p sz,
  ring cs !! i = Some (prevp, psz) -> ring cs !! succ m i = Some (p, sz) -> d = dist m (succ m i) j -> (d < f)%nat ->
  (d <= dist m (succ m i) k)%nat -> wp (loop f (malloc_step grant fuel nunits) (prevp, p)) Q s.
Proof.
  intros Hj Hjn d. induction d as [|d IH]; intros f i prevp psz p sz Hi Hp Ed Hf Hdk; (destruct f as [|f]; [lia|]);
    pose proof (lookup_lt_Some _ _ _ Hp) as Hlt; pose proof (lookup_lt_Some _ _ _ Hj) as Hjlt;
    pose proof (lookup_lt_Some _ _ _ Hk) as Hklt; fold m in Hlt, Hjlt, Hklt.
  - apply dist_zero in Ed; [|done]. rewrite Ed, Hj in Hp. injection Hp as [= <- <-].
    eapply turn_wp; [exact Hi|by rewrite Ed, Hj|lia|lia].
  - assert (Hik : succ m i <> k) by (intros E; rewrite E, dist_self in Hdk; lia).
    eapply turn_wp; [exact Hi|exact Hp| |].
    + intros Hsm _ next nsz Hnx. assert (Hij : succ m i <> j) by (intros E; rewrite E, Hj in Hp; injection Hp; lia).
      rewrite dist_succ in Ed by done. injection Ed as [= Ed]. rewrite (dist_succ m (succ m i) k) in Hdk by done.
      eapply (IH f (succ m i)); [exact Hp|exact Hnx|exact Ed|lia|lia].
    + intros _ ->. assert (E : succ m i = k) by (by eapply ring_index). done.
Qed.
End search.

Definition units (nbytes : Z) : Z := (nbytes + 7) / 8 + 1.
(** [freep] is 0 before the first [malloc]. *)
Definition heap_ok (lo : Z) (s : heap) (cs : list chunk) : Prop :=
  hinv lo s cs \/ (h_freep s = 0 /\ cs = [] /\ h_brk s = lo /\ 0 < base /\ base + 8 <= lo <= KERNBASE).

Lemma malloc_loop lo s cs k fn nunits p : hinv lo s cs -> ring cs !! k = Some (h_freep s, fn) -> 1 <= nunits < 2 ^ 28 ->
  (2 * length cs + 4 < fuel)%nat -> load32 (h_mem s) (h_freep s) = p ->
  wp (loop fuel (malloc_step grant fuel nunits) (h_freep s, p)) (fun r s' =>
    (r = 0 /\ s' = s /\ grant (h_brk s) (8 * core_units nunits) = false) \/ gives cs lo nunits s r s') s.
Proof.
  intros Hs Hk Hn Hfuel Hp. pose proof (used_lt_size cs) as Hm. pose proof (lookup_lt_Some _ _ _ Hk) as Hklt.
  destruct (ring_next _ _ _ _ _ (hi_ring _ _ _ Hs) eq_refl Hk) as (b & nb & Hb & Hload & _).
  assert (b = p) as -> by congruence. pose proof (dist_last _ _ Hklt) as Hd.
  eapply (search_wp lo s cs k fn nunits _ Hs Hk ltac:(lia)); [by right|exact Hk|exact Hb|reflexivity|lia|].
  intros f' pp Ef Hsm. rewrite Hd in Ef. cbn [loop]. apply wp_bind. unfold malloc_step at 1.
  destruct (ring_next _ _ _ _ _ (hi_ring _ _ _ Hs) eq_refl Hk) as (_ & _ & _ & _ & Hfsz).
  apply wp_bind, wp_gets. rewrite Hfsz, (proj2 (Z.leb_gt _ _)) by done. apply wp_bind, wp_gets. rewrite Z.eqb_refl.
  apply wp_bind. eapply wp_mono; [apply (morecore_wp lo s cs nunits Hs Hn); lia|].
  intros q s1 [(-> & -> & Hg)|(Hq & Hq0 & cs1 & Hs1 & Hu1 & Hl1 & Hk1 & a & n & Ha & Han)]; [apply wp_ret, wp_ret; by left|].
  rewrite (proj2 (Z.eqb_neq _ _)) by done. apply wp_bind, wp_gets, wp_ret. subst q.
  pose proof (hi_freep _ _ _ Hs1) as Hin. apply list_elem_of_fmap in Hin as ([fa1 fn1] & Efa & (k1 & Hk1')%list_elem_of_lookup_1).
  cbn in Efa. rewrite <- Efa in Hk1'. apply list_elem_of_lookup_1 in Ha as (j & Hj).
  destruct (ring_next _ _ _ _ _ (hi_ring _ _ _ Hs1) eq_refl Hk1') as (b1 & nb1 & Hb1 & Hload1 & _). rewrite Hload1.
  pose proof (used_lt_size cs1). pose proof (lookup_lt_Some _ _ _ Hk1') as Hk1lt. pose proof (lookup_lt_Some _ _ _ Hj) as Hjlt.
  assert (Hsl : (succ (length (ring cs1)) k1 < length (ring cs1))%nat) by (apply succ_lt; lia).
  pose proof (dist_lt _ _ j Hsl Hjlt) as Hdj.
  eapply (found_wp lo s1 cs1 k1 fn1 nunits _ Hs1 Hk1' ltac:(lia)); [|exact Hj|done|exact Hk1'|exact Hb1|reflexivity|lia|rewrite dist_last by done; lia].
  intros r s' (cs' & H1 & H2 & H3 & H4). right. exists cs'. split_and!; [done|done|by rewrite <- Hu1|].
  intros d x Hd' Hx. rewrite <- (Hk1 d x Hd' Hx). apply (H4 d); [by rewrite Hu1|done].
Qed.

(** C30. [malloc] returns, for any request below 2 GB: either 0, when the kernel
    refuses the memory, with the heap as before, or the address of a new block of
    at least [nbytes] bytes inside the heap, disjoint from every block in use.
    The blocks in use keep their place, size and contents. *)
Theorem malloc_spec lo s cs nbytes :
  heap_ok lo s cs -> 0 <= nbytes <= 2 ^ 31 - 16 -> (2 * length cs + 4 < fuel)%nat ->
  wp (malloc base grant fuel nbytes) (fun r s' => exists cs',
    heap_ok lo s' cs' /\ data_kept (used cs) (h_mem s) (h_mem s') /\
    ((r = 0 /\ used cs' = used cs /\ grant (h_brk s) (8 * core_units (units nbytes)) = false) \/
     (used cs' ≡ₚ mkchunk (r - 8) (units nbytes) true :: used cs /\ lo + 8 <= r /\ r + nbytes <= h_brk s' /\
      forall d, d ∈ used cs -> c_at d + 8 * c_n d <= r \/ r + nbytes <= c_at d))) s.
Proof.
  intros Hok Hn Hfuel. assert (Hu : 1 <= units nbytes < 2 ^ 28 /\ nbytes <= 8 * (units nbytes - 1)) by (unfold units; zlia).
  assert (Hgo : forall s1 fn k p, hinv lo s1 cs -> ring cs !! k = Some (h_freep s1, fn) -> load32 (h_mem s1) (h_freep s1) = p ->
    h_brk s1 = h_brk s -> data_kept (used cs) (h_mem s) (h_mem s1) ->
    wp (loop fuel (malloc_step grant fuel (units nbytes)) (h_freep s1, p)) (fun r s' => exists cs',
    heap_ok lo s' cs' /\ data_kept (used cs) (h_mem s) (h_mem s') /\
    ((r = 0 /\ used cs' = used cs /\ grant (h_brk s) (8 * core_units (units nbytes)) = false) \/
     (used cs' ≡ₚ mkchunk (r - 8) (units nbytes) true :: used cs /\ lo + 8 <= r /\ r + nbytes <= h_brk s' /\
      forall d, d ∈ used cs -> c_at d + 8 * c_n d <= r \/ r + nbytes <= c_at d))) s1).
  { intros s1 fn k p Hs1 Hk Hp Hbk Hdk. eapply wp_mono; [eapply malloc_loop; eauto; lia|].
    intros r s' [(-> & -> & Hg)|(cs' & H1 & H2 & H3 & H4)].
    - exists cs. rewrite Hbk in Hg. split_and!; [by left|done|by left].
    - exists cs'. split_and!; [by left| |right].
      { intros d x Hd Hx. rewrite (H4 d x Hd Hx). by apply (Hdk d). }
      pose proof (hi_tile _ _ _ H1) as Ht. assert (Hnew : mkchunk (r - 8) (units nbytes) true ∈ used cs') by (rewrite H3; left).
      apply list_elem_of_filter in Hnew as [_ Hnew]. pose proof (tile_in _ _ _ _ Ht Hnew) as Hr. cbn in Hr.
      split_and!; [done|lia|lia|]. intros d Hd. assert (Hd' : d ∈ used cs') by (rewrite H3; by right).
      apply list_elem_of_filter in Hd' as [_ Hd']. destruct (tile_eq_or_disjoint _ _ _ _ _ Ht Hnew Hd') as [<-|[Ho|Ho]]; cbn in *; [|lia|lia].
      assert (HN : NoDup (used cs')) by (apply NoDup_filter; by eapply tile_NoDup). rewrite H3 in HN. by apply NoDup_cons in HN as [? _]. }
  unfold malloc. replace (u32 (nbytes + sizeof_Header - 1) / sizeof_Header + 1) with (units nbytes)
    by (unfold units, sizeof_Header; rewrite u32_id by lia; f_equal; f_equal; lia).
  apply wp_bind, wp_gets. destruct Hok as [Hs|(Hf & -> & Hbk & Hb0 & Hb & Hkb)].
  - pose proof (hi_freep _ _ _ Hs) as Hin. apply list_elem_of_fmap in Hin as ([fa fn] & Efa & Hin). cbn in Efa.
    rewrite (proj2 (Z.eqb_neq _ _)).
    2: { destruct (ring_in _ _ _ _ _ (hi_tile _ _ _ Hs) ltac:(apply Hs) Hin) as [[-> _]|(? & ? & ? & _)]; destruct Hs as [[]]; lia. }
    apply list_elem_of_lookup_1 in Hin as (k & Hk). apply wp_bind, wp_ret, wp_bind, wp_gets. eapply Hgo; [done|by rewrite Efa|done|done|by intros ? ?].
  - rewrite Hf, Z.eqb_refl. unfold rd, wr. wp_steps. cbn [h_mem h_freep h_brk set_h_mem set_h_freep].
    set (m := store32 _ (base + 4) 0). change KERNBASE with (2 ^ 31) in *.
    assert (Hm0 : load32 m base = base) by (unfold m; rewrite load_store_ne, load_store32 by lia; apply u32_id; lia).
    assert (Hm4 : load32 m (base + 4) = 0) by (unfold m; by rewrite load_store32).
    apply (Hgo (mkheap m base (h_brk s)) 0 0%nat); [|done|done|done|by intros ? ? ?%not_elem_of_nil].
    split; cbn [h_mem h_freep h_brk]; [done|by symmetry|by rewrite Hbk|done|done|left|by intros c ?%not_elem_of_nil].
Qed.

(** [free] of a block in use returns; the block is no longer in use, all others
    keep their place, size and contents, and free neighbours are joined (the
    invariant of the heap). *)
Theorem free_spec lo s cs c :
  heap_ok lo s cs -> c ∈ used cs -> (length cs < fuel)%nat ->
  wp (free fuel (c_at c + 8)) (fun _ s' => exists cs',
    heap_ok lo s' cs' /\ apart cs' /\ used cs ≡ₚ c :: used cs' /\ h_brk s' = h_brk s /\
    data_kept (used cs') (h_mem s) (h_mem s')) s.
Proof.
  intros Hok Hc Hfuel. destruct Hok as [Hs|(_ & -> & _)]; [|by apply not_elem_of_nil in Hc].
  apply list_elem_of_filter in Hc as [Hu (c1 & c2 & ->)%list_elem_of_split].
  eapply wp_mono; [by eapply free_wp|]. intros [] s' (c1s & fr & c2s & Hs' & Hfr & _ & Hu1 & Hu2 & _ & Hbk & Hk).
  assert (Eu : used (c1s ++ fr :: c2s) = used (c1 ++ c2)) by (by rewrite !used_app, used_cons, Hfr, Hu1, Hu2).
  exists (c1s ++ fr :: c2s). split_and!; [by left|apply Hs'| |done|by rewrite Eu].
  rewrite Eu, !used_app, used_cons, Hu. symmetry. apply Permutation_middle.
Qed.
End spec.

(** ** Example *)

Module UmallocExample.
Definition grant (b n : Z) : bool := b + n <=? KERNBASE.
Lemma grant_limit b n : grant b n = true -> b + n <= KERNBASE.
Proof. apply Z.leb_le. Qed.
Definition start : heap := mkheap (fun _ => 0) 0 0x4000.
Lemma start_ok : heap_ok 0x2000 0x4000 start [].
Proof. right. split_and!; vm_compute; done. Qed.
(** The heap after [malloc(100)]: 14 of the 4096 units are in use. *)
Definition cs : list chunk := [mkchunk 0x4000 4082 false; mkchunk 0xbf90 14 true].
Definition state (o : outcome heap Z) : heap := match o with Ok _ s => s | _ => start end.
Definition later : heap := state (malloc 0x2000 grant 20 100 start).
Lemma later_ok : heap_ok 0x2000 0x4000 later cs.
Proof.
  left. split.
  - lia.
  - repeat split; vm_compute; done || reflexivity.
  - vm_compute. done.
  - split; [by right|done].
  - vm_compute. done.
  - vm_compute. left.
  - intros c Hc. apply list_elem_of_filter in Hc as [Hu Hc]. cbn in Hc. assert (c = mkchunk 0xbf90 14 true) as -> by (set_unfold in Hc; naive_solver).
    vm_compute. reflexivity.
Qed.
End UmallocExample.

Lemma malloc_spec_witness :
  wp (malloc 0x2000 UmallocExample.grant 20 100) (fun r s' => r = 0 \/ 0x4008 <= r /\ r + 100 <= h_brk s') UmallocExample.start.
Proof.
  eapply wp_mono; [apply (malloc_spec 0x2000 UmallocExample.grant 20 UmallocExample.grant_limit 0x4000 _ [] 100 UmallocExample.start_ok); cbn; lia|].
  intros r s' (cs' & _ & _ & [(H & _)|(_ & H1 & H2 & _)]); [by left|by right].
Defined.
Lemma free_spec_witness :
  wp (free 20 0xbf98) (fun _ s' => h_brk s' = 0xc000) UmallocExample.later.
Proof.
  eapply wp_mono.
  - apply (free_spec 0x2000 UmallocExample.grant 20 0x4000 _ UmallocExample.cs (mkchunk 0xbf90 14 true) UmallocExample.later_ok);
      [apply list_elem_of_filter; split; [done|set_solver]|cbn; lia].
  - intros [] s' (cs' & _ & _ & _ & H & _). rewrite H. vm_compute. reflexivity.
Defined.
