(* ===== verification/Grep.v ===== *)
(** * grep.c: the matcher and the line loop

    Patterns and texts are C strings.  [matchhere] is compared with the
    languages that the pattern denotes, [grep] with filtering the lines of the
    file. *)

From S2P Require Import Prelude Strings Ulib.

(** ** The matcher *)

(** [do { if(matchhere(re, text)) return 1; } while( *text != 0 && ( *text++ == c || c == '.')); return 0;] *)
Fixpoint matchstar (matchhere_re : list Z -> bool) (c : Z) (text : list Z) : bool :=
  if matchhere_re text then true
  else match text with
       | [] => false
       | t :: text' => if (t =? c) || (c =? 46) then matchstar matchhere_re c text' else false
       end.

Fixpoint matchhere (re text : list Z) : bool :=
  match re with
  | [] => true
  | r :: re' =>
      match re' with
      | r1 :: re'' =>
          if r1 =? 42 then matchstar (matchhere re'') r text
          else match text with
               | t :: text' => if (r =? 46) || (r =? t) then matchhere re' text' else false
               | [] => false
               end
      | [] =>
          if r =? 36 then match text with [] => true | _ => false end
          else match text with
               | t :: text' => if (r =? 46) || (r =? t) then matchhere re' text' else false
               | [] => false
               end
      end
  end.

(** [do { if(matchhere(re, text)) return 1; } while( *text++ != 0);] *)
Fixpoint match_anywhere (re text : list Z) : bool :=
  if matchhere re text then true
  else match text with [] => false | _ :: text' => match_anywhere re text' end.
Definition re_match (re text : list Z) : bool :=
  match re with
  | r :: re' => if r =? 94 then matchhere re' text else match_anywhere re text
  | [] => match_anywhere re text
  end.

(** ** The line loop *)

(** [while((q = strchr(p, '\n')) != 0)]: the output and the bytes from [p] on
    when it stops. *)
Fixpoint grep_scan (fuel : nat) (pattern p : list Z) : list Z * list Z :=
  match fuel with
  | O => ([], p)
  | S f =>
      match strchr p 10 with
      | None => ([], p)
      | Some q =>
          let out := if re_match pattern (take q p) then take q p ++ [10] else [] in
          let '(out', p') := grep_scan f pattern (drop (S q) p) in
          (out ++ out', p')
      end
  end.

Definition bufsize : nat := 1024.

Section grep.
Context {R : Type} (read : R -> nat -> option (list Z) * R).

(** The read loop with the [m] bytes [pend] at the start of [buf]. *)
Fixpoint grep_from (fuel : nat) (pattern pend : list Z) (r : R) : list Z :=
  match fuel with
  | O => []
  | S f =>
      match read r (bufsize - length pend - 1) with
      | (Some (c :: l), r) =>
          let b := pend ++ c :: l in
          let '(out, p) := grep_scan (length b) pattern b in
          let pend := if (length p =? length b)%nat then [] else p in
          out ++ grep_from f pattern pend r
      | (_, _) => []
      end
  end.
Definition grep (fuel : nat) (pattern : list Z) (r : R) : list Z := grep_from fuel pattern [] r.

(** [main]: what is written to each descriptor, in order. *)
Context (open : list Z -> option R).
Fixpoint grep_files (fuel : nat) (pattern : list Z) (names : list (list Z)) : list (Z * list Z) :=
  match names with
  | [] => []
  | name :: names' =>
      match open name with
      | None => [(1, printf (str "grep: cannot open %s" ++ [10]) [Str (Some name)])]
      | Some r => (1, grep fuel pattern r) :: grep_files fuel pattern names'
      end
  end.
Definition grep_main (fuel : nat) (stdin : R) (argv : list (list Z)) : list (Z * list Z) :=
  match argv with
  | [] | [_] => [(2, printf (str "usage: grep pattern [file ...]" ++ [10]) [])]
  | [_; pattern] => [(1, grep fuel pattern stdin)]
  | _ :: pattern :: names => grep_files fuel pattern names
  end.
End grep.

(** ** What patterns mean *)

Inductive item := One (c : Z) | Star (c : Z).
(** The items of a pattern, and whether it ends with [$]. *)
Fixpoint parse_re (re : list Z) : list item * bool :=
  match re with
  | [] => ([], false)
  | r :: re' =>
      match re' with
      | r1 :: re'' =>
          if r1 =? 42 then let '(l, e) := parse_re re'' in (Star r :: l, e)
          else let '(l, e) := parse_re re' in (One r :: l, e)
      | [] => if r =? 36 then ([], true) else ([One r], false)
      end
  end.

Definition char_ok (c t : Z) : Prop := c = 46 \/ t = c.
(** The language of one item, and of a sequence. *)
Definition denote_item (i : item) (w : list Z) : Prop :=
  match i with
  | One c => exists t, w = [t] /\ char_ok c t
  | Star c => Forall (char_ok c) w
  end.
Fixpoint denote (l : list item) (w : list Z) : Prop :=
  match l with
  | [] => w = []
  | i :: l' => exists w1 w2, w = w1 ++ w2 /\ denote_item i w1 /\ denote l' w2
  end.
(** A word of the pattern's language starts the text (and ends it, for [$]). *)
Definition matches_prefix (p : list item * bool) (text : list Z) : Prop :=
  exists w rest, text = w ++ rest /\ denote p.1 w /\ (p.2 = true -> rest = []).

Lemma char_ok_b c t : (c =? 46) || (c =? t) = true <-> char_ok c t.
Proof. unfold char_ok. rewrite orb_true_iff, !Z.eqb_eq. naive_solver. Qed.
Lemma char_ok_b' c t : (t =? c) || (c =? 46) = true <-> char_ok c t.
Proof. unfold char_ok. rewrite orb_true_iff, !Z.eqb_eq. naive_solver. Qed.

Lemma prefix_one c l e text :
  matches_prefix (One c :: l, e) text <->
  exists t text', text = t :: text' /\ char_ok c t /\ matches_prefix (l, e) text'.
Proof.
  split.
  - intros (w & rest & -> & (w1 & w2 & -> & (t & -> & Ht) & Hw2) & He). exists t, (w2 ++ rest).
    split_and!; [done|done|]. by exists w2, rest.
  - intros (t & text' & -> & Ht & w & rest & -> & Hw & He). exists (t :: w), rest. split_and!; [done| |done].
    exists [t], w. split_and!; [done|by exists t|done].
Qed.
Lemma prefix_star c l e text :
  matches_prefix (Star c :: l, e) text <->
  matches_prefix (l, e) text \/
  exists t text', text = t :: text' /\ char_ok c t /\ matches_prefix (Star c :: l, e) text'.
Proof.
  split.
  - intros (w & rest & -> & (w1 & w2 & -> & H1 & H2) & He). cbn in H1. destruct H1 as [|t w1 Ht H1].
    + left. by exists w2, rest.
    + right. exists t, ((w1 ++ w2) ++ rest). split_and!; [done|done|]. exists (w1 ++ w2), rest.
      split_and!; [done| |done]. exists w1, w2. done.
  - intros [(w & rest & -> & Hw & He)|(t & text' & -> & Ht & w & rest & -> & (w1 & w2 & -> & H1 & H2) & He)].
    + exists w, rest. split_and!; [done| |done]. exists [], w. split_and!; [done|constructor|done].
    + exists (t :: w1 ++ w2), rest. split_and!; [done| |done]. exists (t :: w1), w2. split_and!; [done|by constructor|done].
Qed.

Lemma matchstar_spec f l e c text :
  (forall text, f text = true <-> matches_prefix (l, e) text) ->
  matchstar f c text = true <-> matches_prefix (Star c :: l, e) text.
Proof.
  intros Hf. induction text as [|t text IH]; rewrite prefix_star; cbn.
  - destruct (f []) eqn:E; [apply Hf in E; naive_solver|]. split; [done|].
    intros [H%Hf|(? & ? & ? & _)]; congruence.
  - destruct (f (t :: text)) eqn:E; [apply Hf in E; naive_solver|].
    destruct ((t =? c) || (c =? 46)) eqn:Ec.
    + apply char_ok_b' in Ec. rewrite IH. split; [naive_solver|].
      intros [H%Hf|(? & ? & [= <- <-] & _ & H)]; [congruence|done].
    + split; [done|]. intros [H%Hf|(? & ? & [= <- <-] & H%char_ok_b' & _)]; congruence.
Qed.

Lemma one_step c f l e text :
  (forall text, f text = true <-> matches_prefix (l, e) text) ->
  match text with [] => false | t :: text' => if (c =? 46) || (c =? t) then f text' else false end = true <->
  matches_prefix (One c :: l, e) text.
Proof.
  intros Hf. rewrite prefix_one. destruct text as [|t text]; [naive_solver|].
  destruct ((c =? 46) || (c =? t)) eqn:E.
  - apply char_ok_b in E. rewrite Hf. naive_solver.
  - split; [done|]. intros (? & ? & [= <- <-] & H%char_ok_b & _). congruence.
Qed.
Lemma prefix_nil text : matches_prefix ([], false) text.
Proof. by exists [], text. Qed.

Lemma matchhere_spec re :
  (forall text, matchhere re text = true <-> matches_prefix (parse_re re) text) /\
  (forall r text, matchhere (r :: re) text = true <-> matches_prefix (parse_re (r :: re)) text).
Proof.
  induction re as [|a re [IH1 IH2]].
  - split; [intros text; split; [intros; apply prefix_nil|done]|].
    intros r text. cbn [matchhere parse_re]. destruct (Z.eqb_spec r 36) as [->|Hr].
    + destruct text as [|t text]; split; try done; [intros _; by exists [], []|].
      intros (w & rest & E & -> & H). rewrite (H eq_refl) in E. done.
    + apply one_step. intros; split; [intros; apply prefix_nil|done].
  - split; [apply IH2|]. intros r text. cbn [matchhere parse_re]. destruct (Z.eqb_spec a 42) as [->|Ha].
    + destruct (parse_re re) as [l e]. by apply matchstar_spec.
    + pose proof (IH2 a) as IHa. cbn [matchhere parse_re] in IHa.
      destruct (match re with [] => _ | _ => _ end) as [l e] eqn:E. by apply one_step.
Qed.

(** A word of the pattern's language occurs in the text, at its start when the
    pattern begins with [^]. *)
Definition matches (re text : list Z) : Prop :=
  match re with
  | r :: re' => if r =? 94 then matches_prefix (parse_re re') text
                else exists a b, text = a ++ b /\ matches_prefix (parse_re re) b
  | [] => True
  end.

Lemma match_anywhere_spec re text :
  match_anywhere re text = true <-> exists a b, text = a ++ b /\ matches_prefix (parse_re re) b.
Proof.
  induction text as [|t text IH]; cbn.
  - destruct (matchhere re []) eqn:E.
    + apply matchhere_spec in E. split; [intros _; by exists [], []|done].
    + split; [done|]. intros (a & b & H & Hm). symmetry in H. apply app_eq_nil in H as [-> ->].
      apply matchhere_spec in Hm. congruence.
  - destruct (matchhere re (t :: text)) eqn:E.
    + apply matchhere_spec in E. split; [intros _; by exists [], (t :: text)|done].
    + rewrite IH. split.
      * intros (a & b & -> & Hm). by exists (t :: a), b.
      * intros (a & b & H & Hm). destruct a as [|x a]; simplify_eq/=; [|by exists a, b].
        apply matchhere_spec in Hm. congruence.
Qed.

(** C35. The matcher recognises exactly the language of the pattern: [match]
    succeeds if and only if some word denoted by the pattern (characters, [.],
    starred characters) occurs in the text, at its beginning for [^] and up to
    its end for a final [$]. *)
Theorem re_match_spec re text : re_match re text = true <-> matches re text.
Proof.
  unfold re_match, matches. destruct re as [|r re].
  - rewrite match_anywhere_spec. split; [done|]. intros _. exists [], text. split; [done|apply prefix_nil].
  - destruct (r =? 94); [apply matchhere_spec|apply match_anywhere_spec].
Qed.

(** ** Lines *)

(** The lines of a file, each ended by a newline, and what follows the last. *)
Fixpoint split_lines (l : list Z) : list (list Z) * list Z :=
  match l with
  | [] => ([], [])
  | c :: l' =>
      let '(ls, r) := split_lines l' in
      if c =? 10 then ([] :: ls, r)
      else match ls with
           | [] => ([], c :: r)
           | x :: ls' => ((c :: x) :: ls', r)
           end
  end.
Definition select (pattern : list Z) (ls : list (list Z)) : list Z :=
  flat_map (fun line => if re_match pattern line then line ++ [10] else []) ls.

Lemma strchr_lines b : Forall (fun c => c <> 0) b ->
  match strchr b 10 with
  | None => split_lines b = ([], b)
  | Some q => (q < length b)%nat /\
      split_lines b = (take q b :: (split_lines (drop (S q) b)).1, (split_lines (drop (S q) b)).2)
  end.
Proof.
  induction 1 as [|c b Hc Hb IH]; [done|]. cbn [strchr split_lines].
  rewrite (proj2 (Z.eqb_neq c 0)) by done. destruct (Z.eqb_spec c 10) as [->|Hn].
  - cbn. split; [lia|]. rewrite drop_0. by destruct (split_lines b).
  - destruct (strchr b 10) as [q|]; cbn [option_map].
    + destruct IH as [Hq ->]. split; [cbn; lia|done].
    + by rewrite IH.
Qed.

Lemma grep_scan_spec pattern fuel b : (length b <= fuel)%nat -> Forall (fun c => c <> 0) b ->
  grep_scan fuel pattern b = (select pattern (split_lines b).1, (split_lines b).2).
Proof.
  revert b. induction fuel as [|f IH]; intros b Hf Hb.
  - destruct b; [done|cbn in Hf; lia].
  - cbn [grep_scan]. pose proof (strchr_lines b Hb) as Hs. destruct (strchr b 10) as [q|].
    + destruct Hs as [Hq ->]. rewrite IH; [|rewrite length_drop; lia|by apply Forall_drop].
      done.
    + by rewrite Hs.
Qed.

Lemma split_lines_app b x :
  split_lines (b ++ x) =
  ((split_lines b).1 ++ (split_lines ((split_lines b).2 ++ x)).1, (split_lines ((split_lines b).2 ++ x)).2).
Proof.
  induction b as [|c b IH]; cbn; [by destruct (split_lines x)|].
  rewrite IH. destruct (split_lines b) as [[|y ls] r]; cbn; destruct (Z.eqb_spec c 10); cbn; try done.
  rewrite (proj2 (Z.eqb_neq c 10)) by done. destruct (split_lines (r ++ x)) as [[|y ls] r']; done.
Qed.
Lemma split_lines_rest b :
  ((split_lines b).1 = [] /\ (split_lines b).2 = b) \/
  ((split_lines b).1 <> [] /\ (length (split_lines b).2 < length b)%nat).
Proof.
  induction b as [|c b IH]; cbn; [by left|].
  destruct (split_lines b) as [[|y ls] r]; cbn in *; destruct (c =? 10); cbn;
    destruct IH as [[H1 H2]|[H1 H2]]; subst; try done; try (right; split; [done|lia]); by left.
Qed.
Lemma split_lines_first b x : (split_lines b).1 = [] -> forall y ls, (split_lines (b ++ x)).1 = y :: ls -> (length b <= length y)%nat.
Proof.
  intros Hb. induction b as [|c b IH]; intros y ls; [cbn; lia|]. cbn in *.
  destruct (split_lines b) as [[|z ls'] r]; destruct (Z.eqb_spec c 10); cbn in *; try done.
  destruct (split_lines (b ++ x)) as [[|z ls'] r']; cbn in *; try done. intros [= <- <-]. cbn.
  specialize (IH eq_refl z ls' eq_refl). lia.
Qed.
Lemma split_lines_rest_nil b x : (split_lines b).1 = [] -> (split_lines (b ++ x)).1 = [] -> (split_lines x).1 = [].
Proof.
  intros Hb Hx. induction b as [|c b IH]; [done|]. cbn in *.
  destruct (split_lines b) as [[|z ls] r]; destruct (Z.eqb_spec c 10); cbn in *; try done.
  destruct (split_lines (b ++ x)) as [[|z ls] r']; cbn in *; try done. by apply IH.
Qed.

Lemma split_lines_forall (P : Z -> Prop) b : Forall P b -> Forall P (split_lines b).2 .
Proof.
  induction 1 as [|c b Hc Hb IH]; cbn; [constructor|].
  destruct (split_lines b) as [[|y ls] r], (c =? 10); cbn in *; by try constructor.
Qed.
Lemma split_lines_twice b : (split_lines (split_lines b).2).1 = [].
Proof.
  induction b as [|c b IH]; [done|]. cbn.
  destruct (split_lines_rest b) as [[H1 H2]|[H1 H2]]; destruct (split_lines b) as [[|y ls] r]; cbn in *; try done.
  - destruct (Z.eqb_spec c 10); cbn; [done|]. rewrite (proj2 (Z.eqb_neq c 10)) by done. subst.
    destruct (split_lines b) as [[|? ?] ?]; done.
  - by destruct (c =? 10).
Qed.

Lemma grep_from_spec pattern fuel pend rest :
  (length rest < fuel)%nat -> (length pend <= 1022)%nat -> Forall (fun c => c <> 0) (pend ++ rest) ->
  (split_lines pend).1 = [] -> Forall (fun line => (length line <= 1022)%nat) (split_lines (pend ++ rest)).1 ->
  grep_from regular fuel pattern pend rest = select pattern (split_lines (pend ++ rest)).1.
Proof.
  revert pend rest. induction fuel as [|f IH]; intros pend rest Hf Hp Hnz Hpl Hlen; [lia|].
  cbn [grep_from]. unfold regular at 1. unfold bufsize. set (n := (1024 - length pend - 1)%nat).
  destruct rest as [|c rest]; [by rewrite take_nil, app_nil_r, Hpl|].
  assert (Hn : n = S (n - 1)) by (unfold n; lia). rewrite Hn. cbn [take drop].
  set (chunk := c :: take (n - 1) rest). set (rest' := drop (n - 1) rest). set (b := pend ++ chunk).
  assert (Hsplit : pend ++ c :: rest = b ++ rest').
  { unfold b, chunk, rest'. rewrite <-app_assoc. cbn. by rewrite take_drop. }
  assert (Hr' : (length rest' < f)%nat) by (unfold rest'; rewrite length_drop; cbn in Hf; lia).
  rewrite Hsplit in *. apply Forall_app in Hnz as [Hb Hr].
  rewrite grep_scan_spec by (done || lia). rewrite split_lines_app in Hlen |- *. cbn [fst] in Hlen |- *.
  apply Forall_app in Hlen as [_ Hlen]. unfold select. rewrite flat_map_app. f_equal. fold (select pattern).
  destruct (split_lines_rest b) as [[Hl Hr2]|[Hl Hr2]].
  - rewrite Hr2 in *. rewrite (proj2 (Nat.eqb_eq _ _)) by done.
    assert (Hnone : (split_lines (b ++ rest')).1 = [] \/ rest' = []).
    { destruct (decide (length rest' = 0%nat)) as [E|E]; [right; by apply nil_length_inv|left].
      destruct (split_lines (b ++ rest')).1 as [|y ls] eqn:Ey; [done|]. exfalso.
      pose proof (split_lines_first b rest' Hl y ls Ey) as Hy. apply Forall_cons in Hlen as [Hlen _].
      assert (length b = 1023)%nat; [|lia]. unfold b, chunk. rewrite length_app. cbn [length]. rewrite length_take.
      assert (n - 1 < length rest)%nat; [|unfold n in *; lia].
      unfold rest' in E. rewrite length_drop in E. lia. }
    destruct Hnone as [Hnone|Hnone].
    + rewrite Hnone. rewrite IH; [|done|cbn; lia|done|done|]; cbn [app];
        rewrite (split_lines_rest_nil b rest' Hl Hnone); [done|constructor].
    + rewrite Hnone, app_nil_r, Hl. destruct f; [cbn in Hr'; lia|done].
  - rewrite (proj2 (Nat.eqb_neq _ _)) by lia. apply IH; try done.
    + assert (length b <= 1023)%nat; [|lia]. unfold b, chunk. rewrite length_app. cbn [length]. rewrite length_take.
      unfold n in *. lia.
    + apply Forall_app. split; [|done]. by apply split_lines_forall.
    + apply split_lines_twice.
Qed.

(** On a regular file whose lines fit its buffer, [grep] prints exactly the
    lines that match, in order (a last line without newline is not searched),
    and returns. *)
Theorem grep_spec pattern input fuel :
  (length input < fuel)%nat -> Forall (fun c => c <> 0) input ->
  Forall (fun line => (length line <= 1022)%nat) (split_lines input).1 ->
  grep regular fuel pattern input = flat_map (fun line => line ++ [10]) (filter (fun line => re_match pattern line = true) (split_lines input).1).
Proof.
  intros Hf Hnz Hlen. unfold grep. rewrite grep_from_spec; [|done|cbn; lia|done|done|done].
  cbn [app]. unfold select. induction (split_lines input).1 as [|l ls IH]; [done|].
  apply Forall_cons in Hlen as [_ Hlen]. cbn [flat_map]. rewrite filter_cons, IH by done. by case_decide; case_match.
Qed.

Lemma grep_spec_witness : grep regular 20 (str "a.c$") (str "xabc" ++ [10] ++ str "abcd" ++ [10] ++ str "abc") = str "xabc" ++ [10].
Proof.
  rewrite (grep_spec (str "a.c$") (str "xabc" ++ [10] ++ str "abcd" ++ [10] ++ str "abc") 20);
    [reflexivity|cbn; lia|repeat constructor; done|repeat constructor; cbn; lia].
Defined.

(** A reader that delivers less than asked for, as a pipe does. *)
Definition chunked (r : list (list Z)) (n : nat) : option (list Z) * list (list Z) :=
  match r with
  | [] => (Some [], [])
  | l :: r' => (Some (take n l), r')
  end.

(** A line that arrives in two reads is lost: after the first, no newline was
    found and [m] is reset to 0. *)
Lemma grep_short_read : grep chunked 9 (str "abc") [str "ab"; str "c" ++ [10]] = [] /\
  re_match (str "abc") (str "abc") = true.
Proof. split; reflexivity. Qed.
