(* ===== verification/Proc.v ===== *)
(** * proc.c: processes

    The process table and the routines of [proc.c].  Each routine runs on a
    CPU [c]; [proc] is the per-CPU variable of [proc.h].  The services of the
    other components are the class [Services]. *)

From S2P Require Import Prelude Params Strings Spinlock Ulib.

(** ** proc.h, x86.h *)

Inductive procstate := UNUSED | EMBRYO | SLEEPING | RUNNABLE | RUNNING | ZOMBIE.
#[export] Instance procstate_eq_dec : EqDecision procstate.
Proof. solve_decision. Defined.

(** [struct trapframe] without its padding. *)
Record trapframe := mktf {
  tf_edi : Z;
  tf_esi : Z;
  tf_ebp : Z;
  tf_oesp : Z;
  tf_ebx : Z;
  tf_edx : Z;
  tf_ecx : Z;
  tf_eax : Z;
  tf_gs : Z;
  tf_fs : Z;
  tf_es : Z;
  tf_ds : Z;
  tf_trapno : Z;
  tf_err : Z;
  tf_eip : Z;
  tf_cs : Z;
  tf_eflags : Z;
  tf_esp : Z;
  tf_ss : Z
}.
Definition set_tf_eax v (t : trapframe) := mktf (tf_edi t) (tf_esi t) (tf_ebp t) (tf_oesp t) (tf_ebx t) (tf_edx t) (tf_ecx t) v (tf_gs t) (tf_fs t) (tf_es t) (tf_ds t) (tf_trapno t) (tf_err t) (tf_eip t) (tf_cs t) (tf_eflags t) (tf_esp t) (tf_ss t).
(** [memset(tf, 0, sizeof *tf)]. *)
Definition zero_tf : trapframe := mktf 0 0 0 0 0 0 0 0 0 0 0 0 0 0 0 0 0 0 0.

Record context := mkctx { c_edi : Z; c_esi : Z; c_ebx : Z; c_ebp : Z; c_eip : Z }.
Definition zero_ctx : context := mkctx 0 0 0 0 0.

(** [struct proc]; a [struct proc*] is an index in the table, a [struct file*]
    and a [struct inode*] an index in theirs; [p_tf] and [p_context] are what
    the pointers [p_tf_at] and [p_context_at] point to, [p_ret] is the word
    between them, and [p_name] the string in [name[]]. *)
Record proc := mkproc {
  p_sz : Z;
  p_pgdir : Z;
  p_kstack : Z;
  p_state : procstate;
  p_pid : Z;
  p_parent : option nat;
  p_tf_at : Z;
  p_tf : trapframe;
  p_ret : Z;
  p_context_at : Z;
  p_context : context;
  p_chan : Z;
  p_killed : Z;
  p_ofile : list (option nat);
  p_cwd : option nat;
  p_name : list Z
}.
Definition set_p_sz v (s : proc) := mkproc v (p_pgdir s) (p_kstack s) (p_state s) (p_pid s) (p_parent s) (p_tf_at s) (p_tf s) (p_ret s) (p_context_at s) (p_context s) (p_chan s) (p_killed s) (p_ofile s) (p_cwd s) (p_name s).
Definition set_p_pgdir v (s : proc) := mkproc (p_sz s) v (p_kstack s) (p_state s) (p_pid s) (p_parent s) (p_tf_at s) (p_tf s) (p_ret s) (p_context_at s) (p_context s) (p_chan s) (p_killed s) (p_ofile s) (p_cwd s) (p_name s).
Definition set_p_kstack v (s : proc) := mkproc (p_sz s) (p_pgdir s) v (p_state s) (p_pid s) (p_parent s) (p_tf_at s) (p_tf s) (p_ret s) (p_context_at s) (p_context s) (p_chan s) (p_killed s) (p_ofile s) (p_cwd s) (p_name s).
Definition set_p_state v (s : proc) := mkproc (p_sz s) (p_pgdir s) (p_kstack s) v (p_pid s) (p_parent s) (p_tf_at s) (p_tf s) (p_ret s) (p_context_at s) (p_context s) (p_chan s) (p_killed s) (p_ofile s) (p_cwd s) (p_name s).
Definition set_p_pid v (s : proc) := mkproc (p_sz s) (p_pgdir s) (p_kstack s) (p_state s) v (p_parent s) (p_tf_at s) (p_tf s) (p_ret s) (p_context_at s) (p_context s) (p_chan s) (p_killed s) (p_ofile s) (p_cwd s) (p_name s).
Definition set_p_parent v (s : proc) := mkproc (p_sz s) (p_pgdir s) (p_kstack s) (p_state s) (p_pid s) v (p_tf_at s) (p_tf s) (p_ret s) (p_context_at s) (p_context s) (p_chan s) (p_killed s) (p_ofile s) (p_cwd s) (p_name s).
Definition set_p_tf_at v (s : proc) := mkproc (p_sz s) (p_pgdir s) (p_kstack s) (p_state s) (p_pid s) (p_parent s) v (p_tf s) (p_ret s) (p_context_at s) (p_context s) (p_chan s) (p_killed s) (p_ofile s) (p_cwd s) (p_name s).
Definition set_p_tf v (s : proc) := mkproc (p_sz s) (p_pgdir s) (p_kstack s) (p_state s) (p_pid s) (p_parent s) (p_tf_at s) v (p_ret s) (p_context_at s) (p_context s) (p_chan s) (p_killed s) (p_ofile s) (p_cwd s) (p_name s).
Definition set_p_ret v (s : proc) := mkproc (p_sz s) (p_pgdir s) (p_kstack s) (p_state s) (p_pid s) (p_parent s) (p_tf_at s) (p_tf s) v (p_context_at s) (p_context s) (p_chan s) (p_killed s) (p_ofile s) (p_cwd s) (p_name s).
Definition set_p_context_at v (s : proc) := mkproc (p_sz s) (p_pgdir s) (p_kstack s) (p_state s) (p_pid s) (p_parent s) (p_tf_at s) (p_tf s) (p_ret s) v (p_context s) (p_chan s) (p_killed s) (p_ofile s) (p_cwd s) (p_name s).
Definition set_p_context v (s : proc) := mkproc (p_sz s) (p_pgdir s) (p_kstack s) (p_state s) (p_pid s) (p_parent s) (p_tf_at s) (p_tf s) (p_ret s) (p_context_at s) v (p_chan s) (p_killed s) (p_ofile s) (p_cwd s) (p_name s).
Definition set_p_chan v (s : proc) := mkproc (p_sz s) (p_pgdir s) (p_kstack s) (p_state s) (p_pid s) (p_parent s) (p_tf_at s) (p_tf s) (p_ret s) (p_context_at s) (p_context s) v (p_killed s) (p_ofile s) (p_cwd s) (p_name s).
Definition set_p_killed v (s : proc) := mkproc (p_sz s) (p_pgdir s) (p_kstack s) (p_state s) (p_pid s) (p_parent s) (p_tf_at s) (p_tf s) (p_ret s) (p_context_at s) (p_context s) (p_chan s) v (p_ofile s) (p_cwd s) (p_name s).
Definition set_p_ofile v (s : proc) := mkproc (p_sz s) (p_pgdir s) (p_kstack s) (p_state s) (p_pid s) (p_parent s) (p_tf_at s) (p_tf s) (p_ret s) (p_context_at s) (p_context s) (p_chan s) (p_killed s) v (p_cwd s) (p_name s).
Definition set_p_cwd v (s : proc) := mkproc (p_sz s) (p_pgdir s) (p_kstack s) (p_state s) (p_pid s) (p_parent s) (p_tf_at s) (p_tf s) (p_ret s) (p_context_at s) (p_context s) (p_chan s) (p_killed s) (p_ofile s) v (p_name s).
Definition set_p_name v (s : proc) := mkproc (p_sz s) (p_pgdir s) (p_kstack s) (p_state s) (p_pid s) (p_parent s) (p_tf_at s) (p_tf s) (p_ret s) (p_context_at s) (p_context s) (p_chan s) (p_killed s) (p_ofile s) (p_cwd s) v.
(** An entry of the zeroed table. *)
Definition zero_proc : proc :=
  mkproc 0 0 0 UNUSED 0 None 0 zero_tf 0 0 zero_ctx 0 0 (replicate (Z.to_nat NOFILE) None) None [].
#[export] Instance proc_inhabited : Inhabited proc := populate zero_proc.

(** Per-CPU state: [ncli], [intena] and the interrupt flag, and [cpu->proc]. *)
Record pcpu := mkpcpu { pc_cpu : cpu; pc_proc : option nat }.
Definition set_pc_cpu v (s : pcpu) := mkpcpu v (pc_proc s).
Definition set_pc_proc v (s : pcpu) := mkpcpu (pc_cpu s) v.

Definition sizeof_trapframe : Z := 76.
Definition sizeof_context : Z := 20.
Definition SEG_UCODE : Z := 4.
Definition SEG_UDATA : Z := 5.
Definition DPL_USER : Z := 3.
Definition FL_IF : Z := 0x200.

(** ** The services of the other components *)

Class Services (E : Type) := {
  (* kalloc.c *)
  s_kalloc : M E Z;
  s_kfree : Z -> M E unit;
  (* vm.c *)
  s_setupkvm : M E Z;
  s_inituvm : Z -> M E unit;
  s_allocuvm : Z -> Z -> Z -> M E Z;
  s_deallocuvm : Z -> Z -> Z -> M E Z;
  s_copyuvm : Z -> Z -> M E Z;
  s_freevm : Z -> M E unit;
  s_switchuvm : Z -> Z -> M E unit;
  s_switchkvm : M E unit;
  (* file.c, fs.c, log.c *)
  s_filedup : nat -> M E nat;
  s_fileclose : nat -> M E unit;
  s_idup : nat -> M E nat;
  s_iput : nat -> M E unit;
  s_namei : list Z -> M E (option nat);
  s_begin_op : M E unit;
  s_end_op : M E unit;
  s_iinit : Z -> M E unit;
  s_initlog : Z -> M E unit;
  (* what is called with ptable.lock held does not sleep *)
  s_kfree_awake a : awake (s_kfree a);
  s_freevm_awake d : awake (s_freevm d);
  s_switchuvm_awake d k : awake (s_switchuvm d k);
  s_switchkvm_awake : awake s_switchkvm
}.

Section proc.
Context {E : Type} `{!Services E}.
(** Addresses of [forkret] and [trapret]. *)
Context (forkret_at trapret_at : Z).

(** [ptable], [initproc], [nextpid], the CPUs, [first] of [forkret], the
    console output and the other components. *)
Record kst := mkkst {
  procs : list proc;
  nextpid : Z;
  initproc : option nat;
  plock : bool;
  cpus : list pcpu;
  first : bool;
  sched_trace : Z;
  k_out : list Z;
  env : E
}.
Definition set_procs v (s : kst) := mkkst v (nextpid s) (initproc s) (plock s) (cpus s) (first s) (sched_trace s) (k_out s) (env s).
Definition set_nextpid v (s : kst) := mkkst (procs s) v (initproc s) (plock s) (cpus s) (first s) (sched_trace s) (k_out s) (env s).
Definition set_initproc v (s : kst) := mkkst (procs s) (nextpid s) v (plock s) (cpus s) (first s) (sched_trace s) (k_out s) (env s).
Definition set_plock v (s : kst) := mkkst (procs s) (nextpid s) (initproc s) v (cpus s) (first s) (sched_trace s) (k_out s) (env s).
Definition set_cpus v (s : kst) := mkkst (procs s) (nextpid s) (initproc s) (plock s) v (first s) (sched_trace s) (k_out s) (env s).
Definition set_first v (s : kst) := mkkst (procs s) (nextpid s) (initproc s) (plock s) (cpus s) v (sched_trace s) (k_out s) (env s).
Definition set_sched_trace v (s : kst) := mkkst (procs s) (nextpid s) (initproc s) (plock s) (cpus s) (first s) v (k_out s) (env s).
Definition set_k_out v (s : kst) := mkkst (procs s) (nextpid s) (initproc s) (plock s) (cpus s) (first s) (sched_trace s) v (env s).
Definition set_env v (s : kst) := mkkst (procs s) (nextpid s) (initproc s) (plock s) (cpus s) (first s) (sched_trace s) (k_out s) v.

Definition on_env {A} (m : M E A) : M kst A := zoom env set_env m.
Definition getp (i : nat) : M kst proc := gets (fun s => procs s !!! i).
Definition updp (i : nat) (f : proc -> proc) : M kst unit := modify (fun s => set_procs (alter f i (procs s)) s).
Definition updc (c : nat) (f : pcpu -> pcpu) : M kst unit := modify (fun s => set_cpus (alter f c (cpus s)) s).
(** The per-CPU variable [proc]. *)
Definition myproc (c : nat) : M kst nat :=
  s <-- get ;;
  match cpus s !! c ≫= pc_proc with
  | Some i => ret i
  | None => panic "null proc"
  end.

(** [acquire(&ptable.lock)] and [release(&ptable.lock)] on CPU [c]. *)
Definition acquire (c : nat) : M kst unit :=
  updc c (fun pc => set_pc_cpu (pushcli (pc_cpu pc)) pc) ;;;
  l <-- gets plock ;; if (l : bool) then panic "acquire" else modify (set_plock true).
Definition popcli_on (c : nat) : M kst unit :=
  s <-- get ;;
  match cpus s !! c with
  | None => panic "no cpu"
  | Some pc => match popcli (pc_cpu pc) with
               | inl msg => panic msg
               | inr cp => updc c (set_pc_cpu cp)
               end
  end.
Definition release (c : nat) : M kst unit :=
  l <-- gets plock ;;
  if negb l then panic "release" else modify (set_plock false) ;;; popcli_on c.

Definition pinit : M kst unit := modify (set_plock false).

(** The first process of the table with a property. *)
Fixpoint find_proc (f : proc -> bool) (l : list proc) : option nat :=
  match l with
  | [] => None
  | p :: l' => if f p then Some O else option_map S (find_proc f l')
  end.
Definition is_state (st : procstate) (p : proc) : bool := bool_decide (p_state p = st).

Definition allocproc (c : nat) : M kst (option nat) :=
  acquire c ;;;
  s <-- get ;;
  match find_proc (is_state UNUSED) (procs s) with
  | None => release c ;;; ret None
  | Some i =>
      updp i (set_p_state EMBRYO) ;;;
      updp i (set_p_pid (nextpid s)) ;;;
      modify (set_nextpid (i32 (nextpid s + 1))) ;;;
      release c ;;;
      k <-- on_env s_kalloc ;;
      updp i (set_p_kstack k) ;;;
      if k =? 0 then updp i (set_p_state UNUSED) ;;; ret None
      else
        let sp := k + KSTACKSIZE - sizeof_trapframe in
        updp i (set_p_tf_at sp) ;;;
        let sp := sp - 4 in
        updp i (set_p_ret trapret_at) ;;;
        let sp := sp - sizeof_context in
        updp i (set_p_context_at sp) ;;;
        updp i (set_p_context (mkctx 0 0 0 0 forkret_at)) ;;;
        ret (Some i)
  end.

Definition ucode : Z := Z.lor (Z.shiftl SEG_UCODE 3) DPL_USER.
Definition udata : Z := Z.lor (Z.shiftl SEG_UDATA 3) DPL_USER.
(** The user registers of the first process: [memset(p->tf, 0, ...)] and the
    assignments that follow. *)
Definition init_tf : trapframe := mktf 0 0 0 0 0 0 0 0 0 0 udata udata 0 0 0 ucode FL_IF PGSIZE udata.
(** [safestrcpy(dst, src, 16)] on the strings. *)
Definition name16 (s : list Z) : list Z := take 15 s.

Definition userinit (c : nat) : M kst unit :=
  r <-- allocproc c ;;
  modify (set_initproc r) ;;;
  match r with
  | None => panic "null proc"
  | Some i =>
      d <-- on_env s_setupkvm ;;
      updp i (set_p_pgdir d) ;;;
      if d =? 0 then panic "userinit: out of memory?"
      else
        on_env (s_inituvm d) ;;;
        updp i (set_p_sz PGSIZE) ;;;
        updp i (set_p_tf init_tf) ;;;
        updp i (set_p_name (name16 (str "initcode"))) ;;;
        cwd <-- on_env (s_namei (str "/")) ;;
        updp i (set_p_cwd cwd) ;;;
        updp i (set_p_state RUNNABLE)
  end.

Definition growproc (c : nat) (n : Z) : M kst Z :=
  me <-- myproc c ;;
  p <-- getp me ;;
  sz <-- (if 0 <? n then on_env (s_allocuvm (p_pgdir p) (p_sz p) (u32 (p_sz p + n)))
          else if n <? 0 then on_env (s_deallocuvm (p_pgdir p) (p_sz p) (u32 (p_sz p + n)))
          else ret (p_sz p)) ;;
  if negb (n =? 0) && (sz =? 0) then ret (-1)
  else
    updp me (set_p_sz sz) ;;;
    on_env (s_switchuvm (p_pgdir p) (p_kstack p)) ;;;
    ret 0.

(** The body of the loop over [ofile]. *)
Definition dup_file (me np fd : nat) : M kst unit :=
  p <-- getp me ;;
  match p_ofile p !! fd with
  | Some (Some f) =>
      f' <-- on_env (s_filedup f) ;;
      updp np (fun q => set_p_ofile (<[fd := Some f']> (p_ofile q)) q)
  | _ => ret tt
  end.
Definition fork (c : nat) : M kst Z :=
  r <-- allocproc c ;;
  match r with
  | None => ret (-1)
  | Some np =>
      me <-- myproc c ;;
      p <-- getp me ;;
      d <-- on_env (s_copyuvm (p_pgdir p) (p_sz p)) ;;
      updp np (set_p_pgdir d) ;;;
      if d =? 0 then
        q <-- getp np ;;
        on_env (s_kfree (p_kstack q)) ;;;
        updp np (set_p_kstack 0) ;;;
        updp np (set_p_state UNUSED) ;;;
        ret (-1)
      else
        updp np (set_p_sz (p_sz p)) ;;;
        updp np (set_p_parent (Some me)) ;;;
        updp np (set_p_tf (p_tf p)) ;;;
        updp np (fun q => set_p_tf (set_tf_eax 0 (p_tf q)) q) ;;;
        for_each (seq 0 (Z.to_nat NOFILE)) (dup_file me np) ;;;
        (match p_cwd p with
         | Some ip => ip' <-- on_env (s_idup ip) ;; updp np (set_p_cwd (Some ip'))
         | None => panic "null cwd"
         end) ;;;
        updp np (set_p_name (name16 (p_name p))) ;;;
        q <-- getp np ;;
        acquire c ;;;
        updp np (set_p_state RUNNABLE) ;;;
        release c ;;;
        ret (p_pid q)
  end.

(** ** Sleeping and waking *)

(** [wakeup1]: every process asleep on [chan] becomes runnable. *)
Definition wake_proc (chan : Z) (p : proc) : proc :=
  if is_state SLEEPING p && (p_chan p =? chan) then set_p_state RUNNABLE p else p.
Definition wakeup1 (chan : Z) : M kst unit := modify (fun s => set_procs (map (wake_proc chan) (procs s)) s).
Definition wakeup (c : nat) (chan : Z) : M kst unit := acquire c ;;; wakeup1 chan ;;; release c.

(** [sched]: the checks, then the switch to the scheduler of this CPU. *)
Definition sched {A} (c : nat) : M kst A :=
  s <-- get ;;
  me <-- myproc c ;;
  p <-- getp me ;;
  match cpus s !! c with
  | None => panic "no cpu"
  | Some pc =>
      if negb (plock s) then panic "sched ptable.lock"
      else if negb (ncli (pc_cpu pc) =? 1) then panic "sched locks"
      else if is_state RUNNING p then panic "sched running"
      else if iflag (pc_cpu pc) then panic "sched interruptible"
      else sleep_on (p_chan p)
  end.

(** The lock given to [sleep]: none, [&ptable.lock], or another one with the
    effect of releasing it. *)
Inductive lockref := NoLock | PtableLock | OtherLock (unlock : M E unit).
Definition sleep (c : nat) (chan : Z) (lk : lockref) : M kst unit :=
  s <-- get ;;
  match cpus s !! c ≫= pc_proc with
  | None => panic "sleep"
  | Some me =>
      (match lk with
       | NoLock => panic "sleep without lk"
       | PtableLock => ret tt
       | OtherLock unlock => acquire c ;;; on_env unlock ;;; popcli_on c
       end) ;;;
      updp me (set_p_chan chan) ;;;
      updp me (set_p_state SLEEPING) ;;;
      sched c
  end.
(** What [sleep] does when the process runs again, up to the point where it
    takes its lock back. *)
Definition sleep_resume (c : nat) (lk : lockref) : M kst unit :=
  me <-- myproc c ;;
  updp me (set_p_chan 0) ;;;
  match lk with PtableLock => ret tt | _ => release c end.

Definition yield (c : nat) : M kst unit :=
  me <-- myproc c ;;
  p <-- getp me ;;
  s <-- get ;;
  (if negb (sched_trace s =? 0) then modify (set_k_out (k_out s ++ printf (str "[%d]") [Num (p_pid p)])) else ret tt) ;;;
  acquire c ;;;
  updp me (set_p_state RUNNABLE) ;;;
  sched c.

(** A child's first run. *)
Definition forkret (c : nat) : M kst unit :=
  release c ;;;
  f <-- gets first ;;
  if (f : bool) then modify (set_first false) ;;; on_env (s_iinit ROOTDEV) ;;; on_env (s_initlog ROOTDEV) else ret tt.

(** ** exit, wait, kill *)

(** [proc_chan i]: the address of table entry [i], used as a channel. *)
Context (proc_chan : nat -> Z).
(** A process pointer as a channel. *)
Definition chan_of (o : option nat) : Z := match o with Some i => proc_chan i | None => 0 end.

Definition close_file (me fd : nat) : M kst unit :=
  p <-- getp me ;;
  match p_ofile p !! fd with
  | Some (Some f) =>
      on_env (s_fileclose f) ;;;
      updp me (fun q => set_p_ofile (<[fd := None]> (p_ofile q)) q)
  | _ => ret tt
  end.
(** The body of the loop that passes children to init. *)
Definition abandon (me i : nat) : M kst unit :=
  p <-- getp i ;;
  if bool_decide (p_parent p = Some me) then
    ini <-- gets initproc ;;
    updp i (set_p_parent ini) ;;;
    if is_state ZOMBIE p then wakeup1 (chan_of ini) else ret tt
  else ret tt.
Definition nproc : nat := Z.to_nat NPROC.
Definition exit (c : nat) : M kst unit :=
  me <-- myproc c ;;
  ini <-- gets initproc ;;
  if bool_decide (ini = Some me) then panic "init exiting"
  else
    for_each (seq 0 (Z.to_nat NOFILE)) (close_file me) ;;;
    on_env s_begin_op ;;;
    p <-- getp me ;;
    (match p_cwd p with Some ip => on_env (s_iput ip) | None => panic "null cwd" end) ;;;
    on_env s_end_op ;;;
    updp me (set_p_cwd None) ;;;
    acquire c ;;;
    p <-- getp me ;;
    wakeup1 (chan_of (p_parent p)) ;;;
    for_each (seq 0 nproc) (abandon me) ;;;
    updp me (set_p_state ZOMBIE) ;;;
    sched (A := unit) c ;;;
    panic "zombie exit".

(** The reaping of a zombie child. *)
Definition reap (i : nat) : M kst Z :=
  p <-- getp i ;;
  on_env (s_kfree (p_kstack p)) ;;;
  updp i (set_p_kstack 0) ;;;
  on_env (s_freevm (p_pgdir p)) ;;;
  updp i (set_p_state UNUSED) ;;;
  updp i (set_p_pid 0) ;;;
  updp i (set_p_parent None) ;;;
  updp i (set_p_name []) ;;;
  updp i (set_p_killed 0) ;;;
  ret (p_pid p).
(** The scan of [wait]: [inr pid], or [inl havekids]. *)
Fixpoint wait_scan (me : nat) (l : list nat) (havekids : bool) : M kst (bool + Z) :=
  match l with
  | [] => ret (inl havekids)
  | i :: l' =>
      p <-- getp i ;;
      if negb (bool_decide (p_parent p = Some me)) then wait_scan me l' havekids
      else if is_state ZOMBIE p then pid <-- reap i ;; ret (inr pid)
      else wait_scan me l' true
  end.
(** One turn of the loop; the awakened process runs it again. *)
Definition wait (c : nat) : M kst Z :=
  me <-- myproc c ;;
  acquire c ;;;
  r <-- wait_scan me (seq 0 nproc) false ;;
  match r with
  | inr pid => release c ;;; ret pid
  | inl havekids =>
      p <-- getp me ;;
      if negb havekids || negb (p_killed p =? 0) then release c ;;; ret (-1)
      else sleep c (proc_chan me) PtableLock ;;; ret (-1)
  end.

Definition kill (c : nat) (pid : Z) : M kst Z :=
  acquire c ;;;
  s <-- get ;;
  match find_proc (fun p => p_pid p =? pid) (procs s) with
  | None => release c ;;; ret (-1)
  | Some i =>
      updp i (set_p_killed 1) ;;;
      updp i (fun p => if is_state SLEEPING p then set_p_state RUNNABLE p else p) ;;;
      release c ;;;
      ret 0
  end.

(** ** The scheduler *)

(** Switching to process [i]; [run] is what happens on this CPU until the
    process switches back. *)
Definition dispatch (c i : nat) : M kst unit :=
  updc c (set_pc_proc (Some i)) ;;;
  p <-- getp i ;;
  on_env (s_switchuvm (p_pgdir p) (p_kstack p)) ;;;
  updp i (set_p_state RUNNING).
Definition undispatch (c : nat) : M kst unit :=
  on_env s_switchkvm ;;;
  updc c (set_pc_proc None).
(** One pass over the table: was any process run? *)
Fixpoint scheduler_scan (run : nat -> M kst unit) (c : nat) (l : list nat) (ran : bool) : M kst bool :=
  match l with
  | [] => ret ran
  | i :: l' =>
      p <-- getp i ;;
      if is_state RUNNABLE p then
        dispatch c i ;;;
        run i ;;;
        undispatch c ;;;
        scheduler_scan run c l' true
      else scheduler_scan run c l' ran
  end.
(** One turn of [for(;;)]: [sti], the pass under the lock, [halt] if idle. *)
Definition sti_on (c : nat) : M kst unit :=
  updc c (fun pc => set_pc_cpu (mkcpu (ncli (pc_cpu pc)) (intena (pc_cpu pc)) true) pc).
Definition scheduler_turn (run : nat -> M kst unit) (c : nat) : M kst bool :=
  sti_on c ;;;
  acquire c ;;;
  ran <-- scheduler_scan run c (seq 0 nproc) false ;;
  release c ;;;
  ret ran.
End proc.
