(* ===== verification/ProcInv.v ===== *)
(** * The invariant of the process table

    Every routine of [proc.c] acts on an abstraction of the table (state, pid,
    parent, kernel stack and channel of each entry, [nextpid], [initproc], the
    lock and the CPUs).  The invariant [wf] of the abstraction is preserved by
    every step of the kernel. *)

From stdpp Require Import relations.
From S2P Require Import Prelude Params Spinlock Proc.

(** ** The abstraction *)

Record sig := mksig { g_state : procstate; g_pid : Z; g_parent : option nat; g_kstack : Z; g_chan : Z }.
Definition sig_of (p : proc) : sig := mksig (p_state p) (p_pid p) (p_parent p) (p_kstack p) (p_chan p).
Definition g_set_state v g := mksig v (g_pid g) (g_parent g) (g_kstack g) (g_chan g).
Definition g_set_pid v g := mksig (g_state g) v (g_parent g) (g_kstack g) (g_chan g).
Definition g_set_parent v g := mksig (g_state g) (g_pid g) v (g_kstack g) (g_chan g).
Definition g_set_kstack v g := mksig (g_state g) (g_pid g) (g_parent g) v (g_chan g).
Definition g_set_chan v g := mksig (g_state g) (g_pid g) (g_parent g) (g_kstack g) v.

Record core := mkcore {
  co_l : list sig;
  co_next : Z;
  co_ini : option nat;
  co_lock : bool;
  co_cpus : list pcpu
}.
Definition co_set_l v k := mkcore v (co_next k) (co_ini k) (co_lock k) (co_cpus k).
Definition co_set_next v k := mkcore (co_l k) v (co_ini k) (co_lock k) (co_cpus k).
Definition co_set_lock v k := mkcore (co_l k) (co_next k) (co_ini k) v (co_cpus k).
Definition co_set_cpus v k := mkcore (co_l k) (co_next k) (co_ini k) (co_lock k) v.

(** A process that can still call [wait]. *)
Definition alive (st : procstate) : Prop := st = SLEEPING \/ st = RUNNABLE \/ st = RUNNING.

(** The process of each CPU. *)
Definition running (k : core) : list (option nat) := pc_proc <$> co_cpus k.

(** The invariant, between the steps of the kernel. *)
Record wf (k : core) : Prop := {
  w_len : length (co_l k) = nproc;
  w_lock : co_lock k = false;
  w_ncli : forall c pc, co_cpus k !! c = Some pc -> ncli (pc_cpu pc) = 0;
  w_embryo : forall i g, co_l k !! i = Some g -> g_state g <> EMBRYO;
  (* pids of live entries are positive, below nextpid and distinct *)
  w_next : 0 < co_next k;
  w_pid : forall i g, co_l k !! i = Some g -> g_state g <> UNUSED -> 0 < g_pid g < co_next k;
  w_uniq : forall i j g h, co_l k !! i = Some g -> co_l k !! j = Some h ->
    g_state g <> UNUSED -> g_state h <> UNUSED -> g_pid g = g_pid h -> i = j;
  (* a process runs on exactly one CPU *)
  w_cpu_run : forall c i, running k !! c = Some (Some i) -> exists g, co_l k !! i = Some g /\ g_state g = RUNNING;
  w_run_cpu : forall i g, co_l k !! i = Some g -> g_state g = RUNNING -> exists c, running k !! c = Some (Some i);
  w_one_cpu : forall c c' i, running k !! c = Some (Some i) -> running k !! c' = Some (Some i) -> c = c';
  (* parents are alive, and every process but the first has one *)
  w_parent : forall i g q, co_l k !! i = Some g -> g_parent g = Some q ->
    exists h, co_l k !! q = Some h /\ alive (g_state h);
  w_orphan : forall i g, co_l k !! i = Some g -> g_state g <> UNUSED -> co_ini k <> Some i -> is_Some (g_parent g);
  w_init : exists n g, co_ini k = Some n /\ co_l k !! n = Some g /\ alive (g_state g);
  (* free entries *)
  w_unused : forall i g, co_l k !! i = Some g -> g_state g = UNUSED -> g_parent g = None /\ g_kstack g = 0;
  w_kstack : forall i g, co_l k !! i = Some g -> g_state g <> UNUSED -> g_kstack g <> 0
}.

(** ** The invariant under the abstract steps *)

(** [g'] is [g], or [g] woken up. *)
Definition woken (g g' : sig) : Prop := g' = g \/ (g_state g = SLEEPING /\ g' = g_set_state RUNNABLE g).

Lemma woken_facts g g' : woken g g' ->
  g_pid g' = g_pid g /\ g_parent g' = g_parent g /\ g_kstack g' = g_kstack g /\ g_chan g' = g_chan g /\
  (g_state g' = UNUSED <-> g_state g = UNUSED) /\ (g_state g' = RUNNING <-> g_state g = RUNNING) /\
  (g_state g' = EMBRYO <-> g_state g = EMBRYO) /\ (alive (g_state g) -> alive (g_state g')).
Proof.
  intros [->|[E ->]]; [tauto|]. cbn. rewrite E. split_and!; try done. intros _. right. by left.
Qed.

Lemma wf_woken k l' : wf k -> Forall2 woken (co_l k) l' -> wf (co_set_l l' k).
Proof.
  intros H Hl. pose proof (Forall2_length _ _ _ Hl) as Hlen.
  assert (Hb : forall i g', l' !! i = Some g' -> exists g, co_l k !! i = Some g /\ woken g g').
  { intros i g' Hi. by apply (Forall2_lookup_r _ _ _ _ _ Hl) in Hi. }
  assert (Hf : forall i g, co_l k !! i = Some g -> exists g', l' !! i = Some g' /\ woken g g').
  { intros i g Hi. by apply (Forall2_lookup_l _ _ _ _ _ Hl) in Hi. }
  destruct H as [W1 W2 W3 W4 W5 W6 W7 W8 W9 W10 W11 W12 W13 W14 W15]. split; cbn; try done.
  - by rewrite <-Hlen.
  - intros i g' (g & Hg & Hw%woken_facts)%Hb. specialize (W4 _ _ Hg). tauto.
  - intros i g' (g & Hg & Hw%woken_facts)%Hb Hs. specialize (W6 _ _ Hg). destruct Hw as (-> & Hw). apply W6. tauto.
  - intros i j g' h' (g & Hg & Hw%woken_facts)%Hb (h & Hh & Hw'%woken_facts)%Hb.
    destruct Hw as (-> & _ & _ & _ & Hw & _), Hw' as (-> & _ & _ & _ & Hw' & _). intros ? ?.
    apply (W7 i j g h); tauto.
  - intros c i Hc. destruct (W8 c i Hc) as (g & Hg & Hr). destruct (Hf _ _ Hg) as (g' & Hg' & Hw%woken_facts).
    exists g'. tauto.
  - intros i g' (g & Hg & Hw%woken_facts)%Hb Hr. apply (W9 i g Hg). tauto.
  - intros i g' q (g & Hg & Hw%woken_facts)%Hb Hp. destruct Hw as (_ & E & _). rewrite E in Hp.
    destruct (W11 i g q Hg Hp) as (h & Hh & Ha). destruct (Hf _ _ Hh) as (h' & Hh' & Hw'%woken_facts). exists h'. tauto.
  - intros i g' (g & Hg & Hw%woken_facts)%Hb Hs Hi. destruct Hw as (_ & -> & _ & _ & Hw & _). apply (W12 i g Hg); tauto.
  - destruct W13 as (n & g & Hn & Hg & Ha). destruct (Hf _ _ Hg) as (g' & Hg' & Hw%woken_facts). exists n, g'. tauto.
  - intros i g' (g & Hg & Hw%woken_facts)%Hb Hs. destruct Hw as (_ & -> & -> & _ & Hw & _). apply (W14 i g Hg). tauto.
  - intros i g' (g & Hg & Hw%woken_facts)%Hb Hs. destruct Hw as (_ & _ & -> & _ & Hw & _). apply (W15 i g Hg). tauto.
Qed.

(** A CPU list with the same or another process on CPU [c], interrupts nested
    as deep as before. *)
Definition ncli0 (cs : list pcpu) : Prop := forall c pc, cs !! c = Some pc -> ncli (pc_cpu pc) = 0.

(** Case analysis on the entry read after an update of one. *)
Ltac entry :=
  repeat match goal with
  | H : <[_ := _]> _ !! _ = Some _ |- _ => apply list_lookup_insert_Some in H as [(<- & <- & ?)|(? & H)]; cbn in *
  end.
(** The entry read back. *)
Lemma insert_look {A} (l : list A) n x g : l !! n = Some g -> <[n := x]> l !! n = Some x.
Proof. intros H. apply list_lookup_insert_eq. by eapply lookup_lt_Some. Qed.
Lemma insert_keep {A} (l : list A) n i x g : l !! i = Some g -> n <> i -> <[n := x]> l !! i = Some g.
Proof. intros. by rewrite list_lookup_insert_ne. Qed.
#[local] Hint Resolve insert_look insert_keep : core.

Lemma wf_ncli0 k : wf k -> ncli0 (co_cpus k).
Proof. intros H. exact (w_ncli _ H). Qed.
Lemma alive_not_unused st : alive st -> st <> UNUSED /\ st <> ZOMBIE /\ st <> EMBRYO.
Proof. intros [-> | [-> | ->]]; done. Qed.

(** [fork] fills the free entry [n]. *)
Lemma wf_fork k n g c me ks cs : wf k -> co_l k !! n = Some g -> g_state g = UNUSED ->
  running k !! c = Some (Some me) -> ks <> 0 -> ncli0 cs -> pc_proc <$> cs = running k ->
  wf (mkcore (<[n := mksig RUNNABLE (co_next k) (Some me) ks (g_chan g)]> (co_l k)) (co_next k + 1) (co_ini k) false cs).
Proof.
  intros [W1 W2 W3 W4 W5 W6 W7 W8 W9 W10 W11 W12 W13 W14 W15] Hn Hu Hc Hk Hcs Hrun.
  destruct (W8 c me Hc) as (gm & Hm & Hrm).
  assert (Hnm : n <> me) by congruence.
  split; cbn; unfold running; cbn [co_cpus]; rewrite ?Hrun; try done; try (by rewrite length_insert).
  - intros i h Hi. entry; eauto.
  - lia.
  - intros i h Hi Hs. entry; [lia|]. specialize (W6 i h Hi Hs). lia.
  - intros i j h h' Hi Hj Hs Hs' Hp. entry; try done.
    + pose proof (W6 i h Hi Hs). lia.
    + pose proof (W6 j h' Hj Hs'). lia.
    + eapply W7; eauto.
  - intros c' i Hi. destruct (W8 c' i Hi) as (h & Hh & Hr). exists h. split; [|done].
    apply insert_keep; [done|]. congruence.
  - intros i h Hi Hr. entry; [done|]. eauto.
  - intros i h q Hi Hp. entry.
    + injection Hp as <-. exists gm. split; [eauto|]. right. by right.
    + destruct (W11 i h q Hi Hp) as (h' & Hh' & Ha). exists h'. split; [|done]. apply insert_keep; [done|].
      intros ->. apply alive_not_unused in Ha as (? & ? & ?). congruence.
  - intros i h Hi Hs Hini. entry; [by eexists|]. eauto.
  - destruct W13 as (m & h & Hm' & Hh & Ha). exists m, h. split_and!; [done| |done]. apply insert_keep; [done|].
    intros ->. apply alive_not_unused in Ha as (? & ? & ?). congruence.
  - intros i h Hi Hs. entry; [done|]. eauto.
  - intros i h Hi Hs. entry; [done|]. eauto.
Qed.

(** [wait] frees the zombie [n] (and a failed [fork] its entry): an entry that
    is nobody's parent becomes free. *)
Lemma wf_free k n g pid next cs : wf k -> co_l k !! n = Some g -> g_state g = UNUSED \/ g_state g = ZOMBIE ->
  co_next k <= next -> ncli0 cs -> pc_proc <$> cs = running k ->
  wf (mkcore (<[n := mksig UNUSED pid None 0 (g_chan g)]> (co_l k)) next (co_ini k) false cs).
Proof.
  intros [W1 W2 W3 W4 W5 W6 W7 W8 W9 W10 W11 W12 W13 W14 W15] Hn Hu Hnext Hcs Hrun.
  split; cbn; unfold running; cbn [co_cpus]; rewrite ?Hrun; try done; try (by rewrite length_insert).
  - intros i h Hi. entry; eauto.
  - lia.
  - intros i h Hi Hs. entry; [done|]. specialize (W6 i h Hi Hs). lia.
  - intros i j h h' Hi Hj Hs Hs' Hp. entry; try done. eapply W7; eauto.
  - intros c' i Hi. destruct (W8 c' i Hi) as (h & Hh & Hr). exists h. split; [|done].
    apply insert_keep; [done|]. intros ->. destruct Hu; congruence.
  - intros i h Hi Hr. entry; [done|]. eauto.
  - intros i h q Hi Hp. entry; [done|]. destruct (W11 i h q Hi Hp) as (h' & Hh' & Ha).
    exists h'. split; [|done]. apply insert_keep; [done|]. intros ->. apply alive_not_unused in Ha as (? & ? & ?). destruct Hu; congruence.
  - intros i h Hi Hs Hini. entry; [done|]. eauto.
  - destruct W13 as (m & h & Hm' & Hh & Ha). exists m, h. split_and!; [done| |done]. apply insert_keep; [done|].
    intros ->. apply alive_not_unused in Ha as (? & ? & ?). destruct Hu; congruence.
  - intros i h Hi Hs. entry; [done|]. eauto.
  - intros i h Hi Hs. entry; [done|]. eauto.
Qed.

(** The running process of CPU [c] stops, asleep or runnable. *)
Lemma wf_stop k c me g st ch cs : wf k -> running k !! c = Some (Some me) -> co_l k !! me = Some g ->
  st = SLEEPING \/ st = RUNNABLE -> ncli0 cs -> pc_proc <$> cs = <[c := None]> (running k) ->
  wf (mkcore (<[me := mksig st (g_pid g) (g_parent g) (g_kstack g) ch]> (co_l k)) (co_next k) (co_ini k) false cs).
Proof.
  intros [W1 W2 W3 W4 W5 W6 W7 W8 W9 W10 W11 W12 W13 W14 W15] Hc Hme Hst Hcs Hrun.
  assert (Hr : g_state g = RUNNING) by (destruct (W8 c me Hc) as (g' & Hg' & ?); congruence).
  split; cbn; unfold running; cbn [co_cpus]; rewrite ?Hrun; try done; try (by rewrite length_insert).
  - intros i h Hi. entry; [destruct Hst; congruence|eauto].
  - intros i h Hi Hs. entry; eauto. apply (W6 me g Hme). congruence.
  - intros i j h h' Hi Hj Hs Hs' Hp. entry; try done.
    + apply (W7 i me h g); try done. congruence.
    + apply (W7 me j g h'); try done. congruence.
    + eapply W7; eauto.
  - intros c' i Hi. apply list_lookup_insert_Some in Hi as [(_ & ? & _)|(Hne & Hi)]; [done|].
    destruct (W8 c' i Hi) as (h & Hh & Hr'). exists h. split; [|done]. apply insert_keep; [done|].
    intros ->. by apply Hne, (W10 c c' i).
  - intros i h Hi Hr'. entry; [destruct Hst; congruence|]. destruct (W9 i h Hi Hr') as (c' & Hc'). exists c'.
    apply insert_keep; [done|]. congruence.
  - intros c1 c2 i Hc1 Hc2. apply list_lookup_insert_Some in Hc1 as [(_ & ? & _)|(_ & Hc1)]; [done|].
    apply list_lookup_insert_Some in Hc2 as [(_ & ? & _)|(_ & Hc2)]; [done|]. eauto.
  - intros i h q Hi Hp.
    assert (Hq : exists h', co_l k !! q = Some h' /\ alive (g_state h')) by (entry; eauto).
    destruct Hq as (h' & Hh' & Ha). destruct (decide (q = me)) as [->|].
    + eexists. split; [by eapply insert_look|]. cbn. unfold alive. tauto.
    + exists h'. eauto.
  - intros i h Hi Hs Hini. entry; eauto. apply (W12 me g); congruence.
  - destruct W13 as (m & h & Hm' & Hh & Ha). destruct (decide (m = me)) as [->|].
    + eexists me, _. split_and!; [done|by eapply insert_look|]. cbn. unfold alive. tauto.
    + exists m, h. eauto.
  - intros i h Hi Hs. entry; [destruct Hst; congruence|]. eauto.
  - intros i h Hi Hs. entry; eauto. apply (W15 me g); congruence.
Qed.

(** The scheduler of the idle CPU [c] runs process [i]. *)
Lemma wf_run k c i g ch cs : wf k -> running k !! c = Some None -> co_l k !! i = Some g -> g_state g = RUNNABLE ->
  ncli0 cs -> pc_proc <$> cs = <[c := Some i]> (running k) ->
  wf (mkcore (<[i := mksig RUNNING (g_pid g) (g_parent g) (g_kstack g) ch]> (co_l k)) (co_next k) (co_ini k) false cs).
Proof.
  intros [W1 W2 W3 W4 W5 W6 W7 W8 W9 W10 W11 W12 W13 W14 W15] Hc Hi Hr Hcs Hrun.
  assert (Hnot : forall c', running k !! c' = Some (Some i) -> False).
  { intros c' Hc'. destruct (W8 c' i Hc') as (h & Hh & ?). congruence. }
  split; cbn; unfold running; cbn [co_cpus]; rewrite ?Hrun; try done; try (by rewrite length_insert).
  - intros j h Hj. entry; eauto.
  - intros j h Hj Hs. entry; eauto. apply (W6 i g Hi). congruence.
  - intros j j' h h' Hj Hj' Hs Hs' Hp. entry; try done.
    + apply (W7 j i h g); try done. congruence.
    + apply (W7 i j' g h'); try done. congruence.
    + eapply W7; eauto.
  - intros c' j Hj. apply list_lookup_insert_Some in Hj as [(<- & [= <-] & _)|(Hne & Hj)]; [by eauto|].
    destruct (W8 c' j Hj) as (h & Hh & Hr'). exists h. split; [|done]. apply insert_keep; [done|]. intros ->. eauto.
  - intros j h Hj Hr'. entry; [exists c; by eapply insert_look|]. destruct (W9 j h Hj Hr') as (c' & Hc'). exists c'.
    apply insert_keep; [done|]. congruence.
  - intros c1 c2 j Hc1 Hc2. apply list_lookup_insert_Some in Hc1 as [(<- & [= <-] & _)|(? & Hc1)];
      apply list_lookup_insert_Some in Hc2 as [(<- & ? & _)|(? & Hc2)]; simplify_eq; eauto; by exfalso; eauto.
  - intros j h q Hj Hp.
    assert (Hq : exists h', co_l k !! q = Some h' /\ alive (g_state h')) by (entry; eauto).
    destruct Hq as (h' & Hh' & Ha). destruct (decide (q = i)) as [->|].
    + eexists. split; [by eapply insert_look|]. cbn. unfold alive. tauto.
    + exists h'. eauto.
  - intros j h Hj Hs Hini. entry; eauto. apply (W12 i g); congruence.
  - destruct W13 as (m & h & Hm' & Hh & Ha). destruct (decide (m = i)) as [->|].
    + eexists i, _. split_and!; [done|by eapply insert_look|]. cbn. unfold alive. tauto.
    + exists m, h. eauto.
  - intros j h Hj Hs. entry; [done|]. eauto.
  - intros j h Hj Hs. entry; eauto. apply (W15 i g); congruence.
Qed.

(** [exit] passes the children of [me] to init ... *)
Definition reparent (me : nat) (ini : option nat) (g : sig) : sig :=
  if bool_decide (g_parent g = Some me) then g_set_parent ini g else g.
Lemma reparent_facts me ini g :
  g_state (reparent me ini g) = g_state g /\ g_pid (reparent me ini g) = g_pid g /\ g_kstack (reparent me ini g) = g_kstack g /\
  g_chan (reparent me ini g) = g_chan g /\
  (g_parent g = Some me -> g_parent (reparent me ini g) = ini) /\
  (g_parent g <> Some me -> g_parent (reparent me ini g) = g_parent g).
Proof. unfold reparent. case_bool_decide; split_and!; try done. Qed.

(** ... and leaves [me] a zombie. *)
Lemma wf_zombie k c me g cs : wf k -> running k !! c = Some (Some me) -> co_ini k <> Some me ->
  co_l k !! me = Some g -> ncli0 cs -> pc_proc <$> cs = <[c := None]> (running k) ->
  wf (mkcore (<[me := g_set_state ZOMBIE (reparent me (co_ini k) g)]> (reparent me (co_ini k) <$> co_l k))
    (co_next k) (co_ini k) false cs).
Proof.
  intros [W1 W2 W3 W4 W5 W6 W7 W8 W9 W10 W11 W12 W13 W14 W15] Hc Hini Hme Hcs Hrun.
  set (rp := reparent me (co_ini k)).
  assert (Hr : g_state g = RUNNING) by (destruct (W8 c me Hc) as (g' & Hg' & ?); congruence).
  assert (Hlook : forall i h', <[me := g_set_state ZOMBIE (rp g)]> (rp <$> co_l k) !! i = Some h' ->
    (i = me /\ h' = g_set_state ZOMBIE (rp g)) \/ (i <> me /\ exists h, co_l k !! i = Some h /\ h' = rp h)).
  { intros i h' Hi. apply list_lookup_insert_Some in Hi as [(<- & <- & _)|(? & Hi)]; [by left|]. right. split; [done|].
    rewrite list_lookup_fmap in Hi. destruct (co_l k !! i) as [h|]; [|done]. injection Hi as <-. eauto. }
  assert (Hput : forall i h, co_l k !! i = Some h -> i <> me ->
    <[me := g_set_state ZOMBIE (rp g)]> (rp <$> co_l k) !! i = Some (rp h)).
  { intros i h Hi Hne. rewrite list_lookup_insert_ne by done. by rewrite list_lookup_fmap, Hi. }
  destruct W13 as (m & gi & Em & Hgi & Hai).
  assert (Hlive : forall q, q <> me -> (exists h, co_l k !! q = Some h /\ alive (g_state h)) ->
    exists h, <[me := g_set_state ZOMBIE (rp g)]> (rp <$> co_l k) !! q = Some h /\ alive (g_state h)).
  { intros q Hq (h & Hh & Ha). exists (rp h). split; [by apply Hput|]. unfold rp.
    destruct (reparent_facts me (co_ini k) h) as (-> & _). done. }
  assert (Hfp : forall h, g_state (rp h) = g_state h /\ g_pid (rp h) = g_pid h /\ g_kstack (rp h) = g_kstack h)
    by (intros h; destruct (reparent_facts me (co_ini k) h) as (? & ? & ? & _); done).
  assert (Hpar : forall i h q, co_l k !! i = Some h -> g_parent (rp h) = Some q ->
    q <> me /\ exists h', co_l k !! q = Some h' /\ alive (g_state h')).
  { intros i h q Hi Hp. destruct (reparent_facts me (co_ini k) h) as (_ & _ & _ & _ & H1 & H2). fold rp in H1, H2.
    destruct (decide (g_parent h = Some me)) as [E|E].
    - rewrite (H1 E), Em in Hp. injection Hp as <-. split; [congruence|eauto].
    - rewrite (H2 E) in Hp. split; [congruence|eauto]. }
  split; cbn; unfold running; cbn [co_cpus]; rewrite ?Hrun; try done.
  - by rewrite length_insert, length_fmap.
  - intros i h' [(-> & ->)|(? & h & Hi & ->)]%Hlook; [done|]. destruct (Hfp h) as (-> & _). eauto.
  - intros i h' [(-> & ->)|(? & h & Hi & ->)]%Hlook Hs.
    + cbn. destruct (Hfp g) as (_ & -> & _). apply (W6 me g Hme). congruence.
    + destruct (Hfp h) as (E & -> & _). rewrite E in Hs. eauto.
  - intros i j h h' Hi%Hlook Hj%Hlook Hs Hs' Hp.
    assert (Hi' : exists a, co_l k !! i = Some a /\ g_pid a = g_pid h /\ g_state a <> UNUSED).
    { destruct Hi as [(-> & ->)|(? & a & Ha & ->)]; [exists g|exists a]; cbn in *.
      - destruct (Hfp g) as (_ & -> & _). split_and!; [done|done|congruence].
      - destruct (Hfp a) as (E & -> & _). rewrite E in Hs. done. }
    assert (Hj' : exists a, co_l k !! j = Some a /\ g_pid a = g_pid h' /\ g_state a <> UNUSED).
    { destruct Hj as [(-> & ->)|(? & a & Ha & ->)]; [exists g|exists a]; cbn in *.
      - destruct (Hfp g) as (_ & -> & _). split_and!; [done|done|congruence].
      - destruct (Hfp a) as (E & -> & _). rewrite E in Hs'. done. }
    destruct Hi' as (a & ? & ? & ?), Hj' as (b & ? & ? & ?). apply (W7 i j a b); congruence.
  - intros c' i Hi. apply list_lookup_insert_Some in Hi as [(_ & ? & _)|(Hne & Hi)]; [done|].
    destruct (W8 c' i Hi) as (h & Hh & Hr'). exists (rp h). destruct (Hfp h) as (-> & _). split; [|done].
    apply Hput; [done|]. intros ->. by apply Hne, (W10 c c' me).
  - intros i h' [(-> & ->)|(? & h & Hi & ->)]%Hlook Hr'; [done|]. destruct (Hfp h) as (E & _). rewrite E in Hr'.
    destruct (W9 i h Hi Hr') as (c' & Hc'). exists c'. apply insert_keep; [done|]. congruence.
  - intros c1 c2 i Hc1 Hc2. apply list_lookup_insert_Some in Hc1 as [(_ & ? & _)|(_ & Hc1)]; [done|].
    apply list_lookup_insert_Some in Hc2 as [(_ & ? & _)|(_ & Hc2)]; [done|]. eauto.
  - intros i h' q [(-> & ->)|(? & h & Hi & ->)]%Hlook Hp; [|destruct (Hpar i h q Hi Hp); by apply Hlive].
    destruct (Hpar me g q Hme Hp). by apply Hlive.
  - intros i h' Hi Hs Hne. apply Hlook in Hi as [(-> & ->)|(? & h & Hi & ->)].
    + cbn. destruct (reparent_facts me (co_ini k) g) as (_ & _ & _ & _ & H1 & H2). fold rp in H1, H2.
      destruct (decide (g_parent g = Some me)) as [E|E]; [rewrite (H1 E), Em; eauto|rewrite (H2 E)].
      apply (W12 me g); congruence.
    + destruct (reparent_facts me (co_ini k) h) as (E & _ & _ & _ & H1 & H2). fold rp in E, H1, H2. rewrite E in Hs.
      destruct (decide (g_parent h = Some me)) as [E'|E']; [rewrite (H1 E'), Em; eauto|rewrite (H2 E')]. eauto.
  - exists m. destruct (Hlive m) as (h & Hh & Ha); [congruence|eauto|]. eauto.
  - intros i h' [(-> & ->)|(? & h & Hi & ->)]%Hlook Hs; [done|].
    destruct (Hfp h) as (E & _ & ->). rewrite E in Hs. destruct (W14 i h Hi Hs) as [Hp ->].
    destruct (reparent_facts me (co_ini k) h) as (_ & _ & _ & _ & _ & H2). fold rp in H2. rewrite H2; [done|congruence].
  - intros i h' [(-> & ->)|(? & h & Hi & ->)]%Hlook Hs.
    + cbn. destruct (Hfp g) as (_ & _ & ->). apply (W15 me g); congruence.
    + destruct (Hfp h) as (E & _ & ->). rewrite E in Hs. eauto.
Qed.

(** ** The routines on the abstraction *)

Section routines.
Context {E : Type} `{!Services E}.
Context (forkret_at trapret_at : Z) (proc_chan : nat -> Z).
Implicit Types (s : kst (E := E)) (k : core).

Definition core_of s : core := mkcore (sig_of <$> procs s) (nextpid s) (initproc s) (plock s) (cpus s).

Lemma alter_eq {A} (f : A -> A) i x (l : list A) : l !! i = Some x -> alter f i l = <[i := f x]> l.
Proof.
  intros Hi. apply list_eq. intros j. destruct (decide (i = j)) as [<-|].
  - rewrite list_lookup_alter_eq, Hi, list_lookup_insert_eq by (by eapply lookup_lt_Some). done.
  - by rewrite list_lookup_alter_ne, list_lookup_insert_ne.
Qed.

Lemma may_updp i f g (Q : unit -> kst -> Prop) R s :
  (forall p, sig_of (f p) = g (sig_of p)) ->
  (forall s', core_of s' = co_set_l (alter g i (co_l (core_of s))) (core_of s) -> Q tt s') ->
  may (updp i f) Q R s.
Proof.
  intros Hf HQ. apply may_modify, HQ. unfold core_of, co_set_l. cbn. f_equal. by apply list_fmap_alter, Forall_true.
Qed.
(** An update of fields that the abstraction leaves out. *)
Lemma may_updp_frame i f (Q : unit -> kst -> Prop) R s :
  (forall p, sig_of (f p) = sig_of p) -> (forall s', core_of s' = core_of s -> Q tt s') -> may (updp i f) Q R s.
Proof.
  intros Hf HQ. apply (may_updp i f (fun g => g)); [done|]. intros s' Hs'. apply HQ. rewrite Hs'. unfold co_set_l.
  destruct (core_of s) as [l ? ? ? ?]; cbn. f_equal. by apply list_alter_id.
Qed.
Lemma may_env {A} (m : M E A) (Q : A -> kst -> Prop) R s :
  (forall a s', core_of s' = core_of s -> Q a s') -> (forall s', core_of s' = core_of s -> R s') -> may (on_env m) Q R s.
Proof. intros HQ HR. apply may_zoom; intros; [apply HQ|apply HR]; done. Qed.
Lemma may_env_awake {A} (m : M E A) (Q : A -> kst -> Prop) R s :
  awake m -> (forall a s', core_of s' = core_of s -> Q a s') -> may (on_env m) Q R s.
Proof. intros Hm HQ. apply may_zoom_awake; [done|]. intros. by apply HQ. Qed.
Lemma may_getp i (Q : proc -> kst -> Prop) R s :
  (forall p, (forall g, co_l (core_of s) !! i = Some g -> g = sig_of p) -> Q p s) -> may (getp i) Q R s.
Proof.
  intros HQ. apply may_gets, HQ. intros g. cbn. rewrite list_lookup_fmap, list_lookup_total_alt.
  destruct (procs s !! i); [|done]. by intros [= <-].
Qed.
Lemma may_myproc c (Q : nat -> kst -> Prop) R s :
  (forall i, running (core_of s) !! c = Some (Some i) -> Q i s) -> may (myproc c) Q R s.
Proof.
  intros HQ. unfold myproc. apply may_bind, may_get. destruct (cpus s !! c ≫= pc_proc) as [i|] eqn:Ei; [|done].
  apply may_ret, HQ. unfold running. cbn. rewrite list_lookup_fmap.
  destruct (cpus s !! c) as [pc|]; [|done]. cbn in *. by rewrite Ei.
Qed.

(** The CPUs inside and after a critical section of CPU [c]. *)
Definition push_cpu (c : nat) (cs : list pcpu) : list pcpu := alter (fun pc => set_pc_cpu (pushcli (pc_cpu pc)) pc) c cs.
Lemma push_proc c cs : pc_proc <$> push_cpu c cs = pc_proc <$> cs.
Proof.
  apply list_eq. intros j. rewrite !list_lookup_fmap. unfold push_cpu.
  destruct (decide (c = j)) as [<-|]; [rewrite list_lookup_alter_eq|by rewrite list_lookup_alter_ne]. by destruct (cs !! c).
Qed.
Lemma may_acquire c (Q : unit -> kst -> Prop) R s :
  (forall s', co_lock (core_of s) = false ->
    core_of s' = co_set_lock true (co_set_cpus (push_cpu c (co_cpus (core_of s))) (core_of s)) -> Q tt s') ->
  may (acquire c) Q R s.
Proof.
  intros HQ. unfold acquire, updc. apply may_bind, may_modify, may_bind, may_gets. cbn.
  destruct (plock s) eqn:El; [done|]. apply may_modify, HQ; done.
Qed.
(** [popcli] gives CPUs with the same processes; [ncli] is one less on [c]. *)
Definition popped (c : nat) (cs cs' : list pcpu) : Prop :=
  pc_proc <$> cs' = pc_proc <$> cs /\
  forall j pc', cs' !! j = Some pc' -> exists pc, cs !! j = Some pc /\
    ncli (pc_cpu pc') = if decide (j = c) then ncli (pc_cpu pc) - 1 else ncli (pc_cpu pc).
Lemma may_popcli c (Q : unit -> kst -> Prop) R s :
  (forall s' cs', popped c (co_cpus (core_of s)) cs' -> core_of s' = co_set_cpus cs' (core_of s) -> Q tt s') ->
  may (popcli_on c) Q R s.
Proof.
  intros HQ. unfold popcli_on. apply may_bind, may_get. destruct (cpus s !! c) as [pc|] eqn:Ec; [|done].
  unfold popcli. destruct (iflag (pc_cpu pc)); [done|]. destruct (_ <? 0); [done|]. unfold updc.
  apply may_modify. eapply HQ; [|done]. cbn. split.
  - apply list_eq. intros j. rewrite !list_lookup_fmap.
    destruct (decide (c = j)) as [<-|]; [rewrite list_lookup_alter_eq|by rewrite list_lookup_alter_ne]. by destruct (cpus s !! c).
  - intros j pc' Hj. destruct (decide (j = c)) as [->|].
    + rewrite list_lookup_alter_eq, Ec in Hj. injection Hj as <-. by exists pc.
    + rewrite list_lookup_alter_ne in Hj by done. by exists pc'.
Qed.
Lemma may_release c (Q : unit -> kst -> Prop) R s :
  (forall s' cs', popped c (co_cpus (core_of s)) cs' ->
    core_of s' = co_set_lock false (co_set_cpus cs' (core_of s)) -> Q tt s') ->
  may (release c) Q R s.
Proof.
  intros HQ. unfold release. apply may_bind, may_gets. destruct (plock s); [|done]. cbn [negb].
  apply may_bind, may_modify, may_popcli. intros s' cs' Hp Hs'. apply (HQ s' cs'); [done|]. by rewrite Hs'.
Qed.
(** CPU [c] is nested [n] deep, the others are outside. *)
Definition nested (n : Z) (c : nat) (cs : list pcpu) : Prop :=
  forall j pc, cs !! j = Some pc -> ncli (pc_cpu pc) = if decide (j = c) then n else 0.
Lemma nested_push n c cs : nested n c cs -> nested (n + 1) c (push_cpu c cs).
Proof.
  intros Hn j pc Hj. unfold push_cpu in Hj. case_decide as Hjc.
  - subst. rewrite list_lookup_alter_eq in Hj. destruct (cs !! c) as [pc0|] eqn:Ec; [|done]. injection Hj as <-. cbn.
    rewrite (Hn c pc0 Ec). by rewrite decide_True.
  - rewrite list_lookup_alter_ne in Hj by done. rewrite (Hn j pc Hj). by rewrite decide_False.
Qed.
Lemma nested_pop n c cs cs' : nested n c cs -> popped c cs cs' -> nested (n - 1) c cs'.
Proof.
  intros Hn [_ Hp] j pc' Hj. destruct (Hp j pc' Hj) as (pc & Hpc & ->). rewrite (Hn j pc Hpc). by case_decide.
Qed.
Lemma nested_0 c cs : nested 0 c cs <-> ncli0 cs.
Proof. split; intros H j pc Hj; specialize (H j pc Hj); by case_decide || rewrite H; repeat case_decide. Qed.
Lemma push_pop c cs cs' : ncli0 cs -> popped c (push_cpu c cs) cs' -> ncli0 cs' /\ pc_proc <$> cs' = pc_proc <$> cs.
Proof.
  intros Hn%(nested_0 c)%nested_push Hp. split; [|destruct Hp as [-> _]; apply push_proc].
  by apply (nested_0 c), (nested_pop 1 c (push_cpu c cs)).
Qed.

Lemma find_proc_some f l i : find_proc f l = Some i -> exists p, l !! i = Some p /\ f p = true.
Proof.
  revert i. induction l as [|p l IH]; intros i; [done|]. cbn. destruct (f p) eqn:Ef.
  - intros [= <-]. by exists p.
  - destruct (find_proc f l) as [j|]; [|done]. intros [= <-]. by apply IH.
Qed.

(** Evaluate the updates of an abstract state. *)
Ltac cored :=
  unfold co_set_l, co_set_lock, co_set_cpus, co_set_next, g_set_state, g_set_pid, g_set_parent, g_set_kstack, g_set_chan,
    sig_of, compose; cbn [co_l co_next co_ini co_lock co_cpus g_state g_pid g_parent g_kstack g_chan].
(** One entry altered several times in a row. *)
Ltac alters H Hn :=
  unfold co_set_l, co_set_lock, co_set_cpus, co_set_next in H; cbn [co_l co_next co_ini co_lock co_cpus] in H;
  rewrite ?list_alter_alter_eq, ?(alter_eq _ _ _ _ Hn) in H;
  unfold g_set_state, g_set_pid, g_set_parent, g_set_kstack, g_set_chan, compose in H;
  cbn [g_state g_pid g_parent g_kstack g_chan] in H.

(** What [allocproc] relies on. *)
Record wf_free_entries k : Prop := {
  fe_lock : co_lock k = false;
  fe_ncli : ncli0 (co_cpus k);
  fe_next : 0 < co_next k;
  fe_unused : forall i g, co_l k !! i = Some g -> g_state g = UNUSED -> g_parent g = None /\ g_kstack g = 0
}.
Lemma wf_entries k : wf k -> wf_free_entries k.
Proof. intros [W1 W2 W3 W4 W5 W6 W7 W8 W9 W10 W11 W12 W13 W14 W15]. by split. Qed.

Lemma may_allocproc c k s (Q : option nat -> kst -> Prop) (R : kst -> Prop) :
  core_of s = k -> wf_free_entries k -> co_next k < 2 ^ 31 - 1 ->
  (forall s' cs', ncli0 cs' -> pc_proc <$> cs' = running k -> core_of s' = co_set_cpus cs' k -> Q None s') ->
  (forall n g s' cs', co_l k !! n = Some g -> g_state g = UNUSED -> ncli0 cs' -> pc_proc <$> cs' = running k ->
    core_of s' = mkcore (<[n := mksig UNUSED (co_next k) None 0 (g_chan g)]> (co_l k)) (co_next k + 1) (co_ini k) false cs' ->
    Q None s') ->
  (forall n g ks s' cs', co_l k !! n = Some g -> g_state g = UNUSED -> ks <> 0 -> ncli0 cs' -> pc_proc <$> cs' = running k ->
    core_of s' = mkcore (<[n := mksig EMBRYO (co_next k) None ks (g_chan g)]> (co_l k)) (co_next k + 1) (co_ini k) false cs' ->
    Q (Some n) s') ->
  (forall s', R s') -> may (allocproc forkret_at trapret_at c) Q R s.
Proof.
  intros Hk Hwf Hnext H1 H2 H3 HR. unfold allocproc. apply may_bind, may_acquire. intros s1 Hl Hs1. rewrite Hk in *.
  apply may_bind, may_get. destruct (find_proc _ _) as [n|] eqn:Ef.
  - apply find_proc_some in Ef as (p & Hp & Hu). apply bool_decide_eq_true in Hu.
    assert (Hn : co_l k !! n = Some (sig_of p)).
    { pose proof (f_equal co_l Hs1) as El. cbn in El. rewrite <-El. by rewrite list_lookup_fmap, Hp. }
    destruct (fe_unused _ Hwf n _ Hn Hu) as [Hpar Hks].
    assert (Hnp : nextpid s1 = co_next k) by (by apply (f_equal co_next) in Hs1).
    apply may_bind, (may_updp n _ (g_set_state EMBRYO)); [done|]. intros s2 Hs2.
    apply may_bind, (may_updp n _ (g_set_pid (nextpid s1))); [done|]. intros s3 Hs3.
    apply may_bind, may_modify. apply may_bind, may_release. intros s4 cs' Hpop Hs4.
    rewrite Hs1 in Hs2. rewrite Hs2 in Hs3.
    assert (Hs4' : core_of s4 = mkcore (<[n := mksig EMBRYO (co_next k) None 0 (p_chan p)]> (co_l k)) (co_next k + 1) (co_ini k) false cs').
    { rewrite Hs4. unfold core_of at 1. cbn [procs set_nextpid nextpid initproc plock cpus].
      pose proof (fe_next _ Hwf). rewrite Hnp, i32_id by lia.
      change (sig_of <$> procs s3) with (co_l (core_of s3)). change (initproc s3) with (co_ini (core_of s3)).
      rewrite Hs3. cbn. rewrite list_alter_alter_eq, (alter_eq _ _ _ _ Hn). cbn. rewrite Hnp.
      cbn in Hpar, Hks. cored. by rewrite Hpar, Hks. }
    assert (Hcs : ncli0 cs' /\ pc_proc <$> cs' = running k).
    { apply (push_pop c (co_cpus k)); [exact (fe_ncli _ Hwf)|]. apply (f_equal co_cpus) in Hs3. cbn in Hs3, Hpop.
      by rewrite Hs3 in Hpop. }
    destruct Hcs as [Hcs1 Hcs2].
    apply may_bind, may_env; [|by intros]. intros ks s5 Hs5. rewrite Hs4' in Hs5.
    assert (Hn' : <[n := mksig EMBRYO (co_next k) None 0 (p_chan p)]> (co_l k) !! n =
      Some (mksig EMBRYO (co_next k) None 0 (p_chan p))) by (by eapply insert_look).
    apply may_bind, (may_updp n _ (g_set_kstack ks)); [done|]. intros s6 Hs6. rewrite Hs5 in Hs6. alters Hs6 Hn'.
    rewrite list_insert_insert_eq in Hs6.
    destruct (Z.eqb_spec ks 0) as [->|Hne].
    + apply may_bind, (may_updp n _ (g_set_state UNUSED)); [done|]. intros s7 Hs7. rewrite Hs6 in Hs7.
      apply may_ret. apply (H2 n (sig_of p) s7 cs'); try done. alters Hs7 Hn'.
      by rewrite list_insert_insert_eq in Hs7.
    + apply may_bind, may_updp_frame; [done|]. intros s7 Hs7.
      apply may_bind, may_updp_frame; [done|]. intros s8 Hs8.
      apply may_bind, may_updp_frame; [done|]. intros s9 Hs9.
      apply may_bind, may_updp_frame; [done|]. intros s10 Hs10. apply may_ret.
      apply (H3 n (sig_of p) ks s10 cs'); try done. rewrite Hs10, Hs9, Hs8, Hs7. exact Hs6.
  - apply may_bind, may_release. intros s2 cs' Hpop Hs2. rewrite Hs1 in *. cbn in Hpop.
    destruct (push_pop c (co_cpus k) cs' (fe_ncli _ Hwf) Hpop) as [? ?]. apply may_ret. apply (H1 s2 cs'); try done.
    rewrite Hs2. unfold co_set_lock, co_set_cpus. cbn. by rewrite <-(fe_lock _ Hwf).
Qed.

Lemma fork_wf c s : wf (core_of s) -> nextpid s < 2 ^ 31 - 1 ->
  may (fork forkret_at trapret_at c) (fun _ s' => wf (core_of s')) (fun _ => True) s.
Proof.
  intros Hwf Hnext. unfold fork. apply may_bind, (may_allocproc c (core_of s)); try done; [by apply wf_entries|..].
  - intros s' cs' Hc1 Hc2 Hs'. apply may_ret. rewrite Hs'. destruct Hwf; by split; cbn; unfold running; cbn; rewrite ?Hc2.
  - intros n g s' cs' Hn Hu Hc1 Hc2 Hs'. apply may_ret. rewrite Hs'. apply wf_free; try done; [by left|lia].
  - intros n g ks s' cs' Hn Hu Hks Hc1 Hc2 Hs'.
    set (g1 := mksig EMBRYO (co_next (core_of s)) None ks (g_chan g)) in *.
    assert (Hn1 : <[n := g1]> (co_l (core_of s)) !! n = Some g1) by (by eapply insert_look).
    apply may_bind, may_myproc. intros me Hme. rewrite Hs' in Hme. unfold running in Hme. cbn [co_cpus] in Hme. rewrite Hc2 in Hme.
    apply may_bind, may_getp. intros p _.
    apply may_bind, may_env; [|done]. intros d s1 Hs1. rewrite Hs' in Hs1.
    apply may_bind, may_updp_frame; [done|]. intros s2 Hs2. rewrite Hs1 in Hs2.
    destruct (d =? 0).
    + apply may_bind, may_getp. intros q _.
      apply may_bind, may_env; [|done]. intros [] s3 Hs3. rewrite Hs2 in Hs3.
      apply may_bind, (may_updp n _ (g_set_kstack 0)); [done|]. intros s4 Hs4. rewrite Hs3 in Hs4.
      apply may_bind, (may_updp n _ (g_set_state UNUSED)); [done|]. intros s5 Hs5. rewrite Hs4 in Hs5. alters Hs5 Hn1.
      apply may_ret. rewrite Hs5, list_insert_insert_eq. apply (wf_free (core_of s) n g); try done; [by left|lia].
    + apply may_bind, may_updp_frame; [done|]. intros s3 Hs3. rewrite Hs2 in Hs3.
      apply may_bind, (may_updp n _ (g_set_parent (Some me))); [done|]. intros s4 Hs4. rewrite Hs3 in Hs4. alters Hs4 Hn1.
      rewrite list_insert_insert_eq in Hs4.
      apply may_bind, may_updp_frame; [done|]. intros s5 Hs5. rewrite Hs4 in Hs5.
      apply may_bind, may_updp_frame; [done|]. intros s6 Hs6. rewrite Hs5 in Hs6. clear Hs3 Hs4 Hs5.
      set (k6 := mkcore _ _ _ _ _) in Hs6.
      apply may_bind. eapply may_mono; [apply (may_for_each _ (fun s' => core_of s' = k6) (fun _ => True))| |done]; [|done|].
      { intros fd s7 _ Hs7. unfold dup_file. apply may_bind, may_getp. intros q _.
        destruct (p_ofile q !! fd) as [[f|]|]; try done.
        apply may_bind, may_env; [|done]. intros f' s8 Hs8. apply may_updp_frame; [done|]. intros s9 Hs9. congruence. }
      intros [] s7 Hs7. apply may_bind. destruct (p_cwd p) as [ip|]; [|done].
      apply may_bind, may_env; [|done]. intros ip' s8 Hs8. apply may_updp_frame; [done|]. intros s9 Hs9.
      apply may_bind, may_updp_frame; [done|]. intros s10 Hs10. rewrite Hs9, Hs8, Hs7 in Hs10.
      apply may_bind, may_getp. intros q _.
      apply may_bind, may_acquire. intros s11 Hl Hs11. rewrite Hs10 in *.
      apply may_bind, (may_updp n _ (g_set_state RUNNABLE)); [done|]. intros s12 Hs12. rewrite Hs11 in Hs12.
      apply may_bind, may_release. intros s13 cs'' Hpop Hs13. rewrite Hs12 in *. cbn in Hpop.
      destruct (push_pop c cs' cs'' Hc1 Hpop) as [Hc3 Hc4]. apply may_ret. rewrite Hs13. unfold k6. cored.
      rewrite (alter_eq _ n (mksig EMBRYO (co_next (core_of s)) (Some me) ks (g_chan g))) by (by eapply insert_look).
      rewrite list_insert_insert_eq. cored. apply (wf_fork (core_of s) n g c me); try done. by rewrite Hc4.
Qed.

(** ** Giving up the CPU *)

Lemma may_sched {A} c (Q : A -> kst -> Prop) R s : R s -> may (sched c) Q R s.
Proof.
  intros HR. unfold sched. apply may_bind, may_get, may_bind, may_myproc. intros me _.
  apply may_bind, may_getp. intros p _. destruct (cpus s !! c) as [pc|]; [|done].
  destruct (negb (plock s)); [done|]. destruct (negb _); [done|]. destruct (is_state _ _); [done|]. by destruct (iflag _).
Qed.

(** The state in which [sched] leaves the lock to the scheduler of CPU [c]. *)
Definition handed (c : nat) s : Prop :=
  nested 1 c (co_cpus (core_of s)) /\
  forall cs, ncli0 cs -> pc_proc <$> cs = <[c := None]> (running (core_of s)) ->
    wf (co_set_lock false (co_set_cpus cs (core_of s))).

Definition switch_out (c : nat) : M kst unit := undispatch c ;;; release c.
Lemma switch_out_wf c s : handed c s ->
  may (switch_out c) (fun _ s' => wf (core_of s')) (fun _ => True) s.
Proof.
  intros [Hn Hwf]. unfold switch_out, undispatch. apply may_bind, may_bind, may_env; [|done]. intros [] s1 Hs1.
  unfold updc. apply may_modify. apply may_release. intros s2 cs' Hpop Hs2. rewrite Hs2.
  pose proof (f_equal co_cpus Hs1) as Ec. cbn in Ec.
  set (cs1 := alter (set_pc_proc None) c (cpus s1)) in *.
  assert (Hproc : pc_proc <$> cs1 = <[c := None]> (running (core_of s))).
  { unfold cs1, running. cbn. rewrite Ec. apply list_eq. intros j. rewrite list_lookup_fmap.
    destruct (decide (c = j)) as [<-|]; [rewrite list_lookup_alter_eq|by rewrite list_lookup_alter_ne, list_lookup_insert_ne, list_lookup_fmap by done].
    destruct (cpus s !! c) as [pc|] eqn:E0; cbn.
    - rewrite list_lookup_insert_eq; [done|]. rewrite length_fmap. by eapply lookup_lt_Some.
    - rewrite lookup_ge_None_2; [done|]. rewrite length_insert, length_fmap. by apply lookup_ge_None. }
  assert (Hnest : nested 1 c cs1).
  { intros j pc Hj. unfold cs1 in Hj. rewrite Ec in Hj. destruct (decide (c = j)) as [<-|].
    - rewrite list_lookup_alter_eq in Hj. destruct (cpus s !! c) as [pc0|] eqn:E0; [|done]. injection Hj as <-. exact (Hn c pc0 E0).
    - rewrite list_lookup_alter_ne in Hj by done. by apply (Hn j). }
  replace (co_set_lock false (co_set_cpus cs' (core_of (set_cpus cs1 s1)))) with (co_set_lock false (co_set_cpus cs' (core_of s))).
  - apply Hwf; [by apply (nested_0 c), (nested_pop 1 c cs1)|]. destruct Hpop as [-> _]. done.
  - unfold co_set_lock, co_set_cpus. pose proof (f_equal co_l Hs1). pose proof (f_equal co_next Hs1). pose proof (f_equal co_ini Hs1).
    cbn in *. congruence.
Qed.

(** A process of a well-formed state that stops, with the lock held. *)
Lemma handed_stop c me g st ch k s cs : wf k -> running k !! c = Some (Some me) -> co_l k !! me = Some g ->
  st = SLEEPING \/ st = RUNNABLE -> nested 1 c cs -> pc_proc <$> cs = running k ->
  core_of s = mkcore (<[me := mksig st (g_pid g) (g_parent g) (g_kstack g) ch]> (co_l k)) (co_next k) (co_ini k) true cs ->
  handed c s.
Proof.
  intros Hwf Hc Hme Hst Hn Hp Hs. split; rewrite Hs; [done|]. intros cs' Hcs' Hp'. cored.
  unfold running in Hp'. cbn [co_cpus] in Hp'. rewrite Hp in Hp'. by apply (wf_stop k c me g).
Qed.

(** The running process of CPU [c], seen from a state reached from [k]. *)
Lemma running_entry k c me : wf k -> running k !! c = Some (Some me) ->
  exists g, co_l k !! me = Some g /\ g_state g = RUNNING.
Proof. intros Hwf Hc. by apply (w_cpu_run _ Hwf c). Qed.

Lemma yield_wf c s : wf (core_of s) -> may (yield c) (fun _ _ => False) (handed c) s.
Proof.
  intros Hwf. unfold yield. apply may_bind, may_myproc. intros me Hme. destruct (running_entry _ _ _ Hwf Hme) as (g & Hg & Hr).
  apply may_bind, may_getp. intros p _. apply may_bind, may_get.
  assert (Hrest : forall s1, core_of s1 = core_of s ->
    may (acquire c ;;; updp me (set_p_state RUNNABLE) ;;; sched c) (fun (_ : unit) _ => False) (handed c) s1).
  { intros s1 Hs1. apply may_bind, may_acquire. intros s2 _ Hs2. rewrite Hs1 in Hs2.
    apply may_bind, (may_updp me _ (g_set_state RUNNABLE)); [done|]. intros s3 Hs3. rewrite Hs2 in Hs3. alters Hs3 Hg.
    apply may_sched. eapply (handed_stop c me g RUNNABLE _ (core_of s)); [done..|by right| | |exact Hs3].
    - apply (nested_push 0). by apply nested_0, wf_ncli0, Hwf.
    - apply push_proc. }
  apply may_bind. destruct (negb _); [apply may_modify|apply may_ret]; by apply Hrest.
Qed.

Lemma sleep_wf c chan u s : wf (core_of s) ->
  may (updc c (fun pc => set_pc_cpu (pushcli (pc_cpu pc)) pc) ;;; sleep c chan (OtherLock u)) (fun _ _ => False)
    (fun s' => co_lock (core_of s') = true -> nested 1 c (co_cpus (core_of s')) -> handed c s') s.
Proof.
  intros Hwf. unfold updc. apply may_bind, may_modify. unfold sleep. apply may_bind, may_get. cbn [cpus set_cpus].
  set (s1 := set_cpus _ s). assert (Hs1 : core_of s1 = co_set_cpus (push_cpu c (co_cpus (core_of s))) (core_of s)) by done.
  destruct (_ ≫= pc_proc) as [me|] eqn:Eme; [|done].
  assert (Hme : running (core_of s) !! c = Some (Some me)).
  { rewrite list_lookup_alter_eq in Eme. unfold running. cbn. rewrite list_lookup_fmap. destruct (cpus s !! c); [|done].
    cbn in *. by rewrite Eme. }
  destruct (running_entry _ _ _ Hwf Hme) as (g & Hg & Hr).
  apply may_bind, may_bind, may_acquire. intros s2 _ Hs2. rewrite Hs1 in Hs2.
  assert (H2 : nested 2 c (co_cpus (core_of s2))).
  { rewrite Hs2. cored. apply (nested_push 1), (nested_push 0), nested_0, wf_ncli0, Hwf. }
  apply may_bind, may_env.
  2: { intros s' Hs' _ Hn. exfalso. rewrite Hs' in Hn. assert (Hc : exists pc, co_cpus (core_of s2) !! c = Some pc).
       { rewrite Hs2. cored. unfold push_cpu. rewrite !list_lookup_alter_eq. unfold running in Hme. rewrite list_lookup_fmap in Hme.
         destruct (co_cpus (core_of s) !! c); [|done]. by eexists. }
       destruct Hc as (pc & Hpc). specialize (H2 c pc Hpc). specialize (Hn c pc Hpc). rewrite !decide_True in * by done. lia. }
  intros [] s3 Hs3. apply may_popcli. intros s4 cs4 Hpop Hs4. rewrite Hs3 in *.
  apply may_bind, (may_updp me _ (g_set_chan chan)); [done|]. intros s5 Hs5. rewrite Hs4 in Hs5.
  apply may_bind, (may_updp me _ (g_set_state SLEEPING)); [done|]. intros s6 Hs6. rewrite Hs5, Hs2 in Hs6. alters Hs6 Hg.
  apply may_sched. intros _ _. eapply (handed_stop c me g SLEEPING chan (core_of s)); [done..|by left| | |exact Hs6].
  - by apply (nested_pop 2 c (co_cpus (core_of s2))).
  - destruct Hpop as [-> _]. rewrite Hs2. cored. by rewrite !push_proc.
Qed.

(** ** Waking, killing, waiting *)

Definition g_wake (chan : Z) (g : sig) : sig :=
  if bool_decide (g_state g = SLEEPING) && (g_chan g =? chan) then g_set_state RUNNABLE g else g.
Lemma g_wake_woken chan g : woken g (g_wake chan g).
Proof. unfold g_wake. case_bool_decide; [|by left]. cbn. destruct (_ =? _); [by right|by left]. Qed.
Lemma g_wake_all chan l : Forall2 woken l (g_wake chan <$> l).
Proof. induction l; constructor; auto using g_wake_woken. Qed.
Lemma may_wakeup1 chan (Q : unit -> kst -> Prop) R s :
  (forall s', core_of s' = co_set_l (g_wake chan <$> co_l (core_of s)) (core_of s) -> Q tt s') -> may (wakeup1 chan) Q R s.
Proof.
  intros HQ. apply may_modify, HQ. unfold core_of, co_set_l. cbn. f_equal.
  rewrite <-list_fmap_compose. change (map (wake_proc chan) (procs s)) with (wake_proc chan <$> procs s).
  rewrite <-list_fmap_compose. apply list_fmap_ext. intros i p _. unfold compose, wake_proc, g_wake, is_state. cbn.
  by destruct (_ && _).
Qed.

Lemma wf_cpus k cs : wf k -> ncli0 cs -> pc_proc <$> cs = running k -> wf (co_set_lock false (co_set_cpus cs k)).
Proof. intros [] Hc Hp. split; cbn; unfold running; cbn; rewrite ?Hp; try done. Qed.

Lemma wakeup_wf c chan s : wf (core_of s) -> may (wakeup c chan) (fun _ s' => wf (core_of s')) (fun _ => True) s.
Proof.
  intros Hwf. unfold wakeup. apply may_bind, may_acquire. intros s1 _ Hs1.
  apply may_bind, may_wakeup1. intros s2 Hs2. apply may_release. intros s3 cs Hpop Hs3. rewrite Hs3, Hs2, Hs1 in *.
  destruct (push_pop _ _ _ (wf_ncli0 _ Hwf) Hpop). apply (wf_cpus (co_set_l (g_wake chan <$> co_l (core_of s)) (core_of s)) cs); [|done..].
  by apply wf_woken, g_wake_all.
Qed.

Lemma kill_wf c pid s : wf (core_of s) -> may (kill c pid) (fun _ s' => wf (core_of s')) (fun _ => True) s.
Proof.
  intros Hwf. unfold kill. apply may_bind, may_acquire. intros s1 _ Hs1. apply may_bind, may_get.
  destruct (find_proc _ _) as [i|].
  - apply may_bind, may_updp_frame; [done|]. intros s2 Hs2.
    set (g1 := fun g => if bool_decide (g_state g = SLEEPING) then g_set_state RUNNABLE g else g).
    apply may_bind, (may_updp i _ g1). { intros p. unfold g1, is_state. cbn. by case_bool_decide. }
    intros s3 Hs3. apply may_bind, may_release. intros s4 cs Hpop Hs4. apply may_ret. rewrite Hs4, Hs3, Hs2, Hs1 in *.
    destruct (push_pop _ _ _ (wf_ncli0 _ Hwf) Hpop).
    apply (wf_cpus (co_set_l (alter g1 i (co_l (core_of s))) (core_of s))); [|done..]. apply wf_woken; [done|].
    apply Forall2_same_length_lookup_2; [by rewrite length_alter|]. intros j g g' Hj Hj'. cbn in *.
    destruct (decide (i = j)) as [<-|].
    + rewrite list_lookup_alter_eq in Hj'. rewrite Hj in Hj'. injection Hj' as <-. unfold g1. case_bool_decide; [by right|by left].
    + rewrite list_lookup_alter_ne in Hj' by done. left. congruence.
  - apply may_bind, may_release. intros s2 cs Hpop Hs2. apply may_ret. rewrite Hs2, Hs1 in *.
    destruct (push_pop _ _ _ (wf_ncli0 _ Hwf) Hpop). by apply (wf_cpus (core_of s) cs).
Qed.

Lemma may_reap i k g (Q : Z -> kst -> Prop) R s :
  core_of s = k -> co_l k !! i = Some g ->
  (forall s', core_of s' = co_set_l (<[i := mksig UNUSED 0 None 0 (g_chan g)]> (co_l k)) k -> Q (g_pid g) s') ->
  may (reap i) Q R s.
Proof.
  intros Hk Hi HQ. unfold reap. apply may_bind, may_getp. intros p Hp. rewrite Hk in Hp.
  assert (Hpid : p_pid p = g_pid g) by (by rewrite (Hp g Hi)). rewrite Hpid.
  apply may_bind, may_env_awake; [apply s_kfree_awake|]. intros [] s1 Hs1.
  apply may_bind, (may_updp i _ (g_set_kstack 0)); [done|]. intros s2 Hs2.
  apply may_bind, may_env_awake; [apply s_freevm_awake|]. intros [] s3 Hs3.
  apply may_bind, (may_updp i _ (g_set_state UNUSED)); [done|]. intros s4 Hs4.
  apply may_bind, (may_updp i _ (g_set_pid 0)); [done|]. intros s5 Hs5.
  apply may_bind, (may_updp i _ (g_set_parent None)); [done|]. intros s6 Hs6.
  apply may_bind, may_updp_frame; [done|]. intros s7 Hs7.
  apply may_bind, may_updp_frame; [done|]. intros s8 Hs8. apply may_ret, HQ.
  rewrite Hs8, Hs7, Hs6, Hs5, Hs4, Hs3, Hs2, Hs1, Hk. cored. by rewrite !list_alter_alter_eq, (alter_eq _ _ _ _ Hi).
Qed.

Lemma may_wait_scan me l hk k (Q : bool + Z -> kst -> Prop) R s :
  core_of s = k -> Forall (fun i => i < length (co_l k))%nat l ->
  (forall b, Q (inl b) s) ->
  (forall i g s', i ∈ l -> co_l k !! i = Some g -> g_state g = ZOMBIE -> g_parent g = Some me ->
    core_of s' = co_set_l (<[i := mksig UNUSED 0 None 0 (g_chan g)]> (co_l k)) k -> Q (inr (g_pid g)) s') ->
  may (wait_scan me l hk) Q R s.
Proof.
  intros Hk Hl H1 H2. revert hk. induction Hl as [|i l Hi Hl IH]; intros hk; [by apply may_ret|].
  cbn [wait_scan]. apply may_bind, may_getp. intros p Hp. rewrite Hk in Hp.
  apply lookup_lt_is_Some_2 in Hi as [g Hg]. pose proof (Hp g Hg) as ->.
  case_bool_decide as Hpar; cbn [negb]; [|apply IH; intros; eapply H2; try done; by right].
  unfold is_state. case_bool_decide as Hz; [|apply IH; intros; eapply H2; try done; by right].
  apply may_bind, (may_reap i k (sig_of p)); [done..|]. intros s' Hs'. apply may_ret.
  by apply (H2 i (sig_of p)); [left| | | |].
Qed.

Lemma wait_wf c s : wf (core_of s) ->
  may (wait proc_chan c) (fun _ s' => wf (core_of s')) (handed c) s.
Proof.
  intros Hwf. unfold wait. apply may_bind, may_myproc. intros me Hme. destruct (running_entry _ _ _ Hwf Hme) as (g & Hg & Hr).
  apply may_bind, may_acquire. intros s1 _ Hs1. apply may_bind, (may_wait_scan me _ _ _ _ _ _ Hs1).
  - apply Forall_forall. intros i Hi%elem_of_seq. cored. rewrite (w_len _ Hwf). lia.
  - intros hk. apply may_bind, may_getp. intros p _. destruct (negb hk || _).
    + apply may_bind, may_release. intros s2 cs Hpop Hs2. apply may_ret. rewrite Hs2, Hs1 in *.
      destruct (push_pop _ _ _ (wf_ncli0 _ Hwf) Hpop). by apply (wf_cpus (core_of s) cs).
    + apply may_bind. unfold sleep. apply may_bind, may_get.
      destruct (cpus s1 !! c ≫= pc_proc) as [me'|] eqn:Eme; [|done].
      assert (me' = me) as ->.
      { pose proof (f_equal running Hs1) as Er. unfold running in *. cbn in Er. rewrite push_proc in Er. cbn in Hme.
        rewrite <-Er, list_lookup_fmap in Hme. destruct (cpus s1 !! c); [|done]. cbn in *. congruence. }
      apply may_bind, may_ret.
      apply may_bind, (may_updp me _ (g_set_chan (proc_chan me))); [done|]. intros s2 Hs2.
      apply may_bind, (may_updp me _ (g_set_state SLEEPING)); [done|]. intros s3 Hs3. rewrite Hs2, Hs1 in Hs3. alters Hs3 Hg.
      apply may_sched. eapply (handed_stop c me g SLEEPING _ (core_of s)); [done..|by left| | |exact Hs3].
      * apply (nested_push 0), nested_0, wf_ncli0, Hwf.
      * apply push_proc.
  - intros i h s2 _ Hi Hz Hpar Hs2. apply may_bind, may_release. intros s3 cs Hpop Hs3. apply may_ret. rewrite Hs3, Hs2 in *.
    destruct (push_pop _ _ _ (wf_ncli0 _ Hwf) Hpop). apply (wf_free (core_of s) i h); try done. by right.
Qed.

(** ** exit *)

Lemma woken_wake chan g g1 : woken g g1 -> woken g (g_wake chan g1).
Proof.
  intros [->|[Hs ->]]; [apply g_wake_woken|]. unfold g_wake. cbn. right. done.
Qed.
(** The table when the loop over the children has reached entry [i]. *)
Definition reparented (me : nat) (ini : option nat) (i : nat) (l : list sig) : list sig :=
  imap (fun j g => if decide (j < i)%nat then reparent me ini g else g) l.
Lemma reparented_0 me ini l : reparented me ini 0 l = l.
Proof. unfold reparented. apply list_eq. intros j. rewrite list_lookup_imap. by destruct (l !! j). Qed.
Lemma reparented_all me ini l : reparented me ini (length l) l = reparent me ini <$> l.
Proof.
  apply list_eq. intros j. unfold reparented. rewrite list_lookup_imap, list_lookup_fmap. destruct (l !! j) eqn:Hj; [|done].
  cbn. by rewrite decide_True by (by eapply lookup_lt_Some).
Qed.
Lemma reparented_at me ini i l g : l !! i = Some g -> reparented me ini i l !! i = Some g.
Proof. intros Hi. unfold reparented. rewrite list_lookup_imap, Hi. cbn. by rewrite decide_False by lia. Qed.
Lemma reparented_step me ini i l :
  alter (reparent me ini) i (reparented me ini i l) = reparented me ini (S i) l.
Proof.
  apply list_eq. intros j. unfold reparented. rewrite list_lookup_imap. destruct (decide (i = j)) as [<-|].
  - rewrite list_lookup_alter_eq, list_lookup_imap. destruct (l !! i); [|done]. cbn.
    by rewrite decide_False, decide_True by lia.
  - rewrite list_lookup_alter_ne, list_lookup_imap by done. destruct (l !! j); [|done]. cbn.
    f_equal. destruct (decide (j < i)%nat); [rewrite decide_True by lia|rewrite decide_False by lia]; done.
Qed.
Lemma reparent_wake me ini chan g : g_wake chan (reparent me ini g) = reparent me ini (g_wake chan g).
Proof. unfold g_wake, reparent. repeat (case_bool_decide || destruct (_ =? _); cbn in *; try done). Qed.
Lemma reparented_wake me ini i chan l :
  g_wake chan <$> reparented me ini i l = reparented me ini i (g_wake chan <$> l).
Proof.
  apply list_eq. intros j. unfold reparented. rewrite list_lookup_fmap, !list_lookup_imap, list_lookup_fmap.
  destruct (l !! j); [|done]. cbn. f_equal. case_decide; [apply reparent_wake|done].
Qed.

Lemma may_abandon me i k l1 (R : kst -> Prop) s :
  core_of s = co_set_l (reparented me (co_ini k) i l1) k -> Forall2 woken (co_l k) l1 -> (i < length (co_l k))%nat ->
  may (abandon proc_chan me i) (fun _ s' => exists l2, core_of s' = co_set_l (reparented me (co_ini k) (S i) l2) k /\
    Forall2 woken (co_l k) l2) R s.
Proof.
  intros Hs Hw Hi. pose proof (Forall2_length _ _ _ Hw) as Hlen.
  destruct (lookup_lt_is_Some_2 l1 i) as [g Hg]; [lia|]. pose proof (reparented_at me (co_ini k) i l1 g Hg) as Hg'.
  unfold abandon. apply may_bind, may_getp. intros p Hp. rewrite Hs in Hp. specialize (Hp g Hg'). subst g.
  pose proof (reparented_step me (co_ini k) i l1) as Hstep. rewrite (alter_eq _ _ _ _ Hg') in Hstep.
  unfold reparent in Hstep. cbn [g_parent sig_of] in Hstep. case_bool_decide as Hpar.
  - apply may_bind, may_gets. assert (Hini : initproc s = co_ini k) by (by apply (f_equal co_ini) in Hs).
    apply may_bind, (may_updp i _ (g_set_parent (initproc s))); [done|]. intros s1 Hs1. rewrite Hs, Hini in Hs1. cbn in Hs1.
    rewrite (alter_eq _ _ _ _ Hg'), Hstep in Hs1.
    destruct (is_state ZOMBIE p).
    + apply may_wakeup1. intros s2 Hs2. exists (g_wake (chan_of proc_chan (initproc s)) <$> l1). split.
      * rewrite Hs2, Hs1. cored. by rewrite reparented_wake.
      * clear -Hw. revert Hw. generalize (co_l k). intros l Hl. induction Hl; constructor; auto using woken_wake.
    + apply may_ret. exists l1. split; [by rewrite Hs1|done].
  - apply may_ret. exists l1. split; [|done]. rewrite Hs, <-Hstep. by rewrite list_insert_id.
Qed.

Lemma exit_wf c s : wf (core_of s) ->
  may (exit proc_chan c) (fun _ _ => False) (fun s' => co_lock (core_of s') = true -> handed c s') s.
Proof.
  intros Hwf. set (k := core_of s) in *. assert (Hk : core_of s = k) by done. clearbody k.
  assert (Hlk : forall s', core_of s' = k -> co_lock (core_of s') = true -> handed c s').
  { intros s' -> H. by rewrite (w_lock _ Hwf) in H. }
  unfold exit. apply may_bind, may_myproc. intros me Hme. rewrite Hk in Hme.
  destruct (running_entry _ _ _ Hwf Hme) as (g & Hg & Hr).
  apply may_bind, may_gets. assert (Hini : initproc s = co_ini k) by (by apply (f_equal co_ini) in Hk).
  rewrite Hini. case_bool_decide as Hne; [done|]. clear Hini.
  apply may_bind. eapply may_mono; [apply (may_for_each _ (fun s' => core_of s' = k)
    (fun s' => co_lock (core_of s') = true -> handed c s')); [|done]| |done].
  { intros fd s1 _ Hs1. unfold close_file. apply may_bind, may_getp. intros p _. destruct (p_ofile p !! fd) as [[f|]|]; try done.
    apply may_bind, may_env; [|intros s2 Hs2; apply Hlk; congruence]. intros [] s2 Hs2.
    apply may_updp_frame; [done|]. intros s3 Hs3. congruence. }
  intros [] s1 Hs1. apply may_bind, may_env; [|intros s2 Hs2; apply Hlk; congruence]. intros [] s2 Hs2.
  apply may_bind, may_getp. intros p _. apply may_bind. destruct (p_cwd p) as [ip|]; [|done].
  apply may_env; [|intros s3 Hs3; apply Hlk; congruence]. intros [] s3 Hs3.
  apply may_bind, may_env; [|intros s4 Hs4; apply Hlk; congruence]. intros [] s4 Hs4.
  apply may_bind, may_updp_frame; [done|]. intros s5 Hs5.
  assert (E5 : core_of s5 = k) by congruence. clear Hs1 Hs2 Hs3 Hs4 Hs5.
  apply may_bind, may_acquire. intros s6 _ Hs6. rewrite E5 in Hs6.
  set (k6 := co_set_lock true _) in Hs6. apply may_bind, may_getp. intros q _.
  apply may_bind, may_wakeup1. intros s7 Hs7. rewrite Hs6 in Hs7.
  apply may_bind. eapply may_mono; [apply (may_for_seq _ (fun i s' => exists l1,
    core_of s' = co_set_l (reparented me (co_ini k6) i l1) k6 /\ Forall2 woken (co_l k6) l1))| |done].
  { intros i s8 Hi (l1 & Hs8 & Hw). apply (may_abandon me i k6 l1); [done..|]. cbn. rewrite (w_len _ Hwf). done. }
  { exists (g_wake (chan_of proc_chan (p_parent q)) <$> co_l k6). rewrite reparented_0. split; [done|apply g_wake_all]. }
  intros [] s8 (l1 & Hs8 & Hw). pose proof (Forall2_length _ _ _ Hw) as Hlen. cbn in Hlen. rewrite (w_len _ Hwf) in Hlen.
  rewrite Hlen, reparented_all in Hs8.
  destruct (Forall2_lookup_l _ _ _ _ _ Hw Hg) as (g1 & Hg1 & _).
  apply may_bind, (may_updp me _ (g_set_state ZOMBIE)); [done|]. intros s9 Hs9. rewrite Hs8 in Hs9.
  apply may_bind, may_sched. intros _. split; rewrite Hs9; cored.
  - apply (nested_push 0), nested_0, wf_ncli0, Hwf.
  - intros cs Hcs Hp. unfold running in Hp. cbn [co_cpus] in Hp. change (co_cpus k6) with (push_cpu c (co_cpus k)) in Hp. rewrite push_proc in Hp.
    rewrite (alter_eq _ me (reparent me (co_ini k) g1)) by (by rewrite list_lookup_fmap, Hg1).
    apply (wf_zombie (co_set_l l1 k) c me g1); try done. by apply wf_woken.
Qed.

(** ** Running *)

(** The scheduler of CPU [c] switches to process [i], which goes on where it
    had stopped: inside [sleep], at its start, or inside [yield]. *)
Definition resume_sleep (c i : nat) : M kst unit := acquire c ;;; dispatch c i ;;; sleep_resume c (OtherLock (ret tt)).
Definition resume_new (c i : nat) : M kst unit := acquire c ;;; dispatch c i ;;; forkret c.
Definition resume_yield (c i : nat) : M kst unit := acquire c ;;; dispatch c i ;;; release c.

Lemma fmap_alter_proc (c : nat) (o : option nat) (cs : list pcpu) j : cs !! c = Some j ->
  pc_proc <$> alter (set_pc_proc o) c cs = <[c := o]> (pc_proc <$> cs).
Proof.
  intros Hc. apply list_eq. intros i. rewrite list_lookup_fmap. destruct (decide (c = i)) as [<-|].
  - rewrite list_lookup_alter_eq, Hc, list_lookup_insert_eq; [done|]. rewrite length_fmap. by eapply lookup_lt_Some.
  - by rewrite list_lookup_alter_ne, list_lookup_insert_ne, list_lookup_fmap by done.
Qed.

(** The state after the switch, with the lock held. *)
Definition switched (c i : nat) (g : sig) k s : Prop :=
  exists cs, nested 1 c cs /\ pc_proc <$> cs = <[c := Some i]> (running k) /\
    core_of s = mkcore (<[i := mksig RUNNING (g_pid g) (g_parent g) (g_kstack g) (g_chan g)]> (co_l k))
      (co_next k) (co_ini k) true cs.

Lemma may_switch c i g (Q : unit -> kst -> Prop) R s :
  wf (core_of s) -> running (core_of s) !! c = Some None -> co_l (core_of s) !! i = Some g ->
  (forall s', switched c i g (core_of s) s' -> Q tt s') -> may (acquire c ;;; dispatch c i) Q R s.
Proof.
  intros Hwf Hc Hi HQ. apply may_bind, may_acquire. intros s1 _ Hs1. unfold dispatch, updc. apply may_bind, may_modify.
  apply may_bind, may_getp. intros p _. apply may_bind, may_env_awake; [apply s_switchuvm_awake|]. intros [] s2 Hs2.
  apply (may_updp i _ (g_set_state RUNNING)); [done|]. intros s3 Hs3. apply HQ. rewrite Hs2 in Hs3.
  pose proof (f_equal co_l Hs1) as El. pose proof (f_equal co_next Hs1) as En. pose proof (f_equal co_ini Hs1) as Ei.
  pose proof (f_equal co_cpus Hs1) as Ec. pose proof (f_equal co_lock Hs1) as Ek. cbn in El, En, Ei, Ec, Ek.
  exists (alter (set_pc_proc (Some i)) c (cpus s1)). rewrite Ec. unfold running in *. rewrite list_lookup_fmap in Hc.
  destruct (co_cpus (core_of s) !! c) as [pc|] eqn:Hpc; [|done]. split_and!.
  - intros j pc' Hj. destruct (decide (c = j)) as [<-|].
    + rewrite list_lookup_alter_eq in Hj. unfold push_cpu in Hj. rewrite list_lookup_alter_eq in Hj. cbn in Hpc.
      rewrite Hpc in Hj. injection Hj as <-. cbn. rewrite (w_ncli _ Hwf c pc Hpc). by rewrite decide_True.
    + rewrite list_lookup_alter_ne in Hj by done.
      pose proof (nested_push 0 c (cpus s) (proj2 (nested_0 c _) (wf_ncli0 _ Hwf)) j pc' Hj) as H. done.
  - erewrite fmap_alter_proc; [by rewrite push_proc|].
    unfold push_cpu. rewrite list_lookup_alter_eq. cbn in Hpc. by rewrite Hpc.
  - rewrite Hs3. cored. cbn. rewrite El, En, Ei, Ek, Ec. f_equal. by rewrite (alter_eq _ _ _ _ Hi).
Qed.

Lemma switched_release c i g ch k s (Q : unit -> kst -> Prop) R cs :
  wf k -> running k !! c = Some None -> co_l k !! i = Some g -> g_state g = RUNNABLE ->
  nested 1 c cs -> pc_proc <$> cs = <[c := Some i]> (running k) ->
  core_of s = mkcore (<[i := mksig RUNNING (g_pid g) (g_parent g) (g_kstack g) ch]> (co_l k)) (co_next k) (co_ini k) true cs ->
  (forall s', wf (core_of s') -> Q tt s') -> may (release c) Q R s.
Proof.
  intros Hwf Hc Hi Hr Hn Hp Hs HQ. apply may_release. intros s' cs' Hpop Hs'. rewrite Hs in *. cbn in Hpop. apply HQ. rewrite Hs'. cored.
  apply (wf_run k c i g); try done.
  - by apply (nested_0 c), (nested_pop 1 c cs).
  - by destruct Hpop as [-> _].
Qed.

Lemma resume_wf c i s m : wf (core_of s) -> running (core_of s) !! c = Some None ->
  (exists g, co_l (core_of s) !! i = Some g /\ g_state g = RUNNABLE) ->
  m = resume_sleep c i \/ m = resume_new c i \/ m = resume_yield c i ->
  may m (fun _ s' => wf (core_of s')) (fun _ => True) s.
Proof.
  intros Hwf Hc (g & Hi & Hr) Hm.
  assert (Hgo : forall tail : M kst unit,
    (forall s', switched c i g (core_of s) s' -> may tail (fun _ s' => wf (core_of s')) (fun _ => True) s') ->
    may (acquire c ;;; dispatch c i ;;; tail) (fun _ s' => wf (core_of s')) (fun _ => True) s).
  { intros tail Ht. pose proof (may_switch c i g (fun _ s' => may tail (fun _ s' => wf (core_of s')) (fun _ => True) s')
      (fun _ => True) s Hwf Hc Hi Ht) as H. unfold may, bind in *.
    destruct (acquire c s) as [[] s1| | |]; try done. by destruct (dispatch c i s1) as [[] s2| | |]. }
  destruct Hm as [->|[->| ->]]; apply Hgo; intros s1 (cs & Hn & Hp & Hs1).
  - unfold sleep_resume. apply may_bind, may_myproc. intros me Hme. rewrite Hs1 in Hme. unfold running in Hme. cbn [co_cpus] in Hme.
    rewrite Hp in Hme. assert (me = i) as ->.
    { rewrite list_lookup_insert_eq in Hme; [congruence|by eapply lookup_lt_Some]. }
    apply may_bind, (may_updp i _ (g_set_chan 0)); [done|]. intros s2 Hs2. rewrite Hs1 in Hs2.
    eapply (switched_release c i g 0 (core_of s)); try done. rewrite Hs2. cored.
    rewrite (alter_eq _ i (mksig RUNNING (g_pid g) (g_parent g) (g_kstack g) (g_chan g))) by (by eapply insert_look).
    by rewrite list_insert_insert_eq.
  - unfold forkret. apply may_bind. eapply (switched_release c i g (g_chan g) (core_of s)); try done. intros s2 Hs2.
    apply may_bind, may_gets. destruct (first s2); [|by apply may_ret].
    apply may_bind, may_modify. apply may_bind, may_env; [|done]. intros [] s3 Hs3. apply may_env; [|done].
    intros [] s4 Hs4. by rewrite Hs4, Hs3.
  - by eapply (switched_release c i g (g_chan g) (core_of s)).
Qed.

Lemma grow_wf c n s : wf (core_of s) -> may (growproc c n) (fun _ s' => wf (core_of s')) (fun _ => True) s.
Proof.
  intros Hwf. unfold growproc. apply may_bind, may_myproc. intros me _. apply may_bind, may_getp. intros p _.
  assert (Hrest : forall sz s1, core_of s1 = core_of s ->
    may (if negb (n =? 0) && (sz =? 0) then ret (-1) else
      updp me (set_p_sz sz) ;;; on_env (s_switchuvm (p_pgdir p) (p_kstack p)) ;;; ret 0)
      (fun _ s' => wf (core_of s')) (fun _ => True) s1).
  { intros sz s1 Hs1. destruct (_ && _); [apply may_ret; by rewrite Hs1|].
    apply may_bind, may_updp_frame; [done|]. intros s2 Hs2. apply may_bind, may_env; [|done]. intros [] s3 Hs3.
    apply may_ret. by rewrite Hs3, Hs2, Hs1. }
  apply may_bind. destruct (0 <? n); [|destruct (n <? 0)]; [apply may_env; auto..|by apply may_ret, Hrest].
Qed.

(** ** The kernel *)

(** One step: a routine of [proc.c] run by the process of CPU [c], a switch by
    the scheduler of CPU [c], or a change of the other components.  [fork] is
    assumed to run fewer than [2 ^ 31] times. *)
Inductive kstep : kst -> kst -> Prop :=
| k_fork c r s s' : nextpid s < 2 ^ 31 - 1 -> fork forkret_at trapret_at c s = Ok r s' -> kstep s s'
| k_exit c ch s s1 s' : exit proc_chan c s = Sleep ch s1 -> switch_out c s1 = Ok tt s' -> kstep s s'
| k_wait c r s s' : wait proc_chan c s = Ok r s' -> kstep s s'
| k_wait_sleep c ch s s1 s' : wait proc_chan c s = Sleep ch s1 -> switch_out c s1 = Ok tt s' -> kstep s s'
| k_sleep c chan u ch s s1 s' :
    (updc c (fun pc => set_pc_cpu (pushcli (pc_cpu pc)) pc) ;;; sleep c chan (OtherLock u)) s = Sleep ch s1 ->
    nested 1 c (cpus s1) -> switch_out c s1 = Ok tt s' -> kstep s s'
| k_yield c ch s s1 s' : yield c s = Sleep ch s1 -> switch_out c s1 = Ok tt s' -> kstep s s'
| k_wakeup c chan s s' : wakeup c chan s = Ok tt s' -> kstep s s'
| k_kill c pid r s s' : kill c pid s = Ok r s' -> kstep s s'
| k_grow c n r s s' : growproc c n s = Ok r s' -> kstep s s'
| k_run c i m s s' : running (core_of s) !! c = Some None ->
    (exists p, procs s !! i = Some p /\ p_state p = RUNNABLE) ->
    m = resume_sleep c i \/ m = resume_new c i \/ m = resume_yield c i -> m s = Ok tt s' -> kstep s s'
| k_other e s : kstep s (set_env e s).

(** [switch_out] releases a lock that is held. *)
Lemma switch_out_locked c s s' : switch_out c s = Ok tt s' -> co_lock (core_of s) = true.
Proof.
  intros H. assert (Hm : may (switch_out c) (fun _ _ => co_lock (core_of s) = true) (fun _ => True) s).
  { unfold switch_out, undispatch. apply may_bind, may_bind, may_env; [|done]. intros [] s1 Hs1. unfold updc.
    apply may_modify. unfold release. apply may_bind, may_gets. cbn. apply (f_equal co_lock) in Hs1. cbn in *.
    destruct (plock s1); [|done]. cbn [negb]. apply may_bind, may_modify, may_popcli. congruence. }
  by apply (may_ok _ _ _ _ _ _ Hm H).
Qed.

Lemma kstep_wf s s' : kstep s s' -> wf (core_of s) -> wf (core_of s').
Proof.
  assert (Hout : forall c s1 s2, switch_out c s1 = Ok tt s2 -> handed c s1 -> wf (core_of s2)).
  { intros c s1 s2 H Hh. exact (may_ok _ _ _ _ _ _ (switch_out_wf c s1 Hh) H). }
  intros Hst Hwf. destruct Hst as [c r s s' Hn H|c ch s s1 s' H H'|c r s s' H|c ch s s1 s' H H'|c chan u ch s s1 s' H Hn H'|
    c ch s s1 s' H H'|c chan s s' H|c pid r s s' H|c n r s s' H|c i m s s' Hc (p & Hp & Hr) Hm H|e s].
  - exact (may_ok _ _ _ _ _ _ (fork_wf c s Hwf Hn) H).
  - pose proof (may_sleep _ _ _ _ _ _ (exit_wf c s Hwf) H) as Hh. eapply Hout; [done|]. by eapply Hh, switch_out_locked.
  - exact (may_ok _ _ _ _ _ _ (wait_wf c s Hwf) H).
  - eapply Hout; [done|]. exact (may_sleep _ _ _ _ _ _ (wait_wf c s Hwf) H).
  - pose proof (may_sleep _ _ _ _ _ _ (sleep_wf c chan u s Hwf) H) as Hh. eapply Hout; [done|].
    apply Hh; [by eapply switch_out_locked|done].
  - eapply Hout; [done|]. exact (may_sleep _ _ _ _ _ _ (yield_wf c s Hwf) H).
  - exact (may_ok _ _ _ _ _ _ (wakeup_wf c chan s Hwf) H).
  - exact (may_ok _ _ _ _ _ _ (kill_wf c pid s Hwf) H).
  - exact (may_ok _ _ _ _ _ _ (grow_wf c n s Hwf) H).
  - refine (may_ok _ _ _ _ _ _ (resume_wf c i s m Hwf Hc _ Hm) H).
    exists (sig_of p). cbn. by rewrite list_lookup_fmap, Hp.
  - done.
Qed.

(** ** Boot *)

(** The kernel before [userinit]: a zeroed table, idle CPUs. *)
Record booted s : Prop := {
  bt_procs : procs s = replicate nproc zero_proc;
  bt_lock : plock s = false;
  bt_next : nextpid s = 1;
  bt_cpus : Forall (fun pc => ncli (pc_cpu pc) = 0 /\ pc_proc pc = None) (cpus s)
}.

Lemma userinit_wf c s : booted s ->
  may (userinit forkret_at trapret_at c) (fun _ s' => wf (core_of s')) (fun _ => True) s.
Proof.
  intros [Hp Hl Hn Hc]. set (k := core_of s) in *.
  assert (Hk : co_l k = replicate nproc (sig_of zero_proc)) by (unfold k; cbn; by rewrite Hp, fmap_replicate).
  assert (Hz : forall i g, co_l k !! i = Some g -> g = sig_of zero_proc).
  { intros i g. rewrite Hk, lookup_replicate. by intros [-> _]. }
  assert (Hent : wf_free_entries k).
  { split; [done| |cbn; lia|intros i g Hi _; by rewrite (Hz i g Hi)].
    intros j pc Hj. by apply (proj1 (Forall_lookup _ _) Hc j pc). }
  assert (Hidle : forall j o, running k !! j = Some o -> o = None).
  { intros j o Hj. unfold running in Hj. rewrite list_lookup_fmap in Hj. destruct (co_cpus k !! j) as [pc|] eqn:Ej; [|done].
    injection Hj as <-. by apply (proj1 (Forall_lookup _ _) Hc j pc). }
  assert (Hn0 : co_next k = 1) by done. assert (Ek : core_of s = k) by done. clearbody k.
  unfold userinit. apply may_bind, (may_allocproc c k); [done|done|lia| | | |done].
  - intros s' cs' _ _ _. apply may_bind, may_modify. done.
  - intros n g s' cs' _ _ _ _ _. apply may_bind, may_modify. done.
  - intros n g ks s1 cs Hg Hu Hks Hcs Hrun Hs1. apply may_bind, may_modify.
    set (k1 := mkcore (co_l (core_of s1)) (co_next (core_of s1)) (Some n) (co_lock (core_of s1)) (co_cpus (core_of s1))).
    assert (Hk1 : core_of (set_initproc (Some n) s1) = k1) by done.
    apply may_bind, may_env; [|done]. intros d s2 Hs2. apply may_bind, may_updp_frame; [done|]. intros s3 Hs3.
    destruct (d =? 0); [done|].
    apply may_bind, may_env; [|done]. intros [] s4 Hs4. apply may_bind, may_updp_frame; [done|]. intros s5 Hs5.
    apply may_bind, may_updp_frame; [done|]. intros s6 Hs6. apply may_bind, may_updp_frame; [done|]. intros s7 Hs7.
    apply may_bind, may_env; [|done]. intros cwd s8 Hs8. apply may_bind, may_updp_frame; [done|]. intros s9 Hs9.
    apply (may_updp n _ (g_set_state RUNNABLE)); [done|]. intros s10 Hs10.
    rewrite Hs9, Hs8, Hs7, Hs6, Hs5, Hs4, Hs3, Hs2, Hk1 in Hs10. unfold k1 in Hs10. rewrite Hs1 in Hs10.
    assert (Hn1 : <[n := mksig EMBRYO (co_next k) None ks (g_chan g)]> (co_l k) !! n =
      Some (mksig EMBRYO (co_next k) None ks (g_chan g))) by (by eapply insert_look).
    alters Hs10 Hn1. rewrite list_insert_insert_eq in Hs10. rewrite Hs10.
    rewrite Hn0.
    assert (Hother : forall i h, <[n := mksig RUNNABLE 1 None ks (g_chan g)]> (co_l k) !! i = Some h ->
      (i = n /\ h = mksig RUNNABLE 1 None ks (g_chan g)) \/ (i <> n /\ h = sig_of zero_proc)).
    { intros i h Hi. apply list_lookup_insert_Some in Hi as [(<- & <- & _)|(? & Hi)]; [by left|right]. eauto. }
    split; cbn; unfold running in *; cbn [co_cpus]; rewrite ?Hrun; try done.
    + by rewrite length_insert, Hk, length_replicate.
    + intros i h [(-> & ->)|(? & ->)]%Hother; done.
    + intros i h [(-> & ->)|(? & ->)]%Hother; cbn; [lia|done].
    + intros i j h h' [(-> & ->)|(? & ->)]%Hother [(-> & ->)|(? & ->)]%Hother; done.
    + intros c' i Hi. by apply Hidle in Hi.
    + intros i h [(-> & ->)|(? & ->)]%Hother; done.
    + intros c1 c2 i Hi. by apply Hidle in Hi.
    + intros i h q [(-> & ->)|(? & ->)]%Hother; done.
    + intros i h [(-> & ->)|(? & ->)]%Hother; cbn; [congruence|done].
    + eexists n, _. split_and!; [done|by eapply insert_look|]. right. by left.
    + intros i h [(-> & ->)|(? & ->)]%Hother; done.
    + intros i h [(-> & ->)|(? & ->)]%Hother; done.
Qed.

(** C6. The process table stays consistent, whatever the CPUs do: from boot,
    after any sequence of fork, exit, wait, sleep, yield, wakeup, kill and
    scheduling steps, (1) processes have distinct pids, (2) a process is
    [RUNNING] exactly when it is the process of one CPU, never of two, (3) every
    process but the first has a parent that is alive and can still [wait] for
    it, and (4) exactly the free entries have no kernel stack. *)
Theorem ptable_invariant c s0 s1 s :
  booted s0 -> userinit forkret_at trapret_at c s0 = Ok tt s1 -> rtc kstep s1 s ->
  (forall i j p q, procs s !! i = Some p -> procs s !! j = Some q -> p_state p <> UNUSED -> p_state q <> UNUSED ->
    p_pid p = p_pid q -> i = j) /\
  (forall i p, procs s !! i = Some p -> p_state p = RUNNING <-> exists c, pc_proc <$> cpus s !! c = Some (Some i)) /\
  (forall c c' i, pc_proc <$> cpus s !! c = Some (Some i) -> pc_proc <$> cpus s !! c' = Some (Some i) -> c = c') /\
  (forall i p, procs s !! i = Some p -> p_state p <> UNUSED -> initproc s <> Some i ->
    exists n q, p_parent p = Some n /\ procs s !! n = Some q /\ alive (p_state q)) /\
  (forall i p, procs s !! i = Some p -> p_kstack p = 0 <-> p_state p = UNUSED).
Proof.
  intros Hb Hu Hr.
  assert (Hwf : wf (core_of s)).
  { revert s Hr. apply (rtc_ind_r (fun s => wf (core_of s))).
    - exact (may_ok _ _ _ _ _ _ (userinit_wf c s0 Hb) Hu).
    - intros s2 s3 _ Hst. by apply kstep_wf. }
  assert (Hl : forall i p, procs s !! i = Some p -> co_l (core_of s) !! i = Some (sig_of p)).
  { intros i p Hp. cbn. by rewrite list_lookup_fmap, Hp. }
  assert (Hcpu : forall c i, pc_proc <$> cpus s !! c = Some (Some i) <-> running (core_of s) !! c = Some (Some i)).
  { intros c' i. unfold running. cbn. by rewrite list_lookup_fmap. }
  split_and!.
  - intros i j p q Hp Hq ? ? ?. by apply (w_uniq _ Hwf i j (sig_of p) (sig_of q)); [apply Hl|apply Hl| | |].
  - intros i p Hp. split.
    + intros H. destruct (w_run_cpu _ Hwf i _ (Hl i p Hp) H) as (c' & Hc'). exists c'. by apply Hcpu.
    + intros (c' & Hc'%Hcpu). destruct (w_cpu_run _ Hwf c' i Hc') as (g & Hg & Hst). rewrite (Hl i p Hp) in Hg. injection Hg as <-. done.
  - intros c1 c2 i ?%Hcpu ?%Hcpu. by apply (w_one_cpu _ Hwf c1 c2 i).
  - intros i p Hp Hs Hi. destruct (w_orphan _ Hwf i _ (Hl i p Hp) Hs Hi) as (n & Hn).
    destruct (w_parent _ Hwf i _ n (Hl i p Hp) Hn) as (h & Hh & Ha). cbn in Hh. rewrite list_lookup_fmap in Hh.
    destruct (procs s !! n) as [q|] eqn:Hq; [|done]. injection Hh as <-. by exists n, q.
  - intros i p Hp. split.
    + intros Hk. destruct (decide (p_state p = UNUSED)); [done|]. by destruct (w_kstack _ Hwf i _ (Hl i p Hp)).
    + intros Hs. by apply (w_unused _ Hwf i _ (Hl i p Hp)).
Qed.
End routines.
