(* ===== verification/ProcSleep.v ===== *)
(** * sleep and wakeup: no wakeup is lost

    One process waits for a condition under a lock,
    [acquire(lk); while(!cond) sleep(chan, lk); release(lk)], on CPU 0, while
    CPU 1 runs [acquire(lk); cond = 1; wakeup(chan); release(lk)].  [sleep] and
    [wakeup] are cut at their lock operations into sections, which the two CPUs
    interleave in any way the locks allow; put together again, the sections are
    the routines of proc.c. *)

From stdpp Require Import relations.
From S2P Require Import Prelude Spinlock Proc ProcInv.

(** Sections one after the other. *)
Fixpoint seq_all {S} (l : list (M S unit)) : M S unit :=
  match l with
  | [] => ret tt
  | m :: l' => m ;;; seq_all l'
  end.

(** Where the sleeper is. *)
Inductive spc :=
  | SStart                 (* before acquire(lk) *)
  | STest                  (* holding lk, at the test of the loop *)
  | SIn (n : nat)          (* in sleep, before its section n *)
  | SGone                  (* switched out, ptable.lock left to the scheduler *)
  | SOff                   (* not running *)
  | SRelock                (* sleep goes on, before acquire(lk) *)
  | SDone.

Section sw.
Context {E : Type} `{!Services E}.
(** The lock [lk] and the condition it protects are fields of another
    component. *)
Context (lk cond : E -> bool) (set_lk set_cond : bool -> E -> E).
Hypothesis lk_lk : forall b e, lk (set_lk b e) = b.
Hypothesis lk_cond : forall b e, lk (set_cond b e) = lk e.
Hypothesis cond_cond : forall b e, cond (set_cond b e) = b.
Hypothesis cond_lk : forall b e, cond (set_lk b e) = cond e.
(** Switching address spaces returns and leaves them alone. *)
Definition quiet (m : M E unit) : Prop := forall e, wp m (fun _ e' => lk e' = lk e /\ cond e' = cond e) e.
Hypothesis switchuvm_quiet : forall d k, quiet (s_switchuvm d k).
Hypothesis switchkvm_quiet : quiet s_switchkvm.

(** The sleeping process and its channel. *)
Context (me : nat) (chan : Z).

(** ** The code *)

(** [acquire(lk)] and [release(lk)] on CPU [c]. *)
Definition lk_acquire (c : nat) : M kst unit :=
  updc c (fun pc => set_pc_cpu (pushcli (pc_cpu pc)) pc) ;;;
  on_env (e <-- get ;; if lk e then panic "acquire" else modify (set_lk true)).
Definition lk_unlock : M E unit := modify (set_lk false).
Definition lk_release (c : nat) : M kst unit := on_env lk_unlock ;;; popcli_on c.

(** [sleep(chan, lk)] on CPU 0 up to the switch, and [wakeup(chan)] on CPU 1. *)
Definition sleep_sections : list (M kst unit) :=
  [acquire 0; lk_release 0; updp me (set_p_chan chan) ;;; updp me (set_p_state SLEEPING) ;;; sched 0].
Definition wakeup_sections : list (M (kst (E := E)) unit) := [acquire 1; wakeup1 chan; release 1].
Definition waker_sections : list (M kst unit) :=
  [lk_acquire 1; on_env (modify (set_cond true))] ++ wakeup_sections ++ [lk_release 1].

Lemma sleep_sections_ok (k : kst (E := E)) : cpus k !! 0%nat ≫= pc_proc = Some me ->
  sleep 0 chan (OtherLock lk_unlock) k = seq_all sleep_sections k.
Proof.
  intros Hme. unfold sleep, sleep_sections, lk_release, seq_all, bind at 1, get. cbv beta. rewrite Hme.
  unfold bind. destruct (acquire 0 k) as [[] k1| | |]; [|done..]. destruct (on_env lk_unlock k1) as [[] k2| | |]; [|done..].
  destruct (popcli_on 0 k2) as [[] k3| | |]; [|done..]. unfold updp, modify. by destruct (sched (A := unit) 0 _) as [[]| | |].
Qed.
Lemma wakeup_sections_ok (k : kst (E := E)) : wakeup 1 chan k = seq_all wakeup_sections k.
Proof.
  unfold wakeup, wakeup_sections, seq_all, bind. destruct (acquire 1 k) as [[] k1| | |]; [|done..].
  unfold wakeup1, modify. by destruct (release 1 _) as [[]| | |].
Qed.

(** ** Interleavings *)

(** The kernel, the sleeper's counter, and the number of sections the waker has
    done. *)
Record sw := mksw { w_k : kst (E := E); w_s : spc; w_w : nat }.

Definition runnable (k : kst (E := E)) : Prop := exists p, procs k !! me = Some p /\ p_state p = RUNNABLE.

(** A CPU that finds a lock taken spins: its section does not return and there
    is no step. *)
Inductive sw_step : sw -> sw -> Prop :=
| s_lock k k' w : lk_acquire 0 k = Ok tt k' -> sw_step (mksw k SStart w) (mksw k' STest w)
| s_leave k k' w : cond (env k) = true -> lk_release 0 k = Ok tt k' -> sw_step (mksw k STest w) (mksw k' SDone w)
| s_call k w : cond (env k) = false -> sw_step (mksw k STest w) (mksw k (SIn 0) w)
| s_in k k' w n m : sleep_sections !! n = Some m -> m k = Ok tt k' -> sw_step (mksw k (SIn n) w) (mksw k' (SIn (S n)) w)
| s_switch k k' w n m ch : sleep_sections !! n = Some m -> m k = Sleep ch k' -> sw_step (mksw k (SIn n) w) (mksw k' SGone w)
| s_out k k' w : switch_out 0 k = Ok tt k' -> sw_step (mksw k SGone w) (mksw k' SOff w)
| s_run k k' w : runnable k -> resume_sleep 0 me k = Ok tt k' -> sw_step (mksw k SOff w) (mksw k' SRelock w)
| s_relock k k' w : lk_acquire 0 k = Ok tt k' -> sw_step (mksw k SRelock w) (mksw k' STest w)
| w_next k k' s n m : waker_sections !! n = Some m -> m k = Ok tt k' -> sw_step (mksw k s n) (mksw k' s (S n)).

(** ** What each section does *)

(** CPU [c] has [n] locks, with interrupts off if there is one, and runs [o]. *)
Definition depth (c : nat) (n : Z) (o : option nat) (cs : list pcpu) : Prop :=
  exists pc, cs !! c = Some pc /\ ncli (pc_cpu pc) = n /\ (0 < n -> iflag (pc_cpu pc) = false) /\ pc_proc pc = o.
(** Only CPU [c] changes. *)
Definition becomes (c : nat) (n : Z) (o : option nat) (cs cs' : list pcpu) : Prop :=
  depth c n o cs' /\ forall c', c' <> c -> cs' !! c' = cs !! c'.
Lemma becomes_alter c n o cs f n' o' :
  depth c n o cs ->
  (forall pc, ncli (pc_cpu pc) = n -> (0 < n -> iflag (pc_cpu pc) = false) -> pc_proc pc = o ->
    ncli (pc_cpu (f pc)) = n' /\ (0 < n' -> iflag (pc_cpu (f pc)) = false) /\ pc_proc (f pc) = o') ->
  becomes c n' o' cs (alter f c cs).
Proof.
  intros (pc & Hc & Hn & Hi & Ho) Hf. split; [|intros c' Hc'; by rewrite list_lookup_alter_ne].
  exists (f pc). rewrite list_lookup_alter_eq, Hc. split; [done|]. by apply Hf.
Qed.
Lemma becomes_trans c n n' o o' cs cs' cs'' :
  becomes c n o cs cs' -> becomes c n' o' cs' cs'' -> becomes c n' o' cs cs''.
Proof. intros [_ H1] [H2 H3]. split; [done|]. intros c' Hc'. by rewrite H3, H1. Qed.
Lemma becomes_other c c' n n' o o' cs cs' : becomes c n o cs cs' -> c' <> c -> depth c' n' o' cs -> depth c' n' o' cs'.
Proof. intros [_ H] Hc (pc & Hpc & ?). exists pc. by rewrite H. Qed.

Lemma push_becomes c n o cs : 0 <= n -> depth c n o cs ->
  becomes c (n + 1) o cs (alter (fun pc => set_pc_cpu (pushcli (pc_cpu pc)) pc) c cs).
Proof. intros Hn Hd. eapply becomes_alter; [done|]. intros pc <- Hi <-. by cbn. Qed.
Lemma sec_popcli_wp c n o (k : kst (E := E)) Q : 0 < n -> depth c n o (cpus k) ->
  (forall cs, becomes c (n - 1) o (cpus k) cs -> Q tt (set_cpus cs k)) -> wp (popcli_on c) Q k.
Proof.
  intros Hn Hd HQ. pose proof Hd as (pc & Hc & Hpn & Hi & Ho). unfold popcli_on. wp_step. wp_step. rewrite Hc.
  unfold popcli. rewrite (Hi Hn), Hpn, (proj2 (Z.ltb_ge _ _)) by lia. apply wp_modify, HQ.
  split; [|intros c' Hc'; by rewrite list_lookup_alter_ne].
  eexists. rewrite list_lookup_alter_eq, Hc. split; [done|]. cbn. split_and!; [done| |done].
  intros Hlt. by rewrite (proj2 (Z.eqb_neq _ _)) by lia.
Qed.
Lemma sec_acquire_wp c n o (k : kst (E := E)) Q : 0 <= n -> depth c n o (cpus k) -> plock k = false ->
  (forall cs, becomes c (n + 1) o (cpus k) cs -> Q tt (set_plock true (set_cpus cs k))) -> wp (acquire c) Q k.
Proof.
  intros Hn Hd Hl HQ. unfold acquire, updc. wp_step. wp_step. wp_step. wp_step. cbn [plock set_cpus]. rewrite Hl.
  apply wp_modify, HQ. by apply push_becomes.
Qed.
Lemma sec_release_wp c n o (k : kst (E := E)) Q : 0 < n -> depth c n o (cpus k) -> plock k = true ->
  (forall cs, becomes c (n - 1) o (cpus k) cs -> Q tt (set_cpus cs (set_plock false k))) -> wp (release c) Q k.
Proof.
  intros Hn Hd Hl HQ. unfold release. wp_step. wp_step. rewrite Hl. cbn [negb]. wp_step. wp_step.
  by apply (sec_popcli_wp c n o).
Qed.
Lemma lk_acquire_wp c n o (k : kst (E := E)) Q : 0 <= n -> depth c n o (cpus k) -> lk (env k) = false ->
  (forall cs, becomes c (n + 1) o (cpus k) cs -> Q tt (set_env (set_lk true (env k)) (set_cpus cs k))) ->
  wp (lk_acquire c) Q k.
Proof.
  intros Hn Hd Hl HQ. unfold lk_acquire, updc. wp_step. wp_step. apply wp_zoom. wp_step. wp_step. cbn [env set_cpus].
  rewrite Hl. apply wp_modify, HQ. by apply push_becomes.
Qed.
Lemma lk_release_wp c n o (k : kst (E := E)) Q : 0 < n -> depth c n o (cpus k) ->
  (forall cs, becomes c (n - 1) o (cpus k) cs -> Q tt (set_cpus cs (set_env (set_lk false (env k)) k))) ->
  wp (lk_release c) Q k.
Proof.
  intros Hn Hd HQ. unfold lk_release. apply wp_bind, wp_zoom, wp_modify. by apply (sec_popcli_wp c n o).
Qed.

Definition asleep (k : kst (E := E)) : Prop := exists p, procs k !! me = Some p /\ p_state p = SLEEPING /\ p_chan p = chan.

(** The last section of [sleep] switches away. *)
Lemma switch_wps (k : kst (E := E)) (R : Z -> kst (E := E) -> Prop) : is_Some (procs k !! me) -> depth 0 1 (Some me) (cpus k) -> plock k = true ->
  (forall l, (forall p, procs k !! me = Some p -> l !! me = Some (set_p_state SLEEPING (set_p_chan chan p))) ->
    R chan (set_procs l k)) ->
  wps (updp me (set_p_chan chan) ;;; updp me (set_p_state SLEEPING) ;;; sched (A := unit) 0) (fun _ _ => False) R k.
Proof.
  intros [p Hp] (pc & Hc & Hn & Hi & Ho) Hl HR. unfold wps, sched, myproc, updp, getp, bind, modify, get, gets, ret.
  cbn [procs cpus plock set_procs]. rewrite Hc. cbn [option_bind mbind]. rewrite Ho, Hl, Hn, Hi by lia. cbn [negb].
  change (1 =? 1) with true. cbn [negb].
  assert (Hme : alter (set_p_state SLEEPING) me (alter (set_p_chan chan) me (procs k)) !! me
    = Some (set_p_state SLEEPING (set_p_chan chan p))) by (by rewrite !list_lookup_alter_eq, Hp).
  rewrite (list_lookup_total_correct _ _ _ Hme). cbn. refine (HR _ _). intros p' Hp'. simplify_eq. done.
Qed.
Lemma switch_out_wp (k : kst (E := E)) Q : depth 0 1 (Some me) (cpus k) -> plock k = true ->
  (forall e cs, lk e = lk (env k) -> cond e = cond (env k) -> becomes 0 0 None (cpus k) cs ->
    Q tt (set_cpus cs (set_plock false (set_env e k)))) -> wp (switch_out 0) Q k.
Proof.
  intros Hd Hl HQ. unfold switch_out, undispatch, updc. apply wp_bind, wp_bind, wp_zoom.
  eapply wp_mono; [apply switchkvm_quiet|]. intros [] e (He1 & He2). apply wp_modify.
  assert (Hb : becomes 0 1 None (cpus k) (alter (set_pc_proc None) 0%nat (cpus k))) by (by eapply becomes_alter).
  apply (sec_release_wp 0 1 None); [lia|apply Hb|done|]. intros cs Hcs. cbn in Hcs. exact (HQ e cs He1 He2 (becomes_trans _ _ _ _ _ _ _ _ Hb Hcs)).
Qed.
Lemma resume_wp (k : kst (E := E)) Q : depth 0 0 None (cpus k) -> plock k = false -> is_Some (procs k !! me) ->
  (forall e cs l, lk e = lk (env k) -> cond e = cond (env k) -> becomes 0 0 (Some me) (cpus k) cs -> is_Some (l !! me) ->
    Q tt (set_cpus cs (set_plock false (set_procs l (set_env e k))))) -> wp (resume_sleep 0 me) Q k.
Proof.
  intros Hd Hl [p Hp] HQ. unfold resume_sleep, dispatch, sleep_resume, myproc, updc, updp, getp.
  apply wp_bind, (sec_acquire_wp 0 0 None); [lia|done|done|]. intros cs1 Hb1.
  apply wp_bind, wp_bind, wp_modify. cbn [cpus set_plock set_cpus].
  assert (Hb2 : becomes 0 1 (Some me) (cpus k) (alter (set_pc_proc (Some me)) 0%nat cs1)).
  { eapply becomes_trans; [exact Hb1|]. eapply becomes_alter; [apply Hb1|]. intros pc Hn Hi _. cbn. split_and!; [lia|intros _; apply Hi; lia|done]. }
  apply wp_bind, wp_gets, wp_bind, wp_zoom. eapply wp_mono; [apply switchuvm_quiet|]. intros [] e (He1 & He2).
  apply wp_modify, wp_bind, wp_bind, wp_get. cbn [cpus set_plock set_cpus set_env set_procs procs].
  pose proof Hb2 as [(pc & Hc & _ & _ & Ho) _]. rewrite Hc. cbn [mbind option_bind]. rewrite Ho. apply wp_ret, wp_bind, wp_modify.
  apply (sec_release_wp 0 1 (Some me)); [lia|apply Hb2|done|]. intros cs Hcs. cbn in Hcs.
  refine (HQ e cs _ He1 He2 (becomes_trans _ _ _ _ _ _ _ _ Hb2 Hcs) _).
  change (is_Some (alter (set_p_chan 0) me (alter (set_p_state RUNNING) me (procs k)) !! me)).
  rewrite !list_lookup_alter_eq, Hp. by eexists.
Qed.

(** ** The invariant *)

Definition s_lk (s : spc) : bool := match s with STest | SIn 0%nat | SIn 1%nat => true | _ => false end.
Definition s_pt (s : spc) : bool := match s with SIn 1%nat | SIn 2%nat | SGone => true | _ => false end.
Definition s_on (s : spc) : option nat := match s with SOff => None | _ => Some me end.
Definition w_lk (n : nat) : bool := (1 <=? n)%nat && (n <=? 5)%nat.
Definition w_pt (n : nat) : bool := (3 <=? n)%nat && (n <=? 4)%nat.
Definition cond_set (n : nat) : bool := (2 <=? n)%nat.
(** The wakeup is still to come. *)
Definition wake_to_come (n : nat) : bool := (n <=? 3)%nat.
Definition held (a b : bool) : Z := Z.b2z a + Z.b2z b.

(** The locks are held as the counters say, and a sleeper that found the
    condition false is ahead of the wakeup. *)
Definition pcs_ok (l p c : bool) (s : spc) (w : nat) : bool :=
  Bool.eqb l (s_lk s || w_lk w) && negb (s_lk s && w_lk w) &&
  Bool.eqb p (s_pt s || w_pt w) && negb (s_pt s && w_pt w) &&
  Bool.eqb c (cond_set w) && (w <=? 6)%nat &&
  match s with
  | SIn 0%nat | SIn 1%nat => negb c
  | SIn 2%nat | SGone => wake_to_come w
  | SIn _ => false
  | SRelock | SDone => c
  | _ => true
  end.
Record sw_inv (x : sw) : Prop := {
  si_pcs : pcs_ok (lk (env (w_k x))) (plock (w_k x)) (cond (env (w_k x))) (w_s x) (w_w x) = true;
  si_0 : depth 0 (held (s_lk (w_s x)) (s_pt (w_s x))) (s_on (w_s x)) (cpus (w_k x));
  si_1 : exists o, depth 1 (held (w_lk (w_w x)) (w_pt (w_w x))) o (cpus (w_k x));
  si_me : is_Some (procs (w_k x) !! me);
  si_gone : w_s x = SGone -> asleep (w_k x);
  si_off : w_s x = SOff -> (asleep (w_k x) /\ wake_to_come (w_w x) = true) \/ (runnable (w_k x) /\ cond (env (w_k x)) = true)
}.

Lemma wake_me k : asleep k -> runnable (set_procs (map (wake_proc chan) (procs k)) k).
Proof.
  intros (p & Hp & Hs & Hc). exists (wake_proc chan p). cbn. change (map ?f ?l) with (f <$> l).
  rewrite list_lookup_fmap, Hp. split; [done|]. unfold wake_proc, is_state. by rewrite Hs, Hc, bool_decide_true, Z.eqb_refl.
Qed.
Lemma wake_runnable k : runnable k -> runnable (set_procs (map (wake_proc chan) (procs k)) k).
Proof.
  intros (p & Hp & Hr). exists (wake_proc chan p). cbn. change (map ?f ?l) with (f <$> l).
  rewrite list_lookup_fmap, Hp. split; [done|]. unfold wake_proc, is_state. by rewrite Hr.
Qed.

(** Enumerate the counter of the sleeper, or of the waker. *)
Ltac enum_s s := destruct s as [| |[|[|[|n]]]| | | |].
Ltac enum_w w := destruct w as [|[|[|[|[|[|[|w]]]]]]].
(** The locks, the condition and the counters agree. *)
Ltac pcs := unfold pcs_ok in *; cbn in *;
  repeat match goal with |- context [lk ?e] => destruct (lk e) | H : context [lk ?e] |- _ => destruct (lk e)
  | |- context [cond ?e] => destruct (cond e) | H : context [cond ?e] |- _ => destruct (cond e)
  | |- context [plock ?k] => destruct (plock k) | H : context [plock ?k] |- _ => destruct (plock k) end; try done.

(** A step of the sleeper leaves the waker as it is, and the reverse. *)
Lemma sleeper_step x k s : sw_inv x -> becomes 0 (held (s_lk s) (s_pt s)) (s_on s) (cpus (w_k x)) (cpus k) ->
  pcs_ok (lk (env k)) (plock k) (cond (env k)) s (w_w x) = true -> is_Some (procs k !! me) ->
  (s = SGone -> asleep k) ->
  (s = SOff -> (asleep k /\ wake_to_come (w_w x) = true) \/ (runnable k /\ cond (env k) = true)) ->
  sw_inv (mksw k s (w_w x)).
Proof.
  intros [_ _ [o H1] _ _ _] Hb Hp Hm Hg Ho. split; cbn [w_k w_s w_w]; [done|apply Hb| |done|done|done].
  exists o. by eapply becomes_other.
Qed.
Lemma waker_step x k n o : sw_inv x -> becomes 1 (held (w_lk n) (w_pt n)) o (cpus (w_k x)) (cpus k) ->
  pcs_ok (lk (env k)) (plock k) (cond (env k)) (w_s x) n = true -> is_Some (procs k !! me) ->
  (w_s x = SGone -> asleep k) ->
  (w_s x = SOff -> (asleep k /\ wake_to_come n = true) \/ (runnable k /\ cond (env k) = true)) ->
  sw_inv (mksw k (w_s x) n).
Proof.
  intros [_ H0 _ _ _ _] Hb Hp Hm Hg Ho. split; cbn [w_k w_s w_w]; [done| |by exists o; apply Hb|done|done|done].
  by eapply becomes_other.
Qed.

(** A section that waits for a lock: while the lock is [busy] the CPU spins,
    otherwise [m] returns with [Q]. *)
Definition spins (busy : bool) (m : M kst unit) (Q : kst -> Prop) (k : kst (E := E)) : Prop :=
  if busy then m k = Panic "acquire" else wp m (fun _ => Q) k.
Lemma spins_ok b m Q k k' : spins b m Q k -> m k = Ok tt k' -> Q k'.
Proof. intros H E1. destruct b; unfold spins, wp in H; rewrite E1 in H; done. Qed.
Lemma spins_runs m Q k : spins false m Q k -> exists k', m k = Ok tt k'.
Proof. unfold spins, wp. destruct (m k) as [[] k'| | |]; [by eexists|done..]. Qed.
Lemma spin_acquire c k : plock k = true -> acquire (E := E) c k = Panic "acquire".
Proof. intros H. unfold acquire, updc, bind, modify, gets. cbn. by rewrite H. Qed.
Lemma spin_lk c k : lk (env k) = true -> lk_acquire c k = Panic "acquire".
Proof. intros H. unfold lk_acquire, updc, on_env, zoom, bind, modify, get. cbn. by rewrite H. Qed.

(** ** Every section keeps the invariant *)

Lemma sleeper_locks k s w : s = SStart \/ s = SRelock -> sw_inv (mksw k s w) ->
  spins (lk (env k)) (lk_acquire 0) (fun k' => sw_inv (mksw k' STest w)) k.
Proof.
  intros Hs Hi. destruct (lk (env k)) eqn:El; [by apply spin_lk|].
  pose proof Hi as [H1 H2 _ H4 _ _]. cbn in *.
  assert (Hz : held (s_lk s) (s_pt s) = 0 /\ s_on s = Some me) by (destruct Hs as [-> | ->]; done).
  destruct Hz as [Hz Ho]. rewrite Hz, Ho in H2.
  apply (lk_acquire_wp 0 0 (Some me)); [lia|done|done|]. intros cs Hb.
  apply (sleeper_step (mksw k s w)); [done|exact Hb| |done|done|done].
  cbn. rewrite lk_lk, cond_lk. destruct Hs as [-> | ->]; rewrite El in H1; enum_w w; pcs.
Qed.
Lemma sleeper_leaves k w : cond (env k) = true -> sw_inv (mksw k STest w) ->
  wp (lk_release 0) (fun _ k' => sw_inv (mksw k' SDone w)) k.
Proof.
  intros Hc Hi. pose proof Hi as [H1 H2 _ H4 _ _]. cbn in *.
  apply (lk_release_wp 0 1 (Some me)); [lia|done|]. intros cs Hb.
  apply (sleeper_step (mksw k STest w)); [done|exact Hb| |done|done|done].
  cbn. rewrite lk_lk, cond_lk. rewrite Hc in *. enum_w w; pcs.
Qed.
Lemma sleeper_enters k w : cond (env k) = false -> sw_inv (mksw k STest w) -> sw_inv (mksw k (SIn 0) w).
Proof. intros Hc [H1 H2 H3 H4 _ _]. split; cbn in *; try done. rewrite Hc in *. enum_w w; pcs. Qed.
Lemma sleeper_ptable k w : sw_inv (mksw k (SIn 0) w) -> spins (plock k) (acquire 0) (fun k' => sw_inv (mksw k' (SIn 1) w)) k.
Proof.
  intros Hi. destruct (plock k) eqn:El; [by apply spin_acquire|].
  pose proof Hi as [H1 H2 _ H4 _ _]. cbn in *.
  apply (sec_acquire_wp 0 1 (Some me)); [lia|done|done|]. intros cs Hb.
  apply (sleeper_step (mksw k (SIn 0) w)); [done|exact Hb| |done|done|done].
  rewrite El in H1. enum_w w; pcs.
Qed.
Lemma sleeper_unlocks k w : sw_inv (mksw k (SIn 1) w) -> wp (lk_release 0) (fun _ k' => sw_inv (mksw k' (SIn 2) w)) k.
Proof.
  intros Hi. pose proof Hi as [H1 H2 _ H4 _ _]. cbn in *.
  apply (lk_release_wp 0 2 (Some me)); [lia|done|]. intros cs Hb.
  apply (sleeper_step (mksw k (SIn 1) w)); [done|exact Hb| |done|done|done].
  cbn. rewrite lk_lk, cond_lk. enum_w w; pcs.
Qed.
Lemma sleeper_switches k w : sw_inv (mksw k (SIn 2) w) ->
  wps (updp me (set_p_chan chan) ;;; updp me (set_p_state SLEEPING) ;;; sched (A := unit) 0) (fun _ _ => False)
    (fun _ k' => sw_inv (mksw k' SGone w)) k.
Proof.
  intros Hi. pose proof Hi as [H1 H2 _ H4 _ _]. cbn in *.
  apply switch_wps; [done|done|clear - H1; enum_w w; pcs|]. intros l Hl. destruct H4 as [p Hp]. specialize (Hl p Hp).
  apply (sleeper_step (mksw k (SIn 2) w)); [done| |clear - H1; enum_w w; pcs|by eexists| |done].
  - split; [done|by intros].
  - intros _. by eexists.
Qed.
Lemma sleeper_out k w : sw_inv (mksw k SGone w) -> wp (switch_out 0) (fun _ k' => sw_inv (mksw k' SOff w)) k.
Proof.
  intros Hi. pose proof Hi as [H1 H2 _ H4 H5 _]. cbn in *.
  apply switch_out_wp; [done|clear - H1; enum_w w; pcs|]. intros e cs He1 He2 Hb.
  apply (sleeper_step (mksw k SGone w)); [done|exact Hb| |done|done|].
  - cbn. rewrite He1, He2. clear - H1. enum_w w; pcs.
  - intros _. left. split; [by apply H5|]. cbn. clear - H1. enum_w w; pcs.
Qed.
Lemma asleep_not_runnable k : asleep k -> runnable k -> False.
Proof. intros (p & Hp & Hs & _) (p' & Hp' & Hr). congruence. Qed.
Lemma sleeper_resumes k w : runnable k -> sw_inv (mksw k SOff w) ->
  spins (plock k) (resume_sleep 0 me) (fun k' => sw_inv (mksw k' SRelock w)) k.
Proof.
  intros Hr Hi. destruct (plock k) eqn:El.
  { unfold spins, resume_sleep, bind. by rewrite spin_acquire. }
  pose proof Hi as [H1 H2 _ H4 _ H6]. cbn in *.
  destruct H6 as [[Ha _]|[_ Hc]]; [done|by destruct (asleep_not_runnable k)|].
  apply resume_wp; [done|done|done|]. intros e cs l He1 He2 Hb Hl.
  apply (sleeper_step (mksw k SOff w)); [done|exact Hb| |done|done|done].
  cbn. rewrite He1, He2, Hc. rewrite El, Hc in H1. clear - H1. enum_w w; pcs.
Qed.

(** The waker, section by section. *)
Definition waker_busy (n : nat) (k : kst) : bool :=
  match n with O => lk (env k) | S (S O) => plock k | _ => false end.
Definition waker_ok (n : nat) (m : M kst unit) : Prop :=
  forall k s, sw_inv (mksw k s n) -> spins (waker_busy n k) m (fun k' => sw_inv (mksw k' s (S n))) k.

Lemma waker_0 : waker_ok 0 (lk_acquire 1).
Proof.
  intros k s Hi. unfold waker_busy. destruct (lk (env k)) eqn:El; [by apply spin_lk|].
  pose proof Hi as [H1 _ [o H3] H4 H5 H6]. cbn in H1, H3, H4, H5, H6.
  apply (lk_acquire_wp 1 0 o); [lia|done|done|]. intros cs Hb.
  apply (waker_step (mksw k s 0) _ 1 o); [done|exact Hb| |done|done|cbn; by rewrite cond_lk].
  cbn. rewrite lk_lk, cond_lk. rewrite El in H1. clear - H1. enum_s s; pcs.
Qed.
Lemma waker_1 : waker_ok 1 (on_env (modify (set_cond true))).
Proof.
  intros k s Hi. pose proof Hi as [H1 _ [o H3] H4 H5 H6]. cbn in H1, H3, H4, H5, H6. apply wp_zoom, wp_modify.
  apply (waker_step (mksw k s 1) _ 2 o); [done|by split| |done|done|].
  - cbn. rewrite lk_cond, cond_cond. clear - H1. enum_s s; pcs.
  - cbn. rewrite cond_cond. intros Hs. destruct (H6 Hs) as [[? _]|[? _]]; auto.
Qed.
Lemma waker_2 : waker_ok 2 (acquire 1).
Proof.
  intros k s Hi. unfold waker_busy. destruct (plock k) eqn:El; [by apply spin_acquire|].
  pose proof Hi as [H1 _ [o H3] H4 H5 H6]. cbn in H1, H3, H4, H5, H6.
  apply (sec_acquire_wp 1 1 o); [lia|done|done|]. intros cs Hb.
  apply (waker_step (mksw k s 2) _ 3 o); [done|exact Hb| |done|done|done].
  rewrite El in H1. clear - H1. enum_s s; pcs.
Qed.
Lemma waker_3 : waker_ok 3 (wakeup1 chan).
Proof.
  intros k s Hi. pose proof Hi as [H1 _ [o H3] H4 H5 H6]. cbn in H1, H3, H4, H5, H6. apply wp_modify.
  apply (waker_step (mksw k s 3) _ 4 o); [done|by split| | | |].
  - clear - H1. enum_s s; pcs.
  - destruct H4 as [p Hp]. cbn. change (map ?f ?l) with (f <$> l). rewrite list_lookup_fmap, Hp. by eexists.
  - cbn. intros ->. exfalso. clear - H1. pcs.
  - intros Hs. cbn in Hs. right. destruct (H6 Hs) as [[Ha _]|[Hr Hc]]; (split; [first [by apply wake_me | by apply wake_runnable]|]); [|done].
    cbn. subst s. clear - H1. pcs.
Qed.
Lemma waker_4 : waker_ok 4 (release 1).
Proof.
  intros k s Hi. pose proof Hi as [H1 _ [o H3] H4 H5 H6]. cbn in H1, H3, H4, H5, H6.
  apply (sec_release_wp 1 2 o); [lia|done|clear - H1; enum_s s; pcs|]. intros cs Hb.
  apply (waker_step (mksw k s 4) _ 5 o); [done|exact Hb| |done|done|].
  - clear - H1. enum_s s; pcs.
  - intros Hs. destruct (H6 Hs) as [[_ ?]|?]; [done|by right].
Qed.
Lemma waker_5 : waker_ok 5 (lk_release 1).
Proof.
  intros k s Hi. pose proof Hi as [H1 _ [o H3] H4 H5 H6]. cbn in H1, H3, H4, H5, H6.
  apply (lk_release_wp 1 1 o); [lia|done|]. intros cs Hb.
  apply (waker_step (mksw k s 5) _ 6 o); [done|exact Hb| |done|done|].
  - cbn. rewrite lk_lk, cond_lk. clear - H1. enum_s s; pcs.
  - cbn. rewrite cond_lk. intros Hs. destruct (H6 Hs) as [[_ ?]|?]; [done|by right].
Qed.
Lemma waker_all n m : waker_sections !! n = Some m -> waker_ok n m.
Proof.
  intros H. enum_w n; cbn in H; try injection H as <-;
    [apply waker_0|apply waker_1|apply waker_2|apply waker_3|apply waker_4|apply waker_5|done|done].
Qed.

(** ** Nothing is lost *)

Lemma sw_step_inv x x' : sw_step x x' -> sw_inv x -> sw_inv x'.
Proof.
  destruct 1 as [k k' w H|k k' w Hc H|k w Hc|k k' w n m Hm H|k k' w n m ch Hm H|k k' w H|k k' w Hr H|k k' w H|k k' s n m Hm H]; intros Hi.
  - exact (spins_ok _ _ _ _ _ (sleeper_locks k SStart w (or_introl eq_refl) Hi) H).
  - pose proof (sleeper_leaves k w Hc Hi) as Hw. unfold wp in Hw. by rewrite H in Hw.
  - by apply sleeper_enters.
  - destruct n as [|[|[|n]]]; cbn in Hm; [injection Hm as <-..|done].
    + exact (spins_ok _ _ _ _ _ (sleeper_ptable k w Hi) H).
    + pose proof (sleeper_unlocks k w Hi) as Hw. unfold wp in Hw. by rewrite H in Hw.
    + pose proof (sleeper_switches k w Hi) as Hw. unfold wps in Hw. by rewrite H in Hw.
  - destruct n as [|[|[|n]]]; cbn in Hm; [injection Hm as <-..|done].
    + pose proof (sleeper_ptable k w Hi) as Hw. unfold spins, wp in Hw. rewrite H in Hw. by destruct (plock k).
    + pose proof (sleeper_unlocks k w Hi) as Hw. unfold wp in Hw. by rewrite H in Hw.
    + pose proof (sleeper_switches k w Hi) as Hw. unfold wps in Hw. by rewrite H in Hw.
  - pose proof (sleeper_out k w Hi) as Hw. unfold wp in Hw. by rewrite H in Hw.
  - exact (spins_ok _ _ _ _ _ (sleeper_resumes k w Hr Hi) H).
  - exact (spins_ok _ _ _ _ _ (sleeper_locks k SRelock w (or_intror eq_refl) Hi) H).
  - exact (spins_ok _ _ _ _ _ (waker_all n m Hm k s Hi) H).
Qed.

(** A bound on the steps left. *)
Definition s_rank (c : bool) (s : spc) : nat :=
  match s with
  | SStart => 10 | STest => if c then 1 else 9 | SIn n => 8 - n | SGone => 5 | SOff => 4 | SRelock => 2 | SDone => 0
  end.
Definition steps_left (x : sw) : nat := s_rank (cond (env (w_k x))) (w_s x) + (6 - w_w x).

Lemma sw_step_rank x x' : sw_step x x' -> sw_inv x -> (steps_left x' < steps_left x)%nat.
Proof.
  intros Hst Hi. pose proof (sw_step_inv _ _ Hst Hi) as Hi'. pose proof (si_pcs _ Hi) as H1. pose proof (si_pcs _ Hi') as H2.
  unfold steps_left. revert H1 H2. clear Hi Hi'.
  destruct Hst as [k k' w H|k k' w Hc H|k w Hc|k k' w n m Hm H|k k' w n m ch Hm H|k k' w H|k k' w Hr H|k k' w H|k k' s n m Hm H];
    cbn [w_k w_s w_w]; intros H1 H2.
  2,3: rewrite Hc; cbn; lia.
  2,3: destruct n as [|[|[|n]]]; try done; cbn; lia.
  2: cbn; lia.
  2: cbn; lia.
  1: cbn; destruct (cond (env k')); lia.
  1: cbn; enum_w w; pcs; lia.
  apply lookup_lt_Some in Hm. cbn in Hm.
  assert (s_rank (cond (env k')) s <= s_rank (cond (env k)) s)%nat; [|lia].
  destruct s; cbn; try lia. destruct (cond (env k)) eqn:E1, (cond (env k')) eqn:E2; try lia.
  exfalso. revert H1 H2. enum_w n; pcs.
Qed.

Definition finished (x : sw) : Prop := w_s x = SDone /\ w_w x = 6%nat.

Lemma waker_runs k s n : sw_inv (mksw k s n) -> (n < 6)%nat -> waker_busy n k = false -> exists x', sw_step (mksw k s n) x'.
Proof.
  intros Hi Hn Hb. destruct (lookup_lt_is_Some_2 waker_sections n Hn) as [m Hm].
  pose proof (waker_all n m Hm k s Hi) as Hw. rewrite Hb in Hw. apply spins_runs in Hw as [k' H]. eexists. by eapply w_next.
Qed.
(** Some CPU can go on: the waker, unless it waits for a lock that the sleeper
    holds or is done. *)
Lemma sw_progress x : sw_inv x -> finished x \/ exists x', sw_step x x'.
Proof.
  destruct x as [k s w]. intros Hi. pose proof (si_pcs _ Hi) as H1. cbn [w_k w_s w_w] in H1.
  destruct (decide ((w < 6)%nat /\ waker_busy w k = false)) as [[Hw Hb]|Hn]; [right; by apply waker_runs|].
  assert (Hw : (s_lk s || s_pt s) = true \/ w = 6%nat).
  { destruct (decide (w < 6)%nat) as [Hlt|Hge]; [left|right].
    - destruct (waker_busy w k) eqn:Eb; [|by destruct Hn]. clear Hi Hn.
      enum_w w; cbn in Eb; try done; rewrite Eb in H1; clear Eb; enum_s s; pcs.
    - unfold pcs_ok in H1. rewrite !andb_true_iff, Nat.leb_le in H1. lia. }
  enum_s s.
  - right. pose proof (sleeper_locks k SStart w (or_introl eq_refl) Hi) as Hs.
    destruct (lk (env k)) eqn:El; [exfalso; destruct Hw as [Hw| ->]; [done|]; clear Hi; pcs|].
    apply spins_runs in Hs as [k' H]. eexists. by apply s_lock.
  - right. destruct (cond (env k)) eqn:Ec; [|eexists; by apply s_call].
    destruct (spins_runs _ _ _ (sleeper_leaves k w Ec Hi)) as [k' H]. eexists. by apply s_leave.
  - right. pose proof (sleeper_ptable k w Hi) as Hs.
    destruct (plock k) eqn:El; [exfalso; clear Hi; enum_w w; cbn in Hn; first [by pcs | apply Hn; split; [lia|done]]|].
    apply spins_runs in Hs as [k' H]. eexists. by eapply (s_in _ _ _ 0).
  - right. destruct (spins_runs _ _ _ (sleeper_unlocks k w Hi)) as [k' H]. eexists. by eapply (s_in _ _ _ 1).
  - right. pose proof (sleeper_switches k w Hi) as Hs. unfold wps in Hs. case_match eqn:Em; try done.
    eexists. by eapply (s_switch _ _ _ 2).
  - exfalso. clear Hi. enum_w w; pcs.
  - right. destruct (spins_runs _ _ _ (sleeper_out k w Hi)) as [k' H]. eexists. by apply s_out.
  - right. destruct Hw as [Hw| ->]; [done|]. destruct (si_off _ Hi eq_refl) as [[_ ?]|[Hr _]]; [done|]. cbn in Hr.
    pose proof (sleeper_resumes k 6 Hr Hi) as Hs.
    destruct (plock k) eqn:El; [exfalso; clear Hi; pcs|]. apply spins_runs in Hs as [k' H]. eexists. by apply s_run.
  - right. pose proof (sleeper_locks k SRelock w (or_intror eq_refl) Hi) as Hs.
    destruct (lk (env k)) eqn:El; [exfalso; destruct Hw as [Hw| ->]; [done|]; clear Hi; pcs|].
    apply spins_runs in Hs as [k' H]. eexists. by apply s_relock.
  - destruct Hw as [Hw| ->]; [done|]. by left.
Qed.

(** Both CPUs before their code: no lock is held and the condition is false. *)
Record sw_start (k : kst) : Prop := {
  st_ptable : plock k = false;
  st_lk : lk (env k) = false;
  st_cond : cond (env k) = false;
  st_0 : depth 0 0 (Some me) (cpus k);
  st_1 : exists o, depth 1 0 o (cpus k);
  st_me : is_Some (procs k !! me)
}.

(** C14. No wakeup is lost.  The sections are those of [sleep] and [wakeup].  In
    every state that any interleaving of the sections leads to: once the waker
    is past [wakeup1], the sleeper is not asleep; some CPU can go on unless both
    are done; every run is finite ([steps_left] decreases), so that in the end
    both are done, neither CPU having panicked or waiting for a lock; and the
    sleeper leaves the loop only with the condition true. *)
Theorem no_lost_wakeup k x :
  sw_start k -> rtc sw_step (mksw k SStart 0) x ->
  (forall s, cpus s !! 0%nat ≫= pc_proc = Some me -> sleep 0 chan (OtherLock lk_unlock) s = seq_all sleep_sections s) /\
  (forall s, wakeup 1 chan s = seq_all wakeup_sections s) /\
  ((3 < w_w x)%nat -> w_s x = SOff -> runnable (w_k x)) /\
  (finished x \/ exists x', sw_step x x') /\
  (forall x', sw_step x x' -> (steps_left x' < steps_left x)%nat) /\
  (w_s x = SDone -> cond (env (w_k x)) = true).
Proof.
  intros [S1 S2 S3 S4 S5 S6] Hr.
  assert (Hinv : sw_inv x).
  { revert x Hr. apply (rtc_ind_r sw_inv); [|intros y z _ Hst Hy; by eapply sw_step_inv].
    split; cbn; rewrite ?S1, ?S2, ?S3; done. }
  split_and!; [apply sleep_sections_ok|apply wakeup_sections_ok| |by apply sw_progress|intros; by eapply sw_step_rank|].
  - intros Hw Hs. destruct (si_off _ Hinv Hs) as [[_ Hc]|[? _]]; [|done]. apply Nat.leb_le in Hc. lia.
  - intros Hs. pose proof (si_pcs _ Hinv) as H1. rewrite Hs in H1. unfold pcs_ok in H1.
    by apply andb_prop in H1 as [_ H1].
Qed.
End sw.

(** ** Example: the waker comes while the sleeper is between its sections *)

Module SleepDemo.
(** The other component: a lock and a flag. *)
Definition services : Services (bool * bool).
Proof.
  refine {| s_kalloc := ret 0; s_kfree := fun _ => ret tt; s_setupkvm := ret 0; s_inituvm := fun _ => ret tt;
    s_allocuvm := fun _ _ n => ret n; s_deallocuvm := fun _ _ n => ret n; s_copyuvm := fun _ _ => ret 0;
    s_freevm := fun _ => ret tt; s_switchuvm := fun _ _ => ret tt; s_switchkvm := ret tt;
    s_filedup := fun f => ret f; s_fileclose := fun _ => ret tt; s_idup := fun i => ret i; s_iput := fun _ => ret tt;
    s_namei := fun _ => ret None; s_begin_op := ret tt; s_end_op := ret tt;
    s_iinit := fun _ => ret tt; s_initlog := fun _ => ret tt |}; intros; unfold awake; done.
Defined.
#[local] Existing Instance services.
Definition set1 (b : bool) (e : bool * bool) : bool * bool := (b, snd e).
Definition set2 (b : bool) (e : bool * bool) : bool * bool := (fst e, b).
Definition k0 : kst := mkkst [zero_proc] 1 None false
  [mkpcpu (mkcpu 0 true true) (Some 0%nat); mkpcpu (mkcpu 0 true true) None] false 0 [] (false, false).

(** The state after a section. *)
Definition after (m : M (kst (E := bool * bool)) unit) (k : kst) : kst := match m k with Ok _ k' | Sleep _ k' => k' | _ => k end.
Definition sec (n : nat) : M kst unit := default (ret tt) (sleep_sections set1 0 7 !! n).
Definition wsec (n : nat) : M kst unit := default (ret tt) (waker_sections fst set1 set2 7 !! n).
(** The sleeper releases the lock, the waker takes it and sets the condition,
    the sleeper goes to sleep, the waker wakes it. *)
Definition k1 : kst := after (sec 1) (after (sec 0) (after (lk_acquire fst set1 0) k0)).
Definition k2 : kst := after (switch_out 0) (after (sec 2) (after (wsec 1) (after (wsec 0) k1))).
Definition k3 : kst := after (wsec 5) (after (wsec 4) (after (wsec 3) (after (wsec 2) k2))).

Definition x3 : sw := mksw k3 SOff 6.
Lemma sleep_demo_run : rtc (sw_step fst snd set1 set2 0 7) (mksw k0 SStart 0) x3.
Proof.
  eapply rtc_l; [eapply s_lock; vm_compute; reflexivity|]. eapply rtc_l; [apply s_call; vm_compute; reflexivity|].
  eapply rtc_l; [eapply s_in; vm_compute; reflexivity|]. eapply rtc_l; [eapply s_in; vm_compute; reflexivity|].
  eapply rtc_l; [eapply w_next; vm_compute; reflexivity|]. eapply rtc_l; [eapply w_next; vm_compute; reflexivity|].
  eapply rtc_l; [eapply s_switch; vm_compute; reflexivity|]. eapply rtc_l; [eapply s_out; vm_compute; reflexivity|].
  eapply rtc_l; [eapply w_next; vm_compute; reflexivity|]. eapply rtc_l; [eapply w_next; vm_compute; reflexivity|].
  eapply rtc_l; [eapply w_next; vm_compute; reflexivity|]. eapply rtc_l; [eapply w_next; vm_compute; reflexivity|].
  vm_compute. apply rtc_refl.
Qed.
Lemma start : sw_start fst snd 0 k0.
Proof. split; try done; [by eexists|by do 2 eexists]. Qed.
Lemma set1_fst (b : bool) (e : bool * bool) : fst (set1 b e) = b.
Proof. done. Qed.
Lemma set2_fst (b : bool) (e : bool * bool) : fst (set2 b e) = fst e.
Proof. done. Qed.
Lemma set2_snd (b : bool) (e : bool * bool) : snd (set2 b e) = b.
Proof. done. Qed.
Lemma set1_snd (b : bool) (e : bool * bool) : snd (set1 b e) = snd e.
Proof. done. Qed.
Lemma quiet_ret : quiet fst snd (ret tt).
Proof. done. Qed.
End SleepDemo.

Lemma no_lost_wakeup_witness : runnable 0 (w_k SleepDemo.x3).
Proof.
  destruct (no_lost_wakeup (Services0 := SleepDemo.services) fst snd SleepDemo.set1 SleepDemo.set2
    SleepDemo.set1_fst SleepDemo.set2_fst SleepDemo.set2_snd SleepDemo.set1_snd
    (fun _ _ => SleepDemo.quiet_ret) SleepDemo.quiet_ret 0 7 SleepDemo.k0 SleepDemo.x3 SleepDemo.start SleepDemo.sleep_demo_run) as (_ & _ & H & _).
  apply H; [unfold SleepDemo.x3; cbn [w_w]; lia|reflexivity].
Defined.
