(* ===== verification/ProcSpec.v ===== *)
(** * What wait, exit and the steps of the scheduler do

    The functional behaviour of the routines on every branch, for services that
    return. *)

From S2P Require Import Prelude Params Spinlock Proc ProcInv.

Section spec.
Context {E : Type} `{!Services E}.
Context (proc_chan : nat -> Z).
Implicit Types (s : kst (E := E)).

(** The services called return. *)
Definition returns {A} (m : M E A) : Prop := forall e, exists a e', m e = Ok a e'.

(** CPU [c] holds [ptable.lock] and runs process [me]. *)
Definition holds (c me : nat) s : Prop :=
  plock s = true /\ exists pc, cpus s !! c = Some pc /\ pc_proc pc = Some me /\ ncli (pc_cpu pc) = 1 /\ iflag (pc_cpu pc) = false.
(** CPU [c] runs process [me] and holds no lock. *)
Definition runs (c me : nat) s : Prop :=
  plock s = false /\ exists pc, cpus s !! c = Some pc /\ pc_proc pc = Some me /\ ncli (pc_cpu pc) = 0.

Lemma myproc_wp c me (Q : nat -> kst -> Prop) s : cpus s !! c ≫= pc_proc = Some me -> Q me s -> wp (myproc c) Q s.
Proof. intros H HQ. unfold myproc. apply wp_bind, wp_get. by rewrite H. Qed.
Lemma runs_proc c me s : runs c me s -> cpus s !! c ≫= pc_proc = Some me.
Proof. intros (_ & pc & -> & ? & _). done. Qed.
Lemma holds_proc c me s : holds c me s -> cpus s !! c ≫= pc_proc = Some me.
Proof. intros (_ & pc & -> & ? & _). done. Qed.

Lemma acquire_wp c me (Q : unit -> kst -> Prop) s : runs c me s ->
  (forall cs, holds c me (set_plock true (set_cpus cs s)) -> Q tt (set_plock true (set_cpus cs s))) -> wp (acquire c) Q s.
Proof.
  intros (Hl & pc & Hc & Hp & Hn) HQ. unfold acquire, updc. apply wp_bind, wp_modify, wp_bind, wp_gets. cbn. rewrite Hl.
  apply wp_modify, HQ. split; [done|]. eexists. split; [cbn [cpus set_cpus set_plock]; by rewrite list_lookup_alter_eq, Hc|]. cbn. rewrite Hn. done.
Qed.
Lemma release_wp c me (Q : unit -> kst -> Prop) s : holds c me s ->
  (forall cs, runs c me (set_plock false (set_cpus cs s)) -> Q tt (set_plock false (set_cpus cs s))) -> wp (release c) Q s.
Proof.
  intros (Hl & pc & Hc & Hp & Hn & Hi) HQ. unfold release. apply wp_bind, wp_gets. rewrite Hl. cbn [negb].
  apply wp_bind, wp_modify. unfold popcli_on. apply wp_bind, wp_get. cbn [cpus set_plock]. rewrite Hc.
  assert (Hpop : popcli (pc_cpu pc) = inr (mkcpu 0 (intena (pc_cpu pc)) (if intena (pc_cpu pc) then true else false))).
  { unfold popcli. by rewrite Hi, Hn. }
  rewrite Hpop. unfold updc. apply wp_modify.
  change (set_cpus ?l (set_plock false s)) with (set_plock false (set_cpus l s)). apply HQ. split; [done|]. eexists. split; [cbn [cpus set_cpus set_plock]; by rewrite list_lookup_alter_eq, Hc|]. done.
Qed.
Lemma env_wp {A} (m : M E A) (Q : A -> kst -> Prop) s : returns m ->
  (forall a e, m (env s) = Ok a e -> Q a (set_env e s)) -> wp (on_env m) Q s.
Proof. intros Hm HQ. apply wp_zoom. unfold wp. destruct (Hm (env s)) as (a & e' & He). rewrite He. by apply HQ. Qed.
Lemma updp_wp i f (Q : unit -> kst -> Prop) s : Q tt (set_procs (alter f i (procs s)) s) -> wp (updp i f) Q s.
Proof. done. Qed.
Lemma getp_wp i p (Q : proc -> kst -> Prop) s : procs s !! i = Some p -> Q p s -> wp (getp i) Q s.
Proof. intros Hp HQ. apply wp_gets. by rewrite (list_lookup_total_correct _ _ _ Hp). Qed.

(** ** wait *)

(** The entry of a reaped child. *)
Definition freed (p : proc) : proc :=
  set_p_killed 0 (set_p_name [] (set_p_parent None (set_p_pid 0 (set_p_state UNUSED (set_p_kstack 0 p))))).
Definition is_child (me : nat) (p : proc) : bool := bool_decide (p_parent p = Some me).
Definition zombie_child (me : nat) (p : proc) : bool := is_child me p && is_state ZOMBIE p.

Lemma reap_wp i p (Q : Z -> kst -> Prop) s :
  (forall a, returns (s_kfree a)) -> (forall d, returns (s_freevm d)) -> procs s !! i = Some p ->
  (forall e, Q (p_pid p) (set_env e (set_procs (<[i := freed p]> (procs s)) s))) -> wp (reap i) Q s.
Proof.
  intros Hk Hf Hp HQ. unfold reap. apply wp_bind, (getp_wp _ p); [done|]. apply wp_bind, env_wp; [done|]. intros [] e1 _.
  apply wp_bind, updp_wp, wp_bind, env_wp; [done|]. intros [] e2 _.
  do 5 apply wp_bind, updp_wp. apply wp_ret. cbn. rewrite !list_alter_alter_eq, (alter_eq _ _ _ _ Hp). apply HQ.
Qed.

Lemma wait_scan_wp me n i hk (Q : bool + Z -> kst -> Prop) s :
  (forall a, returns (s_kfree a)) -> (forall d, returns (s_freevm d)) -> (i + n = length (procs s))%nat ->
  (match find_proc (zombie_child me) (drop i (procs s)) with
   | Some j => exists p, procs s !! (i + j)%nat = Some p /\
       forall e, Q (inr (p_pid p)) (set_env e (set_procs (<[(i + j)%nat := freed p]> (procs s)) s))
   | None => Q (inl (hk || existsb (is_child me) (drop i (procs s)))) s
   end) -> wp (wait_scan me (seq i n) hk) Q s.
Proof.
  intros Hk Hf. revert i hk. induction n as [|n IH]; intros i hk Hlen H; cbn [seq wait_scan].
  - rewrite drop_ge in H by lia. cbn in H. rewrite orb_false_r in H. by apply wp_ret.
  - destruct (lookup_lt_is_Some_2 (procs s) i) as [p Hp]; [lia|]. apply wp_bind, (getp_wp _ p); [done|].
    rewrite (drop_S _ _ _ Hp) in H. cbn [find_proc existsb] in H.
    change (zombie_child me p) with (is_child me p && is_state ZOMBIE p) in H.
    change (bool_decide (p_parent p = Some me)) with (is_child me p). destruct (is_child me p); cbn [negb andb orb] in *.
    + destruct (is_state ZOMBIE p).
      * rewrite Nat.add_0_r in H. destruct H as (p' & Hp' & HQ). simplify_eq. apply wp_bind, (reap_wp _ p'); try done.
      * apply IH; [lia|]. destruct (find_proc _ _) as [j|]; cbn [option_map] in H.
        -- by rewrite Nat.add_succ_r in H.
        -- by rewrite orb_true_r in H.
    + apply IH; [lia|]. destruct (find_proc _ _) as [j|]; cbn [option_map] in H; [by rewrite Nat.add_succ_r in H|done].
Qed.

(** What a call of [wait] by process [me] (entry [p]) must do. *)
Definition wait_result c me p s : Prop :=
  match find_proc (zombie_child me) (procs s) with
  | Some i => exists q s', procs s !! i = Some q /\ wait proc_chan c s = Ok (p_pid q) s' /\
      procs s' = <[i := freed q]> (procs s) /\ plock s' = false
  | None =>
      if negb (existsb (is_child me) (procs s)) || negb (p_killed p =? 0)
      then exists s', wait proc_chan c s = Ok (-1) s' /\ procs s' = procs s /\ plock s' = false
      else exists s', wait proc_chan c s = Sleep (proc_chan me) s' /\
        procs s' = <[me := set_p_state SLEEPING (set_p_chan (proc_chan me) p)]> (procs s) /\ plock s' = true
  end.

Lemma sched_wps {A} c me p (Q : A -> kst -> Prop) (R : Z -> kst -> Prop) s :
  holds c me s -> procs s !! me = Some p -> p_state p <> RUNNING -> R (p_chan p) s -> wps (sched c) Q R s.
Proof.
  intros Hh Hp Hst HR. unfold sched. apply wps_bind, wp_get, wps_bind, (myproc_wp _ me); [by apply holds_proc|].
  apply wps_bind, (getp_wp _ p); [done|]. destruct Hh as (-> & pc & -> & _ & -> & ->). cbn.
  unfold is_state. by rewrite bool_decide_false.
Qed.

(** C23. [wait] on every branch: it returns the pid of the first zombie child and
    frees its entry, and nothing else of the table changes; without zombie it
    returns -1 if there is no child or the caller was killed; otherwise the
    caller sleeps on its own entry, the channel that [exit] of a child wakes. *)
Theorem wait_spec c me p s :
  (forall a, returns (s_kfree a)) -> (forall d, returns (s_freevm d)) ->
  runs c me s -> length (procs s) = nproc -> procs s !! me = Some p -> wait_result c me p s.
Proof.
  intros Hk Hf Hrun Hlen Hme.
  assert (Hw : wps (wait proc_chan c)
    (fun r s' => plock s' = false /\ match find_proc (zombie_child me) (procs s) with
      | Some i => exists q, procs s !! i = Some q /\ r = p_pid q /\ procs s' = <[i := freed q]> (procs s)
      | None => r = -1 /\ procs s' = procs s /\ negb (existsb (is_child me) (procs s)) || negb (p_killed p =? 0) = true
      end)
    (fun ch s' => find_proc (zombie_child me) (procs s) = None /\ ch = proc_chan me /\ plock s' = true /\
      negb (existsb (is_child me) (procs s)) || negb (p_killed p =? 0) = false /\
      procs s' = <[me := set_p_state SLEEPING (set_p_chan (proc_chan me) p)]> (procs s)) s).
  { unfold wait. apply wps_bind, (myproc_wp _ me); [by apply runs_proc|]. apply wps_bind, (acquire_wp _ me); [done|].
    intros cs Hh. apply wps_bind, wait_scan_wp; [done|done|done|]. cbn [procs set_plock set_cpus]. rewrite drop_0.
    destruct (find_proc (zombie_child me) (procs s)) as [i|] eqn:Ef.
    - destruct (find_proc_some _ _ _ Ef) as (q & Hq & _). exists q. split; [done|]. intros e. apply wps_wp, wp_bind, (release_wp _ me); [done|].
      intros cs' Hr. apply wp_ret. split; [done|]. exists q. done.
    - cbn [orb]. apply wps_bind, (getp_wp _ p); [done|]. destruct (negb _ || negb _) eqn:Eb.
      + apply wps_wp, wp_bind, (release_wp _ me); [done|]. intros cs' Hr. apply wp_ret. done.
      + apply wps_bind_sleep. unfold sleep. apply wps_bind, wp_get. rewrite (holds_proc c me _ Hh).
        apply wps_bind, wp_ret. do 2 apply wps_bind, updp_wp.
        set (p' := set_p_state SLEEPING (set_p_chan (proc_chan me) p)).
        apply (sched_wps c me p'); [done| |done|].
        * cbn [procs set_procs set_plock set_cpus]. by rewrite !list_lookup_alter_eq, Hme.
        * split_and!; try done. cbn [procs set_procs set_plock set_cpus]. by rewrite list_alter_alter_eq, (alter_eq _ _ _ _ Hme). }
  unfold wps in Hw. unfold wait_result. destruct (wait proc_chan c s) as [r s'| |ch s'|]; [| |..]; try done.
  - destruct Hw as [Hl Hw]. destruct (find_proc _ _) as [i|].
    + destruct Hw as (q & Hq & -> & Hp). by exists q, s'.
    + destruct Hw as (-> & Hp & ->). by exists s'.
  - destruct Hw as (-> & -> & Hl & -> & Hp). by exists s'.
Qed.

(** ** exit *)

Definition adopt (me : nat) (ini : option nat) (p : proc) : proc := if is_child me p then set_p_parent ini p else p.
(** The table when the loop over the children has reached entry [i]. *)
Definition adopted me ini (i : nat) (l : list proc) : list proc :=
  imap (fun j p => if decide (j < i)%nat then adopt me ini p else p) (
    if existsb (zombie_child me) (take i l) then map (wake_proc (chan_of proc_chan ini)) l else l).

Lemma wake_child chan me p : is_child me (wake_proc chan p) = is_child me p.
Proof. unfold wake_proc. by destruct (_ && _). Qed.
Lemma wake_zstate chan p : is_state ZOMBIE (wake_proc chan p) = is_state ZOMBIE p.
Proof.
  unfold wake_proc. destruct (_ && _) eqn:Eb; [|done]. apply andb_true_iff in Eb as [Hs%bool_decide_eq_true _].
  unfold is_state. cbn. by rewrite Hs.
Qed.
Lemma wake_wake chan p : wake_proc chan (wake_proc chan p) = wake_proc chan p.
Proof. unfold wake_proc. destruct (is_state SLEEPING p && (p_chan p =? chan)) eqn:Eb; [done|by rewrite Eb]. Qed.
Lemma wake_adopt chan me ini p : wake_proc chan (adopt me ini p) = adopt me ini (wake_proc chan p).
Proof. unfold adopt. rewrite wake_child. destruct (is_child me p); [|done]. unfold wake_proc, is_state. cbn. by destruct (_ && _). Qed.

Lemma map_lookup {A B} (f : A -> B) (l : list A) i : map f l !! i = f <$> l !! i.
Proof. apply (list_lookup_fmap f l i). Qed.
Lemma adopted_lookup me ini i l j :
  adopted me ini i l !! j = (fun p => let q := if existsb (zombie_child me) (take i l) then wake_proc (chan_of proc_chan ini) p else p in
    if decide (j < i)%nat then adopt me ini q else q) <$> l !! j.
Proof.
  unfold adopted. rewrite list_lookup_imap. destruct (existsb _ _); [rewrite map_lookup|]; by destruct (l !! j).
Qed.

Lemma take_zombie me i l p : l !! i = Some p ->
  existsb (zombie_child me) (take (S i) l) = existsb (zombie_child me) (take i l) || zombie_child me p.
Proof. intros Hi. rewrite (take_S_r _ _ _ Hi), existsb_app. cbn. by rewrite orb_false_r. Qed.
Lemma adopted_step me ini i l p : l !! i = Some p ->
  adopted me ini (S i) l =
  (if zombie_child me p then map (wake_proc (chan_of proc_chan ini)) else fun l => l) (alter (adopt me ini) i (adopted me ini i l)).
Proof.
  intros Hi. apply list_eq. intros j. rewrite adopted_lookup, (take_zombie _ _ _ _ Hi).
  assert (Hr : (if zombie_child me p then map (wake_proc (chan_of proc_chan ini)) else fun l => l)
      (alter (adopt me ini) i (adopted me ini i l)) !! j =
    (if zombie_child me p then wake_proc (chan_of proc_chan ini) else fun p => p) <$> alter (adopt me ini) i (adopted me ini i l) !! j).
  { destruct (zombie_child me p); [apply map_lookup|]. by destruct (_ !! j). }
  rewrite Hr. destruct (decide (i = j)) as [<-|Hne].
  - rewrite list_lookup_alter_eq, adopted_lookup, Hi. cbn. f_equal. rewrite decide_True, decide_False by lia.
    destruct (existsb _ _), (zombie_child me p); cbn; rewrite ?wake_adopt, ?wake_wake; done.
  - rewrite list_lookup_alter_ne, adopted_lookup by done. destruct (l !! j) as [q|]; [|done]. cbn. f_equal.
    destruct (decide (j < i)%nat); [rewrite decide_True by lia|rewrite decide_False by lia];
      destruct (existsb _ _), (zombie_child me p); cbn; rewrite ?wake_adopt, ?wake_wake; done.
Qed.

Lemma abandon_wp me i l p s (Q : unit -> kst -> Prop) :
  procs s = adopted me (initproc s) i l -> l !! i = Some p ->
  Q tt (set_procs (adopted me (initproc s) (S i) l) s) -> wp (abandon proc_chan me i) Q s.
Proof.
  intros Hs Hi HQ. rewrite (adopted_step _ _ _ _ _ Hi) in HQ. unfold abandon. rewrite <-Hs in HQ.
  set (q := if existsb (zombie_child me) (take i l) then wake_proc (chan_of proc_chan (initproc s)) p else p).
  assert (Hq : procs s !! i = Some q).
  { rewrite Hs, adopted_lookup, Hi. cbn. by rewrite decide_False by lia. }
  assert (Hc : is_child me q = is_child me p) by (unfold q; destruct (existsb _ _); [apply wake_child|done]).
  assert (Hz : is_state ZOMBIE q = is_state ZOMBIE p) by (unfold q; destruct (existsb _ _); [apply wake_zstate|done]).
  apply wp_bind, (getp_wp _ q); [done|]. change (bool_decide (p_parent q = Some me)) with (is_child me q).
  unfold zombie_child in HQ. rewrite <-Hc, <-Hz in HQ.
  assert (Ha : alter (adopt me (initproc s)) i (procs s) =
    if is_child me q then alter (set_p_parent (initproc s)) i (procs s) else procs s).
  { rewrite (alter_eq _ _ _ _ Hq). unfold adopt. destruct (is_child me q); [by rewrite (alter_eq _ _ _ _ Hq)|by rewrite list_insert_id]. }
  rewrite Ha in HQ. destruct (is_child me q); cbn [andb] in HQ.
  - apply wp_bind, wp_gets, wp_bind, updp_wp. destruct (is_state ZOMBIE q); [by apply wp_modify|by apply wp_ret].
  - apply wp_ret. by destruct s.
Qed.

(** The calls that [exit] makes for the files and the directory of [p]:
    [fileclose] on every open file, in order, then [iput] inside a
    transaction. *)
Definition close_files (fs : list (option nat)) : M E unit := for_each (omap id fs) s_fileclose.
Definition exit_services (p : proc) (ip : nat) : M E unit :=
  close_files (p_ofile p) ;;; s_begin_op ;;; s_iput ip ;;; s_end_op.
Lemma close_files_snoc fs o e e' : close_files fs e = Ok tt e' ->
  close_files (fs ++ [o]) e = match o with Some f => s_fileclose f e' | None => Ok tt e' end.
Proof.
  unfold close_files. rewrite omap_app. intros H. revert e H. induction (omap id fs) as [|f l IH]; intros e H; cbn in *.
  - injection H as ->. destruct o as [f|]; [|done]. cbn. unfold bind, ret. by destruct (s_fileclose f e') as [[]| | |].
  - unfold bind in *. destruct (s_fileclose f e) as [[] e1| | |]; try done. by apply IH.
Qed.
(** The files and the directory closed. *)
Definition closed (p : proc) : proc := set_p_cwd None (set_p_ofile (replicate (Z.to_nat NOFILE) None) p).
(** The entry of the process that exits, and of the others, after [exit]. *)
Definition after_exit (me : nat) (p : proc) (ini : option nat) (l : list proc) : list proc :=
  let l := <[me := closed p]> l in
  let l := map (wake_proc (chan_of proc_chan (p_parent p))) l in
  let l := if existsb (zombie_child me) l then map (wake_proc (chan_of proc_chan ini)) l else l in
  alter (set_p_state ZOMBIE) me (map (adopt me ini) l).

Lemma close_wp me fd p s (Q : unit -> kst -> Prop) :
  (forall f, returns (s_fileclose f)) -> procs s !! me = Some p ->
  (forall e, match p_ofile p !! fd with Some (Some f) => s_fileclose f (env s) | _ => Ok tt (env s) end = Ok tt e ->
    Q tt (set_env e (set_procs (<[me := set_p_ofile (<[fd := None]> (p_ofile p)) p]> (procs s)) s))) ->
  wp (close_file me fd) Q s.
Proof.
  intros Hf Hp HQ. unfold close_file. apply wp_bind, (getp_wp _ p); [done|].
  assert (Hsame : <[fd := None]> (p_ofile p) = p_ofile p ->
    set_env (env s) (set_procs (<[me := set_p_ofile (<[fd := None]> (p_ofile p)) p]> (procs s)) s) = s).
  { intros ->. replace (set_p_ofile (p_ofile p) p) with p by (by destruct p). rewrite list_insert_id by done. by destruct s. }
  destruct (p_ofile p !! fd) as [[f|]|] eqn:Ef.
  - apply wp_bind, env_wp; [done|]. intros [] e He. apply updp_wp. cbn. rewrite (alter_eq _ _ _ _ Hp). by apply HQ.
  - specialize (HQ (env s) eq_refl). apply wp_ret. rewrite Hsame in HQ; [done|]. by apply list_insert_id.
  - specialize (HQ (env s) eq_refl). apply wp_ret. rewrite Hsame in HQ; [done|]. apply list_insert_ge. by apply lookup_ge_None.
Qed.

Lemma close_all_wp me p s (Q : unit -> kst -> Prop) :
  (forall f, returns (s_fileclose f)) -> procs s !! me = Some p -> length (p_ofile p) = Z.to_nat NOFILE ->
  (forall e, close_files (p_ofile p) (env s) = Ok tt e ->
    Q tt (set_env e (set_procs (<[me := set_p_ofile (replicate (Z.to_nat NOFILE) None) p]> (procs s)) s))) ->
  wp (for_each (seq 0 (Z.to_nat NOFILE)) (close_file me)) Q s.
Proof.
  intros Hf Hp Hlen HQ. eapply wp_mono.
  - apply (wp_for_seq _ (fun i s' => exists e fs, length fs = Z.to_nat NOFILE /\
      (forall j, (j < i)%nat -> fs !! j = Some None) /\ drop i fs = drop i (p_ofile p) /\
      close_files (take i (p_ofile p)) (env s) = Ok tt e /\
      s' = set_env e (set_procs (<[me := set_p_ofile fs p]> (procs s)) s))).
    + intros i s' Hi (e & fs & Hl & Hfs & Hd & He & ->).
      destruct (lookup_lt_is_Some_2 (p_ofile p) i) as [o Ho]; [lia|].
      assert (Ho' : fs !! i = Some o).
      { rewrite <-(Nat.add_0_r i), <-lookup_drop, Hd, lookup_drop, Nat.add_0_r. done. }
      apply (close_wp me i (set_p_ofile fs p)); [done|cbn; by eapply insert_look|]. cbn [p_ofile set_p_ofile env set_env]. rewrite Ho'.
      intros e' He'. exists e', (<[i := None]> fs).
      split_and!; [by rewrite length_insert| | | |cbn; by rewrite list_insert_insert_eq].
      2: { apply list_eq. intros k. rewrite !lookup_drop, list_lookup_insert_ne by lia.
        replace (S i + k)%nat with (i + S k)%nat by lia. by rewrite <-!lookup_drop, Hd. }
      2: { rewrite (take_S_r _ _ _ Ho), (close_files_snoc _ _ _ _ He). by destruct o. }
      intros j Hj. destruct (decide (i = j)) as [<-|]; [apply list_lookup_insert_eq; lia|].
      rewrite list_lookup_insert_ne by done. apply Hfs. lia.
    + exists (env s), (p_ofile p). split_and!; [done|lia|done|done|]. replace (set_p_ofile (p_ofile p) p) with p by (by destruct p).
      rewrite list_insert_id by done. by destruct s.
  - intros [] s' (e & fs & Hl & Hfs & _ & He & ->). rewrite take_ge in He by lia.
    replace fs with (replicate (Z.to_nat NOFILE) (@None nat)); [by apply HQ|].
    symmetry. apply list_eq. intros j. destruct (decide (j < Z.to_nat NOFILE)%nat).
    + rewrite Hfs by done. by rewrite lookup_replicate_2.
    + by rewrite !lookup_ge_None_2 by (rewrite ?length_replicate; lia).
Qed.

(** C24. [exit] calls [fileclose] on every open file and, in a transaction, [iput]
    on the current directory ([exit_services]: nothing else happens to the other
    components), and clears the descriptors and the directory; it wakes the parent if
    it sleeps in [wait], gives every child to init (waking it if one is already
    a zombie), leaves the caller a zombie, and gives up the CPU with
    [ptable.lock] held; init itself must not exit. *)
Theorem exit_spec c me p ip s :
  (forall f, returns (s_fileclose f)) -> returns s_begin_op -> (forall i, returns (s_iput i)) -> returns s_end_op ->
  runs c me s -> length (procs s) = nproc -> procs s !! me = Some p -> p_state p = RUNNING ->
  length (p_ofile p) = Z.to_nat NOFILE -> p_cwd p = Some ip ->
  (initproc s = Some me -> exit proc_chan c s = Panic "init exiting") /\
  (initproc s <> Some me -> exists ch s', exit proc_chan c s = Sleep ch s' /\ plock s' = true /\
    exit_services p ip (env s) = Ok tt (env s') /\
    procs s' = after_exit me p (initproc s) (procs s)).
Proof.
  intros Hf Hb Hi He Hrun Hlen Hme Hst Hof Hcwd. split.
  { intros Hini. unfold exit, bind, myproc, get. unfold bind. rewrite (runs_proc _ _ _ Hrun). cbn. rewrite Hini.
    by rewrite bool_decide_true. }
  intros Hini.
  enough (Hw : wps (exit proc_chan c) (fun _ _ => False) (fun _ s' => plock s' = true /\
    exit_services p ip (env s) = Ok tt (env s') /\ procs s' = after_exit me p (initproc s) (procs s)) s).
  { unfold wps in Hw. destruct (exit proc_chan c s) as [| |ch s'|]; try done. by exists ch, s'. }
  unfold exit. apply wps_bind, (myproc_wp _ me); [by apply runs_proc|]. apply wps_bind, wp_gets.
  rewrite bool_decide_false by done.
  apply wps_bind, (close_all_wp me p); [done..|]. intros e1 He1.
  apply wps_bind, env_wp; [done|]. intros [] e2 He2.
  set (p1 := set_p_ofile (replicate (Z.to_nat NOFILE) None) p).
  apply wps_bind, (getp_wp _ p1); [cbn [procs set_env set_procs]; by eapply insert_look|]. cbn [p_cwd p1 set_p_ofile]. rewrite Hcwd.
  apply wps_bind, env_wp; [done|]. intros [] e3 He3. apply wps_bind, env_wp; [done|]. intros [] e4 He4.
  assert (Hsv : exit_services p ip (env s) = Ok tt e4).
  { unfold exit_services, bind. rewrite He1. cbn [env set_env set_procs] in He2, He3, He4. by rewrite He2, He3. }
  apply wps_bind, updp_wp. cbn [procs set_env set_procs].
  rewrite (alter_eq _ me p1), list_insert_insert_eq by (by eapply insert_look). change (set_p_cwd None p1) with (closed p).
  apply wps_bind, (acquire_wp _ me); [done|]. intros cs Hh.
  apply wps_bind, (getp_wp _ (closed p)); [cbn [procs set_env set_procs set_plock set_cpus]; by eapply insert_look|].
  apply wps_bind, wp_modify. change (p_parent (closed p)) with (p_parent p). cbn [procs set_env set_procs set_plock set_cpus].
  set (l := map (wake_proc (chan_of proc_chan (p_parent p))) (<[me := closed p]> (procs s))).
  assert (Hl : length l = nproc) by (unfold l; by rewrite length_map, length_insert).
  match goal with |- wps _ _ _ ?st => set (s5 := st) end.
  apply wps_bind. eapply wp_mono.
  - apply (wp_for_seq _ (fun i s' => s' = set_procs (adopted me (initproc s) i l) s5)).
    + intros i s' Hin ->. destruct (lookup_lt_is_Some_2 l i) as [q Hq]; [lia|]. by apply (abandon_wp me i l q).
    + unfold adopted. rewrite take_0. cbn. replace (imap _ l) with l; [done|].
      apply list_eq. intros j. rewrite list_lookup_imap. by destruct (l !! j).
  - intros [] s6 ->. apply wps_bind, updp_wp, wps_bind_sleep. cbn [procs set_procs].
    assert (Hfin : alter (set_p_state ZOMBIE) me (adopted me (initproc s) nproc l) = after_exit me p (initproc s) (procs s)).
    { unfold after_exit. fold l. f_equal. apply list_eq. intros j. rewrite adopted_lookup, map_lookup, take_ge by lia.
      destruct (l !! j) as [q|] eqn:Hj.
      - apply lookup_lt_Some in Hj as Hjl. cbn. rewrite decide_True by lia.
        destruct (existsb _ _); [rewrite map_lookup|]; by rewrite Hj.
      - destruct (existsb _ _); [rewrite map_lookup|]; by rewrite Hj. }
    rewrite Hfin.
    assert (Hz : exists q, after_exit me p (initproc s) (procs s) !! me = Some q /\ p_state q <> RUNNING).
    { rewrite <-Hfin, list_lookup_alter_eq, adopted_lookup. unfold l. rewrite map_lookup, (insert_look _ _ _ _ Hme).
      cbn. eexists. split; [done|]. done. }
    destruct Hz as (q & Hq & Hqs). by apply (sched_wps c me q).
Qed.

(** ** The scheduler *)

(** Process [j] of the table is ready to run. *)
Definition ready (j : nat) s : Prop := exists p, procs s !! j = Some p /\ p_state p = RUNNABLE.
(** CPU [c] holds [ptable.lock], and no other lock. *)
Definition locked (c : nat) s : Prop :=
  plock s = true /\ exists pc, cpus s !! c = Some pc /\ ncli (pc_cpu pc) = 1 /\ iflag (pc_cpu pc) = false.
(** The scheduler of CPU [c] has just switched to process [i]. *)
Definition on_cpu (c i : nat) s : Prop :=
  locked c s /\ cpus s !! c ≫= pc_proc = Some i /\ p_state <$> procs s !! i = Some RUNNING.

Lemma dispatch_wp c i s (Q : unit -> kst -> Prop) : (forall d k, returns (s_switchuvm d k)) ->
  locked c s -> (i < length (procs s))%nat ->
  (forall e cs, let s' := set_procs (alter (set_p_state RUNNING) i (procs s)) (set_env e (set_cpus cs s)) in
     on_cpu c i s' -> Q tt s') -> wp (dispatch c i) Q s.
Proof.
  intros Hsw (Hl & pc & Hc & Hn) [p Hp]%lookup_lt_is_Some_2 HQ. unfold dispatch, updc.
  apply wp_bind, wp_modify, wp_bind, (getp_wp _ p); [done|].
  apply wp_bind, env_wp; [done|]. intros [] e _. apply updp_wp, HQ.
  split_and!; cbn [cpus procs set_cpus set_env set_procs]; rewrite ?list_lookup_alter_eq, ?Hc, ?Hp; try done.
  split; [done|]. eexists. cbn [cpus set_cpus set_env set_procs]. by rewrite list_lookup_alter_eq, Hc.
Qed.
Lemma undispatch_wp c s (Q : unit -> kst -> Prop) : returns s_switchkvm -> locked c s ->
  (forall e cs, let s' := set_cpus cs (set_env e s) in locked c s' -> Q tt s') -> wp (undispatch c) Q s.
Proof.
  intros Hsw (Hl & pc & Hc & Hn) HQ. unfold undispatch, updc. apply wp_bind, env_wp; [done|]. intros [] e _. apply wp_modify, HQ.
  split; [done|]. eexists. cbn [cpus set_cpus set_env]. by rewrite list_lookup_alter_eq, Hc.
Qed.

End spec.
