(* ===== verification/ProcSched.v ===== *)
(** * The scheduler on one CPU

    What a process does between two passes through the scheduler is any
    sequence of operations of proc.c; meanwhile the other ready processes stay
    ready.  So a turn of the scheduler's loop runs every one of them. *)

From Stdlib Require Import Sorting.Sorted.
From stdpp Require Import relations.
From S2P Require Import Prelude Params Spinlock Proc ProcInv ProcSpec.

Section sched.
Context {E : Type} `{!Services E}.
Context (forkret_at trapret_at : Z) (proc_chan : nat -> Z).
Implicit Types (s : kst (E := E)).

(** ** The turn of a process *)

(** A process going on after [dispatch]: where it went to sleep, was created or
    yielded. *)
Definition goes_on (c : nat) (m : M (kst (E := E)) unit) : Prop :=
  m = sleep_resume c (OtherLock (ret tt)) \/ m = forkret c \/ m = release c.
(** An operation of the process on CPU [c] that returns to it. *)
Inductive op (c : nat) : kst -> kst -> Prop :=
| op_fork r s s' : fork forkret_at trapret_at c s = Ok r s' -> op c s s'
| op_wait r s s' : wait proc_chan c s = Ok r s' -> op c s s'
| op_wakeup chan s s' : wakeup c chan s = Ok tt s' -> op c s s'
| op_kill pid r s s' : kill c pid s = Ok r s' -> op c s s'
| op_grow n r s s' : growproc c n s = Ok r s' -> op c s s'
| op_other e s : op c s (set_env e s).
(** An operation that gives up the CPU. *)
Inductive stops (c : nat) : kst -> kst -> Prop :=
| st_exit ch s s' : exit proc_chan c s = Sleep ch s' -> stops c s s'
| st_wait ch s s' : wait proc_chan c s = Sleep ch s' -> stops c s s'
| st_sleep ch chan u s s' :
    (updc c (fun pc => set_pc_cpu (pushcli (pc_cpu pc)) pc) ;;; sleep c chan (OtherLock u)) s = Sleep ch s' -> stops c s s'
| st_yield ch s s' : yield c s = Sleep ch s' -> stops c s s'.
(** From the switch to the process to the switch back in [sched], with only
    [ptable.lock] held. *)
Inductive turn (c : nat) : kst -> kst -> Prop :=
| a_turn m s s1 s2 s' : goes_on c m -> m s = Ok tt s1 -> rtc (op c) s1 s2 -> stops c s2 s' -> locked c s' -> turn c s s'.

(** ** The others stay ready *)

Section keeps.
Context (c i j n : nat) (Hij : j <> i).
(** Process [i] is on the CPU and process [j] is ready. *)
Definition keeps s : Prop := cpus s !! c ≫= pc_proc = Some i /\ length (procs s) = n /\ ready j s.

Lemma keeps_alter k f s : k <> j \/ (forall p, p_state (f p) = p_state p) -> keeps s -> keeps (set_procs (alter f k (procs s)) s).
Proof.
  intros Hk (Hc & Hn & p & Hp & Hr). split_and!; [done|cbn; by rewrite length_alter|].
  destruct (decide (k = j)) as [->|Hne].
  - destruct Hk as [|Hf]; [done|]. exists (f p). cbn. by rewrite list_lookup_alter_eq, Hp, Hf.
  - exists p. cbn. by rewrite list_lookup_alter_ne.
Qed.
Lemma updp_keeps k f : k <> j \/ (forall p, p_state (f p) = p_state p) -> stable keeps (updp k f).
Proof. intros Hk. apply stable_modify. intros s. by apply keeps_alter. Qed.
Lemma updc_keeps c' f : (forall pc, pc_proc (f pc) = pc_proc pc) -> stable keeps (updc (E := E) c' f).
Proof.
  intros Hf. apply stable_modify. intros s (Hc & H). split; [|done]. cbn.
  destruct (decide (c' = c)) as [->|Hne]; [|by rewrite list_lookup_alter_ne].
  rewrite list_lookup_alter_eq. destruct (cpus s !! c); [|done]. cbn. by rewrite Hf.
Qed.
Lemma env_keeps {A} (m : M E A) : stable keeps (on_env m).
Proof. intros s Hs. by apply may_zoom. Qed.
Lemma wakeup1_keeps chan : stable keeps (wakeup1 (E := E) chan).
Proof.
  apply stable_modify. intros s (Hc & Hn & p & Hp & Hr). split_and!; [done|cbn; by rewrite length_map|].
  exists p. cbn. split; [|done]. change (map ?f ?l) with (f <$> l). rewrite list_lookup_fmap, Hp. cbn. unfold wake_proc, is_state.
  by rewrite Hr.
Qed.
Lemma popcli_keeps c' : stable keeps (popcli_on (E := E) c').
Proof. unfold popcli_on. stable. by apply updc_keeps. Qed.
Lemma acquire_keeps c' : stable keeps (acquire (E := E) c').
Proof. unfold acquire. stable; [by apply updc_keeps|by apply stable_modify]. Qed.
#[local] Hint Resolve env_keeps wakeup1_keeps popcli_keeps acquire_keeps : stable.
Lemma release_keeps c' : stable keeps (release (E := E) c').
Proof. unfold release. stable. by apply stable_modify. Qed.
Lemma sched_keeps {A} c' : stable keeps (sched (E := E) (A := A) c').
Proof. unfold sched, myproc, getp. stable. by intros s Hs. Qed.
#[local] Hint Resolve release_keeps sched_keeps : stable.
(** The process on the CPU. *)
Lemma myproc_keeps {A} (k : nat -> M kst A) : stable keeps (k i) -> stable keeps (bind (myproc c) k).
Proof. intros Hk s Hs. unfold myproc. apply may_bind, may_bind, may_get. rewrite (proj1 Hs). by apply Hk. Qed.
Lemma mine f : stable keeps (updp i f).
Proof. apply updp_keeps. by left. Qed.
#[local] Hint Resolve mine : stable.

Lemma sleep_keeps chan lk : stable keeps (sleep c chan lk).
Proof.
  intros s Hs. unfold sleep. apply may_bind, may_get. rewrite (proj1 Hs). revert s Hs.
  change (stable keeps ((match lk with
    | NoLock => panic "sleep without lk" | PtableLock => ret tt
    | OtherLock unlock => acquire c ;;; on_env unlock ;;; popcli_on c end) ;;;
    updp i (set_p_chan chan) ;;; updp i (set_p_state SLEEPING) ;;; sched (A := unit) c)).
  stable.
Qed.
#[local] Hint Resolve sleep_keeps : stable.
Lemma yield_keeps : stable keeps (yield (E := E) c).
Proof. unfold yield, getp. apply myproc_keeps. stable. by apply stable_modify. Qed.
Lemma resume_keeps m : goes_on c m -> stable keeps m.
Proof.
  intros [->|[->| ->]]; [| |stable].
  - unfold sleep_resume. apply myproc_keeps. stable.
  - unfold forkret. stable. by apply stable_modify.
Qed.
Lemma kill_keeps pid : stable keeps (kill (E := E) c pid).
Proof.
  unfold kill. stable; [by apply updp_keeps; right|]. apply stable_modify. intros s (Hc & Hn & p & Hp & Hr).
  destruct (decide (n0 = j)) as [->|Hne]; [|by apply (keeps_alter n0); [left|split_and!; [done..|exists p]]].
  split_and!; [done|cbn; by rewrite length_alter|]. exists p. cbn. rewrite list_lookup_alter_eq, Hp. cbn. unfold is_state. by rewrite Hr.
Qed.
Lemma wakeup_keeps chan : stable keeps (wakeup (E := E) c chan).
Proof. unfold wakeup. stable. Qed.
Lemma grow_keeps d : stable keeps (growproc (E := E) c d).
Proof. unfold growproc, getp. apply myproc_keeps. stable. Qed.
Lemma reap_keeps k : k <> j -> stable keeps (reap (E := E) k).
Proof. intros Hk. unfold reap, getp. stable; apply updp_keeps; by left. Qed.
Lemma wait_scan_keeps me l hk : stable keeps (wait_scan (E := E) me l hk).
Proof.
  revert hk. induction l as [|k l IH]; intros hk; cbn [wait_scan]; [stable|]. intros s Hs.
  apply may_bind, may_gets. destruct (negb _); [by apply IH|]. destruct (is_state ZOMBIE _) eqn:Ez; [|by apply IH].
  assert (Hk : k <> j).
  { intros ->. destruct Hs as (_ & _ & p & Hp & Hr). rewrite (list_lookup_total_correct _ _ _ Hp) in Ez.
    unfold is_state in Ez. by rewrite Hr in Ez. }
  revert s Hs Ez. enough (Hm : stable keeps (pid <-- reap k ;; ret (inr (A := bool) pid))) by (intros; by apply Hm).
  apply stable_bind; [by apply reap_keeps|stable].
Qed.
#[local] Hint Resolve wait_scan_keeps : stable.
Lemma wait_keeps : stable keeps (wait proc_chan c).
Proof. unfold wait, getp. apply myproc_keeps. stable. Qed.
Lemma turn_close_keeps fd : stable keeps (close_file i fd).
Proof. unfold close_file, getp. stable. Qed.
Lemma abandon_keeps k : stable keeps (abandon proc_chan i k).
Proof. unfold abandon, getp. stable. apply updp_keeps. by right. Qed.
Lemma each_keeps {A} (body : A -> M kst unit) l : (forall x, stable keeps (body x)) -> stable keeps (for_each l body).
Proof. intros Hb s Hs. apply may_for_each; [|done]. intros x s' _. apply Hb. Qed.
#[local] Hint Resolve turn_close_keeps abandon_keeps each_keeps : stable.
Lemma exit_keeps : stable keeps (exit proc_chan c).
Proof. unfold exit, getp. apply myproc_keeps. stable. Qed.

(** [fork] makes its child in an unused entry. *)
Lemma then_keeps {A B} (m : M kst A) (k : A -> M kst B) (Q : B -> kst -> Prop) s :
  stable keeps m -> keeps s -> (forall a s', keeps s' -> may (k a) Q keeps s') -> may (bind m k) Q keeps s.
Proof. intros Hm Hs Hk. apply may_bind. eapply may_mono; [by apply Hm| |done]. intros a s'. apply Hk. Qed.
Lemma allocproc_keeps s : keeps s ->
  may (allocproc forkret_at trapret_at c) (fun o s' => keeps s' /\ forall k, o = Some k -> k <> j) keeps s.
Proof.
  intros Hs. unfold allocproc. apply then_keeps; [by apply acquire_keeps|done|]. intros [] s1 H1.
  apply may_bind, may_get. destruct (find_proc _ _) as [k|] eqn:Ef.
  - destruct (find_proc_some _ _ _ Ef) as (q & Hq & Hu).
    assert (Hk : k <> j).
    { intros ->. destruct H1 as (_ & _ & p & Hp & Hr). simplify_eq. unfold is_state in Hu. by rewrite Hr in Hu. }
    assert (Hm : forall f, stable keeps (updp k f)) by (intros; apply updp_keeps; by left).
    do 2 (apply then_keeps; [apply Hm|done|intros [] ? ?]). apply then_keeps; [by apply stable_modify|done|intros [] ? ?].
    apply then_keeps; [apply release_keeps|done|intros [] ? ?]. apply then_keeps; [apply env_keeps|done|intros kst ? ?].
    apply then_keeps; [apply Hm|done|intros [] ? ?]. destruct (kst =? 0).
    + apply then_keeps; [apply Hm|done|]. intros [] ? ?. by apply may_ret.
    + do 4 (apply then_keeps; [apply Hm|done|intros [] ? ?]). apply may_ret. split; [done|]. by intros k' [= <-].
  - apply then_keeps; [apply release_keeps|done|]. intros [] s' Hs'. by apply may_ret.
Qed.
Lemma fork_keeps : stable keeps (fork forkret_at trapret_at c).
Proof.
  intros s Hs. unfold fork. apply may_bind. eapply may_mono; [by apply allocproc_keeps| |done].
  intros [np|] s1 [H1 Hnp]; [|by apply may_ret]. specialize (Hnp np eq_refl).
  assert (Hm : forall f, stable keeps (updp np f)) by (intros; apply updp_keeps; by left).
  assert (Hd : forall me fd, stable keeps (dup_file (E := E) me np fd)) by (intros; unfold dup_file, getp; stable).
  revert s1 H1. apply myproc_keeps. unfold getp. stable.
Qed.

Lemma op_keeps s s' : op c s s' -> keeps s -> keeps s'.
Proof.
  destruct 1 as [r s s' H|r s s' H|chan s s' H|pid r s s' H|d r s s' H|e s]; intros Hs; [..|done].
  - exact (may_ok _ _ _ _ _ _ (fork_keeps s Hs) H).
  - exact (may_ok _ _ _ _ _ _ (wait_keeps s Hs) H).
  - exact (may_ok _ _ _ _ _ _ (wakeup_keeps chan s Hs) H).
  - exact (may_ok _ _ _ _ _ _ (kill_keeps pid s Hs) H).
  - exact (may_ok _ _ _ _ _ _ (grow_keeps d s Hs) H).
Qed.
Lemma stops_keeps s s' : stops c s s' -> keeps s -> keeps s'.
Proof.
  destruct 1 as [ch s s' H|ch s s' H|ch chan u s s' H|ch s s' H]; intros Hs.
  - exact (may_sleep _ _ _ _ _ _ (exit_keeps s Hs) H).
  - exact (may_sleep _ _ _ _ _ _ (wait_keeps s Hs) H).
  - refine (may_sleep _ (fun _ _ => True) keeps _ _ _ _ H). apply then_keeps; [by apply updc_keeps|done|].
    intros [] s1 H1. eapply may_mono; [by apply sleep_keeps|done|done].
  - exact (may_sleep _ _ _ _ _ _ (yield_keeps s Hs) H).
Qed.
Lemma turn_keeps s s' : turn c s s' -> keeps s -> keeps s'.
Proof.
  destruct 1 as [m s s1 s2 s' Hm H1 Hops Hst _]. intros Hs.
  pose proof (may_ok _ _ _ _ _ _ (resume_keeps m Hm s Hs) H1) as Hs1. cbv beta in Hs1. eapply stops_keeps; [done|].
  clear Hst H1. revert Hs1. induction Hops; intros; [done|]. by apply IHHops, (op_keeps x).
Qed.
End keeps.

(** ** A turn of the scheduler *)

Section fair.
(** [run i] is what happens on the CPU from the switch to process [i] until it
    switches back. *)
Context (run : nat -> M (kst (E := E)) unit) (c : nat).
(** Every process comes back to the scheduler (the timer interrupt makes it
    yield), after a sequence of operations of its own. *)
Definition comes_back : Prop := forall i s, on_cpu c i s -> exists s', run i s = Ok tt s' /\ turn c s s'.
(** The processes [tr] are ready in turn and have their turn. *)
Inductive served : list nat -> kst -> kst -> Prop :=
| served_nil s : served [] s s
| served_cons i tr s s1 s2 s3 s' : ready i s -> dispatch c i s = Ok tt s1 -> run i s1 = Ok tt s2 -> undispatch c s2 = Ok tt s3 ->
    served tr s3 s' -> served (i :: tr) s s'.

Hypothesis Hu : forall d k, returns (s_switchuvm d k).
Hypothesis Hk : returns s_switchkvm.
Hypothesis Hback : comes_back.

Lemma turn_locked s s' : turn c s s' -> locked c s'.
Proof. by destruct 1. Qed.
(** A process has its turn. *)
Lemma serve i s : locked c s -> ready i s ->
  exists s1 s2 s3, dispatch c i s = Ok tt s1 /\ run i s1 = Ok tt s2 /\ undispatch c s2 = Ok tt s3 /\ locked c s3 /\
    forall j, j <> i -> ready j s -> ready j s3.
Proof.
  intros Hl Hr. pose proof Hr as (p & Hp & _). pose proof (lookup_lt_Some _ _ _ Hp) as Hi.
  assert (Hd : wp (dispatch c i) (fun _ s1 => on_cpu c i s1 /\ forall j, j <> i -> ready j s -> keeps c i j (length (procs s)) s1) s).
  { apply dispatch_wp; [done..|]. intros e cs s1 Hon. split; [done|]. intros j Hj (q & Hq & Hqr).
    split_and!; [apply Hon|unfold s1; cbn; by rewrite length_alter|]. exists q. split; [|done]. unfold s1. cbn. by rewrite list_lookup_alter_ne. }
  unfold wp in Hd. destruct (dispatch c i s) as [[] s1| | |]; try done. destruct Hd as [Hon Hkeep].
  destruct (Hback i s1 Hon) as (s2 & Hrun & Ht). pose proof (turn_locked _ _ Ht) as Hl2.
  assert (Hud : wp (undispatch c) (fun _ s3 => locked c s3 /\ procs s3 = procs s2) s2).
  { apply undispatch_wp; [done..|]. intros e cs s3 Hl3. done. }
  unfold wp in Hud. destruct (undispatch c s2) as [[] s3| | |] eqn:Eu; try done. destruct Hud as [Hl3 Hp3].
  exists s1, s2, s3. split_and!; [done..|]. intros j Hj Hrj.
  destruct (turn_keeps c i j (length (procs s)) Hj s1 s2 Ht (Hkeep j Hj Hrj)) as (_ & Hlen & q & Hq & Hqr).
  exists q. by rewrite Hp3.
Qed.

Lemma scan_wp n i ran s : locked c s ->
  wp (scheduler_scan run c (seq i n) ran) (fun b s' => exists tr, served tr s s' /\ locked c s' /\
    Sorted lt tr /\ Forall (le i) tr /\ (forall j, (i <= j < i + n)%nat -> ready j s -> j ∈ tr) /\
    b = ran || negb (bool_decide (tr = []))) s.
Proof.
  revert i ran s. induction n as [|n IH]; intros i ran s Hl.
  { exists []. split_and!; [constructor|done|constructor|constructor|lia|by rewrite orb_false_r]. }
  cbn [seq scheduler_scan]. apply wp_bind, wp_gets. unfold is_state. case_bool_decide as Hst.
  - assert (Hr : ready i s).
    { rewrite list_lookup_total_alt in Hst. destruct (procs s !! i) as [p|] eqn:Hp; [by exists p|done]. }
    destruct (serve i s Hl Hr) as (s1 & s2 & s3 & E1 & E2 & E3 & Hl3 & Hkeep).
    unfold wp, bind at 1. rewrite E1. unfold bind at 1. rewrite E2. unfold bind at 1. rewrite E3.
    eapply wp_mono; [apply IH, Hl3|]. intros b s' (tr & Hsv & Hl' & Hs & Hge & Hin & ->).
    exists (i :: tr). split_and!; [by eapply served_cons|done| | | |by rewrite orb_true_r].
    + constructor; [done|]. destruct Hge; constructor. lia.
    + constructor; [lia|]. eapply Forall_impl; [done|]. cbn. lia.
    + intros j Hj Hrj. destruct (decide (j = i)) as [->|]; [by left|]. right. apply Hin; [lia|]. by apply Hkeep.
  - eapply wp_mono; [by apply IH|]. intros b s' (tr & Hsv & Hl' & Hs & Hge & Hin & ->).
    exists tr. split_and!; try done; [eapply Forall_impl; [done|]; cbn; lia|].
    intros j Hj Hrj. apply Hin; [|done]. destruct (decide (j = i)) as [->|]; [|lia].
    destruct Hrj as (q & Hq & Hqs). rewrite (list_lookup_total_correct _ _ _ Hq) in Hst. congruence.
Qed.

Lemma wp_after {A} (m1 m2 : M (kst (E := E)) unit) (k : M kst A) Q s s1 :
  (m1 ;;; m2) s = Ok tt s1 -> wp k Q s1 -> wp (m1 ;;; m2 ;;; k) Q s.
Proof. unfold wp, bind. intros H. destruct (m1 s) as [[] s0| | |]; try done. by rewrite H. Qed.
Lemma release_locked s : locked c s -> exists s', release c s = Ok tt s' /\ plock s' = false.
Proof.
  intros (Hl & pc & Hc & Hn & Hi). unfold release, popcli_on, bind, gets, modify, get. rewrite Hl. cbn [negb cpus set_plock].
  rewrite Hc. unfold popcli. rewrite Hi, Hn. by eexists.
Qed.
Lemma take_lock s : plock s = false -> ncli ∘ pc_cpu <$> cpus s !! c = Some 0 ->
  exists s1, (sti_on c ;;; acquire c) s = Ok tt s1 /\ locked c s1 /\ procs s1 = procs s.
Proof.
  intros Hl Hc. destruct (cpus s !! c) as [pc|] eqn:Ec; [|done]. injection Hc as Hn. cbn in Hn.
  unfold sti_on, acquire, updc, bind, modify, gets. cbn [plock set_cpus]. rewrite Hl. eexists. split_and!; [done| |done].
  split; [done|]. eexists. cbn [cpus set_plock set_cpus]. rewrite !list_lookup_alter_eq, Ec. split; [done|]. cbn. by rewrite Hn.
Qed.

(** C25. On a machine with one CPU (between the switch to a process and the
    switch back only that process acts), if every process that is switched to
    comes back to the scheduler after some operations of proc.c, one turn of the
    scheduler's loop is fair: it terminates; under [ptable.lock] it gives a turn
    to processes in table order, each ready and each at most once, among them
    every process that was ready when the turn began; it reports an idle turn (on
    which the CPU halts) exactly when it ran none; and it leaves [ptable.lock]
    free.  With several CPUs another one may take a ready process first. *)
Theorem scheduler_fair s :
  plock s = false -> length (procs s) = nproc -> ncli ∘ pc_cpu <$> cpus s !! c = Some 0 ->
  wp (scheduler_turn run c) (fun b s' => exists tr s1 s2,
    (sti_on c ;;; acquire c) s = Ok tt s1 /\ served tr s1 s2 /\ release c s2 = Ok tt s' /\
    Sorted lt tr /\ (forall j, ready j s -> j ∈ tr) /\ b = negb (bool_decide (tr = [])) /\ plock s' = false) s.
Proof.
  intros Hl Hlen Hc. destruct (take_lock s Hl Hc) as (s1 & E1 & Hlk & Hp1).
  apply (wp_after _ _ _ _ _ _ E1), wp_bind. eapply wp_mono; [apply (scan_wp nproc 0 false s1 Hlk)|].
  intros b s2 (tr & Hsv & Hl2 & Hs & _ & Hin & ->). destruct (release_locked s2 Hl2) as (s' & E2 & Hf).
  apply wp_bind. unfold wp at 1. rewrite E2. apply wp_ret.
  exists tr, s1, s2. split_and!; try done. intros j (p & Hp & Hr). apply Hin.
  - apply lookup_lt_Some in Hp. rewrite <-Hlen. lia.
  - exists p. by rewrite Hp1.
Qed.
End fair.
End sched.
