(* ===== verification/ProcDemo.v ===== *)
(** * A small kernel, to run the process table on concrete states

    The services of the other components are instantiated by ones that always
    succeed: addresses come from a counter. *)

From Stdlib Require Import Sorting.Sorted.
From stdpp Require Import relations.
From S2P Require Import Prelude Params Spinlock Proc ProcInv ProcSpec ProcSched.

Definition fresh : M Z Z := fun n => Ok n (n + PGSIZE).
Definition demo_services : Services Z.
Proof.
  refine {| s_kalloc := fresh; s_kfree := fun _ => ret tt; s_setupkvm := fresh; s_inituvm := fun _ => ret tt;
    s_allocuvm := fun _ _ n => ret n; s_deallocuvm := fun _ _ n => ret n; s_copyuvm := fun _ _ => fresh;
    s_freevm := fun _ => ret tt; s_switchuvm := fun _ _ => ret tt; s_switchkvm := ret tt;
    s_filedup := fun f => ret f; s_fileclose := fun _ => ret tt; s_idup := fun i => ret i; s_iput := fun _ => ret tt;
    s_namei := fun _ => ret (Some 0%nat); s_begin_op := ret tt; s_end_op := ret tt;
    s_iinit := fun _ => ret tt; s_initlog := fun _ => ret tt |}; intros; unfold awake; done.
Defined.
#[local] Existing Instance demo_services.

Definition demo_chan (i : nat) : Z := 1000 + Z.of_nat i.
Definition idle_cpu : pcpu := mkpcpu (mkcpu 0 true true) None.
(** Two idle CPUs, and nothing in the table. *)
Definition demo0 : kst := mkkst (replicate nproc zero_proc) 1 None false [idle_cpu; idle_cpu] true 0 [] 0x400000.
Definition after {S A} (m : M S A) (s : S) : S := match m s with Ok _ s' | Sleep _ s' => s' | _ => s end.
(** The first process is made, runs on CPU 0, forks and waits; then its child
    runs on CPU 1, and exits. *)
Definition demo1 : kst := after (userinit 1 2 0) demo0.
Definition demo2 : kst := after (resume_new 0 0) demo1.
Definition demo3 : kst := after (fork 1 2 0) demo2.
Definition demo4 : kst := after (wait demo_chan 0) demo3.
Definition demo5 : kst := after (switch_out 0) demo4.
Definition demo6 : kst := after (resume_new 1 1) demo5.
Definition demo7 : kst := after (exit demo_chan 1) demo6.
Definition demo8 : kst := after (switch_out 1) demo7.

Lemma demo_booted : booted demo0.
Proof. split; [done..|]. repeat constructor. Qed.
Ltac next s := eapply (rtc_l _ _ s).
Lemma demo_run : rtc (kstep 1 2 demo_chan) demo1 demo8.
Proof.
  next demo2. { eapply (k_run _ _ _ 0 0 (resume_new 0 0)); [done| |by right; left|vm_compute; reflexivity]. eexists. split; vm_compute; reflexivity. }
  next demo3. { eapply (k_fork _ _ _ 0); [vm_compute; done|vm_compute; reflexivity]. }
  next demo5. { eapply (k_wait_sleep _ _ _ 0 _ _ demo4); vm_compute; reflexivity. }
  next demo6. { eapply (k_run _ _ _ 1 1 (resume_new 1 1)); [done| |by right; left|vm_compute; reflexivity]. eexists. split; vm_compute; reflexivity. }
  next demo8. { eapply (k_exit _ _ _ 1 _ _ demo7); vm_compute; reflexivity. }
  apply rtc_refl.
Qed.

Lemma ptable_invariant_witness :
  p_state <$> procs demo8 !! 1%nat = Some ZOMBIE /\
  (exists n q, p_parent (procs demo8 !!! 1%nat) = Some n /\ procs demo8 !! n = Some q /\ alive (p_state q)).
Proof.
  split; [vm_compute; reflexivity|].
  assert (Hu : userinit 1 2 0 demo0 = Ok tt demo1) by (vm_compute; reflexivity).
  destruct (ptable_invariant 1 2 demo_chan 0 demo0 demo1 demo8 demo_booted Hu demo_run) as (_ & _ & _ & Hpar & _).
  eapply (Hpar 1%nat); vm_compute; [reflexivity|discriminate|discriminate].
Defined.

(** The child exits in [demo6] ... *)
Lemma exit_spec_witness : exists ch s', exit demo_chan 1 demo6 = Sleep ch s' /\ plock s' = true /\
  exit_services (procs demo6 !!! 1%nat) 0 (env demo6) = Ok tt (env s') /\
  procs s' = after_exit demo_chan 1 (procs demo6 !!! 1%nat) (Some 0%nat) (procs demo6).
Proof.
  refine (proj2 (exit_spec demo_chan 1 1 (procs demo6 !!! 1%nat) 0 demo6 _ _ _ _ _ _ _ _ _ _) _).
  - intros f e. by eexists _, _.
  - intros e. by eexists _, _.
  - intros i e. by eexists _, _.
  - intros e. by eexists _, _.
  - split; [done|]. eexists. split; [vm_compute; reflexivity|done].
  - vm_compute; reflexivity.
  - vm_compute; reflexivity.
  - vm_compute; reflexivity.
  - vm_compute; reflexivity.
  - vm_compute; reflexivity.
  - vm_compute. discriminate.
Defined.
(** ... and then the first process, on CPU 0 again, takes its pid. *)
Definition demo9 : kst := after (resume_sleep 0 0) demo8.
Lemma wait_spec_witness : wait_result demo_chan 0 0 (procs demo9 !!! 0%nat) demo9 /\
  find_proc (zombie_child 0) (procs demo9) = Some 1%nat.
Proof.
  split; [|vm_compute; reflexivity]. apply wait_spec.
  - intros a e. by eexists _, _.
  - intros d e. by eexists _, _.
  - split; [done|]. eexists. split; [vm_compute; reflexivity|done].
  - vm_compute; reflexivity.
  - vm_compute; reflexivity.
Defined.

(** On one CPU, every process yields as soon as it is switched to. *)
Definition one_cpu : kst := set_cpus [idle_cpu] demo1.
Definition demo_proc (i : nat) : M (kst (E := Z)) unit := fun s =>
  match (release 0 ;;; yield 0) s with Sleep _ s' => Ok tt s' | _ => Panic "not a turn" end.
Lemma yields i (s : kst (E := Z)) : on_cpu 0 i s -> wps (release 0 ;;; yield 0) (fun _ _ => False) (fun _ (s' : kst) => locked 0 s') s.
Proof.
  intros ((Hl & pc & Hc & Hn & Hi) & Hp & Hst). rewrite Hc in Hp. destruct (procs s !! i) as [p|] eqn:Hpi; [|done].
  apply wps_bind, (release_wp 0 i); [split; [done|by exists pc]|]. intros cs Hr. unfold yield.
  apply wps_bind, (myproc_wp _ i); [by apply runs_proc|]. apply wps_bind, (getp_wp _ p); [done|]. apply wps_bind, wp_get, wps_bind.
  assert (Hgo : forall s1 : kst (E := Z), procs s1 = procs s -> runs 0 i s1 ->
    wps (acquire 0 ;;; updp i (set_p_state RUNNABLE) ;;; sched (A := unit) 0) (fun _ _ => False) (fun _ (s' : kst) => locked 0 s') s1).
  { intros s1 Hp1 Hr1. apply wps_bind, (acquire_wp _ i); [done|]. intros cs1 Hh. apply wps_bind, updp_wp.
    apply (sched_wps 0 i (set_p_state RUNNABLE p)); [done|cbn; by rewrite Hp1, list_lookup_alter_eq, Hpi|done|].
    destruct Hh as (Hpl & pc1 & Hc1 & _ & Hn1). split; [done|]. by exists pc1. }
  destruct (negb _); [apply wp_modify|apply wp_ret]; by apply Hgo.
Qed.
Lemma demo_back : comes_back 1 2 demo_chan demo_proc 0.
Proof.
  intros i s Hon. pose proof (yields i s Hon) as Hy. unfold demo_proc, wps, bind in *.
  destruct (release_locked 0 s (proj1 Hon)) as (s1 & E1 & _). rewrite E1 in *. destruct (yield 0 s1) as [| |ch s'|] eqn:E2; try done.
  exists s'. split; [done|].
  eapply (a_turn _ _ _ _ (release 0)); [by right; right|done|apply rtc_refl|by eapply st_yield|done].
Qed.
Lemma scheduler_fair_witness :
  wp (scheduler_turn demo_proc 0) (fun b s' => exists tr s1 s2,
    (sti_on 0 ;;; acquire 0) one_cpu = Ok tt s1 /\ served demo_proc 0 tr s1 s2 /\ release 0 s2 = Ok tt s' /\
    Sorted lt tr /\ (forall j, ready j one_cpu -> j ∈ tr) /\ b = negb (bool_decide (tr = [])) /\ plock s' = false) one_cpu /\
  ready 0 one_cpu.
Proof.
  split; [|eexists; split; vm_compute; reflexivity].
  apply (scheduler_fair 1 2 demo_chan demo_proc 0).
  - intros d k e. by eexists _, _.
  - intros e. by eexists _, _.
  - exact demo_back.
  - done.
  - vm_compute; reflexivity.
  - vm_compute; reflexivity.
Defined.
