(* ===== verification/Vm.v ===== *)
(** * vm.c: page tables

    The routines run on the memory of [kalloc.c]: page directories and page
    tables are pages of that memory, read and written word by word. *)

From S2P Require Import Prelude Params Strings Kalloc.

(** The allocator and its memory, [kpgdir], the page table register, the stack
    pointer of the task state, and the console. *)
Record vm := mkvm {
  vmk : kmem;
  kpgdir : Z;
  cr3 : Z;
  esp0 : Z;
  vm_out : list Z
}.
Definition set_vmk v (s : vm) := mkvm v (kpgdir s) (cr3 s) (esp0 s) (vm_out s).
Definition set_kpgdir v (s : vm) := mkvm (vmk s) v (cr3 s) (esp0 s) (vm_out s).
Definition set_cr3 v (s : vm) := mkvm (vmk s) (kpgdir s) v (esp0 s) (vm_out s).
Definition set_esp0 v (s : vm) := mkvm (vmk s) (kpgdir s) (cr3 s) v (vm_out s).
Definition set_vm_out v (s : vm) := mkvm (vmk s) (kpgdir s) (cr3 s) (esp0 s) v.

(** The memory of the state. *)
Definition vmem (s : vm) : mem := kmemory (vmk s).
Definition upd_mem (f : mem -> mem) : M vm unit := modify (fun s => set_vmk (set_kmemory (f (vmem s)) (vmk s)) s).
Definition rd32 (a : Z) : M vm Z := gets (fun s => load32 (vmem s) a).
Definition wr32 (a v : Z) : M vm unit := upd_mem (fun m => store32 m a v).
Definition cprintf (msg : list Z) : M vm unit := modify (fun s => set_vm_out (vm_out s ++ msg) s).

Section vm.
(** [end] and [data] of the linker script. *)
Context (end_ data : Z).

Definition vkalloc : M vm Z := zoom vmk set_vmk kalloc.
Definition vkfree (v : Z) : M vm unit := zoom vmk set_vmk (kfree end_ v).

(** The address of the entry for [va], or 0. *)
Definition walkpgdir (pgdir va : Z) (alloc : bool) : M vm Z :=
  let pde := pgdir + 4 * PDX va in
  e <-- rd32 pde ;;
  if has e PTE_P then ret (p2v (PTE_ADDR e) + 4 * PTX va)
  else if negb alloc then ret 0
  else
    pgtab <-- vkalloc ;;
    if pgtab =? 0 then ret 0
    else
      upd_mem (fun m => memset m pgtab 0 PGSIZE) ;;;
      wr32 pde (Z.lor (Z.lor (Z.lor (v2p pgtab) PTE_P) PTE_W) PTE_U) ;;;
      ret (pgtab + 4 * PTX va).

(** The body of the loop of [mappages], on [a] and [pa]. *)
Definition mappages_step (pgdir last perm : Z) (i : Z * Z) : M vm (Z * Z + Z) :=
  let '(a, pa) := i in
  pte <-- walkpgdir pgdir a true ;;
  if pte =? 0 then ret (inr (-1))
  else
    e <-- rd32 pte ;;
    if has e PTE_P then panic "remap"
    else
      wr32 pte (Z.lor (Z.lor pa perm) PTE_P) ;;;
      if a =? last then ret (inr 0)
      else ret (inl (u32 (a + PGSIZE), u32 (pa + PGSIZE))).
Definition mappages (pgdir va size pa perm : Z) : M vm Z :=
  let a := PGROUNDDOWN va in
  let last := PGROUNDDOWN (u32 (va + size - 1)) in
  loop (Z.to_nat (u32 (last - a) / PGSIZE + 2)) (mappages_step pgdir last perm) (a, pa).

(** [kmap[]]: virtual address, physical start and end, permissions. *)
Definition kmap : list (Z * Z * Z * Z) :=
  [ (KERNBASE, 0, EXTMEM, PTE_W);
    (KERNLINK, v2p KERNLINK, v2p data, 0);
    (data, v2p data, PHYSTOP, PTE_W);
    (DEVSPACE, DEVSPACE, 0, PTE_W) ].
Fixpoint map_kernel (pgdir : Z) (ks : list (Z * Z * Z * Z)) : M vm Z :=
  match ks with
  | [] => ret pgdir
  | (virt, phys_start, phys_end, perm) :: ks' =>
      r <-- mappages pgdir virt (u32 (phys_end - phys_start)) phys_start perm ;;
      if r <? 0 then ret 0 else map_kernel pgdir ks'
  end.
Definition setupkvm : M vm Z :=
  pgdir <-- vkalloc ;;
  if pgdir =? 0 then ret 0
  else
    upd_mem (fun m => memset m pgdir 0 PGSIZE) ;;;
    if DEVSPACE <? p2v PHYSTOP then panic "PHYSTOP too high"
    else map_kernel pgdir kmap.

Definition switchkvm : M vm unit := modify (fun s => set_cr3 (v2p (kpgdir s)) s).
Definition kvmalloc : M vm unit :=
  d <-- setupkvm ;;
  modify (set_kpgdir d) ;;;
  switchkvm.
(** [switchuvm(p)]: the stack is that of [proc], the page table that of [p]; the
    two are the same process in every call. *)
Definition switchuvm (pgdir kstack : Z) : M vm unit :=
  modify (set_esp0 (u32 (kstack + KSTACKSIZE))) ;;;
  if pgdir =? 0 then panic "switchuvm: no pgdir"
  else modify (set_cr3 (v2p pgdir)).

(** A store to address 0, which is not mapped during boot, traps. *)
Definition inituvm (pgdir init sz : Z) : M vm unit :=
  if PGSIZE <=? sz then panic "inituvm: more than a page"
  else
    mem <-- vkalloc ;;
    if mem =? 0 then panic "trap"
    else
      upd_mem (fun m => memset m mem 0 PGSIZE) ;;;
      r <-- mappages pgdir 0 PGSIZE (v2p mem) (Z.lor PTE_W PTE_U) ;;
      upd_mem (fun m => memmove m mem init sz).

Definition deallocuvm_step (pgdir oldsz a : Z) : M vm (Z + unit) :=
  if a <? oldsz then
    pte <-- walkpgdir pgdir a false ;;
    if pte =? 0 then ret (inl (u32 (u32 (a + (NPTENTRIES - 1) * PGSIZE) + PGSIZE)))
    else
      e <-- rd32 pte ;;
      (if has e PTE_P then
         let pa := PTE_ADDR e in
         if pa =? 0 then panic "kfree"
         else vkfree (p2v pa) ;;; wr32 pte 0
       else ret tt) ;;;
      ret (inl (u32 (a + PGSIZE)))
  else ret (inr tt).
Definition deallocuvm (pgdir oldsz newsz : Z) : M vm Z :=
  if oldsz <=? newsz then ret oldsz
  else
    loop (Z.to_nat (oldsz / PGSIZE + 2)) (deallocuvm_step pgdir oldsz) (PGROUNDUP newsz) ;;;
    ret newsz.

Definition allocuvm_step (pgdir oldsz newsz a : Z) : M vm (Z + Z) :=
  if a <? newsz then
    mem <-- vkalloc ;;
    if mem =? 0 then
      cprintf (str "allocuvm out of memory" ++ [10]) ;;;
      r <-- deallocuvm pgdir newsz oldsz ;;
      ret (inr 0)
    else
      upd_mem (fun m => memset m mem 0 PGSIZE) ;;;
      r <-- mappages pgdir a PGSIZE (v2p mem) (Z.lor PTE_W PTE_U) ;;
      ret (inl (u32 (a + PGSIZE)))
  else ret (inr newsz).
Definition allocuvm (pgdir oldsz newsz : Z) : M vm Z :=
  if KERNBASE <=? newsz then ret 0
  else if newsz <? oldsz then ret oldsz
  else loop (Z.to_nat (newsz / PGSIZE + 2)) (allocuvm_step pgdir oldsz newsz) (PGROUNDUP oldsz).

(** One entry of the directory in [freevm]. *)
Definition free_table (pgdir : Z) (i : nat) : M vm unit :=
  e <-- rd32 (pgdir + 4 * Z.of_nat i) ;;
  if has e PTE_P then vkfree (p2v (PTE_ADDR e)) else ret tt.
Definition freevm (pgdir : Z) : M vm unit :=
  if pgdir =? 0 then panic "freevm: no pgdir"
  else
    r <-- deallocuvm pgdir KERNBASE 0 ;;
    for_each (seq 0 (Z.to_nat NPDENTRIES)) (free_table pgdir) ;;;
    vkfree pgdir.

Definition clearpteu (pgdir uva : Z) : M vm unit :=
  pte <-- walkpgdir pgdir uva false ;;
  if pte =? 0 then panic "clearpteu"
  else
    e <-- rd32 pte ;;
    wr32 pte (clr e PTE_U).

(** One page of [copyuvm]; [inr false] is the jump to [bad]. *)
Definition copyuvm_step (pgdir d sz i : Z) : M vm (Z + bool) :=
  if i <? sz then
    pte <-- walkpgdir pgdir i false ;;
    if pte =? 0 then panic "copyuvm: pte should exist"
    else
      e <-- rd32 pte ;;
      if negb (has e PTE_P) then panic "copyuvm: page not present"
      else
        let pa := PTE_ADDR e in
        let flags := PTE_FLAGS e in
        mem <-- vkalloc ;;
        if mem =? 0 then ret (inr false)
        else
          upd_mem (fun m => memmove m mem (p2v pa) PGSIZE) ;;;
          r <-- mappages d i PGSIZE (v2p mem) flags ;;
          if r <? 0 then ret (inr false) else ret (inl (u32 (i + PGSIZE)))
  else ret (inr true).
Definition copyuvm (pgdir sz : Z) : M vm Z :=
  d <-- setupkvm ;;
  if d =? 0 then ret 0
  else
    ok <-- loop (Z.to_nat (sz / PGSIZE + 2)) (copyuvm_step pgdir d sz) 0 ;;
    if (ok : bool) then ret d else freevm d ;;; ret 0.

(** The entry is read also when [walkpgdir] returns 0. *)
Definition uva2ka (pgdir uva : Z) : M vm Z :=
  pte <-- walkpgdir pgdir uva false ;;
  e <-- rd32 pte ;;
  if negb (has e PTE_P) then ret 0
  else if negb (has e PTE_U) then ret 0
  else ret (p2v (PTE_ADDR e)).

(** The loop of [copyout], on [va], [buf] and [len]; [buf] is what the buffer
    holds, which lies outside the address space [pgdir]. *)
Definition copyout_step (pgdir : Z) (i : Z * list Z * Z) : M vm (Z * list Z * Z + Z) :=
  let '(va, buf, len) := i in
  if 0 <? len then
    let va0 := PGROUNDDOWN va in
    pa0 <-- uva2ka pgdir va0 ;;
    if pa0 =? 0 then ret (inr (-1))
    else
      let n := PGSIZE - (va - va0) in
      let n := if len <? n then len else n in
      upd_mem (fun m => store_bytes m (pa0 + (va - va0)) (take (Z.to_nat n) buf)) ;;;
      ret (inl (u32 (va0 + PGSIZE), drop (Z.to_nat n) buf, len - n))
  else ret (inr 0).
Definition copyout (pgdir va : Z) (p : list Z) (len : Z) : M vm Z :=
  loop (Z.to_nat (len / PGSIZE + 3)) (copyout_step pgdir) (va, p, len).

(** [loaduvm] reads from a file; [readi off n] stands for reading it at [off],
    with the result of [readi] and the bytes. *)
Section load.
Context {F : Type} (readi : Z -> Z -> M F (Z * list Z)).
Definition on_vm {A} (m : M vm A) : M (vm * F) A := zoom fst (fun v s => (v, snd s)) m.
Definition on_fs {A} (m : M F A) : M (vm * F) A := zoom snd (fun v s => (fst s, v)) m.
Definition loaduvm_step (pgdir addr offset sz i : Z) : M (vm * F) (Z + Z) :=
  if i <? sz then
    pte <-- on_vm (walkpgdir pgdir (u32 (addr + i)) false) ;;
    if pte =? 0 then panic "loaduvm: address should exist"
    else
      e <-- on_vm (rd32 pte) ;;
      let pa := PTE_ADDR e in
      let n := if sz - i <? PGSIZE then sz - i else PGSIZE in
      rb <-- on_fs (readi (u32 (offset + i)) n) ;;
      let '(r, bs) := rb in
      on_vm (upd_mem (fun m => store_bytes m (p2v pa) bs)) ;;;
      if negb (r =? n) then ret (inr (-1)) else ret (inl (u32 (i + PGSIZE)))
  else ret (inr 0).
Definition loaduvm (pgdir addr offset sz : Z) : M (vm * F) Z :=
  if negb (addr mod PGSIZE =? 0) then panic "loaduvm: addr must be page aligned"
  else loop (Z.to_nat (sz / PGSIZE + 2)) (loaduvm_step pgdir addr offset sz) 0.
End load.
End vm.
