(* ===== verification/VmSpec.v ===== *)
(** * The page tables of vm.c: representation and basic operations

    A page directory [d] with its page tables [T] is a function from page
    numbers to entries.  The lemmas show what [walkpgdir] and [mappages] do to
    this function, to the free list and to the rest of memory. *)

From S2P Require Import Prelude Params Strings Kalloc Vm.

(** ** Page table entries *)

Lemma mask_low e : 0 <= e < 2 ^ 32 -> Z.land e (u32 (Z.lnot 0xFFF)) = e - e mod 4096.
Proof.
  intros He. change (u32 (Z.lnot 0xFFF)) with (Z.shiftl (Z.ones 20) 12).
  replace (e - e mod 4096) with (Z.shiftl (Z.shiftr e 12) 12)
    by (rewrite Z.shiftl_mul_pow2, Z.shiftr_div_pow2 by lia; change (2 ^ 12) with 4096; zlia).
  apply Z.bits_inj'. intros i Hi. rewrite Z.land_spec, !Z.shiftl_spec by lia.
  destruct (Z.ltb_spec i 12).
  { by rewrite !(Z.testbit_neg_r _ (i - 12)), andb_false_r by lia. }
  rewrite Z.shiftr_spec by lia. replace (i - 12 + 12) with i by lia.
  destruct (Z.ltb_spec i 32); [by rewrite Z.ones_spec_low, andb_true_r by lia|].
  rewrite Z.ones_spec_high, andb_false_r by lia. symmetry.
  destruct (decide (e = 0)) as [->|]; [apply Z.bits_0|]. apply Z.bits_above_log2; [lia|].
  apply Z.log2_lt_pow2; [lia|]. apply Z.lt_le_trans with (2 ^ 32); [lia|]. apply Z.pow_le_mono_r; lia.
Qed.
Lemma pte_addr e : 0 <= e < 2 ^ 32 -> PTE_ADDR e = e - e mod 4096.
Proof. apply mask_low. Qed.
Lemma pte_flags e : PTE_FLAGS e = e mod 4096.
Proof. unfold PTE_FLAGS. change 0xFFF with (Z.ones 12). by rewrite Z.land_ones. Qed.
Lemma rounddown a : 0 <= a < 2 ^ 32 -> PGROUNDDOWN a = 4096 * (a / 4096).
Proof.
  intros Ha. unfold PGROUNDDOWN. change (PGSIZE - 1) with 0xFFF. rewrite mask_low by done. zlia.
Qed.
Lemma roundup a : 0 <= a <= 2 ^ 32 - 4096 -> PGROUNDUP a = 4096 * ((a + 4095) / 4096).
Proof.
  intros Ha. unfold PGROUNDUP. change PGSIZE with 4096. change (4096 - 1) with 0xFFF.
  rewrite u32_id by lia. rewrite mask_low by lia. replace (a + 4096 - 1) with (a + 4095) by lia. zlia.
Qed.
Lemma has_P e : has e PTE_P = Z.odd e.
Proof. change PTE_P with (2 ^ 0). rewrite has_pow2 by done. apply Z.bit0_odd. Qed.
Lemma lor_add x f : x mod 4096 = 0 -> 0 <= f < 4096 -> Z.lor x f = x + f.
Proof.
  intros Hx Hf. replace x with (Z.shiftl (x / 4096) 12) at 1 by (rewrite Z.shiftl_mul_pow2 by lia; change (2 ^ 12) with 4096; zlia).
  rewrite shl_lor by lia. change (2 ^ 12) with 4096. zlia.
Qed.
Lemma pdx_div va : 0 <= va < 2 ^ 32 -> PDX va = va / 4096 / 1024.
Proof.
  intros. unfold PDX, PDXSHIFT. change 0x3FF with (Z.ones 10). rewrite Z.land_ones, Z.shiftr_div_pow2 by lia.
  change (2 ^ 22) with 4194304. change (2 ^ 10) with 1024. zlia.
Qed.
Lemma ptx_mod va : 0 <= va -> PTX va = va / 4096 mod 1024.
Proof. intros. unfold PTX, PTXSHIFT. change 0x3FF with (Z.ones 10). by rewrite Z.land_ones, Z.shiftr_div_pow2 by lia. Qed.
Lemma odd_page x f : x mod 4096 = 0 -> Z.odd (x + f) = Z.odd f.
Proof.
  intros Hx. replace (x + f) with (f + 2 * (x / 2)) by zlia. by rewrite Z.odd_add_mul_2.
Qed.
Lemma odd_lor_1 f : Z.odd (Z.lor f 1) = true.
Proof. by rewrite <-Z.bit0_odd, Z.lor_spec, orb_true_r. Qed.
Lemma lor_1_range f : 0 <= f < 4096 -> 0 <= Z.lor f 1 < 4096.
Proof.
  intros Hf. split; [apply Z.lor_nonneg; lia|]. apply Z.log2_lt_cancel. rewrite Z.log2_lor by lia. change (Z.log2 4096) with 12.
  change (Z.log2 1) with 0. destruct (decide (f = 0)) as [->|]; [done|].
  rewrite Z.max_l by apply Z.log2_nonneg. apply Z.log2_lt_pow2; lia.
Qed.

(** ** Memory and pages *)

Lemma load32_set m m' a p : p <= a -> a + 4 <= p + 4096 ->
  (forall x, p <= x < p + 4096 -> m' x = m x) -> load32 m' a = load32 m a.
Proof. intros. apply load32_ext. intros x Hx. apply H1. lia. Qed.

Definition vals (T : gmap Z Z) : list Z := (map_to_list T).*2.
Lemma vals_elem T t : t ∈ vals T <-> exists i, T !! i = Some t.
Proof.
  unfold vals. rewrite list_elem_of_fmap. split.
  - intros ([i t'] & -> & Hi%elem_of_map_to_list). by exists i.
  - intros (i & Hi%elem_of_map_to_list). by exists (i, t).
Qed.
Lemma vals_insert T i t : T !! i = None -> vals (<[i := t]> T) ≡ₚ t :: vals T.
Proof. intros Hi. unfold vals. by rewrite map_to_list_insert. Qed.
Lemma vals_delete T i t : T !! i = Some t -> t :: vals (delete i T) ≡ₚ vals T.
Proof. intros Hi. unfold vals. by rewrite <-(map_to_list_delete T i t Hi). Qed.
Lemma vals_inj T i j t : NoDup (vals T) -> T !! i = Some t -> T !! j = Some t -> i = j.
Proof.
  intros Hnd Hi Hj. destruct (decide (i = j)) as [|Hne]; [done|]. exfalso.
  rewrite <-(vals_delete T i t Hi) in Hnd. apply NoDup_cons in Hnd as [Hn _]. apply Hn, vals_elem.
  exists j. by rewrite lookup_delete_ne.
Qed.

(** The regions of 4 megabytes from [a] to [b] without a page table. *)
Definition missing (T : gmap Z Z) (a b : Z) : nat := length (filter (fun i => T !! i = None) (seqZ a (b - a))).
Lemma missing_mono T a a' b : a <= a' <= b -> (missing T a' b <= missing T a b)%nat.
Proof.
  intros Ha. unfold missing. replace (b - a) with ((a' - a) + (b - a')) by lia. rewrite seqZ_app by lia.
  rewrite filter_app, length_app. replace (a + (a' - a)) with a' by lia. lia.
Qed.
Lemma missing_insert T a b t : a < b -> T !! a = None -> missing T a b = S (missing (<[a := t]> T) a b).
Proof.
  intros Hab Ha. unfold missing. rewrite seqZ_cons by lia. rewrite !filter_cons.
  rewrite decide_True, decide_False by (rewrite ?lookup_insert_eq; done). cbn. do 2 f_equal.
  apply filter_ext_elem. intros x Hx%elem_of_seqZ. by rewrite lookup_insert_ne by lia.
Qed.

Lemma missing_skip T a b t : a < b -> T !! a = Some t -> missing T a b = missing T (a + 1) b.
Proof.
  intros Hab Ha. unfold missing. rewrite seqZ_cons by lia. rewrite filter_cons, decide_False by congruence.
  do 3 f_equal; lia.
Qed.
Lemma missing_next T n b t : n / 1024 < b -> T !! (n / 1024) = Some t -> missing T (n / 1024) b = missing T ((n + 1) / 1024) b.
Proof.
  intros Hb Ht. destruct (decide ((n + 1) / 1024 = n / 1024)) as [->|]; [done|].
  replace ((n + 1) / 1024) with (n / 1024 + 1) by zlia. by eapply missing_skip.
Qed.
Lemma missing_split T a b c : a <= b <= c -> missing T a c = (missing T a b + missing T b c)%nat.
Proof.
  intros H. unfold missing. replace (c - a) with ((b - a) + (c - b)) by lia. rewrite seqZ_app by lia.
  rewrite filter_app, length_app. by replace (a + (b - a)) with b by lia.
Qed.
Lemma missing_sub T T' a b : T ⊆ T' -> (missing T' a b <= missing T a b)%nat.
Proof.
  intros Hs. unfold missing. generalize (seqZ a (b - a)). intros l. induction l as [|i l IH]; [done|].
  rewrite !filter_cons. destruct (T !! i) as [t|] eqn:E.
  - rewrite (lookup_weaken _ _ _ _ E Hs). by rewrite !decide_False.
  - rewrite (decide_True (P := None = None)) by done. case_decide; cbn; lia.
Qed.
Lemma missing_nil T a : missing T a a = 0%nat.
Proof. unfold missing. by rewrite Z.sub_diag. Qed.

(** The kernel is linked above [KERNBASE] ([kernel.ld]). *)
Class Linked (end_ : Z) : Prop := linked : KERNBASE < end_.
(** The linker script puts the kernel's data on a page of its own, after the
    text and below the end of memory. *)
Class DataLinked (data : Z) : Prop := {
  data_aligned : data mod 4096 = 0;
  data_text : KERNLINK < data;
  data_phys : data < KERNBASE + PHYSTOP
}.

(** The pages that [kinit1] and [kinit2] gave to the allocator. *)
Class Pages := all_pages : list Z.

Section spec.
Context (end_ : Z) `{Hend : !Linked end_} {G : Pages}.
Notation page := (page end_).
Implicit Types (s : vm) (T : gmap Z Z) (m : mem).

Lemma page_range v : page v -> 0x80000000 < v /\ v + 4096 <= 0x8E000000 /\ v mod 4096 = 0.
Proof.
  intros Hp. pose proof (page_aligned _ _ Hp) as Ha. destruct Hp as [Hb Hv]. unfold bad_page, v2p in Hb.
  rewrite !orb_false_iff, negb_false_iff in Hb. destruct Hb as [[_ Hlo%Z.ltb_ge] Hhi%Z.leb_gt].
  pose proof linked as Hk. change KERNBASE with 0x80000000 in *. change PHYSTOP with 0xE000000 in *. rewrite u32_id in Hhi by lia. zlia.
Qed.
Lemma page_v2p v : page v -> v2p v = v - 0x80000000 /\ v2p v mod 4096 = 0 /\ 0 < v2p v < 0xE000000.
Proof.
  intros Hp%page_range. unfold v2p. change KERNBASE with 0x80000000. rewrite u32_id by lia. zlia.
Qed.
Lemma page_p2v v : page v -> p2v (v2p v) = v.
Proof. intros Hp. destruct (page_v2p v Hp) as (-> & _ & ?). unfold p2v. change KERNBASE with 0x80000000. rewrite u32_id; lia. Qed.

(** An entry for page [p] with flags [f]. *)
Definition entry (p f e : Z) : Prop := page p /\ 0 <= f < 4096 /\ Z.odd f = true /\ e = v2p p + f.
Lemma entry_facts p f e : entry p f e -> has e PTE_P = true /\ PTE_ADDR e = v2p p /\ p2v (PTE_ADDR e) = p /\ PTE_FLAGS e = f.
Proof.
  intros (Hp & Hf & Ho & ->). destruct (page_v2p p Hp) as (_ & Hm & Hr).
  assert (Ha : PTE_ADDR (v2p p + f) = v2p p) by (rewrite pte_addr by lia; zlia).
  rewrite has_P, odd_page, Ha, page_p2v, pte_flags by done. split_and!; try done. zlia.
Qed.

(** ** Ownership *)

(** The pages [ps] are in use, those of [l] free, and there are no others: no page
    is lost. *)
Record owns s (ps l : list Z) : Prop := {
  ow_free : free_pages end_ (vmk s) l;
  ow_pages : Forall page ps;
  ow_nodup : NoDup (ps ++ l);
  ow_all : ps ++ l ≡ₚ all_pages
}.
(** Memory is the same on the pages [ps]. *)
Definition same_on (ps : list Z) m m' : Prop := forall p x, p ∈ ps -> p <= x < p + 4096 -> m' x = m x.
Lemma same_refl ps m : same_on ps m m.
Proof. done. Qed.
Lemma same_trans ps m1 m2 m3 : same_on ps m1 m2 -> same_on ps m2 m3 -> same_on ps m1 m3.
Proof. intros H1 H2 p x Hp Hx. by rewrite (H2 p), (H1 p). Qed.
Lemma same_sub ps ps' m m' : (forall p, p ∈ ps' -> p ∈ ps) -> same_on ps m m' -> same_on ps' m m'.
Proof. intros H1 H2 p x Hp Hx. by apply (H2 p); [apply H1|]. Qed.
(** A change within page [v] leaves the other pages. *)
Lemma same_out v ps m m' : page v -> Forall page ps -> v ∉ ps -> (forall x, ~ (v <= x < v + 4096) -> m' x = m x) -> same_on ps m m'.
Proof.
  intros Hv Hps Hn Hm p x Hp Hx. apply Hm. apply (proj1 (Forall_forall _ _) Hps) in Hp as Hpp.
  destruct (page_disjoint _ v p Hv Hpp) as [?|?]; [set_solver|lia|lia].
Qed.

Lemma owns_perm s ps ps' l : ps ≡ₚ ps' -> owns s ps l -> owns s ps' l.
Proof. intros Hp [H1 H2 H3 H4]. split; [done|by rewrite <-Hp|by rewrite <-Hp|by rewrite <-Hp]. Qed.
Lemma owns_mem s ps l m : owns s ps l -> wf_mem m -> same_on l (vmem s) m ->
  owns (set_vmk (set_kmemory m (vmk s)) s) ps l.
Proof.
  intros [[F1 F2 F3 F4 F5] H2 H3 H4] Hm Hs. split; [|done..]. split; try done.
  cbn. clear - F3 Hs. revert F3. unfold vmem in Hs. generalize (freelist (vmk s)). induction l as [|x l IH]; intros p Hc; [done|].
  destruct Hc as [-> Hc]. split; [done|]. rewrite (load32_set (kmemory (vmk s)) m x x); [|lia|lia|].
  - apply IH; [|done]. eapply same_sub; [|done]. intros q Hq. by right.
  - intros y Hy. apply (Hs x); [by left|done].
Qed.
Lemma owns_wf s ps l : owns s ps l -> wf_mem (vmem s).
Proof. intros [[] _ _ _]. done. Qed.
(** The same pages in use leave the same pages free. *)
Lemma owns_free s s' ps l l' : owns s ps l -> owns s' ps l' -> l' ≡ₚ l.
Proof. intros [_ _ _ H] [_ _ _ H']. apply (Permutation_app_inv_l ps). by rewrite H, H'. Qed.
Lemma owns_notin s p ps l : owns s (p :: ps) l -> page p /\ p ∉ ps /\ p ∉ l.
Proof.
  intros [_ Hp Hn _]. apply Forall_cons in Hp as [Hp _]. cbn in Hn. apply NoDup_cons in Hn as [Hn _]. set_solver.
Qed.
Lemma owns_same s p ps l m : owns s (p :: ps) l -> (forall x, ~ (p <= x < p + 4096) -> m x = vmem s x) ->
  same_on ps (vmem s) m /\ same_on l (vmem s) m.
Proof.
  intros Ho Hm. destruct (owns_notin _ _ _ _ Ho) as (Hp & Hn & Hl). destruct Ho as [[_ _ _ Hfl _] Hps _ _].
  apply Forall_cons in Hps as [_ Hps]. split; by apply (same_out p).
Qed.

(** A write inside a page in use. *)
Lemma owns_write s p ps l f : owns s (p :: ps) l -> wf_mem (f (vmem s)) ->
  (forall x, ~ (p <= x < p + 4096) -> f (vmem s) x = vmem s x) ->
  owns (set_vmk (set_kmemory (f (vmem s)) (vmk s)) s) (p :: ps) l.
Proof. intros Ho Hw Hf. apply owns_mem; [done|done|]. by destruct (owns_same _ _ _ _ _ Ho Hf). Qed.

Lemma store_bytes_wf m a bs : wf_mem m -> wf_mem (store_bytes m a bs).
Proof. intros Hm x. rewrite store_bytes_spec. case_decide; [apply u8_range|apply Hm]. Qed.
(** The state after a change of memory. *)
Definition with_mem m s : vm := set_vmk (set_kmemory m (vmk s)) s.
Lemma owns_memset s p ps l : owns s (p :: ps) l -> owns (with_mem (memset (vmem s) p 0 PGSIZE) s) (p :: ps) l /\
  forall x, memset (vmem s) p 0 PGSIZE x = if decide (p <= x < p + 4096) then 0 else vmem s x.
Proof.
  intros Ho. pose proof (fun x => memset_at (vmem s) p 0 PGSIZE x ltac:(done)) as Hx. pose proof (owns_wf _ _ _ Ho) as Hw.
  split; [|exact Hx]. apply (owns_write s p ps l (fun m => memset m p 0 PGSIZE)); [done|by apply memset_wf|].
  intros x Hn. rewrite Hx. by rewrite decide_False.
Qed.
Lemma owns_store32 s p ps l a v : owns s (p :: ps) l -> p <= a -> a + 4 <= p + 4096 ->
  owns (with_mem (store32 (vmem s) a v) s) (p :: ps) l /\ forall x, ~ (a <= x < a + 4) -> store32 (vmem s) a v x = vmem s x.
Proof.
  intros Ho H1 H2. assert (Hx : forall x, ~ (a <= x < a + 4) -> store32 (vmem s) a v x = vmem s x)
    by (intros x Hn; rewrite store32_at; by rewrite decide_False).
  split; [|done]. apply (owns_write s p ps l (fun m => store32 m a v)); [done|by eapply store32_wf, owns_wf|].
  intros x Hn. apply Hx. lia.
Qed.
Lemma owns_store_bytes s p ps l a bs : owns s (p :: ps) l -> p <= a -> a + Z.of_nat (length bs) <= p + 4096 ->
  owns (with_mem (store_bytes (vmem s) a bs) s) (p :: ps) l.
Proof.
  intros Ho H1 H2. apply (owns_write s p ps l (fun m => store_bytes m a bs)); [done|by eapply store_bytes_wf, owns_wf|].
  intros x Hx. rewrite store_bytes_spec. by rewrite decide_False by lia.
Qed.
Lemma owns_memmove s p ps l dst src n : owns s (p :: ps) l -> 0 <= n -> p <= dst -> dst + n <= p + 4096 ->
  owns (with_mem (memmove (vmem s) dst src n) s) (p :: ps) l /\
  forall x, memmove (vmem s) dst src n x = if decide (dst <= x < dst + n) then vmem s (src + (x - dst)) else vmem s x.
Proof.
  intros Ho Hn H1 H2. pose proof (owns_wf _ _ _ Ho) as Hw.
  pose proof (fun x => memmove_at (vmem s) dst src n x Hw Hn) as Hx.
  split; [|exact Hx]. apply (owns_write s p ps l (fun m => memmove m dst src n)); [done|by apply memmove_wf|].
  intros x Hy. rewrite Hx, decide_False; [done|lia].
Qed.

Lemma vkalloc_none s ps : owns s ps [] -> vkalloc s = Ok 0 s.
Proof. intros [Hf _ _ _]. unfold vkalloc, zoom. rewrite (kalloc_run end_ _ [] Hf). by destruct s. Qed.
Lemma vkalloc_wp s ps p l (Q : Z -> vm -> Prop) : owns s ps (p :: l) ->
  (forall k, let s' := set_vmk k s in owns s' (p :: ps) l -> vmem s' = vmem s -> p <> 0 -> Q p s') -> wp vkalloc Q s.
Proof.
  intros Ho HQ. destruct Ho as [Hf Hp Hn Hall]. unfold vkalloc. apply wp_zoom. unfold wp. rewrite (kalloc_run end_ _ _ Hf).
  destruct Hf as [F1 F2 [F3 F3'] F4 F5]. apply Forall_cons in F4 as [F4 F4']. apply NoDup_cons in F5 as [F5 F5'].
  apply HQ; [|done|destruct F4; lia]. split; [by split| | |].
  - by constructor.
  - cbn. by rewrite Permutation_middle.
  - cbn. by rewrite Permutation_middle.
Qed.
Lemma vkfree_wp s p ps l (Q : unit -> vm -> Prop) : owns s (p :: ps) l ->
  (forall k, let s' := set_vmk k s in owns s' ps (p :: l) ->
     (forall x, ~ (p <= x < p + 4096) -> vmem s' x = vmem s x) -> Q tt s') -> wp (vkfree end_ p) Q s.
Proof.
  intros Ho HQ. destruct (owns_notin _ _ _ _ Ho) as (Hp & Hn & Hl). destruct Ho as [Hf Hps Hnd Hall].
  unfold vkfree. apply wp_zoom. eapply wp_mono; [by apply kfree_wp|]. intros [] k (Hk & _ & Hm). apply HQ; [|done].
  apply Forall_cons in Hps as [_ Hps]. split; [done|done|by rewrite <-Permutation_middle..].
Qed.

(** ** Directories and tables *)

(** The directory at [d] refers to the tables [T]. *)
Definition dir_ok m (d : Z) T : Prop :=
  (forall i, 0 <= i < 1024 -> match T !! i with
     | Some t => exists f, entry t f (load32 m (d + 4 * i))
     | None => Z.odd (load32 m (d + 4 * i)) = false
     end) /\
  (forall i t, T !! i = Some t -> 0 <= i < 1024).
(** The entry of page number [n]. *)
Definition pte m T (n : Z) : Z :=
  match T !! (n / 1024) with Some t => load32 m (t + 4 * (n mod 1024)) | None => 0 end.

Lemma dir_page m d T i t : dir_ok m d T -> T !! i = Some t -> page t.
Proof. intros [H Hd] Hi. specialize (H i (Hd i t Hi)). rewrite Hi in H. by destruct H as (f & ? & _). Qed.
Lemma dir_same m m' d T : same_on [d] m m' -> dir_ok m d T -> dir_ok m' d T.
Proof.
  intros Hs [H Hd]. split; [|done]. intros i Hi. specialize (H i Hi).
  assert (E : load32 m' (d + 4 * i) = load32 m (d + 4 * i)) by (apply (load32_set _ _ _ d); [lia|lia|]; intros x Hx; apply (Hs d); [by left|done]).
  by rewrite E.
Qed.
Lemma pte_same m m' T n : same_on (vals T) m m' -> pte m' T n = pte m T n.
Proof.
  intros Hs. unfold pte. destruct (T !! (n / 1024)) as [t|] eqn:Ht; [|done].
  apply (load32_set _ _ _ t); [zlia|zlia|]. intros x Hx. apply (Hs t); [|done]. apply vals_elem. by eexists.
Qed.

Lemma walk_hit s d T va t alloc : dir_ok (vmem s) d T -> 0 <= va < 2 ^ 32 -> T !! (va / 4096 / 1024) = Some t ->
  walkpgdir d va alloc s = Ok (t + 4 * (va / 4096 mod 1024)) s.
Proof.
  intros [H Hd] Hva Ht. unfold walkpgdir, rd32, gets, bind. rewrite pdx_div, ptx_mod by lia.
  specialize (H _ (Hd _ _ Ht)). rewrite Ht in H. destruct H as (f & He).
  destruct (entry_facts _ _ _ He) as (-> & _ & -> & _). done.
Qed.
Lemma walk_miss s d T va : dir_ok (vmem s) d T -> 0 <= va < 2 ^ 32 -> T !! (va / 4096 / 1024) = None ->
  walkpgdir d va false s = Ok 0 s.
Proof.
  intros [H Hd] Hva Ht. unfold walkpgdir, rd32, gets, bind. rewrite pdx_div by lia.
  specialize (H (va / 4096 / 1024) ltac:(zlia)). rewrite Ht in H. by rewrite has_P, H.
Qed.

(** Directory [d] and its tables are in use, beside the pages [oth]. *)
Record tables s (oth : list Z) (d : Z) T (l : list Z) : Prop := {
  tb_owns : owns s (d :: vals T ++ oth) l;
  tb_dir : dir_ok (vmem s) d T
}.
Lemma tables_perm s oth oth' d T l : oth ≡ₚ oth' -> tables s oth d T l -> tables s oth' d T l.
Proof. intros Hp [H1 H2]. split; [|done]. eapply owns_perm; [|done]. by rewrite Hp. Qed.
Lemma tables_tab s oth d T l i t : tables s oth d T l -> T !! i = Some t ->
  owns s (t :: d :: vals (delete i T) ++ oth) l.
Proof.
  intros [Ho _] Ht. eapply owns_perm; [|done]. rewrite <-(vals_delete T i t Ht). cbn. apply Permutation_swap.
Qed.

(** A new table. *)
Lemma walk_new s oth d T va t l (Q : Z -> vm -> Prop) :
  tables s oth d T (t :: l) -> 0 <= va < 2 ^ 32 -> T !! (va / 4096 / 1024) = None ->
  (forall k, let s' := set_vmk k s in let T' := <[va / 4096 / 1024 := t]> T in
     tables s' oth d T' l -> (forall n, pte (vmem s') T' n = pte (vmem s) T n) -> same_on oth (vmem s) (vmem s') ->
     Q (t + 4 * (va / 4096 mod 1024)) s') ->
  wp (walkpgdir d va true) Q s.
Proof.
  intros [Ho Hd] Hva Ht HQ. set (j := va / 4096 / 1024) in *. assert (Hj : 0 <= j < 1024) by (unfold j; zlia).
  unfold walkpgdir. rewrite pdx_div, ptx_mod by lia. fold j. apply wp_bind, wp_gets.
  assert (Hodd : Z.odd (load32 (vmem s) (d + 4 * j)) = false) by (destruct Hd as [Hd _]; specialize (Hd j Hj); by rewrite Ht in Hd).
  rewrite has_P, Hodd. cbn [negb]. apply wp_bind, (vkalloc_wp s (d :: vals T ++ oth) t l); [done|]. intros k s1 Ho1 Hm1 Hnz.
  rewrite (proj2 (Z.eqb_neq t 0)) by done. destruct (owns_notin _ _ _ _ Ho1) as (Htp & Htn & Htl).
  destruct (owns_memset _ _ _ _ Ho1) as [Ho2 Hm2]. rewrite Hm1 in Ho2, Hm2.
  apply wp_bind, wp_modify. rewrite Hm1. set (m2 := memset (vmem s) t 0 PGSIZE) in *.
  change (set_vmk (set_kmemory m2 (vmk s1)) s1) with (with_mem m2 s1). set (s2 := with_mem m2 s1) in *.
  set (e := Z.lor (Z.lor (Z.lor (v2p t) PTE_P) PTE_W) PTE_U).
  assert (He : entry t 7 e).
  { destruct (page_v2p t Htp) as (_ & Hmod & ?). split_and!; [done|lia|lia|done|].
    unfold e, PTE_P, PTE_W, PTE_U. rewrite <-!Z.lor_assoc. change (Z.lor 1 (Z.lor 2 4)) with 7. by apply lor_add. }
  assert (Ho3 : owns s2 (d :: t :: vals T ++ oth) l) by (eapply owns_perm; [apply Permutation_swap|exact Ho2]).
  destruct (owns_store32 _ _ _ _ (d + 4 * j) e Ho3 ltac:(lia) ltac:(lia)) as [Ho4 Hm3].
  apply wp_bind, wp_modify, wp_ret. change (vmem s2) with m2 in *. set (m3 := store32 m2 (d + 4 * j) e) in *.
  assert (Hl3 : load32 m3 (d + 4 * j) = u32 e) by apply load_store32. clearbody m3 m2.
  destruct (owns_notin _ _ _ _ Ho3) as (Hdp & Hdn & Hdl).
  assert (Hsd : same_on (vals T ++ oth) (vmem s) m3).
  { apply same_trans with m2.
    - eapply same_out; [exact Htp| |set_solver|intros x Hx; by rewrite Hm2, decide_False].
      destruct Ho as [_ Hps _]. by apply Forall_cons in Hps as [_ Hps].
    - eapply same_out; [exact Hdp| |set_solver|intros x Hx; apply Hm3; lia].
      destruct Ho as [_ Hps _]. by apply Forall_cons in Hps as [_ Hps]. }
  apply (HQ (set_kmemory m3 k)).
  - split.
    + eapply owns_perm; [|exact Ho4]. rewrite vals_insert by done. done.
    + destruct Hd as [Hd Hdom]. split; [|intros i t'; rewrite lookup_insert_Some; naive_solver].
      intros i Hi. change (vmem _) with m3. destruct (decide (i = j)) as [->|Hij].
      * rewrite lookup_insert_eq. exists 7. rewrite Hl3, u32_id; [done|].
        destruct He as (Hp & _ & _ & ->). destruct (page_v2p t Hp). lia.
      * rewrite lookup_insert_ne by done. specialize (Hd i Hi).
        assert (E : load32 m3 (d + 4 * i) = load32 (vmem s) (d + 4 * i)).
        { apply load32_ext. intros x Hx. rewrite Hm3 by lia. rewrite Hm2, decide_False; [done|].
          destruct (page_disjoint _ t d Htp Hdp) as [?|?]; [set_solver|lia|lia]. }
        by rewrite E.
  - intros n. change (vmem (set_vmk _ _)) with m3. unfold pte. destruct (decide (n / 1024 = j)) as [->|Hnj].
    + rewrite lookup_insert_eq, Ht. transitivity (load32 (fun _ => 0) (t + 4 * (n mod 1024))); [|done].
      apply (load32_set _ _ _ t); [zlia|zlia|]. intros x Hx. rewrite Hm3; [by rewrite Hm2, decide_True|]. clear - Hend Hx Htp Hdp Htn Hj.
      destruct (page_disjoint _ t d Htp Hdp) as [?|?]; [set_solver|lia|lia].
    + rewrite lookup_insert_ne by done. apply (pte_same (vmem s) m3 T n). eapply same_sub; [|done]. set_solver.
  - eapply same_sub; [|done]. set_solver.
Qed.

Lemma set_vmk_id s : set_vmk (vmk s) s = s.
Proof. by destruct s. Qed.
(** [walkpgdir] with allocation: no memory is left, or there is a table. *)
Lemma walk_alloc s oth d T l va (Q : Z -> vm -> Prop) :
  let j := va / 4096 / 1024 in tables s oth d T l -> 0 <= va < 2 ^ 32 ->
  (T !! j = None -> l = [] -> Q 0 s) ->
  (forall k T' l' t, let s' := set_vmk k s in tables s' oth d T' l' -> T' !! j = Some t ->
     (T' = T /\ l' = l) \/ (T !! j = None /\ T' = <[j := t]> T /\ l = t :: l') ->
     (forall n, pte (vmem s') T' n = pte (vmem s) T n) -> same_on oth (vmem s) (vmem s') ->
     Q (t + 4 * (va / 4096 mod 1024)) s') ->
  wp (walkpgdir d va true) Q s.
Proof.
  intros j Htb Hva HN HS. destruct (T !! j) as [t|] eqn:Ht.
  - unfold wp. rewrite (walk_hit _ _ T _ t _ (tb_dir _ _ _ _ _ Htb) Hva Ht). rewrite <-(set_vmk_id s).
    apply (HS (vmk s) T l t); rewrite ?set_vmk_id; auto. done.
  - destruct l as [|t l].
    + unfold wp, walkpgdir, rd32, gets, bind. rewrite pdx_div by lia. fold j. destruct Htb as [Ho [Hd _]].
      specialize (Hd j ltac:(unfold j; zlia)). rewrite Ht in Hd. rewrite has_P, Hd. cbn [negb].
      rewrite (vkalloc_none s _ Ho). by apply HN.
    + apply (walk_new s oth d T va t l); [done..|]. intros k s' T' Ht' Hp Hs.
      apply (HS k T' l t); [done|by apply lookup_insert_eq|by right|done|done].
Qed.

(** Writing the entry of page number [n]. *)
Lemma pte_store s oth d T l n t v : tables s oth d T l -> T !! (n / 1024) = Some t ->
  let m' := store32 (vmem s) (t + 4 * (n mod 1024)) v in
  tables (with_mem m' s) oth d T l /\ (forall n', pte m' T n' = if decide (n' = n) then u32 v else pte (vmem s) T n') /\
  same_on oth (vmem s) m' /\ forall x, ~ (t <= x < t + 4096) -> m' x = vmem s x.
Proof.
  intros Htb Ht m'. pose proof (tables_tab _ _ _ _ _ _ _ Htb Ht) as Ho.
  destruct (owns_store32 _ _ _ _ (t + 4 * (n mod 1024)) v Ho ltac:(zlia) ltac:(zlia)) as [Ho' Hm']. fold m' in Ho', Hm'.
  assert (Hout : forall x, ~ (t <= x < t + 4096) -> m' x = vmem s x) by (intros x Hx; apply Hm'; zlia).
  destruct (owns_same _ _ _ _ m' Ho Hout) as [Hsame _].
  destruct (owns_notin _ _ _ _ Ho) as (Htp & Htn & _).
  split_and!; [split| | |done].
  - eapply owns_perm; [|exact Ho']. rewrite <-(vals_delete T _ t Ht). cbn. apply Permutation_swap.
  - eapply dir_same; [|by destruct Htb]. eapply same_sub; [|exact Hsame]. set_solver.
  - intros n'. case_decide as Hn.
    + subst n'. unfold pte. rewrite Ht. apply load_store32.
    + unfold pte. destruct (T !! (n' / 1024)) as [t'|] eqn:Ht'; [|done]. destruct (decide (n' / 1024 = n / 1024)) as [E|E].
      * rewrite E in Ht'. simplify_eq. apply load32_ext. intros x Hx. apply Hm'. zlia.
      * apply (load32_set _ _ _ t'); [zlia|zlia|]. intros x Hx. apply (Hsame t'); [|done].
        right. apply elem_of_app. left. apply vals_elem. exists (n' / 1024). by rewrite lookup_delete_ne.
  - eapply same_sub; [|exact Hsame]. set_solver.
Qed.

(** [s'] is [s] with [c] pages from number [first] on mapped to the physical
    addresses from [pa] on, with flags [f]. *)
Record mapped s oth d T l (first c pa f : Z) s' T' l' : Prop := {
  mp_tab : tables s' oth d T' l';
  mp_only : exists k, s' = set_vmk k s;
  mp_sub : T ⊆ T';
  mp_free : exists new, l = new ++ l';
  mp_pte n : pte (vmem s') T' n = if decide (first <= n < first + c) then pa + 4096 * (n - first) + f else pte (vmem s) T n;
  mp_same : same_on oth (vmem s) (vmem s')
}.

(** What [mappages] of [N + 1] pages achieves: all are mapped, or memory ran
    out after [c] of them; it does not run out if there are enough free pages
    for the missing tables. *)
Definition mappages_post s oth d T l (first : Z) (N : nat) (pa f : Z) (r : Z) s' : Prop :=
  exists c T' l', mapped s oth d T l first c pa f s' T' l' /\
    ((r = 0 /\ c = Z.of_nat N + 1) \/ (r = -1 /\ 0 <= c <= Z.of_nat N /\ l' = [])) /\
    ((missing T (first / 1024) ((first + Z.of_nat N) / 1024 + 1) <= length l)%nat ->
     r = 0 /\ length l = (missing T (first / 1024) ((first + Z.of_nat N) / 1024 + 1) + length l')%nat).

Lemma mapped_none s oth d T l first pa f : tables s oth d T l -> mapped s oth d T l first 0 pa f s T l.
Proof.
  intros Ht. split; [done|by exists (vmk s); rewrite set_vmk_id|done|by exists []| |done].
  intros n. by rewrite decide_False by lia.
Qed.
(** One more page in front. *)
Lemma mapped_cons s oth d T l T1 l1 s1 first c pa f s' T' l' :
  T ⊆ T1 -> (exists new, l = new ++ l1) -> (exists k, s1 = set_vmk k s) -> 0 <= c ->
  (forall n, pte (vmem s1) T1 n = if decide (n = first) then pa + f else pte (vmem s) T n) ->
  same_on oth (vmem s) (vmem s1) ->
  mapped s1 oth d T1 l1 (first + 1) c (pa + 4096) f s' T' l' -> mapped s oth d T l first (c + 1) pa f s' T' l'.
Proof.
  intros Hsub (new1 & ->) (k1 & ->) Hc Hp1 Hs1 [H1 (k & ->) H3 (new & ->) H5 H6]. split; [done|by exists k|by etrans| | |].
  - exists (new1 ++ new). by rewrite app_assoc.
  - intros n. rewrite H5, Hp1. repeat case_decide; subst; try lia.
  - eapply same_trans; [exact Hs1|exact H6].
Qed.

(** One page: memory ran out, or the page is mapped and the free pages lost
    are those of the new table. *)
Lemma map_step s oth d T l n pa perm last (Q : Z * Z + Z -> vm -> Prop) :
  tables s oth d T l -> 0 <= perm < 4096 -> 0 <= n < 2 ^ 20 -> pa mod 4096 = 0 -> 0 <= pa -> pa + 4096 <= 2 ^ 32 ->
  Z.odd (pte (vmem s) T n) = false ->
  (T !! (n / 1024) = None -> l = [] -> Q (inr (-1)) s) ->
  (forall s1 T1 l1 t, mapped s oth d T l n 1 pa (Z.lor perm 1) s1 T1 l1 -> T1 !! (n / 1024) = Some t ->
     (forall b, n / 1024 < b -> (missing T (n / 1024) b + length l1 = missing T1 (n / 1024) b + length l)%nat) ->
     Q (if 4096 * n =? last then inr 0 else inl (u32 (4096 * n + PGSIZE), u32 (pa + PGSIZE))) s1) ->
  wp (mappages_step d last perm (4096 * n, pa)) Q s.
Proof.
  intros Htb Hperm Hn Hpa Hpa0 Hpa1 Hodd HN HS. unfold mappages_step.
  assert (Ediv : 4096 * n / 4096 = n) by zlia.
  apply wp_bind, (walk_alloc s oth d T l); [done|lia|rewrite Ediv; exact HN|rewrite Ediv].
  intros k T1 l1 t s1 Ht1 Htl Hcase Hp1 Hs1. destruct (page_range t (dir_page _ _ _ _ _ (tb_dir _ _ _ _ _ Ht1) Htl)) as (Htr & _).
  rewrite (proj2 (Z.eqb_neq _ 0)) by zlia. apply wp_bind, wp_gets.
  assert (Hrd : load32 (vmem s1) (t + 4 * (n mod 1024)) = pte (vmem s) T n) by (rewrite <-Hp1; unfold pte; by rewrite Htl).
  rewrite Hrd, has_P, Hodd. apply wp_bind, wp_modify.
  assert (Hlor : Z.lor (Z.lor pa perm) PTE_P = pa + Z.lor perm 1) by (rewrite <-Z.lor_assoc; apply lor_add; [done|by apply lor_1_range]).
  rewrite Hlor. destruct (pte_store s1 oth d T1 l1 n t (pa + Z.lor perm 1) Ht1 Htl) as (Htb2 & Hp2 & Hs2 & _).
  change (set_vmk (set_kmemory ?m (vmk s1)) s1) with (with_mem m s1).
  set (m2 := store32 (vmem s1) (t + 4 * (n mod 1024)) (pa + Z.lor perm 1)) in *. pose proof (lor_1_range perm Hperm) as Hfr.
  assert (Hm : mapped s oth d T l n 1 pa (Z.lor perm 1) (with_mem m2 s1) T1 l1).
  { split; [done|by eexists| | | |by eapply same_trans].
    - destruct Hcase as [[-> _]|(? & -> & _)]; [done|by apply insert_subseteq].
    - destruct Hcase as [[_ ->]|(_ & _ & ->)]; [by exists []|by exists [t]].
    - intros n'. change (vmem (with_mem m2 s1)) with m2. rewrite Hp2, Hp1. repeat case_decide; subst; try lia.
      rewrite u32_id; lia. }
  assert (Hmiss : forall b, n / 1024 < b -> (missing T (n / 1024) b + length l1 = missing T1 (n / 1024) b + length l)%nat).
  { intros b Hb. destruct Hcase as [[-> ->]|(Hnone & -> & ->)]; [done|]. rewrite (missing_insert T _ _ t) by done. cbn. lia. }
  specialize (HS (with_mem m2 s1) T1 l1 t Hm Htl Hmiss). by destruct (4096 * n =? last).
Qed.

Lemma mappages_loop oth d perm N : 0 <= perm < 4096 -> forall fuel s T l n pa, (N < fuel)%nat -> tables s oth d T l ->
  0 <= n -> n + Z.of_nat N < 2 ^ 20 -> pa mod 4096 = 0 -> 0 <= pa -> pa + 4096 * (Z.of_nat N + 1) <= 2 ^ 32 ->
  (forall n', n <= n' <= n + Z.of_nat N -> Z.odd (pte (vmem s) T n') = false) ->
  wp (loop fuel (mappages_step d (4096 * (n + Z.of_nat N)) perm) (4096 * n, pa))
    (mappages_post s oth d T l n N pa (Z.lor perm 1)) s.
Proof.
  intros Hperm. induction N as [|N IH]; intros fuel s T l n pa Hf Htb Hn HnN Hpa Hpa0 Hpa1 Hodd;
    (destruct fuel as [|fuel]; [lia|]); cbn [loop]; apply wp_bind, (map_step s oth d T l); try done; try lia; try (apply Hodd; lia).
  1, 3: intros Hmiss ->; apply wp_ret; exists 0, T, []; split_and!;
    [by apply mapped_none|by right; split_and!; [|lia|lia|]|]; rewrite (missing_insert T _ _ 0) by (first [done|zlia]); cbn; lia.
  - intros s1 T1 l1 t Hm Ht Hmiss. rewrite Z.add_0_r, Z.eqb_refl. apply wp_ret. exists 1, T1, l1.
    split_and!; [done|by left|]. intros _. split; [done|]. cbn [Z.of_nat]. rewrite Z.add_0_r. specialize (Hmiss (n / 1024 + 1) ltac:(lia)).
    rewrite (missing_skip T1 _ _ t), missing_nil in Hmiss by (done || lia). lia.
  - intros s1 T1 l1 t Hm Ht Hmiss. rewrite (proj2 (Z.eqb_neq (4096 * n) _)) by lia.
    replace (u32 (4096 * n + PGSIZE)) with (4096 * (n + 1)) by (change PGSIZE with 4096; rewrite u32_id; lia).
    replace (u32 (pa + PGSIZE)) with (pa + 4096) by (change PGSIZE with 4096; rewrite u32_id; lia).
    replace (n + Z.of_nat (S N)) with (n + 1 + Z.of_nat N) in * by lia.
    eapply wp_mono; [apply (IH fuel s1 T1 l1); try done; try lia; [apply Hm|zlia|]|].
    + intros n' Hn'. rewrite (mp_pte _ _ _ _ _ _ _ _ _ _ _ _ Hm), decide_False by lia. apply Hodd. lia.
    + intros r s' (c & T' & l' & Hm' & Hr & Henough). exists (c + 1), T', l'.
      assert (Hc : 0 <= c) by (destruct Hr as [[_ ->]|(_ & ? & _)]; lia).
      split_and!.
      * destruct Hm as [H1 H2 H3 H4 H5 H6]. eapply (mapped_cons s oth d T l T1 l1 s1); try done.
        intros n'. rewrite H5. repeat case_decide; subst; try lia.
      * destruct Hr as [[-> ->]|(-> & ? & ->)]; [left; split; [done|lia]|right; split_and!; [done|lia|lia|done]].
      * intros Hle. replace (n + Z.of_nat (S N)) with (n + 1 + Z.of_nat N) in * by lia.
        set (b := (n + 1 + Z.of_nat N) / 1024 + 1) in *. assert (Hb : n / 1024 < b) by (unfold b; zlia).
        specialize (Hmiss b Hb). rewrite (missing_next T1 n b t) in Hmiss by done. destruct Henough as [-> Hlen]; [lia|]. split; [done|lia].
Qed.

Lemma mappages_wp s oth d T l va size pa perm :
  let first := va / 4096 in let N := Z.to_nat ((va + size - 1) / 4096 - first) in
  tables s oth d T l -> 0 <= va -> 0 < size -> va + size <= 2 ^ 32 -> 0 <= perm < 4096 ->
  pa mod 4096 = 0 -> 0 <= pa -> pa + 4096 * (Z.of_nat N + 1) <= 2 ^ 32 ->
  (forall n, first <= n <= first + Z.of_nat N -> Z.odd (pte (vmem s) T n) = false) ->
  wp (mappages d va size pa perm) (mappages_post s oth d T l first N pa (Z.lor perm 1)) s.
Proof.
  intros first N Htb Hva Hsz Hend' Hperm Hpa Hpa0 Hpa1 Hodd. unfold mappages.
  assert (HN : first + Z.of_nat N = (va + size - 1) / 4096) by (unfold N, first; zlia).
  rewrite (u32_id (va + size - 1)), !rounddown, <-HN by lia. fold first.
  apply mappages_loop; try done; [|unfold first; zlia|rewrite HN; zlia].
  change PGSIZE with 4096. rewrite u32_id by (unfold first in *; zlia).
  replace ((4096 * (first + Z.of_nat N) - 4096 * first) / 4096) with (Z.of_nat N) by zlia. lia.
Qed.

(** A mapped page has a table. *)
Lemma pte_table m T n : Z.odd (pte m T n) = true -> exists t, T !! (n / 1024) = Some t.
Proof. unfold pte. destruct (T !! (n / 1024)) as [t|]; [by exists t|done]. Qed.
Lemma missing_le T a b : a <= b -> (missing T a b <= Z.to_nat (b - a))%nat.
Proof. intros. unfold missing. etrans; [apply length_filter|]. rewrite length_seqZ. lia. Qed.

(** ** setupkvm *)

(** A fresh page as directory. *)
Lemma tables_fresh s p ps l : owns s (p :: ps) l -> (forall x, p <= x < p + 4096 -> vmem s x = 0) -> tables s ps p ∅ l.
Proof.
  intros Ho Hz. split; [done|]. split; [|done]. intros i Hi. rewrite lookup_empty.
  assert (E : load32 (vmem s) (p + 4 * i) = load32 (fun _ => 0) (p + 4 * i)) by (apply (load32_set _ _ _ p); [lia|lia|done]).
  by rewrite E.
Qed.
Lemma pte_empty m n : pte m ∅ n = 0.
Proof. unfold pte. by rewrite lookup_empty. Qed.

(** The kernel's part of every address space ([data] is the first page of the
    kernel's data). *)
Definition kern (data n : Z) : Z :=
  if decide (0x80000 <= n < 0x80100) then 4096 * (n - 0x80000) + 3
  else if decide (0x80100 <= n < data / 4096) then 4096 * (n - 0x80000) + 1
  else if decide (data / 4096 <= n < 0x8E000) then 4096 * (n - 0x80000) + 3
  else if decide (0xFE000 <= n < 0x100000) then 4096 * n + 3
  else 0.

(** One line of [kmap], with enough memory. *)
Lemma map_region s oth d T l virt phys size perm f :
  let first := virt / 4096 in let c := size / 4096 in
  tables s oth d T l -> virt mod 4096 = 0 -> size mod 4096 = 0 -> 0 <= virt -> 0 < size -> virt + size <= 2 ^ 32 ->
  phys mod 4096 = 0 -> 0 <= phys -> phys + size <= 2 ^ 32 -> 0 <= perm < 4096 -> f = Z.lor perm 1 ->
  (forall n, first <= n < first + c -> pte (vmem s) T n = 0) ->
  (missing T (first / 1024) ((first + c - 1) / 1024 + 1) <= length l)%nat ->
  wp (mappages d virt size phys perm) (fun r s' => r = 0 /\ exists T' l', mapped s oth d T l first c phys f s' T' l' /\
    length l = (missing T (first / 1024) ((first + c - 1) / 1024 + 1) + length l')%nat) s.
Proof.
  intros first c Htb Hv Hs Hv0 Hs0 Hvs Hp Hp0 Hps Hperm -> Hz Hle.
  assert (HN : Z.of_nat (Z.to_nat ((virt + size - 1) / 4096 - first)) = c - 1) by (unfold c, first; zlia).
  eapply wp_mono; [apply (mappages_wp s oth d T l); try done|].
  - fold first. rewrite HN. unfold c. zlia.
  - fold first. rewrite HN. intros n Hn. by rewrite Hz by lia.
  - intros r s' (c' & T' & l' & Hm & Hr & He). fold first in He, Hm, Hr. rewrite HN in He.
    replace (first + (c - 1)) with (first + c - 1) in He by lia. destruct He as [-> Hl]; [done|]. split; [done|].
    destruct Hr as [[_ ->]|(? & _)]; [|done]. rewrite ?HN in Hm. replace (c - 1 + 1) with c in Hm by lia. eauto.
Qed.

Context (data : Z) `{HD : !DataLinked data}.

(** Directory [d] under construction since state [s0]: the entries are [F]. *)
Record built s0 s oth d T l (F : Z -> Z) : Prop := {
  bu_tab : tables s oth d T l;
  bu_only : exists k, s = set_vmk k s0;
  bu_pte n : pte (vmem s) T n = F n;
  bu_same : same_on oth (vmem s0) (vmem s)
}.
Definition put (F : Z -> Z) (first c pa f : Z) : Z -> Z :=
  fun n => if decide (first <= n < first + c) then pa + 4096 * (n - first) + f else F n.
Lemma built_region s0 s oth d T l F virt phys size perm f need (rest : M vm Z) (Q : Z -> vm -> Prop) :
  let first := virt / 4096 in let c := size / 4096 in
  built s0 s oth d T l F -> virt mod 4096 = 0 -> size mod 4096 = 0 -> 0 <= virt -> 0 < size -> virt + size <= 2 ^ 32 ->
  phys mod 4096 = 0 -> 0 <= phys -> phys + size <= 2 ^ 32 -> 0 <= perm < 4096 -> f = Z.lor perm 1 ->
  (forall n, first <= n < first + c -> F n = 0) ->
  (missing T (first / 1024) ((first + c - 1) / 1024 + 1) <= need)%nat -> (need <= length l)%nat ->
  (forall s' T' l', built s0 s' oth d T' l' (put F first c phys f) -> (length l <= need + length l')%nat -> wp rest Q s') ->
  wp (r <-- mappages d virt size phys perm ;; if r <? 0 then ret 0 else rest) Q s.
Proof.
  intros first c [Htb (k0 & ->) Hpte Hsame] Hv Hs Hv0 Hs0 Hvs Hp Hp0 Hps Hperm Hf HF Hmiss Hneed Hrest.
  apply wp_bind. eapply wp_mono; [apply (map_region _ oth d T l) with (f := f); try done|].
  - intros n Hn. rewrite Hpte. by apply HF.
  - etrans; [exact Hmiss|exact Hneed].
  - intros r s' (-> & T' & l' & [H1 (k & ->) _ _ H5 H6] & Hl). apply (Hrest _ T' l').
    + split; [done|by exists k| |by eapply same_trans]. intros n. rewrite H5. unfold put, first, c. case_decide; [done|apply Hpte].
    + rewrite Hl. apply Nat.add_le_mono_r, Hmiss.
Qed.
(** After mapping, the regions of the pages mapped have tables. *)
Lemma built_table s0 s oth d T l F n : built s0 s oth d T l F -> Z.odd (F n) = true -> exists t, T !! (n / 1024) = Some t.
Proof. intros [_ _ Hp _]. rewrite <-Hp. apply pte_table. Qed.
Lemma missing_hit T a b t : a < b -> T !! a = Some t -> (missing T a b <= Z.to_nat (b - a - 1))%nat.
Proof. intros Hab Ht. rewrite (missing_skip T a b t) by done. etrans; [apply missing_le; lia|]. lia. Qed.

Lemma map_kernel_wp s0 s oth d l (Q : Z -> vm -> Prop) : built s0 s oth d ∅ l (fun _ => 0) -> (64 <= length l)%nat ->
  (forall k T l', let s' := set_vmk k s0 in tables s' oth d T l' -> (forall n, pte (vmem s') T n = kern data n) ->
     same_on oth (vmem s0) (vmem s') -> (length l <= 64 + length l')%nat -> Q d s') -> wp (map_kernel d (kmap data)) Q s.
Proof.
  intros Hb Hlen HQ. destruct HD as [Hdata Hdata0 Hdata1].
  change KERNLINK with 0x80100000 in *. change (KERNBASE + PHYSTOP) with 0x8E000000 in *.
  assert (Hv2p : v2p data = data - 0x80000000) by (unfold v2p; change KERNBASE with 0x80000000; rewrite u32_id; lia).
  unfold kmap. cbn [map_kernel]. rewrite Hv2p. change (v2p KERNLINK) with 0x100000. change KERNLINK with 0x80100000.
  change KERNBASE with 0x80000000. change EXTMEM with 0x100000. change PHYSTOP with 0xE000000. change DEVSPACE with 0xFE000000.
  change (u32 (0 - 0xFE000000)) with 0x2000000. change (u32 (0x100000 - 0)) with 0x100000.
  rewrite !u32_id by lia. replace (data - 0x80000000 - 0x100000) with (data - 0x80100000) by lia.
  replace (0xE000000 - (data - 0x80000000)) with (0x8E000000 - data) by lia. unfold PTE_W.
  set (x := (data - 1) / 4194304). assert (Hx : 512 <= x <= 567) by (unfold x; zlia).
  eapply (built_region s0 s oth d ∅ l _ 0x80000000 0 0x100000 2 3 1); [done|done|done|done|done|done|done|done|done|done|done|done|by apply missing_le|lia|].
  intros s1 T1 l1 Hb1 Hl1. destruct (built_table _ _ _ _ _ _ _ 0x80000 Hb1 ltac:(done)) as (t1 & Ht1).
  eapply (built_region s0 s1 oth d T1 l1 _ 0x80100000 0x100000 (data - 0x80100000) 0 1 (Z.to_nat (x - 512)));
    [done|done|zlia|lia|lia|lia|done|lia|lia|lia|done| | |lia|].
  { intros n Hn. unfold put. rewrite decide_False; [done|]. change (0x80100000 / 4096) with 0x80100 in Hn. zlia. }
  { change (0x80100000 / 4096) with 0x80100. change (0x80100 / 1024) with 512.
    replace ((0x80100 + (data - 0x80100000) / 4096 - 1) / 1024 + 1) with (x + 1) by (unfold x; zlia).
    etrans; [by apply (missing_hit T1 512 (x + 1) t1); [lia|]|]. lia. }
  intros s2 T2 l2 Hb2 Hl2.
  assert (Ht2 : exists t, T2 !! x = Some t).
  { replace x with ((data / 4096 - 1) / 1024) by (unfold x; zlia). eapply built_table; [done|]. unfold put.
    rewrite decide_True by (change (0x80100000 / 4096) with 0x80100; zlia).
    replace (0x100000 + _ + 1) with (1 + 2 * (0x80000 + 2048 * (data / 4096 - 1 - 0x80100))) by (change (0x80100000 / 4096) with 0x80100; lia).
    by rewrite Z.odd_add_mul_2. }
  destruct Ht2 as (t2 & Ht2).
  eapply (built_region s0 s2 oth d T2 l2 _ data (data - 0x80000000) (0x8E000000 - data) 2 3 (Z.to_nat (567 - x)));
    [done|done|zlia|lia|lia|lia|zlia|lia|lia|lia|done| | |lia|].
  { intros n Hn. unfold put. rewrite !decide_False; [done|..]; change (0x80100000 / 4096) with 0x80100; change (0x80000000 / 4096) with 0x80000; zlia. }
  { replace ((data / 4096 + (0x8E000000 - data) / 4096 - 1) / 1024 + 1) with 568 by zlia.
    destruct (decide (data / 4096 / 1024 = x)) as [->|].
    - etrans; [apply (missing_hit T2 x 568 t2); [lia|done]|]. lia.
    - etrans; [apply missing_le; zlia|]. unfold x in *. zlia. }
  intros s3 T3 l3 Hb3 Hl3.
  eapply (built_region s0 s3 oth d T3 l3 _ 0xFE000000 0xFE000000 0x2000000 2 3 8); [done|done|done|done|done|done|done|done|done|done|done| |by apply missing_le|lia|].
  { intros n Hn. unfold put. rewrite !decide_False; [done|..]; change (0x80100000 / 4096) with 0x80100; change (0x80000000 / 4096) with 0x80000;
      change (0xFE000000 / 4096) with 0xFE000 in *; zlia. }
  intros s4 T4 l4 [H1 (k4 & ->) H3 H4] Hl4. apply wp_ret. apply (HQ k4 T4 l4); [done| |done|lia].
  intros n. rewrite H3. unfold put, kern. change (0x80100000 / 4096) with 0x80100. change (0x80000000 / 4096) with 0x80000.
  change (0xFE000000 / 4096) with 0xFE000. change (0x100000 / 4096) with 0x100. change (0x2000000 / 4096) with 0x2000.
  repeat case_decide; try lia; try zlia.
Qed.

Lemma setupkvm_wp s oth l (Q : Z -> vm -> Prop) : owns s oth l -> (65 <= length l)%nat ->
  (forall k d T l', let s' := set_vmk k s in d <> 0 -> tables s' oth d T l' -> (forall n, pte (vmem s') T n = kern data n) ->
     same_on oth (vmem s) (vmem s') -> (length l <= 65 + length l')%nat -> Q d s') -> wp (setupkvm data) Q s.
Proof.
  intros Ho Hlen HQ.
  destruct l as [|d l]; [cbn in Hlen; lia|]. cbn [length] in Hlen.
  unfold setupkvm. apply wp_bind, (vkalloc_wp s oth d l); [done|]. intros k s1 Ho1 Hm1 Hnz.
  rewrite (proj2 (Z.eqb_neq d 0)) by done. apply wp_bind, wp_modify. destruct (owns_memset _ _ _ _ Ho1) as [Ho2 Hm2].
  change (set_vmk (set_kmemory ?m (vmk s1)) s1) with (with_mem m s1). set (m2 := memset (vmem s1) d 0 PGSIZE) in *.
  assert (Hs2 : same_on oth (vmem s) m2).
  { rewrite <-Hm1. destruct (owns_notin _ _ _ _ Ho1) as (Hdp & Hdn & _). apply (same_out d); [done| |done|].
    - destruct Ho1 as [_ Hp _]. by apply Forall_cons in Hp as [_ Hp].
    - intros x Hx. by rewrite Hm2, decide_False. }
  set (s2 := with_mem m2 s1) in *.
  assert (Ht2 : tables s2 oth d ∅ l) by (apply tables_fresh; [done|]; intros x Hx; change (vmem s2) with m2; by rewrite Hm2, decide_True).
  assert (Hk2 : exists k', s2 = set_vmk k' s) by (by eexists). change m2 with (vmem s2) in Hs2. clearbody s2. clear m2 Hm2 Ho2.
  replace (DEVSPACE <? p2v PHYSTOP) with false by reflexivity.
  apply (map_kernel_wp s s2 oth d l); [split; try done; intros n; apply pte_empty|lia|].
  intros k' T' l' s' Ht Hp Hs Hl. apply (HQ k' d T' l'); try done. cbn. lia.
Qed.
End spec.
