(* ===== verification/VmUser.v ===== *)
(** * User address spaces: allocuvm, deallocuvm, freevm, copyuvm, copyout

    An address space is a directory, its tables, and the user pages they map;
    every one of these pages belongs to it alone. *)

From S2P Require Import Prelude Params Strings Kalloc Vm VmSpec.

(** User pages by page number: the page and the flags of its entry. *)
Notation umap := (gmap Z (Z * Z)).
Definition upages (U : umap) : list Z := (map_to_list U).*2.*1.
Lemma upages_insert (U : umap) n p f : U !! n = None -> upages (<[n := (p, f)]> U) ≡ₚ p :: upages U.
Proof. intros Hn. unfold upages. by rewrite map_to_list_insert. Qed.
Lemma upages_delete (U : umap) n p f : U !! n = Some (p, f) -> p :: upages (delete n U) ≡ₚ upages U.
Proof. intros Hn. unfold upages. by rewrite <-(map_to_list_delete U n (p, f) Hn). Qed.
Lemma upages_elem (U : umap) n p f : U !! n = Some (p, f) -> p ∈ upages U.
Proof. intros Hn. rewrite <-(upages_delete U n p f Hn). by left. Qed.
(** The byte at user address [va]. *)
Definition ubyte (m : mem) (U : umap) (va : Z) : Z :=
  match U !! (va / 4096) with Some (p, _) => m (p + va mod 4096) | None => 0 end.

Section user.
Context (end_ : Z) `{Hend : !Linked end_} {G : Pages} (data : Z).
Notation page := (page end_).
Notation entry := (entry end_).
Notation tables := (tables end_).
Notation owns := (owns end_).
Implicit Types (s : vm) (T : gmap Z Z) (U : umap).

(** The entries of the user part describe [U]; the rest is the kernel's. *)
Definition user_ok (m : mem) T U : Prop :=
  (forall n, 0 <= n < 0x80000 -> match U !! n with
     | Some (p, f) => entry p f (pte m T n)
     | None => Z.odd (pte m T n) = false
     end) /\
  (forall n pf, U !! n = Some pf -> 0 <= n < 0x80000) /\
  (forall n, 0x80000 <= n -> pte m T n = kern data n).
Record space s oth d T U l : Prop := {
  sp_tab : tables s (upages U ++ oth) d T l;
  sp_user : user_ok (vmem s) T U
}.

Lemma space_vmk s s' oth d T U l : vmk s' = vmk s -> space s oth d T U l -> space s' oth d T U l.
Proof.
  intros Hk [[[H1 H2 H3 H4] H5] H6]. split; [split; [split; [by rewrite Hk|done..]|]|]; unfold vmem; by rewrite Hk.
Qed.
Lemma user_same m m' T U : same_on (vals T) m m' -> user_ok m T U -> user_ok m' T U.
Proof.
  intros Hs (H1 & H2 & H3). split_and!; [|done|].
  - intros n Hn. rewrite (pte_same _ _ T n Hs). by apply H1.
  - intros n Hn. rewrite (pte_same _ _ T n Hs). by apply H3.
Qed.
Lemma space_user s oth d T U l n p f : space s oth d T U l -> U !! n = Some (p, f) -> entry p f (pte (vmem s) T n) /\ 0 <= n < 0x80000.
Proof. intros [_ (H1 & H2 & _)] Hn. specialize (H1 n (H2 _ _ Hn)). rewrite Hn in H1. eauto. Qed.
Lemma space_none s oth d T U l n : space s oth d T U l -> 0 <= n < 0x80000 -> U !! n = None -> Z.odd (pte (vmem s) T n) = false.
Proof. intros [_ (H1 & _)] Hn Hu. specialize (H1 n Hn). by rewrite Hu in H1. Qed.
Lemma entry_table m T n p f : entry p f (pte m T n) -> exists t, T !! (n / 1024) = Some t.
Proof. intros (Hp & Hf & Ho & E). apply (pte_table m). destruct (page_v2p end_ p Hp) as (_ & Hm & _). by rewrite E, odd_page. Qed.
(** Reading the entry of a page number with a table. *)
Lemma walk_read s oth d T l n t (Q : Z -> vm -> Prop) alloc : tables s oth d T l -> 0 <= n < 2 ^ 20 -> T !! (n / 1024) = Some t ->
  t + 4 * (n mod 1024) <> 0 -> Q (t + 4 * (n mod 1024)) s -> wp (walkpgdir d (4096 * n) alloc) Q s.
Proof.
  intros Ht Hn Htn _ HQ. unfold wp. rewrite (walk_hit end_ _ _ T _ t); [|by destruct Ht|lia|by replace (4096 * n / 4096) with n by zlia].
  by replace (4096 * n / 4096) with n by zlia.
Qed.
Lemma table_nonzero s oth d T l i t n : tables s oth d T l -> T !! i = Some t -> t + 4 * (n mod 1024) <> 0.
Proof. intros [_ Hd] Ht. destruct (page_range end_ t (dir_page end_ _ _ _ _ _ Hd Ht)). zlia. Qed.

(** Removing a user page. *)
Lemma space_remove s oth d T U l n p f : space s oth d T U l -> U !! n = Some (p, f) ->
  forall m' l' k, tables (set_vmk k s) (upages (delete n U) ++ oth) d T l' -> vmem (set_vmk k s) = m' ->
  (forall n', pte m' T n' = if decide (n' = n) then 0 else pte (vmem s) T n') -> space (set_vmk k s) oth d T (delete n U) l'.
Proof.
  intros Hsp Hn m' l' k Ht Hm Hp. destruct (space_user _ _ _ _ _ _ _ _ _ Hsp Hn) as [_ Hr].
  destruct Hsp as [_ (H1 & H2 & H3)]. split; [done|]. rewrite Hm. split_and!.
  - intros n' Hn'. rewrite Hp. case_decide as E.
    + subst. by rewrite lookup_delete_eq.
    + rewrite lookup_delete_ne by done. by apply H1.
  - intros n' pf [_ ?]%lookup_delete_Some. eauto.
  - intros n' Hn'. rewrite Hp, decide_False by lia. by apply H3.
Qed.

(** ** deallocuvm *)

Lemma dealloc_one s oth d T U l oldsz n p f (Q : Z + unit -> vm -> Prop) :
  space s oth d T U l -> U !! n = Some (p, f) -> 4096 * n < oldsz ->
  (forall k, let s' := set_vmk k s in space s' oth d T (delete n U) (p :: l) ->
     same_on (upages (delete n U) ++ oth) (vmem s) (vmem s') -> Q (inl (4096 * (n + 1))) s') ->
  wp (deallocuvm_step end_ d oldsz (4096 * n)) Q s.
Proof.
  intros Hsp Hn Hlt HQ. destruct (space_user _ _ _ _ _ _ _ _ _ Hsp Hn) as [He Hr].
  destruct (entry_table _ _ _ _ _ He) as (t & Ht). destruct (entry_facts end_ _ _ _ He) as (HP & Ha & Hpa & _).
  pose proof (sp_tab _ _ _ _ _ _ Hsp) as Htb. unfold deallocuvm_step. rewrite (proj2 (Z.ltb_lt _ _)) by done.
  apply wp_bind; eapply (walk_read s _ d T l n t); [done|lia|done|by eapply table_nonzero|].
  rewrite (proj2 (Z.eqb_neq _ 0)) by (by eapply table_nonzero). apply wp_bind, wp_gets.
  assert (Hrd : load32 (vmem s) (t + 4 * (n mod 1024)) = pte (vmem s) T n) by (unfold pte; by rewrite Ht).
  rewrite Hrd, HP, Ha. assert (Hpg : page p) by exact (proj1 He). destruct (page_v2p end_ p Hpg) as (_ & _ & Hv).
  rewrite (proj2 (Z.eqb_neq (v2p p) 0)) by lia. rewrite (page_p2v end_) by done.
  assert (Ho : owns s (p :: d :: vals T ++ upages (delete n U) ++ oth) l).
  { eapply owns_perm; [|by destruct Htb]. rewrite <-(upages_delete U n p f Hn). cbn. rewrite <-Permutation_middle. apply Permutation_swap. }
  apply wp_bind, wp_bind, (vkfree_wp end_ s p (d :: vals T ++ upages (delete n U) ++ oth) l); [done|]. intros k1 s1 Ho1 Hm1.
  destruct (owns_same end_ _ _ _ _ _ Ho Hm1) as [Hsame1 _].
  assert (Htb1 : tables s1 (upages (delete n U) ++ oth) d T (p :: l)).
  { split; [done|]. eapply dir_same; [|by destruct Htb]. eapply same_sub; [|exact Hsame1]. set_solver. }
  destruct (pte_store end_ s1 _ d T _ n t 0 Htb1 Ht) as (Htb2 & Hp2 & Hs2 & _).
  apply wp_modify, wp_ret. replace (u32 (4096 * n + PGSIZE)) with (4096 * (n + 1)) by (change PGSIZE with 4096; rewrite u32_id; lia).
  set (m2 := store32 (vmem s1) (t + 4 * (n mod 1024)) 0) in *. apply (HQ (set_kmemory m2 k1)).
  - eapply space_remove; [done|done|exact Htb2|reflexivity|]. intros n'. rewrite Hp2.
    case_decide; [done|]. apply pte_same. eapply same_sub; [|exact Hsame1]. set_solver.
  - eapply same_trans; [|exact Hs2]. eapply same_sub; [|exact Hsame1]. set_solver.
Qed.
(** A page that is not mapped, in a region with a table. *)
Lemma dealloc_skip s oth d T U l oldsz n t (Q : Z + unit -> vm -> Prop) :
  space s oth d T U l -> U !! n = None -> T !! (n / 1024) = Some t -> 0 <= n < 0x80000 -> 4096 * n < oldsz ->
  Q (inl (4096 * (n + 1))) s -> wp (deallocuvm_step end_ d oldsz (4096 * n)) Q s.
Proof.
  intros Hsp Hn Ht Hr Hlt HQ. pose proof (sp_tab _ _ _ _ _ _ Hsp) as Htb. unfold deallocuvm_step.
  rewrite (proj2 (Z.ltb_lt _ _)) by done.
  apply wp_bind; eapply (walk_read s _ d T l n t); [done|lia|done|by eapply table_nonzero|].
  rewrite (proj2 (Z.eqb_neq _ 0)) by (by eapply table_nonzero). apply wp_bind, wp_gets.
  assert (Hrd : load32 (vmem s) (t + 4 * (n mod 1024)) = pte (vmem s) T n) by (unfold pte; by rewrite Ht).
  rewrite Hrd, has_P, (space_none _ _ _ _ _ _ n Hsp) by done. apply wp_bind, wp_ret, wp_ret.
  by replace (u32 (4096 * n + PGSIZE)) with (4096 * (n + 1)) by (change PGSIZE with 4096; rewrite u32_id; lia).
Qed.
(** A region without table. *)
Lemma dealloc_region s oth d T U l oldsz n (Q : Z + unit -> vm -> Prop) :
  space s oth d T U l -> T !! (n / 1024) = None -> 0 <= n < 0x80000 -> 4096 * n < oldsz ->
  Q (inl (4096 * (n + 1024))) s -> wp (deallocuvm_step end_ d oldsz (4096 * n)) Q s.
Proof.
  intros Hsp Ht Hr Hlt HQ. pose proof (sp_tab _ _ _ _ _ _ Hsp) as Htb. unfold deallocuvm_step.
  rewrite (proj2 (Z.ltb_lt _ _)) by done. apply wp_bind. unfold wp at 1.
  rewrite (walk_miss end_ s d T); [|by destruct Htb|lia|by replace (4096 * n / 4096) with n by zlia].
  apply wp_ret. rewrite u32_add_l. change (NPTENTRIES - 1) with 1023. change PGSIZE with 4096.
  by replace (u32 (4096 * n + 1023 * 4096 + 4096)) with (4096 * (n + 1024)) by (rewrite u32_id; lia).
Qed.

(** [U] without the pages from [a] to [b]. *)
Definition cut (a b : Z) U : umap := filter (fun '(n, _) => ~ (a <= n < b)) U.
Lemma cut_lookup a b U n : cut a b U !! n = if decide (a <= n < b) then None else U !! n.
Proof.
  unfold cut. rewrite map_lookup_filter. destruct (U !! n) as [pf|]; cbn; [|by case_decide].
  case_decide as H1.
  - by rewrite option_guard_False by tauto.
  - by rewrite option_guard_True.
Qed.
Lemma cut_nil a b U : b <= a -> cut a b U = U.
Proof. intros. apply map_eq. intros n. rewrite cut_lookup, decide_False by lia. done. Qed.
Lemma cut_skip a b c U : a <= c -> (forall n, a <= n < c -> U !! n = None) -> cut a b U = cut c b U.
Proof.
  intros Hc Hn. apply map_eq. intros n. rewrite !cut_lookup. repeat case_decide; try done; try lia. symmetry. apply Hn. lia.
Qed.
Lemma cut_del a b U : a < b -> cut a b U = cut (a + 1) b (delete a U).
Proof.
  intros Hb. apply map_eq. intros n. rewrite !cut_lookup. destruct (decide (n = a)) as [->|].
  - rewrite lookup_delete_eq. repeat case_decide; try done; lia.
  - rewrite lookup_delete_ne by done. repeat case_decide; try done; lia.
Qed.

(** The test of [deallocuvm] skips four megabytes when a table is missing; the
    loop must start at such a boundary or at a page that has a table. *)
Definition start_ok T (n : Z) : Prop := n mod 1024 = 0 \/ T !! (n / 1024) <> None.

(** The pages [a..b] of [U] have gone back to the free list. *)
Record unmapped s oth d T U l (a b : Z) s' l' : Prop := {
  um_space : space s' oth d T (cut a b U) l';
  um_only : exists k, s' = set_vmk k s;
  um_free : upages (cut a b U) ++ l' ≡ₚ upages U ++ l;
  um_same : same_on (upages (cut a b U) ++ oth) (vmem s) (vmem s')
}.

Lemma cut_pages a b U p : p ∈ upages (cut a b U) -> p ∈ upages U.
Proof.
  unfold upages. rewrite !list_elem_of_fmap. intros (pf & -> & Hpf). apply list_elem_of_fmap in Hpf as ([n pf'] & -> & Hn).
  apply elem_of_map_to_list in Hn. rewrite cut_lookup in Hn. case_decide; [done|].
  exists pf'. split; [done|]. apply list_elem_of_fmap. exists (n, pf'). split; [done|]. by apply elem_of_map_to_list.
Qed.

Lemma dealloc_loop oth d T b oldsz : b = (oldsz + 4095) / 4096 -> 0 <= oldsz <= 0x80000000 ->
  forall fuel s U l n, (Z.to_nat (b - n) < fuel)%nat -> space s oth d T U l -> 0 <= n -> start_ok T n ->
  wp (loop fuel (deallocuvm_step end_ d oldsz) (4096 * n)) (fun _ s' => exists l', unmapped s oth d T U l n b s' l') s.
Proof.
  intros Hb Hold. induction fuel as [|fuel IH]; intros s U l n Hfuel Hsp Hn0 Hst; [lia|].
  cbn [loop]. apply wp_bind. destruct (decide (n < b)) as [Hlt|Hge]; cycle 1.
  { unfold deallocuvm_step. rewrite (proj2 (Z.ltb_ge _ _)) by (subst b; zlia). apply wp_ret, wp_ret. exists l.
    split; [by rewrite cut_nil by lia|by exists (vmk s); rewrite set_vmk_id|by rewrite cut_nil by lia|done]. }
  assert (Hr : 0 <= n < 0x80000) by (subst b; zlia). assert (Hlo : 4096 * n < oldsz) by (subst b; zlia).
  destruct (T !! (n / 1024)) as [t|] eqn:Ht; [destruct (U !! n) as [[p f]|] eqn:Hn|].
  - eapply dealloc_one; [done|done|done|]. intros k s1 Hsp1 Hs1. eapply wp_mono; [apply IH; [lia|exact Hsp1|lia|]|].
    { destruct (decide (n / 1024 = (n + 1) / 1024)) as [E|]; [right; by rewrite <-E, Ht|left; zlia]. }
    intros [] s' (l' & [H1 (k' & ->) H3 H4]). exists l'. pose proof (cut_del n b U Hlt) as E. split; [by rewrite E|by exists k'| |]; rewrite E.
    + rewrite H3. rewrite <-(upages_delete U n p f Hn). cbn. by rewrite <-Permutation_middle.
    + eapply same_trans; [|exact H4]. eapply same_sub; [|exact Hs1]. intros q. rewrite !elem_of_app. intros [?%cut_pages|]; auto.
  - eapply dealloc_skip; [done..|]. eapply wp_mono; [apply IH; [lia|done|lia|]|].
    { destruct (decide (n / 1024 = (n + 1) / 1024)) as [E|]; [right; by rewrite <-E, Ht|left; zlia]. }
    intros [] s' (l' & Hu). exists l'.
    destruct Hu as [H1 H2 H3 H4]. assert (E : cut n b U = cut (n + 1) b U) by (apply cut_skip; [lia|]; intros n' Hn'; by replace n' with n by lia).
    split; by rewrite ?E.
  - destruct Hst as [Hal|]; [|done]. eapply dealloc_region; [done..|]. eapply wp_mono; [apply IH; [lia|done|lia|left; zlia]|].
    intros [] s' (l' & [H1 H2 H3 H4]). exists l'.
    assert (E : cut n b U = cut (n + 1024) b U).
    { apply cut_skip; [lia|]. intros n' Hn'. destruct (U !! n') as [[p f]|] eqn:Hu; [|done].
      destruct (space_user _ _ _ _ _ _ _ _ _ Hsp Hu) as [He _]. destruct (entry_table _ _ _ _ _ He) as (t & Ht').
      replace (n' / 1024) with (n / 1024) in Ht' by zlia. congruence. }
    split; by rewrite ?E.
Qed.

Lemma deallocuvm_wp s oth d T U l oldsz newsz : let a := (newsz + 4095) / 4096 in let b := (oldsz + 4095) / 4096 in
  space s oth d T U l -> 0 <= newsz < oldsz -> oldsz <= 0x80000000 -> start_ok T a ->
  wp (deallocuvm end_ d oldsz newsz) (fun r s' => r = newsz /\ exists l', unmapped s oth d T U l a b s' l') s.
Proof.
  intros a b Hsp Hnew Hold Hst. unfold deallocuvm. rewrite (proj2 (Z.leb_gt _ _)) by lia. rewrite roundup by lia. fold a.
  apply wp_bind. eapply wp_mono; [apply (dealloc_loop oth d T b oldsz); try done; try lia|].
  - change PGSIZE with 4096. unfold a, b. zlia.
  - unfold a. zlia.
  - intros [] s' H. by apply wp_ret.
Qed.

(** ** freevm *)

Lemma free_tables s oth d T l : tables s oth d T l ->
  wp (for_each (seq 0 (Z.to_nat NPDENTRIES)) (free_table end_ d)) (fun _ s' => exists k l', s' = set_vmk k s /\
    owns s' (d :: oth) l' /\ l' ≡ₚ vals T ++ l /\ same_on oth (vmem s) (vmem s')) s.
Proof.
  intros [Ho Hd]. eapply wp_mono.
  - apply (wp_for_seq _ (fun i s' => exists k Ti li, s' = set_vmk k s /\
      (forall j, Ti !! j = if decide (j < Z.of_nat i) then None else T !! j) /\
      owns s' (d :: vals Ti ++ oth) li /\ vals Ti ++ li ≡ₚ vals T ++ l /\ same_on (d :: oth) (vmem s) (vmem s'))).
    + intros i s' Hi (k & Ti & li & -> & HTi & Hoi & Hpi & Hsi). set (s1 := set_vmk k s) in *.
      assert (Hd1 : dir_ok end_ (vmem s1) d T) by (eapply dir_same; [|exact Hd]; eapply same_sub; [|exact Hsi]; set_solver).
      assert (Hir : 0 <= Z.of_nat i < 1024) by (change (Z.to_nat NPDENTRIES) with 1024%nat in Hi; lia).
      unfold free_table. apply wp_bind, wp_gets. destruct Hd1 as [Hd1 _]. specialize (Hd1 (Z.of_nat i) Hir).
      destruct (T !! Z.of_nat i) as [t|] eqn:Ht.
      * destruct Hd1 as (f & He). destruct (entry_facts end_ _ _ _ He) as (-> & _ & -> & _).
        assert (Hti : Ti !! Z.of_nat i = Some t) by (by rewrite HTi, decide_False by lia).
        eapply (vkfree_wp end_ _ t (d :: vals (delete (Z.of_nat i) Ti) ++ oth) li).
        { eapply owns_perm; [|exact Hoi]. rewrite <-(vals_delete Ti _ t Hti). cbn. apply Permutation_swap. }
        intros k' s2 Ho2 Hm2. exists k', (delete (Z.of_nat i) Ti), (t :: li). split_and!; [done| |done| |].
        -- intros j. destruct (decide (j = Z.of_nat i)) as [->|]; [rewrite lookup_delete_eq; by rewrite decide_True by lia|].
           rewrite lookup_delete_ne, HTi by done. repeat case_decide; try done; lia.
        -- rewrite <-Permutation_middle, <-Hpi, <-(vals_delete Ti _ t Hti). done.
        -- eapply same_trans; [exact Hsi|]. assert (Ho3 : owns s1 (t :: d :: vals (delete (Z.of_nat i) Ti) ++ oth) li).
           { eapply owns_perm; [|exact Hoi]. rewrite <-(vals_delete Ti _ t Hti). cbn. apply Permutation_swap. }
           destruct (owns_same end_ _ _ _ _ _ Ho3 Hm2) as [Hs3 _]. eapply same_sub; [|exact Hs3]. set_solver.
      * rewrite has_P, Hd1. apply wp_ret. exists k, Ti, li. split_and!; try done. intros j. rewrite HTi.
        destruct (decide (j = Z.of_nat i)) as [->|]; [rewrite Ht; by repeat case_decide|]. repeat case_decide; try done; lia.
    + exists (vmk s), T, l. rewrite set_vmk_id. split_and!; try done. intros j. case_decide; [|done].
      destruct (T !! j) as [t|] eqn:E; [|done]. destruct Hd as [_ Hd]. apply Hd in E. lia.
  - intros [] s' (k & Ti & li & -> & HTi & Hoi & Hpi & Hsi). exists k, li.
    assert (E : Ti = ∅).
    { apply map_empty. intros j. rewrite HTi. case_decide; [done|]. destruct (T !! j) as [t|] eqn:E; [|done].
      destruct Hd as [_ Hd]. apply Hd in E. change (Z.of_nat (Z.to_nat NPDENTRIES)) with 1024 in *. lia. }
    subst Ti. split_and!; [done|done|done|]. eapply same_sub; [|exact Hsi]. set_solver.
Qed.

Lemma freevm_wp s oth d T U l : space s oth d T U l -> d <> 0 ->
  wp (freevm end_ d) (fun _ s' => exists l', owns s' oth l' /\ l' ≡ₚ d :: vals T ++ upages U ++ l /\
    same_on oth (vmem s) (vmem s')) s.
Proof.
  intros Hsp Hnz. unfold freevm. rewrite (proj2 (Z.eqb_neq d 0)) by done. apply wp_bind.
  eapply wp_mono; [apply (deallocuvm_wp s oth d T U l KERNBASE 0); [done|done|done|by left]|].
  intros r s1 (_ & l1 & [[Ht1 _] (k1 & ->) Hf1 Hs1]).
  assert (E : cut ((0 + 4095) / 4096) ((KERNBASE + 4095) / 4096) U = ∅).
  { apply map_empty. intros n. rewrite cut_lookup. case_decide; [done|]. destruct (U !! n) as [pf|] eqn:Hn; [|done].
    destruct Hsp as [_ (_ & Hd & _)]. apply Hd in Hn. change ((0 + 4095) / 4096) with 0 in *. change ((KERNBASE + 4095) / 4096) with 0x80000 in *. lia. }
  rewrite E in Ht1, Hf1, Hs1. change (upages ∅) with (@nil Z) in *. cbn [app] in *.
  apply wp_bind. eapply wp_mono; [by apply free_tables|]. intros [] s2 (k2 & l2 & -> & Ho2 & Hp2 & Hs2).
  apply (vkfree_wp end_ _ d oth l2); [done|]. intros k3 s3 Ho3 Hm3. exists (d :: l2). split_and!; [done|by rewrite Hp2, Hf1|].
  eapply same_trans; [exact Hs1|]. eapply same_trans; [exact Hs2|]. by destruct (owns_same end_ _ _ _ _ _ Ho2 Hm3).
Qed.
(** C10. [freevm] gives every page of the address space back, and nothing else:
    the user pages, the page tables and the directory, each once, go to the free
    list; no other page in use changes. *)
Theorem freevm_spec s oth d T U l : space s oth d T U l -> d <> 0 ->
  wp (freevm end_ d) (fun _ s' => exists l', owns s' oth l' /\ l' ≡ₚ d :: vals T ++ upages U ++ l /\
    same_on oth (vmem s) (vmem s')) s.
Proof. exact (freevm_wp s oth d T U l). Qed.

(** ** Mapping a user page *)

(** Page [p], just allocated, becomes page number [n]; or there is no memory for
    a page table. *)
Lemma map_user s oth d T U l n p perm :
  tables s (p :: upages U ++ oth) d T l -> user_ok (vmem s) T U -> 0 <= n < 0x80000 -> U !! n = None -> 0 <= perm < 4096 ->
  wp (mappages d (4096 * n) PGSIZE (v2p p) perm) (fun r s' => exists k T' l', s' = set_vmk k s /\ T ⊆ T' /\
    same_on (p :: upages U ++ oth) (vmem s) (vmem s') /\
    ((r = 0 /\ space s' oth d T' (<[n := (p, Z.lor perm 1)]> U) l') \/
     (r = -1 /\ l' = [] /\ tables s' (p :: upages U ++ oth) d T' [] /\ user_ok (vmem s') T' U)) /\
    ((missing T (n / 1024) (n / 1024 + 1) <= length l)%nat ->
     r = 0 /\ length l = (missing T (n / 1024) (n / 1024 + 1) + length l')%nat)) s.
Proof.
  intros Htb Hu Hn Hnone Hperm.
  assert (Hp : page p). { destruct Htb as [[_ Hp _] _]. apply (proj1 (Forall_forall _ _) Hp). set_solver. }
  destruct (page_v2p end_ p Hp) as (Hv & Hva & Hvr). change PGSIZE with 4096.
  assert (HN : Z.to_nat ((4096 * n + 4096 - 1) / 4096 - 4096 * n / 4096) = 0%nat) by zlia.
  pose proof (mappages_wp end_ s _ d T l (4096 * n) 4096 (v2p p) perm Htb) as Hw. cbv zeta in Hw. rewrite HN in Hw.
  replace (4096 * n / 4096) with n in Hw by zlia. destruct Hu as (H1 & H2 & H3).
  eapply wp_mono; [apply Hw; try done; try lia|].
  { intros n' Hn'. replace n' with n by lia. specialize (H1 n Hn). by rewrite Hnone in H1. }
  intros r s' (c & T' & l' & [M1 (k & ->) M3 M4 M5 M6] & Hr & He). cbn [Z.of_nat] in *. rewrite Z.add_0_r in *.
  exists k, T', l'. split_and!; [done|done|done| |done]. pose proof (lor_1_range perm Hperm) as Hf.
  destruct Hr as [[-> ->]|(-> & Hc & ->)]; [left|right]; split_and!; try done.
  - split.
    + eapply tables_perm; [|exact M1]. by rewrite upages_insert.
    + split_and!.
      * intros n' Hn'. rewrite M5. destruct (decide (n' = n)) as [->|].
        -- rewrite lookup_insert_eq, decide_True by lia. split_and!; [done|lia|lia|apply odd_lor_1|lia].
        -- rewrite lookup_insert_ne, decide_False by (done || lia). by apply H1.
      * intros n' pf [(<- & _)|(_ & ?)]%lookup_insert_Some; eauto.
      * intros n' Hn'. rewrite M5, decide_False by lia. by apply H3.
  - assert (E : forall n', pte (vmem (set_vmk k s)) T' n' = pte (vmem s) T n') by (intros n'; by rewrite M5, decide_False by lia).
    split_and!; [|done|]; intros n' Hn'; rewrite E; [by apply H1|by apply H3].
Qed.

(** ** allocuvm *)

(** The free pages needed for the pages from [n] to [b] and their tables. *)
Definition need T (n b : Z) : nat := (Z.to_nat (b - n) + missing T (n / 1024) ((b - 1) / 1024 + 1))%nat.
Lemma need_step T T' n b t l l' : n < b -> T ⊆ T' -> T' !! (n / 1024) = Some t -> (need T n b <= l)%nat ->
  l = (1 + missing T (n / 1024) (n / 1024 + 1) + l')%nat -> (need T' (n + 1) b <= l')%nat.
Proof.
  intros Hlt Hsub Ht Hl Hl'. unfold need in *. rewrite (missing_split T _ (n / 1024 + 1)) in Hl by zlia.
  destruct (decide (n + 1 = b)) as [<-|].
  - replace (n + 1 - 1) with n in * by lia. assert (missing T' ((n + 1) / 1024) (n / 1024 + 1) = 0%nat); [|lia].
    rewrite <-(missing_next T' n _ t) by (done || lia). rewrite (missing_skip T' _ _ t) by (done || lia). apply missing_nil.
  - rewrite <-(missing_next T' n _ t) by (done || zlia). rewrite (missing_skip T' _ _ t) by (done || zlia).
    pose proof (missing_sub T T' (n / 1024 + 1) ((b - 1) / 1024 + 1) Hsub). lia.
Qed.
Lemma need_one T n b l : n < b -> (need T n b <= l)%nat -> (1 + missing T (n / 1024) (n / 1024 + 1) <= l)%nat.
Proof. intros Hlt. unfold need. rewrite (missing_split T _ (n / 1024 + 1)) by zlia. lia. Qed.

(** [U'] is [U] with fresh zeroed pages from [a] to [b]. *)
Record grown s oth d T U (l : list Z) (a b : Z) s' T' U' l' : Prop := {
  gr_space : space s' oth d T' U' l';
  gr_only : exists k, s' = set_vmk k s;
  gr_old n : ~ (a <= n < b) -> U' !! n = U !! n;
  gr_new n : a <= n < b -> exists p, U' !! n = Some (p, 7) /\ forall x, p <= x < p + 4096 -> vmem s' x = 0;
  gr_same : same_on (upages U ++ oth) (vmem s) (vmem s');
  gr_len : (length l <= need T a b + length l')%nat;
  gr_need c : b <= c -> (need T a c <= length l)%nat -> (need T' b c <= length l')%nat
}.

(** One page, with memory left. *)
Lemma alloc_one s oth d T U l oldsz newsz n (Q : Z + Z -> vm -> Prop) :
  space s oth d T U l -> 0 <= n < 0x80000 -> U !! n = None -> 4096 * n < newsz ->
  (1 + missing T (n / 1024) (n / 1024 + 1) <= length l)%nat ->
  (forall k T' p l', let s' := set_vmk k s in space s' oth d T' (<[n := (p, 7)]> U) l' -> T ⊆ T' ->
     length l = (1 + missing T (n / 1024) (n / 1024 + 1) + length l')%nat ->
     (forall x, p <= x < p + 4096 -> vmem s' x = 0) -> same_on (upages U ++ oth) (vmem s) (vmem s') ->
     Q (inl (4096 * (n + 1))) s') ->
  wp (allocuvm_step end_ d oldsz newsz (4096 * n)) Q s.
Proof.
  intros [[Ho Hd] Hu] Hn Hnone Hlt Hlen HQ. destruct l as [|p l]; [cbn in Hlen; lia|]. cbn [length] in Hlen.
  unfold allocuvm_step. rewrite (proj2 (Z.ltb_lt _ _)) by done.
  apply wp_bind. eapply (vkalloc_wp end_ s _ p l); [done|]. intros k1 s1 Ho1 Hm1 Hnz. rewrite (proj2 (Z.eqb_neq p 0)) by done.
  destruct (owns_memset end_ _ _ _ _ Ho1) as [Ho2 Hm2]. apply wp_bind, wp_modify. rewrite Hm1 in Ho2, Hm2 |- *.
  change (set_vmk (set_kmemory ?m (vmk s1)) s1) with (with_mem m s1). set (m2 := memset (vmem s) p 0 PGSIZE) in *.
  set (s2 := with_mem m2 s1) in *.
  assert (Hs2 : same_on (d :: vals T ++ upages U ++ oth) (vmem s) (vmem s2)).
  { rewrite <-Hm1. refine (proj1 (owns_same end_ s1 p _ l m2 Ho1 _)). intros x Hx. rewrite Hm1. by rewrite Hm2, decide_False. }
  assert (Ht2 : tables s2 (p :: upages U ++ oth) d T l).
  { split; [|eapply dir_same; [|exact Hd]; eapply same_sub; [|exact Hs2]; set_solver].
    eapply owns_perm; [|exact Ho2]. rewrite Permutation_swap. by rewrite (Permutation_middle (vals T)). }
  assert (Hu2 : user_ok (vmem s2) T U) by (eapply user_same; [|exact Hu]; eapply same_sub; [|exact Hs2]; set_solver).
  apply wp_bind. eapply wp_mono; [apply (map_user s2 oth d T U l n p); try done|].
  intros r s3 (k3 & T3 & l3 & -> & Hsub & Hs3 & Hr & He). destruct He as [-> Hl3]; [lia|]. apply wp_ret.
  replace (u32 (4096 * n + PGSIZE)) with (4096 * (n + 1)) by (change PGSIZE with 4096; rewrite u32_id; lia).
  destruct Hr as [[_ Hsp3]|[? _]]; [|done]. apply (HQ k3 T3 p l3); [done|done|cbn; lia| |].
  - intros x Hx. transitivity (vmem s2 x); [apply (Hs3 p x); [by left|done]|]. change (vmem s2) with m2. by rewrite Hm2, decide_True.
  - eapply same_trans; [eapply same_sub; [|exact Hs2]|eapply same_sub; [|exact Hs3]]; set_solver.
Qed.

Lemma alloc_loop oth d oldsz newsz b : b = (newsz + 4095) / 4096 -> 0 <= newsz < 0x80000000 ->
  forall fuel s T U l n, (Z.to_nat (b - n) < fuel)%nat -> space s oth d T U l -> 0 <= n -> (n <= b) ->
  (forall k, n <= k < b -> U !! k = None) -> (need T n b <= length l)%nat ->
  wp (loop fuel (allocuvm_step end_ d oldsz newsz) (4096 * n))
    (fun r s' => r = newsz /\ exists T' U' l', grown s oth d T U l n b s' T' U' l') s.
Proof.
  intros Hb Hnew. induction fuel as [|fuel IH]; intros s T U l n Hfuel Hsp Hn0 Hnb Hnone Hneed; [lia|].
  cbn [loop]. apply wp_bind. destruct (decide (n < b)) as [Hlt|Hge]; cycle 1.
  { unfold allocuvm_step. rewrite (proj2 (Z.ltb_ge _ _)) by (subst b; zlia). apply wp_ret, wp_ret. split; [done|]. exists T, U, l.
    split; [done|by exists (vmk s); rewrite set_vmk_id|done|lia|done|lia|]. by replace n with b by lia. }
  assert (Hlo : 0 <= n < 0x80000 /\ 4096 * n < newsz) by (subst b; zlia).
  eapply alloc_one; [done|lia|apply Hnone; lia|lia|by eapply need_one|].
  intros k T1 p l1 s1 Hsp1 Hsub Hl Hz Hs1.
  assert (Hin : <[n := (p, 7)]> U !! n = Some (p, 7)) by apply lookup_insert_eq.
  destruct (space_user _ _ _ _ _ _ _ _ _ Hsp1 Hin) as [He _]. destruct (entry_table _ _ _ _ _ He) as (t & Ht).
  eapply wp_mono; [apply (IH s1 T1 (<[n := (p, 7)]> U) l1); try done; try lia|].
  - intros k' Hk'. rewrite lookup_insert_ne by lia. apply Hnone. lia.
  - by eapply need_step.
  - intros r s' (-> & T' & U' & l' & [G1 (k' & ->) G3 G4 G5 G6 G7]). split; [done|]. exists T', U', l'.
    assert (Hpu : upages (<[n := (p, 7)]> U) ≡ₚ p :: upages U) by (apply upages_insert, Hnone; lia).
    split; [done|by exists k'| | | | |].
    + intros n' Hn'. rewrite G3 by lia. by rewrite lookup_insert_ne by lia.
    + intros n' Hn'. destruct (decide (n' = n)) as [->|]; [|apply G4; lia].
      exists p. rewrite G3 by lia. split; [done|]. intros x Hx. rewrite <-(Hz x Hx). apply (G5 p); [rewrite Hpu; by left|done].
    + eapply same_trans; [exact Hs1|]. eapply same_sub; [|exact G5]. intros q. rewrite Hpu. set_solver.
    + pose proof (need_one T n b _ Hlt (le_n _)) as H1.
      pose proof (need_step T T1 n b t _ (need T n b - 1 - missing T (n / 1024) (n / 1024 + 1)) Hlt Hsub Ht (le_n _) ltac:(lia)). lia.
    + intros c Hc Hneed'. apply G7; [done|]. eapply (need_step T T1 n c t _ _); [lia|done..].
Qed.

Lemma allocuvm_less s d oldsz newsz : newsz < KERNBASE -> newsz < oldsz -> allocuvm end_ d oldsz newsz s = Ok oldsz s.
Proof. intros H1 H2. unfold allocuvm. rewrite (proj2 (Z.leb_gt _ _)) by lia. by rewrite (proj2 (Z.ltb_lt _ _)). Qed.
Lemma allocuvm_wp s oth d T U l oldsz newsz : let a := (oldsz + 4095) / 4096 in let b := (newsz + 4095) / 4096 in
  space s oth d T U l -> 0 <= oldsz <= newsz -> newsz < KERNBASE ->
  (forall n, a <= n < b -> U !! n = None) -> (need T a b <= length l)%nat ->
  wp (allocuvm end_ d oldsz newsz) (fun r s' => r = newsz /\ exists T' U' l', grown s oth d T U l a b s' T' U' l') s.
Proof.
  intros a b Hsp Hold Hnew Hnone Hneed. unfold allocuvm. change KERNBASE with 0x80000000 in *.
  rewrite (proj2 (Z.leb_gt _ _)), (proj2 (Z.ltb_ge _ _)) by lia. rewrite roundup by lia. fold a.
  eapply (alloc_loop oth d oldsz newsz b); try done; try lia; [|unfold a; zlia|unfold a, b; zlia].
  change PGSIZE with 4096. unfold a, b. zlia.
Qed.
(** [allocuvm] on every branch, with enough free pages: it refuses a size
    above the user part and ignores a smaller one; otherwise it returns the new
    size, every new page is mapped, readable and writable by the user, zeroed
    and used by nothing else, and the old pages and all other memory in use are
    unchanged. *)
Theorem allocuvm_spec s oth d T U l oldsz newsz : let a := (oldsz + 4095) / 4096 in let b := (newsz + 4095) / 4096 in
  space s oth d T U l -> 0 <= oldsz -> 0 <= newsz ->
  (KERNBASE <= newsz -> allocuvm end_ d oldsz newsz s = Ok 0 s) /\
  (newsz < KERNBASE -> newsz < oldsz -> allocuvm end_ d oldsz newsz s = Ok oldsz s) /\
  (newsz < KERNBASE -> oldsz <= newsz -> (forall n, a <= n < b -> U !! n = None) -> (need T a b <= length l)%nat ->
   wp (allocuvm end_ d oldsz newsz) (fun r s' => r = newsz /\ exists T' U' l', grown s oth d T U l a b s' T' U' l') s).
Proof.
  intros a b Hsp Hold Hnew. split_and!.
  - intros H. unfold allocuvm. by rewrite (proj2 (Z.leb_le _ _)).
  - intros H1 H2. by apply allocuvm_less.
  - intros H1 H2 Hnone Hneed. by apply allocuvm_wp.
Qed.

(** ** copyuvm *)

Lemma lor_odd f : Z.odd f = true -> Z.lor f 1 = f.
Proof.
  intros Ho. apply Z.bits_inj'. intros i Hi. rewrite Z.lor_spec. change 1 with (2 ^ 0). rewrite Z.pow2_bits_eqb by done.
  destruct (Z.eqb_spec 0 i) as [<-|]; [by rewrite Z.bit0_odd, Ho|by rewrite orb_false_r].
Qed.

(** The pages [0..n] of [U] are copies of those of [U0] (in memory [m0]). *)
Record copied (m0 : mem) (U0 : umap) (n : Z) (m : mem) (U : umap) : Prop := {
  cp_in k : 0 <= k < n -> exists p0 p f, U0 !! k = Some (p0, f) /\ U !! k = Some (p, f) /\
    forall j, 0 <= j < 4096 -> m (p + j) = m0 (p0 + j);
  cp_out k : n <= k -> U !! k = None
}.

(** One page is copied, with memory left. *)
Lemma copy_one s d0 T0 U0 oth d T U l sz n p0 f (Q : Z + bool -> vm -> Prop) :
  dir_ok end_ (vmem s) d0 T0 -> user_ok (vmem s) T0 U0 -> U0 !! n = Some (p0, f) -> p0 ∈ oth ->
  space s oth d T U l -> 0 <= n < 0x80000 -> U !! n = None -> 4096 * n < sz ->
  (1 + missing T (n / 1024) (n / 1024 + 1) <= length l)%nat ->
  (forall k T' p l', let s' := set_vmk k s in space s' oth d T' (<[n := (p, f)]> U) l' -> T ⊆ T' ->
     length l = (1 + missing T (n / 1024) (n / 1024 + 1) + length l')%nat ->
     (forall j, 0 <= j < 4096 -> vmem s' (p + j) = vmem s (p0 + j)) -> same_on (upages U ++ oth) (vmem s) (vmem s') ->
     Q (inl (4096 * (n + 1))) s') ->
  wp (copyuvm_step d0 d sz (4096 * n)) Q s.
Proof.
  intros Hd0 Hu0 Hn0 Hp0 [[Ho Hd] Hu] Hn Hnone Hlt Hlen HQ. destruct l as [|p l]; [cbn in Hlen; lia|]. cbn [length] in Hlen.
  assert (He : entry p0 f (pte (vmem s) T0 n)) by (destruct Hu0 as (H1 & _); specialize (H1 n Hn); by rewrite Hn0 in H1).
  destruct (entry_table _ _ _ _ _ He) as (t & Ht). destruct (entry_facts end_ _ _ _ He) as (HP & _ & Ha & Hf).
  assert (Hrd : load32 (vmem s) (t + 4 * (n mod 1024)) = pte (vmem s) T0 n) by (unfold pte; by rewrite Ht).
  destruct (page_range end_ t (dir_page end_ _ _ _ _ _ Hd0 Ht)) as (Htr & _). destruct He as (Hpg0 & Hfr & Hodd & _).
  unfold copyuvm_step. rewrite (proj2 (Z.ltb_lt _ _)) by done. apply wp_bind. unfold wp at 1.
  rewrite (walk_hit end_ s d0 T0 _ t) by (done || lia || by replace (4096 * n / 4096) with n by zlia).
  replace (4096 * n / 4096) with n by zlia. rewrite (proj2 (Z.eqb_neq _ 0)) by zlia. apply wp_bind, wp_gets.
  rewrite Hrd, HP, Ha, Hf. cbn [negb]. apply wp_bind. eapply (vkalloc_wp end_ s _ p l); [done|]. intros k1 s1 Ho1 Hm1 Hnz.
  rewrite (proj2 (Z.eqb_neq p 0)) by done. destruct (owns_memmove end_ _ _ _ _ p p0 4096 Ho1) as [Ho2 Hm2]; [lia..|].
  apply wp_bind, wp_modify. change PGSIZE with 4096 at 1. rewrite Hm1 in Ho2, Hm2 |- *.
  change (set_vmk (set_kmemory ?m (vmk s1)) s1) with (with_mem m s1). set (m2 := memmove (vmem s) p p0 4096) in *.
  set (s2 := with_mem m2 s1) in *.
  assert (Hs2 : same_on (d :: vals T ++ upages U ++ oth) (vmem s) (vmem s2)).
  { rewrite <-Hm1. refine (proj1 (owns_same end_ s1 p _ l m2 Ho1 _)). intros x Hx. rewrite Hm1. by rewrite Hm2, decide_False. }
  assert (Ht2 : tables s2 (p :: upages U ++ oth) d T l).
  { split; [|eapply dir_same; [|exact Hd]; eapply same_sub; [|exact Hs2]; set_solver].
    eapply owns_perm; [|exact Ho2]. rewrite Permutation_swap. by rewrite (Permutation_middle (vals T)). }
  assert (Hu2 : user_ok (vmem s2) T U) by (eapply user_same; [|exact Hu]; eapply same_sub; [|exact Hs2]; set_solver).
  apply wp_bind. eapply wp_mono; [apply (map_user s2 oth d T U l n p); try done|].
  intros r s3 (k3 & T3 & l3 & -> & Hsub & Hs3 & Hr & Hen). destruct Hen as [-> Hl3]; [lia|]. cbn [Z.ltb Z.compare]. apply wp_ret.
  replace (u32 (4096 * n + PGSIZE)) with (4096 * (n + 1)) by (change PGSIZE with 4096; rewrite u32_id; lia).
  destruct Hr as [[_ Hsp3]|[? _]]; [|done]. rewrite lor_odd in Hsp3 by done. apply (HQ k3 T3 p l3); [done|done|cbn; lia| |].
  - intros j Hj. transitivity (vmem s2 (p + j)); [apply (Hs3 p); [by left|lia]|]. change (vmem s2) with m2.
    rewrite Hm2, decide_True by lia. f_equal. lia.
  - eapply same_trans; [eapply same_sub; [|exact Hs2]|eapply same_sub; [|exact Hs3]]; set_solver.
Qed.

Lemma copy_loop m0 d0 T0 U0 oth d sz b : b = (sz + 4095) / 4096 -> 0 <= sz <= 0x80000000 ->
  dir_ok end_ m0 d0 T0 -> user_ok m0 T0 U0 -> (forall p, p ∈ d0 :: vals T0 ++ upages U0 -> p ∈ oth) ->
  (forall n, 0 <= n < b -> is_Some (U0 !! n)) ->
  forall fuel s T U l n, (Z.to_nat (b - n) < fuel)%nat -> space s oth d T U l -> 0 <= n <= b ->
  same_on oth m0 (vmem s) -> copied m0 U0 n (vmem s) U -> (need T n b <= length l)%nat ->
  wp (loop fuel (copyuvm_step d0 d sz) (4096 * n)) (fun r s' => r = true /\ exists k T' U' l', s' = set_vmk k s /\
    space s' oth d T' U' l' /\ same_on oth m0 (vmem s') /\ copied m0 U0 b (vmem s') U') s.
Proof.
  intros Hb Hsz Hd0 Hu0 Hoth Hall. induction fuel as [|fuel IH]; intros s T U l n Hfuel Hsp Hn Hsame Hcp Hneed; [lia|].
  cbn [loop]. apply wp_bind. destruct (decide (n < b)) as [Hlt|Hge]; cycle 1.
  { unfold copyuvm_step. rewrite (proj2 (Z.ltb_ge _ _)) by (subst b; zlia). apply wp_ret, wp_ret. split; [done|].
    exists (vmk s), T, U, l. replace b with n by lia. by rewrite set_vmk_id. }
  assert (Hlo : 0 <= n < 0x80000 /\ 4096 * n < sz) by (subst b; zlia). destruct (Hall n ltac:(lia)) as ([p0 f] & Hn0).
  assert (Hnone : U !! n = None) by (apply (cp_out _ _ _ _ _ Hcp); lia).
  eapply (copy_one s d0 T0 U0 oth d T U l sz n p0 f); [| |done| |done|lia|done|lia|by eapply need_one|].
  { eapply dir_same; [|exact Hd0]. eapply same_sub; [|exact Hsame]. set_solver. }
  { eapply user_same; [|exact Hu0]. eapply same_sub; [|exact Hsame]. set_solver. }
  { apply Hoth. right. apply elem_of_app. right. by eapply upages_elem. }
  intros k T1 p l1 s1 Hsp1 Hsub Hl Hz Hs1.
  assert (Hin : <[n := (p, f)]> U !! n = Some (p, f)) by apply lookup_insert_eq.
  destruct (space_user _ _ _ _ _ _ _ _ _ Hsp1 Hin) as [He _]. destruct (entry_table _ _ _ _ _ He) as (t & Ht).
  eapply wp_mono; [apply (IH s1 T1 (<[n := (p, f)]> U) l1); [lia|done|lia| | |by eapply need_step]|].
  - eapply same_trans; [exact Hsame|]. eapply same_sub; [|exact Hs1]. set_solver.
  - assert (Hpp : p0 ∈ oth) by (apply Hoth; right; apply elem_of_app; right; by eapply upages_elem).
    split; [|intros k' Hk'; rewrite lookup_insert_ne by lia; apply (cp_out _ _ _ _ _ Hcp); lia].
    intros k' Hk'. destruct (decide (k' = n)) as [->|].
    + exists p0, p, f. split_and!; [done|done|]. intros j Hj. rewrite Hz by done. apply (Hsame p0); [done|lia].
    + destruct (cp_in _ _ _ _ _ Hcp k' ltac:(lia)) as (q0 & q & g & Hq0 & Hq & Hc). exists q0, q, g.
      rewrite lookup_insert_ne by done. split_and!; [done|done|]. intros j Hj. rewrite <-(Hc j Hj).
      apply (Hs1 q); [|lia]. apply elem_of_app. left. by eapply upages_elem.
  - intros r s' (-> & k' & T' & U' & l' & -> & H). split; [done|]. by exists k', T', U', l'.
Qed.

Lemma kern_user n : DataLinked data -> n < 0x80000 -> kern data n = 0.
Proof.
  intros [_ Hd _] Hn. change KERNLINK with 0x80100000 in Hd. unfold kern. rewrite !decide_False by zlia. done.
Qed.
Lemma space_empty s oth d T l : DataLinked data -> tables s oth d T l -> (forall n, pte (vmem s) T n = kern data n) -> space s oth d T ∅ l.
Proof.
  intros HD Ht Hp. split; [done|]. split_and!; [|done|done].
  intros n Hn. rewrite lookup_empty, Hp, kern_user by (done || lia). done.
Qed.

(** C9. [copyuvm] (the address space of a forked child), with enough free
    pages: the child has the same pages with the same permissions and the same
    contents as the parent, and the kernel's mappings; its directory, tables and
    pages are its own, and nothing of the parent or of any other page in use
    changes. *)
Theorem copyuvm_spec s oth d0 T0 U0 l sz : let b := (sz + 4095) / 4096 in let oth' := d0 :: vals T0 ++ upages U0 ++ oth in
  DataLinked data -> space s oth d0 T0 U0 l -> 0 <= sz <= KERNBASE -> (forall n, 0 <= n < b -> is_Some (U0 !! n)) ->
  (65 + Z.to_nat (b + ((b - 1) / 1024 + 1)) <= length l)%nat ->
  wp (copyuvm end_ data d0 sz) (fun d s' => exists T U l', space s' oth' d T U l' /\ d <> 0 /\
    same_on oth' (vmem s) (vmem s') /\
    (forall va, 0 <= va < 4096 * b -> ubyte (vmem s') U va = ubyte (vmem s) U0 va) /\
    (forall n, 0 <= n < b -> snd <$> U !! n = snd <$> U0 !! n) /\ (forall n, b <= n -> U !! n = None)) s.
Proof.
  intros b oth' HD Hsp Hsz Hall Hlen. change KERNBASE with 0x80000000 in Hsz. pose proof Hsp as [[Ho Hd0] Hu0].
  unfold copyuvm. apply wp_bind, (setupkvm_wp end_ data s oth' l); [done|lia|].
  intros k d T l1 s1 Hnz Ht1 Hp1 Hs1 Hl1. rewrite (proj2 (Z.eqb_neq d 0)) by done. apply wp_bind.
  eapply wp_mono; [apply (copy_loop (vmem s) d0 T0 U0 oth' d sz b) with (n := 0) (T := T) (U := ∅) (l := l1); try done|].
  - intros p. unfold oth'. set_solver.
  - change PGSIZE with 4096. unfold b. zlia.
  - by apply space_empty.
  - unfold b. zlia.
  - split; [lia|]. intros k' _. apply lookup_empty.
  - unfold need. rewrite Z.sub_0_r. change (0 / 1024) with 0. assert (Hb0 : 0 <= b) by (unfold b; zlia).
    assert (Hc0 : 0 <= (b - 1) / 1024 + 1) by zlia. pose proof (missing_le T 0 _ Hc0). lia.
  - intros r s' (-> & k' & T' & U' & l' & -> & Hsp' & Hs' & [Hin Hout]). apply wp_ret. exists T', U', l'. split_and!; try done.
    + intros va Hva. unfold ubyte. destruct (Hin (va / 4096) ltac:(zlia)) as (p0 & p & f & -> & -> & Hc). apply Hc. zlia.
    + intros n Hn. by destruct (Hin n Hn) as (p0 & p & f & -> & -> & _).
Qed.

(** ** copyout *)

Lemma upages_inj s oth d T U l n n' p f f' : space s oth d T U l -> U !! n = Some (p, f) -> U !! n' = Some (p, f') -> n = n'.
Proof.
  intros [[[_ _ Hnd _] _] _] Hn Hn'. destruct (decide (n = n')) as [|Hne]; [done|exfalso].
  assert (Hd : NoDup (upages U)) by (apply NoDup_app in Hnd as ([_ Hnd]%NoDup_cons & _); by apply NoDup_app in Hnd as (_ & _ & (? & _)%NoDup_app)).
  rewrite <-(upages_delete U n p f Hn) in Hd. apply NoDup_cons in Hd as [Hd _]. apply Hd.
  apply (upages_elem _ n' p f'). by rewrite lookup_delete_ne.
Qed.
(** The user may access page number [n]. *)
Definition accessible U (n : Z) : Prop := exists p f, U !! n = Some (p, f) /\ Z.testbit f 2 = true.
(** The address [x] is not in a user page. *)
Definition outside U (x : Z) : Prop := forall p, p ∈ upages U -> ~ (p <= x < p + 4096).

(** One piece: the bytes [bs] into the page of [va]. *)
Lemma copy_piece s oth d T U l va p f bs : space s oth d T U l -> U !! (va / 4096) = Some (p, f) ->
  va mod 4096 + Z.of_nat (length bs) <= 4096 ->
  let m' := store_bytes (vmem s) (p + va mod 4096) bs in
  space (with_mem m' s) oth d T U l /\ (forall x, outside U x -> m' x = vmem s x) /\
  (forall x, ubyte m' U x = if decide (va <= x < va + Z.of_nat (length bs)) then u8 (nth (Z.to_nat (x - va)) bs 0) else ubyte (vmem s) U x).
Proof.
  intros Hsp Hp Hfit m'. pose proof Hsp as [[Ho Hd] Hu]. pose proof (Z.mod_pos_bound va 4096 ltac:(lia)) as Hmod.
  assert (Ho1 : owns s (p :: d :: vals T ++ upages (delete (va / 4096) U) ++ oth) l).
  { eapply owns_perm; [|exact Ho]. rewrite <-(upages_delete U _ p f Hp). cbn. rewrite <-Permutation_middle. apply Permutation_swap. }
  pose proof (owns_store_bytes end_ _ _ _ _ (p + va mod 4096) bs Ho1 ltac:(lia) ltac:(lia)) as Ho2. fold m' in Ho2.
  pose proof (fun x => store_bytes_spec bs (vmem s) (p + va mod 4096) x) as Hm2. fold m' in Hm2.
  assert (Hs : same_on (d :: vals T ++ upages (delete (va / 4096) U) ++ oth) (vmem s) m').
  { refine (proj1 (owns_same end_ s p _ l m' Ho1 _)). intros x Hx. rewrite Hm2, decide_False by lia. done. }
  split_and!.
  - split; [split|].
    + eapply owns_perm; [|exact Ho2]. rewrite <-(upages_delete U _ p f Hp). cbn. rewrite <-Permutation_middle. apply Permutation_swap.
    + eapply dir_same; [|exact Hd]. eapply same_sub; [|exact Hs]. set_solver.
    + eapply user_same; [|exact Hu]. eapply same_sub; [|exact Hs]. set_solver.
  - intros x Hx. rewrite Hm2, decide_False; [done|]. intros Hr. apply (Hx p); [by eapply upages_elem|lia].
  - intros x. unfold ubyte. destruct (U !! (x / 4096)) as [[q g]|] eqn:Hq; cycle 1.
    { rewrite decide_False; [done|]. intros Hx. replace (x / 4096) with (va / 4096) in Hq by zlia. congruence. }
    destruct (decide (x / 4096 = va / 4096)) as [E|E].
    + rewrite E, Hp in Hq. injection Hq as -> ->. rewrite Hm2. repeat case_decide; try (exfalso; zlia); [|done].
      do 2 f_equal. zlia.
    + rewrite (decide_False (P := va <= x < va + _)) by zlia. apply (Hs q); [|zlia].
      right. rewrite !elem_of_app. right. left. apply (upages_elem _ (x / 4096) q g). by rewrite lookup_delete_ne.
Qed.

(** What [uva2ka] reads. *)
Lemma uva2ka_read s oth d T U l n p f (Q : Z -> vm -> Prop) : space s oth d T U l -> U !! n = Some (p, f) ->
  (forall t, load32 (vmem s) (t + 4 * (n mod 1024)) = pte (vmem s) T n -> has (pte (vmem s) T n) PTE_P = true ->
     p2v (PTE_ADDR (pte (vmem s) T n)) = p -> has (pte (vmem s) T n) PTE_U = Z.testbit f 2 ->
     wp (if negb (has (load32 (vmem s) (t + 4 * (n mod 1024))) PTE_P) then ret 0
         else if negb (has (load32 (vmem s) (t + 4 * (n mod 1024))) PTE_U) then ret 0
         else ret (p2v (PTE_ADDR (load32 (vmem s) (t + 4 * (n mod 1024)))))) Q s) -> wp (uva2ka d (4096 * n)) Q s.
Proof.
  intros Hsp Hn HQ. destruct (space_user _ _ _ _ _ _ _ _ _ Hsp Hn) as [He Hr].
  destruct (entry_table _ _ _ _ _ He) as (t & Ht). destruct (entry_facts end_ _ _ _ He) as (HP & _ & Hpa & _).
  unfold uva2ka. apply wp_bind. unfold wp at 1. rewrite (walk_hit end_ s d T _ t); [|apply Hsp|lia|by replace (4096 * n / 4096) with n by zlia].
  replace (4096 * n / 4096) with n by zlia. apply wp_bind, wp_gets. apply HQ; [unfold pte; by rewrite Ht|done|done|].
  destruct He as (Hpg & Hfr & _ & ->). destruct (page_v2p end_ p Hpg) as (_ & Hm & _). rewrite <-lor_add by done.
  change PTE_U with (2 ^ 2). rewrite has_pow2, Z.lor_spec by done.
  assert (Hb : Z.testbit (v2p p) 2 = false); [|by rewrite Hb].
  replace (v2p p) with (Z.shiftl (v2p p / 4096) 12) by (rewrite Z.shiftl_mul_pow2 by lia; change (2 ^ 12) with 4096; zlia).
  by rewrite Z.shiftl_spec_low.
Qed.
Lemma uva2ka_wp s oth d T U l n p f (Q : Z -> vm -> Prop) : space s oth d T U l -> U !! n = Some (p, f) -> Z.testbit f 2 = true ->
  Q p s -> wp (uva2ka d (4096 * n)) Q s.
Proof.
  intros Hsp Hn Hf HQ. apply (uva2ka_read s oth d T U l n p f); [done..|]. intros t Hrd HP Hpa HU.
  rewrite Hrd, HP, HU, Hf, Hpa. cbn [negb]. by apply wp_ret.
Qed.

(** [bs] has been put at [va] in the address space. *)
Definition copied_out s oth d T U l (va : Z) (bs : list Z) s' : Prop :=
  (exists k, s' = set_vmk k s) /\ space s' oth d T U l /\ (forall x, outside U x -> vmem s' x = vmem s x) /\
  (forall x, ubyte (vmem s') U x =
     if decide (va <= x < va + Z.of_nat (length bs)) then u8 (nth (Z.to_nat (x - va)) bs 0) else ubyte (vmem s) U x).
Lemma copied_nil s oth d T U l va : space s oth d T U l -> copied_out s oth d T U l va [] s.
Proof.
  intros Hsp. split_and!; [by exists (vmk s); rewrite set_vmk_id|done|done|]. intros x. cbn. by rewrite decide_False by lia.
Qed.
(** One piece and then the rest. *)
Lemma copied_app s oth d T U l va bs1 bs2 s1 s2 : copied_out s oth d T U l va bs1 s1 ->
  copied_out s1 oth d T U l (va + Z.of_nat (length bs1)) bs2 s2 -> copied_out s oth d T U l va (bs1 ++ bs2) s2.
Proof.
  intros ((k & ->) & Hsp1 & Hout1 & Hu1) ((k' & ->) & Hsp2 & Hout2 & Hu2). split_and!; [by exists k'|done| |].
  - intros x Hx. by rewrite Hout2, Hout1.
  - intros x. rewrite Hu2, Hu1, length_app. repeat case_decide; try lia; try done.
    + rewrite app_nth2 by lia. do 2 f_equal. lia.
    + by rewrite app_nth1 by lia.
Qed.

(** A page that is mapped but not for the user. *)
Lemma uva2ka_kernel s oth d T U l n p f (Q : Z -> vm -> Prop) : space s oth d T U l -> U !! n = Some (p, f) -> Z.testbit f 2 = false ->
  Q 0 s -> wp (uva2ka d (4096 * n)) Q s.
Proof.
  intros Hsp Hn Hf HQ. apply (uva2ka_read s oth d T U l n p f); [done..|]. intros t Hrd HP _ HU.
  rewrite Hrd, HP, HU, Hf. cbn [negb]. by apply wp_ret.
Qed.

(** [copyout] to mapped pages writes a part of the buffer, and all of it if it
    returns 0. *)
Definition copyout_post s oth d T U l (va : Z) (buf : list Z) (r : Z) s' : Prop :=
  exists bs, copied_out s oth d T U l va bs s' /\ bs `prefix_of` buf /\ (r = -1 \/ r = 0 /\ bs = buf) /\
    ((forall n, va <= 4096 * n + 4095 -> 4096 * n < va + Z.of_nat (length buf) -> accessible U n) -> r = 0) /\
    (r = 0 -> buf <> [] -> forall n, va <= 4096 * n + 4095 -> 4096 * n < va + Z.of_nat (length buf) -> accessible U n).
Lemma copyout_loop oth d T U l fuel : forall s va buf, let len := Z.of_nat (length buf) in
  (Z.to_nat ((va mod 4096 + len + 4095) / 4096) < fuel)%nat ->
  space s oth d T U l -> 0 <= va -> va + len <= 0x80000000 ->
  (forall n, va <= 4096 * n + 4095 -> 4096 * n < va + len -> is_Some (U !! n)) ->
  wp (loop fuel (copyout_step d) (va, buf, len)) (copyout_post s oth d T U l va buf) s.
Proof.
  induction fuel as [|fuel IH]; intros s va buf len Hf Hsp Hva Hend' Hacc; [lia|]. cbn [loop]. apply wp_bind. unfold copyout_step.
  destruct (Z.ltb_spec 0 len) as [Hl|Hl]; cycle 1.
  { apply wp_ret, wp_ret. exists []. destruct buf; [|cbn in *; lia]. split_and!; [by apply copied_nil|done|by right|done|done]. }
  destruct (Hacc (va / 4096)) as ([p f] & Hp); [zlia|zlia|]. rewrite rounddown by lia.
  destruct (Z.testbit f 2) eqn:Hfl; cycle 1.
  { apply wp_bind, (uva2ka_kernel s oth d T U l _ p f); [done..|]. apply wp_ret, wp_ret. exists [].
    split_and!; [by apply copied_nil|apply prefix_nil|by left| |done].
    intros Hall. destruct (Hall (va / 4096)) as (p' & f' & Hp' & Hf'); [zlia|zlia|]. rewrite Hp in Hp'. simplify_eq. congruence. }
  assert (Hac : accessible U (va / 4096)) by (by exists p, f).
  apply wp_bind, (uva2ka_wp s oth d T U l _ p f); [done..|].
  assert (Hpg : page p) by (destruct (space_user _ _ _ _ _ _ _ _ _ Hsp Hp) as [He _]; exact (proj1 He)).
  destruct (page_range end_ p Hpg) as (Hp0 & _). rewrite (proj2 (Z.eqb_neq p 0)) by lia. change PGSIZE with 4096.
  replace (4096 - (va - 4096 * (va / 4096))) with (4096 - va mod 4096) by zlia.
  replace (va - 4096 * (va / 4096)) with (va mod 4096) by zlia.
  set (n := if len <? 4096 - va mod 4096 then len else 4096 - va mod 4096).
  assert (Hn : 0 < n <= len /\ va mod 4096 + n <= 4096 /\ (n = len \/ va + n = 4096 * (va / 4096) + 4096))
    by (unfold n; destruct (Z.ltb_spec len (4096 - va mod 4096)); zlia). clearbody n.
  assert (Hlen1 : Z.of_nat (length (take (Z.to_nat n) buf)) = n) by (rewrite length_take; lia).
  destruct (copy_piece s oth d T U l va p f (take (Z.to_nat n) buf) Hsp Hp ltac:(lia)) as (Hsp1 & Hout1 & Hu1).
  apply wp_bind, wp_modify, wp_ret. change (set_vmk (set_kmemory ?m (vmk s)) s) with (with_mem m s).
  set (s1 := with_mem _ s) in *.
  assert (Hc1 : copied_out s oth d T U l va (take (Z.to_nat n) buf) s1) by (split_and!; [by eexists|done..]).
  destruct Hn as (Hn1 & Hn2 & [E|E]).
  - (* the last piece *)
    rewrite take_ge in Hc1 by lia. destruct fuel; [zlia|]. cbn [loop]. unfold copyout_step.
    rewrite (proj2 (Z.ltb_ge 0 _)) by lia. apply wp_bind, wp_ret, wp_ret. exists buf. split_and!; [done|done|by right|done|].
    intros _ _ k Hk1 Hk2. fold len in Hk2. by replace k with (va / 4096) by zlia.
  - rewrite u32_id by zlia. rewrite <- E. replace (len - n) with (Z.of_nat (length (drop (Z.to_nat n) buf))) by (rewrite length_drop; lia).
    eapply wp_mono; [apply (IH s1); [|done|lia| |]|].
    + rewrite length_drop. zlia.
    + rewrite length_drop. lia.
    + rewrite length_drop. intros k Hk1 Hk2. apply Hacc; lia.
    + intros r s' (bs & Hc2 & Hpre & Hr & Hall & Hacc'). exists (take (Z.to_nat n) buf ++ bs). split_and!.
      * eapply copied_app; [exact Hc1|]. by rewrite Hlen1.
      * rewrite <- (take_drop (Z.to_nat n) buf) at 2. by apply prefix_app.
      * destruct Hr as [->|[-> ->]]; [by left|right]. by rewrite take_drop.
      * intros Ha. apply Hall. rewrite length_drop. intros k Hk1 Hk2. apply Ha; lia.
      * intros -> _ k Hk1 Hk2. destruct (decide (k = va / 4096)) as [->|]; [done|]. rewrite length_drop in Hacc'. apply Hacc'; [done| |zlia|zlia].
        intros E'%(f_equal length). rewrite length_drop in E'. cbn in E'. zlia.
Qed.

Lemma copyout_any s oth d T U l va p : let len := Z.of_nat (length p) in
  space s oth d T U l -> 0 <= va -> va + len <= KERNBASE ->
  (forall n, va <= 4096 * n + 4095 -> 4096 * n < va + len -> is_Some (U !! n)) ->
  wp (copyout d va p len) (copyout_post s oth d T U l va p) s.
Proof.
  intros len Hsp Hva Hle Hacc. unfold copyout. apply copyout_loop; try done. change PGSIZE with 4096. unfold len. zlia.
Qed.
Lemma copyout_wp s oth d T U l va p : let len := Z.of_nat (length p) in
  space s oth d T U l -> 0 <= va -> va + len <= KERNBASE ->
  (forall n, va <= 4096 * n + 4095 -> 4096 * n < va + len -> accessible U n) ->
  wp (copyout d va p len) (fun r s' => r = 0 /\ copied_out s oth d T U l va p s') s.
Proof.
  intros len Hsp Hva Hle Hacc. eapply wp_mono; [apply (copyout_any s oth d T U l va p); [done..|]|].
  - intros n H1 H2. destruct (Hacc n H1 H2) as (q & f & -> & _). done.
  - intros r s' (bs & Hc & _ & Hr & Hall & _). rewrite (Hall Hacc) in *. by destruct Hr as [?|[_ ->]].
Qed.
(** [copyout] to pages the user can access: it returns 0, the user sees the
    bytes of the buffer from [va] on and every other byte of the address space
    as before, and no memory outside the user's pages changes. *)
Theorem copyout_spec s oth d T U l va p : let len := Z.of_nat (length p) in
  space s oth d T U l -> 0 <= va -> va + len <= KERNBASE ->
  (forall n, va <= 4096 * n + 4095 -> 4096 * n < va + len -> accessible U n) ->
  wp (copyout d va p len) (fun r s' => r = 0 /\ copied_out s oth d T U l va p s') s.
Proof. exact (copyout_wp s oth d T U l va p). Qed.
End user.
