(* ===== verification/VmDemo.v ===== *)
(** * A booted memory, to run the page table routines on a concrete state

    300 free pages above [end], and the address spaces that [setupkvm],
    [allocuvm] and [copyuvm] make of them. *)

From S2P Require Import Prelude Params Strings Kalloc Vm VmSpec VmUser.

Definition end_addr : Z := 0x8010F000.
Definition data_addr : Z := 0x80108000.
#[export] Instance end_linked : Linked end_addr.
Proof. done. Qed.
#[export] Instance data_linked : DataLinked data_addr.
Proof. by split. Qed.

Definition vm0 : vm := mkvm (mkkmem false false 0 (fun _ => 0)) 0 0 0 [].
Definition first_page : Z := 0x80110000.
#[export] Instance demo_all : Pages := rev (pages_from 300 first_page).
Lemma demo_pages : Forall (page end_addr) (pages_from 300 first_page).
Proof. unfold page. refine (bool_decide_unpack _ _). vm_compute. exact I. Qed.
Lemma length_pages n p : length (pages_from n p) = n.
Proof. revert p. induction n; intros; cbn; auto. Qed.
Lemma free_some n : Forall (page end_addr) (pages_from n first_page) ->
  exists s l, owns (G := rev (pages_from n first_page)) end_addr s [] l /\ length l = n.
Proof.
  intros Hp. set (vend := first_page + 4096 * Z.of_nat n).
  assert (Hw : wp (loop (S n) (freerange_step end_addr vend) first_page)
    (fun _ k' => free_pages end_addr k' (rev (pages_from n first_page) ++ []) /\ use_lock k' = false) (vmk vm0)).
  { apply (freerange_loop end_addr n vend first_page (vmk vm0) [] (S n)); [lia| |done| |unfold vend; lia].
    - split; [done|done|done|constructor|constructor].
    - intros x _ Hx. by apply elem_of_nil in Hx. }
  unfold wp in Hw. destruct (loop _ _ _ _) as [a k| | |]; [|done..]. destruct Hw as [Hk _].
  exists (set_vmk k vm0), (rev (pages_from n first_page) ++ []). split.
  - split; [exact Hk|constructor|exact (fp_nodup _ _ _ Hk)|]. cbn. by rewrite app_nil_r.
  - by rewrite app_nil_r, length_rev, length_pages.
Qed.
Lemma demo_free : exists s l, owns end_addr s [] l /\ length l = 300%nat.
Proof. exact (free_some 300 demo_pages). Qed.

(** An address space with only the kernel's part. *)
Lemma demo_space : exists s d T l, space end_addr data_addr s [] d T ∅ l /\ d <> 0 /\ (200 <= length l)%nat.
Proof.
  destruct demo_free as (s & l & Ho & Hl).
  assert (Hw : wp (setupkvm data_addr) (fun d s' => exists T l, space end_addr data_addr s' [] d T ∅ l /\ d <> 0 /\ (200 <= length l)%nat) s).
  { apply (setupkvm_wp end_addr data_addr s [] l); [done|lia|]. intros k d T l' s' Hnz Ht Hp _ Hlen. exists T, l'.
    split_and!; [by apply space_empty|done|lia]. }
  apply wp_ok in Hw as (d & s' & _ & T & l' & H). by exists s', d, T, l'.
Qed.
(** A process of two pages. *)
Lemma demo_process : exists s d T U l, space end_addr data_addr s [] d T U l /\ d <> 0 /\ (190 <= length l)%nat /\
  (forall n, 0 <= n < 2 -> exists p, U !! n = Some (p, 7)) /\ (forall n, ~ (0 <= n < 2) -> U !! n = None).
Proof.
  destruct demo_space as (s & d & T & l & Hsp & Hd & Hl).
  assert (Hneed : (need T 0 2 <= 3)%nat).
  { unfold need. change ((2 - 1) / 1024 + 1) with 1. change (0 / 1024) with 0. pose proof (missing_le T 0 1 ltac:(done)). lia. }
  assert (Hw : wp (loop 4 (allocuvm_step end_addr d 0 0x2000) (4096 * 0))
    (fun r s' => r = 0x2000 /\ exists T' U' l', grown end_addr data_addr s [] d T ∅ l 0 2 s' T' U' l') s).
  { apply alloc_loop; [apply _|done|done|lia|done|done|done|done|lia]. }
  apply wp_ok in Hw as (r & s' & _ & _ & T' & U' & l' & [G1 _ G3 G4 _ G6 _]). exists s', d, T', U', l'. split_and!; [done|done|lia| |].
  - intros n Hn. destruct (G4 n Hn) as (p & Hp & _). by exists p.
  - intros n Hn. rewrite G3 by lia. apply lookup_empty.
Qed.

(** ** The theorems on these states *)

Lemma allocuvm_spec_witness : exists s d T l, space end_addr data_addr s [] d T ∅ l /\
  wp (allocuvm end_addr d 0 0x2345) (fun r s' => r = 0x2345 /\
    exists T' U' l', grown end_addr data_addr s [] d T ∅ l 0 3 s' T' U' l') s.
Proof.
  destruct demo_space as (s & d & T & l & Hsp & Hd & Hl). exists s, d, T, l. split; [done|].
  destruct (allocuvm_spec end_addr data_addr s [] d T ∅ l 0 0x2345 Hsp) as (_ & _ & H); [lia|lia|]. apply H; [done|done| |].
  - intros n _. apply lookup_empty.
  - unfold need. pose proof (missing_le T 0 1 ltac:(done)) as Hm. change (missing T _ _) with (missing T 0 1). 
    change (Z.to_nat _) with 3%nat. change (Z.to_nat (1 - 0)) with 1%nat in Hm. lia.
Defined.
Lemma freevm_spec_witness : exists s d T U l, space end_addr data_addr s [] d T U l /\ is_Some (U !! 1) /\
  wp (freevm end_addr d) (fun _ s' => exists l', owns end_addr s' [] l' /\ l' ≡ₚ d :: vals T ++ upages U ++ l /\
    same_on [] (vmem s) (vmem s')) s.
Proof.
  destruct demo_process as (s & d & T & U & l & Hsp & Hd & _ & HU & _). exists s, d, T, U, l. split; [done|]. split.
  - destruct (HU 1 ltac:(lia)) as (p & ->). by eexists.
  - by apply (freevm_spec end_addr data_addr).
Defined.
Lemma copyuvm_spec_witness : exists s d0 T0 U0 l, space end_addr data_addr s [] d0 T0 U0 l /\
  wp (copyuvm end_addr data_addr d0 0x1800) (fun d s' => exists T U l',
    space end_addr data_addr s' (d0 :: vals T0 ++ upages U0 ++ []) d T U l' /\ d <> 0 /\
    same_on (d0 :: vals T0 ++ upages U0 ++ []) (vmem s) (vmem s') /\
    (forall va, 0 <= va < 4096 * ((0x1800 + 4095) / 4096) -> ubyte (vmem s') U va = ubyte (vmem s) U0 va) /\
    (forall n, 0 <= n < (0x1800 + 4095) / 4096 -> snd <$> U !! n = snd <$> U0 !! n) /\
    (forall n, (0x1800 + 4095) / 4096 <= n -> U !! n = None)) s.
Proof.
  destruct demo_process as (s & d & T & U & l & Hsp & Hd & Hl & HU & _). exists s, d, T, U, l. split; [done|].
  apply (copyuvm_spec end_addr data_addr s [] d T U l 0x1800); [apply _|done|done| |].
  - intros n Hn. destruct (HU n Hn) as (p & ->). by eexists.
  - change (65 + Z.to_nat _)%nat with 68%nat. lia.
Defined.
Lemma copyout_spec_witness : exists s d T U l, space end_addr data_addr s [] d T U l /\
  wp (copyout d 0xFF0 (replicate 256 42) 256)
    (fun r s' => r = 0 /\ copied_out end_addr data_addr s [] d T U l 0xFF0 (replicate 256 42) s') s.
Proof.
  destruct demo_process as (s & d & T & U & l & Hsp & Hd & Hl & HU & HU').
  exists s, d, T, U, l. split; [done|]. apply (copyout_spec end_addr data_addr s [] d T U l 0xFF0 (replicate 256 42)); [done|done|done|].
  intros n H1 H2. cbn in H2. destruct (HU n ltac:(lia)) as (p & Hp). exists p, 7. done.
Defined.
