(* ===== verification/Sh.v ===== *)
(** * sh.c: the shell

    The parser works on a line buffer; a token is a pair of positions in it, as
    in the source.  [runcmd] is a plan of system calls with their results. *)

From S2P Require Import Prelude Params Ulib.

Definition MAXARGS : nat := 10.

(** A counted string: the positions of its first byte and of the byte after. *)
Definition span : Type := nat * nat.
(** [struct cmd] and its five variants. *)
Inductive cmd (S : Type) :=
| EXEC (argv : list S)
| REDIR (c : cmd S) (file : S) (mode fd : Z)
| PIPE (left right : cmd S)
| LIST (left right : cmd S)
| BACK (c : cmd S).
Arguments EXEC {S}. Arguments REDIR {S}. Arguments PIPE {S}. Arguments LIST {S}. Arguments BACK {S}.

(** The constructors; [malloc] is taken to succeed. *)
Definition execcmd : cmd span := EXEC [].
Definition redircmd (subcmd : cmd span) (file : span) (mode fd : Z) : cmd span := REDIR subcmd file mode fd.
Definition pipecmd (left right : cmd span) : cmd span := PIPE left right.
Definition listcmd (left right : cmd span) : cmd span := LIST left right.
Definition backcmd (subcmd : cmd span) : cmd span := BACK subcmd.

(** ** Parsing *)

(** Space, tab, carriage return, newline, vertical tab. *)
Definition whitespace : list Z := [32; 9; 13; 10; 11].
(** The bytes of [<|>&;()]. *)
Definition symbols : list Z := [60; 124; 62; 38; 59; 40; 41].
Definition PLUS : Z := 43.
Definition WORD : Z := 97.
(** [strchr(toks, c)] as a condition. *)
Definition mem_chr (toks : list Z) (c : Z) : bool := existsb (Z.eqb c) toks.
Definition word_chr (c : Z) : bool := negb (mem_chr whitespace c) && negb (mem_chr symbols c).

Section parse.
(** The line without its NUL; the byte at [es] is 0. *)
Context (line : list Z).
Definition es : nat := length line.
Definition chr (i : nat) : Z := nth i line 0.

(** [while(s < es && test( *s)) s++], from [s] with [n] bytes left. *)
Fixpoint span_while (test : Z -> bool) (n s : nat) : nat :=
  match n with
  | O => s
  | S n' => if test (chr s) then span_while test n' (S s) else s
  end.
Definition scan (test : Z -> bool) (s : nat) : nat := span_while test (es - s) s.
Definition skip (s : nat) : nat := scan (mem_chr whitespace) s.

(** The parser's state is [*ps]; tokens come with [q] and [eq]. *)
Definition gettoken : M nat (Z * span) := fun ps =>
  let q := skip ps in
  let c := chr q in
  let '(ret, eq) :=
    if c =? 0 then (0, q)
    else if mem_chr [124; 40; 41; 59; 38; 60] c then (c, S q)
    else if c =? 62 then if chr (S q) =? 62 then (PLUS, S (S q)) else (c, S q)
    else (WORD, scan word_chr q) in
  Ok (ret, (q, eq)) (skip eq).
Definition peek (toks : list Z) : M nat bool := fun ps =>
  let s := skip ps in Ok (negb (chr s =? 0) && mem_chr toks (chr s)) s.

(** The loop of [parseredirs]. *)
Definition parseredirs_step (c : cmd span) : M nat (cmd span + cmd span) :=
  b <-- peek [60; 62] ;;
  if (b : bool) then
    tq <-- gettoken ;;
    wq <-- gettoken ;;
    if negb (fst wq =? WORD) then panic "missing file for redirection"
    else
      ret (inl (if fst tq =? 60 then redircmd c (snd wq) O_RDONLY 0
                else redircmd c (snd wq) (Z.lor O_WRONLY O_CREATE) 1))
  else ret (inr c).
Definition parseredirs (c : cmd span) : M nat (cmd span) := loop (S es) parseredirs_step c.

(** [cmd->argv] is filled in after [ret] was wrapped in redirections: the model
    keeps the arguments and the redirections apart, and [fill] puts them
    together. *)
Fixpoint fill (argv : list span) (c : cmd span) : cmd span :=
  match c with
  | EXEC _ => EXEC argv
  | REDIR c' f m fd => REDIR (fill argv c') f m fd
  | _ => c
  end.
Definition parseargs_step (i : list span * cmd span) : M nat (list span * cmd span + cmd span) :=
  let '(argv, ret_) := i in
  b <-- peek [124; 41; 38; 59] ;;
  if (b : bool) then ret (inr (fill argv ret_))
  else
    tq <-- gettoken ;;
    if fst tq =? 0 then ret (inr (fill argv ret_))
    else if negb (fst tq =? WORD) then panic "syntax"
    else
      let argv := argv ++ [snd tq] in
      if (MAXARGS <=? length argv)%nat then panic "too many args"
      else
        ret_ <-- parseredirs ret_ ;;
        ret (inl (argv, ret_)).

(** [while(peek(ps, es, "&")) ...] of [parseline]. *)
Definition parseback_step (c : cmd span) : M nat (cmd span + cmd span) :=
  b <-- peek [38] ;;
  if (b : bool) then gettoken ;;; ret (inl (backcmd c)) else ret (inr c).

(** [parseblock]; [pl] is [parseline]. *)
Definition parseblock (pl : M nat (cmd span)) : M nat (cmd span) :=
  b <-- peek [40] ;;
  if negb b then panic "parseblock"
  else
    gettoken ;;;
    c <-- pl ;;
    b <-- peek [41] ;;
    if negb b then panic "syntax - missing )"
    else
      gettoken ;;;
      parseredirs c.

(** The recursive descent, with the depth of the calls as bound. *)
Fixpoint parseline (n : nat) : M nat (cmd span) :=
  match n with
  | O => fun _ => OutOfFuel
  | S n' =>
      c <-- parsepipe n' ;;
      c <-- loop (S es) parseback_step c ;;
      b <-- peek [59] ;;
      if (b : bool) then
        gettoken ;;;
        r <-- parseline n' ;;
        ret (listcmd c r)
      else ret c
  end
with parsepipe (n : nat) : M nat (cmd span) :=
  match n with
  | O => fun _ => OutOfFuel
  | S n' =>
      c <-- parseexec n' ;;
      b <-- peek [124] ;;
      if (b : bool) then
        gettoken ;;;
        r <-- parsepipe n' ;;
        ret (pipecmd c r)
      else ret c
  end
with parseexec (n : nat) : M nat (cmd span) :=
  match n with
  | O => fun _ => OutOfFuel
  | S n' =>
      b <-- peek [40] ;;
      if (b : bool) then
        parseblock (parseline n')
      else
        c <-- parseredirs execcmd ;;
        loop (S es) parseargs_step ([], c)
  end.

(** Enough for any line: every nesting consumes a byte. *)
Definition depth : nat := 3 * es + 3.
Definition parsecmd_spans : M nat (cmd span) :=
  c <-- parseline depth ;;
  peek [] ;;;
  s <-- get ;;
  if (s =? es)%nat then ret c else panic "syntax".
End parse.

(** [nulterminate]: the bytes of [line] with NULs after every counted string. *)
Definition put_nul (b : list Z) (x : span) : list Z := <[snd x := 0]> b.
Fixpoint nulterminate (c : cmd span) (b : list Z) : list Z :=
  match c with
  | EXEC argv => fold_left put_nul argv b
  | REDIR c' file _ _ => put_nul (nulterminate c' b) file
  | PIPE l r | LIST l r => nulterminate r (nulterminate l b)
  | BACK c' => nulterminate c' b
  end.
(** [parsecmd]: the command and the buffer, with its final NUL. *)
Definition parsecmd (line : list Z) : outcome nat (cmd span * list Z) :=
  match parsecmd_spans line O with
  | Ok c s => Ok (c, nulterminate c (line ++ [0])) s
  | Panic msg => Panic msg
  | Sleep ch s => Sleep ch s
  | OutOfFuel => OutOfFuel
  end.

(** The C string at a position of a buffer. *)
Fixpoint until_nul (l : list Z) : list Z :=
  match l with [] => [] | c :: l' => if c =? 0 then [] else c :: until_nul l' end.
Definition string_at (b : list Z) (x : span) : list Z := until_nul (drop (fst x) b).
Fixpoint cmd_map {S T} (f : S -> T) (c : cmd S) : cmd T :=
  match c with
  | EXEC argv => EXEC (map f argv)
  | REDIR c' file mode fd => REDIR (cmd_map f c') (f file) mode fd
  | PIPE l r => PIPE (cmd_map f l) (cmd_map f r)
  | LIST l r => LIST (cmd_map f l) (cmd_map f r)
  | BACK c' => BACK (cmd_map f c')
  end.

(** ** Running commands *)

(** A process as the system calls it makes, with what it does next for each
    result.  [Exec] continues only if it fails; [PipeCall] gets the result and
    the two descriptors. *)
Inductive plan :=
| Exit
| Exec (argv : list (list Z)) (failed : plan)
| Close (fd : Z) (k : plan)
| Open (file : list Z) (mode : Z) (k : Z -> plan)
| Dup (fd : Z) (k : plan)
| PipeCall (k : Z -> Z -> Z -> plan)
| Fork (k : Z -> plan)
| Wait (k : plan)
| Chdir (dir : list Z) (k : Z -> plan)
| Write (fd : Z) (msg : list Z) (k : plan).

Definition sh_panic (msg : list Z) : plan := Write 2 (msg ++ [10]) Exit.
Definition fork1 (k : Z -> plan) : plan := Fork (fun pid => if pid =? -1 then sh_panic (str "fork") else k pid).

(** [runcmd] never returns: what follows a call of it is not reached. *)
Fixpoint runcmd (c : cmd (list Z)) : plan :=
  match c with
  | EXEC [] => Exit
  | EXEC (a0 :: argv) => Exec (a0 :: argv) (Write 2 (str "exec " ++ a0 ++ str " failed" ++ [10]) Exit)
  | REDIR c' file mode fd =>
      Close fd (Open file mode (fun r =>
        if r <? 0 then Write 2 (str "open " ++ file ++ str " failed" ++ [10]) Exit else runcmd c'))
  | LIST l r => fork1 (fun pid => if pid =? 0 then runcmd l else Wait (runcmd r))
  | PIPE l r =>
      PipeCall (fun ok p0 p1 =>
        if ok <? 0 then sh_panic (str "pipe")
        else
          fork1 (fun pid =>
            if pid =? 0 then Close 1 (Dup p1 (Close p0 (Close p1 (runcmd l))))
            else
              fork1 (fun pid =>
                if pid =? 0 then Close 0 (Dup p0 (Close p0 (Close p1 (runcmd r))))
                else Close p0 (Close p1 (Wait (Wait Exit))))))
  | BACK c' => fork1 (fun pid => if pid =? 0 then runcmd c' else Exit)
  end.

(** What [parsecmd] prints before it gives up on a line that it has parsed only in
    part. *)
Definition leftovers (line : list Z) (k : plan) : plan :=
  match (parseline line (depth line) ;;; peek line [] ;;; get) O with
  | Ok s _ => if (s =? length line)%nat then k else Write 2 (str "leftovers: " ++ until_nul (drop s line) ++ [10]) k
  | _ => k
  end.
(** What the child does with the line: [runcmd(parsecmd(buf))]. *)
Definition run_line (line : list Z) : plan :=
  match parsecmd line with
  | Ok (c, buf) _ => runcmd (cmd_map (string_at buf) c)
  | Panic msg => leftovers line (sh_panic (str msg))
  | _ => Exit
  end.
(** One turn of the loop of [main]: [getcmd] has read [line] (with its newline). *)
Definition main_turn (line : list Z) (k : plan) : plan :=
  match line with
  | 99 :: 100 :: 32 :: rest =>
      let dir := removelast rest in
      Chdir dir (fun r => if r <? 0 then Write 2 (str "cannot cd " ++ dir ++ [10]) k else k)
  | _ => fork1 (fun pid => if pid =? 0 then run_line line else Wait k)
  end.
(** [getcmd]: the prompt and a line; an empty buffer is the end. *)
Fixpoint main_loop (lines : list (list Z)) : plan :=
  Write 2 (str "$ ")
    match lines with
    | [] | [] :: _ => Exit
    | line :: lines' => main_turn line (main_loop lines')
    end.
(** [while((fd = open("console", O_RDWR)) >= 0)]: the descriptors grow. *)
Fixpoint open_console (n : nat) (k : plan) : plan :=
  match n with
  | O => k
  | S n' => Open (str "console") O_RDWR (fun fd =>
      if fd <? 0 then k else if 3 <=? fd then Close fd k else open_console n' k)
  end.
Definition sh_main (lines : list (list Z)) : plan := open_console 4 (main_loop lines).
