(* ===== verification/ShSpec.v ===== *)
(** * The shell's parser: termination, strings, round trip *)

From S2P Require Import Prelude Params Ulib Sh.

(** [tot m Q s]: from [s], [m] returns with [Q] or stops with a message. *)
Definition tot {S A} (m : M S A) (Q : A -> S -> Prop) (s : S) : Prop :=
  match m s with Ok a s' => Q a s' | Panic _ => True | _ => False end.
Section tot.
Context {S : Type}.
Lemma tot_bind {A B} (m : M S A) (k : A -> M S B) Q s : tot m (fun a s' => tot (k a) Q s') s -> tot (bind m k) Q s.
Proof. unfold tot, bind. by destruct (m s). Qed.
Lemma tot_mono {A} (m : M S A) (Q Q' : A -> S -> Prop) s : tot m Q s -> (forall a s', Q a s' -> Q' a s') -> tot m Q' s.
Proof. unfold tot. destruct (m s); naive_solver. Qed.
Lemma tot_ret {A} (a : A) (Q : A -> S -> Prop) s : Q a s -> tot (ret a) Q s.
Proof. done. Qed.
Lemma tot_panic {A} msg (Q : A -> S -> Prop) s : tot (panic msg) Q s.
Proof. done. Qed.
Lemma tot_loop {I R} (body : I -> M S (I + R)) (Inv : I -> S -> Prop) (left : S -> nat) (Q : R -> S -> Prop) :
  (forall i s, Inv i s -> tot (body i) (fun r s' => match r with
     | inl i' => Inv i' s' /\ (left s' < left s)%nat
     | inr x => Q x s' end) s) ->
  forall fuel i s, (left s < fuel)%nat -> Inv i s -> tot (loop fuel body i) Q s.
Proof.
  intros Hb. induction fuel as [|fuel IH]; intros i s Hf HI; [lia|]. cbn [loop]. apply tot_bind.
  eapply tot_mono; [by apply Hb|]. intros [i'|x] s'; [intros [HI' Hl]; apply IH; [lia|done]|intros HQ; by apply tot_ret].
Qed.
End tot.

(** All the strings of a command. *)
Fixpoint cmd_all {S} (P : S -> Prop) (c : cmd S) : Prop :=
  match c with
  | EXEC argv => Forall P argv
  | REDIR c' file _ _ => cmd_all P c' /\ P file
  | PIPE l r | LIST l r => cmd_all P l /\ cmd_all P r
  | BACK c' => cmd_all P c'
  end.
Lemma cmd_map_ext {S T} (f g : S -> T) (P : S -> Prop) c : (forall x, P x -> f x = g x) -> cmd_all P c -> cmd_map f c = cmd_map g c.
Proof.
  intros Hfg. induction c as [argv|c IH file m fd|l IHl r IHr|l IHl r IHr|c IH]; cbn.
  - intros Ha. f_equal. apply map_ext_Forall. eapply Forall_impl; [done|]. auto.
  - intros [Hc Hf]. by rewrite IH, Hfg.
  - intros [Hl Hr]. by rewrite IHl, IHr.
  - intros [Hl Hr]. by rewrite IHl, IHr.
  - intros Hc. by rewrite IH.
Qed.

Section line.
Context (line : list Z).
Notation es := (es line).
Notation chr := (chr line).
Notation skip := (skip line).
Notation scan := (scan line).

Lemma chr_end i : (es <= i)%nat -> chr i = 0.
Proof. intros. unfold chr. by apply nth_overflow. Qed.
Lemma chr_in i : chr i <> 0 -> (i < es)%nat.
Proof. intros H. destruct (decide (i < es)%nat); [done|]. by rewrite chr_end in H by lia. Qed.

Lemma span_while_spec t n s : (s <= span_while line t n s <= s + n)%nat /\
  (forall k, (s <= k < span_while line t n s)%nat -> t (chr k) = true) /\
  ((span_while line t n s < s + n)%nat -> t (chr (span_while line t n s)) = false).
Proof.
  revert s. induction n as [|n IH]; intros s; cbn [span_while]; [split_and!; intros; lia|].
  destruct (t (chr s)) eqn:E.
  - destruct (IH (S s)) as (H1 & H2 & H3). split_and!; [lia|lia| |intros; apply H3; lia].
    intros k Hk. destruct (decide (k = s)) as [->|]; [done|]. apply H2. lia.
  - split_and!; [lia|lia|lia|done].
Qed.
Lemma scan_spec t s : (s <= es)%nat -> (s <= scan t s <= es)%nat /\
  (forall k, (s <= k < scan t s)%nat -> t (chr k) = true) /\ ((scan t s < es)%nat -> t (chr (scan t s)) = false).
Proof. intros Hs. unfold scan. destruct (span_while_spec t (es - s) s) as (H1 & H2 & H3). split_and!; [lia|lia|done|intros; apply H3; lia]. Qed.
Lemma skip_spec s : (s <= es)%nat -> (s <= skip s <= es)%nat /\ mem_chr whitespace (chr (skip s)) = false.
Proof.
  intros Hs. destruct (scan_spec (mem_chr whitespace) s Hs) as (H1 & _ & H3). split; [done|].
  destruct (decide (skip s < es)%nat); [by apply H3|]. rewrite chr_end by lia. done.
Qed.
Lemma skip_stop s : mem_chr whitespace (chr s) = false -> skip s = s.
Proof. intros H. unfold skip, scan. destruct (es - s)%nat; [done|]. cbn [span_while]. by rewrite H. Qed.
Lemma skip_skip s : (s <= es)%nat -> skip (skip s) = skip s.
Proof. intros Hs. apply skip_stop. by apply skip_spec. Qed.

(** A word of the line: as long as possible, without blanks and symbols. *)
Definition word (x : span) : Prop :=
  (fst x < snd x <= es)%nat /\ (forall k, (fst x <= k < snd x)%nat -> word_chr (chr k) = true) /\
  (snd x = es \/ word_chr (chr (snd x)) = false).

Lemma mem_chr_false c toks : mem_chr toks c = false -> ~ In c toks.
Proof. unfold mem_chr. intros H Hin. assert (existsb (Z.eqb c) toks = true); [|congruence]. apply existsb_exists. exists c. by rewrite Z.eqb_refl. Qed.
Lemma mem_chr_true c toks : mem_chr toks c = true -> In c toks.
Proof. unfold mem_chr. intros (x & Hx & ->%Z.eqb_eq)%existsb_exists. done. Qed.
Lemma mem_chr_not c toks : ~ In c toks -> mem_chr toks c = false.
Proof. intros H. destruct (mem_chr toks c) eqn:E; [|done]. by apply mem_chr_true in E. Qed.

Lemma gettoken_spec ps : (ps <= es)%nat -> exists r q eq ps', gettoken line ps = Ok (r, (q, eq)) ps' /\
  (ps <= q <= eq)%nat /\ (eq <= ps' <= es)%nat /\ (r <> 0 -> (ps < ps')%nat) /\ (chr (skip ps) <> 0 -> r <> 0) /\ (r = WORD -> word (q, eq)).
Proof.
  intros Hps. destruct (skip_spec ps Hps) as (Hq & Hws). unfold gettoken. set (q := skip ps) in *. cbv zeta.
  destruct (Z.eqb_spec (chr q) 0) as [E0|E0].
  { eexists _, _, _, _. split; [done|]. destruct (skip_spec q ltac:(lia)) as (H & _). split_and!; try lia; done. }
  pose proof (chr_in q E0) as Hlt.
  destruct (mem_chr [124; 40; 41; 59; 38; 60] (chr q)) eqn:Esym.
  { eexists _, _, _, _. split; [done|]. destruct (skip_spec (S q) ltac:(lia)) as (H & _). split_and!; try lia.
    intros E. apply mem_chr_true in Esym. rewrite E in Esym. cbn in Esym. by decompose [or] Esym. }
  destruct (Z.eqb_spec (chr q) 62) as [E62|E62].
  { destruct (Z.eqb_spec (chr (S q)) 62) as [E'|E'].
    - pose proof (chr_in (S q) ltac:(rewrite E'; done)) as Hlt'.
      eexists _, _, _, _. split; [done|]. destruct (skip_spec (S (S q)) ltac:(lia)) as (H & _). split_and!; try lia; done.
    - eexists _, _, _, _. split; [done|]. destruct (skip_spec (S q) ltac:(lia)) as (H & _). split_and!; try lia; rewrite E62; done. }
  destruct (scan_spec word_chr q ltac:(lia)) as (H1 & H2 & H3).
  assert (Hw : word_chr (chr q) = true).
  { unfold word_chr. rewrite Hws. cbn [negb andb]. rewrite mem_chr_not; [done|]. apply mem_chr_false in Esym. cbn in *.
    intros H. apply Esym. decompose [or] H; auto 10; done. }
  assert (Hadv : (q < scan word_chr q)%nat).
  { destruct (decide (q < scan word_chr q)%nat); [done|]. assert (E : scan word_chr q = q) by lia. rewrite E in H3. rewrite H3 in Hw by lia. done. }
  eexists _, _, _, _. split; [done|]. destruct (skip_spec (scan word_chr q) ltac:(lia)) as (H & _). split_and!; try lia; [done|].
  intros _. split_and!; [done|cbn; lia|done|]. cbn. destruct (decide (scan word_chr q < es)%nat); [right; by apply H3|left; lia].
Qed.
Lemma gettoken_tot ps (Q : Z * span -> nat -> Prop) : (ps <= es)%nat ->
  (forall r x ps', (ps <= ps' <= es)%nat -> (r <> 0 -> (ps < ps')%nat) -> (chr (skip ps) <> 0 -> r <> 0) -> (r = WORD -> word x) -> Q (r, x) ps') ->
  tot (gettoken line) Q ps.
Proof.
  intros Hps HQ. destruct (gettoken_spec ps Hps) as (r & q & eq & ps' & E & H1 & H2 & H3 & H4 & H5). unfold tot. rewrite E. apply HQ; [lia|done|done|done].
Qed.
Lemma peek_tot toks ps (Q : bool -> nat -> Prop) : (ps <= es)%nat ->
  (forall b ps', (ps <= ps' <= es)%nat -> skip ps' = ps' -> (b = true -> chr ps' <> 0) -> Q b ps') -> tot (peek line toks) Q ps.
Proof.
  intros Hps HQ. destruct (skip_spec ps Hps) as (Hs & _). unfold tot, peek. apply HQ; [done|by apply skip_skip|].
  intros [H _]%andb_true_iff. by apply negb_true_iff, Z.eqb_neq in H.
Qed.
(** The result of a parsing routine: words of the line, further on. *)
Definition parsed (ps : nat) (c : cmd span) (ps' : nat) : Prop := (ps <= ps' <= es)%nat /\ cmd_all word c.

Lemma parseredirs_tot c ps : (ps <= es)%nat -> cmd_all word c -> tot (parseredirs line c) (parsed ps) ps.
Proof.
  intros Hps Hc. unfold parseredirs.
  apply (tot_loop _ (fun c' p => (ps <= p <= es)%nat /\ cmd_all word c') (fun p => es - p)%nat); [|lia|done].
  clear c Hc. intros c p (Hp & Hc). unfold parseredirs_step. apply tot_bind, peek_tot; [lia|]. intros b p1 Hp1 Hsk Hb. destruct b; [|by split; [lia|]].
  apply tot_bind, gettoken_tot; [lia|]. intros r x p2 Hp2 Hadv Hnz _. rewrite Hsk in Hnz. specialize (Hadv (Hnz (Hb eq_refl))).
  apply tot_bind, gettoken_tot; [lia|]. intros r' x' p3 Hp3 _ _ Hw. cbn [fst snd]. destruct (Z.eqb_spec r' WORD) as [->|]; [|done]. cbn [negb].
  apply tot_ret. split; [|lia]. split; [lia|]. destruct (r =? 60); cbn; auto.
Qed.
Lemma fill_all argv c : cmd_all word c -> Forall word argv -> cmd_all word (fill argv c).
Proof. intros Hc Ha. induction c; cbn in *; try done. destruct Hc. split; auto. Qed.

Lemma parseargs_tot ps argv c : (ps <= es)%nat -> Forall word argv -> cmd_all word c ->
  tot (loop (S es) (parseargs_step line) (argv, c)) (parsed ps) ps.
Proof.
  intros Hps Ha Hc.
  apply (tot_loop _ (fun i p => (ps <= p <= es)%nat /\ Forall word (fst i) /\ cmd_all word (snd i)) (fun p => es - p)%nat); [|lia|done].
  clear argv c Ha Hc. intros [argv c] p (Hp & Ha & Hc). unfold parseargs_step. cbn [fst snd] in *.
  apply tot_bind, peek_tot; [lia|]. intros b p1 Hp1 Hsk _. destruct b; [apply tot_ret; split; [lia|by apply fill_all]|].
  apply tot_bind, gettoken_tot; [lia|]. intros r x p2 Hp2 Hadv _ Hw. cbn [fst snd].
  destruct (Z.eqb_spec r 0) as [->|Hr]; [apply tot_ret; split; [lia|by apply fill_all]|].
  destruct (Z.eqb_spec r WORD) as [->|]; [|done]. cbn [negb]. destruct (_ <=? _)%nat; [done|].
  specialize (Hadv ltac:(done)).
  apply tot_bind. eapply tot_mono; [by apply parseredirs_tot; [lia|]|]. intros c' p3 (Hp3 & Hc'). apply tot_ret. split; [|lia].
  split_and!; [lia|lia|apply Forall_app; auto|done].
Qed.

Lemma parseblock_tot pl ps : (ps <= es)%nat ->
  (forall p, (ps < p <= es)%nat -> tot pl (parsed p) p) -> tot (parseblock line pl) (parsed ps) ps.
Proof.
  intros Hps Hpl. unfold parseblock. apply tot_bind, peek_tot; [done|]. intros b p1 Hp1 Hsk Hb. destruct b; [|done]. cbn [negb].
  apply tot_bind, gettoken_tot; [lia|]. intros r x p2 Hp2 Hadv Hnz _. rewrite Hsk in Hnz. specialize (Hadv (Hnz (Hb eq_refl))).
  apply tot_bind. eapply tot_mono; [apply Hpl; lia|]. intros c p3 (Hp3 & Hc).
  apply tot_bind, peek_tot; [lia|]. intros b p4 Hp4 _ _. destruct b; [|done]. cbn [negb].
  apply tot_bind, gettoken_tot; [lia|]. intros r' x' p5 Hp5 _ _ _.
  eapply tot_mono; [by apply parseredirs_tot; [lia|]|]. intros c' p6 (Hp6 & Hc'). split; [lia|done].
Qed.
Lemma parseback_tot c ps : (ps <= es)%nat -> cmd_all word c -> tot (loop (S es) (parseback_step line) c) (parsed ps) ps.
Proof.
  intros Hps Hc. apply (tot_loop _ (fun c' p => (ps <= p <= es)%nat /\ cmd_all word c') (fun p => es - p)%nat); [|lia|done].
  clear c Hc. intros c p (Hp & Hc). unfold parseback_step. apply tot_bind, peek_tot; [lia|]. intros b p1 Hp1 Hsk Hb.
  destruct b; [|apply tot_ret; by split; [lia|]].
  apply tot_bind, gettoken_tot; [lia|]. intros r x p2 Hp2 Hadv Hnz _. rewrite Hsk in Hnz. specialize (Hadv (Hnz (Hb eq_refl))).
  apply tot_ret. split; [|lia]. split; [lia|done].
Qed.

(** Every routine of the descent terminates within its bound. *)
Lemma parse_tot n : forall ps, (ps <= es)%nat ->
  ((3 * (es - ps) + 3 <= n)%nat -> tot (parseline line n) (parsed ps) ps) /\
  ((3 * (es - ps) + 2 <= n)%nat -> tot (parsepipe line n) (parsed ps) ps) /\
  ((3 * (es - ps) + 1 <= n)%nat -> tot (parseexec line n) (parsed ps) ps).
Proof.
  induction n as [|n IH]; intros ps Hps; [split_and!; intros; lia|]. split_and!; intros Hn; cbn [parseline parsepipe parseexec].
  - apply tot_bind. eapply tot_mono; [apply (IH ps Hps); lia|]. intros c p1 (Hp1 & Hc).
    apply tot_bind. eapply tot_mono; [by apply parseback_tot; [lia|]|]. intros c1 p2 (Hp2 & Hc1).
    apply tot_bind, peek_tot; [lia|]. intros b p3 Hp3 Hsk Hb. destruct b; [|apply tot_ret; by split; [lia|]].
    apply tot_bind, gettoken_tot; [lia|]. intros r x p4 Hp4 Hadv Hnz _. rewrite Hsk in Hnz. specialize (Hadv (Hnz (Hb eq_refl))).
    apply tot_bind. eapply tot_mono; [apply (IH p4 ltac:(lia)); lia|]. intros c2 p5 (Hp5 & Hc2). apply tot_ret. by split; [lia|].
  - apply tot_bind. eapply tot_mono; [apply (IH ps Hps); lia|]. intros c p1 (Hp1 & Hc).
    apply tot_bind, peek_tot; [lia|]. intros b p3 Hp3 Hsk Hb. destruct b; [|apply tot_ret; by split; [lia|]].
    apply tot_bind, gettoken_tot; [lia|]. intros r x p4 Hp4 Hadv Hnz _. rewrite Hsk in Hnz. specialize (Hadv (Hnz (Hb eq_refl))).
    apply tot_bind. eapply tot_mono; [apply (IH p4 ltac:(lia)); lia|]. intros c2 p5 (Hp5 & Hc2). apply tot_ret. by split; [lia|].
  - apply tot_bind, peek_tot; [done|]. intros b p1 Hp1 Hsk Hb. destruct b.
    + eapply tot_mono; [apply (parseblock_tot _ p1); [lia|]; intros p Hp; apply (IH p ltac:(lia)); lia|].
      intros c p2 (Hp2 & Hc). split; [lia|done].
    + apply tot_bind. eapply tot_mono; [apply (parseredirs_tot _ p1); [lia|constructor]|]. intros c p2 (Hp2 & Hc).
      eapply tot_mono; [apply (parseargs_tot p2); [lia|constructor|done]|]. intros c' p3 (Hp3 & Hc'). split; [lia|done].
Qed.

(** ** The strings *)

(** The text of a counted string. *)
Definition text (x : span) : list Z := take (snd x - fst x) (drop (fst x) line).
(** The positions where [nulterminate] writes. *)
Fixpoint ends (c : cmd span) : list nat :=
  match c with
  | EXEC argv => map snd argv
  | REDIR c' file _ _ => ends c' ++ [snd file]
  | PIPE l r | LIST l r => ends l ++ ends r
  | BACK c' => ends c'
  end.
Lemma put_nuls argv : forall b k, (k < length b)%nat ->
  fold_left put_nul argv b !! k = if decide (k ∈ map snd argv) then Some 0 else b !! k.
Proof.
  induction argv as [|x argv IH]; intros b k Hk; cbn [fold_left map]; [by rewrite decide_False by set_solver|].
  rewrite IH by (unfold put_nul; by rewrite length_insert). unfold put_nul. case_decide as H1.
  - by rewrite decide_True by set_solver.
  - destruct (decide (snd x = k)) as [<-|Hne].
    + rewrite list_lookup_insert_eq by done. by rewrite decide_True by set_solver.
    + rewrite list_lookup_insert_ne by done. rewrite decide_False; [done|]. set_solver.
Qed.
Lemma length_nuls c b : length (nulterminate c b) = length b.
Proof.
  revert b. induction c as [argv|c IH file m fd|l IHl r IHr|l IHl r IHr|c IH]; intros b; cbn; rewrite ?IHr, ?IHl; auto.
  - revert b. induction argv as [|x argv IH]; intros b; cbn; [done|]. rewrite IH. apply length_insert.
  - unfold put_nul. by rewrite length_insert, IH.
Qed.
Lemma nulterminate_lookup c : forall b k, (k < length b)%nat ->
  nulterminate c b !! k = if decide (k ∈ ends c) then Some 0 else b !! k.
Proof.
  induction c as [argv|c IH file m fd|l IHl r IHr|l IHl r IHr|c IH]; intros b k Hk; cbn [nulterminate ends].
  - by apply put_nuls.
  - unfold put_nul. destruct (decide (snd file = k)) as [<-|Hne].
    + rewrite list_lookup_insert_eq by (by rewrite length_nuls). by rewrite decide_True by set_solver.
    + rewrite list_lookup_insert_ne, IH by done. repeat case_decide; try done; set_solver.
  - rewrite IHr, IHl by (by rewrite ?length_nuls). repeat case_decide; try done; set_solver.
  - rewrite IHr, IHl by (by rewrite ?length_nuls). repeat case_decide; try done; set_solver.
  - by apply IH.
Qed.
Lemma ends_word c k : cmd_all word c -> k ∈ ends c -> k = es \/ word_chr (chr k) = false.
Proof.
  induction c as [argv|c IH file m fd|l IHl r IHr|l IHl r IHr|c IH]; cbn; intros Hc.
  - intros (x & -> & Hx)%list_elem_of_fmap. apply (proj1 (Forall_forall _ _) Hc) in Hx as (_ & _ & H). done.
  - destruct Hc as [Hc (_ & _ & Hf)]. intros [H|H]%elem_of_app; [by apply IH|]. by apply list_elem_of_singleton in H as ->.
  - destruct Hc as [Hl Hr]. intros [H|H]%elem_of_app; [by apply IHl|by apply IHr].
  - destruct Hc as [Hl Hr]. intros [H|H]%elem_of_app; [by apply IHl|by apply IHr].
  - by apply IH.
Qed.
Lemma until_nul_app l r : Forall (fun c => c <> 0) l -> until_nul (l ++ 0 :: r) = l.
Proof. induction l as [|c l IH]; cbn; [done|]. intros [Hc Hl]%Forall_cons. rewrite (proj2 (Z.eqb_neq c 0)) by done. by rewrite IH. Qed.

Lemma chr_lookup k : (k < es)%nat -> line !! k = Some (chr k).
Proof. intros Hk. unfold chr. rewrite nth_lookup. by destruct (lookup_lt_is_Some_2 line k Hk) as [c ->]. Qed.
(** After [nulterminate] a word is a C string. *)
Lemma string_word c x : Forall (fun c => c <> 0) line -> cmd_all word c -> word x -> snd x ∈ ends c ->
  string_at (nulterminate c (line ++ [0])) x = text x.
Proof.
  intros Hnz Hc (Hlt & Hw & _) Hin. unfold string_at. set (b := nulterminate c (line ++ [0])).
  assert (Hlen : length b = S es) by (unfold b; rewrite length_nuls, length_app; cbn; unfold es; lia).
  assert (Hb : forall k, (fst x <= k < snd x)%nat -> b !! k = line !! k).
  { intros k Hk. unfold b. rewrite nulterminate_lookup by (rewrite length_app; cbn; unfold es in *; lia). rewrite decide_False.
    - by rewrite lookup_app_l by (unfold es in *; lia).
    - intros H. destruct (ends_word c k Hc H) as [->|E]; [lia|]. rewrite Hw in E by lia. done. }
  assert (He : b !! snd x = Some 0).
  { unfold b. rewrite nulterminate_lookup by (rewrite length_app; cbn; unfold es in *; lia). by rewrite decide_True. }
  assert (Hsplit : drop (fst x) b = text x ++ 0 :: drop (S (snd x)) b).
  { rewrite <-(take_drop (snd x - fst x) (drop (fst x) b)), drop_drop. f_equal.
    - unfold text. apply list_eq. intros k. destruct (decide (k < snd x - fst x)%nat).
      + rewrite !lookup_take_lt, !lookup_drop by done. apply Hb. lia.
      + by rewrite !lookup_take_ge by lia.
    - replace (fst x + (snd x - fst x))%nat with (snd x) by lia. by apply drop_S. }
  rewrite Hsplit. apply until_nul_app. unfold text. apply Forall_take, Forall_drop, Hnz.
Qed.
Lemma all_ends c : cmd_all word c -> cmd_all (fun x => word x /\ snd x ∈ ends c) c.
Proof.
  enough (H : forall l, (forall k, k ∈ ends c -> k ∈ l) -> cmd_all word c -> cmd_all (fun x => word x /\ snd x ∈ l) c) by (by apply H).
  induction c as [argv|c IH file m fd|a IHl b IHr|a IHl b IHr|c IH]; cbn; intros l Hl Hc.
  - apply Forall_forall. intros x Hx. split; [by apply (proj1 (Forall_forall _ _) Hc)|]. apply Hl. apply list_elem_of_fmap. by exists x.
  - destruct Hc as [Hc Hf]. split; [apply IH; [set_solver|done]|]. split; [done|]. apply Hl. set_solver.
  - destruct Hc as [H1 H2]. split; [apply IHl|apply IHr]; try done; set_solver.
  - destruct Hc as [H1 H2]. split; [apply IHl|apply IHr]; try done; set_solver.
  - by apply IH.
Qed.

Lemma spans_tot : tot (parsecmd_spans line) (parsed 0%nat) 0%nat.
Proof.
  unfold parsecmd_spans. apply tot_bind. eapply tot_mono; [apply (parse_tot (depth line) 0%nat); unfold depth; lia|]. intros c p (Hp & Hc).
  apply tot_bind, peek_tot; [lia|]. intros b p1 Hp1 _ _. unfold get, bind, tot. destruct (p1 =? es)%nat; [|done]. by split; [lia|].
Qed.
Lemma strings_words c : Forall (fun c => c <> 0) line -> cmd_all word c ->
  cmd_map (string_at (nulterminate c (line ++ [0]))) c = cmd_map text c.
Proof. intros Hnz Hc. eapply cmd_map_ext; [|by apply all_ends]. intros x [Hx He]. by apply string_word. Qed.

(** C27. The parser terminates on every line, with a command or a message; every
    argument and file name of the command is a maximal word of the line, and
    after [nulterminate] the C strings in the buffer are exactly these words,
    whatever the order in which the NULs were written. *)
Theorem parsecmd_total : Forall (fun c => c <> 0) line ->
  match parsecmd line with
  | Ok (c, buf) _ => cmd_all word c /\ cmd_map (string_at buf) c = cmd_map text c
  | Panic _ => True
  | _ => False
  end.
Proof.
  intros Hnz. pose proof spans_tot as Ht. unfold parsecmd, tot in *. destruct (parsecmd_spans line 0%nat) as [c p| | |]; try done.
  destruct Ht as [_ Hc]. split; [done|by apply strings_words].
Qed.
End line.
