(* ===== verification/ShPrint.v ===== *)
(** * The shell's parser reads back what a printer writes *)

From S2P Require Import Prelude Params Ulib Sh ShSpec.

#[local] Arguments skip : simpl never.
#[local] Arguments scan : simpl never.

(** ** Printing *)

Inductive token := TW (w : list Z) | TS (c : Z).
Definition tok_text (t : token) : list Z := match t with TW w => w | TS c => [c] end.
(** Every token is followed by a blank. *)
Definition text_of (ts : list token) : list Z := flat_map (fun t => tok_text t ++ [32]) ts.

(** How tightly a command binds: list, background, pipe, simple. *)
Definition level {S} (c : cmd S) : nat :=
  match c with LIST _ _ => 0 | BACK _ => 1 | PIPE _ _ => 2 | EXEC _ | REDIR _ _ _ _ => 3 end.
Definition redir_sym (mode : Z) : Z := if mode =? O_RDONLY then 60 else 62.
Definition paren (ts : list token) : list token := TS 40 :: ts ++ [TS 41].
Fixpoint toks (lvl : nat) (c : cmd (list Z)) : list token :=
  let body := match c with
    | EXEC argv => map TW argv
    | REDIR c' file mode _ => toks 3 c' ++ [TS (redir_sym mode); TW file]
    | PIPE l r => toks 3 l ++ TS 124 :: toks 2 r
    | LIST l r => toks 1 l ++ TS 59 :: toks 0 r
    | BACK c' => toks 1 c' ++ [TS 38]
    end in
  if (lvl <=? level c)%nat then body else paren body.
Definition print (c : cmd (list Z)) : list Z := text_of (toks 0 c).

(** Commands that can be written: words without blanks and symbols, at most
    nine arguments, the two modes of redirection. *)
Definition good_word (w : list Z) : Prop := w <> [] /\ Forall (fun c => word_chr c = true /\ c <> 0) w.
Fixpoint good_cmd (c : cmd (list Z)) : Prop :=
  match c with
  | EXEC argv => Forall good_word argv /\ (length argv < MAXARGS)%nat
  | REDIR c' file mode fd => good_cmd c' /\ good_word file /\
      ((mode = O_RDONLY /\ fd = 0) \/ (mode = Z.lor O_WRONLY O_CREATE /\ fd = 1))
  | PIPE l r | LIST l r => good_cmd l /\ good_cmd r
  | BACK c' => good_cmd c'
  end.
Definition good_tok (t : token) : Prop := match t with TW w => good_word w | TS c => In c symbols end.

(** [par m Q s]: from [s], [m] returns with [Q], unless its bound is too small. *)
Definition par {S A} (m : M S A) (Q : A -> S -> Prop) (s : S) : Prop :=
  match m s with Ok a s' => Q a s' | OutOfFuel => True | _ => False end.
Lemma par_bind {S A B} (m : M S A) (k : A -> M S B) Q s : par m (fun a s' => par (k a) Q s') s -> par (bind m k) Q s.
Proof. unfold par, bind. by destruct (m s). Qed.
Lemma par_mono {S A} (m : M S A) (Q Q' : A -> S -> Prop) s : par m Q s -> (forall a s', Q a s' -> Q' a s') -> par m Q' s.
Proof. unfold par. destruct (m s); naive_solver. Qed.
Lemma par_ret {S A} (a : A) (Q : A -> S -> Prop) s : Q a s -> par (ret a) Q s.
Proof. done. Qed.
Lemma par_loop {S I R} (body : I -> M S (I + R)) (Q : R -> S -> Prop) fuel i s :
  (forall n, par (body i) (fun r s' => match r with inl i' => par (loop n body i') Q s' | inr x => Q x s' end) s) ->
  par (loop fuel body i) Q s.
Proof.
  intros Hb. destruct fuel as [|n]; [done|]. cbn [loop]. apply par_bind. eapply par_mono; [apply (Hb n)|]. by intros [i'|x] s'.
Qed.

(** ** Reading tokens *)

Section line.
Context (line : list Z).
Notation es := (es line).
Notation chr := (chr line).

(** The rest of the line from [ps] on are the tokens [ts]. *)
Definition at_toks (ps : nat) (ts : list token) : Prop :=
  Forall good_tok ts /\ exists pre, line = pre ++ text_of ts /\ ps = length pre.

Lemma chr_app pre l k : line = pre ++ l -> chr (length pre + k) = nth k l 0.
Proof. intros ->. unfold chr. rewrite app_nth2 by lia. f_equal. lia. Qed.
Lemma blank_tok t : good_tok t -> exists c r, tok_text t = c :: r /\ mem_chr whitespace c = false /\ c <> 0.
Proof.
  destruct t as [[|c w]|c]; cbn.
  - by intros [? _].
  - intros [_ [[Hc Hn] _]%Forall_cons]. exists c, w. unfold word_chr in Hc. apply andb_true_iff in Hc as [Hc _].
    by apply negb_true_iff in Hc.
  - intros H. exists c, []. split; [done|]. by decompose [or] H; subst.
Qed.
(** At a token, or at the end, there is no blank to skip. *)
Lemma at_skip ps ts : at_toks ps ts -> skip line ps = ps /\ (ps <= es)%nat /\
  chr ps = match ts with [] => 0 | t :: _ => hd 0 (tok_text t) end.
Proof.
  intros (Hg & pre & Hl & ->). assert (Hle : (length pre <= es)%nat) by (unfold es; rewrite Hl, length_app; lia).
  assert (E : chr (length pre) = match ts with [] => 0 | t :: _ => hd 0 (tok_text t) end).
  { rewrite <-(Nat.add_0_r (length pre)), (chr_app pre (text_of ts) 0 Hl). destruct ts as [|t ts]; [done|].
    apply Forall_cons in Hg as [Ht _]. destruct (blank_tok t Ht) as (c & r & E & _). cbn. by rewrite E. }
  split_and!; [|done|done]. apply skip_stop. rewrite E. destruct ts as [|t ts]; [done|].
  apply Forall_cons in Hg as [Ht _]. destruct (blank_tok t Ht) as (c & r & -> & H & _). done.
Qed.
Lemma at_next ps t ts : at_toks ps (t :: ts) -> at_toks (ps + length (tok_text t) + 1) ts /\
  skip line (ps + length (tok_text t)) = (ps + length (tok_text t) + 1)%nat.
Proof.
  intros (Hg & pre & Hl & ->). apply Forall_cons in Hg as [Ht Hg].
  assert (Hn : at_toks (length pre + length (tok_text t) + 1) ts).
  { split; [done|]. exists (pre ++ tok_text t ++ [32]). rewrite Hl. cbn. split; [by rewrite <-!app_assoc|]. rewrite !length_app. cbn. lia. }
  split; [done|]. destruct (at_skip _ _ Hn) as (Hsk & Hle & _).
  assert (Hc : chr (length pre + length (tok_text t)) = 32).
  { rewrite (chr_app pre _ _ Hl). cbn. rewrite <-app_assoc, app_nth2, Nat.sub_diag by lia. done. }
  unfold skip, scan in *. replace (es - (length pre + length (tok_text t)))%nat with (S (es - (length pre + length (tok_text t) + 1))) by lia.
  cbn [span_while]. rewrite Hc. cbn [mem_chr existsb whitespace Z.eqb]. rewrite <-Hsk at 2. f_equal. lia.
Qed.

(** Does the next token start with one of these symbols? *)
Definition next_is (ts : list token) (syms : list Z) : bool :=
  match ts with TS c :: _ => mem_chr syms c | _ => false end.
Lemma peek_at ps ts syms (Q : bool -> nat -> Prop) : at_toks ps ts -> (forall c, In c syms -> In c symbols) ->
  Q (next_is ts syms) ps -> par (peek line syms) Q ps.
Proof.
  intros Hat Hs HQ. destruct (at_skip _ _ Hat) as (E & _ & Ec). unfold par, peek. rewrite E, Ec.
  replace (negb _ && _) with (next_is ts syms); [done|]. destruct ts as [|t ts]; [done|]. destruct Hat as [Hg _]. apply Forall_cons in Hg as [Ht _].
  destruct (blank_tok t Ht) as (c & r & Et & _ & Hn0). rewrite Et. cbn [hd]. rewrite (proj2 (Z.eqb_neq c 0)) by done. cbn [negb andb].
  destruct t as [w|c']; cbn in *; [|by injection Et as -> _]. symmetry. apply mem_chr_not. intros Hin. destruct Ht as [_ Hw]. rewrite Et in Hw.
  apply Forall_cons in Hw as [[Hw _] _]. unfold word_chr in Hw. apply andb_true_iff in Hw as [_ Hw]. apply negb_true_iff, mem_chr_false in Hw. by apply Hw, Hs.
Qed.

Lemma get_sym ps c ts (Q : Z * span -> nat -> Prop) : at_toks ps (TS c :: ts) -> (forall x ps', at_toks ps' ts -> Q (c, x) ps') ->
  par (gettoken line) Q ps.
Proof.
  intros Hat HQ. destruct (at_skip _ _ Hat) as (E & _ & Ec). destruct (at_next _ _ _ Hat) as (Hn & Hsk). cbn [tok_text length hd] in *.
  assert (Hs : In c symbols) by (destruct Hat as [Hg _]; by apply Forall_cons in Hg as [Ht _]).
  assert (Hc1 : chr (ps + 1) = 32) by (destruct Hat as (_ & pre & Hl & ->); by rewrite (chr_app pre _ 1 Hl)).
  unfold par, gettoken. rewrite E, Ec. cbv zeta. replace (S ps) with (ps + 1)%nat by lia. rewrite Hc1.
  clear Ec. cbn in Hs. decompose [or] Hs; subst; try done; cbn; rewrite Hsk; by apply HQ.
Qed.
Lemma get_end ps (Q : Z * span -> nat -> Prop) : at_toks ps [] -> (forall x ps', at_toks ps' [] -> Q (0, x) ps') -> par (gettoken line) Q ps.
Proof.
  intros Hat HQ. destruct (at_skip _ _ Hat) as (E & _ & Ec). unfold par, gettoken. rewrite E, Ec. cbn. rewrite E. by apply HQ.
Qed.
Lemma get_word ps w ts (Q : Z * span -> nat -> Prop) : at_toks ps (TW w :: ts) ->
  (forall x ps', at_toks ps' ts -> text line x = w -> Q (WORD, x) ps') -> par (gettoken line) Q ps.
Proof.
  intros Hat HQ. destruct (at_skip _ _ Hat) as (E & Hle & Ec). destruct (at_next _ _ _ Hat) as (Hn & Hsk). cbn [tok_text] in *.
  destruct (at_skip _ _ Hn) as (_ & Hle' & _). destruct Hat as (Hg & pre & Hl & ->). apply Forall_cons in Hg as [[Hne Hw] _]. cbn in Hl.
  assert (Hin : forall k, (k < length w)%nat -> word_chr (chr (length pre + k)) = true).
  { intros k Hk. rewrite (chr_app pre _ k Hl), <-app_assoc, app_nth1 by lia. rewrite nth_lookup.
    destruct (lookup_lt_is_Some_2 w k Hk) as [c Hc]. rewrite Hc. cbn. by apply (proj1 (Forall_lookup _ _) Hw) in Hc as [? _]. }
  assert (Hout : chr (length pre + length w) = 32) by (rewrite (chr_app pre _ _ Hl), <-app_assoc, app_nth2, Nat.sub_diag by lia; done).
  destruct (scan_spec line word_chr (length pre) Hle) as (H1 & H2 & H3).
  assert (Hscan : scan line word_chr (length pre) = (length pre + length w)%nat).
  { set (e := scan line word_chr (length pre)) in *. destruct (decide (e < length pre + length w)%nat) as [Hlt|].
    - specialize (Hin (e - length pre)%nat ltac:(lia)). replace (length pre + (e - length pre))%nat with e in Hin by lia.
      rewrite H3 in Hin by lia. done.
    - destruct (decide (length pre + length w < e)%nat) as [Hgt|]; [|lia]. specialize (H2 (length pre + length w)%nat ltac:(lia)). by rewrite Hout in H2. }
  destruct w as [|c w]; [done|]. cbn [hd] in Ec. assert (Hc : word_chr c = true /\ c <> 0) by (by apply Forall_cons in Hw as [? _]).
  destruct Hc as [Hc Hc0]. assert (Hns : ~ In c symbols) by (unfold word_chr in Hc; apply andb_true_iff in Hc as [_ Hc]; by apply negb_true_iff, mem_chr_false in Hc).
  unfold par, gettoken. rewrite E, Ec. cbv zeta. rewrite (proj2 (Z.eqb_neq c 0)) by done.
  rewrite mem_chr_not by (intros H; apply Hns; cbn in *; decompose [or] H; auto 10; done).
  destruct (Z.eqb_spec c 62) as [->|]; [by destruct Hns; cbn; auto|]. rewrite Hscan, Hsk. apply HQ; [done|].
  unfold text. cbn [fst snd]. replace (length pre + length (c :: w) - length pre)%nat with (length (c :: w)) by lia.
  rewrite Hl, drop_app_length, <-app_assoc. by rewrite take_app_length.
Qed.

(** ** Reading commands *)

(** The command in terms of the words of the line. *)
Definition words_of (c : cmd span) : cmd (list Z) := cmd_map (text line) c.
(** What may follow a command at each level. *)
Definition follow (syms : list Z) (ts : list token) : Prop := ts = [] \/ next_is ts syms = true.
Lemma follow_not ts syms syms' : follow syms ts -> (forall c, In c syms -> In c syms' -> False) -> next_is ts syms' = false.
Proof.
  intros [->|H] Hd; [done|]. destruct ts as [|[w|c] ts]; cbn in *; try done. apply mem_chr_not. intros Hin. by apply mem_chr_true, Hd in H.
Qed.

(** A list of redirections: file, mode and descriptor. *)
Definition redirs := list (list Z * Z * Z).
Definition good_redir (r : list Z * Z * Z) : Prop :=
  good_word (fst (fst r)) /\ ((snd (fst r) = O_RDONLY /\ snd r = 0) \/ (snd (fst r) = Z.lor O_WRONLY O_CREATE /\ snd r = 1)).
Fixpoint apply_redirs (rs : redirs) (c : cmd (list Z)) : cmd (list Z) :=
  match rs with [] => c | (f, m, fd) :: rs' => apply_redirs rs' (REDIR c f m fd) end.
Fixpoint redir_toks (rs : redirs) : list token :=
  match rs with [] => [] | (f, m, _) :: rs' => TS (redir_sym m) :: TW f :: redir_toks rs' end.

Lemma redirs_at fuel rs ts : Forall good_redir rs -> next_is ts [60; 62] = false -> forall c ps, at_toks ps (redir_toks rs ++ ts) ->
  par (loop fuel (parseredirs_step line) c) (fun c' ps' => words_of c' = apply_redirs rs (words_of c) /\ at_toks ps' ts) ps.
Proof.
  intros Hrs Hts. revert fuel. induction rs as [|[[f m] fd] rs IH]; intros fuel c ps Hat; apply par_loop; intros n; unfold parseredirs_step; apply par_bind.
  - eapply peek_at; [done|cbn; tauto|]. cbn [app redir_toks]. rewrite Hts. by apply par_ret.
  - apply Forall_cons in Hrs as [[Hf Hm] Hrs]. cbn [fst snd] in *. eapply peek_at; [done|cbn; tauto|].
    assert (En : next_is (redir_toks ((f, m, fd) :: rs) ++ ts) [60; 62] = true) by (destruct Hm as [[-> _]|[-> _]]; done). rewrite En.
    apply par_bind, (get_sym ps (redir_sym m) (TW f :: redir_toks rs ++ ts)); [exact Hat|]. intros x1 ps1 Hat1.
    apply par_bind, (get_word ps1 f (redir_toks rs ++ ts)); [exact Hat1|]. intros x2 ps2 Hat2 Hx2.
    cbn [fst snd]. apply par_ret. specialize (IH Hrs n). destruct Hm as [[-> ->]|[-> ->]]; (eapply par_mono; [by apply IH|]); intros c' ps' [-> ?];
      (split; [|done]); unfold words_of; try change (redir_sym (Z.lor O_WRONLY O_CREATE) =? 60) with false; cbn; by rewrite Hx2.
Qed.

(** What ends a simple command. *)
Definition stops : list Z := [124; 41; 38; 59].
Lemma fill_redirs rs argv c : (exists a, words_of c = apply_redirs rs (EXEC a)) -> words_of (fill argv c) = apply_redirs rs (EXEC (map (text line) argv)).
Proof.
  intros [a Ha]. revert c Ha. induction rs as [|[[f m] fd] rs IH] using rev_ind; intros c Ha.
  - destruct c; try done.
  - assert (Happ : forall x, apply_redirs (rs ++ [(f, m, fd)]) x = REDIR (apply_redirs rs x) f m fd).
    { clear. induction rs as [|[[f' m'] fd'] rs IH]; intros x; [done|]. cbn. apply IH. }
    rewrite Happ in *. destruct c as [|c x m' fd'| | |]; try done. cbn in Ha. injection Ha as Ha <- <- <-. cbn. f_equal. by apply IH.
Qed.
(** No more arguments. *)
Lemma args_end fuel argv c rs ts ps : follow stops ts -> at_toks ps ts -> (exists a, words_of c = apply_redirs rs (EXEC a)) ->
  par (loop fuel (parseargs_step line) (argv, c))
    (fun c' ps' => words_of c' = apply_redirs rs (EXEC (map (text line) argv)) /\ at_toks ps' ts) ps.
Proof.
  intros Hf Hat Hc. apply par_loop. intros n. unfold parseargs_step. apply par_bind, (peek_at ps ts); [done|cbn; tauto|].
  destruct Hf as [->|Hn].
  - cbn [next_is]. apply par_bind, get_end; [done|]. intros x ps' Hat'. cbn. split; [by apply fill_redirs|done].
  - change [124; 41; 38; 59] with stops. rewrite Hn. apply par_ret. split; [by apply fill_redirs|done].
Qed.
(** The arguments [ws], then redirections. *)
Lemma args_at ws rs ts : follow stops ts -> Forall good_redir rs -> ws <> [] ->
  forall fuel argv ps, at_toks ps (map TW ws ++ redir_toks rs ++ ts) -> (length argv + length ws < MAXARGS)%nat ->
  par (loop fuel (parseargs_step line) (argv, EXEC []))
    (fun c' ps' => words_of c' = apply_redirs rs (EXEC (map (text line) argv ++ ws)) /\ at_toks ps' ts) ps.
Proof.
  intros Hf Hrs Hne. induction ws as [|w ws IH]; [done|]. intros fuel argv ps Hat Hlen. cbn [map app length] in *.
  apply par_loop. intros n. unfold parseargs_step. apply par_bind, (peek_at ps _ _ _ Hat); [cbn; tauto|]. cbn [next_is].
  apply par_bind, (get_word _ w _ _ Hat). intros x ps1 Hat1 Hx. cbn [fst snd]. change (WORD =? 0) with false. change (WORD =? WORD) with true.
  cbn [negb]. rewrite (proj2 (Nat.leb_gt _ _)) by (rewrite length_app; cbn; lia). apply par_bind. destruct ws as [|w' ws].
  - eapply par_mono; [apply (redirs_at _ rs ts); [done| |exact Hat1]|].
    { eapply follow_not; [done|]. cbn. intros c H1 H2. decompose [or] H1; subst; decompose [or] H2; done. }
    intros c' ps2 [Hc' Hat2]. apply par_ret. eapply par_mono; [apply (args_end n (argv ++ [x]) c' rs ts); [done|done|by exists []]|].
    intros c'' ps3 [-> ?]. split; [|done]. by rewrite map_app, <-Hx.
  - eapply par_mono; [apply (redirs_at _ [] (map TW (w' :: ws) ++ redir_toks rs ++ ts)); [constructor|done|exact Hat1]|].
    intros c' ps2 [Hc' Hat2]. apply par_ret. assert (E : c' = EXEC []) by (by destruct c' as [[|]| | | |]). rewrite E.
    eapply par_mono; [apply (IH ltac:(done) n (argv ++ [x]) ps2 Hat2); rewrite length_app; cbn in *; lia|].
    intros c'' ps3 [-> ?]. split; [|done]. by rewrite map_app, <-app_assoc, <-Hx.
Qed.

(** ** The descent *)

Definition E_ok (c : cmd (list Z)) : Prop := forall n rs ts ps, follow stops ts -> Forall good_redir rs ->
  at_toks ps (toks 3 c ++ redir_toks rs ++ ts) ->
  par (parseexec line n) (fun c' ps' => words_of c' = apply_redirs rs c /\ at_toks ps' ts) ps.
Definition P_ok (c : cmd (list Z)) : Prop := forall n ts ps, follow [41; 38; 59] ts -> at_toks ps (toks 2 c ++ ts) ->
  par (parsepipe line n) (fun c' ps' => words_of c' = c /\ at_toks ps' ts) ps.
(** [parsepipe] and the loop over [&] reach [c]. *)
Definition B_ok (c : cmd (list Z)) : Prop := forall n ts ps (Q : cmd span -> nat -> Prop), follow [41; 38; 59] ts -> at_toks ps (toks 1 c ++ ts) ->
  (forall k c' ps', words_of c' = c -> at_toks ps' ts -> par (loop k (parseback_step line) c') Q ps') ->
  forall k, par (c0 <-- parsepipe line n ;; loop k (parseback_step line) c0) Q ps.
Definition L_ok (c : cmd (list Z)) : Prop := forall n ts ps, follow [41] ts -> at_toks ps (toks 0 c ++ ts) ->
  par (parseline line n) (fun c' ps' => words_of c' = c /\ at_toks ps' ts) ps.

Lemma follow_sub syms syms' ts : (forall c, In c syms -> In c syms') -> follow syms ts -> follow syms' ts.
Proof.
  intros Hs [->|H]; [by left|right]. destruct ts as [|[w|c] ts]; cbn in *; try done. apply mem_chr_true, Hs in H. unfold mem_chr.
  apply existsb_exists. exists c. by rewrite Z.eqb_refl.
Qed.
Lemma P_of_E c : toks 2 c = toks 3 c -> E_ok c -> P_ok c.
Proof.
  intros Et HE n ts ps Hf Hat. destruct n as [|n]; [done|]. cbn [parsepipe]. apply par_bind.
  eapply par_mono; [apply (HE n [] ts ps); [|constructor|by rewrite Et in Hat]|].
  { eapply follow_sub; [|done]. cbn. tauto. }
  intros c' ps1 [Hc Hat1]. apply par_bind, (peek_at _ _ _ _ Hat1); [cbn; tauto|]. rewrite (follow_not _ _ _ Hf); [by apply par_ret|].
  cbn. intros x H1 H2. decompose [or] H1; subst; decompose [or] H2; done.
Qed.
Lemma B_of_P c : toks 1 c = toks 2 c -> P_ok c -> B_ok c.
Proof.
  intros Et HP n ts ps Q Hf Hat HQ k. apply par_bind. eapply par_mono; [apply (HP n ts ps); [done|by rewrite Et in Hat]|].
  intros c' ps1 [Hc Hat1]. by apply HQ.
Qed.

Lemma par_assoc {A B C} (m : M nat A) (f : A -> M nat B) (g : B -> M nat C) Q ps :
  par (bind (bind m f) g) Q ps -> par (bind m (fun a => bind (f a) g)) Q ps.
Proof. unfold par, bind. by destruct (m ps). Qed.
(** The loop over [&] stops before another token. *)
Lemma back_stop k c ts ps (Q : cmd span -> nat -> Prop) : next_is ts [38] = false -> at_toks ps ts -> Q c ps -> par (loop k (parseback_step line) c) Q ps.
Proof.
  intros Hn Hat HQ. apply par_loop. intros n. unfold parseback_step. apply par_bind, (peek_at _ _ _ _ Hat); [cbn; tauto|]. by rewrite Hn.
Qed.
Lemma L_of_B c : toks 0 c = toks 1 c -> B_ok c -> L_ok c.
Proof.
  intros Et HB n ts ps Hf Hat. destruct n as [|n]; [done|]. cbn [parseline]. apply par_assoc, par_bind. rewrite Et in Hat.
  eapply (HB n ts ps); [|done|]; [eapply follow_sub; [|done]; cbn; tauto|]. intros k c' ps' Hc Hat'.
  assert (Hno : forall syms, (forall x, In x [41] -> In x syms -> False) -> next_is ts syms = false) by (intros; by eapply follow_not).
  apply (back_stop k c' ts); [apply Hno; cbn; intros x H1 H2; decompose [or] H1; subst; decompose [or] H2; done|done|].
  apply par_bind, (peek_at _ _ _ _ Hat'); [cbn; tauto|]. rewrite Hno; [by apply par_ret|].
  cbn; intros x H1 H2; decompose [or] H1; subst; decompose [or] H2; done.
Qed.
Lemma L_list l r : B_ok l -> L_ok r -> L_ok (LIST l r).
Proof.
  intros HB HL n ts ps Hf Hat. destruct n as [|n]; [done|]. cbn [parseline]. apply par_assoc, par_bind.
  change (toks 0 (LIST l r)) with (toks 1 l ++ TS 59 :: toks 0 r) in Hat. rewrite <-app_assoc in Hat. cbn [app] in Hat.
  eapply (HB n (TS 59 :: toks 0 r ++ ts) ps); [by right|done|]. intros k c' ps' Hc Hat'.
  apply (back_stop k c' (TS 59 :: toks 0 r ++ ts)); [done|done|]. apply par_bind, (peek_at _ _ _ _ Hat'); [cbn; tauto|]. cbn [next_is].
  change (mem_chr [59] 59) with true. apply par_bind, (get_sym _ _ _ _ Hat'). intros x ps2 Hat2.
  apply par_bind. eapply par_mono; [by apply (HL n ts)|]. intros c2 ps3 [Hc2 Hat3]. apply par_ret. split; [|done].
  unfold words_of in *. cbn. by rewrite Hc, Hc2.
Qed.
Lemma E_of_L c body : toks 3 c = paren body -> toks 0 c = body -> L_ok c -> E_ok c.
Proof.
  intros E3 E0 HL n rs ts ps Hf Hrs Hat. destruct n as [|n]; [done|]. cbn [parseexec]. rewrite E3, <-E0 in Hat. unfold paren in Hat.
  cbn [app] in Hat. rewrite <-app_assoc in Hat. cbn [app] in Hat.
  apply par_bind, (peek_at _ _ _ _ Hat); [cbn; tauto|]. cbn [next_is]. change (mem_chr [40] 40) with true. cbv iota. unfold parseblock.
  apply par_bind, (peek_at _ _ _ _ Hat); [cbn; tauto|]. cbn [next_is]. change (mem_chr [40] 40) with true. cbn [negb].
  apply par_bind, (get_sym _ _ _ _ Hat). intros x ps1 Hat1. apply par_bind.
  eapply par_mono; [apply (HL n (TS 41 :: redir_toks rs ++ ts)); [by right|done]|]. intros c' ps2 [Hc Hat2].
  apply par_bind, (peek_at _ _ _ _ Hat2); [cbn; tauto|]. cbn [next_is]. change (mem_chr [41] 41) with true. cbn [negb].
  apply par_bind, (get_sym _ _ _ _ Hat2). intros y ps3 Hat3.
  eapply par_mono; [apply (redirs_at _ rs ts); [done| |exact Hat3]|by rewrite Hc].
  eapply follow_not; [done|]. cbn. intros z H1 H2. decompose [or] H1; subst; decompose [or] H2; done.
Qed.
Lemma E_exec argv : Forall good_word argv -> (length argv < MAXARGS)%nat -> E_ok (EXEC argv).
Proof.
  intros Ha Hlen n rs ts ps Hf Hrs Hat. destruct n as [|n]; [done|]. cbn [parseexec]. change (toks 3 (EXEC argv)) with (map TW argv) in Hat.
  assert (Hno : forall syms, (forall x, In x stops -> In x syms -> False) -> next_is ts syms = false) by (intros; by eapply follow_not).
  assert (Hts : next_is ts [60; 62] = false) by (apply Hno; cbn; intros x H1 H2; decompose [or] H1; subst; decompose [or] H2; done).
  apply par_bind, (peek_at _ _ _ _ Hat); [cbn; tauto|].
  assert (E40 : next_is (map TW argv ++ redir_toks rs ++ ts) [40] = false).
  { destruct argv; [|done]. destruct rs as [|[[f m] fd] rs]; cbn.
    - apply Hno. cbn; intros x H1 H2; decompose [or] H1; subst; decompose [or] H2; done.
    - apply Forall_cons in Hrs as [[_ Hm] _]. cbn in Hm. destruct Hm as [[-> _]|[-> _]]; done. }
  rewrite E40. apply par_bind. destruct argv as [|w ws].
  - eapply par_mono; [by apply (redirs_at _ rs ts)|]. intros c ps1 [Hc Hat1]. by apply (args_end _ [] c rs ts); [done|done|exists []].
  - eapply par_mono; [apply (redirs_at _ [] (map TW (w :: ws) ++ redir_toks rs ++ ts)); [constructor|done|exact Hat]|].
    intros c ps1 [Hc Hat1]. assert (E : c = EXEC []) by (by destruct c as [[|]| | | |]). rewrite E. by apply (args_at (w :: ws) rs ts).
Qed.

(** Every command is read back at every level. *)
Lemma all_ok c : good_cmd c -> E_ok c /\ P_ok c /\ B_ok c /\ L_ok c.
Proof.
  assert (Hup : forall c, toks 2 c = toks 3 c -> toks 1 c = toks 2 c -> toks 0 c = toks 1 c -> E_ok c -> E_ok c /\ P_ok c /\ B_ok c /\ L_ok c).
  { intros c' H1 H2 H3 HE. assert (HP : P_ok c') by (by apply P_of_E). assert (HB : B_ok c') by (by apply B_of_P). split_and!; try done. by apply L_of_B. }
  induction c as [argv|c IH file m fd|l IHl r IHr|l IHl r IHr|c IH]; cbn [good_cmd].
  - intros [Ha Hl]. apply Hup; [done..|]. by apply E_exec.
  - intros (Hc & Hf & Hm). destruct (IH Hc) as (HE & _). apply Hup; [done..|]. intros n rs ts ps Hfo Hrs Hat.
    apply (HE n ((file, m, fd) :: rs) ts ps); [done|by constructor|].
    change (toks 3 (REDIR c file m fd)) with (toks 3 c ++ [TS (redir_sym m); TW file]) in Hat. by rewrite <-app_assoc in Hat.
  - intros [Hl Hr]. destruct (IHl Hl) as (HE & _). destruct (IHr Hr) as (_ & HP & _).
    assert (HPc : P_ok (PIPE l r)).
    { intros n ts ps Hf Hat. destruct n as [|n]; [done|]. cbn [parsepipe]. apply par_bind.
      change (toks 2 (PIPE l r)) with (toks 3 l ++ TS 124 :: toks 2 r) in Hat. rewrite <-app_assoc in Hat. cbn [app] in Hat.
      eapply par_mono; [apply (HE n [] (TS 124 :: toks 2 r ++ ts) ps); [by right|constructor|done]|]. intros c' ps1 [Hc Hat1].
      apply par_bind, (peek_at _ _ _ _ Hat1); [cbn; tauto|]. cbn [next_is]. change (mem_chr [124] 124) with true. cbv iota.
      apply par_bind, (get_sym _ _ _ _ Hat1). intros x ps2 Hat2. apply par_bind. eapply par_mono; [by apply (HP n ts)|].
      intros c2 ps3 [Hc2 Hat3]. apply par_ret. split; [|done]. unfold words_of in *. cbn in *. by rewrite Hc, Hc2. }
    assert (HB : B_ok (PIPE l r)) by (by apply B_of_P). assert (HL : L_ok (PIPE l r)) by (by apply L_of_B).
    split_and!; try done. by eapply E_of_L.
  - intros [Hl Hr]. destruct (IHl Hl) as (_ & _ & HB & _). destruct (IHr Hr) as (_ & _ & _ & HLr).
    assert (HL : L_ok (LIST l r)) by (by apply L_list). assert (HE : E_ok (LIST l r)) by (by eapply E_of_L).
    assert (HP : P_ok (LIST l r)) by (by apply P_of_E). split_and!; try done. by apply B_of_P.
  - intros Hc. destruct (IH Hc) as (_ & _ & HB & _).
    assert (HBc : B_ok (BACK c)).
    { intros n ts ps Q Hf Hat HQ k. change (toks 1 (BACK c)) with (toks 1 c ++ [TS 38]) in Hat. rewrite <-app_assoc in Hat. cbn [app] in Hat.
      apply (HB n (TS 38 :: ts) ps); [by right|done|]. intros k' c' ps' Hc' Hat'. apply par_loop. intros k2. unfold parseback_step.
      apply par_bind, (peek_at _ _ _ _ Hat'); [cbn; tauto|]. cbn [next_is]. change (mem_chr [38] 38) with true. cbv iota.
      apply par_bind, (get_sym _ _ _ _ Hat'). intros x ps2 Hat2. apply par_ret. apply HQ; [|done]. unfold words_of in *. cbn. by rewrite Hc'. }
    assert (HL : L_ok (BACK c)) by (by apply L_of_B). assert (HE : E_ok (BACK c)) by (by eapply E_of_L).
    split_and!; try done. by apply P_of_E.
Qed.
End line.

Lemma good_toks c : good_cmd c -> forall lvl, Forall good_tok (toks lvl c).
Proof.
  assert (Hif : forall (b : bool) ts, Forall good_tok ts -> Forall good_tok (if b then ts else paren ts)).
  { intros b ts Hts. destruct b; [done|]. constructor; [cbn; tauto|]. apply Forall_app. split; [done|]. constructor; [cbn; tauto|constructor]. }
  assert (Hs : forall m, In (redir_sym m) symbols) by (intros m; unfold redir_sym; destruct (_ =? _); cbn; tauto).
  induction c as [argv|c IH file m fd|l IHl r IHr|l IHl r IHr|c IH]; cbn [good_cmd]; intros Hc lvl; apply Hif.
  - destruct Hc as [Ha _]. induction Ha; constructor; auto.
  - destruct Hc as (Hc & Hf & _). apply Forall_app. split; [auto|]. constructor; [apply Hs|]. constructor; [exact Hf|constructor].
  - destruct Hc as [Hl Hr]. apply Forall_app. split; [auto|]. constructor; [cbn; tauto|auto].
  - destruct Hc as [Hl Hr]. apply Forall_app. split; [auto|]. constructor; [cbn; tauto|auto].
  - apply Forall_app. split; [auto|]. constructor; [cbn; tauto|constructor].
Qed.
Lemma text_nonzero ts : Forall good_tok ts -> Forall (fun c => c <> 0) (text_of ts).
Proof.
  induction 1 as [|t ts Ht Hts IH]; cbn; [constructor|]. rewrite <-app_assoc. apply Forall_app. split; [|by constructor].
  destruct t as [w|c]; cbn in *.
  - destruct Ht as [_ Hw]. eapply Forall_impl; [exact Hw|]. by intros c [_ ?].
  - constructor; [|constructor]. decompose [or] Ht; by subst.
Qed.

(** C26. Printing and parsing: every command (simple commands of up to nine
    words, redirections, pipes, lists, background, nested as one likes) has a
    line, with parentheses where the grammar needs them, which the parser reads
    back as exactly that command. *)
Theorem parsecmd_print c : good_cmd c ->
  exists c' buf ps, parsecmd (print c) = Ok (c', buf) ps /\ cmd_map (string_at buf) c' = c.
Proof.
  intros Hc. set (line := print c). assert (Hg := good_toks c Hc 0). assert (Hnz : Forall (fun c => c <> 0) line) by (by apply text_nonzero).
  assert (Hp : par (parsecmd_spans line) (fun c' _ => words_of line c' = c) 0%nat).
  { unfold parsecmd_spans. apply par_bind. destruct (all_ok line c Hc) as (_ & _ & _ & HL).
    eapply par_mono; [apply (HL (depth line) [] 0%nat); [by left|]|].
    { rewrite app_nil_r. split; [done|]. by exists []. }
    intros c' ps [Hstr Hat]. apply par_bind, (peek_at line ps []); [done|cbn; tauto|]. destruct (at_skip line ps [] Hat) as (_ & _ & _).
    destruct Hat as (_ & pre & Hl & ->). cbn in Hl. rewrite app_nil_r in Hl. unfold get, bind, par. unfold es. by rewrite <-Hl, Nat.eqb_refl. }
  pose proof (spans_tot line) as Ht. unfold par, tot, parsecmd in *. destruct (parsecmd_spans line 0%nat) as [c' ps| | |]; try done.
  destruct Ht as [_ Hw]. exists c', (nulterminate c' (line ++ [0])), ps. split; [done|]. by rewrite strings_words.
Qed.

(** [ls -l | ( grep x < in ; cat ) > out &] *)
Lemma parsecmd_print_witness :
  let c := BACK (PIPE (EXEC [str "ls"; str "-l"])
    (REDIR (LIST (REDIR (EXEC [str "grep"; str "x"]) (str "in") 0 0) (EXEC [str "cat"])) (str "out") 0x201 1)) in
  exists c' buf ps, parsecmd (print c) = Ok (c', buf) ps /\ cmd_map (string_at buf) c' = c.
Proof.
  intros c. apply (parsecmd_print c).
  assert (Hw : forall w, negb (bool_decide (w = [])) && forallb (fun c => word_chr c && negb (c =? 0)) w = true -> good_word w).
  { intros w [H1%negb_true_iff H2]%andb_true_iff. apply bool_decide_eq_false in H1. split; [done|]. apply Forall_forall. intros x Hx.
    apply list_elem_of_In in Hx. apply (proj1 (forallb_forall _ _) H2) in Hx. apply andb_true_iff in Hx as [? Hx]. split; [done|].
    by apply negb_true_iff, Z.eqb_neq in Hx. }
  unfold c. cbn [good_cmd]. repeat match goal with
    | |- good_word _ => apply Hw; vm_compute; reflexivity
    | |- _ /\ _ => split
    | |- Forall _ (_ :: _) => apply Forall_cons
    | |- Forall _ [] => constructor
    | |- (_ < _)%nat => cbn; unfold MAXARGS; lia
    | |- _ \/ _ => first [by left|by right]
    end.
Defined.
Lemma parsecmd_total_witness :
  match parsecmd (str "ls>out  ;wc<in|cat") with
  | Ok (c, buf) _ => cmd_map (string_at buf) c = LIST (REDIR (EXEC [str "ls"]) (str "out") 0x201 1)
      (PIPE (REDIR (EXEC [str "wc"]) (str "in") 0 0) (EXEC [str "cat"]))
  | _ => False
  end.
Proof.
  pose proof (parsecmd_total (str "ls>out  ;wc<in|cat") ltac:(repeat constructor; discriminate)) as H.
  destruct (parsecmd _) as [[c buf] ps| | |] eqn:E; [|vm_compute in E; discriminate..]. destruct H as [_ ->].
  vm_compute in E. injection E as <- <- <-. vm_compute. reflexivity.
Defined.
