(* ===== verification/ShRun.v ===== *)
(** * What the shell runs

    The plan of [runcmd] on a table of file descriptors, against a direct
    description of which program runs with which input and output. *)

From S2P Require Import Prelude Params Ulib Sh.

(** What a descriptor refers to: what was there before, a file, an end of a
    pipe. *)
Inductive obj := Given (n : Z) | File (file : list Z) (mode : Z) | RdEnd (id : Z) | WrEnd (id : Z).
Notation fds := (gmap Z obj).
(** The kernel hands out the lowest free descriptor ([fdalloc] of sysfile.c). *)
Fixpoint lowest (n : nat) (fd : Z) (t : fds) : Z :=
  match n with
  | O => -1
  | S n' => match t !! fd with None => fd | Some _ => lowest n' (fd + 1) t end
  end.
Definition newfd (t : fds) : Z := lowest (Z.to_nat NOFILE) 0 t.

(** The programs a plan executes, with their descriptors, when no system call
    fails; [id] numbers the pipes. *)
Fixpoint run (p : plan) (t : fds) (id : Z) : list (list (list Z) * fds) * Z :=
  match p with
  | Exit => ([], id)
  | Exec argv _ => ([(argv, t)], id)
  | Close fd k => run k (delete fd t) id
  | Open file mode k => let fd := newfd t in run (k fd) (<[fd := File file mode]> t) id
  | Dup fd k => run k (match t !! fd with Some o => <[newfd t := o]> t | None => t end) id
  | PipeCall k =>
      let p0 := newfd t in
      let t0 := <[p0 := RdEnd id]> t in
      let p1 := newfd t0 in
      run (k 0 p0 p1) (<[p1 := WrEnd id]> t0) (id + 1)
  | Fork k =>
      let '(l, id) := run (k 0) t id in
      let '(l', id) := run (k 1) t id in
      (l ++ l', id)
  | Wait k => run k t id
  | Chdir _ k => run (k 0) t id
  | Write _ _ k => run k t id
  end.

(** The meaning of a command: the programs, each with its descriptors 0, 1, 2. *)
Fixpoint wires (c : cmd (list Z)) (t : fds) (id : Z) : list (list (list Z) * fds) * Z :=
  match c with
  | EXEC [] => ([], id)
  | EXEC argv => ([(argv, t)], id)
  | REDIR c' file mode fd => wires c' (<[fd := File file mode]> t) id
  | LIST l r =>
      let '(a, id) := wires l t id in
      let '(b, id) := wires r t id in
      (a ++ b, id)
  | PIPE l r =>
      let '(a, id') := wires l (<[1 := WrEnd id]> t) (id + 1) in
      let '(b, id') := wires r (<[0 := RdEnd id]> t) id' in
      (a ++ b, id')
  | BACK c' => wires c' t id
  end.
(** Redirections are of standard input or output, as the parser makes them. *)
Fixpoint std_redirs (c : cmd (list Z)) : Prop :=
  match c with
  | EXEC _ => True
  | REDIR c' _ _ fd => std_redirs c' /\ (fd = 0 \/ fd = 1)
  | PIPE l r | LIST l r => std_redirs l /\ std_redirs r
  | BACK c' => std_redirs c'
  end.
(** Exactly the descriptors 0, 1 and 2 are open. *)
Definition std (t : fds) : Prop := forall n, is_Some (t !! n) <-> 0 <= n <= 2.

Lemma std_set t fd o : std t -> 0 <= fd <= 2 -> std (<[fd := o]> t).
Proof.
  intros Ht Hfd n. destruct (decide (n = fd)) as [->|].
  - rewrite lookup_insert_eq. split; [done|by eexists].
  - by rewrite lookup_insert_ne.
Qed.
Lemma std_lookup t n : std t -> ~ (0 <= n <= 2) -> t !! n = None.
Proof. intros Ht Hn. destruct (t !! n) eqn:E; [|done]. destruct Hn. apply Ht. by eexists. Qed.
Lemma lowest_hit n k t : (forall i, 0 <= i < k -> is_Some (t !! i)) -> t !! k = None -> forall fd, 0 <= fd <= k -> k < fd + Z.of_nat n ->
  lowest n fd t = k.
Proof.
  intros Hs Hk. induction n as [|n IH]; intros fd Hfd Hn; [lia|]. cbn. destruct (t !! fd) as [o|] eqn:E.
  - apply IH; [|lia]. destruct (decide (fd = k)) as [->|]; [congruence|lia].
  - destruct (decide (fd = k)); [done|]. destruct (Hs fd ltac:(lia)) as [o Ho]. congruence.
Qed.
Lemma newfd_is k t : (forall i, 0 <= i < k -> is_Some (t !! i)) -> t !! k = None -> 0 <= k < 16 -> newfd t = k.
Proof. intros. unfold newfd. apply lowest_hit; try done; [lia|]. change (Z.of_nat (Z.to_nat NOFILE)) with 16. lia. Qed.

(** C28. The shell connects programs as the command says: for every command,
    [runcmd] executes exactly the programs of its meaning, in order, each with
    standard input and output redirected or connected to the right end of the
    right pipe, and with no other descriptor (no end of a pipe) left open. *)
Theorem runcmd_wires c : std_redirs c -> forall t id, std t -> run (runcmd c) t id = wires c t id.
Proof.
  induction c as [[|a0 argv]|c IH file m fd|l IHl r IHr|l IHl r IHr|c IH]; cbn [std_redirs runcmd]; intros Hc t id Ht; [done|done|..].
  - destruct Hc as [Hc Hfd]. cbn [run wires].
    assert (E : newfd (delete fd t) = fd).
    { apply newfd_is; [|apply lookup_delete_eq|lia]. intros i Hi. rewrite lookup_delete_ne by lia. apply Ht. lia. }
    rewrite E, (proj2 (Z.ltb_ge fd 0)) by lia. rewrite insert_delete_eq. apply IH; [done|]. apply std_set; [done|lia].
  - destruct Hc as [Hl Hr].
    assert (E3 : newfd t = 3) by (apply newfd_is; [intros i Hi; apply Ht; lia|by apply std_lookup; [|lia]|lia]).
    cbn [run wires]. rewrite E3. set (t3 := <[3 := RdEnd id]> t).
    assert (E4 : newfd t3 = 4).
    { apply newfd_is; [|unfold t3; rewrite lookup_insert_ne by done; by apply std_lookup; [|lia]|lia].
      intros i Hi. unfold t3. destruct (decide (i = 3)) as [->|]; [rewrite lookup_insert_eq; by eexists|]. rewrite lookup_insert_ne by lia. apply Ht. lia. }
    rewrite E4. set (t4 := <[4 := WrEnd id]> t3). cbn [Z.ltb Z.compare]. unfold fork1. cbn [run Z.eqb Pos.eqb].
    assert (H3 : forall i, ~ (i = 3 \/ i = 4) -> t4 !! i = t !! i) by (intros i Hi; unfold t4, t3; by rewrite !lookup_insert_ne by lia).
    assert (E33 : t4 !! 3 = Some (RdEnd id)) by (unfold t4, t3; by rewrite lookup_insert_ne, lookup_insert_eq).
    assert (E44 : t4 !! 4 = Some (WrEnd id)) by (unfold t4; by rewrite lookup_insert_eq).
    assert (Hlow : forall fd, fd = 0 \/ fd = 1 -> newfd (delete fd t4) = fd).
    { intros fd Hfd. apply newfd_is; [|apply lookup_delete_eq|lia]. intros i Hi. rewrite lookup_delete_ne, H3 by lia. apply Ht. lia. }
    rewrite (lookup_delete_ne t4 1 4), (lookup_delete_ne t4 0 3), E33, E44, !Hlow by (done || lia).
    assert (Hend : forall fd o, fd = 0 \/ fd = 1 -> delete 4 (delete 3 (<[fd := o]> (delete fd t4))) = <[fd := o]> t).
    { intros fd o Hfd. rewrite insert_delete_eq. apply map_eq. intros i.
      destruct (decide (i = 4)) as [->|]; [rewrite lookup_delete_eq, lookup_insert_ne by lia; symmetry; by apply std_lookup; [|lia]|rewrite lookup_delete_ne by done].
      destruct (decide (i = 3)) as [->|]; [rewrite lookup_delete_eq, lookup_insert_ne by lia; symmetry; by apply std_lookup; [|lia]|rewrite lookup_delete_ne by done].
      destruct (decide (i = fd)) as [->|]; [by rewrite !lookup_insert_eq|]. rewrite !lookup_insert_ne by done. apply H3. lia. }
    rewrite !Hend by auto. rewrite IHl by (done || by apply std_set; [|lia]). destruct (wires l _ _) as [a id'].
    rewrite IHr by (done || by apply std_set; [|lia]). destruct (wires r _ _) as [b id'']. by rewrite app_nil_r.
  - destruct Hc as [Hl Hr]. unfold fork1. cbn [run Z.eqb Pos.eqb wires]. rewrite IHl by done. destruct (wires l t id) as [a id'].
    by rewrite IHr.
  - unfold fork1. cbn [run Z.eqb Pos.eqb wires]. rewrite IH by done. destruct (wires c t id) as [a id']. by rewrite app_nil_r.
Qed.

Definition console : fds := <[0 := Given 0]> (<[1 := Given 1]> (<[2 := Given 2]> ∅)).
Lemma console_std : std console.
Proof.
  intros n. unfold console. rewrite !lookup_insert_is_Some, lookup_empty. split; [|lia].
  intros H. destruct H as [|[_ H]]; [lia|]. destruct H as [|[_ H]]; [lia|]. destruct H as [|[_ H]]; [lia|]. by destruct H.
Qed.
(** [ls < in | wc > out] *)
Lemma runcmd_wires_witness :
  run (runcmd (PIPE (REDIR (EXEC [str "ls"]) (str "in") 0 0) (REDIR (EXEC [str "wc"]) (str "out") 0x201 1))) console 7 =
  ([([str "ls"], <[0 := File (str "in") 0]> (<[1 := WrEnd 7]> console));
    ([str "wc"], <[1 := File (str "out") 0x201]> (<[0 := RdEnd 7]> console))], 8).
Proof.
  rewrite runcmd_wires.
  - vm_compute. reflexivity.
  - cbn. lia.
  - apply console_std.
Defined.
