(* ===== verification/Syscall.v ===== *)
(** * syscall.c: system call arguments

    The arguments lie on the user stack; the kernel checks every address
    against the size of the process before using it. *)

From S2P Require Import Prelude Params Strings.

(** What the checks read of the current process: [proc->sz], [proc->tf->esp],
    [proc->tf->eax] and its memory. *)
Record uproc := mkup { u_sz : Z; u_esp : Z; u_eax : Z; u_mem : mem }.

Section arg.
Context (u : uproc).

(** The int at [addr]; [None] is the result -1. *)
Definition fetchint (addr : Z) : option Z :=
  if (u_sz u <=? addr) || (u_sz u <? u32 (addr + 4)) then None
  else Some (i32 (load32 (u_mem u) addr)).
(** The address of a string and its length. *)
Fixpoint scan_nul (n : nat) (s : Z) : option Z :=
  match n with
  | O => None
  | S n' => if u_mem u s =? 0 then Some s else scan_nul n' (s + 1)
  end.
Definition fetchstr (addr : Z) : option (Z * Z) :=
  if u_sz u <=? addr then None
  else match scan_nul (Z.to_nat (u_sz u - addr)) addr with
       | Some s => Some (addr, s - addr)
       | None => None
       end.
Definition argint (n : Z) : option Z := fetchint (u32 (u_esp u + 4 + 4 * n)).
Definition argptr (n size : Z) : option Z :=
  match argint n with
  | None => None
  | Some i => if (u_sz u <=? u32 i) || (u_sz u <? u32 (u32 i + size)) then None else Some (u32 i)
  end.
Definition argstr (n : Z) : option (Z * Z) :=
  match argint n with
  | None => None
  | Some addr => fetchstr (u32 addr)
  end.

Lemma scan_nul_spec n s e : scan_nul n s = Some e ->
  s <= e < s + Z.of_nat n /\ u_mem u e = 0 /\ forall x, s <= x < e -> u_mem u x <> 0.
Proof.
  revert s. induction n as [|n IH]; intros s; cbn [scan_nul]; [done|]. destruct (Z.eqb_spec (u_mem u s) 0).
  - intros [= <-]. split_and!; [lia|lia|done|lia].
  - intros H%IH. destruct H as (H1 & H2 & H3). split_and!; [lia|lia|done|]. intros x Hx.
    destruct (decide (x = s)) as [->|]; [done|]. apply H3. lia.
Qed.
Lemma scan_nul_none n s : scan_nul n s = None -> forall x, s <= x < s + Z.of_nat n -> u_mem u x <> 0.
Proof.
  revert s. induction n as [|n IH]; intros s; cbn [scan_nul]; [lia|]. destruct (Z.eqb_spec (u_mem u s) 0); [done|].
  intros H x Hx. destruct (decide (x = s)) as [->|]; [done|]. apply (IH _ H). lia.
Qed.

(** C18. No argument gives the kernel an address outside the process: an int and a
    block of memory (of non-negative size) lie below [proc->sz], a string has
    its NUL there and no other, and its length is returned; a string is refused
    only if its address is bad or it has no NUL in the process. *)
Theorem arg_safe n size : 0 <= u_sz u <= KERNBASE -> 0 <= u_esp u < 2 ^ 32 -> 0 <= size < 2 ^ 31 ->
  (forall v, argint n = Some v -> let a := u32 (u_esp u + 4 + 4 * n) in a + 4 <= u_sz u /\ v = i32 (load32 (u_mem u) a)) /\
  (forall p, argptr n size = Some p -> 0 <= p < u_sz u /\ p + size <= u_sz u) /\
  (forall p len, argstr n = Some (p, len) -> 0 <= p /\ 0 <= len /\ p + len < u_sz u /\ u_mem u (p + len) = 0 /\
     forall x, p <= x < p + len -> u_mem u x <> 0) /\
  (argstr n = None -> argint n = None \/ exists a, argint n = Some a /\ (u_sz u <= u32 a \/ forall x, u32 a <= x < u_sz u -> u_mem u x <> 0)).
Proof.
  change KERNBASE with 0x80000000. intros Hsz Hesp Hsize. split_and!.
  - intros v. unfold argint, fetchint. set (a := u32 (u_esp u + 4 + 4 * n)). pose proof (u32_range (u_esp u + 4 + 4 * n)) as Ha. fold a in Ha.
    destruct (Z.leb_spec (u_sz u) a); [done|]. rewrite u32_id by lia. destruct (Z.ltb_spec (u_sz u) (a + 4)); [done|]. by intros [= <-].
  - intros p. unfold argptr. destruct (argint n) as [i|]; [|done]. pose proof (u32_range i) as Hi.
    destruct (Z.leb_spec (u_sz u) (u32 i)); [done|]. rewrite (u32_id (u32 i + size)) by lia.
    destruct (Z.ltb_spec (u_sz u) (u32 i + size)); [done|]. intros [= <-]. lia.
  - intros p len. unfold argstr, fetchstr. destruct (argint n) as [i|]; [|done]. pose proof (u32_range i) as Hi.
    destruct (Z.leb_spec (u_sz u) (u32 i)); [done|]. destruct (scan_nul _ _) as [e|] eqn:E; [|done]. intros [= <- <-].
    apply scan_nul_spec in E as (H1 & H2 & H3). replace (u32 i + (e - u32 i)) with e by lia. split_and!; try lia; done.
  - unfold argstr, fetchstr. destruct (argint n) as [i|]; [|by left]. intros H. right. exists i. split; [done|].
    destruct (Z.leb_spec (u_sz u) (u32 i)); [by left|right]. intros x Hx. destruct (scan_nul _ _) eqn:E; [done|].
    apply (scan_nul_none _ _ E). lia.
Qed.
End arg.

Lemma arg_safe_witness : let u := mkup 4096 4000 5 (fun a => if a =? 4004 then 100 else 0) in
  argptr u 0 3 = Some 100 /\ 0 <= 100 < u_sz u /\ 100 + 3 <= u_sz u.
Proof.
  intros u. assert (E : argptr u 0 3 = Some 100) by (vm_compute; reflexivity). split; [exact E|].
  apply (proj1 (proj2 (arg_safe u 0 3 ltac:(done) ltac:(done) ltac:(done))) 100 E).
Defined.
