(* ===== verification/File.v ===== *)
(** * file.c and pipealloc: the table of open files

    The routines run over any implementation of the interface [FileApi]: the
    log, the inodes and the pipes. *)

From S2P Require Import Prelude Params Fs.

(** [enum { FD_NONE, FD_PIPE, FD_INODE }] *)
Inductive fdtype := FD_NONE | FD_PIPE | FD_INODE.
#[export] Instance fdtype_eq : EqDecision fdtype.
Proof. solve_decision. Defined.
(** [struct file] (file.h). *)
Record file := mkfile {
  f_type : fdtype;
  f_ref : Z;
  f_readable : bool;
  f_writable : bool;
  f_pipe : Z;
  f_ip : nat;
  f_off : Z
}.
Definition set_f_type v (s : file) := mkfile v (f_ref s) (f_readable s) (f_writable s) (f_pipe s) (f_ip s) (f_off s).
Definition set_f_ref v (s : file) := mkfile (f_type s) v (f_readable s) (f_writable s) (f_pipe s) (f_ip s) (f_off s).
Definition set_f_readable v (s : file) := mkfile (f_type s) (f_ref s) v (f_writable s) (f_pipe s) (f_ip s) (f_off s).
Definition set_f_writable v (s : file) := mkfile (f_type s) (f_ref s) (f_readable s) v (f_pipe s) (f_ip s) (f_off s).
Definition set_f_pipe v (s : file) := mkfile (f_type s) (f_ref s) (f_readable s) (f_writable s) v (f_ip s) (f_off s).
Definition set_f_ip v (s : file) := mkfile (f_type s) (f_ref s) (f_readable s) (f_writable s) (f_pipe s) v (f_off s).
Definition set_f_off v (s : file) := mkfile (f_type s) (f_ref s) (f_readable s) (f_writable s) (f_pipe s) (f_ip s) v.
Definition zero_file : file := mkfile FD_NONE 0 false false 0 0 0.
#[export] Instance file_inhabited : Inhabited file := populate zero_file.

(** ** The components below *)

Class FileApi (E : Type) := {
  (* log.c *)
  a_begin_op : M E unit;
  a_end_op : M E unit;
  (* fs.c; a NULL inode is [None] *)
  a_geti : nat -> M E inode;
  a_updi : nat -> (inode -> inode) -> M E unit;
  a_iput : nat -> M E unit;
  a_ilock : nat -> M E unit;
  a_iunlock : nat -> M E unit;
  a_iupdate : nat -> M E unit;
  a_ialloc : Z -> Z -> M E nat;
  a_stati : nat -> M E stat;
  a_readi : nat -> Z -> Z -> M E (Z * list Z);
  a_writei : nat -> list Z -> Z -> Z -> M E Z;
  a_dirlookup : nat -> list Z -> M E (option (nat * Z));
  a_dirlink : nat -> list Z -> Z -> M E Z;
  a_namei : nat -> list Z -> M E (option nat);
  a_nameiparent : nat -> list Z -> M E (option (nat * list Z));
  (* kalloc and the initialisation of a pipe: its address, or 0 *)
  a_pipenew : M E Z;
  (* pipe.c *)
  a_pipeclose : Z -> bool -> M E unit;
  a_piperead : Z -> Z -> M E (Z * list Z);
  a_pipewrite : Z -> list Z -> Z -> M E Z;
  (* kalloc and pipeclose do not sleep *)
  a_pipenew_awake : awake a_pipenew;
  a_pipeclose_awake p w : awake (a_pipeclose p w)
}.

Section file.
Context {E : Type} `{!FileApi E}.

(** [ftable] and the components below. *)
Record ftable := mkft { ft_lock : bool; files : list file; fenv : E }.
Definition set_ft_lock v (s : ftable) := mkft v (files s) (fenv s).
Definition set_files v (s : ftable) := mkft (ft_lock s) v (fenv s).
Definition set_fenv v (s : ftable) := mkft (ft_lock s) (files s) v.

Definition on_fenv {A} (m : M E A) : M ftable A := zoom fenv set_fenv m.
Definition getf (f : nat) : M ftable file := gets (fun s => files s !!! f).
Definition updf (f : nat) (g : file -> file) : M ftable unit := modify (fun s => set_files (alter g f (files s)) s).
Definition acquire : M ftable unit :=
  l <-- gets ft_lock ;; if (l : bool) then panic "acquire" else modify (set_ft_lock true).
Definition release : M ftable unit :=
  l <-- gets ft_lock ;; if (l : bool) then modify (set_ft_lock false) else panic "release".

Definition fileinit : M ftable unit := modify (set_ft_lock false).

Fixpoint find_free (l : list file) : option nat :=
  match l with
  | [] => None
  | f :: l' => if f_ref f =? 0 then Some O else option_map S (find_free l')
  end.
Definition filealloc : M ftable (option nat) :=
  acquire ;;;
  l <-- gets files ;;
  match find_free l with
  | Some f => updf f (set_f_ref 1) ;;; release ;;; ret (Some f)
  | None => release ;;; ret None
  end.

Definition filedup (f : nat) : M ftable nat :=
  acquire ;;;
  ff <-- getf f ;;
  if f_ref ff <? 1 then panic "filedup"
  else
    updf f (set_f_ref (f_ref ff + 1)) ;;;
    release ;;;
    ret f.

(** What [fileclose] does for the last reference, given the copy [ff]. *)
Definition close_last (ff : file) : M ftable unit :=
  match f_type ff with
  | FD_PIPE => on_fenv (a_pipeclose (f_pipe ff) (f_writable ff))
  | FD_INODE =>
      on_fenv a_begin_op ;;;
      on_fenv (a_iput (f_ip ff)) ;;;
      on_fenv a_end_op
  | FD_NONE => ret tt
  end.
Definition fileclose (f : nat) : M ftable unit :=
  acquire ;;;
  ff <-- getf f ;;
  if f_ref ff <? 1 then panic "fileclose"
  else
    updf f (set_f_ref (f_ref ff - 1)) ;;;
    if 0 <? f_ref ff - 1 then release
    else
      ff <-- getf f ;;
      updf f (set_f_ref 0) ;;;
      updf f (set_f_type FD_NONE) ;;;
      release ;;;
      close_last ff.

(** [None] is the result -1. *)
Definition filestat (f : nat) : M ftable (option stat) :=
  ff <-- getf f ;;
  match f_type ff with
  | FD_INODE =>
      on_fenv (a_ilock (f_ip ff)) ;;;
      st <-- on_fenv (a_stati (f_ip ff)) ;;
      on_fenv (a_iunlock (f_ip ff)) ;;;
      ret (Some st)
  | _ => ret None
  end.

(** The result and the bytes read. *)
Definition fileread (f : nat) (n : Z) : M ftable (Z * list Z) :=
  ff <-- getf f ;;
  if negb (f_readable ff) then ret (-1, [])
  else match f_type ff with
  | FD_PIPE => on_fenv (a_piperead (f_pipe ff) n)
  | FD_INODE =>
      on_fenv (a_ilock (f_ip ff)) ;;;
      ff <-- getf f ;;
      rb <-- on_fenv (a_readi (f_ip ff) (f_off ff) (u32 n)) ;;
      let r := i32 (fst rb) in
      (if 0 <? r then updf f (fun x => set_f_off (u32 (f_off x + r)) x) else ret tt) ;;;
      on_fenv (a_iunlock (f_ip ff)) ;;;
      ret (r, snd rb)
  | FD_NONE => panic "fileread"
  end.

(** [((LOGSIZE-1-1-2) / 2) * 512] *)
Definition write_max : Z := (LOGSIZE - 1 - 1 - 2) / 2 * 512.
(** One turn of the loop of [filewrite], at byte [i]. *)
Definition filewrite_step (f : nat) (addr : list Z) (n i : Z) : M ftable (Z + Z) :=
  if i <? n then
    let n1 := if write_max <? n - i then write_max else n - i in
    on_fenv a_begin_op ;;;
    ff <-- getf f ;;
    on_fenv (a_ilock (f_ip ff)) ;;;
    ff <-- getf f ;;
    r <-- on_fenv (a_writei (f_ip ff) (drop (Z.to_nat i) addr) (f_off ff) n1) ;;
    (if 0 <? r then updf f (fun x => set_f_off (u32 (f_off x + r)) x) else ret tt) ;;;
    on_fenv (a_iunlock (f_ip ff)) ;;;
    on_fenv a_end_op ;;;
    if r <? 0 then ret (inr i)
    else if negb (r =? n1) then panic "short filewrite"
    else ret (inl (i + r))
  else ret (inr i).
Definition filewrite (f : nat) (addr : list Z) (n : Z) : M ftable Z :=
  ff <-- getf f ;;
  if negb (f_writable ff) then ret (-1)
  else match f_type ff with
  | FD_PIPE => on_fenv (a_pipewrite (f_pipe ff) addr n)
  | FD_INODE =>
      i <-- loop (S (Z.to_nat n)) (filewrite_step f addr n) 0 ;;
      ret (if i =? n then n else -1)
  | FD_NONE => panic "filewrite"
  end.

(** ** pipealloc (pipe.c) *)

Definition close_opt (o : option nat) : M ftable unit := match o with Some f => fileclose f | None => ret tt end.
Definition pipealloc : M ftable (option (nat * nat)) :=
  f0 <-- filealloc ;;
  f1 <-- (match f0 with Some _ => filealloc | None => ret None end) ;;
  match f0, f1 with
  | Some r, Some w =>
      p <-- on_fenv a_pipenew ;;
      if p =? 0 then fileclose r ;;; fileclose w ;;; ret None
      else
        updf r (fun x => set_f_pipe p (set_f_writable false (set_f_readable true (set_f_type FD_PIPE x)))) ;;;
        updf w (fun x => set_f_pipe p (set_f_writable true (set_f_readable false (set_f_type FD_PIPE x)))) ;;;
        ret (Some (r, w))
  | _, _ => close_opt f0 ;;; close_opt f1 ;;; ret None
  end.
End file.
Arguments ftable : clear implicits.
