(* ===== verification/Sysfile.v ===== *)
(** * sysfile.c: the system calls on files

    The state is the file table, the descriptors and directories of all
    processes, and the memory of the process that runs; [c] is its index. *)

From S2P Require Import Prelude Params Strings Fs File Syscall.

Section sysfile.
Context {E : Type} `{!FileApi E}.

Record sys := mksys {
  ft : ftable E;
  ofiles : list (list (option nat));
  cwds : list nat;
  user : uproc
}.
Definition set_ft v (s : sys) := mksys v (ofiles s) (cwds s) (user s).
Definition set_ofiles v (s : sys) := mksys (ft s) v (cwds s) (user s).
Definition set_cwds v (s : sys) := mksys (ft s) (ofiles s) v (user s).
Definition set_user v (s : sys) := mksys (ft s) (ofiles s) (cwds s) v.

Definition on_ft {A} (m : M (ftable E) A) : M sys A := zoom ft set_ft m.
Definition on_fs {A} (m : M E A) : M sys A := on_ft (on_fenv m).
(** [proc->ofile[fd]] *)
Definition get_ofile (c fd : nat) : M sys (option nat) := gets (fun s => (ofiles s !!! c) !!! fd).
Definition set_ofile (c fd : nat) (o : option nat) : M sys unit :=
  modify (fun s => set_ofiles (alter (fun l => <[fd := o]> l) c (ofiles s)) s).
Definition store_user (a : Z) (bs : list Z) : M sys unit :=
  modify (fun s => let u := user s in set_user (mkup (u_sz u) (u_esp u) (u_eax u) (store_bytes (u_mem u) a bs)) s).
(** The string argument [n]: its bytes. *)
Definition arg_string (n : Z) : M sys (option (list Z)) :=
  gets (fun s => match argstr (user s) n with
                 | Some (p, len) => Some (bytes_at (u_mem (user s)) p (Z.to_nat len))
                 | None => None
                 end).
Definition arg_int (n : Z) : M sys (option Z) := gets (fun s => argint (user s) n).
Definition arg_ptr (n size : Z) : M sys (option Z) := gets (fun s => argptr (user s) n size).
Definition cwd_of (c : nat) : M sys nat := gets (fun s => cwds s !!! c).
Definition iunlockput (i : nat) : M sys unit := on_fs (a_iunlock i) ;;; on_fs (a_iput i).

(** The descriptor and the file of argument [n]. *)
Definition argfd (c : nat) (n : Z) : M sys (option (nat * nat)) :=
  a <-- arg_int n ;;
  match a with
  | None => ret None
  | Some fd =>
      if (fd <? 0) || (NOFILE <=? fd) then ret None
      else
        o <-- get_ofile c (Z.to_nat fd) ;;
        ret (match o with Some f => Some (Z.to_nat fd, f) | None => None end)
  end.
Fixpoint find_fd (l : list (option nat)) : option nat :=
  match l with
  | [] => None
  | None :: _ => Some O
  | Some _ :: l' => option_map S (find_fd l')
  end.
Definition fdalloc (c f : nat) : M sys (option nat) :=
  l <-- gets (fun s => ofiles s !!! c) ;;
  match find_fd l with
  | Some fd => set_ofile c fd (Some f) ;;; ret (Some fd)
  | None => ret None
  end.

Definition sys_dup (c : nat) : M sys Z :=
  a <-- argfd c 0 ;;
  match a with
  | None => ret (-1)
  | Some (_, f) =>
      fd <-- fdalloc c f ;;
      match fd with
      | None => ret (-1)
      | Some fd => on_ft (filedup f) ;;; ret (Z.of_nat fd)
      end
  end.
Definition sys_read (c : nat) : M sys Z :=
  a <-- argfd c 0 ;;
  n <-- arg_int 2 ;;
  match a, n with
  | Some (_, f), Some n =>
      p <-- arg_ptr 1 n ;;
      match p with
      | None => ret (-1)
      | Some p =>
          rb <-- on_ft (fileread f n) ;;
          store_user p (snd rb) ;;;
          ret (fst rb)
      end
  | _, _ => ret (-1)
  end.
Definition sys_write (c : nat) : M sys Z :=
  a <-- argfd c 0 ;;
  n <-- arg_int 2 ;;
  match a, n with
  | Some (_, f), Some n =>
      p <-- arg_ptr 1 n ;;
      match p with
      | None => ret (-1)
      | Some p =>
          s <-- get ;;
          on_ft (filewrite f (bytes_at (u_mem (user s)) p (Z.to_nat n)) n)
      end
  | _, _ => ret (-1)
  end.
Definition sys_close (c : nat) : M sys Z :=
  a <-- argfd c 0 ;;
  match a with
  | None => ret (-1)
  | Some (fd, f) =>
      set_ofile c fd None ;;;
      on_ft (fileclose f) ;;;
      ret 0
  end.
(** [struct stat] in its 20 bytes (type, dev, ino, nlink, size). *)
Definition encode_stat (st : stat) : list Z :=
  le_bytes 2 (st_type st) ++ [0; 0] ++ le_bytes 4 (st_dev st) ++ le_bytes 4 (st_ino st) ++
  le_bytes 2 (st_nlink st) ++ [0; 0] ++ le_bytes 4 (st_size st).
Definition sys_fstat (c : nat) : M sys Z :=
  a <-- argfd c 0 ;;
  p <-- arg_ptr 1 20 ;;
  match a, p with
  | Some (_, f), Some p =>
      st <-- on_ft (filestat f) ;;
      match st with
      | Some st => store_user p (encode_stat st) ;;; ret 0
      | None => ret (-1)
      end
  | _, _ => ret (-1)
  end.

(** ** Directories *)

Definition set_nlink (f : Z -> Z) (ip : inode) : inode :=
  mkinode (i_dev ip) (i_inum ip) (i_ref ip) (i_flags ip) (i_type ip) (i_major ip) (i_minor ip) (i16 (f (i_nlink ip))) (i_size ip) (i_addrs ip).
Definition set_new (major minor : Z) (ip : inode) : inode :=
  mkinode (i_dev ip) (i_inum ip) (i_ref ip) (i_flags ip) (i_type ip) (i16 major) (i16 minor) 1 (i_size ip) (i_addrs ip).

(** [bad:] of [sys_link]. *)
Definition link_undo (ip : nat) : M sys Z :=
  on_fs (a_ilock ip) ;;;
  on_fs (a_updi ip (set_nlink (fun n => n - 1))) ;;;
  on_fs (a_iupdate ip) ;;;
  iunlockput ip ;;;
  on_fs a_end_op ;;;
  ret (-1).
Definition sys_link (c : nat) : M sys Z :=
  old <-- arg_string 0 ;;
  new <-- arg_string 1 ;;
  match old, new with
  | Some old, Some new =>
      on_fs a_begin_op ;;;
      cwd <-- cwd_of c ;;
      ip <-- on_fs (a_namei cwd old) ;;
      match ip with
      | None => on_fs a_end_op ;;; ret (-1)
      | Some ip =>
          on_fs (a_ilock ip) ;;;
          i <-- on_fs (a_geti ip) ;;
          if i_type i =? T_DIR then iunlockput ip ;;; on_fs a_end_op ;;; ret (-1)
          else
            on_fs (a_updi ip (set_nlink (fun n => n + 1))) ;;;
            on_fs (a_iupdate ip) ;;;
            on_fs (a_iunlock ip) ;;;
            dp <-- on_fs (a_nameiparent cwd new) ;;
            match dp with
            | None => link_undo ip
            | Some (dp, name) =>
                on_fs (a_ilock dp) ;;;
                d <-- on_fs (a_geti dp) ;;
                i <-- on_fs (a_geti ip) ;;
                r <-- (if negb (i_dev d =? i_dev i) then ret (-1) else on_fs (a_dirlink dp name (i_inum i))) ;;
                if r <? 0 then iunlockput dp ;;; link_undo ip
                else
                  iunlockput dp ;;;
                  on_fs (a_iput ip) ;;;
                  on_fs a_end_op ;;;
                  ret 0
            end
      end
  | _, _ => ret (-1)
  end.

(** The loop of [isdirempty], at [off]. *)
Definition isdirempty_step (dp : nat) (off : Z) : M sys (Z + bool) :=
  d <-- on_fs (a_geti dp) ;;
  if off <? i_size d then
    rb <-- on_fs (a_readi dp off sizeof_dirent) ;;
    if negb (fst rb =? sizeof_dirent) then panic "isdirempty: readi"
    else if negb (de_inum (decode_dirent (snd rb)) =? 0) then ret (inr false)
    else ret (inl (off + sizeof_dirent))
  else ret (inr true).
Definition isdirempty (dp : nat) : M sys bool :=
  d <-- on_fs (a_geti dp) ;;
  loop (S (Z.to_nat (i_size d))) (isdirempty_step dp) (2 * sizeof_dirent).

(** [bad:] of [sys_unlink]. *)
Definition unlink_bad (dp : nat) : M sys Z := iunlockput dp ;;; on_fs a_end_op ;;; ret (-1).
Definition sys_unlink (c : nat) : M sys Z :=
  path <-- arg_string 0 ;;
  match path with
  | None => ret (-1)
  | Some path =>
      on_fs a_begin_op ;;;
      cwd <-- cwd_of c ;;
      dp <-- on_fs (a_nameiparent cwd path) ;;
      match dp with
      | None => on_fs a_end_op ;;; ret (-1)
      | Some (dp, name) =>
          on_fs (a_ilock dp) ;;;
          if (namecmp name (str ".") =? 0) || (namecmp name (str "..") =? 0) then unlink_bad dp
          else
            r <-- on_fs (a_dirlookup dp name) ;;
            match r with
            | None => unlink_bad dp
            | Some (ip, off) =>
                on_fs (a_ilock ip) ;;;
                i <-- on_fs (a_geti ip) ;;
                if i_nlink i <? 1 then panic "unlink: nlink < 1"
                else
                  e <-- (if i_type i =? T_DIR then isdirempty ip else ret true) ;;
                  if negb e then iunlockput ip ;;; unlink_bad dp
                  else
                    w <-- on_fs (a_writei dp (replicate 16 0) off sizeof_dirent) ;;
                    if negb (w =? sizeof_dirent) then panic "unlink: writei"
                    else
                      i <-- on_fs (a_geti ip) ;;
                      (if i_type i =? T_DIR then
                         on_fs (a_updi dp (set_nlink (fun n => n - 1))) ;;; on_fs (a_iupdate dp)
                       else ret tt) ;;;
                      iunlockput dp ;;;
                      on_fs (a_updi ip (set_nlink (fun n => n - 1))) ;;;
                      on_fs (a_iupdate ip) ;;;
                      iunlockput ip ;;;
                      on_fs a_end_op ;;;
                      ret 0
            end
      end
  end.

(** The inode created, locked; [None] is the result 0. *)
Definition create (c : nat) (path : list Z) (type major minor : Z) : M sys (option nat) :=
  cwd <-- cwd_of c ;;
  dp <-- on_fs (a_nameiparent cwd path) ;;
  match dp with
  | None => ret None
  | Some (dp, name) =>
      on_fs (a_ilock dp) ;;;
      r <-- on_fs (a_dirlookup dp name) ;;
      match r with
      | Some (ip, _) =>
          iunlockput dp ;;;
          on_fs (a_ilock ip) ;;;
          i <-- on_fs (a_geti ip) ;;
          if (type =? T_FILE) && (i_type i =? T_FILE) then ret (Some ip)
          else iunlockput ip ;;; ret None
      | None =>
          d <-- on_fs (a_geti dp) ;;
          ip <-- on_fs (a_ialloc (i_dev d) type) ;;
          on_fs (a_ilock ip) ;;;
          on_fs (a_updi ip (set_new major minor)) ;;;
          on_fs (a_iupdate ip) ;;;
          (if type =? T_DIR then
             on_fs (a_updi dp (set_nlink (fun n => n + 1))) ;;;
             on_fs (a_iupdate dp) ;;;
             i <-- on_fs (a_geti ip) ;;
             r1 <-- on_fs (a_dirlink ip (str ".") (i_inum i)) ;;
             d <-- on_fs (a_geti dp) ;;
             r2 <-- (if r1 <? 0 then ret (-1) else on_fs (a_dirlink ip (str "..") (i_inum d))) ;;
             if r2 <? 0 then panic "create dots" else ret tt
           else ret tt) ;;;
          i <-- on_fs (a_geti ip) ;;
          r <-- on_fs (a_dirlink dp name (i_inum i)) ;;
          if r <? 0 then panic "create: dirlink"
          else
            iunlockput dp ;;;
            ret (Some ip)
      end
  end.

(** The first half of [sys_open]: the inode opened, locked, inside a
    transaction. *)
Definition open_inode (c : nat) (path : list Z) (omode : Z) : M sys (option nat) :=
  if has omode O_CREATE then
    ip <-- create c path T_FILE 0 0 ;;
    match ip with
    | None => on_fs a_end_op ;;; ret None
    | Some ip => ret (Some ip)
    end
  else
    cwd <-- cwd_of c ;;
    ip <-- on_fs (a_namei cwd path) ;;
    match ip with
    | None => on_fs a_end_op ;;; ret None
    | Some ip =>
        on_fs (a_ilock ip) ;;;
        i <-- on_fs (a_geti ip) ;;
        if (i_type i =? T_DIR) && negb (omode =? O_RDONLY) then
          iunlockput ip ;;; on_fs a_end_op ;;; ret None
        else ret (Some ip)
    end.
Definition open_file (ip : nat) (omode : Z) (f : file) : file :=
  mkfile FD_INODE (f_ref f) (negb (has omode O_WRONLY)) (has omode O_WRONLY || has omode O_RDWR) (f_pipe f) ip 0.
Definition sys_open (c : nat) : M sys Z :=
  path <-- arg_string 0 ;;
  omode <-- arg_int 1 ;;
  match path, omode with
  | Some path, Some omode =>
      on_fs a_begin_op ;;;
      ip <-- open_inode c path omode ;;
      match ip with
      | None => ret (-1)
      | Some ip =>
          f <-- on_ft filealloc ;;
          fd <-- (match f with Some f => fdalloc c f | None => ret None end) ;;
          match f, fd with
          | Some f, Some fd =>
              on_fs (a_iunlock ip) ;;;
              on_fs a_end_op ;;;
              on_ft (updf f (open_file ip omode)) ;;;
              ret (Z.of_nat fd)
          | _, _ =>
              on_ft (close_opt f) ;;;
              iunlockput ip ;;;
              on_fs a_end_op ;;;
              ret (-1)
          end
      end
  | _, _ => ret (-1)
  end.

(** The common tail of [sys_mkdir] and [sys_mknod]. *)
Definition put_created (ip : option nat) : M sys Z :=
  match ip with
  | None => on_fs a_end_op ;;; ret (-1)
  | Some ip => iunlockput ip ;;; on_fs a_end_op ;;; ret 0
  end.
Definition sys_mkdir (c : nat) : M sys Z :=
  on_fs a_begin_op ;;;
  path <-- arg_string 0 ;;
  ip <-- (match path with Some path => create c path T_DIR 0 0 | None => ret None end) ;;
  put_created ip.
Definition sys_mknod (c : nat) : M sys Z :=
  on_fs a_begin_op ;;;
  path <-- arg_string 0 ;;
  major <-- arg_int 1 ;;
  minor <-- arg_int 2 ;;
  ip <-- (match path, major, minor with
          | Some path, Some major, Some minor => create c path T_DEV (i16 major) (i16 minor)
          | _, _, _ => ret None
          end) ;;
  put_created ip.
Definition sys_chdir (c : nat) : M sys Z :=
  on_fs a_begin_op ;;;
  path <-- arg_string 0 ;;
  cwd <-- cwd_of c ;;
  ip <-- (match path with Some path => on_fs (a_namei cwd path) | None => ret None end) ;;
  match ip with
  | None => on_fs a_end_op ;;; ret (-1)
  | Some ip =>
      on_fs (a_ilock ip) ;;;
      i <-- on_fs (a_geti ip) ;;
      if negb (i_type i =? T_DIR) then iunlockput ip ;;; on_fs a_end_op ;;; ret (-1)
      else
        on_fs (a_iunlock ip) ;;;
        cwd <-- cwd_of c ;;
        on_fs (a_iput cwd) ;;;
        on_fs a_end_op ;;;
        modify (fun s => set_cwds (<[c := ip]> (cwds s)) s) ;;;
        ret 0
  end.

(** ** exec and pipe *)

(** The loop of [sys_exec] at argument [i], with [n] entries of [argv] left. *)
Fixpoint fetch_argv (u : uproc) (n : nat) (uargv i : Z) : option (list (list Z)) :=
  match n with
  | O => None
  | S n' =>
      match fetchint u (u32 (uargv + 4 * i)) with
      | None => None
      | Some uarg =>
          if uarg =? 0 then Some []
          else match fetchstr u (u32 uarg), fetch_argv u n' uargv (i + 1) with
               | Some (p, len), Some l => Some (bytes_at (u_mem u) p (Z.to_nat len) :: l)
               | _, _ => None
               end
      end
  end.
Definition sys_exec (exec : list Z -> list (list Z) -> M sys Z) : M sys Z :=
  path <-- arg_string 0 ;;
  uargv <-- arg_int 1 ;;
  match path, uargv with
  | Some path, Some uargv =>
      s <-- get ;;
      match fetch_argv (user s) (Z.to_nat MAXARG) (u32 uargv) 0 with
      | Some argv => exec path argv
      | None => ret (-1)
      end
  | _, _ => ret (-1)
  end.

Definition sys_pipe (c : nat) : M sys Z :=
  p <-- arg_ptr 0 8 ;;
  match p with
  | None => ret (-1)
  | Some p =>
      r <-- on_ft pipealloc ;;
      match r with
      | None => ret (-1)
      | Some (rf, wf) =>
          fd0 <-- fdalloc c rf ;;
          fd1 <-- (match fd0 with Some _ => fdalloc c wf | None => ret None end) ;;
          match fd0, fd1 with
          | Some fd0, Some fd1 =>
              store_user p (le_bytes 4 (Z.of_nat fd0)) ;;;
              store_user (p + 4) (le_bytes 4 (Z.of_nat fd1)) ;;;
              ret 0
          | _, _ =>
              (match fd0 with Some fd0 => set_ofile c fd0 None | None => ret tt end) ;;;
              on_ft (fileclose rf) ;;;
              on_ft (fileclose wf) ;;;
              ret (-1)
          end
      end
  end.

(** ** The descriptors in fork and exit (proc.c) *)

Definition fork_file (c np fd : nat) : M sys unit :=
  o <-- get_ofile c fd ;;
  match o with
  | Some f => f' <-- on_ft (filedup f) ;; set_ofile np fd (Some f')
  | None => ret tt
  end.
Definition fork_files (c np : nat) : M sys unit := for_each (seq 0 (Z.to_nat NOFILE)) (fork_file c np).
Definition exit_file (c fd : nat) : M sys unit :=
  o <-- get_ofile c fd ;;
  match o with
  | Some f => on_ft (fileclose f) ;;; set_ofile c fd None
  | None => ret tt
  end.
Definition exit_files (c : nat) : M sys unit := for_each (seq 0 (Z.to_nat NOFILE)) (exit_file c).
End sysfile.
Arguments sys : clear implicits.
