(* ===== verification/SysfileInv.v ===== *)
(** * Reference counts of open files

    [f->ref] is the number of descriptors, over all processes, that name the
    file, wherever a system call returns or gives up the CPU.  A descriptor that
    [exit] is closing does not count any more while [fileclose] is asleep. *)

From stdpp Require Import relations.
From S2P Require Import Prelude Params Strings Fs File Syscall Sysfile.

(** ** Counting descriptors *)

Definition b2n (P : Prop) `{!Decision P} : nat := if decide P then 1 else 0.
Definition cnt (f : nat) (l : list (option nat)) : nat := length (filter (fun o => o = Some f) l).
Definition total (f : nat) (ls : list (list (option nat))) : nat := sum_list_with (cnt f) ls.

Lemma cnt_cons f o l : cnt f (o :: l) = (b2n (o = Some f) + cnt f l)%nat.
Proof. unfold cnt, b2n. rewrite filter_cons. by destruct (decide (o = Some f)). Qed.
Lemma cnt_insert f l fd o o' : l !! fd = Some o ->
  (cnt f (<[fd := o']> l) + b2n (o = Some f) = cnt f l + b2n (o' = Some f))%nat.
Proof.
  revert fd. induction l as [|x l IH]; intros [|fd] H; try done.
  - injection H as [= ->]. change (<[0%nat := o']> (o :: l)) with (o' :: l). rewrite !cnt_cons. lia.
  - change (<[S fd := o']> (x :: l)) with (x :: <[fd := o']> l). rewrite !cnt_cons. specialize (IH _ H). lia.
Qed.
Lemma total_alter f ls c l g : ls !! c = Some l ->
  (total f (alter g c ls) + cnt f l = total f ls + cnt f (g l))%nat.
Proof.
  revert c. induction ls as [|x ls IH]; intros [|c] H; try done.
  - injection H as [= ->]. cbn. lia.
  - specialize (IH _ H). unfold total in *. cbn in *. lia.
Qed.
Lemma cnt_pos f l fd : l !! fd = Some (Some f) -> (0 < cnt f l)%nat.
Proof. intros H. pose proof (cnt_insert f l fd _ None H) as E. unfold b2n in E. repeat case_decide; naive_solver lia. Qed.
Lemma total_pos f ls c l fd : ls !! c = Some l -> l !! fd = Some (Some f) -> (0 < total f ls)%nat.
Proof.
  intros Hc Hf%cnt_pos. revert c Hc. induction ls as [|x ls IH]; intros [|c] Hc; try done; unfold total in *; cbn.
  - injection Hc as [= ->]. lia.
  - specialize (IH _ Hc). lia.
Qed.
Lemma total_none f n m : total f (replicate n (replicate m None)) = O.
Proof.
  assert (H : cnt f (replicate m None) = O) by (induction m; [done|]; cbn [replicate]; rewrite cnt_cons; done).
  induction n; [done|]. unfold total in *. cbn. lia.
Qed.

Lemma total_set f ls c l fd o o' : ls !! c = Some l -> l !! fd = Some o ->
  (total f (alter (fun l => <[fd := o']> l) c ls) + b2n (o = Some f) = total f ls + b2n (o' = Some f))%nat.
Proof.
  intros Hc Hfd. pose proof (total_alter f ls c l (fun l => <[fd := o']> l) Hc). pose proof (cnt_insert f l fd o o' Hfd).
  cbv beta in *. lia.
Qed.
Lemma b2n_Some (f g : nat) : b2n (Some f = Some g) = b2n (g = f).
Proof. unfold b2n. repeat case_decide; congruence. Qed.

(** [ex !! c = Some fd]: process [c] is asleep in [exit], in the [fileclose] of
    its descriptor [fd].  The descriptors that count. *)
Definition mask (ex : gmap nat nat) (ls : list (list (option nat))) : list (list (option nat)) :=
  imap (fun c l => match ex !! c with Some fd => <[fd := None]> l | None => l end) ls.
Lemma mask_lookup ex ls c :
  mask ex ls !! c = (fun l => match ex !! c with Some fd => <[fd := None]> l | None => l end) <$> ls !! c.
Proof. unfold mask. by rewrite list_lookup_imap. Qed.
Lemma mask_at ex ls c l : ex !! c = None -> ls !! c = Some l -> mask ex ls !! c = Some l.
Proof. intros Hx Hc. by rewrite mask_lookup, Hc, Hx. Qed.
Lemma mask_alter ex g ls c : ex !! c = None -> mask ex (alter g c ls) = alter g c (mask ex ls).
Proof.
  intros Hx. apply list_eq. intros j. rewrite mask_lookup. destruct (decide (j = c)) as [->|Hn].
  - rewrite !list_lookup_alter_eq, mask_lookup, Hx. by destruct (ls !! c).
  - by rewrite !list_lookup_alter_ne, mask_lookup by done.
Qed.
Lemma mask_empty ls : mask ∅ ls = ls.
Proof. apply list_eq. intros j. rewrite mask_lookup, lookup_empty. by destruct (ls !! j). Qed.
(** A process falls asleep in [exit], and is woken. *)
Lemma mask_insert ex ls c fd : ex !! c = None ->
  mask (<[c := fd]> ex) ls = alter (fun l => <[fd := None]> l) c (mask ex ls).
Proof.
  intros Hx. apply list_eq. intros j. rewrite mask_lookup. destruct (decide (j = c)) as [->|Hn].
  - rewrite list_lookup_alter_eq, mask_lookup, lookup_insert_eq, Hx. by destruct (ls !! c).
  - by rewrite list_lookup_alter_ne, mask_lookup, lookup_insert_ne by done.
Qed.
Lemma mask_delete ex ls c fd : ex !! c = Some fd ->
  mask (delete c ex) (alter (fun l => <[fd := None]> l) c ls) = mask ex ls.
Proof.
  intros Hx. apply list_eq. intros j. rewrite !mask_lookup. destruct (decide (j = c)) as [->|Hn].
  - rewrite list_lookup_alter_eq, lookup_delete_eq, Hx. by destruct (ls !! c).
  - by rewrite list_lookup_alter_ne, lookup_delete_ne by done.
Qed.

Section inv.
Context {E : Type} `{!FileApi E} (ex : gmap nat nat).
Implicit Types (t : ftable E) (s : sys E) (r : nat -> nat).

(** ** The file table *)

(** The file table gives every file [f] the count [r f]. *)
Record ftok (r : nat -> nat) (t : ftable E) : Prop := {
  fk_lock : ft_lock t = false;
  fk_ref : forall f ff, files t !! f = Some ff -> f_ref ff = Z.of_nat (r f);
  fk_free : forall f ff, files t !! f = Some ff -> f_ref ff = 0 -> f_type ff = FD_NONE;
  fk_range : forall f, (0 < r f)%nat -> (f < length (files t))%nat
}.
Lemma ftok_ext r r' t : (forall f, r f = r' f) -> ftok r t -> ftok r' t.
Proof. intros H [H1 H2 H3 H4]. split; [done| |done|]; intros f; rewrite <- H; auto. Qed.
Lemma ftok_env r t e : ftok r t -> ftok r (set_fenv e t).
Proof. intros [? ? ? ?]. by split. Qed.

Definition bump (f : nat) r : nat -> nat := fun g => (r g + b2n (g = f))%nat.
Definition unbump (f : nat) r : nat -> nat := fun g => (r g - b2n (g = f))%nat.
Lemma unbump_bump f r g : unbump f (bump f r) g = r g.
Proof. unfold unbump, bump. lia. Qed.
Lemma b2n_ne (f g : nat) : g <> f -> b2n (g = f) = O.
Proof. intros. unfold b2n. by rewrite decide_False. Qed.
Lemma b2n_eq (f : nat) : b2n (f = f) = 1%nat.
Proof. unfold b2n. by rewrite decide_True. Qed.

(** One file's record changes, and its count from [r f] to [r' f]. *)
Lemma ftok_alter r r' t f g b :
  ftok r t -> (f < length (files t))%nat -> (forall h, h <> f -> r' h = r h) ->
  (forall x, files t !! f = Some x -> f_ref (g x) = Z.of_nat (r' f) /\ (f_ref (g x) = 0 -> f_type (g x) = FD_NONE)) ->
  b = false -> ftok r' (mkft b (alter g f (files t)) (fenv t)).
Proof.
  intros [H1 H2 H3 H4] Hf Hr Hg ->. split; cbn [ft_lock files]; [done| | |].
  1,2: intros h ff; destruct (decide (h = f)) as [->|Hn];
    [rewrite list_lookup_alter_eq; intros (x & Hx & ->)%fmap_Some; by apply Hg
    |rewrite list_lookup_alter_ne by done; rewrite ?Hr by done; eauto].
  intros h Hh. rewrite length_alter. destruct (decide (h = f)) as [->|Hn]; [done|]. apply H4. by rewrite <- Hr.
Qed.
Lemma getf_in t f : (f < length (files t))%nat -> files t !! f = Some (files t !!! f).
Proof. intros Hf. by apply list_lookup_lookup_total_lt. Qed.

Lemma find_free_spec l f : find_free l = Some f -> exists ff, l !! f = Some ff /\ f_ref ff = 0.
Proof.
  revert f. induction l as [|x l IH]; intros f; cbn; [done|]. destruct (Z.eqb_spec (f_ref x) 0).
  - intros [= <-]. by exists x.
  - destruct (find_free l) as [k|]; [|done]. intros [= <-]. by apply IH.
Qed.
Lemma find_free_none l : find_free l = None -> forall f ff, l !! f = Some ff -> f_ref ff <> 0.
Proof.
  induction l as [|x l IH]; cbn; [done|]. destruct (Z.eqb_spec (f_ref x) 0); [done|].
  destruct (find_free l); [done|]. intros _ [|f] ff Hf; [by injection Hf as [= <-]|]. by apply (IH eq_refl f).
Qed.

(** [filealloc] returns an unused file, or fails when there is none. *)
Lemma filealloc_wp r t : ftok r t ->
  wp filealloc (fun o t' =>
    match o with
    | Some f => r f = O /\ ftok (bump f r) t' /\ (exists ff, files t' !! f = Some ff /\ f_type ff = FD_NONE) /\
              forall g, g <> f -> files t' !! g = files t !! g
    | None => t' = t /\ forall f, (f < length (files t))%nat -> (0 < r f)%nat
    end) t.
Proof.
  intros Ht. pose proof Ht as [H1 H2 H3 H4]. destruct t as [k l e]. cbn [ft_lock files] in *. subst k.
  unfold filealloc, acquire, release, updf. wp_steps; try done. cbn [ft_lock files set_ft_lock] in *.
  destruct (find_free l) as [f|] eqn:Ef; wp_steps; try done; cbn [ft_lock files set_ft_lock set_files fenv] in *.
  - apply find_free_spec in Ef as (ff & Hff & H0). pose proof (H2 _ _ Hff) as Hr. split; [lia|]. split.
    + apply (ftok_alter r _ (mkft false l e)); cbn; [done|by eapply lookup_lt_Some| | |done].
      * intros h Hh. unfold bump. rewrite b2n_ne by done. lia.
      * intros x Hx. split; [|done]. unfold bump. rewrite b2n_eq. lia.
    + split; [|intros g Hg; by rewrite list_lookup_alter_ne].
      exists (set_f_ref 1 ff). rewrite list_lookup_alter_eq, Hff. split; [done|]. by apply (H3 _ _ Hff).
  - split; [done|]. intros f Hf. destruct (lookup_lt_is_Some_2 _ _ Hf) as [ff Hff].
    pose proof (find_free_none _ Ef _ _ Hff). rewrite (H2 _ _ Hff) in *. lia.
Qed.
Lemma filedup_wp r t f : ftok r t -> (0 < r f)%nat -> wp (filedup f) (fun f' t' => f' = f /\ ftok (bump f r) t') t.
Proof.
  intros Ht Hf. pose proof Ht as [H1 H2 H3 H4]. specialize (H4 _ Hf). pose proof (H2 _ _ (getf_in _ _ H4)) as Hr.
  destruct t as [k l e]. cbn [ft_lock files] in *. subst k. unfold filedup, acquire, release, updf, getf.
  wp_steps; try done; cbn [ft_lock files set_ft_lock set_files fenv] in *; [lia|]. split; [done|].
  apply (ftok_alter r _ (mkft false l e)); cbn; [done|done| | |done].
  - intros h Hh. unfold bump. rewrite b2n_ne by done. lia.
  - intros x Hx. unfold bump. rewrite b2n_eq. lia.
Qed.

(** [fileclose] on a referenced file drops its count, and then closes the copy
    [ff] it has made if that was the last reference. *)
Lemma fileclose_run r t f : ftok r t -> (0 < r f)%nat ->
  exists t', ftok (unbump f r) t' /\ (forall g, g <> f -> files t' !! g = files t !! g) /\
    exists ff, files t !! f = Some ff /\
    fileclose f t = (if (r f =? 1)%nat then close_last (set_f_ref 0 ff) else ret tt) t'.
Proof.
  intros Ht Hf. pose proof Ht as [H1 H2 H3 H4]. specialize (H4 _ Hf). pose proof (getf_in _ _ H4) as Hff.
  set (ff := files t !!! f) in *. pose proof (H2 _ _ Hff) as Hr.
  destruct t as [k l e]. cbn [ft_lock files] in *. subst k.
  assert (Hw : forall g, (forall x, l !! f = Some x -> f_ref (g x) = Z.of_nat (unbump f r f) /\ (f_ref (g x) = 0 -> f_type (g x) = FD_NONE)) ->
    ftok (unbump f r) (mkft false (alter g f l) e)).
  { intros g Hg. apply (ftok_alter r _ (mkft false l e)); cbn; [done|done| |done|done].
    intros h Hh. unfold unbump. rewrite b2n_ne by done. lia. }
  assert (Hu : unbump f r f = (r f - 1)%nat) by (unfold unbump; by rewrite b2n_eq).
  assert (Hlk : l !!! f = ff) by done.
  unfold fileclose, acquire, release, updf, getf, bind, gets, modify. cbn [ft_lock files set_ft_lock set_files fenv].
  rewrite Hlk, Hr. rewrite (proj2 (Z.ltb_ge _ 1)) by lia. destruct (Nat.eqb_spec (r f) 1) as [E1|E1].
  - rewrite E1. change (0 <? Z.of_nat 1 - 1) with false. cbn [ft_lock files set_ft_lock set_files fenv].
    rewrite !list_alter_alter_eq, list_lookup_total_alter_eq, Hlk by done.
    eexists. split; [|split; [|by exists ff]].
    + apply Hw. intros x Hx. cbn. rewrite Hu. split; [lia|done || lia].
    + intros g Hg. cbn. by rewrite list_lookup_alter_ne.
  - rewrite (proj2 (Z.ltb_lt 0 _)) by lia. cbn [ft_lock files set_ft_lock set_files fenv].
    eexists. split; [|split; [|by exists ff]].
    + apply Hw. intros x Hx. cbn. rewrite Hu. split; [lia|done || lia].
    + intros g Hg. cbn. by rewrite list_lookup_alter_ne.
Qed.
Lemma on_fenv_may {A} (m : M E A) r t (Q : A -> ftable E -> Prop) :
  ftok r t -> (forall a t', ftok r t' -> Q a t') -> may (on_fenv m) Q (ftok r) t.
Proof. intros Ht HQ. apply may_zoom; intros; [apply HQ|]; by apply ftok_env. Qed.
Lemma close_last_may ff r t : ftok r t -> may (close_last ff) (fun _ => ftok r) (ftok r) t.
Proof.
  intros Ht. unfold close_last. destruct (f_type ff); [done|by apply on_fenv_may|].
  apply may_bind, on_fenv_may; [done|]. intros _ t1 H1. apply may_bind, on_fenv_may; [done|]. intros _ t2 H2.
  by apply on_fenv_may.
Qed.
Lemma fileclose_may r t f : ftok r t -> (0 < r f)%nat ->
  may (fileclose f) (fun _ => ftok (unbump f r)) (ftok (unbump f r)) t.
Proof.
  intros Ht Hf. destruct (fileclose_run r t f Ht Hf) as (t' & Ht' & _ & ff & _ & E1). unfold may. rewrite E1.
  destruct (r f =? 1)%nat; [|done]. by apply close_last_may.
Qed.
(** A file that is no inode is closed without sleeping. *)
Lemma fileclose_awake r t f ff : ftok r t -> (0 < r f)%nat -> files t !! f = Some ff -> f_type ff <> FD_INODE ->
  may (fileclose f) (fun _ t' => ftok (unbump f r) t' /\ forall g, g <> f -> files t' !! g = files t !! g) (fun _ => False) t.
Proof.
  intros Ht Hf Hff Hn. destruct (fileclose_run r t f Ht Hf) as (t' & Ht' & Hg & ff' & Hff' & E1).
  assert (ff' = ff) as -> by congruence. unfold may at 1. rewrite E1.
  destruct (r f =? 1)%nat; [|done]. unfold close_last. cbn [f_type set_f_ref]. destruct (f_type ff); [done| |done].
  apply (may_zoom_awake fenv set_fenv); [apply a_pipeclose_awake|]. intros [] e. split; [by apply ftok_env|done].
Qed.
Lemma ftok_updf (g : file -> file) r t f : ftok r t -> (0 < r f)%nat -> (forall x, f_ref (g x) = f_ref x) ->
  ftok r (set_files (alter g f (files t)) t).
Proof.
  intros Ht Hf Hg. pose proof Ht as [H1 H2 H3 H4]. destruct t as [k l e]. apply (ftok_alter r r (mkft k l e)); auto.
  intros x Hx. rewrite Hg. rewrite (H2 _ _ Hx). split; [done|]. lia.
Qed.

(** ** pipealloc *)

Definition is_pipe t (f : nat) : Prop := exists x, files t !! f = Some x /\ f_type x = FD_PIPE.
(** Both ends are closed again. *)
Lemma close_both r t f g x y : ftok (bump g (bump f r)) t -> f <> g ->
  files t !! f = Some x -> f_type x <> FD_INODE -> files t !! g = Some y -> f_type y <> FD_INODE ->
  may (fileclose f) (fun _ => may (fileclose g) (fun _ => ftok r) (fun _ => False)) (fun _ => False) t.
Proof.
  intros Ht Hne Hx Hxt Hy Hyt. eapply may_mono; [eapply fileclose_awake; eauto| |done].
  { unfold bump. rewrite b2n_eq. lia. }
  intros [] t1 [H1 Hk]. rewrite <- (Hk g) in Hy by done. eapply may_mono; [eapply (fileclose_awake _ _ g); eauto| |done].
  { unfold unbump, bump. rewrite b2n_eq, (b2n_ne f g) by done. lia. }
  intros [] t2 [H2 _]. revert H2. apply ftok_ext. intros h. unfold unbump, bump. lia.
Qed.
Lemma pipealloc_may r t : ftok r t ->
  may pipealloc (fun o t' => match o with
                             | Some (f, g) => f <> g /\ is_pipe t' f /\ is_pipe t' g /\ ftok (bump g (bump f r)) t'
                             | None => ftok r t'
                             end) (fun _ => False) t.
Proof.
  intros Ht. unfold pipealloc. apply may_bind, may_wp. eapply wp_mono; [by apply filealloc_wp|].
  intros [f|] t1; [intros (Hf & H1 & (ff & Hff & Hn) & _)|intros [-> _]]; [|done]. apply may_bind, may_wp.
  assert (Hb : bump f r f = 1%nat) by (unfold bump; rewrite b2n_eq; lia).
  eapply wp_mono; [by apply filealloc_wp|]. intros [g|] t2.
  - intros (Hg & H2 & (gf & Hgf & Hgn) & Hk). assert (Hne : f <> g) by (intros ->; lia).
    rewrite <- (Hk f) in Hff by done.
    apply may_bind, may_zoom_awake; [apply a_pipenew_awake|]. intros p e. apply (ftok_env _ _ e) in H2.
    destruct (Z.eqb_spec p 0).
    + apply may_bind. eapply may_mono; [eapply (close_both r _ f g ff gf); [exact H2|done|exact Hff|congruence|exact Hgf|congruence]| |done].
      intros [] t3 H3. apply may_bind. eapply may_mono; [exact H3|by intros|done].
    + apply may_bind, may_modify, may_bind, may_modify, may_ret. split_and!; [done| | |].
      1,2: eexists; cbn [files set_files set_fenv]; rewrite ?list_lookup_alter_eq, ?(list_lookup_alter_ne _ _ g f), ?(list_lookup_alter_ne _ _ f g), ?list_lookup_alter_eq, ?Hff, ?Hgf by done; done.
      apply ftok_updf; [apply ftok_updf; [done| |done]| |done]; unfold bump; rewrite b2n_eq; lia.
  - intros [-> _]. unfold close_opt. apply may_bind. eapply may_mono; [eapply fileclose_awake; [exact H1|lia|exact Hff|congruence]| |done].
    intros [] t2 [H2 _]. apply may_bind, may_ret, may_ret. revert H2. apply ftok_ext, unbump_bump.
Qed.

(** ** System calls *)

(** Every descriptor counts but those that [exit] is closing, and [h f] references to [f] are held by the running
    call. *)
Record sinv (h : nat -> nat) (s : sys E) : Prop := {
  si_len : forall c l, ofiles s !! c = Some l -> length l = Z.to_nat NOFILE;
  si_ft : ftok (fun f => (total f (mask ex (ofiles s)) + h f)%nat) (ft s)
}.
Definition none : nat -> nat := fun _ => O.
Lemma sinv_ext h h' s : (forall f, h f = h' f) -> sinv h s -> sinv h' s.
Proof. intros Hh [H1 H2]. split; [done|]. revert H2. apply ftok_ext. intros f. by rewrite Hh. Qed.

Lemma stable_on_ft {A} (m : M (ftable E) A) : (forall r, stable (ftok r) m) -> stable (sinv none) (on_ft m).
Proof.
  intros Hm s [H1 H2]. specialize (Hm _ _ H2). unfold may, on_ft, zoom in *. destruct (m (ft s)); try done; by split.
Qed.
Lemma stable_on_fs {A} (m : M E A) : stable (sinv none) (on_fs m).
Proof. apply stable_on_ft. intros r t Ht. by apply on_fenv_may. Qed.
Lemma stable_user a bs : stable (sinv none) (store_user (E:=E) a bs).
Proof. intros s [H1 H2]. by split. Qed.
Lemma stable_cwds (f : list nat -> list nat) : stable (sinv none) (modify (fun s => set_cwds (f (cwds s)) s)).
Proof. intros s [H1 H2]. by split. Qed.
End inv.
#[export] Hint Resolve stable_on_fs stable_user stable_cwds : stable.

Section calls.
Context {E : Type} `{!FileApi E} (ex : gmap nat nat).
Implicit Types (t : ftable E) (s : sys E).

Lemma iunlockput_keeps i : stable (sinv (E:=E) ex none) (iunlockput i).
Proof. unfold iunlockput. stable. Qed.
#[local] Hint Resolve iunlockput_keeps : stable.
Lemma argfd_keeps c n : stable (sinv (E:=E) ex none) (argfd c n).
Proof. unfold argfd, arg_int, get_ofile. stable. Qed.
#[local] Hint Resolve argfd_keeps : stable.
Lemma link_keeps c : stable (sinv (E:=E) ex none) (sys_link c).
Proof. unfold sys_link, link_undo, arg_string, cwd_of. stable. Qed.
Lemma unlink_keeps c : stable (sinv (E:=E) ex none) (sys_unlink c).
Proof. unfold sys_unlink, unlink_bad, isdirempty, isdirempty_step, arg_string, cwd_of. stable. Qed.
Lemma create_keeps c path type major minor : stable (sinv (E:=E) ex none) (create c path type major minor).
Proof. unfold create, cwd_of. stable. Qed.
#[local] Hint Resolve create_keeps : stable.
Lemma mkdir_keeps c : stable (sinv (E:=E) ex none) (sys_mkdir c).
Proof. unfold sys_mkdir, put_created, arg_string. stable. Qed.
Lemma mknod_keeps c : stable (sinv (E:=E) ex none) (sys_mknod c).
Proof. unfold sys_mknod, put_created, arg_string, arg_int. stable. Qed.
Lemma chdir_keeps c : stable (sinv (E:=E) ex none) (sys_chdir c).
Proof. unfold sys_chdir, arg_string, cwd_of. stable. Qed.

(** Reading and writing change the offset only. *)
Lemma updf_same r f (g : file -> file) : (forall x, f_ref (g x) = f_ref x /\ f_type (g x) = f_type x) ->
  stable (ftok (E:=E) r) (updf f g).
Proof.
  intros Hg t [H1 H2 H3 H4]. split; cbn [ft_lock files updf modify set_files]; [done| | |].
  1,2: intros h ff; destruct (decide (h = f)) as [->|Hn];
    [rewrite list_lookup_alter_eq; intros (x & Hx & ->)%fmap_Some; destruct (Hg x) as [E1 E2]; rewrite ?E1, ?E2; eauto
    |rewrite list_lookup_alter_ne by done; eauto].
  intros h Hh. rewrite length_alter. auto.
Qed.
Lemma stable_on_fenv {A} (m : M E A) r : stable (ftok r) (on_fenv m).
Proof. intros t Ht. by apply on_fenv_may. Qed.
#[local] Hint Resolve stable_on_fenv : stable.
Lemma fileread_stable r f n : stable (ftok (E:=E) r) (fileread f n).
Proof. unfold fileread, getf. stable. by apply updf_same. Qed.
Lemma filewrite_stable r f addr n : stable (ftok (E:=E) r) (filewrite f addr n).
Proof. unfold filewrite, filewrite_step, getf. stable; by apply updf_same. Qed.
Lemma filestat_stable r f : stable (ftok (E:=E) r) (filestat f).
Proof. unfold filestat, getf. stable. Qed.
#[local] Hint Resolve fileread_stable filewrite_stable filestat_stable stable_on_ft : stable.
Lemma read_keeps c : stable (sinv (E:=E) ex none) (sys_read c).
Proof. unfold sys_read, arg_int, arg_ptr. stable. Qed.
Lemma write_keeps c : stable (sinv (E:=E) ex none) (sys_write c).
Proof. unfold sys_write, arg_int, arg_ptr. stable. Qed.
Lemma fstat_keeps c : stable (sinv (E:=E) ex none) (sys_fstat c).
Proof. unfold sys_fstat, arg_ptr. stable. Qed.

(** ** Calls that move references *)

Lemma get_ofile_Some (s : sys E) c fd f : (ofiles s !!! c) !!! fd = Some f ->
  exists l, ofiles s !! c = Some l /\ l !! fd = Some (Some f).
Proof.
  rewrite (list_lookup_total_alt (ofiles s)). destruct (ofiles s !! c) as [l|] eqn:Hl; cbn; [|by destruct fd].
  rewrite list_lookup_total_alt. destruct (l !! fd) as [o|] eqn:Ho; cbn; [|done]. intros ->. by exists l.
Qed.
Lemma argfd_wp s c n :
  wp (argfd c n) (fun o s' => s' = s /\ match o with
    | Some (fd, f) => exists l, ofiles s !! c = Some l /\ l !! fd = Some (Some f)
    | None => True
    end) s.
Proof.
  unfold argfd, arg_int, get_ofile. apply wp_bind, wp_gets. destruct (argint (user s) n) as [fd|]; [|by apply wp_ret].
  wp_steps; [done|]. split; [done|]. destruct ((ofiles s !!! c) !!! Z.to_nat fd) as [f|] eqn:Ef; [|done].
  by apply get_ofile_Some.
Qed.
Lemma find_fd_spec l fd : find_fd l = Some fd -> l !! fd = Some None.
Proof.
  revert fd. induction l as [|[f|] l IH]; intros fd; cbn; [done| |by intros [= <-]].
  destruct (find_fd l) as [k|]; [|done]. intros [= <-]. by apply IH.
Qed.
(** [fdalloc] puts the file in a free descriptor, or changes nothing. *)
Lemma fdalloc_wp s c f :
  wp (fdalloc c f) (fun o s' => match o with
    | Some fd => exists l, ofiles s !! c = Some l /\ l !! fd = Some None /\
                 s' = set_ofiles (alter (fun l => <[fd := Some f]> l) c (ofiles s)) s
    | None => s' = s
    end) s.
Proof.
  unfold fdalloc, set_ofile. apply wp_bind, wp_gets. destruct (find_fd (ofiles s !!! c)) as [fd|] eqn:Ef; wp_steps; [|done].
  apply find_fd_spec in Ef. rewrite list_lookup_total_alt in Ef. destruct (ofiles s !! c) as [l|] eqn:Hl; [|done].
  by exists l.
Qed.

(** A descriptor changes from [o] to [o'] and the file table follows. *)
Lemma sinv_set s h h' c l fd o o' t :
  sinv ex h s -> ex !! c = None -> ofiles s !! c = Some l -> l !! fd = Some o ->
  ftok (fun f => (total f (mask ex (ofiles s)) + b2n (o' = Some f) - b2n (o = Some f) + h' f)%nat) t ->
  sinv ex h' (set_ft t (set_ofiles (alter (fun l => <[fd := o']> l) c (ofiles s)) s)).
Proof.
  intros [H1 H2] Hx Hc Hfd Ht. split; cbn [ofiles ft set_ft set_ofiles].
  - intros c' l'. destruct (decide (c' = c)) as [->|Hn].
    + rewrite list_lookup_alter_eq, Hc. intros [= <-]. rewrite length_insert. eauto.
    + rewrite list_lookup_alter_ne by done. eauto.
  - revert Ht. apply ftok_ext. intros f. rewrite mask_alter by done.
    pose proof (total_set f _ _ _ _ _ o' (mask_at _ _ _ _ Hx Hc) Hfd). lia.
Qed.
Lemma live s h c l fd f : sinv ex h s -> ex !! c = None -> ofiles s !! c = Some l -> l !! fd = Some (Some f) ->
  (0 < total f (mask ex (ofiles s)) + h f)%nat.
Proof. intros _ Hx Hc Hfd. pose proof (total_pos _ _ _ _ _ (mask_at _ _ _ _ Hx Hc) Hfd). lia. Qed.

Lemma dup_keeps c : ex !! c = None -> stable (sinv (E:=E) ex none) (sys_dup c).
Proof.
  intros Hx s Hs. unfold sys_dup. apply may_bind, may_wp. eapply wp_mono; [apply argfd_wp|].
  intros [[fd f]|] s1 [-> H]; [destruct H as (l & Hc & Hfd)|done]. apply may_bind, may_wp.
  eapply wp_mono; [apply fdalloc_wp|]. intros [fd'|] s1; [intros (l' & Hc' & Hfd' & ->)|by intros ->].
  apply may_bind, may_wp, wp_zoom. eapply wp_mono; [apply (filedup_wp (fun f => (total f (mask ex (ofiles s)) + none f)%nat))|].
  - apply Hs.
  - exact (live _ none _ _ _ _ Hs Hx Hc Hfd).
  - intros f' t' [-> Ht']. apply may_ret. apply (sinv_set s none none c l' fd' None); [done..|].
    revert Ht'. apply ftok_ext. intros g. unfold bump, none. rewrite b2n_Some. unfold b2n at 3. rewrite decide_False by done. lia.
Qed.
Lemma close_keeps c : ex !! c = None -> stable (sinv (E:=E) ex none) (sys_close c).
Proof.
  intros Hx s Hs. unfold sys_close. apply may_bind, may_wp. eapply wp_mono; [apply argfd_wp|].
  intros [[fd f]|] s1 [-> H]; [destruct H as (l & Hc & Hfd)|done]. apply may_bind, may_modify, may_bind.
  assert (Hk : forall t', ftok (unbump f (fun f => (total f (mask ex (ofiles s)) + none f)%nat)) t' ->
    sinv ex none (set_ft t' (set_ofiles (alter (fun l => <[fd := None]> l) c (ofiles s)) s))).
  { intros t' Ht'. apply (sinv_set s none none c l fd (Some f)); [done..|].
    revert Ht'. apply ftok_ext. intros g. unfold unbump, none. rewrite b2n_Some. unfold b2n at 2. rewrite decide_False by done. lia. }
  pose proof (fileclose_may _ _ f (si_ft _ _ _ Hs) (live _ _ _ _ _ _ Hs Hx Hc Hfd)) as Hf.
  unfold may, on_ft, zoom in *. cbn [ft set_ofiles]. destruct (fileclose f (ft s)); try done; by apply Hk.
Qed.

Lemma may_on_ft {A} (m : M (ftable E) A) (Q : A -> sys E -> Prop) R s :
  may m (fun a t => Q a (set_ft t s)) (fun t => R (set_ft t s)) (ft s) -> may (on_ft m) Q R s.
Proof. unfold may, on_ft, zoom. by destruct (m (ft s)). Qed.
Lemma on_fs_may {A} (m : M E A) (Q : A -> sys E -> Prop) h s :
  sinv ex h s -> (forall a s', sinv ex h s' -> ofiles s' = ofiles s -> Q a s') -> may (on_fs m) Q (sinv ex h) s.
Proof.
  intros [H1 H2] HQ. apply may_on_ft. eapply may_mono; [eapply (on_fenv_may m _ _ _ H2); intros a t Ht; exact Ht| |].
  - intros a t Ht. by apply HQ.
  - intros t Ht. by split.
Qed.
Lemma sinv_set_ft h h' s t : sinv ex h s -> ftok (fun f => (total f (mask ex (ofiles s)) + h' f)%nat) t -> sinv ex h' (set_ft t s).
Proof. intros [H1 _] Ht. by split. Qed.
(** One reference to [f]. *)
Definition one (f : nat) : nat -> nat := fun g => b2n (g = f).

(** [fdalloc] turns a reference held into a descriptor. *)
Lemma fdalloc_held c f h s : ex !! c = None -> sinv ex (fun g => (h g + one f g)%nat) s ->
  wp (fdalloc c f) (fun o s' => match o with
    | Some fd => sinv ex h s' /\ exists l, ofiles s' !! c = Some l /\ l !! fd = Some (Some f)
    | None => s' = s
    end) s.
Proof.
  intros Hx Hs. eapply wp_mono; [apply fdalloc_wp|]. intros [fd|] s'; [|done]. intros (l & Hc & Hfd & ->). split.
  - destruct s as [t os cw u]. apply (sinv_set (mksys t os cw u) (fun g => (h g + one f g)%nat) h c l fd None (Some f) t); [done..|].
    generalize (si_ft _ _ _ Hs). apply ftok_ext. intros g. cbn [ofiles]. rewrite b2n_Some. unfold one.
    change (b2n (None = Some g)) with O. lia.
  - exists (<[fd := Some f]> l). cbn [ofiles set_ofiles]. rewrite list_lookup_alter_eq, Hc. split; [done|].
    apply list_lookup_insert_eq. by eapply lookup_lt_Some.
Qed.

Lemma open_inode_keeps c path omode : stable (sinv (E:=E) ex none) (open_inode c path omode).
Proof. unfold open_inode, cwd_of. stable. Qed.
Lemma give_up_keeps ip : stable (sinv (E:=E) ex none) (iunlockput ip ;;; on_fs a_end_op ;;; ret (-1)).
Proof. stable. Qed.
Lemma open_keeps c : ex !! c = None -> stable (sinv (E:=E) ex none) (sys_open c).
Proof.
  intros Hx s0 Hs0. unfold sys_open, arg_string, arg_int. apply may_bind, may_gets, may_bind, may_gets.
  destruct (match argstr _ _ with Some _ => _ | None => _ end) as [path|]; [|done].
  destruct (argint _ _) as [omode|]; [|done]. apply may_bind, on_fs_may; [done|]. intros _ s1 H1 _. apply may_bind.
  eapply may_mono; [by apply open_inode_keeps| |done]. intros [ip|] s Hs; [|done].
  apply may_bind, may_on_ft, may_wp. eapply wp_mono; [apply filealloc_wp, Hs|]. intros [f|] t.
  - intros (_ & Ht & (ff & Hff & Hn) & _). apply may_bind, may_wp.
    assert (H2 : sinv ex (fun g => (none g + one f g)%nat) (set_ft t s)).
    { eapply sinv_set_ft; [exact Hs|]. revert Ht. apply ftok_ext. intros g. unfold bump, one, none. lia. }
    eapply wp_mono; [by apply fdalloc_held|]. intros [fd|] s2.
    + intros [H3 (l & Hc & Hfd)]. apply may_bind, on_fs_may; [done|]. intros _ s3 H4 E4.
      apply may_bind, on_fs_may; [done|]. intros _ s4 H5 E5. apply may_bind, may_on_ft, may_modify, may_ret.
      eapply sinv_set_ft; [exact H5|]. apply ftok_updf; [apply H5| |done]. rewrite E5, E4.
      pose proof (total_pos _ _ _ _ _ (mask_at _ _ _ _ Hx Hc) Hfd). lia.
    + intros ->. apply may_bind, may_on_ft. eapply may_mono; [eapply fileclose_awake; [apply H2| |exact Hff|congruence]| |done].
      { unfold one. rewrite b2n_eq. lia. }
      intros [] t' [Ht' _]. apply give_up_keeps. eapply sinv_set_ft; [exact H2|]. revert Ht'. apply ftok_ext.
      intros g. unfold unbump, one, none. lia.
  - intros [-> _]. apply may_bind, may_ret, may_bind, may_on_ft, may_ret, give_up_keeps. by destruct s.
Qed.

Lemma pipe_keeps c : ex !! c = None -> stable (sinv (E:=E) ex none) (sys_pipe c).
Proof.
  intros Hxc s Hs. unfold sys_pipe, arg_ptr. apply may_bind, may_gets. destruct (argptr _ _ _) as [p|]; [|done].
  apply may_bind, may_on_ft. eapply may_mono; [apply pipealloc_may, Hs| |done].
  intros [[rf wf]|] t; [intros (Hne & (x & Hx & Hxt) & (y & Hy & Hyt) & Ht)|intros Ht; by eapply sinv_set_ft].
  assert (H1 : sinv ex (fun g => (one wf g + one rf g)%nat) (set_ft t s)).
  { eapply sinv_set_ft; [exact Hs|]. revert Ht. apply ftok_ext. intros g. unfold bump, one, none. lia. }
  assert (Hbad : forall s', ofiles s' = ofiles s -> ft s' = t ->
    may (on_ft (fileclose rf) ;;; on_ft (fileclose wf) ;;; ret (-1)) (fun _ => sinv ex none) (sinv ex none) s').
  { intros s' Eo Et. apply may_bind, may_on_ft. rewrite Et.
    eapply may_mono; [eapply (close_both _ _ rf wf x y); [exact Ht|done|done|congruence|done|congruence]| |done].
    intros [] t1 H2. apply may_bind, may_on_ft. eapply may_mono; [exact H2| |done]. intros [] t2 H3.
    apply may_ret. split; cbn [ofiles set_ft ft]; rewrite Eo; [apply Hs|done]. }
  apply may_bind, may_wp. eapply wp_mono; [apply wp_and; [by apply fdalloc_held|apply fdalloc_wp]|].
  intros [fd0|] s2; cbv beta.
  - intros [[H2 _] (l & Hc & Hfd & E2)]. apply may_bind, may_wp.
    eapply wp_mono; [apply (fdalloc_held c wf none); [done|by apply H2]|]. intros [fd1|] s3.
    + intros [H3 _]. apply may_bind. eapply may_mono; [by apply stable_user| |done]. intros [] s4 H4.
      apply may_bind. eapply may_mono; [by apply stable_user| |done]. done.
    + intros ->. apply may_bind, may_modify, Hbad; rewrite E2; [|done]. cbn [ofiles set_ofiles set_ft].
      rewrite list_alter_alter_eq. rewrite <- (list_alter_id id (ofiles s) c) at 2 by done. apply list_alter_ext; [|done].
      intros l' Hl'. cbn in Hc. rewrite Hc in Hl'. injection Hl' as [= <-]. cbn. rewrite list_insert_insert_eq. by apply list_insert_id.
  - intros [-> _]. apply may_bind, may_ret, may_bind, may_ret, Hbad; done.
Qed.

(** ** Processes *)

Definition no_files : list (option nat) := replicate (Z.to_nat NOFILE) None.
(** The first [i] descriptors of [l] copied. *)
Definition copied (l : list (option nat)) (i : nat) : list (option nat) := take i l ++ drop i no_files.
Lemma copied_step l i x : length l = Z.to_nat NOFILE -> l !! i = Some x ->
  copied l (S i) = <[i := x]> (copied l i) /\ copied l i !! i = Some None.
Proof.
  intros Hl Hx. pose proof (lookup_lt_Some _ _ _ Hx) as Hi. unfold copied, no_files.
  assert (Hn : length (take i l) = i) by (rewrite length_take; lia).
  rewrite (take_S_r _ _ _ Hx), !drop_replicate, <- (app_assoc (take i l)). cbn [app].
  replace (Z.to_nat NOFILE - i)%nat with (S (Z.to_nat NOFILE - S i)) by lia. cbn [replicate].
  rewrite insert_app_r_alt, lookup_app_r, Hn, Nat.sub_diag by lia. done.
Qed.
Lemma alter_insert_same {A} (g : A -> A) (ls : list A) c x : (c < length ls)%nat ->
  alter g c (<[c := x]> ls) = <[c := g x]> ls.
Proof.
  intros Hc. apply list_eq. intros j. destruct (decide (j = c)) as [->|Hn].
  - by rewrite list_lookup_alter_eq, !list_lookup_insert_eq.
  - by rewrite list_lookup_alter_ne, !list_lookup_insert_ne.
Qed.

(** [fork] gives the child the descriptors of its parent, each with a new
    reference. *)
Lemma fork_files_wp c np l s : sinv ex none s -> ex !! c = None -> ex !! np = None -> c <> np -> ofiles s !! c = Some l -> ofiles s !! np = Some no_files ->
  wp (fork_files (E:=E) c np) (fun _ s' => sinv ex none s' /\ ofiles s' = <[np := l]> (ofiles s)) s.
Proof.
  intros Hs Hx Hxn Hne Hc Hnp. pose proof (si_len _ _ _ Hs _ _ Hc) as Hl. unfold fork_files.
  eapply wp_mono; [apply (wp_for_seq (fork_file c np) (fun i s' => sinv ex none s' /\ ofiles s' = <[np := copied l i]> (ofiles s)))|].
  - intros i s1 Hi [H1 E1]. destruct (lookup_lt_is_Some_2 l i ltac:(lia)) as [o Ho].
    destruct (copied_step l i o Hl Ho) as [Hcs Hci].
    assert (Hc1 : ofiles s1 !! c = Some l) by (by rewrite E1, list_lookup_insert_ne).
    assert (Hnp1 : ofiles s1 !! np = Some (copied l i)) by (rewrite E1; apply list_lookup_insert_eq; by eapply lookup_lt_Some).
    unfold fork_file, get_ofile. apply wp_bind, wp_gets.
    rewrite (list_lookup_total_correct _ _ _ Hc1), (list_lookup_total_correct _ _ _ Ho). destruct o as [f|].
    + apply wp_bind, wp_zoom. eapply wp_mono; [apply (filedup_wp _ _ f (si_ft _ _ _ H1)); exact (live _ none _ _ _ _ H1 Hx Hc1 Ho)|].
      intros f' t [-> Ht]. apply wp_modify. split.
      * apply (sinv_set s1 none none np (copied l i) i None (Some f) t); [done..|]. revert Ht. apply ftok_ext. intros g.
        unfold bump, none. rewrite b2n_Some. change (b2n (None = Some g)) with O. lia.
      * cbn [ofiles set_ofiles set_ft]. rewrite E1, Hcs. apply (alter_insert_same (fun l => <[i := Some f]> l)). by eapply lookup_lt_Some.
    + apply wp_ret. split; [done|]. rewrite E1, Hcs. by rewrite (list_insert_id (copied l i)).
  - split; [done|]. symmetry. by apply list_insert_id.
  - intros [] s' [H1 E1]. split; [done|]. rewrite E1. unfold copied, no_files. rewrite take_ge, drop_ge, app_nil_r by (rewrite ?length_replicate; lia). done.
Qed.

(** The descriptor [fd] of [c] and its file lose a reference. *)
Lemma sinv_close s c l fd f t : sinv ex none s -> ex !! c = None -> ofiles s !! c = Some l -> l !! fd = Some (Some f) ->
  ftok (unbump f (fun f => (total f (mask ex (ofiles s)) + none f)%nat)) t ->
  ftok (fun g => (total g (alter (fun l => <[fd := None]> l) c (mask ex (ofiles s))) + none g)%nat) t.
Proof.
  intros Hs Hx Hc Hfd. apply ftok_ext. intros g.
  pose proof (total_set g _ _ _ _ _ None (mask_at _ _ _ _ Hx Hc) Hfd) as Ht. rewrite b2n_Some in Ht.
  change (b2n (None = Some g)) with O in Ht. unfold unbump, none. lia.
Qed.
(** [exit] closes descriptor [fd], or falls asleep closing it. *)
Lemma exit_file_may c fd s : sinv ex none s -> ex !! c = None ->
  may (exit_file c fd) (fun _ => sinv ex none) (sinv (<[c := fd]> ex) none) s.
Proof.
  intros Hs Hx. unfold exit_file, get_ofile. apply may_bind, may_gets.
  destruct ((ofiles s !!! c) !!! fd) as [f|] eqn:Ef; [|done]. apply get_ofile_Some in Ef as (l & Hc & Hfd).
  apply may_bind, may_on_ft.
  eapply may_mono; [apply (fileclose_may _ _ f (si_ft _ _ _ Hs)); exact (live _ none _ _ _ _ Hs Hx Hc Hfd)| |].
  - intros [] t Ht. apply may_modify. eapply (sinv_close s) in Ht; [|done..]. split.
    + intros c' l'. cbn [ofiles set_ofiles set_ft]. destruct (decide (c' = c)) as [->|Hn].
      * rewrite list_lookup_alter_eq, Hc. intros [= <-]. rewrite length_insert. by eapply (si_len _ _ _ Hs).
      * rewrite list_lookup_alter_ne by done. apply (si_len _ _ _ Hs).
    + cbn [ofiles ft set_ofiles set_ft]. by rewrite mask_alter.
  - intros t Ht. eapply (sinv_close s) in Ht; [|done..]. split; [apply (si_len _ _ _ Hs)|].
    cbn [ofiles ft set_ft]. by rewrite mask_insert.
Qed.

(** ** The system *)

Inductive call := CDup | CRead | CWrite | CClose | CFstat | CLink | CUnlink | COpen | CMkdir | CMknod | CChdir | CPipe.
Definition do_call (k : call) (c : nat) : M (sys E) Z :=
  match k with
  | CDup => sys_dup c | CRead => sys_read c | CWrite => sys_write c | CClose => sys_close c
  | CFstat => sys_fstat c | CLink => sys_link c | CUnlink => sys_unlink c | COpen => sys_open c
  | CMkdir => sys_mkdir c | CMknod => sys_mknod c | CChdir => sys_chdir c | CPipe => sys_pipe c
  end.
Lemma do_call_keeps k c : ex !! c = None -> stable (sinv ex none) (do_call k c).
Proof.
  intros Hx.
  destruct k; [by apply dup_keeps|apply read_keeps|apply write_keeps|by apply close_keeps|apply fstat_keeps|apply link_keeps
    |apply unlink_keeps|by apply open_keeps|apply mkdir_keeps|apply mknod_keeps|apply chdir_keeps|by apply pipe_keeps].
Qed.
End calls.

Section system.
Context {E : Type} `{!FileApi E}.
Implicit Types (s : sys E) (ex : gmap nat nat).

(** A process makes a system call, which returns or sleeps; it forks into a
    process without files; [exit] closes one descriptor after the other, and may
    fall asleep in [fileclose] and go on later; a process woken in [sys_open],
    [fileread] or [filewrite] goes on to set the type, the flags or the offset
    of a file that it has open; the memory of a process changes; the components
    below the file table change.  A process asleep in [exit] does nothing
    else. *)
Inductive fstep : sys E * gmap nat nat -> sys E * gmap nat nat -> Prop :=
| fs_call s s' ex k c r : ex !! c = None -> do_call k c s = Ok r s' -> fstep (s, ex) (s', ex)
| fs_sleep s s' ex k c ch : ex !! c = None -> do_call k c s = Sleep ch s' -> fstep (s, ex) (s', ex)
| fs_fork s s' ex c np l : ex !! c = None -> ex !! np = None -> c <> np ->
    ofiles s !! c = Some l -> ofiles s !! np = Some no_files ->
    fork_files c np s = Ok tt s' -> fstep (s, ex) (s', ex)
| fs_exit s s' ex c fd : ex !! c = None -> exit_file c fd s = Ok tt s' -> fstep (s, ex) (s', ex)
| fs_exit_sleep s s' ex c fd ch : ex !! c = None -> exit_file c fd s = Sleep ch s' -> fstep (s, ex) (s', <[c := fd]> ex)
| fs_exit_wake s s' ex c fd : ex !! c = Some fd -> set_ofile c fd None s = Ok tt s' -> fstep (s, ex) (s', delete c ex)
| fs_wake s ex c l fd f g : ex !! c = None -> ofiles s !! c = Some l -> l !! fd = Some (Some f) ->
    (forall x, f_ref (g x) = f_ref x) -> fstep (s, ex) (set_ft (set_files (alter g f (files (ft s))) (ft s)) s, ex)
| fs_user s ex u : fstep (s, ex) (set_user u s, ex)
| fs_env s ex e : fstep (s, ex) (set_ft (set_fenv e (ft s)) s, ex).

(** [exit] that closes all files without sleeping is a sequence of such
    steps. *)
Lemma exit_files_steps c s s' ex : ex !! c = None -> exit_files c s = Ok tt s' -> rtc fstep (s, ex) (s', ex).
Proof.
  intros Hx. unfold exit_files. revert s. induction (seq 0 (Z.to_nat NOFILE)) as [|fd l IH]; intros s H; cbn in H.
  - by injection H as <-.
  - unfold bind in H. destruct (exit_file c fd s) as [[] s1| | |] eqn:E1; try done.
    eapply rtc_l; [by eapply fs_exit|by apply IH].
Qed.

(** No file is open. *)
Definition closed_table (nproc : nat) (cw : list nat) (u : uproc) (e : E) : sys E :=
  mksys (mkft false (replicate (Z.to_nat NFILE) zero_file) e) (replicate nproc no_files) cw u.
Lemma closed_sinv nproc cw u e : sinv ∅ none (closed_table nproc cw u e).
Proof.
  split; cbn [closed_table ofiles ft].
  - intros c l (-> & _)%lookup_replicate. apply length_replicate.
  - rewrite mask_empty. split; cbn [ft_lock files]; [done| | |].
    + intros f ff (-> & _)%lookup_replicate. unfold no_files. rewrite total_none. done.
    + intros f ff (-> & _)%lookup_replicate. done.
    + intros f. unfold no_files. rewrite total_none. unfold none. lia.
Qed.
Lemma fstep_sinv x x' : sinv (snd x) none (fst x) -> fstep x x' -> sinv (snd x') none (fst x').
Proof.
  intros Hs. destruct 1 as [s s' ex k c r Hx H|s s' ex k c ch Hx H|s s' ex c np l Hx Hxn Hne Hc Hnp H|s s' ex c fd Hx H
    |s s' ex c fd ch Hx H|s s' ex c fd Hx H|s ex c l fd f g Hx Hc Hfd Hg|s ex u|s ex e]; cbn [fst snd] in *.
  1,2: pose proof (do_call_keeps ex k c Hx s Hs) as Hk; unfold may in Hk; by rewrite H in Hk.
  - pose proof (fork_files_wp ex c np l s Hs Hx Hxn Hne Hc Hnp) as Hk. unfold wp in Hk. rewrite H in Hk. apply Hk.
  - pose proof (exit_file_may ex c fd s Hs Hx) as Hk. unfold may in Hk. by rewrite H in Hk.
  - pose proof (exit_file_may ex c fd s Hs Hx) as Hk. unfold may in Hk. by rewrite H in Hk.
  - injection H as <-. destruct Hs as [H1 H2]. split; cbn [ofiles ft set_ofiles]; [|by rewrite mask_delete].
    intros c' l'. destruct (decide (c' = c)) as [->|Hn]; [|rewrite list_lookup_alter_ne by done; apply H1].
    rewrite list_lookup_alter_eq. intros (l0 & Hl0 & ->)%fmap_Some. rewrite length_insert. by eapply H1.
  - eapply sinv_set_ft; [exact Hs|]. apply ftok_updf; [apply Hs| |done]. exact (live _ _ none _ _ _ _ Hs Hx Hc Hfd).
  - destruct Hs. by split.
  - destruct Hs. split; [done|]. by apply ftok_env.
Qed.

(** C7. In every state that system calls, forks and exits of any processes lead to
    from a closed file table, a file's reference count is the number of
    descriptors that name it, where the descriptor that a process asleep in
    [exit] is closing does not count; a file without references has type
    [FD_NONE]; every other descriptor names a file of the table with at least one
    reference (so that [filedup] and [fileclose] do not panic on it); and
    [ftable.lock] is free. *)
Theorem files_refcount nproc cw u e s ex :
  rtc fstep (closed_table nproc cw u e, ∅) (s, ex) ->
  ft_lock (ft s) = false /\
  (forall f ff, files (ft s) !! f = Some ff ->
     f_ref ff = Z.of_nat (total f (mask ex (ofiles s))) /\ (f_ref ff = 0 -> f_type ff = FD_NONE)) /\
  (forall c l fd f, ofiles s !! c = Some l -> l !! fd = Some (Some f) -> ex !! c <> Some fd ->
     exists ff, files (ft s) !! f = Some ff /\ 1 <= f_ref ff).
Proof.
  intros H. assert (Hs : sinv ex none s).
  { change (sinv (snd (s, ex)) none (fst (s, ex))). revert H. generalize (s, ex).
    apply (rtc_ind_r (fun x => sinv (snd x) none (fst x))); [apply closed_sinv|]. intros x x' _ Hx Hi. by eapply fstep_sinv. }
  destruct Hs as [H1 [H2 H3 H4 H5]]. split_and!; [done| |].
  - intros f ff Hf. split; [|by eapply H4]. rewrite (H3 _ _ Hf). unfold none. by rewrite Nat.add_0_r.
  - intros c l fd f Hc Hfd Hn.
    assert (Hp : (0 < total f (mask ex (ofiles s)))%nat).
    { eapply total_pos; [rewrite mask_lookup, Hc; reflexivity|]. destruct (ex !! c) as [fd'|]; [|done].
      rewrite list_lookup_insert_ne by congruence. done. }
    destruct (lookup_lt_is_Some_2 (files (ft s)) f) as [ff Hff]; [apply H5; lia|]. exists ff. split; [done|].
    rewrite (H3 _ _ Hff). lia.
Qed.
End system.
