(* ===== verification/Kernel.v ===== *)
(** * The kernel below the file table

    The log, the file system, the pipes and the page allocator put together:
    they implement the interface [FileApi] of file.c and sysfile.c. *)

From stdpp Require Import relations.
From S2P Require Import Prelude Params Strings Disk BioSpec Layout Log LogCrash Kalloc Pipe TxStore Fs File Syscall Sysfile SysfileInv.

Section kernel.
Context {S : Type} `{!BlockStore S}.
(** The end of the kernel image, the device switch and [proc->killed]. *)
Context (end_ : Z)
        (devsw_read : Z -> option (nat -> Z -> M (fs (log S)) (Z * list Z)))
        (devsw_write : Z -> option (nat -> list Z -> Z -> M (fs (log S)) Z))
        (killed : bool).

(** The pipes in use, by the address of their page. *)
Record kern := mkkern { k_fs : fs (log S); k_kmem : kmem; k_pipes : gmap Z pipe }.
Definition set_k_fs v (k : kern) := mkkern v (k_kmem k) (k_pipes k).
Definition set_k_kmem v (k : kern) := mkkern (k_fs k) v (k_pipes k).
Definition set_k_pipes v (k : kern) := mkkern (k_fs k) (k_kmem k) v.

Definition on_k_fs {A} (m : M (fs (log S)) A) : M kern A := zoom k_fs set_k_fs m.
Definition on_k_log {A} (m : M (log S) A) : M kern A := on_k_fs (on_tx m).
Definition on_k_kmem {A} (m : M kmem A) : M kern A := zoom k_kmem set_k_kmem m.
(** A pipe is used only while its page is allocated. *)
Definition on_pipe {A} (p : Z) (m : M pipe A) : M kern A :=
  fun k => match k_pipes k !! p with
           | Some pp => zoom (fun _ => pp) (fun pp' k => set_k_pipes (<[p := pp']> (k_pipes k)) k) m k
           | None => Panic "no pipe"
           end.

(** [kalloc] and the initialisation in [pipealloc]. *)
Definition k_pipenew : M kern Z :=
  p <-- on_k_kmem kalloc ;;
  if p =? 0 then ret 0
  else
    modify (fun k => set_k_pipes (<[p := pipe_init (bytes_at (kmemory (k_kmem k)) p (Z.to_nat PIPESIZE))]> (k_pipes k)) k) ;;;
    ret p.
(** [pipeclose]; a pipe whose ends are both closed gives back its page. *)
Definition k_pipeclose (p : Z) (writable : bool) : M kern unit :=
  on_pipe p (Pipe.pipeclose writable) ;;;
  k <-- get ;;
  match k_pipes k !! p with
  | Some pp =>
      if p_freed pp then modify (set_k_pipes (delete p (k_pipes k))) ;;; on_k_kmem (kfree end_ p)
      else ret tt
  | None => ret tt
  end.
(** A call that sleeps waits at the pipe's address. *)
Definition wait_pipe {A} (p : Z) (r : progress) (a : A) : M kern (Z * A) :=
  match r with Returned v => ret (v, a) | Asleep => sleep_on p end.
Definition k_piperead (p n : Z) : M kern (Z * list Z) :=
  r <-- on_pipe p (Pipe.piperead killed n) ;; wait_pipe p (fst r) (snd r).
Definition k_pipewrite (p : Z) (addr : list Z) (n : Z) : M kern Z :=
  r <-- on_pipe p (Pipe.pipewrite killed addr n 0) ;; v <-- wait_pipe p (fst r) tt ;; ret (fst v).

Lemma k_pipenew_awake : awake k_pipenew.
Proof. unfold k_pipenew, on_k_kmem, kalloc, Kalloc.acquire, Kalloc.release. awake. Qed.
Lemma on_pipe_awake {A} p (m : M pipe A) : awake m -> awake (on_pipe p m).
Proof. intros Hm k c k'. unfold on_pipe. destruct (k_pipes k !! p); [|done]. by apply awake_zoom. Qed.
Lemma k_pipeclose_awake p w : awake (k_pipeclose p w).
Proof.
  unfold k_pipeclose. apply awake_bind; [apply on_pipe_awake|intros []].
  - unfold Pipe.pipeclose, Pipe.acquire, Pipe.release, Pipe.wakeup. awake.
  - unfold on_k_kmem, kfree, Kalloc.acquire, Kalloc.release. awake.
Qed.

#[export] Instance kernel_api : FileApi kern := {
  a_begin_op := on_k_log begin_op;
  a_end_op := on_k_log end_op;
  a_geti i := on_k_fs (geti i);
  a_updi i f := on_k_fs (updi i f);
  a_iput i := on_k_fs (iput i);
  a_ilock i := on_k_fs (ilock i);
  a_iunlock i := on_k_fs (iunlock i);
  a_iupdate i := on_k_fs (iupdate i);
  a_ialloc d t := on_k_fs (ialloc d t);
  a_stati i := on_k_fs (stati i);
  a_readi i off n := on_k_fs (readi devsw_read i off n);
  a_writei i src off n := on_k_fs (writei devsw_write i src off n);
  a_dirlookup dp name := on_k_fs (dirlookup devsw_read dp name);
  a_dirlink dp name inum := on_k_fs (dirlink devsw_read devsw_write dp name inum);
  a_namei cwd path := on_k_fs (namei devsw_read cwd path);
  a_nameiparent cwd path := on_k_fs (nameiparent devsw_read cwd path);
  a_pipenew := k_pipenew;
  a_pipeclose := k_pipeclose;
  a_piperead := k_piperead;
  a_pipewrite := k_pipewrite;
  a_pipenew_awake := k_pipenew_awake;
  a_pipeclose_awake := k_pipeclose_awake
}.
End kernel.
Arguments kern S : clear implicits.

(** ** Example: a pipe shared by three descriptors *)

Module KernelDemo.
#[local] Instance api : FileApi (kern acache) := kernel_api 0x80108000 (fun _ => None) (fun _ => None) false.
Definition page : Z := 0x80200000.
Definition env : kern acache :=
  mkkern (mkfs (mksb 64 29 16 30 2 32 34) false [] [] (Demo.boot Demo.disk0)) (mkkmem false true page (fun _ => 0)) ∅.
(** A process of one page whose stack holds the arguments [args]. *)
Definition stack (args : list Z) : uproc :=
  mkup 4096 4000 0 (store_bytes (fun _ => 0) 4004 (concat (map (le_bytes 4) args))).

Definition state_of {A} (o : outcome (sys (kern acache)) A) (s : sys (kern acache)) : sys (kern acache) :=
  match o with Ok _ s' | Sleep _ s' => s' | _ => s end.
Definition returns {A} (o : outcome (sys (kern acache)) A) : bool := match o with Ok _ _ => true | _ => false end.
Definition turn (k : call) (c : nat) (args : list Z) (s : sys (kern acache)) : sys (kern acache) :=
  let s := set_user (stack args) s in state_of (do_call k c s) s.
Lemma turn_steps k c args s : returns (do_call k c (set_user (stack args) s)) = true -> rtc fstep (s, ∅) (turn k c args s, ∅).
Proof.
  intros H. eapply rtc_l; [apply (fs_user s ∅ (stack args))|]. apply rtc_once. unfold turn.
  destruct (do_call k c (set_user (stack args) s)) as [r s'| | |] eqn:E; try done. by eapply (fs_call _ _ ∅ k c).
Qed.

(** [pipe(fd)], [dup(0)], [close(1)] by process 0. *)
Definition s0 : sys (kern acache) := closed_table 2 [0%nat; 0%nat] (stack []) env.
Definition s1 : sys (kern acache) := turn CPipe 0 [100] s0.
Definition s2 : sys (kern acache) := turn CDup 0 [0] s1.
Definition s3 : sys (kern acache) := turn CClose 0 [1] s2.
Definition forked : sys (kern acache) := state_of (fork_files 0 1 s3) s3.

Lemma forks : fork_files 0 1 s3 = Ok tt forked.
Proof.
  unfold forked. destruct (fork_files 0 1 s3) as [[] s'| | |] eqn:E; [done| | |];
    assert (H : returns (fork_files 0 1 s3) = true) by (vm_compute; reflexivity); rewrite E in H; discriminate.
Qed.
Lemma parent : ofiles s3 !! 0%nat = Some (<[0%nat := Some 0%nat]> (<[2%nat := Some 0%nat]> no_files)).
Proof. vm_compute. reflexivity. Qed.
Lemma child : ofiles s3 !! 1%nat = Some no_files.
Proof. vm_compute. reflexivity. Qed.
Lemma run : rtc fstep (s0, ∅) (forked, ∅).
Proof.
  transitivity (s1, ∅ : gmap nat nat); [apply (turn_steps CPipe 0 [100]); vm_compute; reflexivity|].
  transitivity (s2, ∅ : gmap nat nat); [apply (turn_steps CDup 0 [0]); vm_compute; reflexivity|].
  transitivity (s3, ∅ : gmap nat nat); [apply (turn_steps CClose 0 [1]); vm_compute; reflexivity|].
  apply rtc_once. exact (fs_fork s3 forked ∅ 0 1 _ (lookup_empty _) (lookup_empty _) ltac:(done) parent child forks).
Qed.
End KernelDemo.

Lemma files_refcount_witness :
  exists ff, files (ft KernelDemo.forked) !! 0%nat = Some ff /\ f_ref ff = 4.
Proof.
  destruct (files_refcount 2 [0%nat; 0%nat] (KernelDemo.stack []) KernelDemo.env _ _ KernelDemo.run) as (_ & H & H').
  destruct (H' 0%nat (<[0%nat := Some 0%nat]> (<[2%nat := Some 0%nat]> no_files)) 0%nat 0%nat) as (ff & Hf & _);
    [vm_compute; reflexivity|reflexivity|done|].
  exists ff. split; [exact Hf|]. rewrite (proj1 (H _ _ Hf)). vm_compute. reflexivity.
Defined.
