(* ===== verification/Trap.v ===== *)
(** * trap.c, sysproc.c and the dispatch of syscall.c

    What happens when the processor enters the kernel: a system call, a device
    interrupt or a fault.  A process that sleeps in a system call, or is made to
    yield, comes back through the continuations defined here. *)

From S2P Require Import Prelude Params Strings Spinlock Ulib Console ConsoleSpec Syscall Proc.

(** ** traps.h, syscall.h, mmu.h *)

Definition T_SYSCALL : Z := 64.
Definition T_IRQ0 : Z := 32.
Definition IRQ_TIMER : Z := 0.
Definition IRQ_KBD : Z := 1.
Definition IRQ_COM1 : Z := 4.
Definition IRQ_IDE : Z := 14.
Definition IRQ_SPURIOUS : Z := 31.
Definition SYS_fork : Z := 1.
Definition SYS_exit : Z := 2.
Definition SYS_wait : Z := 3.
Definition SYS_pipe : Z := 4.
Definition SYS_read : Z := 5.
Definition SYS_kill : Z := 6.
Definition SYS_exec : Z := 7.
Definition SYS_fstat : Z := 8.
Definition SYS_chdir : Z := 9.
Definition SYS_dup : Z := 10.
Definition SYS_getpid : Z := 11.
Definition SYS_sbrk : Z := 12.
Definition SYS_sleep : Z := 13.
Definition SYS_uptime : Z := 14.
Definition SYS_open : Z := 15.
Definition SYS_write : Z := 16.
Definition SYS_mknod : Z := 17.
Definition SYS_unlink : Z := 18.
Definition SYS_link : Z := 19.
Definition SYS_mkdir : Z := 20.
Definition SYS_close : Z := 21.
Definition SYS_enable_sched_trace : Z := 22.
Definition SYS_uprog_shut : Z := 23.
(** [NELEM(syscalls)] *)
Definition NSYSCALL : Z := 24.
Definition SEG_KCODE : Z := 1.
Definition STS_IG32 : Z := 0xE.
Definition STS_TG32 : Z := 0xF.

(** [struct gatedesc] *)
Record gatedesc := mkgate {
  off_15_0 : Z;
  g_cs : Z;
  g_args : Z;
  g_rsv1 : Z;
  g_type : Z;
  g_s : Z;
  g_dpl : Z;
  g_p : Z;
  off_31_16 : Z
}.
Definition SETGATE (istrap : bool) (sel off d : Z) : gatedesc :=
  mkgate (Z.land off 0xffff) sel 0 0 (if istrap then STS_TG32 else STS_IG32) 0 d 1 (Z.shiftr off 16).
(** [idt] after [tvinit]; [vectors] is the table of [vectors.S]. *)
Definition tvinit (vectors : nat -> Z) : list gatedesc :=
  let idt := map (fun i => SETGATE false (Z.shiftl SEG_KCODE 3) (vectors i) 0) (seq 0 256) in
  <[Z.to_nat T_SYSCALL := SETGATE true (Z.shiftl SEG_KCODE 3) (vectors (Z.to_nat T_SYSCALL)) DPL_USER]> idt.

(** ** The clock and the machine *)

(** [ticks], [tickslock], the port writes of [outw], and the rest. *)
Record tenv (E : Type) := mktenv { t_ticks : Z; t_lock : bool; t_ports : list (Z * Z); t_env : E }.
Arguments mktenv {E} _ _ _ _.
Arguments t_ticks {E} _.
Arguments t_lock {E} _.
Arguments t_ports {E} _.
Arguments t_env {E} _.
Definition set_ticks {E} v (t : tenv E) := mktenv v (t_lock t) (t_ports t) (t_env t).
Definition set_tlock {E} v (t : tenv E) := mktenv (t_ticks t) v (t_ports t) (t_env t).
Definition set_ports {E} v (t : tenv E) := mktenv (t_ticks t) (t_lock t) v (t_env t).
Definition set_t_env {E} (v : E) (t : tenv E) := mktenv (t_ticks t) (t_lock t) (t_ports t) v.
Definition on_t {E A} (m : M E A) : M (tenv E) A := zoom t_env set_t_env m.

#[export] Instance tenv_services {E} `{!Services E} : Services (tenv E) := {
  s_kalloc := on_t s_kalloc;
  s_kfree a := on_t (s_kfree a);
  s_setupkvm := on_t s_setupkvm;
  s_inituvm d := on_t (s_inituvm d);
  s_allocuvm d o n := on_t (s_allocuvm d o n);
  s_deallocuvm d o n := on_t (s_deallocuvm d o n);
  s_copyuvm d n := on_t (s_copyuvm d n);
  s_freevm d := on_t (s_freevm d);
  s_switchuvm d k := on_t (s_switchuvm d k);
  s_switchkvm := on_t s_switchkvm;
  s_filedup f := on_t (s_filedup f);
  s_fileclose f := on_t (s_fileclose f);
  s_idup i := on_t (s_idup i);
  s_iput i := on_t (s_iput i);
  s_namei p := on_t (s_namei p);
  s_begin_op := on_t s_begin_op;
  s_end_op := on_t s_end_op;
  s_iinit d := on_t (s_iinit d);
  s_initlog d := on_t (s_initlog d);
  s_kfree_awake a := awake_zoom _ _ _ (s_kfree_awake a);
  s_freevm_awake d := awake_zoom _ _ _ (s_freevm_awake d);
  s_switchuvm_awake d k := awake_zoom _ _ _ (s_switchuvm_awake d k);
  s_switchkvm_awake := awake_zoom _ _ _ s_switchkvm_awake
}.

(** The device handlers, which act on the whole state (they wake processes), and
    the calls of sysfile.c on a CPU. *)
Class Handlers (E : Type) := {
  h_ideintr : nat -> M (kst (E := tenv E)) unit;
  h_kbdintr : nat -> M (kst (E := tenv E)) unit;
  h_uartintr : nat -> M (kst (E := tenv E)) unit;
  h_lapiceoi : M (kst (E := tenv E)) unit;
  h_pipe : nat -> M (kst (E := tenv E)) Z;
  h_read : nat -> M (kst (E := tenv E)) Z;
  h_exec : nat -> M (kst (E := tenv E)) Z;
  h_fstat : nat -> M (kst (E := tenv E)) Z;
  h_chdir : nat -> M (kst (E := tenv E)) Z;
  h_dup : nat -> M (kst (E := tenv E)) Z;
  h_open : nat -> M (kst (E := tenv E)) Z;
  h_write : nat -> M (kst (E := tenv E)) Z;
  h_mknod : nat -> M (kst (E := tenv E)) Z;
  h_unlink : nat -> M (kst (E := tenv E)) Z;
  h_link : nat -> M (kst (E := tenv E)) Z;
  h_mkdir : nat -> M (kst (E := tenv E)) Z;
  h_close : nat -> M (kst (E := tenv E)) Z
}.

Section trap.
Context {E : Type} `{!Services E, !Handlers E}.
Context (forkret_at trapret_at : Z) (proc_chan : nat -> Z).
(** [&ticks] as a channel, the memory a process sees, and [rcr2()]. *)
Context (ticks_chan : Z) (umem : kst (E := tenv E) -> nat -> mem) (rcr2 : Z).
Notation kst := (kst (E := tenv E)).

Definition ticks : M kst Z := gets (fun s => t_ticks (env s)).
(** [acquire(&tickslock)] and [release(&tickslock)] on CPU [c]. *)
Definition acquire_ticks (c : nat) : M kst unit :=
  updc c (fun pc => set_pc_cpu (pushcli (pc_cpu pc)) pc) ;;;
  l <-- gets (fun s => t_lock (env s)) ;;
  if (l : bool) then panic "acquire" else on_env (modify (set_tlock true)).
Definition unlock_ticks : M (tenv E) unit :=
  l <-- gets t_lock ;; if (l : bool) then modify (set_tlock false) else panic "release".
Definition release_ticks (c : nat) : M kst unit := on_env unlock_ticks ;;; popcli_on c.

(** [cprintf(fmt, ...)] with a newline at the end of [fmt]. *)
Definition cprintf_line (fmt : string) (args : list arg) : M kst unit :=
  modify (fun s => set_k_out (k_out s ++ cprintf_text (str fmt ++ [10]) args) s).

(** ** sysproc.c *)

(** The argument [n] of the running process. *)
Definition arg_int (c : nat) (n : Z) : M kst (option Z) :=
  me <-- myproc c ;;
  p <-- getp me ;;
  s <-- get ;;
  ret (argint (mkup (p_sz p) (tf_esp (p_tf p)) (tf_eax (p_tf p)) (umem s me)) n).

Definition outw (port data : Z) : M kst unit :=
  on_env (modify (fun t => set_ports (t_ports t ++ [(port, data)]) t)).
Definition sys_uprog_shut : M kst Z :=
  outw 0xB004 (Z.lor 0x0 0x2000) ;;; outw 0x604 (Z.lor 0x0 0x2000) ;;; ret 0.
Definition sys_fork (c : nat) : M kst Z := fork forkret_at trapret_at c.
Definition sys_exit (c : nat) : M kst Z := exit proc_chan c ;;; ret 0.
Definition sys_wait (c : nat) : M kst Z := wait proc_chan c.
Definition sys_kill (c : nat) : M kst Z :=
  a <-- arg_int c 0 ;;
  match a with
  | None => ret (-1)
  | Some pid => kill c pid
  end.
Definition sys_getpid (c : nat) : M kst Z := me <-- myproc c ;; p <-- getp me ;; ret (p_pid p).
Definition sys_sbrk (c : nat) : M kst Z :=
  a <-- arg_int c 0 ;;
  match a with
  | None => ret (-1)
  | Some n =>
      me <-- myproc c ;;
      p <-- getp me ;;
      r <-- growproc c n ;;
      if r <? 0 then ret (-1) else ret (i32 (p_sz p))
  end.
(** The loop of [sys_sleep], with [tickslock] held; the awakened process enters
    it again through [sys_sleep_resume]. *)
Definition sys_sleep_from (c : nat) (ticks0 n : Z) : M kst Z :=
  t <-- ticks ;;
  if u32 (t - ticks0) <? u32 n then
    me <-- myproc c ;;
    p <-- getp me ;;
    if negb (p_killed p =? 0) then release_ticks c ;;; ret (-1)
    else sleep c ticks_chan (OtherLock unlock_ticks) ;;; ret 0
  else release_ticks c ;;; ret 0.
Definition sys_sleep_resume (c : nat) (ticks0 n : Z) : M kst Z :=
  sleep_resume c (OtherLock unlock_ticks) ;;;
  acquire_ticks c ;;;
  sys_sleep_from c ticks0 n.
Definition sys_sleep (c : nat) : M kst Z :=
  a <-- arg_int c 0 ;;
  match a with
  | None => ret (-1)
  | Some n =>
      acquire_ticks c ;;;
      ticks0 <-- ticks ;;
      sys_sleep_from c ticks0 n
  end.
Definition sys_uptime (c : nat) : M kst Z :=
  acquire_ticks c ;;;
  xticks <-- ticks ;;
  release_ticks c ;;;
  ret (i32 xticks).
Definition sys_enable_sched_trace (c : nat) : M kst Z :=
  a <-- arg_int c 0 ;;
  (match a with
   | None => cprintf_line "enable_sched_trace() failed!" []
   | Some v => modify (set_sched_trace v)
   end) ;;;
  ret 0.

(** ** syscall *)

(** The entry [num] of [syscalls]. *)
Definition syscalls (num : Z) : option (nat -> M kst Z) :=
  if num =? SYS_fork then Some sys_fork
  else if num =? SYS_exit then Some sys_exit
  else if num =? SYS_wait then Some sys_wait
  else if num =? SYS_pipe then Some h_pipe
  else if num =? SYS_read then Some h_read
  else if num =? SYS_kill then Some sys_kill
  else if num =? SYS_exec then Some h_exec
  else if num =? SYS_fstat then Some h_fstat
  else if num =? SYS_chdir then Some h_chdir
  else if num =? SYS_dup then Some h_dup
  else if num =? SYS_getpid then Some sys_getpid
  else if num =? SYS_sbrk then Some sys_sbrk
  else if num =? SYS_sleep then Some sys_sleep
  else if num =? SYS_uptime then Some sys_uptime
  else if num =? SYS_open then Some h_open
  else if num =? SYS_write then Some h_write
  else if num =? SYS_mknod then Some h_mknod
  else if num =? SYS_unlink then Some h_unlink
  else if num =? SYS_link then Some h_link
  else if num =? SYS_mkdir then Some h_mkdir
  else if num =? SYS_close then Some h_close
  else if num =? SYS_enable_sched_trace then Some sys_enable_sched_trace
  else if num =? SYS_uprog_shut then Some (fun _ => sys_uprog_shut)
  else None.
(** [proc->tf->eax = r] *)
Definition set_result (c : nat) (r : Z) : M kst unit :=
  me <-- myproc c ;; updp me (fun p => set_p_tf (set_tf_eax (u32 r) (p_tf p)) p).
Definition syscall (c : nat) : M kst unit :=
  me <-- myproc c ;;
  p <-- getp me ;;
  let num := i32 (tf_eax (p_tf p)) in
  match (if (0 <? num) && (num <? NSYSCALL) then syscalls num else None) with
  | Some call =>
      r <-- call c ;;
      set_result c r
  | None =>
      cprintf_line "%d %s: unknown sys call %d" [Num (p_pid p); Str (Some (p_name p)); Num num] ;;;
      set_result c (-1)
  end.

(** ** trap *)

(** [if(proc->killed) exit()] *)
Definition exit_if_killed (c : nat) : M kst unit :=
  me <-- myproc c ;; p <-- getp me ;;
  if negb (p_killed p =? 0) then exit proc_chan c else ret tt.
(** [if(proc && proc->killed && (tf->cs&3) == DPL_USER) exit()] *)
Definition trap_check (c : nat) (tf : trapframe) : M kst unit :=
  s <-- get ;;
  match cpus s !! c ≫= pc_proc with
  | None => ret tt
  | Some me =>
      if negb (p_killed (procs s !!! me) =? 0) && (Z.land (tf_cs tf) 3 =? DPL_USER) then exit proc_chan c else ret tt
  end.
(** [if(proc && proc->state == RUNNING && tf->trapno == T_IRQ0+IRQ_TIMER) yield()] *)
Definition trap_yield (c : nat) (tf : trapframe) : M kst unit :=
  s <-- get ;;
  match cpus s !! c ≫= pc_proc with
  | None => ret tt
  | Some me =>
      if is_state RUNNING (procs s !!! me) && (tf_trapno tf =? T_IRQ0 + IRQ_TIMER) then yield c else ret tt
  end.
(** [case T_IRQ0 + IRQ_TIMER], up to [lapiceoi]. *)
Definition tick (c : nat) : M kst unit :=
  if Nat.eqb c 0 then
    acquire_ticks c ;;;
    t <-- ticks ;;
    on_env (modify (set_ticks (u32 (t + 1)))) ;;;
    wakeup c ticks_chan ;;;
    release_ticks c
  else ret tt.
(** [default]: a fault. *)
Definition trap_default (c : nat) (tf : trapframe) : M kst unit :=
  s <-- get ;;
  let oops := cprintf_line "unexpected trap %d from cpu %d eip %x (cr2=0x%x)"
    [Num (tf_trapno tf); Num (Z.of_nat c); Num (tf_eip tf); Num rcr2] ;;; panic "trap" in
  match cpus s !! c ≫= pc_proc with
  | Some me =>
      if Z.land (tf_cs tf) 3 =? 0 then oops
      else
        let p := procs s !!! me in
        cprintf_line "pid %d %s: trap %d err %d on cpu %d eip 0x%x addr 0x%x--kill proc"
          [Num (p_pid p); Str (Some (p_name p)); Num (tf_trapno tf); Num (tf_err tf); Num (Z.of_nat c);
           Num (tf_eip tf); Num rcr2] ;;;
        updp me (set_p_killed 1)
  | None => oops
  end.
(** The [switch]. *)
Definition trap_switch (c : nat) (tf : trapframe) : M kst unit :=
  let n := tf_trapno tf in
  if n =? T_IRQ0 + IRQ_TIMER then tick c ;;; h_lapiceoi
  else if n =? T_IRQ0 + IRQ_IDE then h_ideintr c ;;; h_lapiceoi
  else if n =? T_IRQ0 + IRQ_IDE + 1 then ret tt
  else if n =? T_IRQ0 + IRQ_KBD then h_kbdintr c ;;; h_lapiceoi
  else if n =? T_IRQ0 + IRQ_COM1 then h_uartintr c ;;; h_lapiceoi
  else if (n =? T_IRQ0 + 7) || (n =? T_IRQ0 + IRQ_SPURIOUS) then
    cprintf_line "cpu%d: spurious interrupt at %x:%x" [Num (Z.of_nat c); Num (tf_cs tf); Num (tf_eip tf)] ;;;
    h_lapiceoi
  else trap_default c tf.
(** [trap(tf)], where the trap frame lies at address [at_]. *)
Definition trap (c : nat) (at_ : Z) (tf : trapframe) : M kst unit :=
  if tf_trapno tf =? T_SYSCALL then
    exit_if_killed c ;;;
    me <-- myproc c ;;
    updp me (fun p => set_p_tf tf (set_p_tf_at at_ p)) ;;;
    syscall c ;;;
    exit_if_killed c
  else
    trap_switch c tf ;;;
    trap_check c tf ;;;
    trap_yield c tf ;;;
    trap_check c tf.
(** The end of a trap whose system call slept and then returned [r]. *)
Definition trap_after_call (c : nat) (r : Z) : M kst unit := set_result c r ;;; exit_if_killed c.
(** The end of a trap that yielded: [yield] releases [ptable.lock] when the
    process runs again. *)
Definition trap_after_yield (c : nat) (tf : trapframe) : M kst unit := release c ;;; trap_check c tf.
End trap.
