(* ===== verification/TrapSpec.v ===== *)
(** * Traps: what returns to user space, the clock, and the gates

    A killed process does not get back to user space; [sleep(n)] lasts for [n]
    ticks and every tick wakes its sleepers; user code enters the kernel through
    the system call gate only. *)

From S2P Require Import Prelude Params Strings Spinlock Ulib ConsoleSpec Syscall Proc ProcInv ProcSpec ProcDemo Trap.

(** A computation that does not return. *)
Definition noret {S A} (m : M S A) : Prop := forall s a s', m s <> Ok a s'.
Lemma noret_bind {S A B} (m : M S A) (k : A -> M S B) : (forall a, noret (k a)) -> noret (bind m k).
Proof. intros Hk s b s' H. unfold bind in H. destruct (m s) eqn:Em; try done. by eapply Hk. Qed.
Lemma noret_here {S A B} (m : M S A) (k : A -> M S B) : noret m -> noret (bind m k).
Proof. intros Hm s b s' H. unfold bind in H. destruct (m s) eqn:Em; try done. by eapply Hm. Qed.
Lemma noret_may {S A} (m : M S A) Q s : noret m -> may m Q (fun _ => True) s.
Proof. intros Hm. unfold may. destruct (m s) eqn:Em; try done. by destruct (Hm _ _ _ Em). Qed.
(** Only the last step of a sequence matters. *)
Lemma may_last {S A B} (m : M S A) (k : A -> M S B) Q s :
  (forall a s', may (k a) Q (fun _ => True) s') -> may (bind m k) Q (fun _ => True) s.
Proof. intros Hk. apply may_bind. unfold may at 1. destruct (m s); [apply Hk|done..]. Qed.

Section spec.
Context {E : Type} `{!Services E, !Handlers E}.
Context (forkret_at trapret_at : Z) (proc_chan : nat -> Z).
Context (ticks_chan : Z) (umem : kst (E := tenv E) -> nat -> mem) (rcr2 : Z).
Notation kst := (kst (E := tenv E)).
Implicit Types (s : kst) (tf : trapframe).
Notation trap := (trap forkret_at trapret_at proc_chan ticks_chan umem rcr2).
Notation syscall := (syscall forkret_at trapret_at proc_chan ticks_chan umem).

(** ** Killed processes *)

(** The process on CPU [c]. *)
Definition current (c : nat) s : option nat := cpus s !! c ≫= pc_proc.
Definition spared (c : nat) s : Prop := forall me, current c s = Some me -> p_killed (procs s !!! me) = 0.

Lemma exit_noret c : noret (exit proc_chan c : M kst unit).
Proof. unfold exit. apply noret_bind. intros me. apply noret_bind. intros ini. case_match; [done|]. repeat (apply noret_bind; intros ?). done. Qed.
Lemma exit_if_killed_may c s : may (exit_if_killed proc_chan c) (fun _ => spared c) (fun _ => True) s.
Proof.
  unfold exit_if_killed, myproc. do 2 apply may_bind. apply may_get. destruct (_ ≫= _) as [me|] eqn:Ec; [|done].
  apply may_ret, may_bind, may_gets. destruct (Z.eqb_spec (p_killed (procs s !!! me)) 0); cbn [negb].
  - apply may_ret. intros me' Hme. unfold current in Hme. by simplify_eq.
  - apply noret_may, exit_noret.
Qed.
Lemma trap_check_may c tf s : Z.land (tf_cs tf) 3 = DPL_USER -> may (trap_check proc_chan c tf) (fun _ => spared c) (fun _ => True) s.
Proof.
  intros Hcs. unfold trap_check. apply may_bind, may_get. rewrite Hcs. destruct (_ ≫= _) as [me|] eqn:Ec.
  - destruct (Z.eqb_spec (p_killed (procs s !!! me)) 0); cbn [negb andb].
    + apply may_ret. intros me' Hme. unfold current in Hme. by simplify_eq.
    + apply noret_may, exit_noret.
  - apply may_ret. intros me' Hme. unfold current in Hme. by simplify_eq.
Qed.
(** The trap numbers that [trap] knows. *)
Definition known (n : Z) : bool :=
  existsb (fun m => n =? m) [T_SYSCALL; T_IRQ0 + IRQ_TIMER; T_IRQ0 + IRQ_IDE; T_IRQ0 + IRQ_IDE + 1;
    T_IRQ0 + IRQ_KBD; T_IRQ0 + IRQ_COM1; T_IRQ0 + 7; T_IRQ0 + IRQ_SPURIOUS].
Lemma trap_fault c a tf s : known (tf_trapno tf) = false ->
  trap c a tf s = (trap_default rcr2 c tf ;;; trap_check proc_chan c tf ;;; trap_yield c tf ;;; trap_check proc_chan c tf) s.
Proof.
  unfold known. cbn [existsb]. rewrite !orb_false_iff. intros (H1 & H2 & H3 & H4 & H5 & H6 & H7 & H8 & _).
  unfold Trap.trap, trap_switch. by rewrite H1, H2, H3, H4, H5, H6, H7, H8.
Qed.

(** After a fault in user space the process is killed. *)
Lemma trap_default_may c tf s : Z.land (tf_cs tf) 3 = DPL_USER -> (forall me, current c s = Some me -> (me < length (procs s))%nat) ->
  may (trap_default rcr2 c tf) (fun _ s' => exists me, current c s' = Some me /\ p_killed (procs s' !!! me) = 1) (fun _ => True) s.
Proof.
  intros Hu Hlen. unfold trap_default. apply may_bind, may_get. rewrite Hu. unfold current in *.
  destruct (_ ≫= _) as [me|] eqn:Ec; [|done]. apply may_bind, may_modify, may_modify. exists me. split; [done|].
  cbn [procs set_procs set_k_out]. destruct (lookup_lt_is_Some_2 (procs s) me) as [p Hp]; [by apply Hlen|].
  by rewrite list_lookup_total_alter_eq, (list_lookup_total_correct _ _ _ Hp) by (by eapply lookup_lt_Some).
Qed.
Lemma trap_check_killed c tf s : Z.land (tf_cs tf) 3 = DPL_USER -> (exists me, current c s = Some me /\ p_killed (procs s !!! me) = 1) ->
  may (trap_check proc_chan c tf) (fun _ _ => False) (fun _ => True) s.
Proof.
  intros Hu (me & Hc & Hk). unfold trap_check. apply may_bind, may_get. unfold current in Hc. rewrite Hc, Hk, Hu. cbn. apply noret_may, exit_noret.
Qed.

(** C20. A trap taken in user space returns there only if the process is not killed,
    whether it returns at once, after a system call that slept, or after
    yielding the CPU.  A fault in user space kills the process, and [trap] does
    not return; a fault in the kernel stops the machine. *)
Theorem trap_safe c a tf s : (forall me, current c s = Some me -> (me < length (procs s))%nat) ->
  (tf_trapno tf = T_SYSCALL \/ Z.land (tf_cs tf) 3 = DPL_USER -> forall r s', trap c a tf s = Ok r s' -> spared c s') /\
  (forall v r s', trap_after_call proc_chan c v s = Ok r s' -> spared c s') /\
  (Z.land (tf_cs tf) 3 = DPL_USER -> forall r s', trap_after_yield proc_chan c tf s = Ok r s' -> spared c s') /\
  (known (tf_trapno tf) = false ->
     (Z.land (tf_cs tf) 3 = DPL_USER -> forall r s', trap c a tf s <> Ok r s') /\
     (current c s = None \/ Z.land (tf_cs tf) 3 = 0 -> panics (trap c a tf) "trap" s)).
Proof.
  intros Hlen. split_and!.
  - intros Hu r s'. apply (may_ok _ (fun _ => spared c) (fun _ => True)). unfold Trap.trap.
    destruct (Z.eqb_spec (tf_trapno tf) T_SYSCALL).
    + do 4 (apply may_last; intros ??). apply exit_if_killed_may.
    + do 3 (apply may_last; intros ??). apply trap_check_may. tauto.
  - intros v r s'. apply (may_ok _ (fun _ => spared c) (fun _ => True)). apply may_last. intros ??. apply exit_if_killed_may.
  - intros Hu r s'. apply (may_ok _ (fun _ => spared c) (fun _ => True)). apply may_last. intros ??. by apply trap_check_may.
  - intros Hk. split.
    + intros Hu r s' H. rewrite trap_fault in H by done. revert H. apply (may_ok _ (fun _ _ => False) (fun _ => True)).
      apply may_bind. eapply may_mono; [by apply trap_default_may| |done]. intros [] s1 Hs1. apply may_bind.
      eapply may_mono; [by apply trap_check_killed|done..].
    + intros Hu. unfold panics. rewrite trap_fault by done. apply panics_here. unfold current in Hu. unfold panics, trap_default, bind at 1, get.
      destruct (_ ≫= _) as [me|]; [|done]. destruct Hu as [Hu|Hu]; [done|]. by rewrite Hu.
Qed.

(** ** The clock *)

(** CPU [c] runs [o] with [k] locks held. *)
Definition depth (c : nat) (o : option nat) (k : Z) s : Prop :=
  exists pc, cpus s !! c = Some pc /\ pc_proc pc = o /\ ncli (pc_cpu pc) = k /\ (0 < k -> iflag (pc_cpu pc) = false).
(** No lock is held. *)
Definition unlocked (c : nat) (o : option nat) s : Prop := plock s = false /\ t_lock (env s) = false /\ depth c o 0 s.

Lemma depth_cpus c o k s s' : cpus s' = cpus s -> depth c o k s -> depth c o k s'.
Proof. unfold depth. by intros ->. Qed.
Lemma depth_current c o k s : depth c o k s -> cpus s !! c ≫= pc_proc = o.
Proof. by intros (pc & -> & <- & _). Qed.
Lemma depth_myproc c me k s : depth c (Some me) k s -> myproc c s = Ok me s.
Proof. intros Hd%depth_current. unfold myproc, bind, get. by rewrite Hd. Qed.
Lemma pushcli_wp c o k s (Q : unit -> kst -> Prop) : depth c o k s -> 0 <= k ->
  (forall cs, depth c o (k + 1) (set_cpus cs s) -> Q tt (set_cpus cs s)) ->
  wp (updc c (fun pc => set_pc_cpu (pushcli (pc_cpu pc)) pc)) Q s.
Proof.
  intros (pc & Hc & Ho & Hk & Hi) H0 HQ. apply wp_modify, HQ. eexists. cbn [cpus set_cpus]. rewrite list_lookup_alter_eq, Hc.
  split; [done|]. cbn. by rewrite Hk.
Qed.
Lemma popcli_wp c o k s (Q : unit -> kst -> Prop) : depth c o (k + 1) s -> 0 <= k ->
  (forall cs, depth c o k (set_cpus cs s) -> Q tt (set_cpus cs s)) -> wp (popcli_on c) Q s.
Proof.
  intros (pc & Hc & Ho & Hk & Hi) H0 HQ. unfold popcli_on. apply wp_bind, wp_get. rewrite Hc. unfold popcli.
  rewrite Hi, Hk by lia. replace (k + 1 - 1) with k by lia. rewrite (proj2 (Z.ltb_ge k 0)) by lia. apply wp_modify, HQ.
  eexists. cbn [cpus set_cpus]. rewrite list_lookup_alter_eq, Hc. split_and!; [done..|]. cbn. intros Hk'.
  by rewrite (proj2 (Z.eqb_neq k 0)) by lia.
Qed.
Lemma acquire_ticks_wp c o k s (Q : unit -> kst -> Prop) : depth c o k s -> 0 <= k -> t_lock (env s) = false ->
  (forall cs, let s' := set_env (set_tlock true (env s)) (set_cpus cs s) in depth c o (k + 1) s' -> Q tt s') ->
  wp (acquire_ticks c) Q s.
Proof.
  intros Hd Hk Hl HQ. apply wp_bind, (pushcli_wp _ o k); [done..|]. intros cs Hd'. apply wp_bind, wp_gets. cbn [env set_cpus].
  rewrite Hl. apply wp_zoom, wp_modify. by apply HQ.
Qed.
Lemma release_ticks_wp c o k s (Q : unit -> kst -> Prop) : depth c o (k + 1) s -> 0 <= k -> t_lock (env s) = true ->
  (forall cs, let s' := set_cpus cs (set_env (set_tlock false (env s)) s) in depth c o k s' -> Q tt s') ->
  wp (release_ticks c) Q s.
Proof.
  intros Hd Hk Hl HQ. apply wp_bind, wp_zoom. unfold unlock_ticks. apply wp_bind, wp_gets. rewrite Hl. apply wp_modify.
  apply (popcli_wp _ o k); [done..|]. by apply HQ.
Qed.
Lemma acquire_depth_wp c o k s (Q : unit -> kst -> Prop) : depth c o k s -> 0 <= k -> plock s = false ->
  (forall cs, let s' := set_plock true (set_cpus cs s) in depth c o (k + 1) s' -> Q tt s') -> wp (acquire c) Q s.
Proof.
  intros Hd Hk Hl HQ. apply wp_bind, (pushcli_wp _ o k); [done..|]. intros cs Hd'. apply wp_bind, wp_gets. cbn [plock set_cpus].
  rewrite Hl. apply wp_modify. by apply HQ.
Qed.
Lemma release_depth_wp c o k s (Q : unit -> kst -> Prop) : depth c o (k + 1) s -> 0 <= k -> plock s = true ->
  (forall cs, let s' := set_cpus cs (set_plock false s) in depth c o k s' -> Q tt s') -> wp (release c) Q s.
Proof.
  intros Hd Hk Hl HQ. unfold release. apply wp_bind, wp_gets. rewrite Hl. apply wp_bind, wp_modify.
  apply (popcli_wp _ o k); [done..|]. by apply HQ.
Qed.

Lemma tick_wp o s : unlocked 0 o s ->
  wp (tick ticks_chan 0) (fun _ s' => t_ticks (env s') = u32 (t_ticks (env s) + 1) /\
    procs s' = map (wake_proc ticks_chan) (procs s) /\ unlocked 0 o s') s.
Proof.
  intros (Hp & Ht & Hd). unfold tick, wakeup. cbn [Nat.eqb]. apply wp_bind, (acquire_ticks_wp _ o 0); [done..|]. intros cs1 s1 Hd1.
  apply wp_bind, wp_gets, wp_bind, wp_zoom, wp_modify, wp_bind, wp_bind, (acquire_depth_wp _ o 1); [done..|]. intros cs2 s2 Hd2.
  apply wp_bind, wp_modify, (release_depth_wp _ o 1); [done..|]. intros cs3 s3 Hd3.
  apply (release_ticks_wp _ o 0); [done..|]. intros cs4 s4 Hd4. done.
Qed.

(** What the loop of [sys_sleep] does for [n] ticks from [ticks0], if the
    process is [p], entry [me]: it returns 0 when they have passed, -1 if the
    process is killed, and otherwise puts it to sleep on [&ticks] with
    [tickslock] free. *)
Definition sleep_result (c me : nat) p (ticks0 n : Z) s (o : outcome kst Z) : Prop :=
  if u32 n <=? u32 (t_ticks (env s) - ticks0) then exists s', o = Ok 0 s' /\ procs s' = procs s /\ unlocked c (Some me) s'
  else if negb (p_killed p =? 0) then exists s', o = Ok (-1) s' /\ procs s' = procs s /\ unlocked c (Some me) s'
  else exists s', o = Sleep ticks_chan s' /\ t_lock (env s') = false /\ t_ticks (env s') = t_ticks (env s) /\
    procs s' = <[me := set_p_state SLEEPING (set_p_chan ticks_chan p)]> (procs s).

Lemma sleep_ticks_wps c me p s (Q : unit -> kst -> Prop) (R : Z -> kst -> Prop) : procs s !! me = Some p ->
  depth c (Some me) 1 s -> plock s = false -> t_lock (env s) = true ->
  (forall s', t_lock (env s') = false -> t_ticks (env s') = t_ticks (env s) ->
     procs s' = <[me := set_p_state SLEEPING (set_p_chan ticks_chan p)]> (procs s) -> R ticks_chan s') ->
  wps (sleep c ticks_chan (OtherLock unlock_ticks)) Q R s.
Proof.
  intros Hp Hd Hl Ht HR. unfold sleep. apply wps_bind, wp_get. rewrite (depth_current _ _ _ _ Hd).
  apply wps_bind, wp_bind, (acquire_depth_wp _ (Some me) 1); [done..|]. intros cs1 s1 Hd1.
  apply wp_bind, wp_zoom. unfold unlock_ticks. apply wp_bind, wp_gets. cbn [env set_plock set_cpus s1]. rewrite Ht. apply wp_modify.
  apply (popcli_wp _ (Some me) 1); [done..|]. intros cs2 (pc2 & Hc2 & Ho2 & Hk2 & Hi2).
  apply wps_bind, wp_modify, wps_bind, wp_modify.
  eapply (sched_wps _ me (set_p_state SLEEPING (set_p_chan ticks_chan p))); [|cbn|done|apply HR; [done..|cbn]].
  - split; [done|]. exists pc2. split_and!; [done..|]. apply Hi2. lia.
  - by rewrite !list_lookup_alter_eq, Hp.
  - by rewrite list_alter_alter_eq, (alter_eq _ _ _ _ Hp).
Qed.
Lemma sys_sleep_from_result c me p ticks0 n s : procs s !! me = Some p ->
  depth c (Some me) 1 s -> plock s = false -> t_lock (env s) = true ->
  sleep_result c me p ticks0 n s (sys_sleep_from ticks_chan c ticks0 n s).
Proof.
  intros Hp Hd Hl Ht. 
  assert (Heq : sys_sleep_from ticks_chan c ticks0 n s =
    if u32 (t_ticks (env s) - ticks0) <? u32 n then
      if negb (p_killed p =? 0) then (release_ticks c ;;; ret (-1)) s
      else (sleep c ticks_chan (OtherLock unlock_ticks) ;;; ret 0) s
    else (release_ticks c ;;; ret 0) s).
  { unfold sys_sleep_from. unfold bind at 1, ticks, gets. destruct (_ <? _); [|done].
    unfold bind at 1. rewrite (depth_myproc _ _ _ _ Hd). unfold bind at 1, getp, gets.
    rewrite (list_lookup_total_correct _ _ _ Hp). by destruct (negb _). }
  rewrite Heq. unfold sleep_result. rewrite Z.ltb_antisym.
  assert (Hrel : forall v : Z, exists s', (release_ticks c ;;; ret v) s = Ok v s' /\ procs s' = procs s /\ unlocked c (Some me) s').
  { intros v. assert (H : wp (release_ticks c ;;; ret v) (fun r s' => r = v /\ procs s' = procs s /\ unlocked c (Some me) s') s).
    - apply wp_bind, (release_ticks_wp _ (Some me) 0); [done..|]. by intros cs s' Hd'.
    - apply wp_ok in H as (r & s' & E' & -> & H). by exists s'. }
  destruct (u32 n <=? _); cbn [negb]; [apply Hrel|].
  destruct (negb (p_killed p =? 0)); [apply Hrel|].
  assert (H : wps (sleep c ticks_chan (OtherLock unlock_ticks) ;;; ret 0) (fun _ _ => False) (fun ch s' => ch = ticks_chan /\
    t_lock (env s') = false /\ t_ticks (env s') = t_ticks (env s) /\
    procs s' = <[me := set_p_state SLEEPING (set_p_chan ticks_chan p)]> (procs s)) s).
  { apply wps_bind_sleep. apply (sleep_ticks_wps c me p); try done. }
  unfold wps in H. destruct (bind (B := Z) _ _ s) as [| |ch s'|]; try done. destruct H as (-> & H). by exists s'.
Qed.

(** C22. [sleep(n)] returns 0 when [n] ticks have passed since it was called, -1 if the
    process is killed first, and until then the process is asleep on [&ticks],
    with [tickslock] free; it looks at the clock again whenever it is woken.
    The timer interrupt of CPU 0 counts a tick and wakes every such sleeper. *)
Theorem clock_spec c me p s : procs s !! me = Some p ->
  (unlocked c (Some me) s -> forall n,
     argint (mkup (p_sz p) (tf_esp (p_tf p)) (tf_eax (p_tf p)) (umem s me)) 0 = Some n ->
     sleep_result c me p (t_ticks (env s)) n s (sys_sleep ticks_chan umem c s)) /\
  (plock s = true -> t_lock (env s) = false -> depth c (Some me) 1 s -> forall ticks0 n,
     sleep_result c me (set_p_chan 0 p) ticks0 n (set_procs (<[me := set_p_chan 0 p]> (procs s)) s)
       (sys_sleep_resume ticks_chan c ticks0 n s)) /\
  (forall o, unlocked 0 o s -> exists s', tick ticks_chan 0 s = Ok tt s' /\ unlocked 0 o s' /\
     t_ticks (env s') = u32 (t_ticks (env s) + 1) /\
     (p_state p = SLEEPING -> p_chan p = ticks_chan -> procs s' !! me = Some (set_p_state RUNNABLE p))).
Proof.
  intros Hp. split_and!.
  - intros (Hl & Ht & Hd) n Ha.
      assert (H : wp (acquire_ticks c) (fun _ s1 => sleep_result c me p (t_ticks (env s)) n s (sys_sleep_from ticks_chan c (t_ticks (env s)) n s1)
      /\ t_ticks (env s1) = t_ticks (env s)) s).
    { apply (acquire_ticks_wp _ (Some me) 0); [done..|]. intros cs s1 Hd1. split; [|done].
      by apply (sys_sleep_from_result c me p (t_ticks (env s)) n s1). }
    apply wp_ok in H as ([] & s1 & E1 & H & Ht1).
    unfold sys_sleep, arg_int. unfold bind at 1 2. rewrite (depth_myproc _ _ _ _ Hd). unfold bind at 1, getp, gets. rewrite (list_lookup_total_correct _ _ _ Hp).
    unfold bind at 1, get, ret. rewrite Ha. unfold bind at 1. rewrite E1. unfold bind at 1, ticks, gets. by rewrite Ht1.
  - intros Hl Ht Hd ticks0 n. set (s0 := set_procs (<[me := set_p_chan 0 p]> (procs s)) s).
    assert (H : wp (sleep_resume c (OtherLock unlock_ticks) ;;; acquire_ticks c)
      (fun _ s1 => sleep_result c me (set_p_chan 0 p) ticks0 n s0 (sys_sleep_from ticks_chan c ticks0 n s1)) s).
    { apply wp_bind, wp_bind, (myproc_wp _ me); [by eapply depth_current|]. apply wp_bind, wp_modify.
      apply (release_depth_wp _ (Some me) 0); [done..|]. intros cs1 s1 Hd1. apply (acquire_ticks_wp _ (Some me) 0); [done..|].
      intros cs2 s2 Hd2. unfold s0. rewrite <- (alter_eq (set_p_chan 0) _ _ _ Hp).
      apply (sys_sleep_from_result c me (set_p_chan 0 p) ticks0 n s2); try done. cbn. by rewrite list_lookup_alter_eq, Hp. }
    apply wp_ok in H as ([] & s1 & E1 & H). unfold sys_sleep_resume.
    revert E1 H. unfold bind. destruct (sleep_resume _ _ s) as [[] s1'| | |]; try done. by intros ->.
  - intros o Ho. pose proof (tick_wp o s Ho) as H. apply wp_ok in H as ([] & s' & E1 & Ht & Hps & Hu). exists s'. split_and!; [done..|].
    intros Hst Hch. rewrite Hps, list_lookup_fmap, Hp. cbn. unfold wake_proc, is_state. by rewrite Hst, Hch, bool_decide_true, Z.eqb_refl.
Qed.

(** ** System call numbers *)

Lemma syscalls_some num : is_Some (syscalls forkret_at trapret_at proc_chan ticks_chan umem num) <-> 0 < num < NSYSCALL.
Proof.
  change NSYSCALL with 24. split.
  - unfold syscalls. repeat match goal with |- is_Some (if num =? ?k then _ else _) -> _ =>
      destruct (Z.eqb_spec num k) as [->|]; [done|] end. by intros [].
  - intros Hn. assert (Hin : num ∈ seqZ 1 23) by (apply elem_of_seqZ; lia). cbv in Hin.
    repeat (apply elem_of_cons in Hin as [->|Hin]; [by eexists|]). by apply elem_of_nil in Hin.
Qed.

(** [syscall] with a number outside the table changes nothing of the process but
    %eax, which becomes -1, and reports it; each number from 1 to 23 has its call,
    which is run and whose result is put in %eax. *)
Theorem syscall_dispatch c me p s : current c s = Some me -> procs s !! me = Some p ->
  let num := i32 (tf_eax (p_tf p)) in
  (num <= 0 \/ NSYSCALL <= num -> exists out,
     syscall c s = Ok tt (set_procs (<[me := set_p_tf (set_tf_eax (u32 (-1)) (p_tf p)) p]> (procs s)) (set_k_out (k_out s ++ out) s))) /\
  (0 < num < NSYSCALL -> exists call, syscalls forkret_at trapret_at proc_chan ticks_chan umem num = Some call /\
     forall r s1 p1, call c s = Ok r s1 -> current c s1 = Some me -> procs s1 !! me = Some p1 ->
     syscall c s = Ok tt (set_procs (<[me := set_p_tf (set_tf_eax (u32 r) (p_tf p1)) p1]> (procs s1)) s1)).
Proof.
  intros Hc Hp num. pose proof (syscalls_some num) as Hsome.
  assert (Hset : forall r s1 p1, current c s1 = Some me -> procs s1 !! me = Some p1 ->
    set_result c r s1 = Ok tt (set_procs (<[me := set_p_tf (set_tf_eax (u32 r) (p_tf p1)) p1]> (procs s1)) s1)).
  { intros r s1 p1 Hc1 Hp1. unfold set_result, myproc, bind, get, updp, modify. unfold current in Hc1. rewrite Hc1. cbn. by rewrite (alter_eq _ _ _ _ Hp1). }
  assert (Hcall : syscall c s = (match (if (0 <? num) && (num <? NSYSCALL) then syscalls forkret_at trapret_at proc_chan ticks_chan umem num else None) with
    | Some call => r <-- call c ;; set_result c r
    | None => cprintf_line "%d %s: unknown sys call %d" [Num (p_pid p); Str (Some (p_name p)); Num num] ;;; set_result c (-1) end) s).
  { unfold Trap.syscall. unfold bind at 1, myproc, bind at 1, get. unfold current in Hc. rewrite Hc. unfold ret, bind at 1, getp, gets.
    by rewrite (list_lookup_total_correct _ _ _ Hp). }
  rewrite Hcall. clear Hcall. split.
  - intros Hn. replace ((0 <? num) && (num <? NSYSCALL)) with false.
    2:{ symmetry. apply andb_false_iff. rewrite !Z.ltb_ge. lia. }
    eexists. unfold bind, cprintf_line, modify. by rewrite (Hset _ _ p).
  - intros Hn. replace ((0 <? num) && (num <? NSYSCALL)) with true.
    2:{ symmetry. apply andb_true_iff. rewrite !Z.ltb_lt. lia. }
    apply Hsome in Hn as [call Hs]. exists call. split; [done|]. intros r s1 p1 Hs1 Hc1 Hp1.
    rewrite Hs. unfold bind. rewrite Hs1. by apply Hset.
Qed.
End spec.

(** ** The gates *)

(** The interrupt descriptor table sends each interrupt to its entry point, in
    the kernel's code segment; user code may raise the system call only, and
    every other entry has interrupts off. *)
Theorem idt_gates vectors i : 0 <= vectors i < 2 ^ 32 -> (i < 256)%nat ->
  exists g, tvinit vectors !! i = Some g /\
    Z.lor (Z.shiftl (off_31_16 g) 16) (off_15_0 g) = vectors i /\ g_cs g = 8 /\ g_p g = 1 /\
    (g_dpl g = DPL_USER <-> i = 64%nat) /\ (g_type g = STS_IG32 <-> i <> 64%nat).
Proof.
  intros Hv Hi. exists (SETGATE (bool_decide (i = 64%nat)) 8 (vectors i) (if bool_decide (i = 64%nat) then DPL_USER else 0)).
  split_and!.
  - unfold tvinit. change (Z.to_nat T_SYSCALL) with 64%nat. change (Z.shiftl SEG_KCODE 3) with 8. destruct (decide (i = 64%nat)) as [->|Hne].
    + rewrite list_lookup_insert_eq by (rewrite length_map, length_seq; lia). by rewrite bool_decide_true.
    + rewrite list_lookup_insert_ne by done. rewrite list_lookup_fmap, lookup_seq_lt by done. by rewrite bool_decide_false.
  - cbn. change 65535 with (Z.ones 16). apply Z.bits_inj'. intros b Hb. rewrite Z.lor_spec, Z.shiftl_spec, Z.land_spec, Z.testbit_ones_nonneg by lia.
    destruct (Z.ltb_spec b 16).
    + rewrite Z.testbit_neg_r by lia. by rewrite andb_true_r.
    + rewrite Z.shiftr_spec, andb_false_r, orb_false_r by lia. f_equal. lia.
  - done.
  - done.
  - cbn. destruct (decide (i = 64%nat)); [by rewrite bool_decide_true|]. rewrite bool_decide_false by done. done.
  - cbn. destruct (decide (i = 64%nat)); [by rewrite bool_decide_true|]. rewrite bool_decide_false by done. done.
Qed.

(** ** Example: the processes of the small kernel *)

Module TrapDemo.
#[local] Existing Instance demo_services.
#[local] Instance demo_handlers : Handlers Z := {
  h_ideintr _ := ret tt; h_kbdintr _ := ret tt; h_uartintr _ := ret tt; h_lapiceoi := ret tt;
  h_pipe _ := ret 0; h_read _ := ret 0; h_exec _ := ret 0; h_fstat _ := ret 0; h_chdir _ := ret 0; h_dup _ := ret 0; h_open _ := ret 0; h_write _ := ret 0; h_mknod _ := ret 0; h_unlink _ := ret 0; h_link _ := ret 0; h_mkdir _ := ret 0; h_close _ := ret 0
}.
Definition start : kst (E := tenv Z) :=
  mkkst (replicate nproc zero_proc) 1 None false [idle_cpu; idle_cpu] true 0 [] (mktenv 7 false [] 0x400000).
(** The first process on CPU 0. *)
Definition s0 : kst (E := tenv Z) := after (userinit 1 2 0 ;;; resume_new 0 0) start.
(** Its stack holds the argument 3. *)
Definition umem (s : kst (E := tenv Z)) (i : nat) : mem := store_bytes (fun _ => 0) 4004 (le_bytes 4 3).
Definition user (eax : Z) : trapframe := mktf 0 0 0 0 0 0 0 eax 0 0 udata udata 64 0 0 ucode FL_IF 4000 udata.
Definition s1 : kst (E := tenv Z) := after (updp 0 (set_p_tf (user 13))) s0.
Definition p1 : proc := procs s1 !!! 0%nat.
End TrapDemo.

#[local] Existing Instance demo_services.
#[local] Existing Instance TrapDemo.demo_handlers.

Lemma trap_safe_witness : (* a divide error in user space, and one in the kernel *)
  let tf cs := mktf 0 0 0 0 0 0 0 0 0 0 udata udata 0 0 0 cs FL_IF 4000 udata in
  let run cs := trap 1 2 demo_chan 5000 TrapDemo.umem 0 0 0 (tf cs) in
  ~ (exists s', run ucode TrapDemo.s0 = Ok tt s') /\ panics (run 8) "trap" TrapDemo.s0.
Proof.
  intros tf run.
  assert (Hlen : forall me, current 0 TrapDemo.s0 = Some me -> (me < length (procs TrapDemo.s0))%nat).
  { intros me. vm_compute. intros [= <-]. repeat constructor. }
  split.
  - destruct (trap_safe 1 2 demo_chan 5000 TrapDemo.umem 0 0 0 (tf ucode) TrapDemo.s0 Hlen) as (_ & _ & _ & H).
    intros (s' & Hs'). by apply (proj1 (H eq_refl) eq_refl tt s').
  - destruct (trap_safe 1 2 demo_chan 5000 TrapDemo.umem 0 0 0 (tf 8) TrapDemo.s0 Hlen) as (_ & _ & _ & H).
    apply (proj2 (H eq_refl)). by right.
Defined.

Lemma clock_spec_witness : (* sleep(3) *)
  exists s', sys_sleep 5000 TrapDemo.umem 0 TrapDemo.s1 = Sleep 5000 s' /\
    p_state <$> procs s' !! 0%nat = Some SLEEPING /\ t_lock (env s') = false.
Proof.
  assert (Hu : unlocked 0 (Some 0%nat) TrapDemo.s1).
  { split_and!; [done..|]. eexists. split; [vm_compute; reflexivity|]. split_and!; [done..|lia]. }
  destruct (clock_spec 5000 TrapDemo.umem 0 0 TrapDemo.p1 TrapDemo.s1) as (H & _); [vm_compute; reflexivity|].
  specialize (H Hu 3 ltac:(vm_compute; reflexivity)). revert H. unfold sleep_result.
  change (u32 3 <=? _) with false. change (negb (p_killed _ =? 0)) with false. cbv iota.
  intros (s' & Hs & Ht & _ & Hps). exists s'. split_and!; [exact Hs| |exact Ht]. rewrite Hps. vm_compute. reflexivity.
Defined.

Lemma syscall_dispatch_witness : (* call 99 *)
  let s := after (updp 0 (set_p_tf (TrapDemo.user 99))) TrapDemo.s0 in
  exists s', syscall 1 2 demo_chan 5000 TrapDemo.umem 0 s = Ok tt s' /\
    tf_eax (p_tf (procs s' !!! 0%nat)) = 4294967295 /\ k_out s' = str "1 initcode: unknown sys call 99" ++ [10].
Proof.
  intros s.
  destruct (syscall_dispatch 1 2 demo_chan 5000 TrapDemo.umem 0 0 (procs s !!! 0%nat) s) as (H & _); [vm_compute; reflexivity..|].
  destruct (H ltac:(right; vm_compute; discriminate)) as (out & Hout). eexists. split; [exact Hout|]. split; [vm_compute; reflexivity|].
  cut (out = str "1 initcode: unknown sys call 99" ++ [10]); [by intros ->|].
  apply (f_equal (fun o => match o with Ok _ s => k_out s | _ => [] end)) in Hout. vm_compute in Hout. by rewrite <- Hout.
Defined.

Lemma idt_gates_witness : exists g, tvinit (fun i => 0x80105000 + 10 * Z.of_nat i) !! 64%nat = Some g /\ g_dpl g = DPL_USER.
Proof.
  destruct (idt_gates (fun i => 0x80105000 + 10 * Z.of_nat i) 64 ltac:(done) ltac:(lia)) as (g & Hg & _ & _ & _ & Hd & _).
  exists g. split; [exact Hg|]. by apply Hd.
Defined.
