(* ===== verification/Exec.v ===== *)
(** * exec.c: running a program

    [exec] reads an ELF file, builds a new address space with its segments, a
    guard page and a stack holding the arguments, and commits to it at the very
    end. *)

From S2P Require Import Prelude Params Strings Kalloc Vm Fs Proc File.

(** ** elf.h *)

Definition ELF_MAGIC : Z := 0x464C457F.
Definition ELF_PROG_LOAD : Z := 1.
(** A little-endian field of [n] bytes at offset [off]. *)
Definition field (bs : list Z) (off n : nat) : Z := le_value (take n (drop off bs)).
Record elfhdr := mkelf {
  e_magic : Z;
  e_elf : list Z;
  e_type : Z;
  e_machine : Z;
  e_version : Z;
  e_entry : Z;
  e_phoff : Z;
  e_shoff : Z;
  e_flags : Z;
  e_ehsize : Z;
  e_phentsize : Z;
  e_phnum : Z;
  e_shentsize : Z;
  e_shnum : Z;
  e_shstrndx : Z
}.
Definition sizeof_elfhdr : Z := 52.
Definition decode_elf (bs : list Z) : elfhdr :=
  mkelf (field bs 0 4) (take 12 (drop 4 bs)) (field bs 16 2) (field bs 18 2) (field bs 20 4) (field bs 24 4) (field bs 28 4)
    (field bs 32 4) (field bs 36 4) (field bs 40 2) (field bs 42 2) (field bs 44 2) (field bs 46 2) (field bs 48 2) (field bs 50 2).
Record proghdr := mkph {
  ph_type : Z;
  ph_off : Z;
  ph_vaddr : Z;
  ph_paddr : Z;
  ph_filesz : Z;
  ph_memsz : Z;
  ph_flags : Z;
  ph_align : Z
}.
Definition sizeof_proghdr : Z := 32.
Definition decode_ph (bs : list Z) : proghdr :=
  mkph (field bs 0 4) (field bs 4 4) (field bs 8 4) (field bs 12 4) (field bs 16 4) (field bs 20 4) (field bs 24 4) (field bs 28 4).

Definition set_tf_eip v (t : trapframe) := mktf (tf_edi t) (tf_esi t) (tf_ebp t) (tf_oesp t) (tf_ebx t) (tf_edx t) (tf_ecx t) (tf_eax t) (tf_gs t) (tf_fs t) (tf_es t) (tf_ds t) (tf_trapno t) (tf_err t) v (tf_cs t) (tf_eflags t) (tf_esp t) (tf_ss t).
Definition set_tf_esp v (t : trapframe) := mktf (tf_edi t) (tf_esi t) (tf_ebp t) (tf_oesp t) (tf_ebx t) (tf_edx t) (tf_ecx t) (tf_eax t) (tf_gs t) (tf_fs t) (tf_es t) (tf_ds t) (tf_trapno t) (tf_err t) (tf_eip t) (tf_cs t) (tf_eflags t) v (tf_ss t).

(** The part of [path] after its last slash; [last] is what follows the last one
    seen so far. *)
Fixpoint last_from (last s : list Z) : list Z :=
  match s with
  | [] => last
  | c :: s' => last_from (if c =? 47 then s' else last) s'
  end.

Section exec.
Context {F : Type} `{!FileApi F}.
(** [end] and [data] of the linker script, and what the stack holds where the
    variable [elf] is placed. *)
Context (end_ data : Z) (elf0 : list Z).

(** Memory, the file system, and the process that calls. *)
Record xst := mkx { x_sys : vm * F; x_proc : proc }.
Definition set_x_sys v (s : xst) := mkx v (x_proc s).
Definition set_x_proc v (s : xst) := mkx (x_sys s) v.
Definition on_sys {A} (m : M (vm * F) A) : M xst A := zoom x_sys set_x_sys m.
Definition on_v {A} (m : M vm A) : M xst A := on_sys (on_vm m).
Definition on_f {A} (m : M F A) : M xst A := on_sys (on_fs m).
Definition upd_proc (f : proc -> proc) : M xst unit := modify (fun s => set_x_proc (f (x_proc s)) s).

Definition iunlockput (ip : nat) : M xst unit := on_f (a_iunlock ip) ;;; on_f (a_iput ip).
(** [bad:] *)
Definition exec_bad (pgdir : Z) (ip : option nat) : M xst Z :=
  (if negb (pgdir =? 0) then on_v (freevm end_ pgdir) else ret tt) ;;;
  (match ip with
   | Some ip => iunlockput ip ;;; on_f a_end_op
   | None => ret tt
   end) ;;;
  ret (-1).

(** The loop over [n] program headers; [None] is the jump to [bad]. *)
Fixpoint exec_load (pgdir : Z) (ip n : nat) (off sz : Z) : M xst (option Z) :=
  match n with
  | O => ret (Some sz)
  | S n' =>
      rb <-- on_f (a_readi ip off sizeof_proghdr) ;;
      let '(r, bs) := rb in
      if negb (r =? sizeof_proghdr) then ret None
      else
        let ph := decode_ph bs in
        let off' := u32 (off + sizeof_proghdr) in
        if negb (ph_type ph =? ELF_PROG_LOAD) then exec_load pgdir ip n' off' sz
        else if ph_memsz ph <? ph_filesz ph then ret None
        else
          sz <-- on_v (allocuvm end_ pgdir sz (u32 (ph_vaddr ph + ph_memsz ph))) ;;
          if sz =? 0 then ret None
          else
            r <-- on_sys (loaduvm (a_readi ip) pgdir (ph_vaddr ph) (ph_off ph) (ph_filesz ph)) ;;
            if r <? 0 then ret None else exec_load pgdir ip n' off' sz
  end.

(** The loop that pushes the strings of [argv]; [ptrs] are their addresses. *)
Fixpoint push_args (pgdir : Z) (argv : list (list Z)) (argc sp : Z) (ptrs : list Z) : M xst (option (Z * list Z)) :=
  match argv with
  | [] => ret (Some (sp, ptrs))
  | s :: argv' =>
      if MAXARG <=? argc then ret None
      else
        let len := Z.of_nat (length s) + 1 in
        let sp := Z.land (u32 (sp - len)) (u32 (Z.lnot 3)) in
        r <-- on_v (copyout pgdir sp (s ++ [0]) len) ;;
        if r <? 0 then ret None else push_args pgdir argv' (argc + 1) sp (ptrs ++ [sp])
  end.
(** [ustack] as bytes. *)
Definition ustack (sp : Z) (ptrs : list Z) : list Z :=
  let argc := Z.of_nat (length ptrs) in
  concat (map (le_bytes 4) ([0xffffffff; argc; u32 (sp - (argc + 1) * 4)] ++ ptrs ++ [0])).
(** The stack: two pages above the program, the first one a guard; the
    arguments; [ustack].  The size of the address space and %esp. *)
Definition exec_stack (pgdir : Z) (argv : list (list Z)) (sz : Z) : M xst (option (Z * Z)) :=
  let sz := PGROUNDUP sz in
  sz <-- on_v (allocuvm end_ pgdir sz (u32 (sz + 2 * PGSIZE))) ;;
  if sz =? 0 then ret None
  else
    on_v (clearpteu pgdir (u32 (sz - 2 * PGSIZE))) ;;;
    r <-- push_args pgdir argv 0 sz [] ;;
    match r with
    | None => ret None
    | Some (sp, ptrs) =>
        let n := (3 + Z.of_nat (length ptrs) + 1) * 4 in
        let bytes := ustack sp ptrs in
        let sp := u32 (sp - n) in
        r <-- on_v (copyout pgdir sp bytes n) ;;
        if r <? 0 then ret None else ret (Some (sz, sp))
    end.
(** The commit. *)
Definition exec_commit (path : list Z) (pgdir sz entry sp : Z) : M xst Z :=
  upd_proc (set_p_name (name16 (last_from path path))) ;;;
  p <-- gets x_proc ;;
  let oldpgdir := p_pgdir p in
  upd_proc (set_p_pgdir pgdir) ;;;
  upd_proc (set_p_sz sz) ;;;
  upd_proc (fun p => set_p_tf (set_tf_eip entry (p_tf p)) p) ;;;
  upd_proc (fun p => set_p_tf (set_tf_esp sp (p_tf p)) p) ;;;
  on_v (switchuvm pgdir (p_kstack p)) ;;;
  on_v (freevm end_ oldpgdir) ;;;
  ret 0.

Definition exec (path : list Z) (argv : list (list Z)) : M xst Z :=
  on_f a_begin_op ;;;
  p <-- gets x_proc ;;
  match p_cwd p with
  | None => panic "null cwd"
  | Some cwd =>
      r <-- on_f (a_namei cwd path) ;;
      match r with
      | None => on_f a_end_op ;;; ret (-1)
      | Some ip =>
          on_f (a_ilock ip) ;;;
          rb <-- on_f (a_readi ip 0 sizeof_elfhdr) ;;
          let '(r, bs) := rb in
          let elf := decode_elf (splice 0 bs elf0) in
          if u32 r <? sizeof_elfhdr then exec_bad 0 (Some ip)
          else if negb (e_magic elf =? ELF_MAGIC) then exec_bad 0 (Some ip)
          else
            pgdir <-- on_v (setupkvm data) ;;
            if pgdir =? 0 then exec_bad 0 (Some ip)
            else
              r <-- exec_load pgdir ip (Z.to_nat (e_phnum elf)) (e_phoff elf) 0 ;;
              match r with
              | None => exec_bad pgdir (Some ip)
              | Some sz =>
                  iunlockput ip ;;;
                  on_f a_end_op ;;;
                  r <-- exec_stack pgdir argv sz ;;
                  match r with
                  | None => exec_bad pgdir None
                  | Some (sz, sp) => exec_commit path pgdir sz (e_entry elf) sp
                  end
              end
      end
  end.
End exec.
Arguments xst F : clear implicits.
