(* ===== verification/ExecSpec.v ===== *)
(** * exec: what the new program finds

    [exec] of a well-formed program replaces the address space: the segments of
    the file, zeroes elsewhere, a page the user cannot touch, and the arguments on
    the stack.  When it fails the process keeps its image. *)

From S2P Require Import Prelude Params Strings Kalloc Vm VmSpec VmUser Proc File Exec.

Lemma nth_take_drop (l : list Z) o n k : (k < n)%nat -> nth k (take n (drop o l)) 0 = nth (o + k) l 0.
Proof. intros Hk. rewrite !nth_lookup, lookup_take_lt, lookup_drop by done. done. Qed.
Lemma take_split {A} (l : list A) n m : (m <= n)%nat -> take n l = take m l ++ take (n - m) (drop m l).
Proof. intros Hm. rewrite <-(take_drop m (take n l)). rewrite take_take, Nat.min_l by done. by rewrite skipn_firstn_comm. Qed.

(** ** A program in memory *)

Section image.
Context (end_ : Z) `{!Linked end_} {G : Pages} (data : Z).
Notation space := (space end_ data).
Notation copied_out := (copied_out end_ data).
Lemma copied_nil_at s oth d T U l va va' s' : copied_out s oth d T U l va [] s' -> copied_out s oth d T U l va' [] s'.
Proof. intros (H1 & H2 & H3 & H4). split_and!; [done..|]. intros x. rewrite H4. cbn. by rewrite !decide_False by lia. Qed.

Notation need := VmUser.need.
Definition pgs (sz : Z) : Z := (sz + 4095) / 4096.
(** [img] with [bs] at [va]. *)
Definition overlay (img : Z -> Z) (va : Z) (bs : list Z) : Z -> Z := fun x =>
  if decide (va <= x < va + Z.of_nat (length bs)) then u8 (nth (Z.to_nat (x - va)) bs 0) else img x.
(** Address space [d] has the pages below [sz], and they hold [img]. *)
Record loaded v oth d T U l (img : Z -> Z) (sz : Z) : Prop := {
  ld_space : space v oth d T U l;
  ld_in n : 0 <= n < pgs sz -> exists p, U !! n = Some (p, 7);
  ld_out n : pgs sz <= n -> U !! n = None;
  ld_img x : 0 <= x < 4096 * pgs sz -> ubyte (vmem v) U x = img x;
  ld_zero x : sz <= x -> img x = 0
}.

Lemma need_mono T a b c : a <= b <= c -> (need T a b <= need T a c)%nat.
Proof. intros H. unfold VmUser.need. rewrite (missing_split T (a / 1024) ((b - 1) / 1024 + 1) ((c - 1) / 1024 + 1)) by zlia. lia. Qed.
(** A page of another owner is not a user page. *)
Lemma outside_oth v oth d T U l p x : space v oth d T U l -> p ∈ oth -> p <= x < p + 4096 -> outside U x.
Proof.
  intros [[[_ Hpg Hnd _] _] _] Hp Hx q Hq Hqx. apply NoDup_app in Hnd as ([_ Hnd]%NoDup_cons & _).
  apply NoDup_app in Hnd as (_ & _ & (_ & Hdis & _)%NoDup_app).
  pose proof (proj1 (Forall_forall _ _) Hpg) as Hall. assert (Hpp : page end_ p) by (apply Hall; set_solver).
  assert (Hqp : page end_ q) by (apply Hall; set_solver).
  destruct (decide (p = q)) as [->|Hne]; [by apply (Hdis q)|]. destruct (page_disjoint end_ p q Hpp Hqp); [done|lia|lia].
Qed.
Lemma copied_same v oth d T U l va bs v' : space v oth d T U l -> copied_out v oth d T U l va bs v' -> same_on oth (vmem v) (vmem v').
Proof. intros Hsp (_ & _ & Hout & _) p x Hp Hx. apply Hout. by eapply outside_oth. Qed.

Lemma loaded_grow v oth d T U l img sz sz' : loaded v oth d T U l img sz -> 0 <= sz <= sz' -> sz' < KERNBASE ->
  (need T (pgs sz) (pgs sz') <= length l)%nat ->
  wp (allocuvm end_ d sz sz') (fun r v' => r = sz' /\ exists k T' U' l', v' = set_vmk k v /\ loaded v' oth d T' U' l' img sz' /\
    same_on oth (vmem v) (vmem v') /\
    forall c, pgs sz' <= c -> (need T (pgs sz) c <= length l)%nat -> (need T' (pgs sz') c <= length l')%nat) v.
Proof.
  intros [Hsp Hin Hout Himg Hz] Hsz Hk Hneed. assert (Hp : 0 <= pgs sz <= pgs sz') by (unfold pgs; zlia).
  eapply wp_mono; [apply (allocuvm_wp end_ data v oth d T U l sz sz'); [done|done|done|intros n Hn; apply Hout; unfold pgs; lia|done]|].
  intros r v' (-> & T' & U' & l' & [G1 (k & ->) G3 G4 G5 G6 G7]). fold (pgs sz) (pgs sz') in *. split; [done|].
  exists k, T', U', l'. split_and!; [done| |by eapply same_sub; [|exact G5]; set_solver|exact G7]. split; [done|..].
  - intros n Hn. destruct (decide (n < pgs sz)); [|destruct (G4 n) as (p & ? & _); [lia|by exists p]]. rewrite G3 by lia. apply Hin. lia.
  - intros n Hn. rewrite G3 by lia. apply Hout. lia.
  - intros x Hx. unfold ubyte. destruct (decide (x / 4096 < pgs sz)) as [Hlt|Hge].
    + rewrite G3 by lia. rewrite <- Himg by zlia. unfold ubyte. destruct (Hin (x / 4096)) as (p & E); [zlia|]. rewrite E.
      apply (G5 p); [|zlia]. rewrite elem_of_app. left. by eapply upages_elem.
    + destruct (G4 (x / 4096)) as (p & -> & H0); [zlia|]. rewrite H0 by zlia. symmetry. apply Hz. unfold pgs in *. zlia.
  - intros x Hx. apply Hz. lia.
Qed.
Lemma loaded_put v oth d T U l img sz va bs v' : loaded v oth d T U l img sz -> va + Z.of_nat (length bs) <= sz ->
  copied_out v oth d T U l va bs v' -> loaded v' oth d T U l (overlay img va bs) sz.
Proof.
  intros [Hsp Hin Hout Himg Hz] Hle (_ & Hsp' & _ & Hu). split; [done..| |].
  - intros x Hx. rewrite Hu. unfold overlay. case_decide; [done|]. by apply Himg.
  - intros x Hx. unfold overlay. rewrite decide_False by lia. by apply Hz.
Qed.

Lemma alloc_seg v oth d T U l img sz new B : loaded v oth d T U l img sz -> 0 <= sz < KERNBASE -> 0 <= new < KERNBASE ->
  pgs (Z.max sz new) <= B -> (need T (pgs sz) B <= length l)%nat ->
  wp (allocuvm end_ d sz new) (fun r v' => r = Z.max sz new /\ exists k T' U' l', v' = set_vmk k v /\ loaded v' oth d T' U' l' img (Z.max sz new) /\
    same_on oth (vmem v) (vmem v') /\ (need T' (pgs (Z.max sz new)) B <= length l')%nat) v.
Proof.
  intros Hld Hsz Hnew HB Hneed. destruct (decide (new < sz)).
  - unfold wp. rewrite allocuvm_less by lia. rewrite Z.max_l in * by lia. split; [done|]. exists (vmk v), T, U, l.
    by rewrite set_vmk_id.
  - rewrite Z.max_r in * by lia. assert (Hp : 0 <= pgs sz <= pgs new) by (unfold pgs; zlia).
    eapply wp_mono; [apply (loaded_grow v oth d T U l img sz new); [done|lia|lia|]|].
    + etrans; [|exact Hneed]. apply need_mono. lia.
    + intros r v' (-> & k & T' & U' & l' & -> & Hld' & Hs & Hc). split; [done|]. exists k, T', U', l'. split_and!; [done..|].
      apply Hc; lia.
Qed.
End image.

(** ** Loading a segment *)

(** What [readi] returns and the bytes it reads from a file that holds [file]: an
    offset after its end is an error, and it stops at the end. *)
Definition file_read (file : list Z) (off n : Z) : Z * list Z :=
  if (Z.of_nat (length file) <? off) || (2 ^ 32 <=? off + n) then (-1, [])
  else (Z.min n (Z.of_nat (length file) - off), take (Z.to_nat n) (drop (Z.to_nat off) file)).
(** File [ip] can be read in the states [Open]: it holds [file]. *)
Class Readable {F : Type} `{!FileApi F} (ip : nat) (file : list Z) (Open : F -> Prop) : Prop :=
  readable_readi off n f : Open f -> 0 <= off < 2 ^ 32 -> 0 <= n < 2 ^ 32 ->
    wp (a_readi ip off n) (fun rb f' => rb = file_read file off n /\ Open f') f.

Section load.
Context {F : Type} `{!FileApi F} (ip : nat) (file : list Z) (Open : F -> Prop) `{!Readable ip file Open}.
Context (end_ : Z) `{!Linked end_} {G : Pages} (data : Z).
Notation space := (space end_ data).
Notation copied_out := (copied_out end_ data).
Notation loaded := (loaded end_ data).
Notation need := VmUser.need.

(** The bytes of the file from [off] to [off + n]. *)
Definition slice (off n : Z) : list Z := take (Z.to_nat n) (drop (Z.to_nat off) file).
Lemma length_slice off n : 0 <= off -> 0 <= n -> off + n <= Z.of_nat (length file) -> length (slice off n) = Z.to_nat n.
Proof. intros. unfold slice. rewrite length_take, length_drop. lia. Qed.
Lemma slice_nil off n : n <= 0 -> slice off n = [].
Proof. intros. unfold slice. by replace (Z.to_nat n) with 0%nat by lia. Qed.
Lemma slice_le off n : 0 <= n -> Z.of_nat (length (slice off n)) <= n.
Proof. intros. unfold slice. rewrite length_take. lia. Qed.
Lemma slice_end off n n' : 0 <= off -> n <= n' -> Z.of_nat (length file) <= off + n -> slice off n' = slice off n.
Proof. intros. unfold slice. rewrite !take_ge by (rewrite length_drop; lia). done. Qed.
(** A read returns the bytes of the slice, and all [n] of them or less than [n]. *)
Lemma readi_slice f off n : Z.of_nat (length file) < 2 ^ 31 -> Open f -> 0 <= off < 2 ^ 32 -> 0 < n < 2 ^ 31 ->
  wp (a_readi ip off n) (fun rb f' => snd rb = slice off n /\ Open f' /\
    ((fst rb = n /\ off + n <= Z.of_nat (length file)) \/ (fst rb < n /\ Z.of_nat (length file) < off + n))) f.
Proof.
  intros Hlen HO Hoff Hn. eapply wp_mono; [apply readable_readi; [done|done|lia]|]. intros rb f' (-> & HO'). unfold file_read.
  destruct (Z.ltb_spec (Z.of_nat (length file)) off) as [Hlt|Hge]; cbn [orb].
  { split_and!; [|done|right; cbn [fst]; lia]. cbn. unfold slice. by rewrite drop_ge, take_nil by lia. }
  rewrite (proj2 (Z.leb_gt _ _)) by lia. split_and!; [done|done|]. cbn [fst]. lia.
Qed.

(** [loaduvm] puts as much of the file as there is into the pages, and fails if it
    is too short. *)
Definition load_post v oth d T U l (addr off sz : Z) (r : Z) (s' : vm * F) : Prop :=
  copied_out v oth d T U l addr (slice off sz) (fst s') /\ Open (snd s') /\
  ((r = 0 /\ (sz <= 0 \/ off + sz <= Z.of_nat (length file))) \/ (r = -1 /\ 0 < sz /\ Z.of_nat (length file) < off + sz)).
Lemma load_loop oth d T U l addr off sz : 0 <= addr -> addr mod 4096 = 0 -> addr + sz <= 0x80000000 -> 0 <= off < 2 ^ 32 ->
  Z.of_nat (length file) < 2 ^ 31 -> (forall n, addr <= 4096 * n -> 4096 * n < addr + sz -> is_Some (U !! n)) ->
  forall fuel v f i, (Z.to_nat ((sz - i + 4095) / 4096) < fuel)%nat -> 0 <= i -> i mod 4096 = 0 -> i < sz + 4096 ->
  i = 0 \/ off + Z.min i sz <= Z.of_nat (length file) -> space v oth d T U l -> Open f ->
  wp (loop fuel (loaduvm_step (a_readi ip) d addr off sz) i) (load_post v oth d T U l (addr + i) (off + i) (sz - i)) (v, f).
Proof.
  intros Ha Hal Hend Ho Hlen Hmap. induction fuel as [|fuel IH]; intros v f i Hf Hi Him Hisz Hoi Hsp HO; [lia|].
  cbn [loop]. apply wp_bind. unfold loaduvm_step. destruct (Z.ltb_spec i sz) as [Hlt|Hge]; cycle 1.
  { apply wp_ret, wp_ret. split_and!; [|done|left; lia]. rewrite slice_nil by lia. by apply copied_nil. }
  destruct (Hmap ((addr + i) / 4096)) as ([p fl] & Hp); [zlia|zlia|].
  set (n := (addr + i) / 4096) in *. assert (Hn : addr + i = 4096 * n) by (unfold n; zlia).
  destruct (space_user _ _ _ _ _ _ _ _ _ _ _ Hsp Hp) as [He Hr].
  destruct (entry_table _ _ _ _ _ _ He) as (t & Ht). destruct (entry_facts end_ _ _ _ He) as (_ & _ & Hpa & _).
  rewrite u32_id, Hn by lia. apply wp_bind, wp_zoom. unfold wp. rewrite (walk_hit end_ v d T _ t); [|apply Hsp|lia|by replace (4096 * n / 4096) with n by zlia].
  replace (4096 * n / 4096) with n by zlia.
  rewrite (proj2 (Z.eqb_neq _ 0)) by (eapply (table_nonzero end_ v); [apply Hsp|done]).
  apply wp_bind, wp_zoom, wp_gets.
  assert (Hrd : load32 (vmem v) (t + 4 * (n mod 1024)) = pte (vmem v) T n) by (unfold pte; by rewrite Ht).
  cbn [fst snd]. rewrite Hrd, Hpa. change PGSIZE with 4096. set (k := if sz - i <? 4096 then sz - i else 4096).
  assert (Hk : 0 < k <= 4096 /\ (k = sz - i \/ (k = 4096 /\ 4096 <= sz - i))) by (unfold k; destruct (Z.ltb_spec (sz - i) 4096); lia).
  clearbody k. rewrite (u32_id (off + i)) by lia. apply wp_bind, wp_zoom.
  eapply wp_mono; [apply readi_slice; [done|done|lia|lia]|]. intros [r bs] f1 (Ebs & HO1 & Hrb). cbn [fst snd] in Ebs, Hrb |- *. subst bs.
  pose proof (slice_le (off + i) k ltac:(lia)) as Hsl.
  apply wp_bind, wp_zoom, wp_modify. cbn [fst snd].
  destruct (copy_piece end_ data v oth d T U l (4096 * n) p fl (slice (off + i) k)) as (Hsp1 & Hout1 & Hu1);
    [done|by replace (4096 * n / 4096) with n by zlia|zlia|].
  replace (4096 * n mod 4096) with 0 in * by zlia. rewrite Z.add_0_r in *.
  change (set_vmk (set_kmemory ?m (vmk v)) v) with (with_mem m v). set (v1 := with_mem _ v) in *.
  assert (Hc1 : copied_out v oth d T U l (4096 * n) (slice (off + i) k) v1) by (split_and!; [by eexists|done..]).
  destruct Hrb as [[-> Hin]|[Hneq Hin]]; cycle 1.
  { rewrite (proj2 (Z.eqb_neq r k)) by lia. cbn [negb]. apply wp_ret, wp_ret. split_and!; [|done|right; lia].
    rewrite (slice_end (off + i) k) by lia. done. }
  rewrite Z.eqb_refl. cbn [negb]. apply wp_ret. rewrite u32_id by lia.
  assert (Hsl' : length (slice (off + i) k) = Z.to_nat k) by (apply length_slice; lia).
  eapply wp_mono; [apply (IH v1 f1 (i + 4096)); [|lia|zlia|lia|lia|done|done]|].
  { destruct Hk as (_ & [->|[-> ?]]); zlia. }
  intros r s' (Hc2 & HO2 & Hr2). split_and!; [|done|lia].
  replace (slice (off + i) (sz - i)) with (slice (off + i) k ++ slice (off + (i + 4096)) (sz - (i + 4096))).
  - eapply copied_app; [exact Hc1|]. rewrite Hsl'. destruct Hk as (? & [->|[-> ?]]).
    + rewrite slice_nil in Hc2 |- * by lia. by eapply copied_nil_at.
    + by replace (4096 * n + Z.of_nat (Z.to_nat 4096)) with (addr + (i + 4096)) by lia.
  - unfold slice. destruct Hk as (? & [->|[-> ?]]).
    + replace (Z.to_nat (sz - (i + 4096))) with 0%nat by lia. by rewrite take_0, app_nil_r.
    + rewrite (take_split _ (Z.to_nat (sz - i)) (Z.to_nat 4096)) by lia. rewrite drop_drop. do 2 f_equal; [lia|]. f_equal. lia.
Qed.

Lemma loaduvm_wp v f oth d T U l addr off sz : space v oth d T U l -> Open f ->
  0 <= addr -> addr mod 4096 = 0 -> 0 <= sz -> addr + sz <= 0x80000000 -> 0 <= off < 2 ^ 32 ->
  Z.of_nat (length file) < 2 ^ 31 -> (forall n, addr <= 4096 * n -> 4096 * n < addr + sz -> is_Some (U !! n)) ->
  wp (loaduvm (a_readi ip) d addr off sz) (load_post v oth d T U l addr off sz) (v, f).
Proof.
  intros Hsp HO Ha Hal Hsz Hend Ho Hlen Hmap. unfold loaduvm. change PGSIZE with 4096. rewrite Hal. cbn [Z.eqb negb].
  eapply wp_mono; [apply (load_loop oth d T U l addr off sz) with (i := 0); try done; try lia; zlia|].
  intros r s'. by rewrite !Z.add_0_r, Z.sub_0_r.
Qed.

(** ** The program *)

(** The program headers, and what loading them makes of memory and its size. *)
Fixpoint headers (off : Z) (n : nat) : list proghdr :=
  match n with
  | O => []
  | S n' => decode_ph (slice off sizeof_proghdr) :: headers (off + sizeof_proghdr) n'
  end.
Definition load_seg (st : (Z -> Z) * Z) (ph : proghdr) : (Z -> Z) * Z :=
  if ph_type ph =? ELF_PROG_LOAD
  then (overlay (fst st) (ph_vaddr ph) (slice (ph_off ph) (ph_filesz ph)), Z.max (snd st) (ph_vaddr ph + ph_memsz ph))
  else st.
(** A segment that can be loaded. *)
Definition ph_ok (ph : proghdr) : Prop := ph_type ph = ELF_PROG_LOAD ->
  0 <= ph_vaddr ph /\ ph_vaddr ph mod 4096 = 0 /\ 0 <= ph_filesz ph <= ph_memsz ph /\
  0 < ph_vaddr ph + ph_memsz ph < KERNBASE /\ 0 <= ph_off ph /\ ph_off ph + ph_filesz ph <= Z.of_nat (length file).
Lemma load_seg_ge phs st : snd st <= snd (fold_left load_seg phs st).
Proof.
  revert st. induction phs as [|ph phs IH]; intros st; [done|]. cbn. etrans; [|apply IH]. unfold load_seg. case_match; cbn; lia.
Qed.
Lemma load_seg_lt phs st : Forall ph_ok phs -> 0 <= snd st < KERNBASE -> 0 <= snd (fold_left load_seg phs st) < KERNBASE.
Proof.
  intros Hok. revert st. induction Hok as [|ph phs Hph _ IH]; intros st Hst; [done|]. cbn. apply IH. unfold load_seg.
  destruct (Z.eqb_spec (ph_type ph) ELF_PROG_LOAD); [|done]. cbn. destruct (Hph ltac:(done)) as (? & _ & _ & ? & _). lia.
Qed.

(** A segment that [exec] can handle, whether or not it loads it: it is aligned and
    does not wrap around, and memory up to page [B] is enough for it. *)
Definition ph_sane (B : Z) (ph : proghdr) : Prop := ph_type ph = ELF_PROG_LOAD ->
  0 <= ph_vaddr ph /\ ph_vaddr ph mod 4096 = 0 /\ 0 <= ph_filesz ph /\ 0 <= ph_memsz ph /\ ph_vaddr ph + ph_memsz ph < 2 ^ 32 /\
  0 <= ph_off ph < 2 ^ 32 /\ (ph_vaddr ph + ph_memsz ph < KERNBASE -> pgs (ph_vaddr ph + ph_memsz ph) <= B).
Lemma ph_ok_sane B phs st : Z.of_nat (length file) < 2 ^ 31 -> Forall ph_ok phs -> pgs (snd (fold_left load_seg phs st)) <= B ->
  Forall (ph_sane B) phs.
Proof.
  intros Hlen Hok. revert st. induction Hok as [|ph phs Hph _ IH]; intros st HB; [constructor|]. cbn in HB. constructor; [|by eapply IH].
  intros Hty. destruct (Hph Hty) as (H1 & H2 & H3 & H4 & H5 & H6). change KERNBASE with 0x80000000 in *.
  pose proof (load_seg_ge phs (load_seg st ph)) as Hge. unfold load_seg in Hge at 1. rewrite (proj2 (Z.eqb_eq _ _) Hty) in Hge. cbn [snd] in Hge.
  split_and!; try done; try lia. intros _. etrans; [|exact HB]. unfold pgs. zlia.
Qed.

(** One segment, and the [rest] of the program; or the file is not executable. *)
Lemma load_segment oth d B0 B v f pr T U l img sz ph (rest : Z -> M (xst F) (option Z)) (Q : option Z -> xst F -> Prop) :
  let sz' := Z.max sz (ph_vaddr ph + ph_memsz ph) in
  Z.of_nat (length file) < 2 ^ 31 -> B0 <= B -> loaded v oth d T U l img sz -> Open f -> 0 <= sz < KERNBASE -> pgs sz <= B0 ->
  (need T (pgs sz) B <= length l)%nat -> ph_type ph = ELF_PROG_LOAD -> ph_sane B0 ph -> ph_filesz ph <= ph_memsz ph ->
  (forall k T' U' l' f', space (set_vmk k v) oth d T' U' l' -> same_on oth (vmem v) (vmem (set_vmk k v)) -> Open f' -> ~ ph_ok ph ->
     Q None (mkx (set_vmk k v, f') pr)) ->
  (forall k T' U' l' f', loaded (set_vmk k v) oth d T' U' l' (overlay img (ph_vaddr ph) (slice (ph_off ph) (ph_filesz ph))) sz' ->
     same_on oth (vmem v) (vmem (set_vmk k v)) -> Open f' -> 0 <= sz' < KERNBASE -> pgs sz' <= B0 -> (need T' (pgs sz') B <= length l')%nat ->
     wp (rest sz') Q (mkx (set_vmk k v, f') pr)) ->
  wp (sz <-- on_v (allocuvm end_ d sz (u32 (ph_vaddr ph + ph_memsz ph))) ;;
      if sz =? 0 then ret None
      else
        r <-- on_sys (loaduvm (a_readi ip) d (ph_vaddr ph) (ph_off ph) (ph_filesz ph)) ;;
        if r <? 0 then ret None else rest sz) Q (mkx (v, f) pr).
Proof.
  intros sz' Hfile HBB Hld HO Hsz HB Hneed Hty Hph Hge HN HS. destruct (Hph Hty) as (Hva & Hal & Hfs & Hms & Hwrap & Hpo & HBn).
  change KERNBASE with 0x80000000 in *. rewrite (u32_id (_ + _)) by lia. apply wp_bind, wp_zoom, wp_zoom. cbn [x_sys fst].
  destruct (decide (0x80000000 <= ph_vaddr ph + ph_memsz ph)) as [Hbig|Hfit].
  { unfold wp at 1. unfold allocuvm. rewrite (proj2 (Z.leb_le _ _)) by done. unfold ret at 1, set_x_sys. cbn [fst snd x_proc x_sys].
    apply wp_ret. pose proof (set_vmk_id v) as Hid. rewrite <- Hid. apply (HN _ T U l); rewrite ?Hid; [apply Hld|done|done|].
    intros Hk. destruct (Hk Hty) as (_ & _ & _ & ? & _). change KERNBASE with 0x80000000 in *. lia. }
  specialize (HBn ltac:(lia)). assert (HB1 : pgs sz' <= B0) by (unfold sz', pgs in *; zlia).
  eapply wp_mono; [apply (alloc_seg end_ data v oth d T U l img sz _ B); done || (change KERNBASE with 0x80000000; lia) || (etrans; [exact HB1|done])|].
  intros r v1 (-> & k1 & T1 & U1 & l1 & -> & Hld1 & Hs1 & Hneed1). fold sz' in Hld1, Hneed1 |- *. unfold set_x_sys. cbn [snd x_proc].
  destruct (Z.eqb_spec sz' 0) as [Hz|Hnz].
  { apply wp_ret, (HN _ T1 U1 l1); [apply Hld1|done|done|]. intros Hk. destruct (Hk Hty) as (_ & _ & _ & ? & _). unfold sz' in *. lia. }
  apply wp_bind, wp_zoom. cbn [x_sys].
  eapply wp_mono; [apply (loaduvm_wp (set_vmk k1 v) f oth d T1 U1 l1); [apply Hld1|done|lia|done|lia|lia|lia|done|]|].
  { intros m Hm1 Hm2. destruct (ld_in _ _ _ _ _ _ _ _ _ _ Hld1 m) as (p & ->); [unfold sz', pgs; zlia|done]. }
  intros r [v2 f2] (Hc & HO2 & Hr). cbn [fst snd] in *. unfold set_x_sys. cbn [x_proc].
  pose proof (copied_same _ _ _ _ _ _ _ _ _ _ _ (ld_space _ _ _ _ _ _ _ _ _ _ Hld1) Hc) as Hs2. pose proof Hc as ((k2 & ->) & _).
  assert (Hle : ph_vaddr ph + Z.of_nat (length (slice (ph_off ph) (ph_filesz ph))) <= sz')
    by (pose proof (slice_le (ph_off ph) (ph_filesz ph) Hfs); unfold sz'; lia).
  pose proof (loaded_put _ _ _ _ _ _ _ _ _ _ _ _ _ Hld1 Hle Hc) as Hld2. change (set_vmk k2 (set_vmk k1 v)) with (set_vmk k2 v) in *.
  assert (Hs : same_on oth (vmem v) (vmem (set_vmk k2 v))) by (by eapply same_trans).
  destruct Hr as [[-> _]|(-> & Hpos & Hshort)].
  - replace (0 <? 0) with false by done. apply (HS k2 T1 U1 l1); try done. unfold sz'. lia.
  - apply wp_ret, (HN _ T1 U1 l1); [apply Hld2|done|done|]. intros Hk. destruct (Hk Hty) as (_ & _ & _ & _ & _ & ?). lia.
Qed.

(** The state after the loop, and the outcome. *)
Definition load_run v oth d B0 B pr (st : (Z -> Z) * Z) (r : option Z) (x : xst F) : Prop :=
  exists k f' T' U' l', x = mkx (set_vmk k v, f') pr /\ space (set_vmk k v) oth d T' U' l' /\
    same_on oth (vmem v) (vmem (set_vmk k v)) /\ Open f' /\
    (r = None \/ r = Some (snd st) /\ loaded (set_vmk k v) oth d T' U' l' (fst st) (snd st) /\ 0 <= snd st < KERNBASE /\
       pgs (snd st) <= B0 /\ (need T' (pgs (snd st)) B <= length l')%nat).
Lemma load_run_none v oth d B0 B pr st k f T U l : space (set_vmk k v) oth d T U l -> same_on oth (vmem v) (vmem (set_vmk k v)) -> Open f ->
  load_run v oth d B0 B pr st None (mkx (set_vmk k v, f) pr).
Proof. intros. exists k, f, T, U, l. split_and!; [done..|by left]. Qed.
Lemma load_run_here v oth d B0 B pr st f T U l : space v oth d T U l -> Open f -> load_run v oth d B0 B pr st None (mkx (v, f) pr).
Proof. intros. rewrite <- (set_vmk_id v) at 2. apply (load_run_none _ _ _ _ _ _ _ _ _ T U l); by rewrite ?set_vmk_id. Qed.

Lemma exec_load_wp oth d B0 B n : Z.of_nat (length file) < 2 ^ 31 -> B0 <= B -> forall off img sz v f pr T U l,
  let st := fold_left load_seg (headers off n) (img, sz) in
  loaded v oth d T U l img sz -> Open f -> 0 <= sz < KERNBASE -> 0 <= off < 2 ^ 32 -> pgs sz <= B0 ->
  Forall (ph_sane B0) (headers off n) -> (need T (pgs sz) B <= length l)%nat ->
  wp (exec_load end_ d ip n off sz) (fun r x => load_run v oth d B0 B pr st r x /\
    (off + 32 * Z.of_nat n <= Z.of_nat (length file) -> Forall ph_ok (headers off n) -> r <> None)) (mkx (v, f) pr).
Proof.
  intros Hfile HBB. induction n as [|n IH]; intros off img sz v f pr T U l st Hld HO Hsz Hoff HB Hok Hneed.
  { apply wp_ret. split; [|done]. exists (vmk v), f, T, U, l. rewrite set_vmk_id. split_and!; [done|apply Hld|done|done|by right]. }
  cbn [headers] in *. apply Forall_cons in Hok as [Hph Hok]. cbn [exec_load]. apply wp_bind, wp_zoom, wp_zoom. cbn [x_sys snd].
  eapply wp_mono; [apply readi_slice; [done|done|lia|done]|]. intros [r bs] f1 (Ebs & HO1 & Hrb). cbn [fst snd] in Ebs, Hrb. subst bs.
  unfold set_x_sys. cbn [fst x_proc]. destruct Hrb as [[-> Hin]|[Hlt Hin]]; cycle 1.
  { rewrite (proj2 (Z.eqb_neq r _)) by lia. cbn [negb]. apply wp_ret. split; [|unfold sizeof_proghdr in *; lia].
    apply (load_run_here _ _ _ _ _ _ _ _ T U l); [apply Hld|done]. }
  rewrite Z.eqb_refl. cbn [negb]. set (ph := decode_ph (slice off sizeof_proghdr)) in *.
  assert (Hu : u32 (off + sizeof_proghdr) = off + sizeof_proghdr) by (apply u32_id; unfold sizeof_proghdr in *; lia). rewrite Hu.
  assert (Hst : st = fold_left load_seg (headers (off + sizeof_proghdr) n) (load_seg (img, sz) ph)) by done.
  clearbody st. unfold load_seg at 2 in Hst. cbn [fst snd] in Hst.
  assert (Hoff' : 0 <= off + sizeof_proghdr < 2 ^ 32) by (unfold sizeof_proghdr in *; lia).
  destruct (Z.eqb_spec (ph_type ph) ELF_PROG_LOAD) as [Hty|Hty]; cbn [negb]; cycle 1.
  { subst st. eapply wp_mono; [by apply (IH (off + sizeof_proghdr) img sz v f1 pr T U l)|]. intros r x [Hr Hn]. split; [done|].
    intros H1 [_ H2]%Forall_cons. apply Hn; [unfold sizeof_proghdr; lia|done]. }
  destruct (Z.ltb_spec (ph_memsz ph) (ph_filesz ph)) as [Hlt|Hge].
  { apply wp_ret. split; [|intros _ [Hk _]%Forall_cons; destruct (Hk Hty) as (_ & _ & ? & _); lia].
    apply (load_run_here _ _ _ _ _ _ _ _ T U l); [apply Hld|done]. }
  apply (load_segment oth d B0 B v f1 pr T U l img sz ph); try done.
  - intros k T1 U1 l1 f2 Hsp Hs HO2 Hnok. split; [by apply (load_run_none _ _ _ _ _ _ _ _ _ T1 U1 l1)|]. by intros _ [? _]%Forall_cons.
  - intros k2 T1 U1 l1 f2 Hld2 Hs HO2 Hsz1 HB1 Hneed1. subst st.
    eapply wp_mono; [by apply (IH (off + sizeof_proghdr) _ _ (set_vmk k2 v) f2 pr T1 U1 l1 Hld2)|].
    intros r x [(k & f3 & T3 & U3 & l3 & -> & Hsp3 & Hs3 & HO3 & Hr3) Hn3]. split.
    + exists k, f3, T3, U3, l3. change (set_vmk k (set_vmk k2 v)) with (set_vmk k v) in *. split_and!; [done..|by eapply same_trans|done|done].
    + intros H1 [_ H2]%Forall_cons. apply Hn3; [unfold sizeof_proghdr; lia|done].
Qed.
End load.
