(* ===== verification/ExecStack.v ===== *)
(** * exec: the stack and the theorem

    The guard page, the arguments on the new stack, the commit, and what a
    successful or a failed [exec] leaves behind. *)

From S2P Require Import Prelude Params Strings Kalloc Vm VmSpec VmUser Proc File Exec ExecSpec.

(** Words of the stack. *)
Definition words (ws : list Z) : list Z := concat (map (le_bytes 4) ws).
Lemma length_words ws : length (words ws) = (4 * length ws)%nat.
Proof. induction ws as [|w ws IH]; [done|]. unfold words in *. cbn [map concat]. rewrite length_app, IH. cbn [length le_bytes]. lia. Qed.
Lemma words_nth ws i w r : ws !! i = Some w -> (r < 4)%nat -> nth (4 * i + r) (words ws) 0 = nth r (le_bytes 4 w) 0.
Proof.
  revert i. induction ws as [|v ws IH]; intros i Hi Hr; [done|]. change (words (v :: ws)) with (le_bytes 4 v ++ words ws).
  destruct i as [|i]; cbn [lookup list_lookup] in Hi.
  - injection Hi as ->. by rewrite app_nth1 by (by rewrite length_le_bytes).
  - rewrite app_nth2 by (rewrite length_le_bytes; lia). rewrite length_le_bytes, <- (IH i) by done. f_equal. lia.
Qed.
Lemma mask_word x : 0 <= x < 2 ^ 32 -> Z.land x (u32 (Z.lnot 3)) = x - x mod 4.
Proof.
  intros Hx. change (u32 (Z.lnot 3)) with (Z.shiftl (Z.ones 30) 2).
  replace (x - x mod 4) with (Z.shiftl (Z.shiftr x 2) 2) by (rewrite Z.shiftl_mul_pow2, Z.shiftr_div_pow2 by lia; change (2 ^ 2) with 4; zlia).
  apply Z.bits_inj'. intros i Hi. rewrite Z.land_spec, !Z.shiftl_spec by lia. destruct (Z.ltb_spec i 2).
  - rewrite !(Z.testbit_neg_r _ (i - 2)) by lia. by rewrite andb_false_r.
  - rewrite Z.shiftr_spec by lia. replace (i - 2 + 2) with i by lia. rewrite Z.testbit_ones_nonneg by lia.
    destruct (Z.ltb_spec (i - 2) 30); [by rewrite andb_true_r|]. rewrite andb_false_r. symmetry.
    destruct (decide (x = 0)) as [->|]; [apply Z.bits_0|]. apply Z.bits_above_log2; [lia|].
    assert (Z.log2 x < 32) by (apply Z.log2_lt_pow2; lia). lia.
Qed.

(** ** The strings on the stack *)

(** Where a string of length [n] goes below [sp]. *)
Definition below (sp : Z) (s : list Z) : Z := let a := sp - (Z.of_nat (length s) + 1) in a - a mod 4.
Fixpoint arg_ptrs (argv : list (list Z)) (sp : Z) : list Z :=
  match argv with
  | [] => []
  | s :: argv' => below sp s :: arg_ptrs argv' (below sp s)
  end.
Fixpoint arg_sp (argv : list (list Z)) (sp : Z) : Z :=
  match argv with
  | [] => sp
  | s :: argv' => arg_sp argv' (below sp s)
  end.
Fixpoint arg_image (img : Z -> Z) (argv : list (list Z)) (sp : Z) : Z -> Z :=
  match argv with
  | [] => img
  | s :: argv' => arg_image (overlay img (below sp s) (s ++ [0])) argv' (below sp s)
  end.
Lemma below_le sp s : below sp s + Z.of_nat (length (s ++ [0])) <= sp /\ below sp s mod 4 = 0 /\ sp - Z.of_nat (length s) - 4 <= below sp s.
Proof. unfold below. rewrite length_app. cbn [length]. zlia. Qed.
Lemma arg_sp_le argv sp : arg_sp argv sp <= sp.
Proof. revert sp. induction argv as [|s argv IH]; intros sp; cbn; [lia|]. pose proof (IH (below sp s)). pose proof (below_le sp s). lia. Qed.
Lemma arg_sp_align argv sp : sp mod 4 = 0 -> arg_sp argv sp mod 4 = 0.
Proof. revert sp. induction argv as [|s argv IH]; intros sp H; cbn; [done|]. apply IH, below_le. Qed.
Lemma length_arg_ptrs argv sp : length (arg_ptrs argv sp) = length argv.
Proof. revert sp. induction argv; intros; cbn; auto. Qed.
(** The strings do not touch what lies above or below them. *)
Lemma arg_image_out img argv sp x : sp <= x \/ x < arg_sp argv sp -> arg_image img argv sp x = img x.
Proof.
  revert img sp. induction argv as [|s argv IH]; intros img sp Hx; [done|]. cbn in *. pose proof (below_le sp s).
  pose proof (arg_sp_le argv (below sp s)). rewrite IH by lia. unfold overlay. by rewrite decide_False by lia.
Qed.
Lemma arg_image_in img argv sp i s p : argv !! i = Some s -> arg_ptrs argv sp !! i = Some p ->
  arg_sp argv sp <= p /\ p + Z.of_nat (length (s ++ [0])) <= sp /\
  forall j b, (s ++ [0]) !! j = Some b -> arg_image img argv sp (p + Z.of_nat j) = u8 b.
Proof.
  revert img sp i. induction argv as [|s' argv IH]; intros img sp i Hs Hp; [done|]. pose proof (below_le sp s'). cbn [arg_sp].
  destruct i as [|i]; cbn in Hs, Hp.
  - simplify_eq. split_and!; [apply arg_sp_le|lia|]. intros j b Hj. cbn [arg_image]. rewrite arg_image_out by lia. unfold overlay.
    apply lookup_lt_Some in Hj as Hlt. rewrite decide_True by lia. replace (Z.to_nat _) with j by lia. by rewrite (nth_lookup_Some _ _ _ _ Hj).
  - destruct (IH (overlay img (below sp s') (s' ++ [0])) (below sp s') i Hs Hp) as (H1 & H2 & H3). split_and!; [lia|lia|]. exact H3.
Qed.

Section stack.
Context {F : Type} (end_ : Z) `{!Linked end_} {G : Pages} (data : Z).
Notation space := (space end_ data).
Notation copied_out := (copied_out end_ data).
Notation loaded := (loaded end_ data).
Notation need := VmUser.need.

(** ** The guard page *)

Lemma clr_user a : a mod 4096 = 0 -> clr (a + 7) PTE_U = a + 3.
Proof.
  intros Ha. rewrite <- !lor_add by done. change PTE_U with (2 ^ 2). apply Z.bits_inj'. intros i Hi.
  rewrite clr_pow2_bit, !Z.lor_spec by lia. case_decide as E; [subst i|].
  - assert (Hb : Z.testbit a 2 = false); [|by rewrite Hb].
    replace a with (Z.shiftl (a / 4096) 12) by (rewrite Z.shiftl_mul_pow2 by lia; change (2 ^ 12) with 4096; zlia).
    by rewrite Z.shiftl_spec_low.
  - f_equal. destruct (decide (i < 3)) as [|Hge]; [|by rewrite !Z.bits_above_log2 by (cbn; lia)].
    assert (Hc : i = 0 \/ i = 1) by lia. by destruct Hc as [->| ->].
Qed.
Lemma clearpteu_wp v oth d T U l n p : space v oth d T U l -> U !! n = Some (p, 7) ->
  wp (clearpteu d (4096 * n)) (fun _ v' => exists k, v' = set_vmk k v /\ space v' oth d T (<[n := (p, 3)]> U) l /\
    same_on (upages U ++ oth) (vmem v) (vmem v')) v.
Proof.
  intros Hsp Hn. destruct (space_user _ _ _ _ _ _ _ _ _ _ _ Hsp Hn) as [He Hr]. destruct (entry_table _ _ _ _ _ _ He) as (t & Ht).
  pose proof (sp_tab _ _ _ _ _ _ _ _ Hsp) as Htb. unfold clearpteu. apply wp_bind.
  eapply (walk_read end_ v _ d T l n t); [done|lia|done|by eapply (table_nonzero end_)|].
  rewrite (proj2 (Z.eqb_neq _ 0)) by (by eapply (table_nonzero end_)). apply wp_bind, wp_gets.
  assert (Hrd : load32 (vmem v) (t + 4 * (n mod 1024)) = pte (vmem v) T n) by (unfold pte; by rewrite Ht). rewrite Hrd.
  pose proof He as (Hpg & _ & _ & He'). destruct (page_v2p end_ p Hpg) as (_ & Hal & Hpr). rewrite He', clr_user by done.
  destruct (pte_store end_ v _ d T l n t (v2p p + 3) Htb Ht) as (Htb' & Hpte & Hs & _). apply wp_modify.
  change (set_vmk (set_kmemory ?m (vmk v)) v) with (with_mem m v). eexists. split; [done|]. split; [|exact Hs]. split.
  - eapply tables_perm; [|exact Htb']. apply Permutation_app_tail. rewrite <- (upages_delete U n p 7 Hn).
    by rewrite <- insert_delete_eq, upages_insert by apply lookup_delete_eq.
  - destruct Hsp as [_ (H1 & H2 & H3)]. split_and!.
    + intros m Hm. cbn. rewrite Hpte. destruct (decide (m = n)) as [->|].
      * rewrite lookup_insert_eq. split_and!; [done|lia|lia|done|]. apply u32_id. lia.
      * rewrite lookup_insert_ne by done. by apply H1.
    + intros m pf [(<- & _)|(_ & ?)]%lookup_insert_Some; eauto.
    + intros m Hm. cbn. rewrite Hpte, decide_False by lia. by apply H3.
Qed.

(** ** The new address space with its stack *)

(** The program below page [g], the guard at [g], the stack at [g + 1]. *)
Record ready v oth d T U l (img : Z -> Z) (g : Z) : Prop := {
  rd_space : space v oth d T U l;
  rd_in n : 0 <= n < g -> exists p, U !! n = Some (p, 7);
  rd_guard : exists p, U !! g = Some (p, 3);
  rd_stack : exists p, U !! (g + 1) = Some (p, 7);
  rd_out n : g + 2 <= n -> U !! n = None;
  rd_img x : 0 <= x < 4096 * (g + 2) -> ubyte (vmem v) U x = img x
}.
Lemma loaded_ready v oth d T U l img g : 0 <= g -> loaded v oth d T U l img (4096 * (g + 2)) ->
  wp (clearpteu d (4096 * g)) (fun _ v' => exists k U', v' = set_vmk k v /\ ready v' oth d T U' l img g /\ same_on oth (vmem v) (vmem v')) v.
Proof.
  intros Hg [Hsp Hin Hout Himg _]. replace (pgs (4096 * (g + 2))) with (g + 2) in * by (unfold pgs; zlia).
  destruct (Hin g ltac:(lia)) as (p & Hp). eapply wp_mono; [by apply (clearpteu_wp v oth d T U l g p)|].
  intros [] v' (k & -> & Hsp' & Hs). exists k, (<[g := (p, 3)]> U). split_and!; [done| |eapply same_sub; [|exact Hs]; set_solver].
  split; [done|..].
  - intros n Hn. rewrite lookup_insert_ne by lia. apply Hin. lia.
  - exists p. apply lookup_insert_eq.
  - rewrite lookup_insert_ne by lia. apply Hin. lia.
  - intros n Hn. rewrite lookup_insert_ne by lia. by apply Hout.
  - intros x Hx. rewrite <- (Himg x Hx). unfold ubyte. destruct (Hin (x / 4096) ltac:(zlia)) as (q & Hq). rewrite Hq.
    assert (Hq' : exists f, (<[g := (p, 3)]> U : umap) !! (x / 4096) = Some (q, f)).
    { destruct (decide (x / 4096 = g)) as [E|]; [|by rewrite lookup_insert_ne by done; eauto].
      rewrite E, lookup_insert_eq. rewrite E, Hp in Hq. simplify_eq. eauto. }
    destruct Hq' as (f & ->). apply (Hs q); [|zlia]. rewrite elem_of_app. left. by eapply upages_elem.
Qed.
(** A copy to the new stack fails if it reaches the guard page. *)
Lemma ready_push v oth d T U l img g va bs : ready v oth d T U l img g -> 0 <= g -> 4096 * (g + 2) <= KERNBASE ->
  0 <= va -> va + Z.of_nat (length bs) <= 4096 * (g + 2) ->
  wp (copyout d va bs (Z.of_nat (length bs))) (fun r v' => exists k bs', v' = set_vmk k v /\
    ready v' oth d T U l (overlay img va bs') g /\ same_on oth (vmem v) (vmem v') /\ (r = -1 \/ r = 0 /\ bs' = bs) /\
    (4096 * (g + 1) <= va -> r = 0) /\ (r = 0 -> 4096 * g < va + Z.of_nat (length bs) -> bs <> [] -> 4096 * (g + 1) <= va)) v.
Proof.
  intros [Hsp Hin Hgu Hst Hout Himg] Hg Hk H1 H2.
  eapply wp_mono; [apply (copyout_any end_ data v oth d T U l va bs); [done|lia|lia|]|].
  { intros n Hn1 Hn2. destruct (decide (n < g)); [destruct (Hin n ltac:(lia)) as (p & ->); done|].
    destruct (decide (n = g)) as [->|]; [by destruct Hgu as (p & ->)|]. replace n with (g + 1) by lia. by destruct Hst as (p & ->). }
  intros r v' (bs' & Hc & _ & Hr & Hall & Hacc). assert (Hs : same_on oth (vmem v) (vmem v')) by (by eapply copied_same).
  destruct Hc as ((k & ->) & Hsp' & _ & Hu). exists k, bs'. split_and!; [done| |done|done| |].
  - split; [done..|]. intros x Hx. rewrite Hu. unfold overlay. case_decide; [done|]. by apply Himg.
  - intros Hva. apply Hall. intros n Hn1 Hn2. assert (n = g + 1) as -> by lia. destruct Hst as (p & Hp). by exists p, 7.
  - intros Hr0 Hend Hne. destruct (decide (4096 * (g + 1) <= va)) as [|Hlo]; [done|exfalso].
    destruct (Hacc Hr0 Hne g ltac:(lia) ltac:(lia)) as (p & f & Hp & Hf). destruct Hgu as (q & Hq). rewrite Hq in Hp. by simplify_eq.
Qed.

Lemma push_args_wp oth d T U l g argv : 0 <= g -> 4096 * (g + 2) <= KERNBASE -> forall v (f : F) pr img argc sp ptrs,
  ready v oth d T U l img g -> 0 <= arg_sp argv sp -> 4096 * (g + 1) <= sp <= 4096 * (g + 2) ->
  wp (push_args d argv argc sp ptrs) (fun r x => exists k img', x = mkx (set_vmk k v, f) pr /\ ready (set_vmk k v) oth d T U l img' g /\
    same_on oth (vmem v) (vmem (set_vmk k v)) /\
    (r = None \/ r = Some (arg_sp argv sp, ptrs ++ arg_ptrs argv sp) /\ img' = arg_image img argv sp /\
       4096 * (g + 1) <= arg_sp argv sp /\ (argc <= MAXARG -> argc + Z.of_nat (length argv) <= MAXARG)) /\
    (4096 * (g + 1) <= arg_sp argv sp -> argc + Z.of_nat (length argv) <= MAXARG -> r <> None)) (mkx (v, f) pr).
Proof.
  intros Hg Hk. induction argv as [|s argv IH]; intros v f pr img argc sp ptrs Hrd Hlo Hhi.
  { apply wp_ret. rewrite app_nil_r. exists (vmk v), img. rewrite set_vmk_id. cbn [length arg_sp]. split_and!; [done..| |done].
    right. split_and!; [done|done|lia|lia]. }
  cbn [push_args arg_sp arg_ptrs arg_image length] in *. change MAXARG with 32 in *. destruct (Z.leb_spec 32 argc) as [Hbig|Hargc].
  { apply wp_ret. exists (vmk v), img. rewrite set_vmk_id. split_and!; [done..|by left|lia]. }
  pose proof (below_le sp s) as (Hb1 & Hb2 & Hb4). pose proof (arg_sp_le argv (below sp s)) as Hb3. change KERNBASE with 0x80000000 in *.
  assert (Hsp : Z.land (u32 (sp - (Z.of_nat (length s) + 1))) (u32 (Z.lnot 3)) = below sp s).
  { rewrite length_app in Hb1. cbn [length] in Hb1. rewrite u32_id by lia. by apply mask_word; lia. }
  rewrite Hsp. assert (Hlen : Z.of_nat (length s) + 1 = Z.of_nat (length (s ++ [0]))) by (rewrite length_app; cbn; lia). rewrite Hlen.
  apply wp_bind, wp_zoom, wp_zoom. cbn [x_sys fst].
  eapply wp_mono; [apply (ready_push v oth d T U l img g); [done|done|done|lia|lia]|].
  intros r v1 (k1 & bs' & -> & Hrd1 & Hs1 & Hr & Hfit & Hfit'). unfold set_x_sys. cbn [snd x_proc]. destruct Hr as [->|[-> ->]].
  { replace (-1 <? 0) with true by done. apply wp_ret. exists k1, (overlay img (below sp s) bs'). split_and!; [done..|by left|lia]. }
  specialize (Hfit' eq_refl ltac:(lia) ltac:(by destruct s)). replace (0 <? 0) with false by done.
  eapply wp_mono; [apply (IH (set_vmk k1 v) f pr (overlay img (below sp s) (s ++ [0])) (argc + 1)); [done|lia|lia]|].
  intros r x (k & img' & -> & Hrd2 & Hs2 & Hr & Hn). exists k, img'. split_and!; [done|done|by eapply same_trans| |].
  - destruct Hr as [->|(-> & -> & H1 & H2)]; [by left|right]. rewrite <- app_assoc. split_and!; [done|done|done|lia].
  - intros H1 H2. apply Hn; [done|lia].
Qed.

(** What [main] finds on its stack. *)
Definition stack_image (img : Z -> Z) (argv : list (list Z)) (top : Z) : Z -> Z :=
  let sp := arg_sp argv top in
  overlay (arg_image img argv top) (sp - 4 * (4 + Z.of_nat (length argv))) (ustack sp (arg_ptrs argv top)).
Definition stack_sp (argv : list (list Z)) (top : Z) : Z := arg_sp argv top - 4 * (4 + Z.of_nat (length argv)).

Lemma length_ustack sp ptrs : length (ustack sp ptrs) = (4 * (4 + length ptrs))%nat.
Proof. change (ustack sp ptrs) with (words ([0xffffffff; Z.of_nat (length ptrs); u32 (sp - (Z.of_nat (length ptrs) + 1) * 4)] ++ ptrs ++ [0])).
  rewrite length_words, !length_app. cbn. lia. Qed.
(** The outcome of [exec_stack]; it fails if the arguments do not fit. *)
Definition stack_run v oth d (f : F) pr img (g : Z) argv (r : option (Z * Z)) (x : xst F) : Prop :=
  exists k T' U' l', x = mkx (set_vmk k v, f) pr /\ space (set_vmk k v) oth d T' U' l' /\ same_on oth (vmem v) (vmem (set_vmk k v)) /\
    (r = None \/ r = Some (4096 * (g + 2), stack_sp argv (4096 * (g + 2))) /\
       ready (set_vmk k v) oth d T' U' l' (stack_image img argv (4096 * (g + 2))) g /\ 4096 * (g + 2) < KERNBASE /\
       4096 * (g + 1) <= stack_sp argv (4096 * (g + 2)) /\ Z.of_nat (length argv) <= MAXARG) /\
    (4096 * (g + 2) < KERNBASE -> 4096 * (g + 1) <= stack_sp argv (4096 * (g + 2)) -> Z.of_nat (length argv) <= MAXARG -> r <> None).

(** The arguments and [ustack], once the pages are there. *)
Lemma fill_stack oth d v (f : F) pr T U l img g argv : let top := 4096 * (g + 2) in
  ready v oth d T U l img g -> 0 <= g -> top < KERNBASE -> 0 <= stack_sp argv top ->
  wp (r <-- push_args d argv 0 top [] ;;
      match r with
      | None => ret None
      | Some (sp, ptrs) =>
          let n := (3 + Z.of_nat (length ptrs) + 1) * 4 in
          let bytes := ustack sp ptrs in
          let sp := u32 (sp - n) in
          r <-- on_v (copyout d sp bytes n) ;;
          if r <? 0 then ret None else ret (Some (top, sp))
      end) (stack_run v oth d f pr img g argv) (mkx (v, f) pr).
Proof.
  intros top Hrd Hg Hk Hpos. pose proof (arg_sp_le argv top) as Hsp. unfold stack_sp in Hpos. set (sp := arg_sp argv top) in *.
  change KERNBASE with 0x80000000 in *. assert (Hk' : top <= 0x80000000) by lia. assert (Htop : top = 4096 * (g + 2)) by done.
  apply wp_bind. eapply wp_mono; [apply (push_args_wp oth d T U l g argv Hg Hk' v f pr img 0 top []); [done|fold sp; lia|lia]|].
  intros r x (k3 & img3 & -> & Hrd3 & Hs3 & Hr & Hn). fold sp in Hr, Hn |- *. destruct Hr as [->|(-> & -> & Hlo & Hargc)].
  { apply wp_ret. exists k3, T, U, l. split_and!; [done|apply Hrd3|done|by left|]. fold top. unfold stack_sp. fold sp. intros _ H1 H2.
    destruct (Hn ltac:(lia) ltac:(lia)). done. }
  specialize (Hargc ltac:(done)). cbn [app]. pose proof (length_ustack sp (arg_ptrs argv top)) as Hul. rewrite length_arg_ptrs in Hul |- *.
  replace ((3 + Z.of_nat (length argv) + 1) * 4) with (Z.of_nat (length (ustack sp (arg_ptrs argv top)))) by lia.
  assert (Hse : stack_sp argv top = sp - 4 * (4 + Z.of_nat (length argv))) by done.
  replace (u32 (sp - _)) with (stack_sp argv top) by (rewrite u32_id; lia).
  cbv zeta. apply wp_bind, wp_zoom, wp_zoom. cbn [x_sys fst].
  eapply wp_mono; [apply (ready_push (set_vmk k3 v) oth d T U l (arg_image img argv top) g); [exact Hrd3|done|done|lia|lia]|].
  intros r v4 (k4 & bs' & -> & Hrd4 & Hs4 & Hr & Hfit & Hfit'). change (set_vmk k4 (set_vmk k3 v)) with (set_vmk k4 v) in *. unfold set_x_sys. cbn [snd x_proc].
  assert (Hs : same_on oth (vmem v) (vmem (set_vmk k4 v))) by (by eapply same_trans). destruct Hr as [->|[-> ->]].
  - replace (-1 <? 0) with true by done. apply wp_ret. exists k4, T, U, l. split_and!; [done|apply Hrd4|done|by left|].
    fold top. intros _ H1 _. by specialize (Hfit H1).
  - replace (0 <? 0) with false by done. apply wp_ret. exists k4, T, U, l. split_and!; [done|apply Hrd4|done| |done].
    right. fold top. split_and!; [done|exact Hrd4|done| |done]. apply Hfit'; [done|lia|]. intros E%(f_equal length). cbn in E. lia.
Qed.
Lemma exec_stack_wp oth d v (f : F) pr T U l img sz argv : let g := pgs sz in
  loaded v oth d T U l img sz -> 0 <= sz < KERNBASE -> (need T g (g + 2) <= length l)%nat -> 0 <= stack_sp argv (4096 * (g + 2)) ->
  wp (exec_stack end_ d argv sz) (stack_run v oth d f pr img g argv) (mkx (v, f) pr).
Proof.
  intros g Hld Hsz Hneed Hpos. assert (Hg : 0 <= g <= 0x80000) by (unfold g, pgs; change KERNBASE with 0x80000000 in *; zlia).
  change KERNBASE with 0x80000000 in *.
  assert (Hld0 : loaded v oth d T U l img (4096 * g)).
  { destruct Hld as [H1 H2 H3 H4 H5]. assert (E : pgs (4096 * g) = g) by (unfold pgs; zlia). split; [done|by rewrite E..|].
    intros x Hx. apply H5. unfold g, pgs in *. zlia. }
  unfold exec_stack. rewrite roundup by (unfold g, pgs in *; zlia). change ((sz + 4095) / 4096) with g.
  change PGSIZE with 4096. replace (4096 * g + 2 * 4096) with (4096 * (g + 2)) by lia. rewrite u32_id by lia.
  set (top := 4096 * (g + 2)) in *. assert (Ept : pgs top = g + 2) by (unfold top, pgs; zlia).
  assert (Epg : pgs (4096 * g) = g) by (unfold pgs; zlia).
  apply wp_bind, wp_zoom, wp_zoom. cbn [x_sys fst]. destruct (decide (0x80000000 <= top)) as [Hbig|Hfits].
  { unfold wp at 1, allocuvm. rewrite (proj2 (Z.leb_le _ _)) by done. unfold ret at 1, set_x_sys. cbn [snd x_proc x_sys].
    apply wp_ret. exists (vmk v), T, U, l. rewrite set_vmk_id. split_and!; [done|apply Hld|done|by left|]. fold top. change KERNBASE with 0x80000000. lia. }
  eapply wp_mono; [apply (loaded_grow end_ data v oth d T U l img (4096 * g) top); [done|unfold top; lia|change KERNBASE with 0x80000000; lia|by rewrite Ept, Epg]|].
  intros r v1 (-> & k1 & T1 & U1 & l1 & -> & Hld1 & Hs1 & _). rewrite (proj2 (Z.eqb_neq top 0)) by (unfold top; lia).
  unfold set_x_sys. cbn [snd x_proc]. replace (u32 (top - 2 * 4096)) with (4096 * g) by (rewrite u32_id; unfold top in *; lia).
  apply wp_bind, wp_zoom, wp_zoom. cbn [x_sys fst]. eapply wp_mono; [apply (loaded_ready (set_vmk k1 v) oth d T1 U1 l1 img g); [lia|exact Hld1]|].
  intros [] v2 (k2 & U2 & -> & Hrd2 & Hs2). change (set_vmk k2 (set_vmk k1 v)) with (set_vmk k2 v) in *.
  unfold set_x_sys. cbn [snd x_proc].
  eapply wp_mono; [apply (fill_stack oth d (set_vmk k2 v) f pr T1 U2 l1 img g argv Hrd2); [lia|change KERNBASE with 0x80000000; lia|done]|].
  intros r x (k & T' & U' & l' & -> & Hsp' & Hs' & Hr). change (set_vmk k (set_vmk k2 v)) with (set_vmk k v) in *.
  exists k, T', U', l'. split_and!; [done|done| |apply Hr..]. do 2 (eapply same_trans; [eassumption|]). done.
Qed.

(** ** What the program sees *)

(** The word at user address [a]. *)
Definition uword (m : mem) (U : umap) (a : Z) : Z := le_value (map (fun i => ubyte m U (a + i)) [0; 1; 2; 3]).
Record sees (m : mem) (U : umap) (img : Z -> Z) (g : Z) (argv : list (list Z)) (esp : Z) : Prop := {
  se_prog x : 0 <= x < 4096 * g -> ubyte m U x = img x;
  se_pages n : accessible U n <-> 0 <= n < g \/ n = g + 1;
  se_esp : esp mod 4 = 0 /\ 4096 * (g + 1) <= esp < 4096 * (g + 2);
  se_ret : uword m U esp = 0xffffffff;
  se_argc : uword m U (esp + 4) = Z.of_nat (length argv);
  se_argv : uword m U (esp + 8) = esp + 12;
  se_arg i s : argv !! i = Some s -> exists p, uword m U (esp + 12 + 4 * Z.of_nat i) = p /\
    forall j b, (s ++ [0]) !! j = Some b -> ubyte m U (p + Z.of_nat j) = u8 b;
  se_null : uword m U (esp + 12 + 4 * Z.of_nat (length argv)) = 0
}.
Lemma sees_same m m' U img g argv esp : (forall x, ubyte m' U x = ubyte m U x) -> sees m U img g argv esp -> sees m' U img g argv esp.
Proof.
  intros Hm. assert (Hw : forall a, uword m' U a = uword m U a) by (intros a; unfold uword; cbn; by rewrite !Hm).
  intros [H1 H2 H3 H4 H5 H6 H7 H8]. split; try (by rewrite Hw); try done.
  - intros x Hx. rewrite Hm. by apply H1.
  - intros i s Hi. destruct (H7 i s Hi) as (p & Hp & Hs). exists p. rewrite Hw. split; [done|]. intros j b Hj. rewrite Hm. by apply Hs.
Qed.

(** Word [i] of [ustack]. *)
Lemma stack_word v oth d T U l img g argv i w : let top := 4096 * (g + 2) in let esp := stack_sp argv top in
  let ptrs := arg_ptrs argv top in
  ready v oth d T U l (stack_image img argv top) g -> 0 <= g -> 4096 * (g + 1) <= esp ->
  ([0xffffffff; Z.of_nat (length ptrs); u32 (arg_sp argv top - (Z.of_nat (length ptrs) + 1) * 4)] ++ ptrs ++ [0]) !! i = Some w ->
  uword (vmem v) U (esp + 4 * Z.of_nat i) = u32 w.
Proof.
  intros top esp ptrs [_ _ _ _ _ Himg] Hg Hfit Hi. pose proof (length_ustack (arg_sp argv top) ptrs) as Hul.
  apply lookup_lt_Some in Hi as Hlt. rewrite !length_app in Hlt. cbn [length] in Hlt. unfold ptrs in Hul, Hlt. rewrite length_arg_ptrs in Hul, Hlt.
  pose proof (arg_sp_le argv top) as Hsp.
  assert (Hb : forall r, (r < 4)%nat -> ubyte (vmem v) U (esp + 4 * Z.of_nat i + Z.of_nat r) = nth r (le_bytes 4 w) 0).
  { intros r Hr. rewrite Himg by (unfold esp, stack_sp, top in *; lia). unfold stack_image. fold ptrs. unfold overlay. fold (stack_sp argv top). fold esp.
    rewrite decide_True by (fold ptrs in Hul; unfold esp, stack_sp in *; lia). replace (Z.to_nat _) with (4 * i + r)%nat by lia.
    change (ustack (arg_sp argv top) ptrs) with (words ([0xffffffff; Z.of_nat (length ptrs); u32 (arg_sp argv top - (Z.of_nat (length ptrs) + 1) * 4)] ++ ptrs ++ [0])).
    rewrite (words_nth _ i w r Hi Hr). apply u8_id. apply (Forall_nth (fun b => 0 <= b < 256)); [apply le_bytes_range|by rewrite length_le_bytes]. }
  unfold uword. cbn [map]. pose proof (Hb 0%nat ltac:(lia)) as H0. pose proof (Hb 1%nat ltac:(lia)) as H1. pose proof (Hb 2%nat ltac:(lia)) as H2.
  pose proof (Hb 3%nat ltac:(lia)) as H3. change (Z.of_nat 0) with 0 in H0. change (Z.of_nat 1) with 1 in H1. change (Z.of_nat 2) with 2 in H2. change (Z.of_nat 3) with 3 in H3. rewrite H0, H1, H2, H3.
  change (le_value (le_bytes 4 w) = u32 w). rewrite le_value_bytes. done.
Qed.
Lemma ready_sees v oth d T U l img g argv : let top := 4096 * (g + 2) in
  ready v oth d T U l (stack_image img argv top) g -> 0 <= g -> top <= KERNBASE -> 4096 * (g + 1) <= stack_sp argv top ->
  Z.of_nat (length argv) <= MAXARG -> sees (vmem v) U img g argv (stack_sp argv top).
Proof.
  intros top Hrd Hg Hk Hfit Hargc. pose proof (arg_sp_le argv top) as Hle. change KERNBASE with 0x80000000 in *. change MAXARG with 32 in *.
  pose proof (fun i w => stack_word v oth d T U l img g argv i w Hrd Hg Hfit) as Hw. cbv zeta in Hw. fold top in Hw.
  set (esp := stack_sp argv top) in *. pose proof (length_arg_ptrs argv top) as Hlen. rewrite Hlen in Hw.
  pose proof Hrd as [Hsp Hin (pg & Hgu) (ps & Hst) Hout Himg]. pose proof (length_ustack (arg_sp argv top) (arg_ptrs argv top)) as Hul. split.
  - intros x Hx. rewrite Himg by lia. unfold stack_image. unfold overlay. fold (stack_sp argv top). fold esp. rewrite decide_False by lia.
    apply arg_image_out. right. unfold esp, stack_sp in Hfit. lia.
  - intros n. split.
    + intros (p & f & Hn & Hf). destruct (decide (g + 2 <= n)); [rewrite Hout in Hn by done; done|].
      destruct (decide (n = g)) as [->|]; [|assert (Hr : 0 <= n) by apply (proj1 (proj2 (sp_user _ _ _ _ _ _ _ _ Hsp)) _ _ Hn); lia].
      rewrite Hgu in Hn. by simplify_eq.
    + intros [Hn| ->]; [destruct (Hin n Hn) as (p & Hp)|]; by eexists _, 7.
  - split; [|unfold esp, stack_sp in *; lia]. unfold esp, stack_sp. pose proof (arg_sp_align argv top ltac:(unfold top; zlia)). zlia.
  - rewrite <- (Z.add_0_r esp). exact (Hw 0%nat _ eq_refl).
  - change (esp + 4) with (esp + 4 * Z.of_nat 1). rewrite (Hw 1%nat _ eq_refl). rewrite u32_id; lia.
  - change (esp + 8) with (esp + 4 * Z.of_nat 2). rewrite (Hw 2%nat _ eq_refl). unfold esp, stack_sp in *.
    rewrite (u32_id (u32 _)) by apply u32_range. rewrite u32_id; lia.
  - intros i s Hi. destruct (arg_ptrs argv top !! i) as [p|] eqn:Hp.
    2:{ apply lookup_ge_None in Hp. apply lookup_lt_Some in Hi. lia. }
    exists p. destruct (arg_image_in img argv top i s p Hi Hp) as (H1 & H2 & H3).
    assert (Hpr : 0 <= p < 2 ^ 32) by (unfold esp, stack_sp in *; lia). split.
    + replace (esp + 12 + 4 * Z.of_nat i) with (esp + 4 * Z.of_nat (3 + i)) by lia. rewrite (Hw (3 + i)%nat p); [by apply u32_id|].
      change ((arg_ptrs argv top ++ [0]) !! i = Some p). by rewrite lookup_app_l by (by eapply lookup_lt_Some).
    + intros j b Hj. apply lookup_lt_Some in Hj as Hlt. rewrite Himg by (unfold esp, stack_sp, top in *; lia). unfold stack_image, overlay.
      rewrite decide_False by (unfold esp, stack_sp in *; lia). by apply H3.
  - replace (esp + 12 + 4 * Z.of_nat (length argv)) with (esp + 4 * Z.of_nat (3 + length argv)) by lia. rewrite (Hw (3 + length argv)%nat 0); [done|].
    change ((arg_ptrs argv top ++ [0]) !! length argv = Some 0). by rewrite lookup_app_r, Hlen, Nat.sub_diag by lia.
Qed.
End stack.

(** ** exec *)

(** What [exec] needs of the file system: [path] leads to inode [ip], which can
    be locked, read and released. *)
Class Program {F : Type} `{!FileApi F} (cwd : nat) (path : list Z) (ip : nat) (file : list Z) (Pre Open Post : F -> Prop) : Prop := {
  pg_open f : Pre f -> wp (a_begin_op ;;; r <-- a_namei cwd path ;;
    (match r with Some i => a_ilock i | None => a_end_op end) ;;; ret r) (fun r f' => r = Some ip /\ Open f') f;
  #[global] pg_read :: Readable ip file Open;
  pg_close f : Open f -> wp (a_iunlock ip ;;; a_iput ip ;;; a_end_op) (fun _ => Post) f
}.

Section exec.
Context {F : Type} `{!FileApi F} (cwd : nat) (path : list Z) (ip : nat) (file : list Z) (Pre Open Post : F -> Prop)
  `{!Program cwd path ip file Pre Open Post}.
Context (end_ : Z) `{!Linked end_} {G : Pages} (data : Z) `{!DataLinked data} (elf0 : list Z).
Notation space := (space end_ data).

Definition elf_of : elfhdr := decode_elf (slice file 0 sizeof_elfhdr).
Definition phs_of : list proghdr := headers file (e_phoff elf_of) (Z.to_nat (e_phnum elf_of)).
(** The memory and the size of the program, and its first page above. *)
Definition image_of : Z -> Z := fst (fold_left (load_seg file) phs_of (fun _ => 0, 0)).
Definition size_of : Z := snd (fold_left (load_seg file) phs_of (fun _ => 0, 0)).
Definition guard_of : Z := pgs size_of.
Definition esp_of (argv : list (list Z)) : Z := stack_sp argv (4096 * (guard_of + 2)).
Record executable (argv : list (list Z)) : Prop := {
  ex_len : sizeof_elfhdr <= Z.of_nat (length file) < 2 ^ 31;
  ex_magic : e_magic elf_of = ELF_MAGIC;
  ex_phoff : 0 <= e_phoff elf_of;
  ex_phnum : 0 <= e_phnum elf_of /\ e_phoff elf_of + 32 * e_phnum elf_of <= Z.of_nat (length file);
  ex_phs : Forall (ph_ok file) phs_of;
  ex_size : 4096 * (guard_of + 2) < KERNBASE;
  ex_args : Z.of_nat (length argv) <= MAXARG /\ 4096 * (guard_of + 1) <= esp_of argv
}.
(** The process after [exec]. *)
Definition new_image (d sz entry sp : Z) (pr : proc) : proc :=
  let pr := set_p_sz sz (set_p_pgdir d (set_p_name (name16 (last_from path path)) pr)) in
  set_p_tf (set_tf_esp sp (set_tf_eip entry (p_tf pr))) pr.

Lemma swap_app (A B C D E' : list Z) : A ++ B ++ C ++ D ++ E' ≡ₚ C ++ D ++ A ++ B ++ E'.
Proof. rewrite !app_assoc. apply Permutation_app_tail. rewrite <- !app_assoc, (app_assoc A B), (app_assoc C D). apply Permutation_app_comm. Qed.
(** From one address space to the other: the old one is freed. *)
Lemma exec_commit_wp v (f : F) pr oth d0 T0 U0 d T U l argv sz entry sp img g : let oth' := d0 :: vals T0 ++ upages U0 ++ oth in
  p_pgdir pr = d0 -> d0 <> 0 -> d <> 0 -> ready end_ data v oth' d T U l img g ->
  dir_ok end_ (vmem v) d0 T0 -> user_ok end_ data (vmem v) T0 U0 -> sees (vmem v) U image_of g argv sp ->
  wp (exec_commit end_ path d sz entry sp) (fun r x => r = 0 /\ exists v' l', x = mkx (v', f) (new_image d sz entry sp pr) /\
    space v' oth d T U l' /\ same_on oth (vmem v) (vmem v') /\ sees (vmem v') U image_of g argv sp) (mkx (v, f) pr).
Proof.
  intros oth' Hd0 Hnz0 Hnz Hrd Hdir Hus Hsee. unfold exec_commit. apply wp_bind, wp_modify, wp_bind, wp_gets.
  do 4 apply wp_bind, wp_modify. cbn. apply wp_bind, wp_zoom, wp_zoom. unfold switchuvm. apply wp_bind, wp_modify.
  rewrite (proj2 (Z.eqb_neq d 0)) by done. apply wp_modify, wp_bind, wp_zoom, wp_zoom. cbn. rewrite Hd0.
  set (v1 := set_cr3 _ _). assert (Hsp1 : space v1 oth' d T U l) by (by eapply space_vmk; [|apply Hrd]).
  assert (Hsp0 : space v1 (d :: vals T ++ upages U ++ oth) d0 T0 U0 l).
  { split; [split|done]; [|done]. eapply owns_perm; [|exact (tb_owns _ _ _ _ _ _ (sp_tab _ _ _ _ _ _ _ _ Hsp1))].
    unfold oth'. rewrite !Permutation_middle, (Permutation_swap d d0). apply swap_app. }
  eapply wp_mono; [by apply (freevm_wp end_ data v1 (d :: vals T ++ upages U ++ oth) d0 T0 U0 l)|].
  intros [] v2 (l2 & Ho2 & _ & Hs2). apply wp_ret. split; [done|]. exists v2, l2. change (vmem v1) with (vmem v) in Hs2. split_and!; [done| | |].
  - destruct Hsp1 as [[_ Hd1] Hu1]. split; [split; [exact Ho2|]|].
    + eapply dir_same; [|exact Hd1]. eapply same_sub; [|exact Hs2]. set_solver.
    + eapply user_same; [|exact Hu1]. eapply same_sub; [|exact Hs2]. set_solver.
  - eapply same_sub; [|exact Hs2]. set_solver.
  - eapply sees_same; [|exact Hsee]. intros x. unfold ubyte. destruct (U !! (x / 4096)) as [[q fl]|] eqn:Hq; [|done].
    apply (Hs2 q); [|zlia]. right. rewrite !elem_of_app. right. left. by eapply upages_elem.
Qed.

Lemma splice_all bs l : length bs = length l -> splice 0 bs l = bs.
Proof. intros H. unfold splice. rewrite take_0, take_ge, drop_ge by lia. by rewrite app_nil_r. Qed.
Lemma need_fresh T B : 0 <= B -> (need T 0 B <= Z.to_nat B + Z.to_nat ((B - 1) / 1024 + 1))%nat.
Proof.
  intros HB. unfold need. rewrite Z.sub_0_r. change (0 / 1024) with 0.
  pose proof (missing_le T 0 ((B - 1) / 1024 + 1) ltac:(zlia)). lia.
Qed.

(** ** The outcome *)

(** [exec] has replaced the address space [d0] (tables [T0], pages [U0], free pages
    [l]) by one that holds the program; the pages of the old one are free or used
    by the new one. *)
Definition replaced (argv : list (list Z)) v pr oth T0 U0 l (r : Z) (x : xst F) : Prop :=
  r = 0 /\ exists v' f' d T U l',
    x = mkx (v', f') (new_image d (4096 * (guard_of + 2)) (e_entry elf_of) (esp_of argv) pr) /\ Post f' /\
    space v' oth d T U l' /\ d :: vals T ++ upages U ++ l' ≡ₚ p_pgdir pr :: vals T0 ++ upages U0 ++ l /\
    same_on oth (vmem v) (vmem v') /\ sees (vmem v') U image_of guard_of argv (esp_of argv).
(** [exec] has failed: the process and its memory are as before, the same pages
    are free, and the file is closed. *)
Definition unharmed v pr oth T0 U0 l (r : Z) (x : xst F) : Prop :=
  r = -1 /\ exists v' f' l', x = mkx (v', f') pr /\ Post f' /\ space v' oth (p_pgdir pr) T0 U0 l' /\ l' ≡ₚ l /\
    same_on (p_pgdir pr :: vals T0 ++ upages U0 ++ oth) (vmem v) (vmem v').

(** Every page of the allocator is in the address space, with other owners or free. *)
Lemma space_pages v v' oth d d' T T' U U' l l' : space v oth d T U l -> space v' oth d' T' U' l' ->
  d' :: vals T' ++ upages U' ++ l' ≡ₚ d :: vals T ++ upages U ++ l.
Proof.
  assert (Hall : forall v d T U l, space v oth d T U l -> oth ++ (d :: vals T ++ upages U ++ l) ≡ₚ all_pages).
  { intros v0 d1 T1 U1 l1 [[[_ _ _ H] _] _]. rewrite <- H, <- (Permutation_middle oth). cbn. rewrite (Permutation_app_comm oth).
    by rewrite <- !app_assoc, (Permutation_app_comm l1 oth). }
  intros H%Hall H'%Hall. apply (Permutation_app_inv_l oth). by rewrite H, H'.
Qed.
Lemma program_close f v pr {A} (k : M (xst F) A) (Q : A -> xst F -> Prop) : Open f -> (forall f', Post f' -> wp k Q (mkx (v, f') pr)) ->
  wp (iunlockput ip ;;; on_f a_end_op ;;; k) Q (mkx (v, f) pr).
Proof.
  intros HO Hk. pose proof (pg_close f HO) as Hc. unfold iunlockput. apply wp_bind_inv in Hc. apply wp_bind, wp_bind, wp_zoom, wp_zoom.
  eapply wp_mono; [exact Hc|]. intros [] f3 Hc3. cbn in Hc3 |- *. apply wp_bind_inv in Hc3. apply wp_zoom, wp_zoom. eapply wp_mono; [exact Hc3|].
  intros [] f4 Hc4. cbn in Hc4 |- *. apply wp_bind, wp_zoom, wp_zoom. eapply wp_mono; [exact Hc4|]. intros [] f5 HP. by apply Hk.
Qed.
(** The jump to [bad], from where the file is open or closed. *)
Lemma bad_close v f pr (open : bool) (Q : Z -> xst F -> Prop) : (if open then Open f else Post f) ->
  (forall f', Post f' -> Q (-1) (mkx (v, f') pr)) ->
  wp ((match (if open then Some ip else None) with Some ip => iunlockput ip ;;; on_f a_end_op | None => ret tt end) ;;; ret (-1)) Q (mkx (v, f) pr).
Proof.
  intros Hf HQ. destruct open; [|apply wp_bind, wp_ret, wp_ret; by apply HQ].
  pose proof (program_close f v pr (ret (-1)) Q Hf) as Hc. apply wp_bind. apply wp_bind_inv in Hc; [|intros; by apply wp_ret, HQ].
  apply wp_bind. eapply wp_mono; [exact Hc|]. intros [] x Hx. cbn in Hx. by apply wp_bind_inv in Hx.
Qed.
Lemma bad_nothing v f pr oth T0 U0 l : Open f -> space v oth (p_pgdir pr) T0 U0 l ->
  wp (exec_bad end_ 0 (Some ip)) (unharmed v pr oth T0 U0 l) (mkx (v, f) pr).
Proof.
  intros HO Hsp. unfold exec_bad. cbn [Z.eqb negb]. apply wp_bind, wp_ret, (bad_close v f pr true); [done|]. intros f' HP.
  split; [done|]. by exists v, f', l.
Qed.
Lemma bad_free v v1 f pr oth T0 U0 l d T U l1 (open : bool) : let oth' := p_pgdir pr :: vals T0 ++ upages U0 ++ oth in
  space v oth (p_pgdir pr) T0 U0 l -> space v1 oth' d T U l1 -> same_on oth' (vmem v) (vmem v1) -> d <> 0 -> (if open then Open f else Post f) ->
  wp (exec_bad end_ d (if open then Some ip else None)) (unharmed v pr oth T0 U0 l) (mkx (v1, f) pr).
Proof.
  intros oth' Hsp0 Hsp Hs Hd Hf. unfold exec_bad. rewrite (proj2 (Z.eqb_neq d 0)) by done. cbn [negb]. apply wp_bind, wp_zoom, wp_zoom. cbn [x_sys fst].
  eapply wp_mono; [by apply (freevm_wp end_ data v1 oth' d T U l1)|]. intros [] v2 (l2 & Ho2 & _ & Hs2). unfold set_x_sys. cbn [snd x_proc].
  assert (Hs' : same_on oth' (vmem v) (vmem v2)) by (by eapply same_trans).
  apply bad_close; [done|]. intros f' HP. split; [done|]. exists v2, f', l2. split_and!; [done|done| | |done].
  - split; [split|].
    + exact Ho2.
    + eapply dir_same; [|apply Hsp0]. eapply same_sub; [|exact Hs']. set_solver.
    + eapply user_same; [|apply Hsp0]. eapply same_sub; [|exact Hs']. set_solver.
  - eapply (owns_free end_ v v2 oth'); [apply Hsp0|done].
Qed.

(** The file is open, and its header read; then the rest runs. *)
Lemma exec_open argv v f pr (Q : Z -> xst F -> Prop) : Pre f -> p_cwd pr = Some cwd -> Z.of_nat (length file) < 2 ^ 31 -> length elf0 = Z.to_nat sizeof_elfhdr ->
  (forall f', Open f' -> Z.of_nat (length file) < sizeof_elfhdr \/ e_magic elf_of <> ELF_MAGIC -> wp (exec_bad end_ 0 (Some ip)) Q (mkx (v, f') pr)) ->
  (forall f', Open f' -> sizeof_elfhdr <= Z.of_nat (length file) -> e_magic elf_of = ELF_MAGIC ->
     wp (pgdir <-- on_v (setupkvm data) ;;
         if pgdir =? 0 then exec_bad end_ 0 (Some ip)
         else
           r <-- exec_load end_ pgdir ip (Z.to_nat (e_phnum elf_of)) (e_phoff elf_of) 0 ;;
           match r with
           | None => exec_bad end_ pgdir (Some ip)
           | Some sz =>
               iunlockput ip ;;;
               on_f a_end_op ;;;
               r <-- exec_stack end_ pgdir argv sz ;;
               match r with
               | None => exec_bad end_ pgdir None
               | Some (sz, sp) => exec_commit end_ path pgdir sz (e_entry elf_of) sp
               end
           end) Q (mkx (v, f') pr)) ->
  wp (exec end_ data elf0 path argv) Q (mkx (v, f) pr).
Proof.
  intros Hpre Hcwd Hlen He0 Hbad HQ. pose proof (pg_open f Hpre) as Hopen. unfold exec.
  apply wp_bind_inv in Hopen. apply wp_bind, wp_zoom, wp_zoom. eapply wp_mono; [exact Hopen|]. intros [] f1 H1. cbn [fst snd x_sys x_proc] in H1 |- *.
  apply wp_bind, wp_gets. cbn [x_proc set_x_sys]. rewrite Hcwd.
  apply wp_bind_inv in H1. apply wp_bind, wp_zoom, wp_zoom. eapply wp_mono; [exact H1|]. intros r f2 H2. cbn [fst snd x_sys x_proc] in H2 |- *.
  apply wp_bind_inv in H2. destruct r as [i|].
  2:{ exfalso. revert H2. unfold wp. destruct (a_end_op f2); [|done..]. by intros [? _]. }
  apply wp_bind, wp_zoom, wp_zoom. eapply wp_mono; [exact H2|]. intros [] f3 ([= ->] & HO). unfold set_x_sys. cbn [fst snd x_sys x_proc].
  apply wp_bind, wp_zoom, wp_zoom. cbn [fst snd x_sys x_proc]. eapply wp_mono; [by apply readable_readi|]. intros rb f4 (-> & HO4). unfold file_read.
  rewrite (proj2 (Z.ltb_ge _ 0)) by lia. cbn [orb]. replace (2 ^ 32 <=? 0 + sizeof_elfhdr) with false by done. rewrite Z.sub_0_r.
  rewrite u32_id by (unfold sizeof_elfhdr; lia). destruct (Z.ltb_spec (Z.min sizeof_elfhdr (Z.of_nat (length file))) sizeof_elfhdr) as [Hs|Hs].
  { apply Hbad; [done|]. left. lia. }
  fold (slice file 0 sizeof_elfhdr). rewrite splice_all by (rewrite length_slice by (done || lia); done). fold elf_of.
  destruct (Z.eqb_spec (e_magic elf_of) ELF_MAGIC) as [Hm|Hm]; cbn [negb]; [|apply Hbad; auto]. apply HQ; [done|lia|done].
Qed.

(** [exec], on any file whose segments it can handle and with enough memory. *)
Lemma exec_run argv v f pr oth T0 U0 l B : let d0 := p_pgdir pr in
  Z.of_nat (length file) < 2 ^ 31 -> 0 <= e_phoff elf_of < 2 ^ 32 -> Forall (ph_sane B) phs_of -> 0 <= esp_of argv -> 0 <= B ->
  length elf0 = Z.to_nat sizeof_elfhdr -> Pre f -> p_cwd pr = Some cwd -> space v oth d0 T0 U0 l -> d0 <> 0 ->
  (65 + Z.to_nat (B + 2) + Z.to_nat ((B + 1) / 1024 + 1) <= length l)%nat ->
  wp (exec end_ data elf0 path argv) (fun r x => (replaced argv v pr oth T0 U0 l r x \/ unharmed v pr oth T0 U0 l r x) /\
    (executable argv -> r = 0)) (mkx (v, f) pr).
Proof.
  intros d0 Hlen Hoff Hphs Hesp HB He0 Hpre Hcwd Hsp0 Hd0 Hmem. apply exec_open; [done..| |].
  { intros f1 HO Hno. eapply wp_mono; [by apply (bad_nothing v f1 pr oth T0 U0 l)|]. intros r x Hr. split; [by right|]. intros []. lia. }
  intros f1 HO1 Hlen52 Hmag. set (oth' := d0 :: vals T0 ++ upages U0 ++ oth).
  apply wp_bind, wp_zoom, wp_zoom. cbn [x_sys fst]. apply (setupkvm_wp end_ data v oth' l); [apply Hsp0|lia|].
  intros k d T l1 v1 Hd Ht1 Hp1 Hs1 Hl1. rewrite (proj2 (Z.eqb_neq d 0)) by done. unfold set_x_sys. cbn [snd x_proc].
  assert (Hld1 : loaded end_ data v1 oth' d T ∅ l1 (fun _ => 0) 0).
  { split; [by apply space_empty|unfold pgs; zlia|intros; apply lookup_empty|unfold pgs; zlia|done]. }
  apply wp_bind. eapply wp_mono; [apply (exec_load_wp ip file Open end_ data oth' d B (B + 2) _ Hlen ltac:(lia) (e_phoff elf_of) (fun _ => 0) 0 v1 f1 pr T ∅ l1);
    [done|done|done|done|done|done|]|].
  { change (pgs 0) with 0. etrans; [apply need_fresh; lia|]. replace (B + 2 - 1) with (B + 1) by lia. lia. }
  fold phs_of. fold image_of size_of. intros r x [(k2 & f2 & T2 & U2 & l2 & -> & Hsp2 & Hs2 & HO2 & Hr) Hex].
  change (set_vmk k2 v1) with (set_vmk k2 v) in *. change (fst _) with image_of in Hr. change (snd _) with size_of in Hr.
  assert (Hs12 : same_on oth' (vmem v) (vmem (set_vmk k2 v))) by (by eapply same_trans).
  destruct Hr as [->|(-> & Hld2 & Hsz & HBg & Hn2)].
  { eapply wp_mono; [by apply (bad_free v (set_vmk k2 v) f2 pr oth T0 U0 l d T2 U2 l2 true)|]. intros r x Hr. split; [by right|].
    intros [_ _ _ [? ?] ? _ _]. destruct Hex; [lia|done|done]. }
  apply program_close; [done|]. intros f5 HP. apply wp_bind. fold guard_of in HBg, Hn2.
  eapply wp_mono; [apply (exec_stack_wp end_ data oth' d (set_vmk k2 v) f5 pr T2 U2 l2 image_of size_of argv); [done|done| |exact Hesp]|].
  { etrans; [|exact Hn2]. fold guard_of. apply need_mono. unfold guard_of, pgs in *. zlia. }
  fold guard_of. intros r x (k3 & T3 & U3 & l3 & -> & Hsp3 & Hs3 & Hr & Hfit). change (set_vmk k3 (set_vmk k2 v)) with (set_vmk k3 v) in *.
  assert (Hs : same_on oth' (vmem v) (vmem (set_vmk k3 v))) by (by eapply same_trans).
  destruct Hr as [->|(-> & Hrd & Hk & Hlo & Hargc)].
  { eapply wp_mono; [by apply (bad_free v (set_vmk k3 v) f5 pr oth T0 U0 l d T3 U3 l3 false)|]. intros r x Hr. split; [by right|].
    intros [_ _ _ _ _ ? [? ?]]. by destruct Hfit. }
  eapply wp_mono; [apply (exec_commit_wp (set_vmk k3 v) f5 pr oth d0 T0 U0 d T3 U3 l3 argv (4096 * (guard_of + 2)) (e_entry elf_of) (esp_of argv) _ guard_of
    eq_refl Hd0 Hd Hrd)|].
  - eapply dir_same; [|apply Hsp0]. eapply same_sub; [|exact Hs]. set_solver.
  - eapply user_same; [|apply Hsp0]. eapply same_sub; [|exact Hs]. set_solver.
  - apply (ready_sees end_ data (set_vmk k3 v) oth' d T3 U3 l3); try done; [unfold guard_of, pgs; zlia|lia].
  - intros r x (-> & v' & l' & -> & Hsp & Hso & Hsee). split; [|done]. left. split; [done|]. exists v', f5, d, T3, U3, l'.
    split_and!; [done|done|done|by eapply space_pages| |done]. eapply same_trans; [|exact Hso]. eapply same_sub; [|exact Hs]. set_solver.
Qed.

(** C11. [exec] of an executable file: it returns 0, and the process has a new address
    space that holds the segments of the file, zeroes elsewhere, a page that the
    user cannot access, and the stack on which [main] finds [argc] and [argv]
    with copies of the arguments; it starts at the entry point.  The old address
    space has been freed: its pages and those that were free are the pages of the
    new one and those that are free now.  Memory of other owners is unchanged. *)
Theorem exec_spec argv v f pr oth T0 U0 l : let d0 := p_pgdir pr in let g := guard_of in
  executable argv -> length elf0 = Z.to_nat sizeof_elfhdr -> Pre f -> p_cwd pr = Some cwd ->
  space v oth d0 T0 U0 l -> d0 <> 0 -> (65 + Z.to_nat (g + 2) + Z.to_nat ((g + 1) / 1024 + 1) <= length l)%nat ->
  wp (exec end_ data elf0 path argv) (fun r x => r = 0 /\ exists v' f' d T U l',
    x = mkx (v', f') (new_image d (4096 * (g + 2)) (e_entry elf_of) (esp_of argv) pr) /\ Post f' /\
    space v' oth d T U l' /\ d :: vals T ++ upages U ++ l' ≡ₚ d0 :: vals T0 ++ upages U0 ++ l /\
    same_on oth (vmem v) (vmem v') /\ sees (vmem v') U image_of g argv (esp_of argv)) (mkx (v, f) pr).
Proof.
  intros d0 g Hex He0 Hpre Hcwd Hsp0 Hd0 Hmem. pose proof Hex as [[_ Hlen] _ Hoff [Hph0 Hph] Hphs Hsize [Hargc Hfit]].
  pose proof (load_seg_ge file phs_of (fun _ => 0, 0)) as Hsz. fold size_of in Hsz. cbn [snd] in Hsz.
  assert (Hg : 0 <= g) by (unfold g, guard_of, pgs; zlia). fold g in Hfit.
  eapply wp_mono; [apply (exec_run argv v f pr oth T0 U0 l g); try done; [lia| |lia]|].
  - by eapply (ph_ok_sane file g phs_of (fun _ => 0, 0)).
  - intros r x [[Hr|[-> _]] Hok]; [exact Hr|by specialize (Hok Hex)].
Qed.

(** A file of bytes whose segments [exec] can handle: aligned, without wrap-around,
    and with the pages of each one that lies in the user part below page [B]; and
    arguments that are not larger than the address space. *)
Record sane (argv : list (list Z)) (B : Z) : Prop := {
  sn_len : Z.of_nat (length file) < 2 ^ 31;
  sn_bytes : Forall (fun b => 0 <= b < 256) file;
  sn_phs : Forall (fun ph => ph_type ph = ELF_PROG_LOAD -> ph_vaddr ph mod 4096 = 0 /\ ph_vaddr ph + ph_memsz ph < 2 ^ 32 /\
    (ph_vaddr ph + ph_memsz ph < KERNBASE -> pgs (ph_vaddr ph + ph_memsz ph) <= B)) phs_of;
  sn_args : 0 <= esp_of argv
}.
Lemma le_value_range bs n : Forall (fun b => 0 <= b < 256) bs -> (length bs <= n)%nat -> 0 <= le_value bs < 256 ^ Z.of_nat n.
Proof.
  intros Hb. revert n. induction Hb as [|b bs Hb _ IH]; intros n Hn; [cbn; lia|]. destruct n as [|n]; [cbn in Hn; lia|].
  cbn [le_value]. rewrite Nat2Z.inj_succ, Z.pow_succ_r by lia. specialize (IH n ltac:(cbn in Hn; lia)). lia.
Qed.
Lemma field_range bs off n : Forall (fun b => 0 <= b < 256) bs -> 0 <= field bs off n < 256 ^ Z.of_nat n.
Proof. intros Hb. apply le_value_range; [by apply Forall_take, Forall_drop|]. rewrite length_take. lia. Qed.
Lemma headers_range off n : Forall (fun b => 0 <= b < 256) file ->
  Forall (fun ph => 0 <= ph_vaddr ph /\ 0 <= ph_filesz ph /\ 0 <= ph_memsz ph /\ 0 <= ph_off ph < 2 ^ 32) (headers file off n).
Proof.
  intros Hb. revert off. induction n as [|n IH]; intros off; [constructor|]. constructor; [|apply IH].
  assert (Hs : Forall (fun b => 0 <= b < 256) (slice file off sizeof_proghdr)) by (by apply Forall_take, Forall_drop).
  split_and!; by apply field_range.
Qed.
(** C21. [exec] is all or nothing, whatever the file holds: with enough memory it either
    returns 0 with the new program in place, or returns -1 and leaves the process
    with the image, the name and the registers it had; then every page that
    [exec] took is free again, no other page in use has changed, and the file has
    been unlocked, released and its transaction ended. *)
Theorem exec_fails_clean argv v f pr oth T0 U0 l B : sane argv B -> 0 <= B ->
  length elf0 = Z.to_nat sizeof_elfhdr -> Pre f -> p_cwd pr = Some cwd -> space v oth (p_pgdir pr) T0 U0 l -> p_pgdir pr <> 0 ->
  (65 + Z.to_nat (B + 2) + Z.to_nat ((B + 1) / 1024 + 1) <= length l)%nat ->
  wp (exec end_ data elf0 path argv) (fun r x => replaced argv v pr oth T0 U0 l r x \/ unharmed v pr oth T0 U0 l r x) (mkx (v, f) pr).
Proof.
  intros [Hlen Hby Hphs Hargs] HB He0 Hpre Hcwd Hsp Hd Hmem.
  eapply wp_mono; [apply (exec_run argv v f pr oth T0 U0 l B); try done|by intros r x [? _]].
  - apply (field_range (slice file 0 sizeof_elfhdr) 28 4). by apply Forall_take, Forall_drop.
  - pose proof (headers_range (e_phoff elf_of) (Z.to_nat (e_phnum elf_of)) Hby) as Hr. pose proof (proj2 (Forall_and _ _) (conj Hr Hphs)) as Hall.
    eapply Forall_impl; [exact Hall|]. cbn. intros ph [(H1 & H2 & H3 & H4) Hty] Hload. by destruct (Hty Hload) as (H5 & H6 & H7).
Qed.
End exec.
