(* ===== verification/ExecDemo.v ===== *)
(** * A program to run

    A file system that holds one small ELF file, and [exec] of it. *)

From S2P Require Import Prelude Params Strings Kalloc Vm VmSpec VmUser VmDemo Proc File Exec ExecSpec ExecStack.

(** The bytes of the file, the open transactions, the references to the inode and
    whether it is locked. *)
Record fs1 := mkfs1 { f1_bytes : list Z; f1_ops : Z; f1_refs : Z; f1_locked : bool }.
Definition one_file : FileApi fs1.
Proof.
  refine {| a_begin_op := modify (fun f => mkfs1 (f1_bytes f) (f1_ops f + 1) (f1_refs f) (f1_locked f));
    a_end_op := modify (fun f => mkfs1 (f1_bytes f) (f1_ops f - 1) (f1_refs f) (f1_locked f));
    a_geti := fun _ => panic "geti"; a_updi := fun _ _ => ret tt;
    a_iput := fun _ => modify (fun f => mkfs1 (f1_bytes f) (f1_ops f) (f1_refs f - 1) (f1_locked f));
    a_ilock := fun _ => modify (fun f => mkfs1 (f1_bytes f) (f1_ops f) (f1_refs f) true);
    a_iunlock := fun _ => modify (fun f => mkfs1 (f1_bytes f) (f1_ops f) (f1_refs f) false); a_iupdate := fun _ => ret tt;
    a_ialloc := fun _ _ => panic "ialloc"; a_stati := fun _ => panic "stati";
    a_readi := fun _ off n f => Ok (file_read (f1_bytes f) off n) f;
    a_writei := fun _ _ _ _ => ret (-1); a_dirlookup := fun _ _ => ret None; a_dirlink := fun _ _ _ => ret (-1);
    a_namei := fun _ _ => modify (fun f => mkfs1 (f1_bytes f) (f1_ops f) (f1_refs f + 1) (f1_locked f)) ;;; ret (Some 7%nat);
    a_nameiparent := fun _ _ => ret None; a_pipenew := ret 0;
    a_pipeclose := fun _ _ => ret tt; a_piperead := fun _ _ => ret (-1, []); a_pipewrite := fun _ _ _ => ret (-1) |};
    intros; unfold awake; done.
Defined.
#[local] Existing Instance one_file.
Definition closed (file : list Z) : fs1 := mkfs1 file 0 0 false.
Definition opened (file : list Z) : fs1 := mkfs1 file 1 1 true.

(** One segment: four bytes at address 0, and 100 bytes of memory. *)
Definition demo_elf : list Z :=
  le_bytes 4 ELF_MAGIC ++ replicate 12 0 ++ le_bytes 2 2 ++ le_bytes 2 3 ++ le_bytes 4 1 ++ le_bytes 4 0x10 ++ le_bytes 4 52 ++
  le_bytes 4 0 ++ le_bytes 4 0 ++ le_bytes 2 52 ++ le_bytes 2 32 ++ le_bytes 2 1 ++ le_bytes 2 0 ++ le_bytes 2 0 ++ le_bytes 2 0 ++
  concat (map (le_bytes 4) [ELF_PROG_LOAD; 84; 0; 0; 4; 100; 5; 4096]) ++ [0xEB; 0xFE; 0x90; 0x90].
#[local] Instance demo_program : Program 0 (str "/bin/loop") 7 demo_elf (eq (closed demo_elf)) (eq (opened demo_elf)) (eq (closed demo_elf)).
Proof. split; [by intros f <-|by intros off n f <- _ _|by intros f <-]. Qed.
Lemma demo_executable : executable demo_elf [str "loop"; str "now"].
Proof.
  split; [vm_compute; done..| | |vm_compute; done].
  - change (phs_of demo_elf) with [mkph 1 84 0 0 4 100 5 4096]. constructor; [|constructor]. intros _. vm_compute. repeat split; discriminate.
  - vm_compute. reflexivity.
Qed.

Lemma exec_spec_witness : exists v pr T0 U0 l0, space end_addr data_addr v [] (p_pgdir pr) T0 U0 l0 /\
  wp (exec end_addr data_addr (replicate 52 0) (str "/bin/loop") [str "loop"; str "now"]) (fun r x => r = 0 /\ exists v' f' d T U l',
    x = mkx (v', f') (new_image (str "/bin/loop") d 0x3000 0x10 (esp_of demo_elf [str "loop"; str "now"]) pr) /\ closed demo_elf = f' /\
    space end_addr data_addr v' [] d T U l' /\ d :: vals T ++ upages U ++ l' ≡ₚ p_pgdir pr :: vals T0 ++ upages U0 ++ l0 /\
    same_on [] (vmem v) (vmem v') /\
    sees (vmem v') U (image_of demo_elf) 1 [str "loop"; str "now"] (esp_of demo_elf [str "loop"; str "now"])) (mkx (v, closed demo_elf) pr).
Proof.
  destruct demo_process as (v & d & T & U & l & Hsp & Hd & Hl & _).
  exists v, (set_p_cwd (Some 0%nat) (set_p_pgdir d zero_proc)), T, U, l. split; [exact Hsp|].
  apply (exec_spec 0 (str "/bin/loop") 7 demo_elf (eq (closed demo_elf)) (eq (opened demo_elf)) (eq (closed demo_elf)) end_addr data_addr (replicate 52 0)
    [str "loop"; str "now"] v (closed demo_elf) _ [] T U l demo_executable); [done|done|done|exact Hsp|exact Hd|].
  apply (Nat.le_trans _ 190); [apply Nat.leb_le; vm_compute; reflexivity|exact Hl].
Defined.

(** An argument that does not fit on the stack. *)
Definition long_arg : list Z := replicate 5000 97.
Lemma demo_sane : sane demo_elf [long_arg] 1.
Proof.
  split; [vm_compute; done| | |vm_compute; discriminate].
  - refine (bool_decide_unpack _ _). vm_compute. exact I.
  - change (phs_of demo_elf) with [mkph 1 84 0 0 4 100 5 4096]. constructor; [|constructor]. intros _. vm_compute. repeat split; discriminate.
Qed.
Lemma exec_fails_clean_witness : exists v pr T U l, space end_addr data_addr v [] (p_pgdir pr) T U l /\
  wp (exec end_addr data_addr (replicate 52 0) (str "/bin/loop") [long_arg])
    (unharmed (eq (closed demo_elf)) end_addr data_addr v pr [] T U l) (mkx (v, closed demo_elf) pr).
Proof.
  destruct demo_process as (v & d & T & U & l & Hsp & Hd & Hl & _).
  exists v, (set_p_cwd (Some 0%nat) (set_p_pgdir d zero_proc)), T, U, l. split; [exact Hsp|].
  eapply wp_mono; [apply (exec_fails_clean 0 (str "/bin/loop") 7 demo_elf (eq (closed demo_elf)) (eq (opened demo_elf)) (eq (closed demo_elf))
    end_addr data_addr (replicate 52 0) [long_arg] v (closed demo_elf) _ [] T U l 1 demo_sane); [done|done|done|done|exact Hsp|exact Hd|]|].
  - apply (Nat.le_trans _ 190); [apply Nat.leb_le; vm_compute; reflexivity|exact Hl].
  - intros r x [(_ & v' & f' & d' & T' & U' & l' & _ & _ & _ & _ & _ & [_ _ [_ [Hlo _]] _ _ _ _ _])|H]; [|exact H].
    exfalso. revert Hlo. vm_compute. intros Hlo. by apply Hlo.
Defined.
