(* ===== verification/Mkfs.v ===== *)
(** * mkfs.c: building a file system image

    The host program that writes the superblock, the root directory, the files
    and the bitmap.  A failed assertion and [exit(1)] end it; the host is
    little-endian, and its messages are not modelled. *)

From S2P Require Import Prelude Params Disk Layout Fs.

Definition NINODES : Z := 200.
Definition nbitmap : Z := FSSIZE / (BSIZE * 8) + 1.
Definition ninodeblocks : Z := NINODES / IPB + 1.
Definition nlog : Z := LOGSIZE.

(** The image file (its sectors and their number), [freeinode] and [freeblock]. *)
Record host := mkhost { h_img : Z -> block; h_nsect : Z; freeinode : Z; freeblock : Z }.
Definition set_freeinode v (h : host) := mkhost (h_img h) (h_nsect h) v (freeblock h).
Definition set_freeblock v (h : host) := mkhost (h_img h) (h_nsect h) (freeinode h) v.

(** [struct dinode] *)
Record dinode := mkdin { d_type : Z; d_major : Z; d_minor : Z; d_nlink : Z; d_size : Z; d_addrs : list Z }.
Definition set_d_size v (d : dinode) := mkdin (d_type d) (d_major d) (d_minor d) (d_nlink d) v (d_addrs d).
Definition set_d_addr (i : nat) v (d : dinode) := mkdin (d_type d) (d_major d) (d_minor d) (d_nlink d) (d_size d) (<[i := v]> (d_addrs d)).
Definition zero_din : dinode := mkdin 0 0 0 0 0 (replicate 13 0).
(** The 64 bytes of a dinode at an offset of a block. *)
Definition as_inode (d : dinode) : inode := mkinode 1 0 0 0 (d_type d) (d_major d) (d_minor d) (d_nlink d) (d_size d) (d_addrs d).
Definition as_dinode (ip : inode) : dinode := mkdin (i_type ip) (i_major ip) (i_minor ip) (i_nlink ip) (i_size ip) (i_addrs ip).

(** The bytes of [y] on a little-endian host. *)
Definition xshort (x : Z) : Z := le_value [u8 x; u8 (Z.shiftr x 8)].
Definition xint (x : Z) : Z := le_value [u8 x; u8 (Z.shiftr x 8); u8 (Z.shiftr x 16); u8 (Z.shiftr x 24)].

Definition host_assert (b : bool) : M host unit := if b then ret tt else panic "assert".
(** Sectors past the end of the file cannot be read; writing there makes it
    longer. *)
Definition wsect (sec : Z) (buf : block) : M host unit :=
  modify (fun h => mkhost (fun b => if b =? sec then buf else h_img h b) (Z.max (h_nsect h) (sec + 1)) (freeinode h) (freeblock h)).
Definition rsect (sec : Z) : M host block :=
  h <-- get ;; if sec <? h_nsect h then ret (h_img h sec) else panic "exit 1".

(** [nmeta], [nblocks] and [sb], as [main] sets them. *)
Definition nmeta : Z := 2 + nlog + ninodeblocks + nbitmap.
Definition nblocks : Z := FSSIZE - nmeta.
Definition sb : superblock :=
  mksb (xint FSSIZE) (xint nblocks) (xint NINODES) (xint nlog) (xint 2) (xint (2 + nlog)) (xint (2 + nlog + ninodeblocks)).

Definition winode (inum : Z) (ip : dinode) : M host unit :=
  let bn := IBLOCK inum sb in
  buf <-- rsect bn ;;
  wsect bn (store_dinode (dinode_off inum) (as_inode ip) buf).
Definition rinode (inum : Z) : M host dinode :=
  let bn := IBLOCK inum sb in
  buf <-- rsect bn ;;
  ret (as_dinode (load_dinode (dinode_off inum) buf (as_inode zero_din))).

Definition ialloc (type : Z) : M host Z :=
  inum <-- gets freeinode ;;
  modify (set_freeinode (u32 (inum + 1))) ;;;
  winode inum (mkdin (xshort type) 0 0 (xshort 1) (xint 0) (replicate 13 0)) ;;;
  ret inum.

(** [freeblock++] *)
Definition next_block : M host Z :=
  b <-- gets freeblock ;; modify (set_freeblock (u32 (b + 1))) ;;; ret b.
(** The address of file block [fbn], allocated where it is missing. *)
Definition block_for (fbn : Z) (din : dinode) : M host (Z * dinode) :=
  if fbn <? NDIRECT then
    let j := Z.to_nat fbn in
    din <-- (if xint (d_addrs din !!! j) =? 0 then b <-- next_block ;; ret (set_d_addr j (xint b) din) else ret din) ;;
    ret (xint (d_addrs din !!! j), din)
  else
    let j := Z.to_nat NDIRECT in
    din <-- (if xint (d_addrs din !!! j) =? 0 then b <-- next_block ;; ret (set_d_addr j (xint b) din) else ret din) ;;
    let ind := xint (d_addrs din !!! j) in
    indirect <-- rsect ind ;;
    let o := (4 * Z.to_nat (fbn - NDIRECT))%nat in
    indirect <-- (if get32 o indirect =? 0 then
                    b <-- next_block ;;
                    let indirect := put32 o (xint b) indirect in
                    wsect ind indirect ;;;
                    ret indirect
                  else ret indirect) ;;
    ret (xint (get32 o indirect), din).
(** The loop of [iappend]: [din], [off], and the bytes [p] left. *)
Definition iappend_step (st : dinode * Z * list Z) : M host ((dinode * Z * list Z) + (dinode * Z)) :=
  let '(din, off, p) := st in
  let n := Z.of_nat (length p) in
  if 0 <? n then
    let fbn := off / BSIZE in
    host_assert (fbn <? MAXFILE) ;;;
    xd <-- block_for fbn din ;;
    let '(x, din) := xd in
    let n1 := Z.min n ((fbn + 1) * BSIZE - off) in
    buf <-- rsect x ;;
    wsect x (splice (Z.to_nat (off - fbn * BSIZE)) (take (Z.to_nat n1) p) buf) ;;;
    ret (inl (din, u32 (off + n1), drop (Z.to_nat n1) p))
  else ret (inr (din, off)).
Definition iappend (inum : Z) (p : list Z) : M host unit :=
  din <-- rinode inum ;;
  r <-- loop (S (length p)) iappend_step (din, xint (d_size din), p) ;;
  let '(din, off) := r in
  winode inum (set_d_size (xint off) din).

(** The loop of [balloc]. *)
Fixpoint mark_used (l : list nat) (buf : block) : block :=
  match l with
  | [] => buf
  | i :: l' =>
      let i := Z.of_nat i in
      let k := Z.to_nat (i / 8) in
      mark_used l' (<[k := Z.lor (buf !!! k) (Z.shiftl 1 (i mod 8))]> buf)
  end.
Definition balloc (used : Z) : M host unit :=
  host_assert (used <? BSIZE * 8) ;;;
  wsect (sb_bmapstart sb) (mark_used (seq 0 (Z.to_nat used)) (replicate (Z.to_nat BSIZE) 0)).

(** A directory entry in a zeroed [de]. *)
Definition dirent_for (inum : Z) (name : list Z) : list Z := encode_dirent (mkde (xshort inum) (name_field name)).
(** A file of the command line: its name, and what the reads return, if it can be
    opened. *)
Definition argfile : Type := list Z * option (list (list Z)).
Definition skip_underscore (name : list Z) : list Z := if hd 0 name =? 95 then tl name else name.
Definition add_file (rootino : Z) (a : argfile) : M host unit :=
  let '(name, chunks) := a in
  host_assert (negb (bool_decide (SLASH ∈ name))) ;;;
  match chunks with
  | None => panic "exit 1"
  | Some chunks =>
      let name := skip_underscore name in
      inum <-- ialloc T_FILE ;;
      iappend rootino (dirent_for inum name) ;;;
      for_each chunks (iappend inum)
  end.
(** The bytes of [sb]. *)
Definition encode_sb (b : superblock) : list Z :=
  concat (map (le_bytes 4) [sb_size b; sb_nblocks b; sb_ninodes b; sb_nlog b; sb_logstart b; sb_inodestart b; sb_bmapstart b]).
Definition zero_sect : block := replicate (Z.to_nat BSIZE) 0.
(** [main], on an image that was just opened and truncated. *)
Definition mkfs_main (files : list argfile) : M host unit :=
  modify (set_freeblock nmeta) ;;;
  for_each (seq 0 (Z.to_nat FSSIZE)) (fun i => wsect (Z.of_nat i) zero_sect) ;;;
  wsect 1 (splice 0 (encode_sb sb) zero_sect) ;;;
  rootino <-- ialloc T_DIR ;;
  host_assert (rootino =? ROOTINO) ;;;
  iappend rootino (dirent_for rootino (str ".")) ;;;
  iappend rootino (dirent_for rootino (str "..")) ;;;
  for_each files (add_file rootino) ;;;
  din <-- rinode rootino ;;
  let off := xint (d_size din) in
  let off := u32 ((off / BSIZE + 1) * BSIZE) in
  winode rootino (set_d_size (xint off) din) ;;;
  b <-- gets freeblock ;;
  balloc b.
(** The program starts with an empty image. *)
Definition mkfs_start : host := mkhost (fun _ => zero_sect) 0 1 0.
