(* ===== verification/MkfsSpec.v ===== *)
(** * The image mkfs builds

    The image is a file system in the kernel's sense: the bitmap marks exactly
    the blocks below [freeblock], no block belongs to two files, and every file
    holds the bytes it was given. *)

From S2P Require Import Prelude Params Disk Layout TxStore Fs FsBlocks FsFile FsInode FsRw Mkfs.

Definition updf {A} (f : Z -> A) (i : Z) (v : A) : Z -> A := fun k => if k =? i then v else f k.
Lemma updf_eq {A} (f : Z -> A) i v : updf f i v i = v.
Proof. unfold updf. by rewrite Z.eqb_refl. Qed.
Lemma updf_ne {A} (f : Z -> A) i v k : k <> i -> updf f i v k = f k.
Proof. intros. unfold updf. by rewrite (proj2 (Z.eqb_neq _ _)). Qed.

(** The image as the kernel's file system sees it. *)
Definition view (img : Z -> block) : tview := mktv (fun k => img (snd k)) ∅ ∅ 0.

(** Inodes [1 .. n-1] are [I], and file [i] holds the bytes [C i]. *)
Record files (img : Z -> block) (fb n : Z) (I : Z -> inode) (C : Z -> list Z) : Prop := {
  fi_blk b : length (img b) = 512%nat;
  fi_fresh b : fb <= b -> img b = zero_sect;
  fi_fb : nmeta <= fb;
  fi_inode i : 1 <= i < n -> length (i_addrs (I i)) = 13%nat /\ i_dev (I i) = 1;
  fi_slot i j : 1 <= i < n -> (j < NSLOT)%nat -> slot (view img) (I i) j <> 0 -> nmeta <= slot (view img) (I i) j < fb;
  fi_inj i i' j j' : 1 <= i < n -> 1 <= i' < n -> (j < NSLOT)%nat -> (j' < NSLOT)%nat ->
    slot (view img) (I i) j = slot (view img) (I i') j' -> slot (view img) (I i) j <> 0 -> i = i' /\ j = j';
  fi_size i : 1 <= i < n -> i_size (I i) = Z.of_nat (length (C i)) /\ i_size (I i) <= MAXFILE * BSIZE;
  fi_dense i bn : 1 <= i < n -> 0 <= bn < MAXFILE -> slot (view img) (I i) (sidx bn) <> 0 <-> BSIZE * bn < Z.of_nat (length (C i));
  fi_ind i : 1 <= i < n -> slot (view img) (I i) 12 <> 0 <-> NDIRECT * BSIZE < Z.of_nat (length (C i));
  fi_byte i k b : 1 <= i < n -> C i !! k = Some b -> fbyte (view img) (I i) (Z.of_nat k) = b;
  fi_tail i o : 1 <= i < n -> Z.of_nat (length (C i)) <= o < MAXFILE * BSIZE -> fbyte (view img) (I i) o = 0
}.

(** ** Appending to a block *)

(** The fields of an inode that writing to the file does not change. *)
Definition same_attr (ip ip' : inode) : Prop :=
  i_type ip' = i_type ip /\ i_major ip' = i_major ip /\ i_minor ip' = i_minor ip /\ i_nlink ip' = i_nlink ip.

(** [bs] has been put after the contents of file [i], into its block [x] number
    [bn]; the block, and the indirect block, may be new. *)
Record appended img fb (I : Z -> inode) (C : Z -> list Z) (i : Z) (bs : list Z) (img' : Z -> block) (fb' : Z) (ip' : inode) (x : Z) : Prop := {
  ap_pos : (0 < length bs)%nat;
  ap_fit : Z.of_nat (length (C i)) mod BSIZE + Z.of_nat (length bs) <= BSIZE;
  ap_bn : Z.of_nat (length (C i)) / BSIZE < MAXFILE;
  ap_fb : fb <= fb';
  ap_len : length (i_addrs ip') = 13%nat;
  ap_dev : i_dev ip' = 1;
  ap_size : i_size ip' = Z.of_nat (length (C i)) + Z.of_nat (length bs);
  ap_x : slot (view img') ip' (sidx (Z.of_nat (length (C i)) / BSIZE)) = x /\ x <> 0;
  ap_old : let s := slot (view img) (I i) (sidx (Z.of_nat (length (C i)) / BSIZE)) in s = x \/ (s = 0 /\ fb <= x < fb');
  ap_ind : slot (view img') ip' 12 = slot (view img) (I i) 12 \/ (slot (view img) (I i) 12 = 0 /\ fb <= slot (view img') ip' 12 < fb');
  ap_ind2 : slot (view img') ip' 12 <> 0 <-> NDIRECT * BSIZE < Z.of_nat (length (C i)) + Z.of_nat (length bs);
  ap_ne : slot (view img') ip' 12 <> x;
  ap_slot j : (j < NSLOT)%nat -> j <> sidx (Z.of_nat (length (C i)) / BSIZE) -> j <> 12%nat -> slot (view img') ip' j = slot (view img) (I i) j;
  ap_imgx : img' x = splice (Z.to_nat (Z.of_nat (length (C i)) mod BSIZE)) bs (img x);
  ap_img b : b <> x -> slot (view img') ip' 12 = 0 \/ b <> slot (view img') ip' 12 -> img' b = img b;
  ap_len12 : slot (view img') ip' 12 <> 0 -> length (img' (slot (view img') ip' 12)) = 512%nat;
  ap_attr : same_attr (I i) ip'
}.

Section append.
Context img fb n I C (Hf : files img fb n I C) i (Hi : 1 <= i < n).
Context bs img' fb' ip' x (Ha : appended img fb I C i bs img' fb' ip' x).
Notation off := (Z.of_nat (length (C i))).
Notation bn := (off / BSIZE).
Notation S := (slot (view img) (I i)).
Notation S' := (slot (view img') ip').

Lemma bn_range : 0 <= bn < MAXFILE.
Proof using Ha. pose proof (ap_bn _ _ _ _ _ _ _ _ _ _ Ha) as H. clear - H. change BSIZE with 512 in *. split; [zlia|done]. Qed.
Lemma sidx_bn : (sidx bn < NSLOT)%nat /\ sidx bn <> 12%nat.
Proof using Ha. apply sidx_ok, bn_range. Qed.
Lemma x_range : nmeta <= x < fb'.
Proof using Hf Hi Ha.
  pose proof (fi_fb _ _ _ _ _ Hf) as H1. pose proof (ap_fb _ _ _ _ _ _ _ _ _ _ Ha) as H2. destruct (ap_x _ _ _ _ _ _ _ _ _ _ Ha) as [_ Hx0].
  destruct (ap_old _ _ _ _ _ _ _ _ _ _ Ha) as [E|[_ ?]]; [|lia].
  assert (Hnz : S (sidx bn) <> 0) by congruence. pose proof (fi_slot _ _ _ _ _ Hf i (sidx bn) Hi (proj1 sidx_bn) Hnz). lia.
Qed.
Lemma ind_range : S' 12 <> 0 -> nmeta <= S' 12 < fb'.
Proof using Hf Hi Ha.
  intros H. pose proof (fi_fb _ _ _ _ _ Hf). pose proof (ap_fb _ _ _ _ _ _ _ _ _ _ Ha) as H2.
  destruct (ap_ind _ _ _ _ _ _ _ _ _ _ Ha) as [E|[_ ?]]; [|lia].
  assert (Hnz : S 12 <> 0) by congruence. pose proof (fi_slot _ _ _ _ _ Hf i 12 Hi ltac:(unfold NSLOT; lia) Hnz). lia.
Qed.
(** A block of another slot is not [x] and not the indirect block. *)
Lemma other_block i' j : 1 <= i' < n -> (j < NSLOT)%nat -> i' <> i \/ (j <> sidx bn /\ j <> 12%nat) ->
  slot (view img) (I i') j <> 0 -> img' (slot (view img) (I i') j) = img (slot (view img) (I i') j) /\
  slot (view img) (I i') j <> x /\ (S' 12 = 0 \/ slot (view img) (I i') j <> S' 12).
Proof using Hf Hi Ha.
  intros Hi' Hj Hne Hnz. pose proof (fi_slot _ _ _ _ _ Hf i' j Hi' Hj Hnz) as Hr. pose proof sidx_bn as [Hs1 Hs2].
  assert (N1 : slot (view img) (I i') j <> x).
  { destruct (ap_old _ _ _ _ _ _ _ _ _ _ Ha) as [<-|[_ ?]]; [|lia]. intros E.
    destruct (fi_inj _ _ _ _ _ Hf i' i j (sidx bn) Hi' Hi Hj Hs1 E Hnz). lia. }
  assert (N2 : S' 12 = 0 \/ slot (view img) (I i') j <> S' 12).
  { destruct (decide (S' 12 = 0)) as [|H0]; [by left|right]. destruct (ap_ind _ _ _ _ _ _ _ _ _ _ Ha) as [E12|[_ ?]]; [|lia]. rewrite E12. intros E.
    destruct (fi_inj _ _ _ _ _ Hf i' i j 12%nat Hi' Hi Hj ltac:(unfold NSLOT; lia) E Hnz). lia. }
  split_and!; [by apply (ap_img _ _ _ _ _ _ _ _ _ _ Ha)|done|done].
Qed.
Lemma other_slot i' j : 1 <= i' < n -> (j < NSLOT)%nat -> i' <> i -> slot (view img') (I i') j = slot (view img) (I i') j.
Proof using Hf Hi Ha.
  intros Hi' Hj Hne. unfold slot. case_decide as Hj13; [done|]. destruct (Z.eqb_spec (i_addrs (I i') !!! 12%nat) 0) as [|Hnz]; [done|].
  f_equal. cbn [view tv_blk snd]. destruct (other_block i' 12 Hi' ltac:(unfold NSLOT; lia)) as [H _]; [by left| |].
  - unfold slot. by rewrite decide_True by lia.
  - unfold slot in H. by rewrite decide_True in H by lia.
Qed.

Lemma append_byte k b : (C i ++ bs) !! k = Some b -> fbyte (view img') ip' (Z.of_nat k) = b.
Proof using Hf Hi Ha.
  intros Hk. pose proof sidx_bn as [Hs1 Hs2]. pose proof bn_range as Hbn. pose proof other_block as Hob.
  destruct Ha as [A1 A2 _ _ _ Hdev _ [Hx Hx0] Hxold _ _ _ Hslot Himgx _ _]. cbv zeta in Hxold.
  unfold fbyte, fblock. rewrite Hdev. cbn [view tv_blk snd]. apply lookup_lt_Some in Hk as Hlt. rewrite length_app in Hlt.
  pose proof (fi_blk _ _ _ _ _ Hf x) as Hbx. pose proof (fi_dense _ _ _ _ _ Hf i) as Hd. pose proof (fi_byte _ _ _ _ _ Hf i k b Hi) as Hb.
  destruct (fi_inode _ _ _ _ _ Hf i Hi) as [_ Hdev0]. unfold fbyte, fblock in Hb. rewrite Hdev0 in Hb. cbn [view tv_blk snd] in Hb.
  change BSIZE with 512 in *. destruct (decide (Z.of_nat k / 512 = off / 512)) as [E|E].
  - rewrite E, Hx, (proj2 (Z.eqb_neq x 0)), Himgx by done. rewrite list_lookup_total_alt, splice_in by zlia.
    destruct (decide (Z.of_nat k < off)) as [Ho|Ho].
    + (* a byte of the block that was there *)
      rewrite lookup_app_l, lookup_take_lt by (rewrite ?length_take; zlia). rewrite lookup_app_l in Hk by lia. specialize (Hb Hk).
      assert (Hold : S (sidx (off / 512)) = x) by (destruct Hxold as [|[H0 _]]; [done|exfalso; apply (Hd _ Hi Hbn); [zlia|done]]).
      rewrite E, Hold, (proj2 (Z.eqb_neq x 0)) in Hb by done. by rewrite <- list_lookup_total_alt.
    + rewrite lookup_app_r by (rewrite length_take; zlia). rewrite length_take, Nat.min_l by zlia.
      rewrite lookup_app_r in Hk by lia. rewrite lookup_app_l by zlia.
      replace (Z.to_nat (Z.of_nat k mod 512) - Z.to_nat (off mod 512))%nat with (k - length (C i))%nat by zlia. by rewrite Hk.
  - assert (Hko : Z.of_nat k < off) by zlia. rewrite lookup_app_l in Hk by lia. specialize (Hb Hk).
    set (kb := Z.of_nat k / 512) in *. assert (Hkb : 0 <= kb < MAXFILE) by (unfold kb; zlia). destruct (sidx_ok kb Hkb) as [Hs3 Hs4].
    assert (Hne : sidx kb <> sidx (off / 512)) by (intros H; apply E, sidx_inj; [lia..|done]).
    rewrite Hslot by done. destruct (Z.eqb_spec (S (sidx kb)) 0); [done|].
    destruct (Hob i (sidx kb) Hi Hs3) as [-> _]; [by right|done|done].
Qed.

Lemma append_tail o : Z.of_nat (length (C i ++ bs)) <= o < MAXFILE * BSIZE -> fbyte (view img') ip' o = 0.
Proof using Hf Hi Ha.
  intros Ho. pose proof sidx_bn as [Hs1 Hs2]. pose proof bn_range as Hbn. rewrite length_app in Ho.
  destruct Ha as [A1 A2 _ _ _ Hdev _ [Hx Hx0] Hxold _ _ _ Hslot Himgx _ _]. cbv zeta in Hxold.
  pose proof (fi_blk _ _ _ _ _ Hf x) as Hbx. pose proof (fi_tail _ _ _ _ _ Hf i o Hi ltac:(lia)) as Ht.
  destruct (fi_inode _ _ _ _ _ Hf i Hi) as [_ Hdev0]. unfold fbyte, fblock in *. rewrite Hdev. rewrite Hdev0 in Ht. cbn [view tv_blk snd] in *.
  change BSIZE with 512 in *. change MAXFILE with 140 in *. destruct (decide (o / 512 = off / 512)) as [E|E].
  - rewrite E, Hx, (proj2 (Z.eqb_neq x 0)), Himgx by done. rewrite list_lookup_total_alt, splice_in by zlia.
    rewrite lookup_app_r by (rewrite length_take; zlia). rewrite length_take, Nat.min_l by zlia.
    rewrite lookup_app_r, lookup_drop by zlia.
    replace (Z.to_nat (off mod 512) + length bs + _)%nat with (Z.to_nat (o mod 512)) by zlia. rewrite <- list_lookup_total_alt.
    rewrite E in Ht. destruct Hxold as [Hold|[_ Hnew]]; [by rewrite Hold, (proj2 (Z.eqb_neq x 0)) in Ht by done|].
    rewrite (fi_fresh _ _ _ _ _ Hf) by lia. apply lookup_total_replicate_2. change (Z.to_nat BSIZE) with 512%nat. zlia.
  - set (ob := o / 512) in *. assert (Hob : 0 <= ob < 140) by (unfold ob; zlia). destruct (sidx_ok ob Hob) as [Hs3 Hs4].
    rewrite Hslot; [|done|intros H; apply E, sidx_inj; [lia..|done]|done].
    pose proof (fi_dense _ _ _ _ _ Hf i ob Hi Hob) as Hd. change BSIZE with 512 in Hd.
    destruct (Z.eqb_spec (S (sidx ob)) 0) as [E0|Hnz]; [apply lookup_total_replicate_2; change (Z.to_nat 512) with 512%nat; zlia|].
    exfalso. apply Hd in Hnz. unfold ob in *. zlia.
Qed.
(** The bytes of another file stay. *)
Lemma frame_byte i' o : 1 <= i' < n -> i' <> i -> 0 <= o < MAXFILE * BSIZE -> fbyte (view img') (I i') o = fbyte (view img) (I i') o.
Proof using Hf Hi Ha.
  intros Hi' Hne Ho. unfold fbyte, fblock. destruct (fi_inode _ _ _ _ _ Hf i' Hi') as [_ ->]. cbn [view tv_blk snd].
  assert (Hkb : 0 <= o / BSIZE < MAXFILE) by (change BSIZE with 512 in *; change MAXFILE with 140 in *; zlia).
  destruct (sidx_ok _ Hkb) as [Hs3 _]. rewrite other_slot by done. destruct (Z.eqb_spec (slot (view img) (I i') (sidx (o / BSIZE))) 0); [done|].
  destruct (other_block i' (sidx (o / BSIZE)) Hi' Hs3) as [-> _]; [by left|done|done].
Qed.

Lemma new_slot_range j : (j < NSLOT)%nat -> S' j <> 0 -> nmeta <= S' j < fb'.
Proof using Hf Hi Ha.
  intros Hj H. pose proof (ap_fb _ _ _ _ _ _ _ _ _ _ Ha). destruct (decide (j = sidx bn)) as [->|].
  { destruct (ap_x _ _ _ _ _ _ _ _ _ _ Ha) as [-> _]. apply x_range. }
  destruct (decide (j = 12%nat)) as [->|]; [by apply ind_range|]. rewrite (ap_slot _ _ _ _ _ _ _ _ _ _ Ha j) in H |- * by done.
  pose proof (fi_slot _ _ _ _ _ Hf i j Hi Hj H). lia.
Qed.
(** A slot of another file, or one that did not change, is not a new one. *)
Lemma slot_apart i' j j' : 1 <= i' < n -> (j' < NSLOT)%nat -> (j < NSLOT)%nat -> i' <> i \/ (j' <> sidx bn /\ j' <> 12%nat /\ j <> j') ->
  slot (view img) (I i') j' <> 0 -> S' j <> slot (view img) (I i') j'.
Proof using Hf Hi Ha.
  intros Hi' Hj' Hj Hne Hnz E. destruct (other_block i' j' Hi' Hj' ltac:(tauto) Hnz) as (_ & N1 & N2).
  destruct (decide (j = sidx bn)) as [->|]; [destruct (ap_x _ _ _ _ _ _ _ _ _ _ Ha); congruence|].
  destruct (decide (j = 12%nat)) as [->|]; [destruct N2; congruence|].
  rewrite (ap_slot _ _ _ _ _ _ _ _ _ _ Ha j) in E by done.
  destruct (fi_inj _ _ _ _ _ Hf i i' j j' Hi Hi' Hj Hj' E ltac:(congruence)) as [-> ->]. tauto.
Qed.
Lemma new_slot_inj j j' : (j < NSLOT)%nat -> (j' < NSLOT)%nat -> S' j = S' j' -> S' j <> 0 -> j = j'.
Proof using Hf Hi Ha.
  intros Hj Hj' E Hnz. destruct (decide (j = j')) as [|Hne]; [done|exfalso]. destruct (ap_x _ _ _ _ _ _ _ _ _ _ Ha) as [Hx Hx0].
  pose proof (ap_ne _ _ _ _ _ _ _ _ _ _ Ha) as H12.
  destruct (decide (j' <> sidx bn /\ j' <> 12%nat)) as [[N1 N2]|N].
  { rewrite (ap_slot _ _ _ _ _ _ _ _ _ _ Ha j') in E by done. eapply (slot_apart i j j'); [done..|by right|congruence|done]. }
  destruct (decide (j <> sidx bn /\ j <> 12%nat)) as [[N1 N2]|N'].
  { rewrite (ap_slot _ _ _ _ _ _ _ _ _ _ Ha j) in E, Hnz by done. eapply (slot_apart i j' j); [done..|right; split_and!; congruence|done|done]. }
  assert (j = sidx bn \/ j = 12%nat) as [->| ->] by (destruct (decide (j = sidx bn)), (decide (j = 12%nat)); tauto);
    assert (j' = sidx bn \/ j' = 12%nat) as [->| ->] by (destruct (decide (j' = sidx bn)), (decide (j' = 12%nat)); tauto); congruence.
Qed.

Lemma files_append : files img' fb' n (updf I i ip') (updf C i (C i ++ bs)).
Proof using Hf Hi Ha.
  pose proof sidx_bn as [Hs1 Hs2]. pose proof x_range as Hxr. pose proof ind_range as Hir. pose proof bn_range as Hbn.
  assert (Hother : forall i' j, 1 <= i' < n -> (j < NSLOT)%nat -> i' <> i ->
    slot (view img') (updf I i ip' i') j = slot (view img) (I i') j) by (intros; rewrite updf_ne by done; by apply other_slot).
  split.
  - intros b. pose proof (fi_blk _ _ _ _ _ Hf) as Hl. destruct (decide (b = x)) as [->|].
    { rewrite (ap_imgx _ _ _ _ _ _ _ _ _ _ Ha), length_splice; rewrite Hl; [done|]. change BSIZE with 512. zlia. }
    destruct (decide (S' 12 = 0)) as [E|E]; [rewrite (ap_img _ _ _ _ _ _ _ _ _ _ Ha) by auto; apply Hl|].
    destruct (decide (b = S' 12)) as [->|]; [by apply (ap_len12 _ _ _ _ _ _ _ _ _ _ Ha)|]. rewrite (ap_img _ _ _ _ _ _ _ _ _ _ Ha) by auto. apply Hl.
  - intros b Hb. pose proof (ap_fb _ _ _ _ _ _ _ _ _ _ Ha). rewrite (ap_img _ _ _ _ _ _ _ _ _ _ Ha); [apply (fi_fresh _ _ _ _ _ Hf); lia|lia|].
    destruct (decide (S' 12 = 0)) as [|E]; [by left|right]. pose proof (Hir E). lia.
  - pose proof (fi_fb _ _ _ _ _ Hf). pose proof (ap_fb _ _ _ _ _ _ _ _ _ _ Ha). lia.
  - intros i' Hi'. destruct (decide (i' = i)) as [->|].
    + rewrite updf_eq. split; [apply (ap_len _ _ _ _ _ _ _ _ _ _ Ha)|apply (ap_dev _ _ _ _ _ _ _ _ _ _ Ha)].
    + rewrite updf_ne by done. by apply (fi_inode _ _ _ _ _ Hf).
  - intros i' j Hi' Hj. destruct (decide (i' = i)) as [->|Hne]; [rewrite updf_eq; by apply new_slot_range|].
    rewrite Hother by done. intros H. pose proof (fi_slot _ _ _ _ _ Hf i' j Hi' Hj H). pose proof (ap_fb _ _ _ _ _ _ _ _ _ _ Ha). lia.
  - intros i1 i2 j1 j2 H1 H2 Hj1 Hj2. destruct (decide (i1 = i)) as [->|N1], (decide (i2 = i)) as [->|N2]; rewrite ?updf_eq, ?Hother by done.
    + intros E Hnz. split; [done|]. by apply new_slot_inj.
    + intros E Hnz. exfalso. eapply (slot_apart i2 j1 j2); [done..|by left|congruence|done].
    + intros E Hnz. exfalso. eapply (slot_apart i1 j2 j1); [done..|by left|done|done].
    + by apply (fi_inj _ _ _ _ _ Hf).
  - intros i' Hi'. destruct (decide (i' = i)) as [->|]; [|rewrite !updf_ne by done; by apply (fi_size _ _ _ _ _ Hf)].
    rewrite !updf_eq, (ap_size _ _ _ _ _ _ _ _ _ _ Ha), length_app. split; [lia|]. pose proof (ap_fit _ _ _ _ _ _ _ _ _ _ Ha).
    change BSIZE with 512 in *. zlia.
  - intros i' b Hi' Hb. destruct (decide (i' = i)) as [->|]; cycle 1.
    { rewrite Hother, updf_ne by (done || apply sidx_ok; done). by apply (fi_dense _ _ _ _ _ Hf). }
    rewrite !updf_eq, length_app. pose proof (ap_fit _ _ _ _ _ _ _ _ _ _ Ha). pose proof (ap_pos _ _ _ _ _ _ _ _ _ _ Ha).
    pose proof (fi_dense _ _ _ _ _ Hf i b Hi Hb) as Hd. destruct (sidx_ok b Hb) as [Hs3 Hs4]. destruct (decide (b = bn)) as [E|E].
    + destruct (ap_x _ _ _ _ _ _ _ _ _ _ Ha) as [Hx Hx0]. rewrite E, Hx. split; [|done]. intros _. change BSIZE with 512. zlia.
    + rewrite (ap_slot _ _ _ _ _ _ _ _ _ _ Ha) by (done || intros H'; apply E, sidx_inj; lia || done). rewrite Hd. change BSIZE with 512 in *. zlia.
  - intros i' Hi'. destruct (decide (i' = i)) as [->|].
    + rewrite !updf_eq, length_app, Nat2Z.inj_add. apply (ap_ind2 _ _ _ _ _ _ _ _ _ _ Ha).
    + rewrite Hother, updf_ne by (done || unfold NSLOT; lia). by apply (fi_ind _ _ _ _ _ Hf).
  - intros i' k b Hi'. destruct (decide (i' = i)) as [->|]; [rewrite !updf_eq; apply append_byte|]. rewrite !updf_ne by done. intros Hk.
    rewrite frame_byte; [by apply (fi_byte _ _ _ _ _ Hf)|done|done|]. destruct (fi_size _ _ _ _ _ Hf i' Hi') as [E Hle].
    apply lookup_lt_Some in Hk. lia.
  - intros i' o Hi' Ho. destruct (decide (i' = i)) as [->|]; [rewrite !updf_eq in *; by apply append_tail|]. rewrite !updf_ne in * by done.
    rewrite frame_byte; [by apply (fi_tail _ _ _ _ _ Hf)|done|done|lia].
Qed.
End append.

(** ** Finding the block *)

Lemma slot_direct v ip j : (j < 13)%nat -> slot v ip j = i_addrs ip !!! j.
Proof. intros. unfold slot. by rewrite decide_True. Qed.
Lemma slot_indirect v ip j : (13 <= j)%nat ->
  slot v ip j = if i_addrs ip !!! 12%nat =? 0 then 0 else get32 (4 * (j - 13)) (tv_blk v (i_dev ip, i_addrs ip !!! 12%nat)).
Proof. intros. unfold slot. by rewrite decide_False by lia. Qed.
(** [img] with [bs] put at offset [o] of block [x]. *)
Definition put_block (img : Z -> block) (x : Z) (o : nat) (bs : list Z) : Z -> block := updf img x (splice o bs (img x)).

Section place.
Context img fb n I C (Hf : files img fb n I C) i (Hi : 1 <= i < n) (bs : list Z).
Notation off := (Z.of_nat (length (C i))).
Notation bn := (off / BSIZE).
Notation o := (Z.to_nat (off mod BSIZE)).
Notation A := (i_addrs (I i)).
Context (Hbs : (0 < length bs)%nat) (Hfit : off mod BSIZE + Z.of_nat (length bs) <= BSIZE) (Hbn : bn < MAXFILE).
(** The inode with its new addresses and size. *)
Definition with_addrs (l : list Z) : inode :=
  mkinode 1 0 0 0 (i_type (I i)) (i_major (I i)) (i_minor (I i)) (i_nlink (I i)) (off + Z.of_nat (length bs)) l.

(** A direct block, old or new. *)
Lemma place_direct x fb' : bn < NDIRECT -> x <> 0 ->
  A !!! Z.to_nat bn = x /\ fb' = fb \/ A !!! Z.to_nat bn = 0 /\ x = fb /\ fb' = fb + 1 ->
  appended img fb I C i bs (put_block img x o bs) fb' (with_addrs (<[Z.to_nat bn := x]> A)) x.
Proof using Hf Hi Hbs Hfit Hbn.
  intros Hd Hx0 Hx. destruct (fi_inode _ _ _ _ _ Hf i Hi) as [HA _]. assert (Hbn0 : 0 <= bn) by (clear; change BSIZE with 512; zlia).
  change NDIRECT with 12 in *. assert (Esi : sidx bn = Z.to_nat bn) by (unfold sidx; change NDIRECT with 12; by rewrite (proj2 (Z.ltb_lt _ _))).
  assert (E12 : slot (view (put_block img x o bs)) (with_addrs (<[Z.to_nat bn := x]> A)) 12 = slot (view img) (I i) 12).
  { rewrite !slot_direct by lia. apply list_lookup_total_insert_ne. lia. }
  assert (Hxr : x = slot (view img) (I i) (Z.to_nat bn) \/ fb <= x) by (rewrite slot_direct by lia; clear - Hx; lia).
  assert (H12x : slot (view img) (I i) 12 <> x).
  { intros E. assert (Hnz : slot (view img) (I i) 12 <> 0) by congruence.
    pose proof (fi_slot _ _ _ _ _ Hf i 12 Hi ltac:(unfold NSLOT; lia) Hnz). destruct Hxr as [E'|]; [|lia].
    destruct (fi_inj _ _ _ _ _ Hf i i 12%nat (Z.to_nat bn) Hi Hi ltac:(unfold NSLOT; lia) ltac:(unfold NSLOT; lia)); [congruence|done|lia]. }
  split; try done.
  - lia.
  - cbn. by rewrite length_insert.
  - rewrite Esi, slot_direct by lia. split; [|done]. cbn. rewrite list_lookup_total_insert_eq; lia.
  - cbv zeta. rewrite Esi, slot_direct by lia. lia.
  - by left.
  - rewrite E12, (fi_ind _ _ _ _ _ Hf i Hi). change NDIRECT with 12. change BSIZE with 512 in *. clear - Hd Hfit. zlia.
  - by rewrite E12.
  - rewrite Esi. intros j Hj N1 N2. destruct (decide (j < 13)%nat).
    + rewrite !slot_direct by lia. cbn. apply list_lookup_total_insert_ne. done.
    + rewrite !slot_indirect by lia. cbn [with_addrs i_addrs i_dev]. rewrite list_lookup_total_insert_ne by lia.
      destruct (Z.eqb_spec (A !!! 12%nat) 0); [done|]. f_equal. cbn. unfold put_block. rewrite updf_ne; [done|].
      by rewrite slot_direct in H12x by lia.
  - unfold put_block. by rewrite updf_eq.
  - intros b N1 _. unfold put_block. by rewrite updf_ne.
  - rewrite E12. intros Hnz. unfold put_block. rewrite updf_ne by done. apply (fi_blk _ _ _ _ _ Hf).
Qed.

(** A block listed in the indirect block [ind], which holds [blk]. *)
Lemma place_indirect x ind blk fb' img1 : let e := Z.to_nat (bn - NDIRECT) in img1 ind = blk -> (forall b, b <> ind -> img1 b = img b) ->
  NDIRECT <= bn -> x <> 0 -> ind <> 0 -> x <> ind -> fb <= fb' ->
  A !!! 12%nat = ind \/ A !!! 12%nat = 0 /\ fb <= ind < fb' ->
  slot (view img) (I i) (sidx bn) = x \/ slot (view img) (I i) (sidx bn) = 0 /\ fb <= x < fb' ->
  length blk = 512%nat -> get32 (4 * e) blk = x ->
  (forall e', (e' < 128)%nat -> e' <> e -> get32 (4 * e') blk = get32 (4 * e') (img ind)) ->
  appended img fb I C i bs (put_block img1 x o bs) fb' (with_addrs (<[12%nat := ind]> A)) x.
Proof using Hf Hi Hbs Hfit Hbn.
  intros e Hi1 Hi2 Hge Hx0 Hind0 Hxi Hfb Hind Hx Hlen Hget Hoth. destruct (fi_inode _ _ _ _ _ Hf i Hi) as [HA Hdev].
  change NDIRECT with 12 in *. change MAXFILE with 140 in Hbn. assert (Esi : sidx bn = S (Z.to_nat bn)).
  { unfold sidx. change NDIRECT with 12. rewrite (proj2 (Z.ltb_ge _ _)) by done. lia. }
  assert (E12 : slot (view (put_block img1 x o bs)) (with_addrs (<[12%nat := ind]> A)) 12 = ind).
  { rewrite slot_direct by lia. apply list_lookup_total_insert_eq. lia. }
  assert (Hge13 : forall j, (13 <= j < NSLOT)%nat -> slot (view (put_block img1 x o bs)) (with_addrs (<[12%nat := ind]> A)) j = get32 (4 * (j - 13)) blk).
  { intros j Hj. rewrite slot_indirect by lia. cbn [with_addrs i_addrs i_dev]. rewrite list_lookup_total_insert_eq by lia.
    rewrite (proj2 (Z.eqb_neq ind 0)) by done. f_equal. cbn. unfold put_block. by rewrite updf_ne by done. }
  assert (Hold : forall j, (13 <= j < NSLOT)%nat -> slot (view img) (I i) j = get32 (4 * (j - 13)) (img ind)).
  { intros j Hj. rewrite slot_indirect by lia. rewrite Hdev. cbn [view tv_blk snd]. destruct Hind as [E|[E Hr]].
    - by rewrite E, (proj2 (Z.eqb_neq ind 0)).
    - rewrite E. cbn. rewrite (fi_fresh _ _ _ _ _ Hf) by lia. symmetry. apply get32_zeroes. unfold NSLOT in Hj.
      change (Z.to_nat BSIZE) with 512%nat. lia. }
  split; try done.
  - cbn. by rewrite length_insert.
  - rewrite Esi, Hge13 by (unfold NSLOT; lia). split; [|done]. rewrite <- Hget. f_equal. unfold e. lia.
  - rewrite E12, slot_direct by lia. destruct Hind as [->|[-> ?]]; [by left|by right].
  - rewrite E12. split; [|done]. intros _. clear - Hge Hbs. change NDIRECT with 12. change BSIZE with 512 in *. zlia.
  - rewrite E12. congruence.
  - rewrite Esi. intros j Hj N1 N2. destruct (decide (j < 13)%nat).
    + rewrite !slot_direct by lia. cbn. apply list_lookup_total_insert_ne. lia.
    + rewrite Hge13, Hold by lia. unfold NSLOT in Hj. apply Hoth; [lia|]. unfold e. lia.
  - unfold put_block. by rewrite updf_eq, Hi2.
  - rewrite E12. intros b N1 [?|N2]; [done|]. unfold put_block. by rewrite updf_ne, Hi2.
  - rewrite E12. intros _. unfold put_block. by rewrite updf_ne, Hi1 by done.
Qed.
End place.

Lemma xint_id x : 0 <= x < 2 ^ 32 -> xint x = x.
Proof.
  intros Hx. unfold xint. rewrite !Z.shiftr_div_pow2 by lia. change (2 ^ 8) with 256. change (2 ^ 16) with 65536. change (2 ^ 24) with 16777216.
  cbn [le_value]. unfold u8. change (2 ^ 8) with 256. zlia.
Qed.
(** The blocks a file of [len] bytes takes, its indirect block included. *)
Definition blocks_of (len : Z) : Z := (len + 511) / 512 + (if 6144 <? len then 1 else 0).
Lemma blocks_step off l : 0 <= off -> 0 < l -> off mod 512 + l <= 512 ->
  blocks_of (off + l) = blocks_of off + (if off mod 512 =? 0 then 1 else 0) + (if off =? 6144 then 1 else 0).
Proof.
  intros Ho Hl Hfit. unfold blocks_of. destruct (Z.ltb_spec 6144 off), (Z.ltb_spec 6144 (off + l)), (Z.eqb_spec (off mod 512) 0), (Z.eqb_spec off 6144); zlia.
Qed.

Definition hst (img : Z -> block) (fi fb : Z) : host := mkhost img FSSIZE fi fb.
Lemma next_block_wp img fi fb (Q : Z -> host -> Prop) : 0 <= fb < 2 ^ 31 -> Q fb (hst img fi (fb + 1)) -> wp next_block Q (hst img fi fb).
Proof. intros Hb HQ. unfold next_block. apply wp_bind, wp_gets, wp_bind, wp_modify, wp_ret. cbn. by rewrite u32_id by lia. Qed.
Lemma rsect_wp img fi fb b (Q : block -> host -> Prop) : b < FSSIZE -> Q (img b) (hst img fi fb) -> wp (rsect b) Q (hst img fi fb).
Proof. intros Hb HQ. unfold rsect. apply wp_bind, wp_get. cbn [h_nsect hst h_img]. by rewrite (proj2 (Z.ltb_lt _ _)). Qed.
Lemma wsect_wp img fi fb b d (Q : unit -> host -> Prop) : b < FSSIZE -> Q tt (hst (updf img b d) fi fb) -> wp (wsect b d) Q (hst img fi fb).
Proof. intros Hb HQ. apply wp_modify. unfold hst in *. cbn. by rewrite Z.max_l by lia. Qed.

(** What [block_for] finds for the end of file [i]. *)
Definition placed img fi fb I C i (fb' : Z) (r : Z * dinode) (h : host) : Prop :=
  let off := Z.of_nat (length (C i)) in
  exists img1, h = hst img1 fi fb' /\ fst r < FSSIZE /\ forall bs : list Z, (0 < length bs)%nat -> off mod BSIZE + Z.of_nat (length bs) <= BSIZE ->
    appended img fb I C i bs (put_block img1 (fst r) (Z.to_nat (off mod BSIZE)) bs) fb' (as_inode (set_d_size (off + Z.of_nat (length bs)) (snd r))) (fst r).

Section block_for.
Context img (fi : Z) fb n I C (Hf : files img fb n I C) i (Hi : 1 <= i < n) (din : dinode).
Notation off := (Z.of_nat (length (C i))).
Notation bn := (off / BSIZE).
Context (Hdin : I i = as_inode (set_d_size off din)) (Hbn : bn < MAXFILE).
Notation fb' := (fb + (if off mod 512 =? 0 then 1 else 0) + (if off =? 6144 then 1 else 0)).
Context (Hroom : fb' <= FSSIZE).

Lemma fb_range : 59 <= fb <= FSSIZE.
Proof using Hf Hroom. pose proof (fi_fb _ _ _ _ _ Hf) as H. change nmeta with 59 in H. clear - H Hroom. repeat case_match; lia. Qed.
Lemma addr_range j : (j < 13)%nat -> d_addrs din !!! j = 0 \/ 59 <= d_addrs din !!! j < fb.
Proof using Hf Hi Hdin.
  intros Hj. pose proof (fi_slot _ _ _ _ _ Hf i j Hi ltac:(unfold NSLOT; lia)) as H. rewrite slot_direct, Hdin in H by done.
  change nmeta with 59 in H. cbn in H. destruct (decide (d_addrs din !!! j = 0)); [by left|by right; apply H].
Qed.
Lemma addr_xint j : (j < 13)%nat -> xint (d_addrs din !!! j) = d_addrs din !!! j.
Proof using Hf Hi Hdin Hroom. intros Hj. pose proof fb_range. change FSSIZE with 1000 in *. destruct (addr_range j Hj) as [->|]; [done|]. apply xint_id. lia. Qed.

Lemma block_direct_wp : bn < NDIRECT -> wp (block_for bn din) (placed img fi fb I C i fb') (hst img fi fb).
Proof using Hf Hi Hdin Hbn Hroom.
  intros Hlt. pose proof fb_range as Hfb. pose proof addr_range as Har. pose proof addr_xint as Hax. unfold block_for. rewrite (proj2 (Z.ltb_lt _ _)) by done.
  assert (Hj : (Z.to_nat bn < 13)%nat /\ 0 <= bn) by (clear - Hlt; change NDIRECT with 12 in Hlt; change BSIZE with 512 in *; split; zlia).
  destruct Hj as [Hj Hj0]. set (j := Z.to_nat bn) in *. rewrite Hax by done.
  pose proof (fi_dense _ _ _ _ _ Hf i bn Hi ltac:(lia)) as Hd. destruct (fi_inode _ _ _ _ _ Hf i Hi) as [HA _].
  assert (Esi : sidx bn = j) by (unfold sidx; by rewrite (proj2 (Z.ltb_lt _ _))). rewrite Esi, slot_direct, Hdin in Hd by done. cbn in Hd.
  rewrite Hdin in HA. cbn in HA. assert (Hne : off <> 6144) by (clear - Hlt; change NDIRECT with 12 in Hlt; change BSIZE with 512 in *; zlia).
  rewrite (proj2 (Z.eqb_neq off 6144)) by done. change FSSIZE with 1000 in *.
  destruct (Z.eqb_spec (d_addrs din !!! j) 0) as [E|E].
  - (* a new block *)
    assert (Hm : off mod 512 = 0) by (clear - Hd E; change BSIZE with 512 in *; assert (~ 512 * (off / 512) < off) by tauto; zlia).
    rewrite Hm in Hroom |- *. cbn [Z.eqb] in Hroom |- *. rewrite (proj2 (Z.eqb_neq off 6144)) in Hroom by done.
    apply wp_bind, wp_bind, next_block_wp; [lia|]. apply wp_ret, wp_ret. cbn [d_addrs set_d_addr]. rewrite list_lookup_total_insert_eq by lia.
    rewrite !(xint_id fb) by lia. exists img. split; [f_equal; lia|]. cbn [fst snd]. split; [change FSSIZE with 1000; lia|]. intros bs Hbs Hfit.
    replace (as_inode _) with (with_addrs I C i bs (<[j := fb]> (i_addrs (I i)))) by (unfold with_addrs; by rewrite Hdin).
    apply (place_direct img fb n I C Hf i Hi bs Hbs Hfit Hbn); [done|lia|]. right. split_and!; [by rewrite Hdin|done|lia].
  - assert (Hm : off mod 512 <> 0) by (clear - Hd E; change BSIZE with 512 in *; assert (512 * (off / 512) < off) by tauto; zlia).
    rewrite (proj2 (Z.eqb_neq (off mod 512) 0)) by done. apply wp_bind, wp_ret, wp_ret. rewrite Hax by done.
    exists img. split; [f_equal; lia|]. cbn [fst snd]. destruct (Har j Hj) as [|Hr]; [done|]. split; [change FSSIZE with 1000; lia|]. intros bs Hbs Hfit.
    replace (as_inode _) with (with_addrs I C i bs (<[j := d_addrs din !!! j]> (i_addrs (I i)))).
    + apply (place_direct img fb n I C Hf i Hi bs Hbs Hfit Hbn); [done|done|]. left. split; [by rewrite Hdin|lia].
    + unfold with_addrs. rewrite Hdin. cbn. unfold as_inode. cbn. f_equal. apply list_insert_id. apply list_lookup_lookup_total_lt. lia.
Qed.

Lemma block_indirect_wp : NDIRECT <= bn -> wp (block_for bn din) (placed img fi fb I C i fb') (hst img fi fb).
Proof using Hf Hi Hdin Hbn Hroom.
  intros Hge. pose proof fb_range as Hfb. pose proof (addr_range 12 ltac:(lia)) as Har. pose proof (addr_xint 12 ltac:(lia)) as Hax.
  unfold block_for. rewrite (proj2 (Z.ltb_ge _ _)) by done. change (Z.to_nat NDIRECT) with 12%nat. rewrite Hax.
  change NDIRECT with 12 in *. change MAXFILE with 140 in *. change FSSIZE with 1000 in *.
  pose proof (fi_ind _ _ _ _ _ Hf i Hi) as Hin. pose proof (fi_dense _ _ _ _ _ Hf i bn Hi ltac:(change MAXFILE with 140; lia)) as Hd.
  destruct (fi_inode _ _ _ _ _ Hf i Hi) as [HA _]. pose proof (fi_blk _ _ _ _ _ Hf) as Hbl.
  assert (Esi : sidx bn = S (Z.to_nat bn)) by (unfold sidx; change NDIRECT with 12; rewrite (proj2 (Z.ltb_ge _ _)) by done; lia).
  rewrite slot_direct, Hdin in Hin by lia. rewrite Hdin in HA. cbn in Hin, HA. set (e := Z.to_nat (bn - 12)).
  assert (He : (4 * e + 4 <= 512)%nat) by (unfold e; lia).
  assert (Hput : forall b d, 0 <= b < 2 ^ 32 -> length d = 512%nat -> get32 (4 * e) (put32 (4 * e) b d) = b /\ length (put32 (4 * e) b d) = 512%nat /\
    forall e', (e' < 128)%nat -> e' <> e -> get32 (4 * e') (put32 (4 * e) b d) = get32 (4 * e') d).
  { intros b d Hb Hl. rewrite get_put32, u32_id, length_put32 by lia. split_and!; [done|done|]. intros e' He' Hne. apply get_put32_ne; lia. }
  assert (Hwa : forall ind bs, as_inode (set_d_size (off + Z.of_nat (length bs)) (set_d_addr 12 ind din)) = with_addrs I C i bs (<[12%nat := ind]> (i_addrs (I i)))).
  { intros ind bs. unfold with_addrs. by rewrite Hdin. }
  destruct (Z.eqb_spec (d_addrs din !!! 12%nat) 0) as [E|E].
  - (* a new indirect block *)
    assert (Hoff : off = 6144) by (clear - Hin Hge E; change BSIZE with 512 in *; assert (~ 12 * 512 < off) by tauto; zlia).
    assert (Efb : fb' = fb + 2) by (rewrite Hoff; change (6144 mod 512 =? 0) with true; change (6144 =? 6144) with true; cbv iota; lia).
    rewrite Efb in Hroom |- *. apply wp_bind, wp_bind, next_block_wp; [lia|]. apply wp_ret. cbn [d_addrs set_d_addr].
    rewrite list_lookup_total_insert_eq by lia. rewrite !(xint_id fb) by lia. apply wp_bind, rsect_wp; [change FSSIZE with 1000; lia|].
    rewrite (fi_fresh _ _ _ _ _ Hf) by lia. unfold zero_sect. rewrite get32_zeroes by (change (Z.to_nat BSIZE) with 512%nat; lia). fold zero_sect. cbn [Z.eqb].
    apply wp_bind, wp_bind, next_block_wp; [lia|]. rewrite (xint_id (fb + 1)) by lia. apply wp_bind, wsect_wp; [change FSSIZE with 1000; lia|]. apply wp_ret, wp_ret.
    destruct (Hput (fb + 1) zero_sect ltac:(lia) ltac:(done)) as (G1 & G2 & G3). rewrite G1, (xint_id (fb + 1)) by lia.
    exists (updf img fb (put32 (4 * e) (fb + 1) zero_sect)). split; [f_equal; lia|]. cbn [fst snd]. split; [change FSSIZE with 1000; lia|].
    intros bs Hbs Hfit. rewrite Hwa. assert (HA0 : i_addrs (I i) !!! 12%nat = 0) by (by rewrite Hdin).
    apply (place_indirect img fb n I C Hf i Hi bs Hbs Hfit ltac:(change MAXFILE with 140; done) (fb + 1) fb (put32 (4 * e) (fb + 1) zero_sect) (fb + 2));
      [apply updf_eq|intros; by apply updf_ne|done|lia|lia|lia|lia|right; lia| |done|done|].
    + right. split; [|lia]. rewrite Esi, slot_indirect by lia. by rewrite HA0.
    + intros e' He' Hne. rewrite (fi_fresh _ _ _ _ _ Hf) by lia. by apply G3.
  - destruct Har as [|Har]; [done|]. set (ind := d_addrs din !!! 12%nat) in *. assert (HA12 : i_addrs (I i) !!! 12%nat = ind) by (by rewrite Hdin).
    assert (Hoff : 6144 < off) by (apply Hin; done). rewrite (proj2 (Z.eqb_neq off 6144)) in * by lia.
    assert (Hslot : slot (view img) (I i) (sidx bn) = get32 (4 * e) (img ind)).
    { rewrite Esi, slot_indirect, HA12 by lia. rewrite (proj2 (Z.eqb_neq ind 0)) by done. rewrite Hdin. cbn [view tv_blk snd]. do 2 f_equal. unfold e. lia. }
    assert (Hsr : get32 (4 * e) (img ind) <> 0 -> 59 <= get32 (4 * e) (img ind) < fb).
    { rewrite <- Hslot. apply (fi_slot _ _ _ _ _ Hf i (sidx bn) Hi). rewrite Esi. unfold NSLOT. lia. }
    apply wp_bind, wp_ret. change (d_addrs din !!! 12%nat) with ind. rewrite Hax. apply wp_bind, rsect_wp; [change FSSIZE with 1000; lia|]. rewrite Hslot in Hd.
    assert (Hins : <[12%nat := ind]> (d_addrs din) = d_addrs din) by (apply list_insert_id, list_lookup_lookup_total_lt; lia).
    assert (Hdi : set_d_addr 12 ind din = din) by (unfold set_d_addr; rewrite Hins; by destruct din).
    destruct (Z.eqb_spec (get32 (4 * e) (img ind)) 0) as [E0|E0].
    + (* a new entry *)
      assert (Hm : off mod 512 = 0) by (clear - Hd E0; change BSIZE with 512 in *; assert (~ 512 * (off / 512) < off) by tauto; zlia).
      rewrite Hm in Hroom |- *. change (0 =? 0) with true in *. cbv iota in *.
      apply wp_bind, wp_bind, next_block_wp; [lia|]. rewrite (xint_id fb) by lia. apply wp_bind, wsect_wp; [change FSSIZE with 1000; lia|]. apply wp_ret, wp_ret.
      destruct (Hput fb (img ind) ltac:(lia) (Hbl ind)) as (G1 & G2 & G3). rewrite G1, (xint_id fb) by lia.
      exists (updf img ind (put32 (4 * e) fb (img ind))). split; [f_equal; lia|]. cbn [fst snd]. split; [change FSSIZE with 1000; lia|].
      intros bs Hbs Hfit. rewrite <- Hdi, Hwa.
      apply (place_indirect img fb n I C Hf i Hi bs Hbs Hfit ltac:(change MAXFILE with 140; done) fb ind (put32 (4 * e) fb (img ind)));
        [apply updf_eq|intros; by apply updf_ne|done|lia|lia|lia|lia|by left| |done|done|done]. right. rewrite Hslot. lia.
    + assert (Hm : off mod 512 <> 0) by (clear - Hd E0; change BSIZE with 512 in *; assert (512 * (off / 512) < off) by tauto; zlia).
      rewrite (proj2 (Z.eqb_neq (off mod 512) 0)) in * by done. apply wp_bind, wp_ret, wp_ret. specialize (Hsr E0). rewrite xint_id by lia.
      exists img. split; [f_equal; lia|]. cbn [fst snd]. split; [change FSSIZE with 1000; lia|]. intros bs Hbs Hfit. rewrite <- Hdi, Hwa.
      apply (place_indirect img fb n I C Hf i Hi bs Hbs Hfit ltac:(change MAXFILE with 140; done) (get32 (4 * e) (img ind)) ind (img ind));
        [done|done|done|done|done| |lia|by left|by left|apply Hbl|done|done].
      intros E1. assert (Hs12 : slot (view img) (I i) 12 = ind) by (by rewrite slot_direct by lia).
      destruct (fi_inj _ _ _ _ _ Hf i i (sidx bn) 12%nat Hi Hi) as [_ ?]; [rewrite Esi; unfold NSLOT; lia|unfold NSLOT; lia|congruence|congruence|lia].
Qed.
Lemma block_for_wp : wp (block_for bn din) (placed img fi fb I C i fb') (hst img fi fb).
Proof using Hf Hi Hdin Hbn Hroom. destruct (decide (bn < NDIRECT)); [by apply block_direct_wp|apply block_indirect_wp; lia]. Qed.
End block_for.
