(* ===== verification/MkfsImage.v ===== *)
(** * mkfs: inodes, the whole image

    [iappend] and [ialloc] keep the image consistent, and what [main] leaves is a
    file system that satisfies the kernel's invariants and holds the files of the
    command line. *)

From S2P Require Import Prelude Params Disk Layout TxStore Fs FsBlocks FsFile FsInode FsRw Mkfs MkfsSpec.

(** ** Equal and similar images *)

Lemma files_ext img fb n I I' C C' : (forall i, I' i = I i) -> (forall i, C' i = C i) -> files img fb n I C -> files img fb n I' C'.
Proof. intros HI HC [? ? ? ? ? ? ? ? ? ? ?]. split; intros; rewrite ?HI, ?HC in *; eauto. Qed.
(** The blocks before the data do not matter. *)
Lemma slot_meta img img' fb n I C i j : files img fb n I C -> (forall b, nmeta <= b -> img' b = img b) -> 1 <= i < n ->
  slot (view img') (I i) j = slot (view img) (I i) j.
Proof.
  intros Hf Hm Hi. unfold slot. case_decide; [done|]. destruct (Z.eqb_spec (i_addrs (I i) !!! 12%nat) 0) as [|Hnz]; [done|].
  f_equal. apply Hm. pose proof (fi_slot _ _ _ _ _ Hf i 12 Hi ltac:(unfold NSLOT; lia)) as Hr. rewrite slot_direct in Hr by lia.
  cbn. by apply Hr.
Qed.
Lemma byte_meta img img' fb n I C i o : files img fb n I C -> (forall b, nmeta <= b -> img' b = img b) -> 1 <= i < n -> 0 <= o < MAXFILE * BSIZE ->
  fbyte (view img') (I i) o = fbyte (view img) (I i) o.
Proof.
  intros Hf Hm Hi Ho. unfold fbyte, fblock. rewrite (slot_meta img img' fb n I C) by done.
  destruct (Z.eqb_spec (slot (view img) (I i) (sidx (o / BSIZE))) 0) as [|Hnz]; [done|].
  destruct (fi_inode _ _ _ _ _ Hf i Hi) as [_ ->]. cbn [view tv_blk snd]. rewrite Hm; [done|].
  apply (fi_slot _ _ _ _ _ Hf) in Hnz; [lia|done|]. apply sidx_ok. change BSIZE with 512 in *. change MAXFILE with 140 in *. zlia.
Qed.
Lemma files_meta img img' fb n I C : files img fb n I C -> (forall b, nmeta <= b -> img' b = img b) -> (forall b, length (img' b) = 512%nat) ->
  files img' fb n I C.
Proof.
  intros Hf Hm Hl. pose proof (slot_meta img img' fb n I C) as Hs. pose proof Hf as [H1 H2 H3 H4 H5 H6 H7 H8 H9 H10 H11].
  pose proof (byte_meta img img' fb n I C) as Hby. split; try done.
  - intros b Hb. rewrite Hm by lia. by apply H2.
  - intros i j Hi Hj. rewrite Hs by done. by apply H5.
  - intros i i' j j' Hi Hi'. rewrite !Hs by done. by apply H6.
  - intros i b Hi Hb. rewrite Hs by done. by apply H8.
  - intros i k b Hi Hk. rewrite Hby; [by apply H10|done..|]. destruct (H7 i Hi) as [E Hle]. apply lookup_lt_Some in Hk. lia.
  - intros i o Hi Ho. rewrite Hby; [by apply H11|done..|lia].
Qed.

(** ** iappend *)

Section loop.
Context (n : Z) (i : Z) (Hi : 1 <= i < n) (fi : Z).

(** Appending leaves the blocks before the data. *)
Lemma append_meta img fb I C bs img' fb' ip' x b : files img fb n I C -> appended img fb I C i bs img' fb' ip' x -> b < nmeta -> img' b = img b.
Proof using Hi.
  intros Hf Ha Hb. pose proof (x_range _ _ _ _ _ Hf _ Hi _ _ _ _ _ Ha). apply (ap_img _ _ _ _ _ _ _ _ _ _ Ha); [lia|].
  destruct (decide (slot (view img') ip' 12 = 0)) as [|E]; [by left|right]. pose proof (ind_range _ _ _ _ _ Hf _ Hi _ _ _ _ _ Ha E). lia.
Qed.
Lemma iappend_loop fuel : forall img fb I C din p, let off := Z.of_nat (length (C i)) in let len := Z.of_nat (length p) in
  let fb' := fb + blocks_of (off + len) - blocks_of off in
  (length p < fuel)%nat -> files img fb n I C -> I i = as_inode (set_d_size off din) -> off + len <= MAXFILE * BSIZE -> fb' <= FSSIZE ->
  wp (loop fuel iappend_step (din, off, p)) (fun r h => exists img' din', r = (din', off + len) /\ h = hst img' fi fb' /\
    files img' fb' n (updf I i (as_inode (set_d_size (off + len) din'))) (updf C i (C i ++ p)) /\
    (forall b, b < nmeta -> img' b = img b) /\ same_attr (I i) (as_inode din')) (hst img fi fb).
Proof using Hi.
  induction fuel as [|fuel IH]; intros img fb I C din p off len fb' Hfuel Hf Hdin Hmax Hroom; [lia|]. cbn [loop]. apply wp_bind. unfold iappend_step.
  fold len. destruct (Z.ltb_spec 0 len) as [Hl|Hl]; cycle 1.
  { assert (p = []) as -> by (destruct p; [done|unfold len in Hl; cbn in Hl; lia]). apply wp_ret, wp_ret. unfold fb', len in *. cbn [length Z.of_nat] in *.
    rewrite !Z.add_0_r. exists img, din. split_and!; [done|f_equal; lia| |done|by rewrite Hdin]. replace (fb + _ - _) with fb by lia.
    eapply files_ext; [| |exact Hf].
    - intros k. destruct (decide (k = i)) as [->|]; [by rewrite updf_eq, Hdin|by rewrite updf_ne].
    - intros k. rewrite app_nil_r. destruct (decide (k = i)) as [->|]; [by rewrite updf_eq|by rewrite updf_ne]. }
  set (bn := off / BSIZE). set (n1 := Z.min len ((bn + 1) * BSIZE - off)).
  assert (Hn1 : 0 < n1 <= len /\ off mod BSIZE + n1 <= BSIZE) by (unfold n1, bn; change BSIZE with 512; unfold off; zlia).
  assert (Hbn : bn < MAXFILE) by (unfold bn; change BSIZE with 512 in *; change MAXFILE with 140 in *; zlia).
  rewrite (proj2 (Z.ltb_lt _ _)) by done. apply wp_bind, wp_ret, wp_bind.
  set (bs := take (Z.to_nat n1) p). assert (Hbs : Z.of_nat (length bs) = n1) by (unfold bs, len in *; rewrite length_take; lia).
  set (fb1 := fb + (if off mod 512 =? 0 then 1 else 0) + (if off =? 6144 then 1 else 0)).
  assert (Hfb1 : fb1 = fb + blocks_of (off + n1) - blocks_of off).
  { unfold fb1. rewrite (blocks_step off n1); [lia|unfold off; lia|lia|]. exact (proj2 Hn1). }
  assert (Hmono : blocks_of (off + n1) <= blocks_of (off + len)).
  { unfold blocks_of. destruct (Z.ltb_spec 6144 (off + n1)), (Z.ltb_spec 6144 (off + len)); zlia. }
  eapply wp_mono; [apply (block_for_wp img fi fb n I C Hf i Hi din Hdin Hbn); fold off; fold fb1; unfold fb' in Hroom; lia|].
  intros [x din1] h (img1 & -> & Hx & Happ). cbn [fst snd] in *. fold off in Happ. fold fb1 in Happ |- *.
  apply wp_bind, rsect_wp; [done|]. apply wp_bind, wsect_wp; [done|]. apply wp_ret.
  replace (Z.to_nat (off - bn * BSIZE)) with (Z.to_nat (off mod BSIZE)) by (unfold bn; change BSIZE with 512; f_equal; zlia).
  specialize (Happ bs ltac:(lia) ltac:(lia)). rewrite Hbs in Happ. fold bs. change (updf img1 x _) with (put_block img1 x (Z.to_nat (off mod BSIZE)) bs).
  set (img2 := put_block _ _ _ _) in *.
  pose proof (files_append _ _ _ _ _ Hf _ Hi _ _ _ _ _ Happ) as Hf2. pose proof (fun b => append_meta _ _ _ _ _ _ _ _ _ b Hf Happ) as Hm2.
  set (I2 := updf I i _) in *. set (C2 := updf C i _) in *.
  assert (HC2 : Z.of_nat (length (C2 i)) = off + n1) by (unfold C2; rewrite updf_eq, length_app; unfold off; lia).
  assert (Hdl : Z.of_nat (length (drop (Z.to_nat n1) p)) = len - n1) by (rewrite length_drop; unfold len; lia).
  specialize (IH img2 fb1 I2 C2 din1 (drop (Z.to_nat n1) p)). cbv zeta in IH. rewrite HC2, Hdl in IH.
  replace (off + n1 + (len - n1)) with (off + len) in IH by lia. rewrite u32_id by (change (MAXFILE * BSIZE) with 71680 in *; unfold off in *; lia).
  replace (fb1 + blocks_of (off + len) - blocks_of (off + n1)) with fb' in IH by (unfold fb'; lia).
  eapply wp_mono; [apply IH; [unfold len in *; lia|done|unfold I2; by rewrite updf_eq|done|done]|].
  intros r h (img3 & din3 & -> & -> & Hf3 & Hm3 & Hs3). exists img3, din3. split_and!; [done|done| | |].
  - eapply files_ext; [| |exact Hf3].
    + intros k. unfold I2. destruct (decide (k = i)) as [->|]; [by rewrite !updf_eq|by rewrite !updf_ne].
    + intros k. unfold C2. destruct (decide (k = i)) as [->|]; [|by rewrite !updf_ne]. rewrite !updf_eq, <- app_assoc. unfold bs. by rewrite take_drop.
  - intros b Hb. by rewrite Hm3, Hm2.
  - destruct (ap_attr _ _ _ _ _ _ _ _ _ _ Happ) as (A1 & A2 & A3 & A4). unfold I2 in Hs3. rewrite updf_eq in Hs3.
    destruct Hs3 as (B1 & B2 & B3 & B4). cbn in *. split_and!; cbn; congruence.
Qed.
End loop.

(** ** Inodes on disk *)

Definition base : inode := as_inode zero_din.
(** The fields that are kept in 16 bits. *)
Definition shorts_ok (ip : inode) : Prop :=
  (- 32768 <= i_type ip < 32768) /\ (- 32768 <= i_major ip < 32768) /\ (- 32768 <= i_minor ip < 32768) /\ (- 32768 <= i_nlink ip < 32768).
(** Inode [i] of the image. *)
Definition disk_inode (img : Z -> block) (i : Z) : inode := load_dinode (dinode_off i) (img (IBLOCK i sb)) base.
Lemma iblock i : IBLOCK i sb = i / 8 + 32.
Proof. done. Qed.
Lemma iblock_range i : 0 <= i < 200 -> 32 <= IBLOCK i sb < 58.
Proof. rewrite iblock. zlia. Qed.
Lemma ioff i : dinode_off i = Z.to_nat (i mod 8 * 64).
Proof. done. Qed.
Lemma ioff_fit i (d : block) : length d = 512%nat -> (dinode_off i + 64 <= length d)%nat.
Proof. intros ->. apply dinode_off_lt. Qed.

Lemma load_frame off off' ip d jp : length (i_addrs ip) = 13%nat -> (off + 64 <= length d)%nat -> (off' + 64 <= off \/ off + 64 <= off')%nat ->
  load_dinode off' (store_dinode off ip d) jp = load_dinode off' d jp.
Proof.
  intros Hl Hd Hoff. unfold load_dinode, get16, get32. rewrite !store_dinode_frame by (done || lia). f_equal.
  apply map_ext_in. intros j Hj%in_seq. unfold addr_off. by rewrite store_dinode_frame by (done || lia).
Qed.
(** Writing an inode changes that inode only. *)
Lemma disk_winode img i ip : (forall b, length (img b) = 512%nat) -> length (i_addrs ip) = 13%nat -> inode_range ip ->
  let img' := updf img (IBLOCK i sb) (store_dinode (dinode_off i) ip (img (IBLOCK i sb))) in 0 <= i ->
  (disk_inode img' i = mkinode 1 0 0 0 (i_type ip) (i_major ip) (i_minor ip) (i_nlink ip) (i_size ip) (i_addrs ip)) /\
  (forall i', 0 <= i' -> i' <> i -> disk_inode img' i' = disk_inode img i') /\ (forall b, length (img' b) = 512%nat).
Proof.
  intros Hl Ha Hr img' Hi. pose proof (ioff_fit i _ (Hl (IBLOCK i sb))) as Hfit. split_and!.
  - unfold disk_inode, img'. rewrite updf_eq, load_store_dinode by done. destruct Hr as (H1 & H2 & H3 & H4 & H5 & H6).
    rewrite !i16_id, u32_id by lia. cbn. f_equal. clear - H6. induction H6; cbn; f_equal; [apply u32_id; lia|done].
  - intros i' Hi' Hne. unfold disk_inode, img'. destruct (decide (IBLOCK i' sb = IBLOCK i sb)) as [E|E]; [|by rewrite updf_ne].
    rewrite E, updf_eq. rewrite load_frame; [done|done|done|]. rewrite !iblock in E. rewrite !ioff. zlia.
  - intros b. unfold img', updf. case_match; [|done]. rewrite length_store_dinode; [apply Hl|lia|done].
Qed.

(** ** The invariant *)

(** The image with inodes [1 .. fi-1] and blocks below [fb] in use. *)
Record mk_ok (img : Z -> block) (fi fb : Z) (I : Z -> inode) (C : Z -> list Z) : Prop := {
  mk_files : files img fb fi I C;
  mk_disk i : 1 <= i < fi -> disk_inode img i = I i /\ shorts_ok (I i);
  mk_fi : 1 <= fi <= NINODES;
  mk_sb : img 1 = splice 0 (encode_sb sb) zero_sect;
  mk_free i : fi <= i < NINODES -> i_type (disk_inode img i) = 0;
  mk_log b : 2 <= b < sb_inodestart sb -> img b = zero_sect;
  mk_room : fb <= FSSIZE
}.

Lemma mk_ext img fi fb I I' C C' : (forall i, I' i = I i) -> (forall i, C' i = C i) -> mk_ok img fi fb I C -> mk_ok img fi fb I' C'.
Proof.
  intros HI HC [H1 H2 H3 H4 H5 H6 H7]. split; try done; [by eapply files_ext|]. intros i Hi. rewrite HI. by apply H2.
Qed.
(** Inodes with addresses in the image can be stored. *)
Lemma files_range img fb n I C i : files img fb n I C -> fb <= FSSIZE -> 1 <= i < n -> shorts_ok (I i) -> inode_range (I i).
Proof.
  intros Hf Hroom Hi (H1 & H2 & H3 & H4). destruct (fi_size _ _ _ _ _ Hf i Hi) as [Hs1 Hs2].
  change (MAXFILE * BSIZE) with 71680 in Hs2. split_and!; try lia. apply Forall_forall. intros a (j & Hj)%list_elem_of_lookup.
  destruct (fi_inode _ _ _ _ _ Hf i Hi) as [Hl _]. apply lookup_lt_Some in Hj as Hlt.
  pose proof (fi_slot _ _ _ _ _ Hf i j Hi ltac:(unfold NSLOT; lia)) as Hr. rewrite slot_direct, (list_lookup_total_correct _ _ _ Hj) in Hr by lia.
  destruct (decide (a = 0)) as [->|Hnz]; [lia|]. specialize (Hr Hnz). change nmeta with 59 in Hr. change FSSIZE with 1000 in Hroom. lia.
Qed.
(** Writing inode [i] after its file has changed. *)
Lemma mk_write img fi fb I C img1 fb1 C1 i din (I1 := updf I i (as_inode din)) :
  mk_ok img fi fb I C -> files img1 fb1 fi I1 C1 -> (forall b, b < nmeta -> img1 b = img b) -> fb1 <= FSSIZE -> 1 <= i < fi ->
  shorts_ok (as_inode din) -> mk_ok (updf img1 (IBLOCK i sb) (store_dinode (dinode_off i) (as_inode din) (img1 (IBLOCK i sb)))) fi fb1 I1 C1.
Proof.
  intros [Hf Hd Hfi Hsb Hfree Hlog Hroom] Hf1 Hm Hroom1 Hi Hsh. change NINODES with 200 in *.
  assert (HIi : I1 i = as_inode din) by (unfold I1; by rewrite updf_eq). pose proof (fi_inode _ _ _ _ _ Hf1 i Hi) as [Hl _]. rewrite HIi in Hl.
  destruct (disk_winode img1 i (as_inode din)) as (E1 & E2 & E3); [apply Hf1|done| |lia|].
  { rewrite <- HIi. eapply files_range; [exact Hf1|done|done|by rewrite HIi]. }
  pose proof (iblock_range i ltac:(lia)) as Hb. assert (Hdk : forall k, 0 <= k < 200 -> disk_inode img1 k = disk_inode img k).
  { intros k Hk. unfold disk_inode. rewrite Hm; [done|]. pose proof (iblock_range k Hk). change nmeta with 59. lia. }
  change nmeta with 59 in *. split; [| |done| | | |done].
  - eapply files_meta; [exact Hf1| |done]. change nmeta with 59. intros b Hb'. by rewrite updf_ne by lia.
  - intros k Hk. destruct (decide (k = i)) as [->|Hne].
    + rewrite E1, HIi. done.
    + rewrite E2, Hdk by lia. unfold I1. rewrite updf_ne by done. by apply Hd.
  - by rewrite updf_ne, Hm by lia.
  - change NINODES with 200. intros k Hk. rewrite E2, Hdk by lia. by apply Hfree.
  - change (sb_inodestart sb) with 32 in *. intros b Hb'. rewrite updf_ne, Hm by lia. by apply Hlog.
Qed.

(** ** A new inode *)

Definition new_din (type : Z) : dinode := mkdin (xshort type) 0 0 (xshort 1) (xint 0) (replicate 13 0).
Lemma new_slot v type j : slot v (as_inode (new_din type)) j = 0.
Proof.
  destruct (decide (j < 13)%nat); [rewrite slot_direct by done|rewrite slot_indirect by lia]; cbn [as_inode i_addrs new_din d_addrs];
    by rewrite lookup_total_replicate_2 by lia.
Qed.
Lemma files_new img fb n I C type : files img fb n I C -> files img fb (n + 1) (updf I n (as_inode (new_din type))) (updf C n []).
Proof.
  intros [H1 H2 H3 H4 H5 H6 H7 H8 H9 H10 H11].
  assert (Hcase : forall k, 1 <= k < n + 1 -> k = n \/ (1 <= k < n /\ k <> n)) by lia. split; try done.
  - intros i [->|[Hi Hn]]%Hcase; [by rewrite updf_eq|rewrite updf_ne by done]. by apply H4.
  - intros i j [->|[Hi Hn]]%Hcase; [rewrite updf_eq, new_slot; done|rewrite updf_ne by done]. by apply H5.
  - intros i i' j j' [->|[Hi Hn]]%Hcase; [rewrite updf_eq, new_slot; done|rewrite (updf_ne _ _ _ i) by done].
    intros [->|[Hi' Hn']]%Hcase; [rewrite updf_eq, new_slot; congruence|rewrite (updf_ne _ _ _ i') by done]. by apply H6.
  - intros i [->|[Hi Hn]]%Hcase; [by rewrite !updf_eq|rewrite !updf_ne by done]. by apply H7.
  - intros i b [->|[Hi Hn]]%Hcase; [rewrite !updf_eq, new_slot|rewrite !updf_ne by done; by apply H8].
    cbn. change BSIZE with 512. split; [done|lia].
  - intros i [->|[Hi Hn]]%Hcase; [rewrite !updf_eq, new_slot|rewrite !updf_ne by done; by apply H9]. done.
  - intros i k b [->|[Hi Hn]]%Hcase; [by rewrite !updf_eq|rewrite !updf_ne by done]. by apply H10.
  - intros i o [->|[Hi Hn]]%Hcase; [rewrite !updf_eq; intros Ho|rewrite !updf_ne by done; by apply H11].
    unfold fbyte, fblock. rewrite new_slot. apply lookup_total_replicate_2. change BSIZE with 512. zlia.
Qed.

(** ** Operations *)

Section ops.
Context (img : Z -> block) (fi fb : Z) (I : Z -> inode) (C : Z -> list Z) (Hok : mk_ok img fi fb I C).

Lemma iblock_lt i : 0 <= i < fi -> IBLOCK i sb < FSSIZE.
Proof using Hok. intros Hi. pose proof (mk_fi _ _ _ _ _ Hok) as H. change NINODES with 200 in H. change FSSIZE with 1000. rewrite iblock. zlia. Qed.
Lemma rinode_wp i (Q : dinode -> host -> Prop) : 1 <= i < fi -> Q (as_dinode (I i)) (hst img fi fb) -> wp (rinode i) Q (hst img fi fb).
Proof using Hok.
  intros Hi HQ. unfold rinode. apply wp_bind, rsect_wp; [apply iblock_lt; lia|]. apply wp_ret.
  pose proof (mk_disk _ _ _ _ _ Hok i Hi) as [E _]. unfold disk_inode, base in E. by rewrite E.
Qed.
Lemma disk_shape i : 1 <= i < fi -> I i = as_inode (as_dinode (I i)).
Proof using Hok. intros Hi. pose proof (mk_disk _ _ _ _ _ Hok i Hi) as [<- _]. done. Qed.

(** The blocks that [len] more bytes of file [i] take. *)
Notation more i len := (blocks_of (Z.of_nat (length (C i)) + len) - blocks_of (Z.of_nat (length (C i)))).

Lemma iappend_wp i p : 1 <= i < fi -> let len := Z.of_nat (length p) in Z.of_nat (length (C i)) + len <= MAXFILE * BSIZE -> fb + more i len <= FSSIZE ->
  wp (iappend i p) (fun _ h => exists img' ip', h = hst img' fi (fb + more i len) /\
    mk_ok img' fi (fb + more i len) (updf I i ip') (updf C i (C i ++ p)) /\ same_attr (I i) ip') (hst img fi fb).
Proof using Hok.
  intros Hi len Hmax Hroom. unfold iappend. apply wp_bind, rinode_wp; [done|]. pose proof Hok as [Hf Hd Hfi Hsb Hroom0].
  destruct (fi_size _ _ _ _ _ Hf i Hi) as [Hs _]. change (MAXFILE * BSIZE) with 71680 in Hmax.
  assert (Hx : xint (d_size (as_dinode (I i))) = Z.of_nat (length (C i))) by (cbn; rewrite Hs; apply xint_id; lia). rewrite Hx. apply wp_bind.
  eapply wp_mono; [apply (iappend_loop fi i Hi fi (S (length p)) img fb I C (as_dinode (I i)) p)|].
  - lia.
  - done.
  - rewrite <- Hs. exact (disk_shape i Hi).
  - done.
  - fold len. lia.
  - intros r h (img1 & din1 & -> & -> & Hf1 & Hm1 & Hsa). fold len in Hf1, Hsa |- *. cbv zeta.
    replace (fb + blocks_of (Z.of_nat (length (C i)) + len) - blocks_of (Z.of_nat (length (C i)))) with (fb + more i len) in * by lia.
    rewrite xint_id by lia. set (din2 := set_d_size _ _) in *. unfold winode. apply wp_bind, rsect_wp; [apply iblock_lt; lia|].
    apply wsect_wp; [apply iblock_lt; lia|]. eexists _, (as_inode din2). split; [done|]. split; [|done].
    eapply mk_write; [exact Hok|done|done|done|done|]. destruct (Hd i Hi) as [_ (S1 & S2 & S3 & S4)], Hsa as (A1 & A2 & A3 & A4).
    cbn in *. unfold shorts_ok. cbn. by rewrite A1, A2, A3, A4.
Qed.
Lemma ialloc_wp type : fi < NINODES -> - 32768 <= xshort type < 32768 ->
  wp (ialloc type) (fun r h => exists img', r = fi /\ h = hst img' (fi + 1) fb /\
    mk_ok img' (fi + 1) fb (updf I fi (as_inode (new_din type))) (updf C fi [])) (hst img fi fb).
Proof using Hok.
  intros Hfi Hty. pose proof Hok as [Hf Hd Hfi0 Hsb Hfree Hlog Hroom]. change NINODES with 200 in *. unfold ialloc. apply wp_bind, wp_gets, wp_bind, wp_modify.
  cbn [freeinode hst]. change (set_freeinode _ _) with (hst img (u32 (fi + 1)) fb). rewrite u32_id by lia. fold (new_din type).
  pose proof (iblock_range fi ltac:(lia)) as Hb.
  unfold winode. apply wp_bind, wp_bind, rsect_wp; [change FSSIZE with 1000; lia|]. apply wsect_wp; [change FSSIZE with 1000; lia|]. apply wp_ret.
  eexists. split; [done|]. split; [done|]. pose proof (files_new _ _ _ _ _ type Hf) as Hf1.
  assert (Hsh : shorts_ok (as_inode (new_din type))) by (unfold shorts_ok; cbn [as_inode new_din i_type i_major i_minor i_nlink d_type d_major d_minor d_nlink]; change (xshort 1) with 1; lia).
  destruct (disk_winode img fi (as_inode (new_din type))) as (E1 & E2 & E3); [apply Hf|done| |lia|].
  { rewrite <- (updf_eq I fi (as_inode (new_din type))) in Hsh |- *. eapply files_range; [exact Hf1|done|lia|done]. }
  split; [| |change NINODES with 200; lia| | | |done].
  - eapply files_meta; [exact Hf1| |done]. change nmeta with 59. intros b Hb'. by rewrite updf_ne by lia.
  - intros k Hk. destruct (decide (k = fi)) as [->|Hne]; [by rewrite E1, updf_eq|]. rewrite E2, updf_ne by lia. apply Hd. lia.
  - by rewrite updf_ne by lia.
  - change NINODES with 200. intros k Hk. rewrite E2 by lia. apply Hfree. lia.
  - change (sb_inodestart sb) with 32 in *. intros b Hb'. rewrite updf_ne by lia. by apply Hlog.
Qed.
End ops.
