(* ===== verification/MkfsMain.v ===== *)
(** * mkfs: main

    The files of the command line, one after the other, the size of the root
    directory, and the bitmap; what [main] leaves is a file system that
    satisfies the kernel's invariants and holds those files. *)

From S2P Require Import Prelude Params Disk Layout TxStore Fs FsBlocks FsFile FsInode FsRw Mkfs MkfsSpec MkfsImage.

(** ** The command line *)

(** What a file of the command line holds, and its directory entry. *)
Definition content (a : argfile) : list Z := concat (default [] (snd a)).
Definition entry_of (k : nat) (a : argfile) : list Z := dirent_for (2 + Z.of_nat k) (skip_underscore (fst a)).
Definition root_entries (fl : list argfile) : list Z :=
  dirent_for 1 (str ".") ++ dirent_for 1 (str "..") ++ concat (imap entry_of fl).
(** The blocks that the files take, the root directory apart. *)
Definition need (fl : list argfile) : Z := foldr (fun a n => blocks_of (Z.of_nat (length (content a))) + n) 0 fl.
Definition root_len (k : nat) : Z := 16 * (2 + Z.of_nat k).

(** A file that can be opened, with a name in the current directory, that fits a
    file of the image. *)
Definition arg_ok (a : argfile) : Prop :=
  SLASH ∉ fst a /\ is_Some (snd a) /\ Z.of_nat (length (content a)) <= MAXFILE * BSIZE.

Lemma length_dirent inum name : length (dirent_for inum name) = 16%nat.
Proof.
  unfold dirent_for, encode_dirent, name_field. cbn [de_inum de_name]. rewrite !length_app, length_le_bytes, length_replicate, length_take.
  change (Z.to_nat DIRSIZ) with 14%nat. lia.
Qed.
Lemma length_root fl : Z.of_nat (length (root_entries fl)) = root_len (length fl).
Proof.
  unfold root_entries, root_len. rewrite !length_app, !length_dirent.
  enough (H : forall g : nat -> argfile -> list Z, (forall k a, length (g k a) = 16%nat) -> length (concat (imap g fl)) = (16 * length fl)%nat).
  { rewrite H; [lia|]. intros. apply length_dirent. }
  induction fl as [|a fl IH]; intros g Hg; cbn; [done|]. rewrite length_app, Hg, IH; [lia|]. intros. apply Hg.
Qed.
Lemma root_snoc fl a : root_entries (fl ++ [a]) = root_entries fl ++ entry_of (length fl) a.
Proof. unfold root_entries. rewrite imap_app, concat_app, <- !app_assoc. cbn. by rewrite app_nil_r, Nat.add_0_r. Qed.
Lemma blocks_mono a b : a <= b -> blocks_of a <= blocks_of b.
Proof. intros H. unfold blocks_of. destruct (Z.ltb_spec 6144 a), (Z.ltb_spec 6144 b); zlia. Qed.
Lemma blocks_nonneg a : 0 <= a -> 0 <= blocks_of a.
Proof. intros H. unfold blocks_of. case_match; zlia. Qed.
Lemma need_nonneg fl : 0 <= need fl.
Proof. induction fl as [|a fl IH]; [done|]. cbn [need foldr]. fold (need fl). pose proof (blocks_nonneg (Z.of_nat (length (content a)))). lia. Qed.
Lemma need_app fl fl' : need (fl ++ fl') = need fl + need fl'.
Proof. induction fl as [|b fl IH]; [done|]. cbn [app need foldr]. fold (need (fl ++ fl')) (need fl). rewrite IH. lia. Qed.

(** ** The invariant of the loop *)

Record built (fl : list argfile) (img : Z -> block) (fb : Z) (I : Z -> inode) (C : Z -> list Z) : Prop := {
  bt_ok : mk_ok img (2 + Z.of_nat (length fl)) fb I C;
  bt_fb : fb = nmeta + blocks_of (root_len (length fl)) + need fl;
  bt_root : C 1 = root_entries fl /\ i_type (I 1) = T_DIR /\ i_nlink (I 1) = 1;
  bt_file k a : fl !! k = Some a -> let i := 2 + Z.of_nat k in C i = content a /\ i_type (I i) = T_FILE /\ i_nlink (I i) = 1
}.

(** The chunks of a file that is read piece by piece. *)
Lemma chunks_wp i chunks : forall img fi fb I C (F := C i ++ concat chunks) (fb' := fb + blocks_of (Z.of_nat (length F)) - blocks_of (Z.of_nat (length (C i)))),
  mk_ok img fi fb I C -> 1 <= i < fi -> Z.of_nat (length F) <= MAXFILE * BSIZE -> fb' <= FSSIZE ->
  wp (for_each chunks (iappend i)) (fun _ h => exists img' ip', h = hst img' fi fb' /\
    mk_ok img' fi fb' (updf I i ip') (updf C i F) /\ same_attr (I i) ip') (hst img fi fb).
Proof.
  induction chunks as [|p chunks IH]; intros img fi fb I C F fb' Hok Hi Hmax Hroom; cbn [for_each].
  - apply wp_ret. unfold fb', F in *. cbn in *. rewrite app_nil_r in *. replace (fb + _ - _) with fb by lia.
    exists img, (I i). split; [done|]. split; [|done].
    eapply mk_ext; [| |exact Hok]; intros k; (destruct (decide (k = i)) as [->|]; [by rewrite updf_eq|by rewrite updf_ne]).
  - cbn [concat] in F. pose proof (blocks_mono (Z.of_nat (length (C i)) + Z.of_nat (length p)) (Z.of_nat (length F))) as Hm.
    unfold F in Hm, Hmax. rewrite !length_app in Hm, Hmax. apply wp_bind.
    eapply wp_mono; [apply (iappend_wp img fi fb I C Hok i p Hi); [lia|unfold fb', F in Hroom; rewrite !length_app in Hroom; lia]|].
    intros [] h (img1 & ip1 & -> & Hok1 & Hs1). specialize (IH _ _ _ _ _ Hok1 Hi). rewrite updf_eq in IH.
    assert (EF : (C i ++ p) ++ concat chunks = F) by (unfold F; by rewrite <- app_assoc). cbn [app] in IH. rewrite EF in IH.
    rewrite length_app, Nat2Z.inj_add in IH. replace (fb + _ + _ - _) with fb' in IH by (unfold fb'; lia).
    eapply wp_mono; [apply IH; [unfold F; rewrite !length_app; lia|done]|]. rewrite updf_eq.
    intros [] h (img2 & ip2 & -> & Hok2 & Hs2). exists img2, ip2. split; [done|]. split.
    + eapply mk_ext; [| |exact Hok2]; intros k; (destruct (decide (k = i)) as [->|]; [by rewrite !updf_eq|by rewrite !updf_ne]).
    + destruct Hs1 as (A1 & A2 & A3 & A4), Hs2 as (B1 & B2 & B3 & B4). split_and!; congruence.
Qed.

Definition built_host (fl : list argfile) (h : host) : Prop :=
  exists img fb I C, h = hst img (2 + Z.of_nat (length fl)) fb /\ built fl img fb I C.

Lemma root_len_S k : root_len (S k) = root_len k + 16.
Proof. unfold root_len. lia. Qed.
Lemma add_file_wp fl a h : built_host fl h -> arg_ok a -> (length fl < 198)%nat ->
  nmeta + blocks_of (root_len (S (length fl))) + need (fl ++ [a]) <= FSSIZE ->
  wp (add_file 1 a) (fun _ => built_host (fl ++ [a])) h.
Proof.
  intros (img & fb & I & C & -> & [Hok Hfb (HC1 & Ht1 & Hn1) Hfile]) (Hslash & [chunks Hch] & Hmax) Hk Hroom.
  destruct a as [name ch]. cbn in Hslash, Hch. subst ch. set (a := (name, Some chunks)) in *. set (fi := 2 + Z.of_nat (length fl)) in *.
  assert (Hcon : content a = concat chunks) by done. rewrite need_app in Hroom. cbn [need foldr] in Hroom. rewrite Z.add_0_r, Hcon in Hroom. rewrite Hcon in Hmax.
  pose proof (blocks_nonneg (Z.of_nat (length (concat chunks))) ltac:(lia)) as Hnn.
  unfold add_file. cbn [a]. rewrite bool_decide_eq_false_2 by done. apply wp_bind, wp_ret, wp_bind.
  eapply wp_mono; [apply (ialloc_wp _ _ _ _ _ Hok); [change NINODES with 200; unfold fi; lia|done]|].
  intros r h (img1 & -> & -> & Hok1). apply wp_bind. set (I1 := updf I fi _) in *. set (C1 := updf C fi _) in *.
  assert (HC : C1 1 = root_entries fl) by (unfold C1; rewrite updf_ne by (unfold fi; lia); done).
  assert (Hlr : Z.of_nat (length (C1 1)) = root_len (length fl)) by (rewrite HC; apply length_root).
  pose proof (iappend_wp _ _ _ _ _ Hok1 1 (dirent_for fi (skip_underscore name))) as Hap. cbv zeta in Hap. rewrite length_dirent, Hlr in Hap.
  rewrite root_len_S in Hroom. change (Z.of_nat 16) with 16 in Hap. set (fb2 := fb + _) in Hap.
  assert (Hfb2 : fb2 = nmeta + blocks_of (root_len (length fl) + 16) + need fl) by (unfold fb2; lia).
  eapply wp_mono; [apply Hap; [unfold fi; lia|unfold root_len; change (MAXFILE * BSIZE) with 71680; lia|lia]|].
  intros [] h (img2 & ip2 & -> & Hok2 & Hs2). set (I2 := updf I1 1 ip2) in *. set (C2 := updf C1 1 _) in *.
  assert (HC2 : C2 fi = []) by (unfold C2, C1; rewrite updf_ne, updf_eq by (unfold fi; lia); done).
  pose proof (chunks_wp fi chunks _ _ _ _ _ Hok2) as Hcw. cbv zeta in Hcw. rewrite HC2 in Hcw. cbn [app length] in Hcw.
  change (blocks_of (Z.of_nat 0)) with 0 in Hcw. eapply wp_mono; [apply Hcw; [unfold fi; lia|done|lia]|].
  intros [] h (img3 & ip3 & -> & Hok3 & Hs3). set (I3 := updf I2 fi ip3) in *. set (C3 := updf C2 fi _) in *.
  assert (Hfi : fi + 1 = 2 + Z.of_nat (length (fl ++ [a]))) by (rewrite length_app; cbn; unfold fi; lia).
  rewrite Hfi in Hok3 |- *. eexists img3, _, I3, C3. split; [done|]. split; [done| | |].
  - rewrite need_app, length_app. cbn [length need foldr]. rewrite Nat.add_1_r, root_len_S, Hcon. lia.
  - unfold C3, I3. rewrite !updf_ne by (unfold fi; lia). unfold C2, I2. rewrite !updf_eq, HC, root_snoc. split; [done|].
    destruct Hs2 as (A1 & _ & _ & A4). unfold I1 in A1, A4. rewrite updf_ne in A1, A4 by (unfold fi; lia). by rewrite A1, A4.
  - intros k b Hb. cbv zeta. destruct (decide (k = length fl)) as [->|Hne].
    + rewrite list_lookup_middle in Hb by done. injection Hb as <-. fold fi. unfold C3, I3. rewrite !updf_eq. split; [done|].
      destruct Hs3 as (A1 & _ & _ & A4). unfold I2, I1 in A1, A4. rewrite updf_ne, updf_eq in A1, A4 by (unfold fi; lia). by rewrite A1, A4.
    + apply lookup_snoc_Some in Hb as [[Hlt Hb]|[-> _]]; [|done]. unfold C3, I3, C2, I2, C1, I1. rewrite !updf_ne by (unfold fi; lia). by apply Hfile.
Qed.

(** ** Starting *)

Lemma zeroed_wp h : (forall b, h_img h b = zero_sect) -> h_nsect h = 0 ->
  wp (for_each (seq 0 (Z.to_nat FSSIZE)) (fun i => wsect (Z.of_nat i) zero_sect)) (fun _ h' => exists img, h' = hst img (freeinode h) (freeblock h) /\
    forall b, img b = zero_sect) h.
Proof.
  intros Hz Hn. eapply wp_mono; [apply (wp_for_seq _ (fun i h' => (forall b, h_img h' b = zero_sect) /\ h_nsect h' = Z.of_nat i /\
    freeinode h' = freeinode h /\ freeblock h' = freeblock h))|].
  - intros i h' Hi (H1 & H2 & H3 & H4). apply wp_modify. cbn. split_and!; [|lia|done|done]. intros b. case_match; [done|apply H1].
  - done.
  - intros [] h' (H1 & H2 & H3 & H4). exists (h_img h'). split; [|done]. destruct h'. cbn in *. subst. done.
Qed.
Lemma mk_start img : (forall b, img b = zero_sect) ->
  mk_ok (updf img 1 (splice 0 (encode_sb sb) zero_sect)) 1 nmeta (fun _ => base) (fun _ => []).
Proof.
  intros Hz. split; try lia; try done.
  - split; try lia; try done.
    + intros b. unfold updf. case_match; [|by rewrite Hz]. rewrite length_splice; [done|lia].
    + change nmeta with 59. intros b Hb. rewrite updf_ne, Hz by lia. done.
  - intros i Hi. change NINODES with 200 in Hi. pose proof (iblock_range i ltac:(lia)). unfold disk_inode. rewrite updf_ne, Hz by lia.
    unfold load_dinode, get16, zero_sect. cbn [i_type]. pose proof (dinode_off_lt i). change (Z.to_nat BSIZE) with 512%nat.
    by rewrite drop_replicate, take_replicate, Nat.min_l by lia.
  - intros b Hb. by rewrite updf_ne, Hz by lia.
Qed.

(** ** The bitmap *)

Lemma length_mark l : forall d, length (mark_used l d) = length d.
Proof. induction l as [|i l IH]; intros d; cbn [mark_used]; [done|]. by rewrite IH, length_insert. Qed.
Lemma bit_mark l : forall d j, length d = 512%nat -> Forall (fun i => (i < 4096)%nat) l -> 0 <= j < 4096 ->
  bit (mark_used l d) j = bool_decide (Z.to_nat j ∈ l) || bit d j.
Proof.
  induction l as [|i l IH]; intros d j Hd Hl Hj; [done|]. apply Forall_cons in Hl as [Hi Hl].
  change (mark_used (i :: l) d) with (mark_used l (set_bit (Z.of_nat i) d)). assert (Hls : length (set_bit (Z.of_nat i) d) = 512%nat) by (by rewrite <- Hd; apply length_insert).
  rewrite IH by done. rewrite bit_set by (rewrite ?Hd; lia). case_decide as Hji.
  - subst j. rewrite Nat2Z.id, orb_true_r, bool_decide_eq_true_2 by left. done.
  - assert (Z.to_nat j <> i) by lia. f_equal. apply bool_decide_ext. set_solver.
Qed.

(** ** The finished image *)

(** The blocks of the image are blocks the kernel's storage provides. *)
Definition stored (F : key -> Prop) : Prop := forall b, 0 <= b < FSSIZE -> F (1, b).
Record image_ok (fl : list argfile) (img : Z -> block) : Prop := {
  im_sb : decode_sb (img 1) = sb;
  im_log : lh_n (img (sb_logstart sb)) = 0;
  im_used b : 0 <= b < FSSIZE -> used (view img) sb 1 b = (b <? nmeta + blocks_of (root_len (length fl)) + need fl);
  im_alloc F : stored F -> alloc_ok F (view img) sb 1;
  im_file F i : stored F -> 1 <= i < 2 + Z.of_nat (length fl) -> file_ok F (view img) sb (disk_inode img i);
  im_apart i i' j j' : 1 <= i < 2 + Z.of_nat (length fl) -> 1 <= i' < 2 + Z.of_nat (length fl) -> (j < NSLOT)%nat -> (j' < NSLOT)%nat ->
    slot (view img) (disk_inode img i) j = slot (view img) (disk_inode img i') j' -> slot (view img) (disk_inode img i) j <> 0 -> i = i' /\ j = j';
  im_root : let ip := disk_inode img 1 in let len := root_len (length fl) in
    i_type ip = T_DIR /\ i_nlink ip = 1 /\ i_size ip = (len / BSIZE + 1) * BSIZE /\
    fbytes (view img) ip 0 (i_size ip) = root_entries fl ++ replicate (Z.to_nat (i_size ip - len)) 0 /\
    allocated (view img) ip 0 len /\ (allocated (view img) ip 0 (i_size ip) <-> len mod BSIZE <> 0);
  im_files k a : fl !! k = Some a -> let ip := disk_inode img (2 + Z.of_nat k) in
    i_type ip = T_FILE /\ i_nlink ip = 1 /\ i_size ip = Z.of_nat (length (content a)) /\
    fbytes (view img) ip 0 (i_size ip) = content a /\ allocated (view img) ip 0 (i_size ip);
  im_free i : 2 + Z.of_nat (length fl) <= i < NINODES -> i_type (disk_inode img i) = 0
}.

(** *** From the invariants of the run *)

Section finish.
Context (fl : list argfile) (img : Z -> block) (fb : Z) (I : Z -> inode) (C : Z -> list Z) (Hb : built fl img fb I C).
Context (Hfl : (length fl <= 198)%nat).
Notation len := (root_len (length fl)).
Notation fi := (2 + Z.of_nat (length fl)).
Definition root_size : Z := (len / BSIZE + 1) * BSIZE.
Definition root_din : dinode := set_d_size root_size (as_dinode (I 1)).
(** The root inode written back, and the bitmap. *)
Definition with_root : Z -> block := updf img (IBLOCK 1 sb) (store_dinode (dinode_off 1) (as_inode root_din) (img (IBLOCK 1 sb))).
Definition bitmap : block := mark_used (seq 0 (Z.to_nat fb)) zero_sect.
Definition final : Z -> block := updf with_root 58 bitmap.

Lemma final_data b : nmeta <= b -> final b = img b.
Proof using. change nmeta with 59. intros H. unfold final, with_root. rewrite !updf_ne; [done|change (IBLOCK 1 sb) with 32|]; clear - H; lia. Qed.
Lemma fb_bounds : 59 <= fb <= 1000.
Proof using Hb. pose proof (mk_room _ _ _ _ _ (bt_ok _ _ _ _ _ Hb)) as H. pose proof (fi_fb _ _ _ _ _ (mk_files _ _ _ _ _ (bt_ok _ _ _ _ _ Hb))) as H'. done. Qed.
Lemma root_winode : disk_inode with_root 1 = as_inode root_din /\ forall i, 0 <= i -> i <> 1 -> disk_inode with_root i = disk_inode img i.
Proof using Hb Hfl.
  pose proof (bt_ok _ _ _ _ _ Hb) as Hok. pose proof (mk_files _ _ _ _ _ Hok) as Hf. assert (H1 : 1 <= 1 < fi) by lia.
  destruct (mk_disk _ _ _ _ _ Hok 1 H1) as [_ Hsh1]. pose proof (files_range _ _ _ _ _ 1 Hf (mk_room _ _ _ _ _ Hok) H1 Hsh1) as Hr.
  destruct (disk_winode img 1 (as_inode root_din)) as (E1 & E2 & _); [apply Hf|by apply Hf| |lia|done].
  destruct Hr as (R1 & R2 & R3 & R4 & _ & R6). split_and!; try done. all: cbn; unfold root_size, root_len; change BSIZE with 512; zlia.
Qed.
Lemma final_disk i : 0 <= i < NINODES -> disk_inode final i = (if i =? 1 then as_inode root_din else disk_inode img i).
Proof using Hb Hfl.
  change NINODES with 200. intros Hi. pose proof (iblock_range i Hi). destruct root_winode as [E1 E2].
  transitivity (disk_inode with_root i); [unfold disk_inode, final; by rewrite updf_ne by lia|].
  destruct (Z.eqb_spec i 1) as [->|Hne]; [exact E1|]. apply E2; lia.
Qed.
Lemma final_inode i : 1 <= i < fi -> disk_inode final i = (if i =? 1 then as_inode root_din else I i).
Proof using Hb Hfl.
  intros Hi. rewrite final_disk by (change NINODES with 200; lia). by destruct (mk_disk _ _ _ _ _ (bt_ok _ _ _ _ _ Hb) i Hi) as [-> _].
Qed.
Lemma final_slot i j : 1 <= i < fi -> slot (view final) (disk_inode final i) j = slot (view img) (I i) j.
Proof using Hb Hfl.
  intros Hi. rewrite <- (slot_meta img final fb fi I C i j (mk_files _ _ _ _ _ (bt_ok _ _ _ _ _ Hb)) final_data Hi), final_inode by done.
  destruct (Z.eqb_spec i 1) as [->|]; [|done]. pose proof (disk_shape _ _ _ _ _ (bt_ok _ _ _ _ _ Hb) 1 ltac:(lia)) as E. unfold slot. by rewrite E.
Qed.
Lemma final_used b : 0 <= b < FSSIZE -> used (view final) sb 1 b = (b <? fb).
Proof using Hb.
  change FSSIZE with 1000. intros Hr. pose proof fb_bounds as Hfb. clear Hfl. unfold used. change (BBLOCK b sb) with (b / 4096 + 58). change BPB with 4096.
  replace (b / 4096 + 58) with 58 by zlia. cbn [view tv_blk snd]. unfold final. rewrite updf_eq, Z.mod_small by lia.
  unfold bitmap. rewrite bit_mark; [|done| |lia].
  - unfold bit, zero_sect. rewrite lookup_total_replicate_2 by (change (Z.to_nat BSIZE) with 512%nat; zlia). rewrite Z.testbit_0_l, orb_false_r.
    destruct (Z.ltb_spec b fb); [apply bool_decide_eq_true_2|apply bool_decide_eq_false_2]; rewrite elem_of_seq; lia.
  - apply Forall_seq. lia.
Qed.
Lemma final_len b : length (final b) = 512%nat.
Proof using Hb.
  clear Hfl. pose proof (mk_files _ _ _ _ _ (bt_ok _ _ _ _ _ Hb)) as Hf. pose proof (fi_blk _ _ _ _ _ Hf) as Hl.
  unfold final, with_root, updf. case_match; [unfold bitmap; by rewrite length_mark|]. case_match; [|done].
  rewrite length_store_dinode; [done| |apply ioff_fit, Hl]. cbn. pose proof (fi_inode _ _ _ _ _ Hf 1 ltac:(lia)) as [-> _]. lia.
Qed.
Lemma final_alloc F : stored F -> alloc_ok F (view final) sb 1.
Proof using Hb.
  intros HF. pose proof final_used as Hu. pose proof final_len as Hl. pose proof fb_bounds as Hfb. clear Hfl. change (sb_size sb) with 1000 in *. unfold stored in HF. change FSSIZE with 1000 in *.
  assert (Hbb : forall b, 0 <= b < 1000 -> BBLOCK b sb = 58) by (intros b Hr; change (BBLOCK b sb) with (b / 4096 + 58); zlia).
  split; change (sb_size sb) with 1000; change (sb_ninodes sb) with 200; try done.
  - rewrite Hu by lia. apply Z.ltb_lt. lia.
  - intros b Hr. rewrite Hbb by done. split_and!; [apply HF; lia|done|apply Hl].
  - intros b Hr _. split; [by apply HF|done].
  - intros b b' Hr Hr' Hf. rewrite Hu in Hf by done. rewrite Hbb by done. apply Z.ltb_ge in Hf. lia.
  - intros i Hi. pose proof (iblock_range i Hi). split_and!; [apply HF; lia|done|apply Hl].
  - intros b i Hr Hi Hf. rewrite Hu in Hf by done. apply Z.ltb_ge in Hf. pose proof (iblock_range i Hi). lia.
  - intros b i Hr Hi. rewrite Hbb by done. pose proof (iblock_range i Hi). lia.
Qed.
Lemma final_dev i : 1 <= i < fi -> i_dev (disk_inode final i) = 1 /\ length (i_addrs (disk_inode final i)) = 13%nat.
Proof using Hb Hfl.
  intros Hi. pose proof (mk_files _ _ _ _ _ (bt_ok _ _ _ _ _ Hb)) as Hf. rewrite final_inode by done.
  destruct (Z.eqb_spec i 1) as [->|]; destruct (fi_inode _ _ _ _ _ Hf _ Hi); done.
Qed.
Lemma final_file F i : stored F -> 1 <= i < fi -> file_ok F (view final) sb (disk_inode final i).
Proof using Hb Hfl.
  intros HF Hi. pose proof (mk_files _ _ _ _ _ (bt_ok _ _ _ _ _ Hb)) as Hf. pose proof fb_bounds as Hfb. destruct (final_dev i Hi) as [Hdev Hla]. split; [done| |].
  - intros j Hj. rewrite final_slot, Hdev by done. intros Hnz. pose proof (fi_slot _ _ _ _ _ Hf i j Hi Hj Hnz) as Hr. change nmeta with 59 in Hr.
    set (a := slot _ _ _) in *. split; [change (sb_size sb) with 1000; lia| |apply HF; change FSSIZE with 1000; lia|done|apply final_len| |].
    + rewrite final_used by (change FSSIZE with 1000; lia). apply Z.ltb_lt. lia.
    + change (sb_size sb) with 1000. intros b Hr'. change (BBLOCK b sb) with (b / 4096 + 58). zlia.
    + change (sb_ninodes sb) with 200. intros k Hk. pose proof (iblock_range k Hk). lia.
  - intros j j' Hj Hj'. rewrite !final_slot by done. intros E Hnz. by destruct (fi_inj _ _ _ _ _ Hf i i j j' Hi Hi Hj Hj' E Hnz).
Qed.
(** File [i] holds its bytes, and zeroes after them. *)
Lemma final_byte i o : 1 <= i < fi -> 0 <= o < MAXFILE * BSIZE -> fbyte (view final) (disk_inode final i) o = default 0 (C i !! Z.to_nat o).
Proof using Hb Hfl.
  intros Hi Ho. pose proof (mk_files _ _ _ _ _ (bt_ok _ _ _ _ _ Hb)) as Hf.
  assert (E : fbyte (view final) (disk_inode final i) o = fbyte (view img) (I i) o).
  { unfold fbyte, fblock. rewrite final_slot by done. destruct (final_dev i Hi) as [-> _], (fi_inode _ _ _ _ _ Hf i Hi) as [_ ->].
    destruct (Z.eqb_spec (slot (view img) (I i) (sidx (o / BSIZE))) 0) as [|Hnz]; [done|]. cbn [view tv_blk snd]. rewrite final_data; [done|].
    apply (fi_slot _ _ _ _ _ Hf) in Hnz; [lia|done|]. apply sidx_ok. change BSIZE with 512 in *. change MAXFILE with 140 in *. zlia. }
  rewrite E. destruct (C i !! Z.to_nat o) as [b|] eqn:Hk; cbn.
  - rewrite <- (fi_byte _ _ _ _ _ Hf i _ b Hi Hk). f_equal. lia.
  - apply lookup_ge_None in Hk. apply (fi_tail _ _ _ _ _ Hf); [done|lia].
Qed.
Lemma final_bytes i n : 1 <= i < fi -> Z.of_nat (length (C i)) <= n <= MAXFILE * BSIZE ->
  fbytes (view final) (disk_inode final i) 0 n = C i ++ replicate (Z.to_nat (n - Z.of_nat (length (C i)))) 0.
Proof using Hb Hfl.
  intros Hi Hn. apply list_eq. intros k. destruct (decide (Z.of_nat k < n)) as [Hk|Hk].
  - rewrite fbytes_lookup, final_byte by lia. replace (Z.to_nat (0 + Z.of_nat k)) with k by lia. destruct (decide (k < length (C i))%nat) as [Hl|Hl].
    + rewrite lookup_app_l by done. destruct (lookup_lt_is_Some_2 _ _ Hl) as [b ->]. done.
    + rewrite lookup_app_r, (lookup_ge_None_2 (C i)) by lia. rewrite lookup_replicate_2 by lia. done.
  - rewrite !lookup_ge_None_2; [done|rewrite length_app, length_replicate; lia|rewrite length_fbytes; lia].
Qed.
Lemma final_allocated i : 1 <= i < fi -> allocated (view final) (disk_inode final i) 0 (Z.of_nat (length (C i))).
Proof using Hb Hfl.
  intros Hi o Ho. pose proof (mk_files _ _ _ _ _ (bt_ok _ _ _ _ _ Hb)) as Hf. rewrite final_slot by done.
  destruct (fi_size _ _ _ _ _ Hf i Hi) as [E Hle]. change BSIZE with 512 in *. change MAXFILE with 140 in *.
  apply (fi_dense _ _ _ _ _ Hf i (o / 512) Hi); [change MAXFILE with 140; zlia|]. change BSIZE with 512. zlia.
Qed.
(** The size of the root takes in a block that is not there when the entries
    fill their blocks. *)
Lemma final_hole : allocated (view final) (disk_inode final 1) 0 root_size <-> len mod BSIZE <> 0.
Proof using Hb Hfl.
  pose proof (mk_files _ _ _ _ _ (bt_ok _ _ _ _ _ Hb)) as Hf. pose proof (length_root fl) as Hlr. rewrite <- (proj1 (bt_root _ _ _ _ _ Hb)) in Hlr.
  pose proof (fi_dense _ _ _ _ _ Hf 1) as Hd. rewrite Hlr in Hd. unfold root_size, allocated. change BSIZE with 512 in *. change MAXFILE with 140 in *.
  assert (Hrl : 0 <= len <= 3200) by (unfold root_len; lia). split.
  - intros H E. specialize (H (len / 512 * 512) ltac:(zlia)). rewrite final_slot in H by lia. apply Hd in H; zlia.
  - intros E o Ho. rewrite final_slot by lia. apply Hd; zlia.
Qed.

Lemma final_ok : image_ok fl final.
Proof using Hb Hfl.
  pose proof (bt_ok _ _ _ _ _ Hb) as Hok. pose proof (mk_files _ _ _ _ _ Hok) as Hf. split.
  - unfold final, with_root. change (IBLOCK 1 sb) with 32. rewrite !updf_ne by lia. rewrite (mk_sb _ _ _ _ _ Hok). vm_compute. done.
  - change (sb_logstart sb) with 2. unfold final, with_root. change (IBLOCK 1 sb) with 32. rewrite !updf_ne by lia.
    rewrite (mk_log _ _ _ _ _ Hok) by (change (sb_inodestart sb) with 32; lia). vm_compute. done.
  - intros b Hr. rewrite final_used by done. by rewrite (bt_fb _ _ _ _ _ Hb).
  - apply final_alloc.
  - intros F i. apply final_file.
  - intros i i' j j' Hi Hi' Hj Hj'. rewrite !final_slot by done. by apply (fi_inj _ _ _ _ _ Hf).
  - destruct (bt_root _ _ _ _ _ Hb) as (HC & Ht & Hn). pose proof (length_root fl) as Hlr. rewrite <- HC in Hlr |- *. cbv zeta.
    pose proof (final_inode 1 ltac:(lia)) as E. cbn [Z.eqb Pos.eqb] in E. assert (Hs : i_size (disk_inode final 1) = root_size) by (by rewrite E).
    rewrite Hs. rewrite E at 1 2. split_and!; [done|done|done| | |].
    + rewrite final_bytes; [by rewrite Hlr|lia|]. rewrite Hlr. unfold root_size, root_len. change BSIZE with 512. change MAXFILE with 140. zlia.
    + rewrite <- Hlr. apply final_allocated. lia.
    + apply final_hole.
  - intros k a Ha. cbv zeta. set (i := 2 + Z.of_nat k). assert (Hi : 1 <= i < fi) by (apply lookup_lt_Some in Ha; unfold i; lia).
    destruct (bt_file _ _ _ _ _ Hb k a Ha) as (HC & Ht & Hn). fold i in HC, Ht, Hn. destruct (fi_size _ _ _ _ _ Hf i Hi) as [Hs Hle].
    pose proof (final_inode i Hi) as E. rewrite (proj2 (Z.eqb_neq i 1)) in E by (unfold i; lia). rewrite Hs in Hle.
    assert (Hsz : i_size (disk_inode final i) = Z.of_nat (length (C i))) by (by rewrite E). rewrite Hsz, <- HC. rewrite E at 1 2. split_and!; [done|done|done| |by apply final_allocated].
    rewrite final_bytes by (done || lia). rewrite Z.sub_diag. apply app_nil_r.
  - intros i Hi. rewrite final_disk, (proj2 (Z.eqb_neq i 1)) by lia. by apply (mk_free _ _ _ _ _ Hok).
Qed.
End finish.

(** ** main *)

Lemma root_wp img : (forall b, img b = zero_sect) -> let img0 := updf img 1 (splice 0 (encode_sb sb) zero_sect) in
  wp (rootino <-- ialloc T_DIR ;; host_assert (rootino =? ROOTINO) ;;; iappend rootino (dirent_for rootino (str ".")) ;;;
      iappend rootino (dirent_for rootino (str "..")) ;;; ret rootino) (fun r h => r = 1 /\ built_host [] h) (hst img0 1 nmeta).
Proof.
  intros Hz img0. pose proof (mk_start img Hz) as Hok. apply wp_bind.
  eapply wp_mono; [apply (ialloc_wp _ _ _ _ _ Hok); done|]. intros r h (img1 & -> & -> & Hok1).
  set (I1 := updf _ 1 (as_inode _)) in *. set (C1 := updf _ 1 []) in *. assert (HC1 : C1 1 = []) by apply updf_eq.
  apply wp_bind, wp_ret, wp_bind.
  pose proof (iappend_wp _ _ _ _ _ Hok1 1 (dirent_for 1 (str "."))) as Hap0. cbv zeta in Hap0. rewrite length_dirent in Hap0.
  change (blocks_of (Z.of_nat (length (C1 1)) + Z.of_nat 16) - blocks_of (Z.of_nat (length (C1 1)))) with 1 in Hap0.
  eapply wp_mono; [apply Hap0; done|]. intros [] h (img2 & ip2 & -> & Hok2 & Hs2). apply wp_bind.
  assert (E2 : updf C1 1 (C1 1 ++ dirent_for 1 (str ".")) 1 = dirent_for 1 (str ".")) by (by rewrite updf_eq, HC1).
  set (I2 := updf I1 1 _) in *. set (C2 := updf C1 1 _) in *. pose proof (iappend_wp _ _ _ _ _ Hok2 1 (dirent_for 1 (str ".."))) as Hap.
  cbv zeta in Hap. rewrite E2, !length_dirent in Hap. change (blocks_of (Z.of_nat 16 + Z.of_nat 16) - blocks_of (Z.of_nat 16)) with 0 in Hap.
  eapply wp_mono; [apply Hap; done|]. intros [] h (img3 & ip3 & -> & Hok3 & Hs3). apply wp_ret. split; [done|].
  eexists _, _, _, _. split; [done|]. split; [exact Hok3|done| |done].
  rewrite !updf_eq. destruct Hs2 as (A1 & _ & _ & A4), Hs3 as (B1 & _ & _ & B4). unfold I2 in B1, B4. rewrite updf_eq in B1, B4.
  by rewrite B1, B4, A1, A4.
Qed.
Lemma files_wp fl h : Forall arg_ok fl -> (length fl <= 198)%nat -> nmeta + blocks_of (root_len (length fl)) + need fl <= FSSIZE ->
  built_host [] h -> wp (for_each fl (add_file 1)) (fun _ => built_host fl) h.
Proof.
  intros Hall Hlen Hroom. apply (wp_for_each _ built_host). intros done a rest h' -> Hb. rewrite length_app in *. cbn [length] in *.
  apply Forall_app in Hall as [_ [Ha _]%Forall_cons]. apply add_file_wp; [done|done|lia|].
  replace (done ++ a :: rest) with ((done ++ [a]) ++ rest) in Hroom by (by rewrite <- app_assoc). rewrite need_app in Hroom.
  pose proof (need_nonneg rest). pose proof (blocks_mono (root_len (S (length done))) (root_len (length done + S (length rest)))).
  unfold root_len in *. lia.
Qed.

(** C12. mkfs builds a file system that the kernel's file system can work on:
    given files with names that are not paths, that can be opened and fit, the
    program finishes, and its image has the superblock, an empty log, a bitmap
    that marks exactly the blocks in use, and one inode for the root and for each
    file, with distinct blocks; the root lists the files, each file holds the
    bytes that were read, and the other inodes are free.  The size of the root
    directory is rounded up, to a block more where its entries fill their
    blocks; that block is not allocated. *)
Theorem mkfs_spec fl : Forall arg_ok fl -> (length fl <= 198)%nat -> nmeta + blocks_of (root_len (length fl)) + need fl <= FSSIZE ->
  wp (mkfs_main fl) (fun _ h => image_ok fl (h_img h) /\ h_nsect h = FSSIZE) mkfs_start.
Proof.
  intros Hall Hlen Hroom. unfold mkfs_main. apply wp_bind, wp_modify, wp_bind.
  eapply wp_mono; [apply zeroed_wp; done|]. intros [] h (img & -> & Hz). cbn [freeinode freeblock set_freeblock mkfs_start].
  apply wp_bind, wsect_wp; [done|]. pose proof (root_wp img Hz) as Hr. apply wp_bind. apply wp_bind_inv in Hr.
  eapply wp_mono; [exact Hr|]. intros r h Hr1. apply wp_bind_inv in Hr1. apply wp_bind. eapply wp_mono; [exact Hr1|].
  intros [] h2 Hr2. apply wp_bind_inv in Hr2. apply wp_bind. eapply wp_mono; [exact Hr2|]. intros [] h3 Hr3.
  apply wp_bind_inv in Hr3. apply wp_bind. eapply wp_mono; [exact Hr3|]. intros [] h4 [-> Hb4].
  apply wp_bind. eapply wp_mono; [apply files_wp; done|]. intros [] h5 (img5 & fb & I & C & -> & Hb).
  apply wp_bind, (rinode_wp _ _ _ _ _ (bt_ok _ _ _ _ _ Hb)); [lia|].
  pose proof (length_root fl) as Hlr. rewrite <- (proj1 (bt_root _ _ _ _ _ Hb)) in Hlr.
  destruct (fi_size _ _ _ _ _ (mk_files _ _ _ _ _ (bt_ok _ _ _ _ _ Hb)) 1 ltac:(lia)) as [Hs Hle]. rewrite Hlr in Hs. rewrite Hs in Hle.
  cbn [as_dinode d_size]. assert (Hrl : 0 <= root_len (length fl) <= 3200) by (unfold root_len; lia).
  assert (Hrs : 0 <= root_size fl <= 4096) by (unfold root_size; change BSIZE with 512; zlia).
  rewrite Hs, (xint_id (root_len _)) by lia. fold (root_size fl). rewrite u32_id, xint_id by lia.
  unfold winode. apply wp_bind, wp_bind, rsect_wp; [done|]. apply wsect_wp; [done|]. apply wp_bind, wp_gets. cbn [freeblock hst].
  pose proof (fb_bounds _ _ _ _ _ Hb) as Hfb. unfold balloc. rewrite (proj2 (Z.ltb_lt _ _)) by (change (BSIZE * 8) with 4096; lia).
  apply wp_bind, wp_ret, wsect_wp; [done|]. split; [|done]. apply (final_ok fl img5 fb I C Hb Hlen).
Qed.

Lemma mkfs_spec_witness :
  let fl := [(str "_cat", Some [[127; 69]; [76; 70]])] in
  wp (mkfs_main fl) (fun _ h => image_ok fl (h_img h) /\ h_nsect h = FSSIZE) mkfs_start.
Proof.
  intros fl. apply (mkfs_spec fl).
  - repeat constructor; [|done|vm_compute; done]. intros Hin. repeat (apply elem_of_cons in Hin as [Hin|Hin]; [done|]). by apply elem_of_nil in Hin.
  - cbn. lia.
  - vm_compute. done.
Defined.
