(* ===== verification/User.v ===== *)
(** * User programs

    A user program is an interaction tree over the system calls of user.h: it may
    loop forever, as init and the shells do, and what it does next depends on the
    answers of the kernel.  cat.c, wc.c, echo.c, ls.c, mkdir.c, rm.c, ln.c,
    kill.c, init.c, zombie.c, sleep-echo.c, uprog_shut.c, and [stat] of ulib.c. *)

From ITree Require Import ITree.
From S2P Require Import Prelude Params Ulib Layout Fs.

(** ** System calls (user.h) *)

(** [Read] answers with the result and the bytes put in the buffer, [Pipe] with
    the result and the two descriptors; [Exec]
    answers only if it fails, and [Exit] never; [Malloc] is [malloc] of
    umalloc.c, which asks the kernel for memory; [Undefined] stands for what C
    leaves undefined. *)
Inductive sysE : Type -> Type :=
| Fork : sysE Z
| Exit : sysE void
| Wait : sysE Z
| Pipe : sysE (Z * (Z * Z))
| Write (fd : Z) (bs : list Z) : sysE Z
| Read (fd n : Z) : sysE (Z * list Z)
| Close (fd : Z) : sysE Z
| Kill (pid : Z) : sysE Z
| Exec (path : list Z) (argv : list (list Z)) : sysE Z
| Open (path : list Z) (mode : Z) : sysE Z
| Mknod (path : list Z) (major minor : Z) : sysE Z
| Unlink (path : list Z) : sysE Z
| Fstat (fd : Z) : sysE (Z * stat)
| Link (old new : list Z) : sysE Z
| Mkdir (path : list Z) : sysE Z
| Chdir (path : list Z) : sysE Z
| Dup (fd : Z) : sysE Z
| Getpid : sysE Z
| Sbrk (n : Z) : sysE Z
| Sleep (n : Z) : sysE Z
| Uptime : sysE Z
| Uprog_shut : sysE Z
| Malloc (n : Z) : sysE bool
| Undefined : sysE void.

Declare Scope user_scope.
Delimit Scope user_scope with user.
Notation "x <~ t ;; k" := (ITree.bind t (fun x => k)) (at level 100, t at next level, right associativity) : user_scope.
Notation "t ;~ k" := (ITree.bind t (fun _ => k)) (at level 100, right associativity) : user_scope.
Open Scope user_scope.

Notation prog := (itree sysE).
Definition exit {A} : prog A := v <~ trigger Exit ;; match (v : void) with end.
(** [for(i = 1; i < argc; i++)] *)
Fixpoint for_args {A} (l : list A) (f : A -> prog unit) : prog unit :=
  match l with
  | [] => Ret tt
  | a :: l' => f a ;~ for_args l' f
  end.
(** [printf]: one [write] for each byte. *)
Definition puts (fd : Z) (bs : list Z) : prog unit := for_args bs (fun c => trigger (Write fd [c]) ;~ Ret tt).
Definition fprintf (fd : Z) (fmt : list Z) (args : list arg) : prog unit := puts fd (printf fmt args).

(** [stat] of ulib.c. *)
Definition ustat (path : list Z) : prog (Z * stat) :=
  fd <~ trigger (Open path 0) ;;
  if fd <? 0 then Ret (-1, mkstat 0 0 0 0 0)
  else
    r <~ trigger (Fstat fd) ;;
    trigger (Close fd) ;~
    Ret r.

(** ** cat.c *)

Definition cat (fd : Z) : prog unit :=
  ITree.iter (fun _ : unit =>
    r <~ trigger (Read fd 512) ;;
    let '(n, buf) := r in
    if 0 <? n then trigger (Write 1 buf) ;~ Ret (inl tt)
    else if n <? 0 then fprintf 1 (str "cat: read error" ++ [10]) [] ;~ exit
    else Ret (inr tt)) tt.
Definition cat_main (argv : list (list Z)) : prog void :=
  match tl argv with
  | [] => cat 0 ;~ exit
  | files =>
      for_args files (fun name =>
        fd <~ trigger (Open name 0) ;;
        if fd <? 0 then fprintf 1 (str "cat: cannot open %s" ++ [10]) [Str (Some name)] ;~ exit
        else cat fd ;~ trigger (Close fd) ;~ Ret tt) ;~
      exit
  end.

(** ** echo.c *)

Fixpoint echo_args (args : list (list Z)) : prog unit :=
  match args with
  | [] => Ret tt
  | a :: args' =>
      fprintf 1 (str "%s%s") [Str (Some a); Str (Some (match args' with [] => [10] | _ => [32] end))] ;~
      echo_args args'
  end.
Definition echo_main (argv : list (list Z)) : prog void := echo_args (tl argv) ;~ exit.

(** ** wc.c *)

(** The bytes of " \r\t\n\v". *)
Definition blanks : list Z := [32; 13; 9; 10; 11].
(** [l], [w], [c] and [inword] after one more character. *)
Definition wc_char (st : Z * Z * Z * bool) (ch : Z) : Z * Z * Z * bool :=
  let '(l, w, c, inword) := st in
  let c := i32 (c + 1) in
  let l := if ch =? 10 then i32 (l + 1) else l in
  match strchr blanks ch with
  | Some _ => (l, w, c, false)
  | None => if negb inword then (l, i32 (w + 1), c, true) else (l, w, c, inword)
  end.
Definition wc (fd : Z) (name : list Z) : prog unit :=
  st <~ ITree.iter (fun st : Z * Z * Z * bool =>
    r <~ trigger (Read fd 512) ;;
    let '(n, buf) := r in
    if 0 <? n then Ret (inl (foldl wc_char st buf))
    else if n <? 0 then fprintf 1 (str "wc: read error" ++ [10]) [] ;~ exit
    else Ret (inr st)) (0, 0, 0, false) ;;
  let '(l, w, c, _) := st in
  fprintf 1 (str "%d %d %d %s" ++ [10]) [Num l; Num w; Num c; Str (Some name)].
Definition wc_main (argv : list (list Z)) : prog void :=
  match tl argv with
  | [] => wc 0 [] ;~ exit
  | files =>
      for_args files (fun name =>
        fd <~ trigger (Open name 0) ;;
        if fd <? 0 then fprintf 1 (str "wc: cannot open %s" ++ [10]) [Str (Some name)] ;~ exit
        else wc fd name ;~ trigger (Close fd) ;~ Ret tt) ;~
      exit
  end.

(** ** ls.c *)

(** [for(p=path+strlen(path); p >= path && *p != '/'; p--); p++;] where [n] is
    the number of bytes up to [p]. *)
Fixpoint after_slash (path : list Z) (n : nat) : nat :=
  match n with
  | O => O
  | S p => if nth p path 0 =? 47 then S p else after_slash path p
  end.
Definition fmtname (path : list Z) : list Z :=
  let p := drop (after_slash path (S (length path))) path in
  if DIRSIZ <=? Z.of_nat (length p) then p
  else p ++ replicate (Z.to_nat DIRSIZ - length p) 32.
Definition ls_line (path : list Z) (st : stat) : prog unit :=
  fprintf 1 (str "%s %d %d %d" ++ [10]) [Str (Some (fmtname path)); Num (st_type st); Num (st_ino st); Num (st_size st)].
(** The loop over the entries of directory [path], open at [fd]. *)
Definition ls_dir (path : list Z) (fd : Z) : prog unit :=
  ITree.iter (fun _ : unit =>
    r <~ trigger (Read fd sizeof_dirent) ;;
    let '(n, bs) := r in
    if negb (n =? sizeof_dirent) then Ret (inr tt)
    else
      let de := decode_dirent bs in
      if de_inum de =? 0 then Ret (inl tt)
      else
        let buf := path ++ [47] ++ cut (de_name de) in
        r <~ ustat buf ;;
        let '(ok, st) := r in
        (if ok <? 0 then fprintf 1 (str "ls: cannot stat %s" ++ [10]) [Str (Some buf)] else ls_line buf st) ;~
        Ret (inl tt)) tt.
Definition ls (path : list Z) : prog unit :=
  fd <~ trigger (Open path 0) ;;
  if fd <? 0 then fprintf 2 (str "ls: cannot open %s" ++ [10]) [Str (Some path)]
  else
    r <~ trigger (Fstat fd) ;;
    let '(ok, st) := r in
    if ok <? 0 then fprintf 2 (str "ls: cannot stat %s" ++ [10]) [Str (Some path)] ;~ trigger (Close fd) ;~ Ret tt
    else
      (if st_type st =? T_FILE then ls_line path st
       else if st_type st =? T_DIR then
         if 512 <? Z.of_nat (length path) + 1 + DIRSIZ + 1 then fprintf 1 (str "ls: path too long" ++ [10]) []
         else ls_dir path fd
       else Ret tt) ;~
      trigger (Close fd) ;~
      Ret tt.
Definition ls_main (argv : list (list Z)) : prog void :=
  match tl argv with
  | [] => ls (str ".") ;~ exit
  | paths => for_args paths ls ;~ exit
  end.

(** ** mkdir.c, rm.c, ln.c, kill.c *)

(** [for(i = 1; i < argc; i++) if(call(argv[i]) < 0){ complain; break; }] *)
Fixpoint each_until (names : list (list Z)) (call : list Z -> sysE Z) (msg : list Z) : prog unit :=
  match names with
  | [] => Ret tt
  | a :: names' =>
      r <~ trigger (call a) ;;
      if r <? 0 then fprintf 2 msg [Str (Some a)] else each_until names' call msg
  end.
Definition mkdir_main (argv : list (list Z)) : prog void :=
  match tl argv with
  | [] => fprintf 2 (str "Usage: mkdir files..." ++ [10]) [] ;~ exit
  | names => each_until names Mkdir (str "mkdir: %s failed to create" ++ [10]) ;~ exit
  end.
Definition rm_main (argv : list (list Z)) : prog void :=
  match tl argv with
  | [] => fprintf 2 (str "Usage: rm files..." ++ [10]) [] ;~ exit
  | names => each_until names Unlink (str "rm: %s failed to delete" ++ [10]) ;~ exit
  end.
Definition ln_main (argv : list (list Z)) : prog void :=
  match argv with
  | [_; old; new] =>
      r <~ trigger (Link old new) ;;
      (if r <? 0 then fprintf 2 (str "link %s %s: failed" ++ [10]) [Str (Some old); Str (Some new)] else Ret tt) ;~
      exit
  | _ => fprintf 2 (str "Usage: ln old new" ++ [10]) [] ;~ exit
  end.
Definition kill_main (argv : list (list Z)) : prog void :=
  match tl argv with
  | [] => fprintf 2 (str "usage: kill pid..." ++ [10]) [] ;~ exit
  | pids => for_args pids (fun a => trigger (Kill (atoi a)) ;~ Ret tt) ;~ exit
  end.

(** ** init.c, zombie.c, sleep-echo.c, uprog_shut.c *)

(** [while((wpid=wait()) >= 0 && wpid != pid) printf(1, "zombie!\n")] *)
Definition init_wait (pid : Z) : prog unit :=
  ITree.iter (fun _ : unit =>
    wpid <~ trigger Wait ;;
    if (0 <=? wpid) && negb (wpid =? pid) then fprintf 1 (str "zombie!" ++ [10]) [] ;~ Ret (inl tt)
    else Ret (inr tt)) tt.
(** The body of [for(;;)]. *)
Definition init_turn : prog unit :=
  fprintf 1 (str "init: starting sh" ++ [10]) [] ;~
  pid <~ trigger Fork ;;
  if pid <? 0 then fprintf 1 (str "init: fork failed" ++ [10]) [] ;~ exit
  else if pid =? 0 then
    trigger (Exec (str "sh") [str "sh"]) ;~
    fprintf 1 (str "init: exec sh failed" ++ [10]) [] ;~
    exit
  else init_wait pid.
Definition init_main : prog void :=
  fd <~ trigger (Open (str "console") O_RDWR) ;;
  (if fd <? 0 then
     trigger (Mknod (str "console") 1 1) ;~
     trigger (Open (str "console") O_RDWR) ;~
     Ret tt
   else Ret tt) ;~
  trigger (Dup 0) ;~
  trigger (Dup 0) ;~
  ITree.iter (fun _ : unit => init_turn ;~ Ret (inl tt)) tt.
Definition zombie_main : prog void :=
  pid <~ trigger Fork ;;
  (if 0 <? pid then trigger (Sleep 5) ;~ Ret tt else Ret tt) ;~
  exit.
(** The arguments are formats here. *)
Definition sleep_echo_main (argv : list (list Z)) : prog void :=
  trigger (Sleep 500) ;~
  for_args (tl argv) (fun a => fprintf 1 a [] ;~ fprintf 1 [32] []) ;~
  fprintf 1 [10] [] ;~
  exit.
Definition uprog_shut_main : prog void :=
  fprintf 1 (str "BYE~" ++ [10]) [] ;~
  trigger Uprog_shut ;~
  exit.
