(* ===== verification/UserSpec.v ===== *)
(** * What the user programs do

    Total correctness of interaction trees against a kernel that may answer in any
    of several ways, and the output of cat, wc, echo and ls. *)

From ITree Require Import ITree ITreeFacts.
From Paco Require Import paco.
From Stdlib Require Import Eqdep.
From S2P Require Import Prelude Params Ulib Layout Fs User.

(** ** Weakest preconditions *)

(** [h e w P]: in world [w] the kernel answers [e] with some [x] and [w'] such
    that [P x w'].  The program ends on every answer, in [Q]. *)
Definition kernel (W : Type) : Type := forall X, sysE X -> W -> (X -> W -> Prop) -> Prop.

Section wp.
Context {W : Type} (h : kernel W).

Inductive uwp' {R} (Q : R -> W -> Prop) : itree' sysE R -> W -> Prop :=
| uwp_Ret r w : Q r w -> uwp' Q (RetF r) w
| uwp_Tau t w : uwp' Q (observe t) w -> uwp' Q (TauF t) w
| uwp_Vis X (e : sysE X) k w (P : X -> W -> Prop) :
    h X e w P -> (forall x w', P x w' -> uwp' Q (observe (k x)) w') -> uwp' Q (VisF e k) w.
Definition uwp {R} (t : prog R) (Q : R -> W -> Prop) (w : W) : Prop := uwp' Q (observe t) w.

Lemma uwp_eq {R} (Q : R -> W -> Prop) t t' w : t ≅ t' -> uwp t Q w -> uwp t' Q w.
Proof.
  unfold uwp. intros He H. remember (observe t) as ot eqn:E. revert t t' He E.
  induction H as [r w Hr|t0 w H IH|X e k w P Hh Hk IH]; intros t t' He E; punfold He; red in He; rewrite <- E in He; inv He; try easy.
  - by constructor.
  - constructor. destruct REL as [REL|[]]. apply (IH t0 m2); [exact REL|done].
  - apply inj_pair2 in H1, H2. subst. econstructor; [exact Hh|]. intros x w' Hx. destruct (REL x) as [Hx'|[]].
    eapply IH; [exact Hx|exact Hx'|done].
Qed.
#[global] Instance uwp_proper {R} (Q : R -> W -> Prop) : Proper (eq_itree eq ==> eq ==> iff) (fun t w => uwp t Q w).
Proof. intros t t' He w w' <-. split; apply uwp_eq; [done|by symmetry]. Qed.

Lemma uwp_ret {R} (r : R) (Q : R -> W -> Prop) w : Q r w -> uwp (Ret r) Q w.
Proof. by constructor. Qed.
Lemma uwp_mono {R} (t : prog R) (Q Q' : R -> W -> Prop) w : uwp t Q w -> (forall r w', Q r w' -> Q' r w') -> uwp t Q' w.
Proof. unfold uwp. intros H HQ. induction H; econstructor; eauto. Qed.
Lemma uwp_bind {R S} (t : prog R) (k : R -> prog S) Q w : uwp t (fun r w' => uwp (k r) Q w') w -> uwp (ITree.bind t k) Q w.
Proof.
  intros H. unfold uwp in H. remember (observe t) as ot eqn:E. revert t E.
  induction H as [r w Hr|t0 w H IH|X e k0 w P Hh Hk IH]; intros t E; (eapply uwp_eq; [symmetry; apply unfold_bind|]); rewrite <- E; cbn.
  - done.
  - constructor. by apply IH.
  - econstructor; [exact Hh|]. intros x w' Hx. by apply (IH x w' Hx).
Qed.
Lemma uwp_call {X} (e : sysE X) (Q : X -> W -> Prop) w : h X e w Q -> uwp (trigger e) Q w.
Proof. intros H. econstructor; [exact H|]. intros x w' Hx. by apply uwp_ret. Qed.
Lemma uwp_iter {A R} (f : A -> prog (A + R)) Q a w :
  uwp (f a) (fun r w' => match r with inl a' => uwp (ITree.iter f a') Q w' | inr r => Q r w' end) w -> uwp (ITree.iter f a) Q w.
Proof.
  intros H. eapply uwp_eq; [symmetry; apply unfold_iter|]. apply uwp_bind. eapply uwp_mono; [exact H|].
  intros [a'|r] w' Hw; constructor; done.
Qed.
(** [exit] does not return. *)
Lemma uwp_exit {A} (Q : A -> W -> Prop) w : h void Exit w (fun _ _ => False) -> uwp exit Q w.
Proof. intros H. apply uwp_bind. econstructor; [exact H|]. intros []. Qed.
Lemma uwp_for_args {A} (f : A -> prog unit) (Inv : list A -> W -> Prop) (Q : unit -> W -> Prop) l :
  (forall a l' w, Inv (a :: l') w -> uwp (f a) (fun _ w' => Inv l' w') w) -> (forall w, Inv [] w -> Q tt w) ->
  forall w, Inv l w -> uwp (for_args l f) Q w.
Proof.
  intros Hf HQ. induction l as [|a l IH]; intros w Hw; cbn [for_args]; [by apply uwp_ret, HQ|].
  apply uwp_bind. eapply uwp_mono; [by apply Hf|]. intros [] w' Hw'. by apply IH.
Qed.
End wp.

(** ** A kernel with files *)

(** The open files with the bytes left to read, the files by name, and the bytes
    written, each with its descriptor. *)
Record world := mkw { w_fds : gmap Z (stat * list Z); w_files : gmap (list Z) (stat * list Z); w_out : list (Z * Z) }.
Definition set_fds v (w : world) : world := mkw v (w_files w) (w_out w).
Definition put (fd : Z) (bs : list Z) (w : world) : world := mkw (w_fds w) (w_files w) (w_out w ++ map (pair fd) bs).
Definition no_stat : stat := mkstat 0 0 0 0 0.
(** A read of a directory returns what is asked for, other reads may be short;
    [Fin] holds when the program exits. *)
Definition posix (Fin : world -> Prop) : kernel world := fun X e w =>
  match e in sysE X return (X -> world -> Prop) -> Prop with
  | Read fd n => fun P =>
      match w_fds w !! fd with
      | None => P (-1, []) w
      | Some (_, []) => P (0, []) w
      | Some (st, l) => 0 < n /\ forall k : nat, (1 <= k <= length l)%nat -> Z.of_nat k <= n ->
          (st_type st = T_DIR -> Z.of_nat k = Z.min n (Z.of_nat (length l))) ->
          P (Z.of_nat k, take k l) (set_fds (<[fd := (st, drop k l)]> (w_fds w)) w)
      end
  | Write fd bs => fun P => P (Z.of_nat (length bs)) (put fd bs w)
  | Open path mode => fun P =>
      match w_files w !! path with
      | None => P (-1) w
      | Some f => mode = 0 /\ forall fd, 0 <= fd -> w_fds w !! fd = None -> P fd (set_fds (<[fd := f]> (w_fds w)) w)
      end
  | Close fd => fun P => P 0 (set_fds (delete fd (w_fds w)) w)
  | Fstat fd => fun P => match w_fds w !! fd with Some (st, _) => P (0, st) w | None => P (-1, no_stat) w end
  | Exit => fun _ => Fin w
  | _ => fun _ => False
  end.

Lemma put_nil fd w : put fd [] w = w.
Proof. destruct w. unfold put. cbn. by rewrite app_nil_r. Qed.
Lemma put_app fd a b w : put fd (a ++ b) w = put fd b (put fd a w).
Proof. unfold put. cbn. by rewrite map_app, app_assoc. Qed.
Lemma put_fds fd bs v w : put fd bs (set_fds v w) = set_fds v (put fd bs w).
Proof. done. Qed.
Lemma set_fds_fds v v' w : set_fds v (set_fds v' w) = set_fds v w.
Proof. done. Qed.
Lemma set_fds_id w : set_fds (w_fds w) w = w.
Proof. by destruct w. Qed.

Lemma uwp_fin {R} (t : prog R) (Q : R -> world -> Prop) (Fin Fin' : world -> Prop) w :
  (forall w', Fin w' -> Fin' w') -> uwp (posix Fin) t Q w -> uwp (posix Fin') t Q w.
Proof.
  intros HF H. unfold uwp in *. induction H as [r w Hr|t0 w H IH|X e k w P Hh Hk IH]; [by constructor|by constructor|].
  apply (uwp_Vis _ _ _ _ _ _ P); [|done]. destruct e; cbn in *; auto.
Qed.

Section programs.
Context (Fin : world -> Prop).
Notation uwp := (uwp (posix Fin)).

Lemma puts_wp fd bs (Q : unit -> world -> Prop) w : Q tt (put fd bs w) -> uwp (puts fd bs) Q w.
Proof.
  intros HQ. apply (uwp_for_args _ _ (fun l w' => put fd l w' = put fd bs w)); [| |done].
  - intros c l w' Hw. apply uwp_bind, uwp_call. apply uwp_ret. rewrite <- Hw. by rewrite <- put_app.
  - intros w' Hw. rewrite put_nil in Hw. by rewrite Hw.
Qed.
Lemma fprintf_wp fd fmt args (Q : unit -> world -> Prop) w : Q tt (put fd (printf fmt args) w) -> uwp (fprintf fd fmt args) Q w.
Proof. apply puts_wp. Qed.
Lemma exit_wp {A} (Q : A -> world -> Prop) w : Fin w -> uwp exit Q w.
Proof. intros H. by apply uwp_exit. Qed.

(** A read before the end gives the next bytes. *)
Lemma read_wp fd n st c (Q : Z * list Z -> world -> Prop) w : 0 < n -> w_fds w !! fd = Some (st, c) -> c <> [] ->
  (forall k : nat, (1 <= k <= length c)%nat -> Z.of_nat k <= n -> (st_type st = T_DIR -> Z.of_nat k = Z.min n (Z.of_nat (length c))) ->
     Q (Z.of_nat k, take k c) (set_fds (<[fd := (st, drop k c)]> (w_fds w)) w)) ->
  uwp (trigger (Read fd n)) Q w.
Proof. intros Hn Hfd Hne HQ. apply uwp_call. cbn. rewrite Hfd. by destruct c. Qed.
Lemma read_end_wp fd n st (Q : Z * list Z -> world -> Prop) w : w_fds w !! fd = Some (st, []) -> Q (0, []) w -> uwp (trigger (Read fd n)) Q w.
Proof. intros Hfd HQ. apply uwp_call. cbn. by rewrite Hfd. Qed.
Lemma read_none_wp fd n (Q : Z * list Z -> world -> Prop) w : w_fds w !! fd = None -> Q (-1, []) w -> uwp (trigger (Read fd n)) Q w.
Proof. intros Hfd HQ. apply uwp_call. cbn. by rewrite Hfd. Qed.
Lemma write_wp fd bs (Q : Z -> world -> Prop) w : Q (Z.of_nat (length bs)) (put fd bs w) -> uwp (trigger (Write fd bs)) Q w.
Proof. intros HQ. by apply uwp_call. Qed.
Lemma uclose_wp fd (Q : Z -> world -> Prop) w : Q 0 (set_fds (delete fd (w_fds w)) w) -> uwp (trigger (Close fd)) Q w.
Proof. intros HQ. by apply uwp_call. Qed.
Lemma open_wp path f (Q : Z -> world -> Prop) w : w_files w !! path = Some f ->
  (forall fd, 0 <= fd -> w_fds w !! fd = None -> Q fd (set_fds (<[fd := f]> (w_fds w)) w)) -> uwp (trigger (Open path 0)) Q w.
Proof. intros Hf HQ. apply uwp_call. cbn. by rewrite Hf. Qed.
Lemma open_none_wp path (Q : Z -> world -> Prop) w : w_files w !! path = None -> Q (-1) w -> uwp (trigger (Open path 0)) Q w.
Proof. intros Hf HQ. apply uwp_call. cbn. by rewrite Hf. Qed.
Lemma fstat_wp fd st c (Q : Z * stat -> world -> Prop) w : w_fds w !! fd = Some (st, c) -> Q (0, st) w -> uwp (trigger (Fstat fd)) Q w.
Proof. intros Hf HQ. apply uwp_call. cbn. by rewrite Hf. Qed.
(** [fd] read to the end. *)
Definition drained (fd : Z) (st : stat) (w : world) : world := set_fds (<[fd := (st, [])]> (w_fds w)) w.

(** *** cat *)

Lemma cat_wp fd st c w (Q : unit -> world -> Prop) : w_fds w !! fd = Some (st, c) -> Q tt (put 1 c (drained fd st w)) -> uwp (cat fd) Q w.
Proof.
  remember (length c) as n eqn:Hn. revert c Hn w. induction n as [n IH] using lt_wf_ind. intros c -> w Hfd HQ. apply uwp_iter, uwp_bind.
  destruct (decide (c = [])) as [->|Hne].
  - eapply read_end_wp; [done|]. apply uwp_ret. unfold drained in HQ. by rewrite put_nil, insert_id, set_fds_id in HQ.
  - eapply read_wp; [done..|]. intros k Hk _ _. rewrite (proj2 (Z.ltb_lt 0 _)) by lia. apply uwp_bind, write_wp, uwp_ret.
    eapply (IH (length (drop k c))); [rewrite length_drop; lia|done|cbn; by rewrite lookup_insert_eq|].
    unfold drained in *. cbn. rewrite insert_insert_eq. rewrite <- (take_drop k c), put_app in HQ. exact HQ.
Qed.
Lemma fail_wp {A} fd fmt args (Q : A -> world -> Prop) w : Fin (put fd (printf fmt args) w) -> uwp (fprintf fd fmt args ;~ exit) Q w.
Proof. intros H. by apply uwp_bind, fprintf_wp, exit_wp. Qed.
Lemma cat_error_wp fd (Q : unit -> world -> Prop) w : w_fds w !! fd = None -> Fin (put 1 (printf (str "cat: read error" ++ [10]) []) w) -> uwp (cat fd) Q w.
Proof. intros Hfd HF. apply uwp_iter, uwp_bind, read_none_wp; [done|]. by apply fail_wp. Qed.

(** The output for each file in turn, up to the first one that cannot be
    opened. *)
Fixpoint each_text (text : list Z -> list Z -> list Z) (failed : list Z -> list Z) (files : gmap (list Z) (stat * list Z)) (names : list (list Z)) : list Z :=
  match names with
  | [] => []
  | name :: names' =>
      match files !! name with
      | Some (_, c) => text name c ++ each_text text failed files names'
      | None => failed name
      end
  end.
(** [for(...) { fd = open(name); ...; close(fd); }], then [exit]. *)
Lemma each_file_wp (body : list Z -> Z -> prog unit) fmt text names w (Q : void -> world -> Prop) (ok : list Z -> Prop) :
  (forall name st c, w_files w !! name = Some (st, c) -> ok c) ->
  (forall name fd st c w (Q : unit -> world -> Prop), ok c -> w_fds w !! fd = Some (st, c) -> Q tt (put 1 (text name c) (drained fd st w)) -> uwp (body name fd) Q w) ->
  Fin (put 1 (each_text text (fun name => printf fmt [Str (Some name)]) (w_files w) names) w) ->
  uwp (for_args names (fun name => fd <~ trigger (Open name 0) ;;
    if fd <? 0 then fprintf 1 fmt [Str (Some name)] ;~ exit else body name fd ;~ trigger (Close fd) ;~ Ret tt) ;~ exit) Q w.
Proof.
  intros Hok Hbody HF. set (T := each_text text _ (w_files w)) in *. apply uwp_bind.
  apply (uwp_for_args _ _ (fun l w' => w_files w' = w_files w /\ put 1 (T l) w' = put 1 (T names) w)); [| |done].
  - intros name l w' [Hf Hw]. apply uwp_bind. unfold T in Hw. cbn [each_text] in Hw.
    destruct (w_files w !! name) as [[st c]|] eqn:Hn; cycle 1.
    { apply open_none_wp; [by rewrite Hf|]. apply fail_wp. by rewrite Hw. }
    apply (open_wp _ (st, c)); [by rewrite Hf|]. intros fd Hfd Hfree. rewrite (proj2 (Z.ltb_ge fd 0)) by lia. apply uwp_bind, (Hbody name fd st c); [by eapply Hok|cbn; apply lookup_insert_eq|].
    apply uwp_bind, uclose_wp, uwp_ret. split; [done|]. unfold drained. cbn [w_fds set_fds put]. rewrite insert_insert_eq, delete_insert_id by done. etrans; [|exact Hw]. rewrite put_app. by destruct w'.
  - intros w' [_ Hw]. apply exit_wp. unfold T in Hw at 1. cbn in Hw. rewrite put_nil in Hw. by rewrite Hw.
Qed.
End programs.

(** [cat] writes the files of its command line, one after the other, or its
    input if there are none, however the kernel cuts them into pieces; it stops
    with a message at a file that cannot be opened. *)
Theorem cat_spec argv w :
  let failed name := printf (str "cat: cannot open %s" ++ [10]) [Str (Some name)] in
  let text := match tl argv with
              | [] => match w_fds w !! 0 with Some (_, c) => c | None => printf (str "cat: read error" ++ [10]) [] end
              | names => each_text (fun _ c => c) failed (w_files w) names
              end in
  uwp (posix (fun w' => w_out w' = w_out w ++ map (pair 1) text /\ (tl argv <> [] -> w_fds w' = w_fds w))) (cat_main argv) (fun _ _ => False) w.
Proof.
  intros failed text. unfold cat_main. destruct (tl argv) as [|name names] eqn:Ha.
  - apply uwp_bind. unfold text. destruct (w_fds w !! 0) as [[st c]|] eqn:H0.
    + eapply cat_wp; [done|]. by apply exit_wp.
    + by apply cat_error_wp.
  - apply (each_file_wp _ (fun _ => cat) _ (fun _ c => c) _ _ _ (fun _ => True)); [done| |done]. intros ? fd st c w' Q _ Hfd HQ. by eapply cat_wp.
Qed.

(** *** wc *)

Definition blank (c : Z) : bool := match strchr blanks c with Some _ => true | None => false end.
(** A word starts at [i]: no blank there, and none or the beginning before it. *)
Definition starts (c : list Z) (i : nat) : bool :=
  negb (blank (nth i c 0)) && match i with O => true | S j => blank (nth j c 0) end.
Definition lines (c : list Z) : Z := Z.of_nat (length (filter (fun x => x = 10) c)).
Definition words (c : list Z) : Z := Z.of_nat (length (filter (fun i => starts c i = true) (seq 0 (length c)))).
Definition in_word (c : list Z) : bool := match last c with Some x => negb (blank x) | None => false end.

Lemma starts_app c x i : (i < length c)%nat -> starts (c ++ [x]) i = starts c i.
Proof. intros Hi. unfold starts. rewrite app_nth1 by done. destruct i as [|i]; [done|]. by rewrite app_nth1 by lia. Qed.
Lemma starts_last c x : starts (c ++ [x]) (length c) = negb (blank x) && negb (in_word c).
Proof.
  unfold starts, in_word. rewrite nth_middle. f_equal. destruct c as [|y c _] using rev_ind; [done|].
  rewrite last_snoc, length_app. cbn [length]. rewrite Nat.add_1_r, app_nth1, nth_middle by (rewrite length_app; cbn; lia). by destruct (blank y).
Qed.
Lemma words_snoc c x : words (c ++ [x]) = words c + (if negb (blank x) && negb (in_word c) then 1 else 0).
Proof.
  unfold words. rewrite length_app, seq_app, filter_app, length_app. cbn [length seq]. rewrite Nat.add_0_l, Nat2Z.inj_add. f_equal.
  - do 2 f_equal. apply filter_ext_elem. intros i Hi%elem_of_seq. rewrite starts_app by lia. done.
  - rewrite filter_cons, filter_nil, starts_last. destruct (_ && _); [by rewrite decide_True|by rewrite decide_False].
Qed.
Lemma words_le c : 0 <= words c <= Z.of_nat (length c).
Proof. unfold words. pose proof (length_filter (fun i => starts c i = true) (seq 0 (length c))). rewrite length_seq in *. lia. Qed.
Lemma lines_le c : 0 <= lines c <= Z.of_nat (length c).
Proof. unfold lines. pose proof (length_filter (fun x => x = 10) c). lia. Qed.
Lemma wc_count c : Z.of_nat (length c) < 2 ^ 31 -> foldl wc_char (0, 0, 0, false) c = (lines c, words c, Z.of_nat (length c), in_word c).
Proof.
  induction c as [|x c IH] using rev_ind; [done|]. rewrite length_app. cbn [length]. intros Hl. rewrite foldl_snoc, IH by lia. unfold wc_char.
  pose proof (words_le c). pose proof (lines_le c). rewrite words_snoc. replace (in_word (c ++ [x])) with (negb (blank x)) by (unfold in_word; by rewrite last_snoc).
  assert (El : (if x =? 10 then i32 (lines c + 1) else lines c) = lines (c ++ [x])).
  { unfold lines at 3. rewrite filter_app, length_app, filter_cons, filter_nil. destruct (Z.eqb_spec x 10).
    - rewrite decide_True, i32_id by (done || lia). unfold lines. cbn. lia.
    - rewrite decide_False by done. unfold lines. cbn. lia. }
  rewrite El, (i32_id (Z.of_nat _ + 1)) by lia. rewrite Nat2Z.inj_add. unfold blank. destruct (strchr blanks x); cbn [negb andb].
  - by rewrite Z.add_0_r.
  - destruct (in_word c); cbn [negb]; [by rewrite Z.add_0_r|]. by rewrite i32_id by lia.
Qed.

Definition wc_text (name c : list Z) : list Z :=
  printf (str "%d %d %d %s" ++ [10]) [Num (lines c); Num (words c); Num (Z.of_nat (length c)); Str (Some name)].

Section wc.
Context (Fin : world -> Prop).
Notation uwp := (uwp (posix Fin)).
Lemma wc_wp fd name st c w (Q : unit -> world -> Prop) : Z.of_nat (length c) < 2 ^ 31 -> w_fds w !! fd = Some (st, c) ->
  Q tt (put 1 (wc_text name c) (drained fd st w)) -> uwp (wc fd name) Q w.
Proof.
  intros Hlen Hfd HQ. apply uwp_bind.
  enough (H : forall n c a w (Q : Z * Z * Z * bool -> world -> Prop), length c = n -> w_fds w !! fd = Some (st, c) -> Q (foldl wc_char a c) (drained fd st w) ->
    uwp (ITree.iter (fun st : Z * Z * Z * bool => r <~ trigger (Read fd 512) ;; let '(n, buf) := r in
      if 0 <? n then Ret (inl (foldl wc_char st buf)) else if n <? 0 then fprintf 1 (str "wc: read error" ++ [10]) [] ;~ exit else Ret (inr st)) a) Q w).
  { eapply H; [done|done|]. rewrite wc_count by done. by apply fprintf_wp. }
  clear. intros n. induction n as [n IH] using lt_wf_ind. intros c a w Q <- Hfd HQ. apply uwp_iter, uwp_bind. destruct (decide (c = [])) as [->|Hne].
  - eapply read_end_wp; [done|]. apply uwp_ret. unfold drained in HQ. by rewrite insert_id, set_fds_id in HQ.
  - eapply read_wp; [done..|]. intros k Hk _ _. rewrite (proj2 (Z.ltb_lt 0 _)) by lia. apply uwp_ret.
    eapply (IH (length (drop k c))); [rewrite length_drop; lia|done|cbn; by rewrite lookup_insert_eq|].
    unfold drained in *. cbn [w_fds set_fds]. by rewrite insert_insert_eq, <- foldl_app, take_drop.
Qed.
Lemma wc_error_wp fd name (Q : unit -> world -> Prop) w : w_fds w !! fd = None -> Fin (put 1 (printf (str "wc: read error" ++ [10]) []) w) -> uwp (wc fd name) Q w.
Proof. intros Hfd HF. apply uwp_bind, uwp_iter, uwp_bind, read_none_wp; [done|]. by apply fail_wp. Qed.
End wc.

(** C31. [wc] prints the numbers of lines, words and characters of its files (or of its
    input), however the kernel cuts them into pieces; a word is a longest run of
    characters that are not blanks. *)
Theorem wc_spec argv w :
  (forall name st c, w_files w !! name = Some (st, c) -> Z.of_nat (length c) < 2 ^ 31) ->
  (forall st c, w_fds w !! 0 = Some (st, c) -> Z.of_nat (length c) < 2 ^ 31) ->
  let failed name := printf (str "wc: cannot open %s" ++ [10]) [Str (Some name)] in
  let text := match tl argv with
              | [] => match w_fds w !! 0 with Some (_, c) => wc_text [] c | None => printf (str "wc: read error" ++ [10]) [] end
              | names => each_text wc_text failed (w_files w) names
              end in
  uwp (posix (fun w' => w_out w' = w_out w ++ map (pair 1) text /\ (tl argv <> [] -> w_fds w' = w_fds w))) (wc_main argv) (fun _ _ => False) w.
Proof.
  intros Hfiles Hin failed text. unfold wc_main. destruct (tl argv) as [|name names] eqn:Ha.
  - apply uwp_bind. unfold text. destruct (w_fds w !! 0) as [[st c]|] eqn:H0.
    + eapply wc_wp; [by eapply Hin|done|]. by apply exit_wp.
    + by apply wc_error_wp.
  - apply (each_file_wp _ (fun name fd => wc fd name) _ wc_text _ _ _ (fun c => Z.of_nat (length c) < 2 ^ 31)); [done| |done].
    intros ? fd st c w' Q Hc Hfd HQ. by eapply wc_wp.
Qed.

Lemma wc_spec_witness : (* wc a, where a holds "to be\n or" *)
  let w := mkw ∅ {[ str "a" := (no_stat, str "to be" ++ [10] ++ str " or") ]} [] in
  uwp (posix (fun w' => w_out w' = map (pair 1) (str "1 3 9 a" ++ [10]))) (wc_main [str "wc"; str "a"]) (fun _ _ => False) w.
Proof.
  intros w. pose proof (wc_spec [str "wc"; str "a"] w) as H. cbv zeta in H.
  eapply uwp_fin; [|apply H].
  - intros w' [-> _]. vm_compute. done.
  - intros name st c. unfold w. cbn [w_files]. intros [_ [= <- <-]]%lookup_singleton_Some. vm_compute. done.
  - done.
Defined.

(** *** echo *)

Fixpoint echo_text (args : list (list Z)) : list Z :=
  match args with
  | [] => []
  | [a] => a ++ [10]
  | a :: args' => a ++ [32] ++ echo_text args'
  end.
Lemma printf_ss a b : printf (str "%s%s") [Str (Some a); Str (Some b)] = a ++ b.
Proof. change (a ++ b ++ [] = a ++ b). by rewrite app_nil_r. Qed.
(** [echo] prints its arguments with spaces between them and a newline at the
    end, and nothing without arguments. *)
Lemma echo_spec argv w :
  uwp (posix (fun w' => w' = put 1 (echo_text (tl argv)) w)) (echo_main argv) (fun _ _ => False) w.
Proof.
  unfold echo_main. apply uwp_bind. enough (H : forall Fin args w (Q : unit -> world -> Prop), Q tt (put 1 (echo_text args) w) -> uwp (posix Fin) (echo_args args) Q w).
  { apply H. by apply exit_wp. }
  clear. intros Fin args. induction args as [|a args IH]; intros w Q HQ; cbn [echo_args]; [apply uwp_ret; by rewrite put_nil in HQ|].
  apply uwp_bind, fprintf_wp, IH. rewrite <- put_app. destruct args as [|b args]; cbn [echo_text] in HQ |- *.
  - by rewrite printf_ss, app_nil_r.
  - by rewrite printf_ss, <- app_assoc.
Qed.

(** *** ls *)

Definition pad (name : list Z) : list Z := name ++ replicate (Z.to_nat DIRSIZ - length name) 32.
Lemma after_slash_pre path n : (forall i, (i < n)%nat -> nth i path 0 <> 47) -> after_slash path n = O.
Proof. induction n as [|p IH]; intros H; cbn; [done|]. rewrite (proj2 (Z.eqb_neq _ _)) by (apply H; lia). apply IH. intros i Hi. apply H. lia. Qed.
Lemma after_slash_at path i : forall n, (i < n)%nat -> nth i path 0 = 47 -> (forall j, (i < j < n)%nat -> nth j path 0 <> 47) -> after_slash path n = S i.
Proof.
  induction n as [|p IH]; intros Hi Hs H; [lia|]. cbn. destruct (decide (p = i)) as [->|]; [by rewrite Hs|].
  rewrite (proj2 (Z.eqb_neq _ _)) by (apply H; lia). apply IH; [lia|done|]. intros j Hj. apply H. lia.
Qed.
Lemma no_slash name i : 47 ∉ name -> nth i name 0 <> 47.
Proof. intros Hn E. destruct (nth_in_or_default i name 0) as [Hi|Hd]; [|congruence]. apply Hn. rewrite <- E. by apply list_elem_of_In. Qed.
(** The name after the last slash, padded with blanks to 14 characters. *)
Lemma fmtname_spec dir name : 47 ∉ name -> fmtname (dir ++ [47] ++ name) = pad name /\ fmtname name = pad name.
Proof.
  intros Hn. unfold fmtname, pad.
  assert (Hp : forall p : list Z, (if DIRSIZ <=? Z.of_nat (length p) then p else p ++ replicate (Z.to_nat DIRSIZ - length p) 32) = p ++ replicate (Z.to_nat DIRSIZ - length p) 32).
  { intros p. destruct (Z.leb_spec DIRSIZ (Z.of_nat (length p))) as [H|H]; [|done].
    replace (Z.to_nat DIRSIZ - length p)%nat with O by lia. by rewrite app_nil_r. }
  split; rewrite Hp.
  - rewrite (after_slash_at _ (length dir)); [|rewrite length_app; cbn; lia|cbn; apply nth_middle|].
    + replace (drop (S (length dir)) _) with name; [done|]. rewrite app_assoc, drop_app_length'; [done|]. rewrite length_app. cbn. lia.
    + intros j Hj. rewrite app_nth2 by lia. destruct (j - length dir)%nat eqn:E; [lia|]. cbn. by apply no_slash.
  - rewrite after_slash_pre; [done|]. intros i _. by apply no_slash.
Qed.

(** A directory entry as it is stored. *)
Definition entry_ok (de : dirent) : Prop := 0 <= de_inum de < 65536 /\ length (de_name de) = 14%nat /\ 47 ∉ de_name de.
Lemma length_entry de : entry_ok de -> length (encode_dirent de) = 16%nat.
Proof. intros (_ & H & _). unfold encode_dirent. by rewrite length_app, length_le_bytes, H. Qed.
Lemma decode_encode de : entry_ok de -> decode_dirent (encode_dirent de) = de.
Proof.
  intros (Hi & Hl & _). destruct de as [i nm]. cbn in *. unfold decode_dirent, encode_dirent, get16. cbn [de_inum de_name]. f_equal.
  - change (le_value (take 2 (le_bytes 2 i ++ nm)) = i). rewrite take_app_length' by (by rewrite length_le_bytes). by rewrite le_value_bytes, Z.mod_small.
  - change (take 14 (drop 2 (le_bytes 2 i ++ nm)) = nm). rewrite drop_app_length' by (by rewrite length_le_bytes). apply take_ge. lia.
Qed.
Lemma cut_sub l x : x ∈ cut l -> x ∈ l.
Proof. induction l as [|c l IH]; cbn; [done|]. case_match; [by intros ?%elem_of_nil|]. rewrite !elem_of_cons. tauto. Qed.

Definition stat_text (name : list Z) (st : stat) : list Z :=
  printf (str "%s %d %d %d" ++ [10]) [Str (Some (pad name)); Num (st_type st); Num (st_ino st); Num (st_size st)].
(** The line for an entry of directory [path]. *)
Definition entry_text (files : gmap (list Z) (stat * list Z)) (path : list Z) (de : dirent) : list Z :=
  if de_inum de =? 0 then []
  else
    let name := cut (de_name de) in
    let full := path ++ [47] ++ name in
    match files !! full with
    | Some (st, _) => stat_text name st
    | None => printf (str "ls: cannot stat %s" ++ [10]) [Str (Some full)]
    end.

Section ls.
Context (Fin : world -> Prop).
Notation uwp := (uwp (posix Fin)).
Lemma ustat_wp path w (Q : Z * stat -> world -> Prop) :
  match w_files w !! path with Some (st, _) => Q (0, st) w | None => Q (-1, no_stat) w end -> uwp (ustat path) Q w.
Proof.
  intros HQ. apply uwp_bind. destruct (w_files w !! path) as [[st c]|] eqn:Hp.
  - apply (open_wp _ _ (st, c)); [done|]. intros fd Hfd Hfree. rewrite (proj2 (Z.ltb_ge fd 0)) by lia. apply uwp_bind.
    eapply fstat_wp; [cbn; apply lookup_insert_eq|]. apply uwp_bind, uclose_wp, uwp_ret. cbn [w_fds set_fds].
    rewrite delete_insert_id by done. by destruct w.
  - by apply open_none_wp, uwp_ret.
Qed.
Lemma ls_line_wp dir name st (Q : unit -> world -> Prop) w : 47 ∉ name -> Q tt (put 1 (stat_text name st) w) -> uwp (ls_line (dir ++ [47] ++ name) st) Q w.
Proof. intros Hn HQ. apply fprintf_wp. by rewrite (proj1 (fmtname_spec dir name Hn)). Qed.

Lemma ls_dir_wp path fd st w des (Q : unit -> world -> Prop) : st_type st = T_DIR -> Forall entry_ok des ->
  w_fds w !! fd = Some (st, concat (map encode_dirent des)) ->
  Q tt (put 1 (concat (map (entry_text (w_files w) path) des)) (drained fd st w)) -> uwp (ls_dir path fd) Q w.
Proof.
  intros Hst Hdes. revert w. induction Hdes as [|de des Hde Hdes IH]; intros w Hfd HQ; apply uwp_iter, uwp_bind.
  - eapply read_end_wp; [done|]. apply uwp_ret. cbn in HQ. rewrite put_nil in HQ. unfold drained in HQ. by rewrite insert_id, set_fds_id in HQ.
  - cbn [map concat] in *. pose proof (length_entry de Hde) as Hl. eapply read_wp; [done|done| |].
    { intros [H _]%app_eq_nil. by rewrite H in Hl. }
    intros k Hk _ Hdir. specialize (Hdir Hst). rewrite length_app, Hl in Hdir. change sizeof_dirent with 16 in Hdir. assert (k = 16%nat) as -> by lia.
    rewrite take_app_length', drop_app_length' by done.
    cbv beta iota. change (negb (Z.of_nat 16 =? sizeof_dirent)) with false. cbv iota. rewrite decode_encode by done. set (w1 := set_fds _ w).
    assert (IH' : Q tt (put 1 (concat (map (entry_text (w_files w) path) des)) (drained fd st (put 1 (entry_text (w_files w) path de) w1))) ->
      uwp (ls_dir path fd) Q (put 1 (entry_text (w_files w) path de) w1)) by (intros H; apply IH; [cbn; apply lookup_insert_eq|done]).
    rewrite put_app in HQ. assert (HQ' : uwp (ls_dir path fd) Q (put 1 (entry_text (w_files w) path de) w1)).
    { apply IH'. unfold drained, w1 in *. cbn. by rewrite insert_insert_eq. }
    clear IH IH' HQ. unfold entry_text in HQ'. destruct (Z.eqb_spec (de_inum de) 0); [apply uwp_ret; by rewrite put_nil in HQ'|].
    assert (Hns : 47 ∉ cut (de_name de)) by (intros H; by apply Hde, cut_sub).
    apply uwp_bind, ustat_wp. change (w_files w1) with (w_files w). destruct (w_files w !! _) as [[st' c']|].
    + apply uwp_bind, ls_line_wp; [done|]. by apply uwp_ret.
    + apply uwp_bind, fprintf_wp. by apply uwp_ret.
Qed.
End ls.

(** The entries in the bytes of a directory. *)
Fixpoint entries (n : nat) (c : list Z) : list dirent :=
  match n with
  | O => []
  | S n' => decode_dirent (take 16 c) :: entries n' (drop 16 c)
  end.
Definition entries_of (c : list Z) : list dirent := entries (length c / 16) c.
Definition dir_ok (c : list Z) : Prop := exists des, Forall entry_ok des /\ c = concat (map encode_dirent des).
Lemma entries_encode des : Forall entry_ok des -> entries_of (concat (map encode_dirent des)) = des.
Proof.
  intros H. assert (Hl : (length (concat (map encode_dirent des)) / 16 = length des)%nat).
  { induction H as [|de des Hde _ IH]; [done|]. cbn [map concat length]. rewrite length_app, (length_entry de Hde).
    replace (16 + _)%nat with (length (concat (map encode_dirent des)) + 1 * 16)%nat by lia. rewrite Nat.div_add by lia. lia. }
  unfold entries_of. rewrite Hl. clear Hl. induction H as [|de des Hde _ IH]; [done|]. cbn [map concat length entries].
  rewrite take_app_length', drop_app_length', decode_encode, IH by (done || by rewrite length_entry). done.
Qed.

(** What [ls] writes about [path], with the descriptors it writes to. *)
Definition ls_out (files : gmap (list Z) (stat * list Z)) (path : list Z) : list (Z * Z) :=
  match files !! path with
  | None => map (pair 2) (printf (str "ls: cannot open %s" ++ [10]) [Str (Some path)])
  | Some (st, c) =>
      if st_type st =? T_FILE then
        map (pair 1) (printf (str "%s %d %d %d" ++ [10]) [Str (Some (fmtname path)); Num (st_type st); Num (st_ino st); Num (st_size st)])
      else if st_type st =? T_DIR then
        if 512 <? Z.of_nat (length path) + 1 + DIRSIZ + 1 then map (pair 1) (printf (str "ls: path too long" ++ [10]) [])
        else map (pair 1) (concat (map (entry_text files path) (entries_of c)))
      else []
  end.

Lemma ls_wp Fin path w (Q : unit -> world -> Prop) :
  (forall st c, w_files w !! path = Some (st, c) -> st_type st = T_DIR -> dir_ok c) ->
  Q tt (mkw (w_fds w) (w_files w) (w_out w ++ ls_out (w_files w) path)) -> uwp (posix Fin) (ls path) Q w.
Proof.
  intros Hdir HQ. apply uwp_bind. unfold ls_out in HQ. destruct (w_files w !! path) as [[st c]|] eqn:Hp; cycle 1.
  { apply open_none_wp; [done|]. by apply fprintf_wp. }
  apply (open_wp _ _ (st, c)); [done|]. intros fd Hfd Hfree. rewrite (proj2 (Z.ltb_ge fd 0)) by lia. apply uwp_bind.
  eapply fstat_wp; [cbn; apply lookup_insert_eq|]. cbv iota. change (0 <? 0) with false. cbv iota. set (w1 := set_fds _ w).
  assert (Hclose : forall out v, w_fds v = <[fd := out]> (w_fds w) ->
    Q tt (mkw (w_fds w) (w_files v) (w_out v)) -> uwp (posix Fin) (trigger (Close fd) ;~ Ret tt) Q v).
  { intros out v Hv HQ'. apply uwp_bind, uclose_wp, uwp_ret. rewrite Hv, delete_insert_id by done. exact HQ'. }
  apply uwp_bind. destruct (Z.eqb_spec (st_type st) T_FILE); [by eapply fprintf_wp, Hclose|].
  destruct (Z.eqb_spec (st_type st) T_DIR); cycle 1.
  { apply uwp_ret. eapply Hclose; [done|]. cbn. by rewrite app_nil_r in HQ. }
  destruct (_ <? _); [by eapply fprintf_wp, Hclose|]. destruct (Hdir st c) as (des & Hdes & ->); [done..|].
  rewrite entries_encode in HQ by done. eapply (ls_dir_wp _ _ _ st _ des); [done|done|cbn; apply lookup_insert_eq|].
  eapply Hclose; [cbn; by rewrite insert_insert_eq|]. exact HQ.
Qed.
(** [ls] lists each of its arguments, "." without any: a file by a line with its
    name padded to 14 characters, its type, inode number and size, a directory by
    such a line for each entry in use; every descriptor is closed again. *)
Theorem ls_spec argv w :
  (forall path st c, w_files w !! path = Some (st, c) -> st_type st = T_DIR -> dir_ok c) ->
  let paths := match tl argv with [] => [str "."] | l => l end in
  uwp (posix (fun w' => w' = mkw (w_fds w) (w_files w) (w_out w ++ concat (map (ls_out (w_files w)) paths)))) (ls_main argv) (fun _ _ => False) w.
Proof.
  intros Hdir paths. unfold ls_main. destruct (tl argv) as [|p ps] eqn:Ha; apply uwp_bind.
  - apply ls_wp; [by apply Hdir|]. apply exit_wp. cbn. by rewrite app_nil_r.
  - fold paths. apply (uwp_for_args _ _ (fun l w' => w_files w' = w_files w /\
      mkw (w_fds w') (w_files w') (w_out w' ++ concat (map (ls_out (w_files w)) l)) = mkw (w_fds w) (w_files w) (w_out w ++ concat (map (ls_out (w_files w)) paths)))); [| |done].
    + intros a l w' [Hf Hw]. apply ls_wp; [rewrite Hf; by apply Hdir|]. split; [done|]. cbn [w_fds w_files w_out]. rewrite Hf, <- app_assoc. rewrite Hf in Hw. exact Hw.
    + intros w' [_ Hw]. apply exit_wp. etrans; [|exact Hw]. cbn. rewrite app_nil_r. by destruct w'.
Qed.

Lemma ls_spec_witness : (* ls d, a directory with one file *)
  let w := mkw ∅ {[ str "d" := (mkstat T_DIR 1 2 1 32, encode_dirent (mkde 5 (str "a" ++ replicate 13 0)) ++ encode_dirent (mkde 0 (replicate 14 0)));
    str "d/a" := (mkstat T_FILE 1 5 1 7, str "content") ]} [] in
  uwp (posix (fun w' => w_out w' = map (pair 1) (str "a              2 5 7" ++ [10]))) (ls_main [str "ls"; str "d"]) (fun _ _ => False) w.
Proof.
  intros w. pose proof (ls_spec [str "ls"; str "d"] w) as H. cbv zeta in H. eapply uwp_fin; [|apply H].
  - intros w' ->. vm_compute. done.
  - intros path st c. unfold w. cbn [w_files]. intros [[_ [= <- <-]]|[_ [_ [= <- <-]]%lookup_singleton_Some]]%lookup_insert_Some Hst; [|done].
    exists [mkde 5 (str "a" ++ replicate 13 0); mkde 0 (replicate 14 0)]. split; [|done].
    repeat constructor; cbn; try lia; intros Hin; repeat (apply elem_of_cons in Hin as [Hin|Hin]; [done|]); by apply elem_of_nil in Hin.
Defined.
