(* ===== verification/UserInit.v ===== *)
(** * The protocol of init

    What init does, as a state machine of the calls it makes and of the answers it
    gets, and the proof that the program follows it forever.  The kernel panics
    when its first process exits. *)

From ITree Require Import ITree ITreeFacts.
From Paco Require Import paco.
From Stdlib Require Import Eqdep.
From S2P Require Import Prelude Params Ulib Layout Fs User UserSpec.

(** ** The state machine *)

Inductive phase :=
| Opening | Creating | Reopening | Stdout | Stderr   (* the console becomes descriptors 0, 1 and 2 *)
| Saying (c : Z) (bs : list Z) (after : phase)       (* the message [c :: bs] is printed, byte by byte *)
| Forking
| Starting                                           (* the child, which becomes the shell *)
| Exiting
| Waiting (pid : Z).                                 (* for the shell [pid] *)
Definition say (bs : list Z) (after : phase) : phase := match bs with [] => after | c :: bs' => Saying c bs' after end.
Definition msg (s : string) : list Z := str s ++ [10].
Definition next_shell : phase := say (msg "init: starting sh") Forking.

(** The call that comes next, and where the answer leads. *)
Inductive move :=
| Call {X} (e : sysE X) (next : X -> phase).
Definition expects (p : phase) : move :=
  match p with
  | Opening => Call (Open (str "console") O_RDWR) (fun fd => if fd <? 0 then Creating else Stdout)
  | Creating => Call (Mknod (str "console") 1 1) (fun _ => Reopening)
  | Reopening => Call (Open (str "console") O_RDWR) (fun _ => Stdout)
  | Stdout => Call (Dup 0) (fun _ => Stderr)
  | Stderr => Call (Dup 0) (fun _ => next_shell)
  | Saying c bs after => Call (Write 1 [c]) (fun _ => say bs after)
  | Forking => Call Fork (fun pid =>
      if pid <? 0 then say (msg "init: fork failed") Exiting else if pid =? 0 then Starting else Waiting pid)
  | Starting => Call (Exec (str "sh") [str "sh"]) (fun _ => say (msg "init: exec sh failed") Exiting)
  | Exiting => Call Exit (fun v : void => match v with end)
  | Waiting pid => Call Wait (fun wpid =>
      if (wpid <? 0) || (wpid =? pid) then next_shell else say (msg "zombie!") (Waiting pid))
  end.

(** A program that makes the calls of the state machine, and goes on whatever the
    answers are: it neither returns nor loops silently. *)
Inductive follows_gen (r : phase -> prog void -> Prop) (p : phase) : itree' sysE void -> Prop :=
| follows_Tau t : follows_gen r p (observe t) -> follows_gen r p (TauF t)
| follows_Vis X (e : sysE X) k next : expects p = Call e next -> (forall x, r (next x) (k x)) -> follows_gen r p (VisF e k).
Definition follows_ (r : phase -> prog void -> Prop) (p : phase) (t : prog void) : Prop := follows_gen r p (observe t).
Lemma follows_mon : monotone2 follows_.
Proof. intros p t r r' H LE. unfold follows_ in *. induction H; econstructor; eauto. Qed.
#[local] Hint Resolve follows_mon : paco.
Definition follows (p : phase) (t : prog void) : Prop := paco2 follows_ bot2 p t.
Lemma follows_coind (R : phase -> prog void -> Prop) : (forall p t, R p t -> follows_ R p t) -> forall p t, R p t -> follows p t.
Proof. intros HR. pcofix CIH. intros p t Ht. pfold. eapply follows_mon; [by apply HR|]. intros p' t' H. right. by apply CIH. Qed.

(** ** init follows it *)

Definition init_loop : prog void := ITree.iter (fun _ : unit => init_turn ;~ Ret (inl tt)) tt.
(** What is left of the program in a phase. *)
Definition dup_both : prog void := trigger (Dup 0) ;~ trigger (Dup 0) ;~ init_loop.
Definition be_shell : prog void := trigger (Exec (str "sh") [str "sh"]) ;~ puts 1 (msg "init: exec sh failed") ;~ exit.
Fixpoint rest (p : phase) : prog void :=
  match p with
  | Opening => init_main
  | Creating => trigger (Mknod (str "console") 1 1) ;~ trigger (Open (str "console") O_RDWR) ;~ dup_both
  | Reopening => trigger (Open (str "console") O_RDWR) ;~ dup_both
  | Stdout => dup_both
  | Stderr => trigger (Dup 0) ;~ init_loop
  | Saying c bs after => puts 1 (c :: bs) ;~ rest after
  | Forking =>
      pid <~ trigger Fork ;;
      if pid <? 0 then puts 1 (msg "init: fork failed") ;~ exit
      else if pid =? 0 then be_shell
      else init_wait pid ;~ init_loop
  | Starting => be_shell
  | Exiting => exit
  | Waiting pid => init_wait pid ;~ init_loop
  end.
(** A program equivalent to one that makes the expected call. *)
Lemma follows_call {X} (R : phase -> prog void -> Prop) p (e : sysE X) k next t : expects p = Call e next ->
  (forall x t', t' ≈ k x -> R (next x) t') -> t ≈ Vis e k -> follows_ R p t.
Proof.
  intros Hp HR He. punfold He. red in He. unfold follows_. remember (observe (Vis e k)) as o eqn:E. cbn in E.
  induction He as [r1 r2 H|t1 t2 H _|Y e' k1 k2 H _|t1 ot2 _ He IH|ot1 t2 _ He IH]; try discriminate.
  - injection E as -> E1 E2. apply inj_pair2 in E1, E2. subst. apply (follows_Vis _ _ _ _ _ next); [done|].
    intros x. apply HR. destruct (H x) as [Hx|[]]. exact Hx.
  - constructor. by apply IH.
Qed.
Lemma rest_say bs p : rest (say bs p) ≈ (puts 1 bs ;~ rest p).
Proof. destruct bs; [|reflexivity]. unfold puts. cbn [for_args say]. by rewrite bind_ret_l. Qed.
Lemma exit_bind {A B} (k : A -> prog B) : ITree.bind exit k ≈ exit.
Proof. unfold exit. rewrite bind_bind. apply eutt_eq_bind. intros []. Qed.
Lemma loop_turn : init_loop ≈ rest next_shell.
Proof.
  unfold init_loop. rewrite unfold_iter, bind_bind. fold init_loop. unfold init_turn, next_shell. rewrite rest_say, bind_bind. unfold fprintf.
  apply eutt_eq_bind. intros []. cbn [rest]. rewrite bind_bind. apply eutt_eq_bind. intros pid. destruct (pid <? 0); [|destruct (pid =? 0)].
  - rewrite bind_bind. apply eutt_eq_bind. intros []. apply exit_bind.
  - unfold be_shell. rewrite bind_bind. apply eutt_eq_bind. intros x. rewrite bind_bind. apply eutt_eq_bind. intros []. apply exit_bind.
  - apply eutt_eq_bind. intros []. rewrite bind_ret_l. apply tau_eutt.
Qed.
Lemma wait_turn pid : init_wait pid ≈
  (wpid <~ trigger Wait ;; if (wpid <? 0) || (wpid =? pid) then Ret tt else puts 1 (msg "zombie!") ;~ init_wait pid).
Proof.
  unfold init_wait at 1. rewrite unfold_iter, bind_bind. fold (init_wait pid). apply eutt_eq_bind. intros wpid.
  rewrite Z.leb_antisym. destruct (wpid <? 0), (wpid =? pid); cbn [negb orb andb]; rewrite ?bind_ret_l, ?bind_bind; try reflexivity.
  apply eutt_eq_bind. intros []. rewrite bind_ret_l. apply tau_eutt.
Qed.
Lemma call_vis {X R} (e : sysE X) (k : X -> prog R) : ITree.bind (trigger e) k ≈ Vis e k.
Proof. rewrite bind_trigger. reflexivity. Qed.

(** The program makes the expected call, and goes on with the rest of the next phase. *)
Definition goes_on (p : phase) (t : prog void) : Prop := t ≈ rest p.
Ltac next_call Ht := rewrite ?bind_bind, ?call_vis in Ht; eapply follows_call; [reflexivity| |exact Ht]; intros x t' Hx; red; rewrite Hx; clear Hx.
Lemma rest_follows p t : goes_on p t -> follows_ goes_on p t.
Proof.
  unfold goes_on at 1. intros Ht. destruct p as [| | | | |c bs q| | | |pid]; cbn [rest] in Ht.
  - unfold init_main in Ht. next_call Ht. destruct (x <? 0); cbn [rest]; rewrite ?bind_ret_l; [|reflexivity].
    rewrite bind_bind. apply eutt_eq_bind. intros y. rewrite bind_bind. apply eutt_eq_bind. intros z. by rewrite bind_ret_l.
  - next_call Ht. reflexivity.
  - next_call Ht. reflexivity.
  - unfold dup_both in Ht. next_call Ht. reflexivity.
  - next_call Ht. apply loop_turn.
  - unfold puts in Ht. cbn [for_args] in Ht. next_call Ht. rewrite bind_ret_l. by rewrite rest_say.
  - next_call Ht. destruct (x <? 0); [by rewrite rest_say|]. by destruct (x =? 0).
  - unfold be_shell in Ht. next_call Ht. by rewrite rest_say.
  - unfold exit in Ht. next_call Ht. destruct x.
  - rewrite wait_turn in Ht. next_call Ht. destruct ((x <? 0) || (x =? pid)).
    + rewrite bind_ret_l. apply loop_turn.
    + by rewrite bind_bind, rest_say.
Qed.

(** ** The first process lives on *)

(** [t] makes call [e] next, and goes on with [k] of the answer. *)
Inductive calls : itree' sysE void -> forall X, sysE X -> (X -> prog void) -> Prop :=
| calls_Tau t X (e : sysE X) k : calls (observe t) X e k -> calls (TauF t) X e k
| calls_Vis X (e : sysE X) k : calls (VisF e k) X e k.
(** The calls made so far, with their answers, and the program that is left. *)
Inductive answered :=
| Answered {X} (e : sysE X) (x : X).
Inductive history (t : prog void) : list answered -> prog void -> Prop :=
| history_nil : history t [] t
| history_snoc tr t' X (e : sysE X) k x : history t tr t' -> calls (observe t') X e k -> history t (tr ++ [Answered e x]) (k x).
(** [fork] succeeds, and gives the parent a pid. *)
Definition fork_ok (a : answered) : Prop :=
  match a with Answered e x => match e in sysE X return X -> Prop with Fork => fun pid => 0 < pid | _ => fun _ => True end x end.
Definition is_exit {X} (e : sysE X) : bool := match e with Exit => true | _ => false end.
Definition is_exec {X} (e : sysE X) : bool := match e with Exec _ _ => true | _ => false end.

(** The phases of the parent. *)
Fixpoint parent (p : phase) : bool :=
  match p with
  | Starting | Exiting => false
  | Saying _ _ after => parent after
  | _ => true
  end.
Lemma parent_say bs p : parent (say bs p) = parent p.
Proof. by destruct bs. Qed.
Lemma parent_next p : parent p = true ->
  match expects p with Call e next => is_exit e = false /\ is_exec e = false /\ forall x, fork_ok (Answered e x) -> parent (next x) = true end.
Proof.
  destruct p; cbn [expects]; intros Hp; try discriminate; (split_and!; [done|done|]); intros x Hx; rewrite ?parent_say; try done.
  - by destruct (x <? 0).
  - cbn in Hx. by rewrite (proj2 (Z.ltb_ge x 0)), (proj2 (Z.eqb_neq x 0)) by lia.
  - destruct ((x <? 0) || (x =? pid)); [done|by rewrite parent_say].
Qed.
Lemma follows_calls p t : follows p t -> exists X (e : sysE X) k next, calls (observe t) X e k /\ expects p = Call e next /\
  forall X' (e' : sysE X') k' x, calls (observe t) X' e' k' -> exists next', expects p = Call e' next' /\ follows (next' x) (k' x).
Proof.
  intros H. punfold H. red in H. induction H as [t0 H IH|X e k next He Hk].
  - destruct IH as (X & e & k & next & H1 & H2 & H3). exists X, e, k, next. split_and!; [by constructor|done|].
    intros X' e' k' x Hc. inversion Hc; subst. repeat match goal with H : existT _ _ = existT _ _ |- _ => apply inj_pair2 in H end. subst. by eapply H3.
  - exists X, e, k, next. split_and!; [constructor|done|]. intros X' e' k' x Hc. inversion Hc; subst.
    repeat match goal with H : existT _ _ = existT _ _ |- _ => apply inj_pair2 in H end. subst. exists next. split; [done|].
    by destruct (Hk x) as [?|[]].
Qed.
Lemma history_parent t tr t' p : history t tr t' -> follows p t -> parent p = true -> Forall fork_ok tr -> exists p', follows p' t' /\ parent p' = true.
Proof.
  intros Hh Ht Hp. induction Hh as [|tr t' X e k x Hh IH Hc]; intros Hf; [by exists p|]. apply Forall_app in Hf as [Hf [Hx _]%Forall_cons].
  destruct (IH Hf) as (q & Hq & Hpq). destruct (follows_calls q t' Hq) as (_ & _ & _ & _ & _ & _ & Hall).
  destruct (Hall X e k x Hc) as (next & He & Hn). exists (next x). split; [done|]. pose proof (parent_next q Hpq) as H. rewrite He in H. by apply H.
Qed.

(** C32. [init] follows its protocol: it makes the console its standard files and then
    starts shells forever, one after the other: it announces a shell, forks, the
    child executes sh, and the parent waits until that child has been reaped,
    reporting the other zombies, before it starts the next one.  As long as
    [fork] succeeds the parent always makes another call, and never [exec] or
    [exit], which the kernel would not survive. *)
Theorem init_stays : follows Opening init_main /\
  forall tr t, history init_main tr t -> Forall fork_ok tr ->
    exists X (e : sysE X) k, calls (observe t) X e k /\ is_exit e = false /\ is_exec e = false.
Proof.
  assert (Hfol : follows Opening init_main) by (apply (follows_coind goes_on rest_follows); red; reflexivity). split; [done|].
  intros tr t Hh Hf. destruct (history_parent _ _ _ _ Hh Hfol eq_refl Hf) as (p & Hp & Hpar).
  destruct (follows_calls p t Hp) as (X & e & k & next & Hc & He & _). pose proof (parent_next p Hpar) as H. rewrite He in H.
  destruct H as (H1 & H2 & _). by exists X, e, k.
Qed.
