(* ===== verification/Xvsh.v ===== *)
(** * xvsh.c: the second shell

    The line buffer holds the words between the NULs that [strtok] writes; a
    token is its position in the buffer. *)

From ITree Require Import ITree.
From S2P Require Import Prelude Params Ulib Fs User.

Definition MAXLINE : Z := 256.
Definition prompt : list Z := str "xvsh> ".

(** ** strtok *)

Definition chr (buf : list Z) (i : nat) : Z := nth i buf 0.
(** The first position from [s] on where [test] fails; [l] are the bytes there. *)
Fixpoint skip_while (test : Z -> bool) (l : list Z) (s : nat) : nat :=
  match l with
  | [] => s
  | c :: l' => if test c then skip_while test l' (S s) else s
  end.
Definition in_delim (delim : list Z) (c : Z) : bool := existsb (Z.eqb c) delim.
(** [strtok(s, delim)] on the buffer and the variable [last]. *)
Definition strtok (s : option nat) (delim : list Z) (st : list Z * option nat) : option nat * (list Z * option nat) :=
  let '(buf, last) := st in
  match (match s with Some s => Some s | None => last end) with
  | None => (None, st)
  | Some s =>
      let tok := skip_while (in_delim delim) (drop s buf) s in
      if chr buf tok =? 0 then (None, (buf, None))
      else
        let e := skip_while (fun c => negb (in_delim delim c) && negb (c =? 0)) (drop (S tok) buf) (S tok) in
        if chr buf e =? 0 then (Some tok, (buf, None))
        else (Some tok, (<[e := 0]> buf, Some (S e)))
  end.

(** ** process_one_cmd *)

(** [while (i) if (buf[i--] == ' ') num_tok++;] *)
Fixpoint count_spaces (buf : list Z) (i : nat) : Z :=
  match i with
  | O => 0
  | S i' => (if chr buf i =? 32 then 1 else 0) + count_spaces buf i'
  end.
(** The loop that fills [tok] from index [i] on; [toks] are the entries before.
    [None]: a write past the end of the array of [size] entries. *)
Fixpoint tok_loop (fuel : nat) (size : Z) (toks : list (option nat)) (bg : Z) (st : list Z * option nat) : option (list (option nat) * Z * list Z) :=
  match fuel with
  | O => None
  | S fuel' =>
      let i := Z.of_nat (length toks) in
      let '(t, st) := strtok None [32] st in
      if size <=? i then None
      else
        match t with
        | None => Some (toks, bg, fst st)
        | Some p =>
            if chr (fst st) p =? 38 then tok_loop fuel' size (toks ++ [None]) i st
            else tok_loop fuel' size (toks ++ [Some p]) bg st
        end
  end.
Definition tokenize (size : Z) (buf : list Z) : option (list (option nat) * Z * list Z) :=
  let '(t, st) := strtok (Some O) [32] (buf, None) in
  tok_loop (S (length buf)) size [t] 0 st.

(** The string at a position, and the strings of an array that ends with a null
    pointer. *)
Definition string_at (buf : list Z) (p : nat) : list Z := cut (drop p buf).
Fixpoint strings (buf : list Z) (toks : list (option nat)) : list (list Z) :=
  match toks with
  | Some p :: toks' => string_at buf p :: strings buf toks'
  | _ => []
  end.

Definition undefined {A} : prog A := v <~ trigger Undefined ;; match (v : void) with end.
Definition process_normal (argv : list (list Z)) (bg : Z) : prog unit :=
  let tok0 := hd [] argv in
  x <~ trigger User.Fork ;;
  if (0 <? x) && (bg <? 1) then trigger User.Wait ;~ Ret tt
  else if x =? 0 then
    r <~ trigger (User.Exec tok0 argv) ;;
    if r =? -1 then fprintf 1 (str "Cannot run this command %s " ++ [10]) [Str (Some tok0)] else Ret tt
  else if 1 <? bg then fprintf 1 (str "[pid %d] runs as a background process " ++ [10]) [Num x]
  else Ret tt.
(** [strcmp(tok[0], "exit") == 0] *)
Definition exit_check (tok0 : list Z) : bool := strcmp tok0 (str "exit") =? 0.
Definition process_one_cmd (buf : list Z) : prog unit :=
  match length (cut buf) with
  | O => undefined
  | S i =>
      let num_tok := 1 + count_spaces buf i in
      ok <~ trigger (Malloc ((num_tok + 1) * 4)) ;;
      if negb ok then fprintf 1 (str "malloc failed" ++ [10]) [] ;~ User.exit
      else
        match tokenize (num_tok + 1) buf with
        | Some (Some p :: toks, bg, buf) =>
            let argv := strings buf (Some p :: toks) in
            if exit_check (string_at buf p) then trigger User.Wait ;~ User.exit
            else process_normal argv bg
        | _ => undefined
        end
  end.

(** ** main *)

(** The body of the loop, on the buffer. *)
Definition xvsh_turn (buf : list Z) : prog (list Z + void) :=
  r <~ trigger (User.Read 0 MAXLINE) ;;
  let '(n, bs) := r in
  let buf := splice 0 bs buf in
  if n =? 0 then User.exit
  else if n =? 1 then fprintf 1 prompt [] ;~ Ret (inl buf)
  else
    let i := length (cut buf) in
    if bool_decide (i = O \/ i = length buf) then undefined
    else
      process_one_cmd (<[(i - 1)%nat := 0]> buf) ;~
      fprintf 1 prompt [] ;~
      Ret (inl (replicate (Z.to_nat MAXLINE) 0)).
(** [buf0] is what the buffer holds at the start. *)
Definition xvsh_main (buf0 : list Z) : prog void := fprintf 1 prompt [] ;~ ITree.iter xvsh_turn buf0.
