(* ===== verification/XvshSpec.v ===== *)
(** * What xvsh runs

    The shell splits a line into the words between its spaces, and runs them as a
    command: in the foreground, or in the background after a word that starts with
    an ampersand. *)

From ITree Require Import ITree ITreeFacts.
From S2P Require Import Prelude Params Ulib Fs User UserSpec Xvsh.

(** ** The words of a line *)

(** The pieces between the spaces, and those that are not empty. *)
Fixpoint pieces (l : list Z) : list (list Z) :=
  match l with
  | [] => [[]]
  | c :: l' => if c =? 32 then [] :: pieces l' else match pieces l' with w :: ws => (c :: w) :: ws | [] => [[c]] end
  end.
Definition line_words (l : list Z) : list (list Z) := filter (fun w => w <> []) (pieces l).
Definition plain (c : Z) : Prop := c <> 32 /\ c <> 0.

Lemma pieces_ne l : pieces l <> [].
Proof. destruct l as [|c l]; cbn; [done|]. destruct (c =? 32); [done|]. by destruct (pieces l). Qed.
Lemma words_space l : line_words (32 :: l) = line_words l.
Proof. done. Qed.
Lemma words_end : line_words [] = [].
Proof. done. Qed.
(** A word followed by a space or the end. *)
Lemma words_word w l : w <> [] -> Forall plain w -> line_words (w ++ 32 :: l) = w :: line_words l /\ line_words w = [w].
Proof.
  intros Hne Hw. assert (H : pieces (w ++ 32 :: l) = w :: pieces l /\ pieces w = [w]).
  { clear Hne. induction Hw as [|c w [Hc _] _ [IH1 IH2]]; [done|]. cbn. rewrite (proj2 (Z.eqb_neq c 32)) by done. by rewrite IH1, IH2. }
  destruct H as [H1 H2]. unfold line_words. rewrite H1, H2, !filter_cons, filter_nil. by rewrite !decide_True by done.
Qed.
(** A line is blank, or spaces, a word, and the rest. *)
Lemma line_cases l : Forall (fun c => c <> 0) l ->
  (l = replicate (length l) 32 /\ line_words l = []) \/
  exists n w tl, w <> [] /\ Forall plain w /\ ((l = replicate n 32 ++ w /\ tl = [] /\ line_words l = [w]) \/
    (l = replicate n 32 ++ w ++ 32 :: tl /\ line_words l = w :: line_words tl)).
Proof.
  intros Hl. induction Hl as [|c l Hc Hl IH]; [by left|]. destruct (decide (c = 32)) as [->|Hne].
  - destruct IH as [[E Hw]|(n & w & tl & Hw & Hp & H)]; [left; cbn; by rewrite <- E|]. right. exists (S n), w, tl. split_and!; [done..|].
    rewrite words_space. destruct H as [(-> & -> & H)|(-> & H)]; [left|right]; done.
  - right. assert (Hs : exists w tl, (c :: l = w /\ tl = [] \/ c :: l = w ++ 32 :: tl) /\ w <> [] /\ Forall plain w).
    { clear IH. revert c Hc Hne. induction Hl as [|d l Hd Hl IH]; intros c Hc Hne.
      - exists [c], []. split_and!; [by left|done|by repeat constructor].
      - destruct (decide (d = 32)) as [->|Hd32]; [exists [c], l; split_and!; [by right|done|by repeat constructor]|].
        destruct (IH d Hd Hd32) as (w & tl & H & Hw & Hp). exists (c :: w), tl. split_and!; [|done|by constructor].
        destruct H as [(<- & ->)|H]; [by left|right; cbn; by rewrite H]. }
    destruct Hs as (w & tl & H & Hw & Hp). exists 0%nat, w, tl. split_and!; [done..|]. destruct (words_word w tl Hw Hp) as [W1 W2].
    destruct H as [(<- & ->)|H]; [left; done|right]. cbn [replicate app]. by rewrite H.
Qed.

(** ** strtok *)

Lemma skip_while_app test l r s : Forall (fun c => test c = true) l -> (match r with [] => True | c :: _ => test c = false end) ->
  skip_while test (l ++ r) s = (s + length l)%nat.
Proof.
  intros Hl Hr. revert s. induction Hl as [|c l Hc _ IH]; intros s; cbn.
  - destruct r as [|c r]; cbn; [lia|]. rewrite Hr. lia.
  - rewrite Hc, IH. lia.
Qed.
Lemma chr_drop buf p k : chr buf (p + k) = nth k (drop p buf) 0.
Proof. unfold chr. revert buf. induction p as [|p IH]; intros buf; [done|]. destruct buf as [|b buf]; [by rewrite drop_nil; destruct k|]. apply IH. Qed.
Lemma in_space c : in_delim [32] c = (c =? 32).
Proof. cbn. by rewrite orb_false_r. Qed.

(** [w] is the string at [pos]. *)
Definition token_at (buf : list Z) (pos : nat) (w : list Z) : Prop :=
  take (length w) (drop pos buf) = w /\ buf !! (pos + length w)%nat = Some 0 /\ w <> [] /\ Forall plain w.
Lemma cut_app w l : Forall (fun c => c <> 0) w -> cut (w ++ 0 :: l) = w.
Proof. induction 1 as [|c w Hc _ IH]; cbn; [done|]. by rewrite (proj2 (Z.eqb_neq c 0)), IH. Qed.
Lemma token_string buf pos w : token_at buf pos w -> string_at buf pos = w /\ chr buf pos = hd 0 w.
Proof.
  intros (Ht & H0 & Hne & Hp). assert (E : drop pos buf = w ++ 0 :: drop (S (pos + length w)) buf).
  { rewrite <- (take_drop (length w) (drop pos buf)), Ht, drop_drop. f_equal. by apply drop_S. }
  split.
  - unfold string_at. rewrite E. apply cut_app. eapply Forall_impl; [exact Hp|]. by intros c [_ ?].
  - rewrite <- (Nat.add_0_r pos), chr_drop, E. by destruct w.
Qed.

(** The bytes of the buffer from [p] on are [rest] and NULs. *)
Definition rest_at (buf : list Z) (p : nat) (rest : list Z) : Prop :=
  (exists k, drop p buf = rest ++ 0 :: replicate k 0) /\ Forall (fun c => c <> 0) rest.
(** [strtok] on a word at [p + n], before the byte [d]. *)
Lemma strtok_word buf p n w d T s last : (match s with Some s => Some s | None => last end) = Some p ->
  w <> [] -> Forall plain w -> d = 32 \/ d = 0 -> drop p buf = replicate n 32 ++ w ++ d :: T ->
  let e := (p + n + length w)%nat in
  strtok s [32] (buf, last) = (Some (p + n)%nat, if d =? 0 then (buf, None) else (<[e := 0]> buf, Some (S e))) /\
  drop (p + n) buf = w ++ d :: T.
Proof.
  intros Hs Hne Hw Hd Hk e. unfold strtok. rewrite Hs. destruct w as [|c w]; [done|]. pose proof Hw as [[Hc32 Hc0] Hw']%Forall_cons.
  assert (Hsk : skip_while (in_delim [32]) (drop p buf) p = (p + n)%nat).
  { rewrite Hk, skip_while_app; [by rewrite length_replicate|by apply Forall_replicate|]. cbn [app]. rewrite in_space. by apply Z.eqb_neq. }
  assert (Hdn : drop (p + n) buf = (c :: w) ++ d :: T).
  { rewrite <- drop_drop, Hk. by rewrite drop_app_length' by (by rewrite length_replicate). }
  assert (Hdn1 : drop (S (p + n)) buf = w ++ d :: T) by (replace (S (p + n)) with (p + n + 1)%nat by lia; rewrite <- drop_drop, Hdn; done).
  split; [|done]. rewrite Hsk. assert (Hcp : chr buf (p + n) = c) by (rewrite <- (Nat.add_0_r (p + n)), chr_drop, Hdn; done).
  rewrite Hcp, (proj2 (Z.eqb_neq c 0)) by done. rewrite Hdn1, skip_while_app.
  - replace (S (p + n) + length w)%nat with e by (unfold e; cbn; lia).
    assert (He : chr buf e = d) by (unfold e; rewrite <- Nat.add_assoc, Nat.add_assoc, chr_drop, Hdn; apply nth_middle).
    rewrite He. by destruct (d =? 0).
  - eapply Forall_impl; [exact Hw'|]. intros x [? ?]. rewrite in_space, !(proj2 (Z.eqb_neq _ _)) by done. done.
  - rewrite in_space. by destruct Hd as [->| ->].
Qed.
(** [strtok] at [p]: the next word, with a NUL after it; what comes before is not
    changed. *)
Lemma strtok_wp buf p rest s last : (match s with Some s => Some s | None => last end) = Some p -> rest_at buf p rest ->
  match line_words rest with
  | [] => strtok s [32] (buf, last) = (None, (buf, None))
  | w :: ws => exists pos buf' last', strtok s [32] (buf, last) = (Some pos, (buf', last')) /\ (p <= pos)%nat /\ token_at buf' pos w /\
      (forall j, (j < p)%nat -> buf' !! j = buf !! j) /\
      match last' with
      | None => ws = []
      | Some p' => (pos + length w < p')%nat /\ exists rest', rest_at buf' p' rest' /\ line_words rest' = ws /\ (length rest' < length rest)%nat
      end
  end.
Proof.
  intros Hs [[k Hk] H0]. destruct (line_cases rest H0) as [[E ->]|(n & w & tl & Hne & Hw & [(E & -> & ->)|(E & ->)])].
  - unfold strtok. rewrite Hs, Hk, skip_while_app; [|rewrite E; by apply Forall_replicate|done]. by rewrite chr_drop, Hk, nth_middle.
  - rewrite E, <- app_assoc in Hk. destruct (strtok_word buf p n w 0 (replicate k 0) s last Hs Hne Hw) as [Hst Hd]; [by right|done|]. cbv zeta in Hst. cbn in Hst.
    exists (p + n)%nat, buf, None. split_and!; [done|lia| |done|done]. split_and!; [|by rewrite <- lookup_drop, Hd, list_lookup_middle|done|done].
    by rewrite Hd, take_app_length.
  - rewrite E, <- !app_assoc in Hk. cbn [app] in Hk. destruct (strtok_word buf p n w 32 (tl ++ 0 :: replicate k 0) s last Hs Hne Hw) as [Hst Hd]; [by left|done|].
    cbv zeta in Hst. cbn [Z.eqb Pos.eqb] in Hst. set (e := (p + n + length w)%nat) in *. eexists _, _, _. split; [exact Hst|].
    assert (Hlen : (e < length buf)%nat).
    { apply (f_equal length) in Hd. rewrite length_drop, !length_app in Hd. cbn in Hd. unfold e. lia. }
    split_and!; [lia| | |unfold e; lia|].
    + split_and!; [|by apply list_lookup_insert_eq|done|done].
      rewrite drop_insert_ge by (unfold e; lia). rewrite take_insert_ge by (unfold e; lia). by rewrite Hd, take_app_length.
    + intros j Hj. apply list_lookup_insert_ne. unfold e. lia.
    + exists tl. split_and!; [|done|rewrite E, !length_app; cbn; lia].
      split; [|rewrite E in H0; by apply Forall_app in H0 as [_ [_ [_ ?]%Forall_cons]%Forall_app]]. exists k.
      rewrite drop_insert_lt by lia. replace (S e) with (p + n + (length w + 1))%nat by (unfold e; lia). rewrite <- drop_drop, Hd, <- drop_drop, drop_app_length. done.
Qed.

(** ** The tokens of a line *)

(** A word that puts the command in the background. *)
Definition amp (w : list Z) : bool := hd 0 w =? 38.
(** The entries of [tok] for the words [ws], the first of which has index [i]. *)
Fixpoint entries_for (buf : list Z) (toks : list (option nat)) (ws : list (list Z)) : Prop :=
  match toks, ws with
  | [], [] => True
  | None :: toks', w :: ws' => amp w = true /\ entries_for buf toks' ws'
  | Some p :: toks', w :: ws' => amp w = false /\ token_at buf p w /\ entries_for buf toks' ws'
  | _, _ => False
  end.
(** The index of the last such word, or [bg]. *)
Fixpoint bg_of (i bg : Z) (ws : list (list Z)) : Z :=
  match ws with
  | [] => bg
  | w :: ws' => bg_of (i + 1) (if amp w then i else bg) ws'
  end.

(** Tokens before [p] stay when the buffer changes from [p] on only. *)
Definition before (p : nat) (toks : list (nat * list Z)) : Prop := Forall (fun t => (fst t + length (snd t) < p)%nat) toks.
Lemma token_keep buf buf' p pos w : (forall j, (j < p)%nat -> buf' !! j = buf !! j) -> (pos + length w < p)%nat -> token_at buf pos w -> token_at buf' pos w.
Proof.
  intros Hj Hp (Ht & H0 & Hne & Hw). split_and!; [|by rewrite Hj by lia|done|done]. rewrite <- Ht at 2. apply list_eq. intros i.
  destruct (decide (i < length w)%nat); [|by rewrite !lookup_take_ge by lia]. rewrite !lookup_take_lt, !lookup_drop by lia. apply Hj. lia.
Qed.

Lemma tok_loop_wp fuel : forall buf last toks ws bg size,
  (match last with None => ws = [] | Some p => exists rest, rest_at buf p rest /\ line_words rest = ws /\ (length rest < fuel)%nat end) -> (0 < fuel)%nat ->
  Z.of_nat (length toks) + Z.of_nat (length ws) < size ->
  exists toks' buf', tok_loop fuel size toks bg (buf, last) = Some (toks ++ toks', bg_of (Z.of_nat (length toks)) bg ws, buf') /\
    entries_for buf' toks' ws /\ (match last with None => buf' = buf | Some p => forall j, (j < p)%nat -> buf' !! j = buf !! j end).
Proof.
  induction fuel as [|fuel IH]; intros buf last toks ws bg size Hl Hf Hsz; [lia|]. cbn [tok_loop].
  destruct last as [p|]; cycle 1.
  { subst ws. cbn [strtok]. cbn in Hsz. rewrite (proj2 (Z.leb_gt _ _)) by lia. exists [], buf. rewrite app_nil_r. done. }
  destruct Hl as (rest & Hr & Hws & Hlr). pose proof (strtok_wp buf p rest None (Some p) eq_refl Hr) as Hst. rewrite Hws in Hst.
  destruct ws as [|w ws].
  { rewrite Hst. cbn in Hsz. rewrite (proj2 (Z.leb_gt _ _)) by lia. exists [], buf. by rewrite app_nil_r. }
  destruct Hst as (pos & buf1 & last1 & -> & Hpos & Htok & Hsame & Hnext). cbn [length] in Hsz. rewrite (proj2 (Z.leb_gt _ _)) by lia. cbn [fst].
  destruct (token_string _ _ _ Htok) as [_ ->]. fold (amp w).
  assert (Hrec : forall v bg', exists toks' buf', tok_loop fuel size (toks ++ [v]) bg' (buf1, last1) = Some ((toks ++ [v]) ++ toks', bg_of (Z.of_nat (length toks) + 1) bg' ws, buf') /\
    entries_for buf' toks' ws /\ token_at buf' pos w /\ forall j, (j < p)%nat -> buf' !! j = buf !! j).
  { intros v bg'. destruct (IH buf1 last1 (toks ++ [v]) ws bg' size) as (toks' & buf' & E & He & Hk).
    - destruct last1 as [p1|]; [|done]. destruct Hnext as (_ & rest1 & H1 & H2 & H3). exists rest1. split_and!; [done|done|lia].
    - destruct fuel; [|lia]. assert (Hz : (length rest = 0)%nat) by lia. apply nil_length_inv in Hz. by subst rest.
    - rewrite length_app. cbn. lia.
    - exists toks', buf'. rewrite length_app in E. cbn [length] in E. rewrite Nat2Z.inj_add in E. split_and!; [exact E|done| |].
      + destruct last1 as [p1|]; [|by subst]. destruct Hnext as (Hp1 & _). by eapply token_keep.
      + intros j Hj. destruct last1 as [p1|]; [|subst; by apply Hsame]. destruct Hnext as (Hp1 & _). rewrite Hk by lia. by apply Hsame. }
  destruct (amp w) eqn:Hamp.
  - destruct (Hrec None (Z.of_nat (length toks))) as (toks' & buf' & -> & He & Ht & Hj). exists (None :: toks'), buf'. rewrite <- app_assoc. cbn [bg_of]. rewrite Hamp. done.
  - destruct (Hrec (Some pos) bg) as (toks' & buf' & -> & He & Ht & Hj). exists (Some pos :: toks'), buf'. rewrite <- app_assoc. cbn [bg_of]. rewrite Hamp. done.
Qed.

Lemma tokenize_wp line k w0 ws size : Forall (fun c => c <> 0) line -> line_words line = w0 :: ws -> Z.of_nat (length ws) + 1 < size ->
  exists p toks buf', tokenize size (line ++ 0 :: replicate k 0) = Some (Some p :: toks, bg_of 1 0 ws, buf') /\
    token_at buf' p w0 /\ entries_for buf' toks ws.
Proof.
  intros Hl Hw Hsz. set (buf := line ++ 0 :: replicate k 0). assert (Hr : rest_at buf 0 line) by (split; [by exists k|done]).
  pose proof (strtok_wp buf 0 line (Some 0%nat) None eq_refl Hr) as Hst. rewrite Hw in Hst.
  destruct Hst as (pos & buf1 & last1 & Hst & _ & Htok & _ & Hnext). unfold tokenize. rewrite Hst.
  destruct (tok_loop_wp (S (length buf)) buf1 last1 [Some pos] ws 0 size) as (toks & buf' & -> & He & Hk).
  - destruct last1 as [p1|]; [|done]. destruct Hnext as (_ & rest1 & H1 & H2 & H3). exists rest1. split_and!; [done|done|].
    unfold buf. rewrite length_app. lia.
  - lia.
  - cbn. lia.
  - exists pos, toks, buf'. split_and!; [done| |done]. destruct last1 as [p1|]; [|by subst]. destruct Hnext as [Hp _]. by eapply token_keep.
Qed.

(** ** Room for the tokens *)

Definition spaces (l : list Z) : Z := Z.of_nat (length (filter (fun c => c = 32) l)).
Lemma words_spaces l : Z.of_nat (length (line_words l)) <= 1 + spaces l.
Proof.
  unfold line_words. etrans; [apply inj_le, length_filter|]. unfold spaces. induction l as [|c l IH]; [done|]. cbn [pieces]. rewrite filter_cons.
  destruct (Z.eqb_spec c 32) as [->|Hc]; [rewrite decide_True by done; cbn [length]; lia|]. rewrite decide_False by done.
  destruct (pieces l) as [|w ws]; cbn [length] in *; lia.
Qed.
Lemma words_room l : Z.of_nat (length (line_words l)) <= 1 + spaces (tl l).
Proof.
  destruct l as [|c l]; [done|]. destruct (decide (c = 32)) as [->|Hc]; [rewrite words_space; apply words_spaces|].
  pose proof (words_spaces (c :: l)) as H. unfold spaces in *. rewrite filter_cons, decide_False in H by done. exact H.
Qed.
Lemma count_spaces_take buf i : (i < length buf)%nat -> count_spaces buf i = spaces (take i (tl buf)).
Proof.
  intros Hi. induction i as [|i IH]; [done|]. cbn [count_spaces]. rewrite IH by lia. destruct buf as [|b buf]; [cbn in Hi; lia|]. cbn [tl length] in *.
  destruct (lookup_lt_is_Some_2 buf i) as [x Hx]; [lia|]. rewrite (take_S_r _ _ x Hx). unfold spaces. rewrite filter_app, length_app, filter_cons, filter_nil.
  assert (E : chr (b :: buf) (S i) = x) by (cbn; by apply nth_lookup_Some). rewrite E. destruct (Z.eqb_spec x 32).
  - rewrite decide_True by done. cbn [length]. lia.
  - rewrite decide_False by done. cbn [length]. lia.
Qed.

(** ** A line as a command *)

(** The arguments end at the first word that starts with an ampersand. *)
Fixpoint until_amp (ws : list (list Z)) : list (list Z) :=
  match ws with
  | [] => []
  | w :: ws' => if amp w then [] else w :: until_amp ws'
  end.
(** The command [w0] with the words [ws] after it. *)
Definition run_words (w0 : list Z) (ws : list (list Z)) : prog unit :=
  if bool_decide (w0 = str "exit") then trigger User.Wait ;~ User.exit
  else
    pid <~ trigger User.Fork ;;
    if pid =? 0 then
      r <~ trigger (User.Exec w0 (w0 :: until_amp ws)) ;;
      if r =? -1 then fprintf 1 (str "Cannot run this command %s " ++ [10]) [Str (Some w0)] else Ret tt
    else if (0 <? pid) && negb (existsb amp ws) then trigger User.Wait ;~ Ret tt
    else if existsb amp (tl ws) then fprintf 1 (str "[pid %d] runs as a background process " ++ [10]) [Num pid]
    else Ret tt.

Lemma strings_entries buf toks ws : entries_for buf toks ws -> strings buf toks = until_amp ws.
Proof.
  revert ws. induction toks as [|[p|] toks IH]; intros [|w ws]; cbn [entries_for strings until_amp]; try done.
  - intros (-> & Ht & He). destruct (token_string _ _ _ Ht) as [-> _]. by rewrite (IH ws).
  - by intros [-> _].
Qed.
Lemma bg_of_spec ws : forall i bg, 0 <= bg < i -> (bg_of i bg ws = bg /\ existsb amp ws = false) \/ (i <= bg_of i bg ws /\ existsb amp ws = true).
Proof.
  induction ws as [|w ws IH]; intros i bg Hb; cbn [bg_of existsb]; [by left|]. destruct (amp w) eqn:Ha; cbn [orb].
  - right. split; [|done]. destruct (IH (i + 1) i) as [[-> _]|[? _]]; lia.
  - destruct (IH (i + 1) bg) as [[-> E]|[? E]]; [lia|by left|right; split; [lia|done]].
Qed.
Lemma bg_fg ws : (bg_of 1 0 ws <? 1) = negb (existsb amp ws).
Proof. destruct (bg_of_spec ws 1 0) as [[-> ->]|[H ->]]; [lia|done|]. by apply Z.ltb_ge. Qed.
Lemma bg_announced ws : (1 <? bg_of 1 0 ws) = existsb amp (tl ws).
Proof.
  destruct ws as [|w ws]; [done|]. cbn [bg_of tl]. set (b := if amp w then 1 else 0). assert (0 <= b < 1 + 1) by (unfold b; case_match; lia).
  destruct (bg_of_spec ws (1 + 1) b) as [[-> ->]|[Hb ->]]; [done| |].
  - apply Z.ltb_ge. lia.
  - apply Z.ltb_lt. lia.
Qed.
Lemma strcmp_eqb p q : Forall (fun c => c <> 0) p -> Forall (fun c => c <> 0) q -> (strcmp p q =? 0) = bool_decide (p = q).
Proof. intros. apply Bool.eq_iff_eq_true. rewrite Z.eqb_eq, bool_decide_eq_true. by apply strcmp_eq. Qed.

(** ** process_one_cmd *)

Lemma words_plain l w : Forall (fun c => c <> 0) l -> w ∈ line_words l -> w <> [] /\ Forall plain w.
Proof.
  intros Hl. unfold line_words. rewrite list_elem_of_filter. intros [Hne Hin]. split; [done|]. clear Hne. revert w Hin.
  induction Hl as [|c l Hc Hl IH]; intros w; cbn [pieces].
  - intros ->%list_elem_of_singleton. constructor.
  - destruct (Z.eqb_spec c 32) as [->|Hne].
    + intros [->|Hin]%elem_of_cons; [constructor|by apply IH].
    + destruct (pieces l) as [|w1 ws1]; [intros ->%list_elem_of_singleton; by repeat constructor|].
      intros [->|Hin]%elem_of_cons; [constructor; [done|apply IH; left]|apply IH; by right].
Qed.
Lemma plain_nonzero w : Forall plain w -> Forall (fun c => c <> 0) w.
Proof. intros H. eapply Forall_impl; [exact H|]. by intros c [_ ?]. Qed.
Lemma process_normal_eq w0 ws : process_normal (w0 :: until_amp ws) (bg_of 1 0 ws) =
  (pid <~ trigger User.Fork ;;
   if (0 <? pid) && negb (existsb amp ws) then trigger User.Wait ;~ Ret tt
   else if pid =? 0 then
     r <~ trigger (User.Exec w0 (w0 :: until_amp ws)) ;;
     if r =? -1 then fprintf 1 (str "Cannot run this command %s " ++ [10]) [Str (Some w0)] else Ret tt
   else if existsb amp (tl ws) then fprintf 1 (str "[pid %d] runs as a background process " ++ [10]) [Num pid]
   else Ret tt).
Proof. unfold process_normal. by rewrite bg_fg, bg_announced. Qed.

Lemma process_one_cmd_eq line k w0 ws : Forall (fun c => c <> 0) line -> line_words line = w0 :: ws ->
  process_one_cmd (line ++ 0 :: replicate k 0) ≅
  (ok <~ trigger (Malloc ((spaces (tl line) + 2) * 4)) ;;
   if negb ok then fprintf 1 (str "malloc failed" ++ [10]) [] ;~ User.exit else run_words w0 ws).
Proof.
  intros Hl Hw. unfold process_one_cmd. rewrite cut_app by done. destruct (length line) as [|i] eqn:Hlen.
  { apply nil_length_inv in Hlen. by subst line. }
  assert (Ec : count_spaces (line ++ 0 :: replicate k 0) i = spaces (tl line)).
  { rewrite count_spaces_take by (rewrite length_app; lia). destruct line as [|c line]; [done|]. cbn in *. injection Hlen as Hlen.
    by rewrite take_app_length' by done. }
  rewrite Ec. replace (1 + spaces (tl line) + 1) with (spaces (tl line) + 2) by lia.
  destruct (tokenize_wp line k w0 ws (spaces (tl line) + 2)) as (p & toks & buf & -> & Hp & He); [done..| |].
  { pose proof (words_room line) as H. rewrite Hw in H. cbn [length] in H. lia. }
  apply eqit_bind; [reflexivity|]. intros ok. destruct ok; cbn [negb]; [|reflexivity].
  destruct (token_string _ _ _ Hp) as [Hs _]. cbn [strings]. rewrite Hs, (strings_entries _ _ _ He), process_normal_eq.
  unfold exit_check, run_words. rewrite strcmp_eqb; [| |repeat constructor; done].
  2:{ apply plain_nonzero. eapply words_plain; [exact Hl|]. rewrite Hw. left. }
  destruct (bool_decide _); [reflexivity|]. apply eqit_bind; [reflexivity|]. intros pid.
  destruct (Z.eqb_spec pid 0) as [->|]; [reflexivity|]. reflexivity.
Qed.

(** The line [line], which ends at the first NUL of the buffer, is split into the
    words between its spaces, which are run as a command: [exit] waits for a child
    and ends the shell; another first word is executed by a child with the words
    up to the first one that starts with an ampersand as its arguments; the shell
    waits for it unless there is such a word.  The child goes back to reading
    commands if it cannot run the program, and the job is announced only if the
    ampersand comes after an argument.  The array of tokens is large enough. *)
Theorem xvsh_line line k w0 ws : Forall (fun c => c <> 0) line -> line_words line = w0 :: ws ->
  process_one_cmd (line ++ 0 :: replicate k 0) ≅
  (ok <~ trigger (Malloc ((spaces (tl line) + 2) * 4)) ;;
   if negb ok then fprintf 1 (str "malloc failed" ++ [10]) [] ;~ User.exit else run_words w0 ws).
Proof. apply process_one_cmd_eq. Qed.

Lemma xvsh_line_witness : (* ls -l & *)
  process_one_cmd (str "ls -l &" ++ 0 :: replicate 3 0) ≅
  (ok <~ trigger (Malloc 16) ;;
   if negb ok then fprintf 1 (str "malloc failed" ++ [10]) [] ;~ User.exit else run_words (str "ls") [str "-l"; str "&"]).
Proof. apply (xvsh_line (str "ls -l &") 3); [repeat constructor; done|reflexivity]. Defined.

(** ** A session *)

(** What a process does: it forks, or is the child of a fork; [Execed] is its last
    act, or the program could not be run. *)
Inductive act := Forked | Born | Execed (path : list Z) (argv : list (list Z)) | Waited | Wrote (fd c : Z).
(** The lines that the process gets from the terminal, the next pid, and what the
    process has done. *)
Record term := mkterm { t_in : list (list Z); t_pid : Z; t_acts : list act }.
Definition did (l : list act) (t : term) : term := mkterm (t_in t) (t_pid t) (t_acts t ++ l).
(** The lines of [l] are read by two processes. *)
Inductive shared {A} : list A -> list A -> list A -> Prop :=
| shared_nil : shared [] [] []
| shared_l x l1 l2 l : shared l1 l2 l -> shared (x :: l1) l2 (x :: l)
| shared_r x l1 l2 l : shared l1 l2 l -> shared l1 (x :: l2) (x :: l).
(** [fork] succeeds, and both processes go on; they share the terminal.  [exec]
    succeeds, and then the process reads no more lines as a shell, or it fails.
    [Fin] holds at the end of every process. *)
Definition terminal (Fin : term -> Prop) : kernel term := fun X e t =>
  match e in sysE X return (X -> term -> Prop) -> Prop with
  | User.Read fd n => fun P => fd = 0 /\
      match t_in t with
      | [] => P (0, []) t
      | l :: ls => Z.of_nat (length l) < n /\ P (Z.of_nat (length l) + 1, l ++ [10]) (mkterm ls (t_pid t) (t_acts t))
      end
  | User.Write fd bs => fun P => P (Z.of_nat (length bs)) (did (map (Wrote fd) bs) t)
  | User.Fork => fun P => forall ls1 ls2, shared ls1 ls2 (t_in t) ->
      P (t_pid t) (mkterm ls1 (t_pid t + 1) (t_acts t ++ [Forked])) /\ P 0 (mkterm ls2 (t_pid t + 1) (t_acts t ++ [Born]))
  | User.Exec path argv => fun P => let t' := did [Execed path argv] t in (t_in t = [] -> Fin t') /\ P (-1) t'
  | User.Wait => fun P => forall pid, P pid (did [Waited] t)
  | Malloc _ => fun P => P true t
  | User.Exit => fun _ => Fin t
  | _ => fun _ => False
  end.
Lemma did_nil t : did [] t = t.
Proof. destruct t. unfold did. cbn. by rewrite app_nil_r. Qed.
Lemma did_app a b t : did (a ++ b) t = did b (did a t).
Proof. unfold did. cbn. by rewrite app_assoc. Qed.

Definition says (msg : list Z) : list act := map (Wrote 1) msg.
Definition announcement (pid : Z) : list Z := printf (str "[pid %d] runs as a background process " ++ [10]) [Num pid].
Definition complaint (w0 : list Z) : list Z := printf (str "Cannot run this command %s " ++ [10]) [Str (Some w0)].
Definition is_command (l w0 : list Z) (ws : list (list Z)) : Prop := line_words l = w0 :: ws /\ w0 <> str "exit".
(** Whether the shell waits for its child, or announces it. *)
Definition attends (ws : list (list Z)) (pid : Z) : list act :=
  if negb (existsb amp ws) then [Waited] else if existsb amp (tl ws) then says (announcement pid) else [].
(** What a process that is the shell with the terminal's [lines] before it, or comes
    from it by forks, has done at its end; [pid] is the next pid.  A shell that
    reads a command forks, attends to the child and prompts; the child executes
    the command with its arguments, or, if it cannot be run, says so and becomes
    another shell.  [exit] waits for one child. *)
Inductive session : Z -> list (list Z) -> list act -> Prop :=
| at_end pid : session pid [] []
| at_blank pid l lines a : line_words l = [] -> session pid lines a -> session pid (l :: lines) (says prompt ++ a)
| at_exit pid l lines ws : line_words l = str "exit" :: ws -> session pid (l :: lines) [Waited]
| as_parent pid l lines w0 ws mine others a : is_command l w0 ws -> shared mine others lines -> session (pid + 1) mine a ->
    session pid (l :: lines) (Forked :: attends ws pid ++ says prompt ++ a)
| as_child pid l lines w0 ws : is_command l w0 ws -> session pid (l :: lines) [Born; Execed w0 (w0 :: until_amp ws)]
| as_shell pid l lines w0 ws mine others a : is_command l w0 ws -> shared others mine lines -> session (pid + 1) mine a ->
    session pid (l :: lines) (Born :: Execed w0 (w0 :: until_amp ws) :: says (complaint w0) ++ says prompt ++ a).
(** Lines that fit, and are empty or hold a word. *)
Definition line_ok (l : list Z) : Prop :=
  Forall (fun c => c <> 0 /\ c <> 10) l /\ Z.of_nat (length l) < 255 /\ (l = [] \/ line_words l <> []).

Section session.
Context (Fin : term -> Prop).
Notation uwp := (uwp (terminal Fin)).
Lemma term_puts bs (Q : unit -> term -> Prop) t : Q tt (did (says bs) t) -> uwp (puts 1 bs) Q t.
Proof.
  intros HQ. apply (uwp_for_args _ _ (fun l t' => did (says l) t' = did (says bs) t)); [| |done].
  - intros c l t' Ht. apply uwp_bind, uwp_call. apply uwp_ret. rewrite <- Ht. by rewrite <- did_app.
  - intros t' Ht. cbn in Ht. rewrite did_nil in Ht. by rewrite Ht.
Qed.
Lemma term_malloc n (Q : bool -> term -> Prop) t : Q true t -> uwp (trigger (Malloc n)) Q t.
Proof. intros HQ. by apply uwp_call. Qed.
Lemma run_words_wp w0 ws (Q : unit -> term -> Prop) t : 0 < t_pid t ->
  (if bool_decide (w0 = str "exit") then Fin (did [Waited] t)
   else forall ls1 ls2, shared ls1 ls2 (t_in t) ->
     let child := did [Born; Execed w0 (w0 :: until_amp ws)] (mkterm ls2 (t_pid t + 1) (t_acts t)) in
     Q tt (did (Forked :: attends ws (t_pid t)) (mkterm ls1 (t_pid t + 1) (t_acts t))) /\ Fin child /\ Q tt (did (says (complaint w0)) child)) ->
  uwp (run_words w0 ws) Q t.
Proof.
  intros Hpid HQ. unfold run_words. destruct (bool_decide _).
  - apply uwp_bind, uwp_call. intros pid. by apply uwp_exit.
  - apply uwp_bind, uwp_call. intros ls1 ls2 Hs. destruct (HQ ls1 ls2 Hs) as (Hpar & Hfin & Hsh). split; cycle 1.
    { cbn [Z.eqb]. apply uwp_bind, uwp_call. unfold did in Hfin, Hsh. cbn [t_acts t_in t_pid] in Hfin, Hsh.
      split; unfold did; cbn [t_acts t_in t_pid]; rewrite <- app_assoc; [by intros _|]. apply term_puts. exact Hsh. }
    rewrite (proj2 (Z.eqb_neq (t_pid t) 0)), (proj2 (Z.ltb_lt 0 (t_pid t))) by lia. cbn [andb].
    change (Forked :: ?l) with ([Forked] ++ l) in Hpar. rewrite did_app in Hpar. unfold attends in Hpar. destruct (existsb amp ws); cbn [negb] in *.
    + destruct (existsb amp (tl ws)); [apply term_puts; exact Hpar|]. apply uwp_ret. by rewrite did_nil in Hpar.
    + apply uwp_bind, uwp_call. intros pid. by apply uwp_ret.
Qed.
Lemma prompt_text : printf prompt [] = prompt.
Proof. reflexivity. Qed.

(** The buffer between two commands: all NULs, but for a newline that an empty
    line leaves. *)
Definition cleared (buf : list Z) : Prop := exists n, buf = replicate (256 - n) 0 /\ n = 0%nat \/ buf = replicate n 10 ++ replicate (256 - n) 0 /\ n = 1%nat.
Lemma cleared_fill buf bs : cleared buf -> (1 <= length bs <= 255)%nat -> splice 0 bs buf = bs ++ 0 :: replicate (255 - length bs) 0.
Proof.
  intros (n & Hb) Hl. assert (Hd : length buf = 256%nat /\ drop 1 buf = replicate 255 0) by (destruct Hb as [[-> ->]|[-> ->]]; done).
  destruct Hd as [Hlen Hd]. unfold splice. rewrite take_0, app_nil_l, Hlen, take_ge by lia. cbn [Nat.add].
  replace (length bs) with (1 + (length bs - 1))%nat at 1 by lia. rewrite <- drop_drop, Hd, drop_replicate. f_equal.
  by replace (255 - (length bs - 1))%nat with (S (255 - length bs)) by lia.
Qed.
(** The line in the buffer, its newline replaced by a NUL. *)
Lemma line_buffer line k : Forall (fun c => c <> 0 /\ c <> 10) line ->
  cut (line ++ 10 :: 0 :: replicate k 0) = line ++ [10] /\
  <[length line := 0]> (line ++ 10 :: 0 :: replicate k 0) = line ++ 0 :: replicate (S k) 0.
Proof.
  intros Hl. split.
  - replace (line ++ 10 :: 0 :: replicate k 0) with ((line ++ [10]) ++ 0 :: replicate k 0) by (by rewrite <- app_assoc). apply cut_app.
    apply Forall_app. split; [eapply Forall_impl; [exact Hl|]; by intros c [? _]|by repeat constructor].
  - rewrite insert_app_r_alt by done. by rewrite Nat.sub_diag.
Qed.
Lemma shared_length {A} (l1 l2 l : list A) : shared l1 l2 l -> (length l = length l1 + length l2)%nat.
Proof. induction 1; cbn; lia. Qed.
Lemma shared_Forall {A} (P : A -> Prop) l1 l2 l : shared l1 l2 l -> Forall P l -> Forall P l1 /\ Forall P l2.
Proof. induction 1 as [| |]; intros Hl; [done|..]; apply Forall_cons in Hl as [Hx Hl]; destruct IHshared; auto. Qed.

Lemma loop_wp n : forall lines buf t, (length lines <= n)%nat -> cleared buf -> Forall line_ok lines -> t_in t = lines -> 0 < t_pid t ->
  (forall t' a, session (t_pid t) lines a -> t_acts t' = t_acts t ++ a -> Fin t') -> uwp (ITree.iter xvsh_turn buf) (fun _ _ => False) t.
Proof.
  induction n as [|n IH]; intros [|line lines] buf t Hn Hbuf Hok Hin Hpid HF; apply uwp_iter, uwp_bind, uwp_call; (split; [done|]); rewrite Hin.
  1, 3: apply uwp_exit; apply (HF _ []); [constructor|by rewrite app_nil_r].
  { cbn in Hn. lia. }
  apply Forall_cons in Hok as [(Hl & Hlen & Hw) Hok]. split; [change MAXLINE with 256; lia|]. set (t1 := mkterm lines _ _). cbn [length] in Hn.
  rewrite (proj2 (Z.eqb_neq _ 0)) by lia. rewrite cleared_fill by (done || rewrite length_app; cbn; lia). rewrite length_app. cbn [length].
  destruct (decide (line = [])) as [->|Hne].
  - apply uwp_bind, term_puts. rewrite prompt_text. apply uwp_ret. apply (IH lines _ (did (says prompt) t1)); [lia| |done..|].
    { exists 1%nat. by right. }
    cbn. intros t' a Ha Ht. apply (HF _ (says prompt ++ a)); [by constructor|]. by rewrite Ht, <- app_assoc.
  - destruct Hw as [|Hw]; [done|]. destruct (line_words line) as [|w0 ws] eqn:Ew; [done|].
    rewrite (proj2 (Z.eqb_neq _ 1)) by (destruct line; [done|cbn; lia]). rewrite <- app_assoc. cbn [app].
    destruct (line_buffer line (255 - (length line + 1)) Hl) as [-> Hins]. rewrite bool_decide_eq_false_2 by (rewrite !length_app; cbn; lia).
    rewrite length_app. replace (length line + length [10%Z] - 1)%nat with (length line) by (cbn; lia). rewrite Hins. apply uwp_bind.
    eapply uwp_eq; [symmetry; apply process_one_cmd_eq; [|exact Ew]; eapply Forall_impl; [exact Hl|]; by intros c [? _]|].
    apply uwp_bind, term_malloc. cbn [negb]. apply run_words_wp; [done|]. case_bool_decide as Hex.
    { subst w0. apply (HF _ [Waited]); [by econstructor|done]. }
    intros ls1 ls2 Hs. cbn [t_in t_pid t_acts t1] in Hs |- *. pose proof (shared_length _ _ _ Hs). destruct (shared_Forall _ _ _ _ Hs Hok) as [Hok1 Hok2].
    (* the prompt, and the next line *)
    assert (Hnext : forall ls pre, (length ls <= n)%nat -> Forall line_ok ls ->
      (forall a, session (t_pid t + 1) ls a -> session (t_pid t) (line :: lines) (pre ++ says prompt ++ a)) ->
      uwp (fprintf 1 prompt [] ;~ Ret (inl (replicate (Z.to_nat MAXLINE) 0)) : prog (list Z + void))
        (fun r w' => match r with inl buf => uwp (ITree.iter xvsh_turn buf) (fun _ _ => False) w' | inr r => False end)
        (did pre (mkterm ls (t_pid t + 1) (t_acts t)))).
    { intros ls pre Hls Hoks Hses. apply uwp_bind, term_puts. rewrite prompt_text. apply uwp_ret.
      apply (IH ls); [done|by exists 0%nat; left|done|done|cbn; lia|]. cbn. intros t' a Ha Ht. apply (HF _ (pre ++ says prompt ++ a)); [by apply Hses|].
      by rewrite Ht, <- !app_assoc. }
    split_and!.
    + apply Hnext; [lia|done|]. intros a Ha. by apply (as_parent _ _ _ w0 ws ls1 ls2).
    + apply (HF _ [Born; Execed w0 (w0 :: until_amp ws)]); [by constructor|done].
    + rewrite <- did_app. apply Hnext; [lia|done|]. intros a Ha. rewrite <- app_assoc. by apply (as_shell _ _ _ w0 ws ls2 ls1).
Qed.
End session.


