(* ===== verification/Ide.v ===== *)
(** * ide.c: the IDE disk driver

    The queue of requests runs through the buffers ([qnext]); the first one is
    with the disk, whose interrupt ends it and starts the next.  The controller is
    reached through its ports. *)

From S2P Require Import Prelude Params Disk.

Definition SECTOR_SIZE : Z := 512.
Definition IDE_BSY : Z := 0x80.
Definition IDE_DRDY : Z := 0x40.
Definition IDE_DF : Z := 0x20.
Definition IDE_ERR : Z := 0x01.
Definition IDE_CMD_READ : Z := 0x20.
Definition IDE_CMD_WRITE : Z := 0x30.

(** ** The ports *)

(** [inb], [outb], [insl] and [outsl] of x86.h on the state of the machine; a
    string of words is the list of its bytes. *)
Class Ports (D : Type) := {
  inb : Z -> M D Z;
  outb : Z -> Z -> M D unit;
  insl : Z -> Z -> M D (list Z);
  outsl : Z -> list Z -> M D unit
}.

Section ide.
Context {D : Type} `{!Ports D}.
(** How often a loop may ask for the status. *)
Context (polls : nat).

(** The buffers, [idequeue], [idelock], [havedisk1], the buffers whose sleepers
    have been woken, and the machine. *)
Record ide := mkide { i_bufs : list buf; idequeue : option nat; idelock : bool; havedisk1 : bool; i_woken : list nat; i_dev : D }.
Definition set_i_bufs v (s : ide) := mkide v (idequeue s) (idelock s) (havedisk1 s) (i_woken s) (i_dev s).
Definition set_idequeue v (s : ide) := mkide (i_bufs s) v (idelock s) (havedisk1 s) (i_woken s) (i_dev s).
Definition set_idelock v (s : ide) := mkide (i_bufs s) (idequeue s) v (havedisk1 s) (i_woken s) (i_dev s).
Definition set_havedisk1 v (s : ide) := mkide (i_bufs s) (idequeue s) (idelock s) v (i_woken s) (i_dev s).
Definition set_i_woken v (s : ide) := mkide (i_bufs s) (idequeue s) (idelock s) (havedisk1 s) v (i_dev s).
Definition set_i_dev v (s : ide) := mkide (i_bufs s) (idequeue s) (idelock s) (havedisk1 s) (i_woken s) v.
Definition on_dev {A} (m : M D A) : M ide A := zoom i_dev set_i_dev m.
Definition getb (b : nat) : M ide buf := gets (fun s => i_bufs s !!! b).
Definition updb (b : nat) (f : buf -> buf) : M ide unit := modify (fun s => set_i_bufs (alter f b (i_bufs s)) s).
Definition acquire_ide : M ide unit := l <-- gets idelock ;; if (l : bool) then panic "acquire" else modify (set_idelock true).
Definition release_ide : M ide unit := l <-- gets idelock ;; if (l : bool) then modify (set_idelock false) else panic "release".
Definition wakeup_buf (b : nat) : M ide unit := modify (fun s => set_i_woken (i_woken s ++ [b]) s).

(** [idewait]: the status once the disk is ready, and whether it is an error. *)
Definition idewait (checkerr : bool) : M D Z :=
  r <-- loop polls (fun _ : unit => r <-- inb 0x1f7 ;;
    if negb (Z.land r (Z.lor IDE_BSY IDE_DRDY) =? IDE_DRDY) then ret (inl tt) else ret (inr r)) tt ;;
  if checkerr && negb (Z.land r (Z.lor IDE_DF IDE_ERR) =? 0) then ret (-1) else ret 0.

(** The loop that looks for disk 1, with [n] turns left. *)
Fixpoint find_disk1 (n : nat) : M D bool :=
  match n with
  | O => ret false
  | S n' => r <-- inb 0x1f7 ;; if negb (r =? 0) then ret true else find_disk1 n'
  end.
Definition ideinit : M ide unit :=
  modify (set_idelock false) ;;;
  on_dev (idewait false) ;;;
  on_dev (outb 0x1f6 (Z.lor 0xe0 (Z.shiftl 1 4))) ;;;
  r <-- on_dev (find_disk1 1000) ;;
  (if (r : bool) then modify (set_havedisk1 true) else ret tt) ;;;
  on_dev (outb 0x1f6 (Z.lor 0xe0 (Z.shiftl 0 4))).

Definition idestart (b : nat) : M ide unit :=
  bf <-- getb b ;;
  if FSSIZE <=? b_blockno bf then panic "incorrect blockno"
  else
    let sector_per_block := BSIZE / SECTOR_SIZE in
    let sector := i32 (b_blockno bf * sector_per_block) in
    if 7 <? sector_per_block then panic "idestart"
    else
      on_dev (
        idewait false ;;;
        outb 0x3f6 0 ;;;
        outb 0x1f2 sector_per_block ;;;
        outb 0x1f3 (Z.land sector 0xff) ;;;
        outb 0x1f4 (Z.land (Z.shiftr sector 8) 0xff) ;;;
        outb 0x1f5 (Z.land (Z.shiftr sector 16) 0xff) ;;;
        outb 0x1f6 (Z.lor (Z.lor 0xe0 (Z.shiftl (Z.land (b_dev bf) 1) 4)) (Z.land (Z.shiftr sector 24) 0x0f)) ;;;
        if has (b_flags bf) B_DIRTY then
          outb 0x1f7 IDE_CMD_WRITE ;;;
          outsl 0x1f0 (b_data bf)
        else outb 0x1f7 IDE_CMD_READ).

Definition ideintr : M ide unit :=
  acquire_ide ;;;
  q <-- gets idequeue ;;
  match q with
  | None => release_ide
  | Some b =>
      bf <-- getb b ;;
      modify (set_idequeue (b_qnext bf)) ;;;
      (if negb (has (b_flags bf) B_DIRTY) then
         r <-- on_dev (idewait true) ;;
         if 0 <=? r then
           data <-- on_dev (insl 0x1f0 (BSIZE / 4)) ;;
           updb b (set_data data)
         else ret tt
       else ret tt) ;;;
      updb b (fun bf => set_flags (Z.lor (b_flags bf) B_VALID) bf) ;;;
      updb b (fun bf => set_flags (clr (b_flags bf) B_DIRTY) bf) ;;;
      wakeup_buf b ;;;
      q <-- gets idequeue ;;
      (match q with Some b' => idestart b' | None => ret tt end) ;;;
      release_ide
  end.

(** The loop over [pp] that looks for the end of the queue: the last buffer from
    [b] on. *)
Fixpoint last_of (fuel : nat) (bufs : list buf) (b : nat) : option nat :=
  match fuel with
  | O => None
  | S f => match b_qnext (bufs !!! b) with None => Some b | Some b' => last_of f bufs b' end
  end.
Definition append (b : nat) : M ide unit :=
  updb b (set_qnext None) ;;;
  s <-- get ;;
  match idequeue s with
  | None => modify (set_idequeue (Some b))
  | Some h =>
      match last_of (length (i_bufs s)) (i_bufs s) h with
      | Some t => updb t (set_qnext (Some b))
      | None => fun _ => OutOfFuel
      end
  end.
(** The test of the [while]: the request is finished. *)
Definition finished (bf : buf) : bool := Z.land (b_flags bf) (Z.lor B_VALID B_DIRTY) =? B_VALID.
(** The [while] with the lock held; [sleep(b, &idelock)] releases it, and the
    process continues with [iderw_resume] when it is woken. *)
Definition iderw_wait (b : nat) : M ide unit :=
  bf <-- getb b ;;
  if finished bf then release_ide
  else release_ide ;;; sleep_on (Z.of_nat b).
Definition iderw_resume (b : nat) : M ide unit := acquire_ide ;;; iderw_wait b.
Definition iderw (b : nat) : M ide unit :=
  bf <-- getb b ;;
  if negb (has (b_flags bf) B_BUSY) then panic "iderw: buf not busy"
  else if finished bf then panic "iderw: nothing to do"
  else
    s <-- get ;;
    if negb (b_dev bf =? 0) && negb (havedisk1 s) then panic "iderw: ide disk 1 not present"
    else
      acquire_ide ;;;
      append b ;;;
      q <-- gets idequeue ;;
      (if bool_decide (q = Some b) then idestart b else ret tt) ;;;
      iderw_wait b.
End ide.
Arguments ide D : clear implicits.
