(* ===== verification/IdeSpec.v ===== *)
(** * The IDE driver is a disk

    Over a controller that behaves as the ATA documents say, the requests are
    carried out one after the other, in the order in which they were made; the
    driver keeps the contract of the buffer cache ([Driver]). *)

From S2P Require Import Prelude Params Disk Ide.

(** ** The controller *)

(** What the disk is doing: nothing, reading a sector, waiting for the data of a
    write, writing it, or holding a sector that has been read. *)
Inductive phase := Idle | Reading (k : key) | WantData (k : key) | Writing (k : key) (d : block) | ReadDone (k : key).
(** The registers, the sectors of the two disks, and the writes performed. *)
Record ata := mkata { a_reg : Z -> Z; a_phase : phase; a_disk : contents; a_writes : list (key * block) }.
Definition set_reg (p v : Z) (a : ata) : ata := mkata (fun q => if q =? p then v else a_reg a q) (a_phase a) (a_disk a) (a_writes a).
Definition set_phase (p : phase) (a : ata) : ata := mkata (a_reg a) p (a_disk a) (a_writes a).
(** The sector that the registers name (LBA28). *)
Definition addressed (a : ata) : key :=
  (Z.land (Z.shiftr (a_reg a 0x1f6) 4) 1,
   Z.lor (Z.lor (a_reg a 0x1f3) (Z.shiftl (a_reg a 0x1f4) 8))
         (Z.lor (Z.shiftl (a_reg a 0x1f5) 16) (Z.shiftl (Z.land (a_reg a 0x1f6) 0x0f) 24))).
(** The operation is over, and the interrupt is raised. *)
Definition a_finish (a : ata) : ata :=
  match a_phase a with
  | Reading k => set_phase (ReadDone k) a
  | Writing k d => mkata (a_reg a) Idle (upd (a_disk a) k d) (a_writes a ++ [(k, d)])
  | _ => a
  end.

(** The disk waits for the driver. *)
Definition settled (p : phase) : bool := match p with Idle | ReadDone _ => true | _ => false end.

(** The documented behaviour of the ports.  The status becomes "ready, no error"
    after a number of polls that is less than [polls]; registers keep what is
    written to them; a command for one sector starts the operation on the sector
    addressed. *)
Class Ata (D : Type) `{!Ports D} (polls : nat) := {
  view : D -> ata;
  to_wait : D -> nat;
  finish : D -> D;
  wait_bound d : (to_wait d < polls)%nat;
  view_finish d : view (finish d) = a_finish (view d);
  status_ok d : settled (a_phase (view d)) = true -> wp (inb 0x1f7) (fun r d' => view d' = view d /\
    (Z.land r (Z.lor IDE_BSY IDE_DRDY) = IDE_DRDY /\ Z.land r (Z.lor IDE_DF IDE_ERR) = 0 \/
     Z.land r (Z.lor IDE_BSY IDE_DRDY) <> IDE_DRDY /\ (to_wait d' < to_wait d)%nat)) d;
  outb_reg p v d : p ∈ [0x3f6; 0x1f2; 0x1f3; 0x1f4; 0x1f5; 0x1f6] -> a_phase (view d) = Idle ->
    wp (outb p v) (fun _ d' => view d' = set_reg p v (view d)) d;
  outb_read d : a_phase (view d) = Idle -> a_reg (view d) 0x1f2 = 1 ->
    wp (outb 0x1f7 IDE_CMD_READ) (fun _ d' => view d' = set_phase (Reading (addressed (view d))) (view d)) d;
  outb_write d : a_phase (view d) = Idle -> a_reg (view d) 0x1f2 = 1 ->
    wp (outb 0x1f7 IDE_CMD_WRITE) (fun _ d' => view d' = set_phase (WantData (addressed (view d))) (view d)) d;
  outsl_ok k bs d : a_phase (view d) = WantData k -> length bs = 512%nat ->
    wp (outsl 0x1f0 bs) (fun _ d' => view d' = set_phase (Writing k bs) (view d)) d;
  insl_ok k d : a_phase (view d) = ReadDone k ->
    wp (insl 0x1f0 128) (fun bs d' => bs = a_disk (view d) k /\ view d' = set_phase Idle (view d)) d
}.

(** ** The queue *)

(** From [h] on, the buffers linked by [qnext] are [q]. *)
Fixpoint chain (bufs : list buf) (h : option nat) (q : list nat) : Prop :=
  match q with
  | [] => h = None
  | b :: q' => h = Some b /\ (b < length bufs)%nat /\ chain bufs (b_qnext (bufs !!! b)) q'
  end.
(** A buffer without its place in the queue. *)
Definition strip (bf : buf) : buf := set_qnext None bf.

Lemma chain_alter f b bufs h q : b ∉ q -> chain bufs h q -> chain (alter f b bufs) h q.
Proof.
  revert h. induction q as [|x q IH]; intros h Hb Hc; [done|]. destruct Hc as (-> & Hx & Hc). cbn. rewrite length_alter.
  apply not_elem_of_cons in Hb as [Hn Hb]. split_and!; [done|done|].
  rewrite !list_lookup_total_alt, list_lookup_alter_ne, <- list_lookup_total_alt by done. by apply IH.
Qed.
Lemma chain_lt bufs h q : chain bufs h q -> Forall (fun b => b < length bufs)%nat q.
Proof. revert h. induction q as [|x q IH]; intros h Hc; constructor; [apply Hc|]. eapply IH, Hc. Qed.
Lemma chain_length bufs h q : chain bufs h q -> NoDup q -> (length q <= length bufs)%nat.
Proof.
  intros Hc%chain_lt Hn. trans (length (seq 0 (length bufs))); [|by rewrite length_seq]. apply submseteq_length, NoDup_submseteq; [done|].
  intros x Hx. rewrite Forall_forall in Hc. apply elem_of_seq. specialize (Hc _ Hx). lia.
Qed.
Lemma last_of_chain bufs q : forall h fuel, chain bufs (Some h) q -> (length q <= fuel)%nat -> last_of fuel bufs h = last q.
Proof.
  induction q as [|x q IH]; intros h fuel Hc Hf; [done|]. destruct Hc as ([= <-] & Hx & Hc).
  destruct fuel as [|fuel]; cbn in Hf; [lia|]. cbn [last_of]. destruct q as [|y q].
  - by rewrite Hc.
  - destruct Hc as (Hy & Hc). rewrite Hy. rewrite (IH y fuel); [done| |cbn in *; lia]. by split.
Qed.
(** The last buffer of the queue is made to point to [b]. *)
Lemma chain_snoc bufs h q t b :
  chain bufs h (q ++ [t]) -> NoDup (q ++ [t; b]) -> (b < length bufs)%nat -> b_qnext (bufs !!! b) = None ->
  chain (alter (set_qnext (Some b)) t bufs) h (q ++ [t; b]).
Proof.
  revert h. induction q as [|x q IH]; intros h Hc Hn Hb Hq; cbn in *.
  - destruct Hc as (-> & Ht & _). apply NoDup_cons in Hn as [Htb _]. rewrite length_alter, !lookup_alter_buf by done.
    rewrite decide_True, decide_False by set_solver. done.
  - destruct Hc as (-> & Hx & Hc). apply NoDup_cons in Hn as [Hxn Hn]. rewrite length_alter. split_and!; [done|done|].
    rewrite lookup_alter_buf, decide_False by (apply chain_lt in Hc; rewrite ?Forall_app, ?Forall_singleton in Hc; set_solver). by apply IH.
Qed.
Lemma alter_twice f g (b : nat) (bufs : list buf) : alter f b (alter g b bufs) = alter (fun x => f (g x)) b bufs.
Proof. revert b. induction bufs as [|x bufs IH]; intros [|b]; cbn; try done. f_equal. apply IH. Qed.
Lemma alter_const (x : buf) (b : nat) (bufs : list buf) : alter (fun _ => x) b bufs = <[b := x]> bufs.
Proof. revert b. induction bufs as [|y bufs IH]; intros [|b]; cbn; try done. f_equal. apply IH. Qed.
Lemma strip_alter f (b : nat) (bufs : list buf) : (forall bf, strip (f bf) = strip bf) -> strip <$> alter f b bufs = strip <$> bufs.
Proof. intros Hf. rewrite (list_fmap_alter strip f id) by (apply Forall_forall; intros; apply Hf). by rewrite list_alter_id. Qed.

(** The two updates of the flags, in the order of [ideintr]. *)
Lemma synced_swap f : clr (Z.lor f B_VALID) B_DIRTY = flags_synced f.
Proof.
  unfold flags_synced. change B_VALID with (2 ^ 1). change B_DIRTY with (2 ^ 2). apply Z.bits_inj'. intros n Hn.
  rewrite clr_pow2_bit, !lor_pow2_bit, clr_pow2_bit by lia. by repeat case_decide; subst.
Qed.

(** ** What the driver promises *)

(** Buffers, the queue of requests, the sectors of the disks and the writes so
    far, the buffers whose sleepers have been woken, and whether there is a disk 1. *)
Record spec := mkspec { p_bufs : list buf; p_queue : list nat; p_disk : contents; p_writes : list (key * block); p_woken : list nat; p_disk1 : bool }.

(** A request the driver accepts. *)
Definition request_ok (disk1 : bool) (bf : buf) : bool :=
  busy bf && negb (finished bf) && bool_decide (0 <= b_blockno bf < FSSIZE) && bool_decide (length (b_data bf) = 512%nat) &&
  ((b_dev bf =? 0) || (b_dev bf =? 1) && disk1).
(** A request that is carried out: the buffer is the sector. *)
Definition synced (disk : contents) (bf : buf) : buf :=
  set_flags (flags_synced (b_flags bf)) (if dirty bf then bf else set_data (disk (b_key bf)) bf).
Definition written (bf : buf) : list (key * block) := if dirty bf then [(b_key bf, b_data bf)] else [].
Definition stored (disk : contents) (bf : buf) : contents := if dirty bf then upd disk (b_key bf) (b_data bf) else disk.
(** The sectors once the requests of [q] are carried out. *)
Definition after (bufs : list buf) (disk : contents) (q : list nat) : contents := foldl (fun d b => stored d (bufs !!! b)) disk q.
(** The first request is carried out and leaves the queue. *)
Definition serve (p : spec) : spec :=
  match p_queue p with
  | [] => p
  | b :: q => let bf := p_bufs p !!! b in
      mkspec (alter (synced (p_disk p)) b (p_bufs p)) q (stored (p_disk p) bf) (p_writes p ++ written bf) (p_woken p ++ [b]) (p_disk1 p)
  end.

(** A process calls [iderw]; the disk interrupts; a process that was asleep in
    [iderw] goes on; the process that holds a buffer changes it. *)
Inductive event := Request (b : nat) | Interrupt | Resume (b : nat) | Holder (b : nat) (bf : buf).
Definition allowed (e : event) (p : spec) : bool :=
  match e with
  | Request b => (b <? length (p_bufs p))%nat && bool_decide (b ∉ p_queue p) && request_ok (p_disk1 p) (p_bufs p !!! b)
  | Interrupt => true
  | Resume b => (b <? length (p_bufs p))%nat
  | Holder b _ => (b <? length (p_bufs p))%nat && bool_decide (b ∉ p_queue p)
  end.
(** Whether the call returns, as against sleeps, and what it does. *)
Definition p_step (e : event) (p : spec) : bool * spec :=
  match e with
  | Request b => (false, mkspec (p_bufs p) (p_queue p ++ [b]) (p_disk p) (p_writes p) (p_woken p) (p_disk1 p))
  | Interrupt => (true, serve p)
  | Resume b => (finished (p_bufs p !!! b), p)
  | Holder b bf => (true, mkspec (<[b := strip bf]> (p_bufs p)) (p_queue p) (p_disk p) (p_writes p) (p_woken p) (p_disk1 p))
  end.
Fixpoint p_run (es : list event) (p : spec) : option (list bool * spec) :=
  match es with
  | [] => Some ([], p)
  | e :: es' => if allowed e p then let '(r, p') := p_step e p in
      match p_run es' p' with Some (rs, p'') => Some (r :: rs, p'') | None => None end else None
  end.

Lemma finished_synced disk bf : finished (synced disk bf) = true.
Proof.
  unfold finished, synced. apply Z.eqb_eq. cbn [b_flags set_flags]. unfold flags_synced.
  change B_VALID with (2 ^ 1). change B_DIRTY with (2 ^ 2). apply Z.bits_inj'. intros n Hn.
  rewrite Z.land_spec, Z.lor_spec, lor_pow2_bit, clr_pow2_bit, !Z.pow2_bits_eqb by lia.
  repeat case_decide; subst; try lia; try done.
Qed.
Lemma after_ext bufs bufs' disk q : (forall b, b ∈ q -> bufs !!! b = bufs' !!! b) -> after bufs disk q = after bufs' disk q.
Proof.
  revert disk. induction q as [|x q IH]; intros disk H; [done|]. cbn. rewrite H by set_solver. apply IH. intros b Hb. apply H. set_solver.
Qed.
Lemma serve_all q : forall p, p_queue p = q -> NoDup q -> Forall (fun b => b < length (p_bufs p))%nat q ->
  exists p', p_run (replicate (length q) Interrupt) p = Some (replicate (length q) true, p') /\ p_queue p' = [] /\
    p_woken p' = p_woken p ++ q /\ p_writes p' = p_writes p ++ concat ((fun b => written (p_bufs p !!! b)) <$> q) /\
    (forall b, b ∉ q -> p_bufs p' !!! b = p_bufs p !!! b) /\ length (p_bufs p') = length (p_bufs p) /\
    (forall q1 b q2, q = q1 ++ b :: q2 -> p_bufs p' !!! b = synced (after (p_bufs p) (p_disk p) q1) (p_bufs p !!! b)).
Proof.
  induction q as [|b q IH]; intros p Hq Hn Hl.
  { exists p. cbn. rewrite !app_nil_r. split_and!; try done. by intros [|? ?]. }
  apply NoDup_cons in Hn as [Hb Hn]. apply Forall_cons in Hl as [Hlb Hl]. set (p1 := serve p).
  assert (Hp1 : p1 = mkspec (alter (synced (p_disk p)) b (p_bufs p)) q (stored (p_disk p) (p_bufs p !!! b)) (p_writes p ++ written (p_bufs p !!! b)) (p_woken p ++ [b]) (p_disk1 p))
    by (unfold p1, serve; by rewrite Hq).
  assert (Hlk : forall x, x <> b -> p_bufs p1 !!! x = p_bufs p !!! x).
  { intros x Hx. rewrite Hp1. cbn. by rewrite lookup_alter_buf, decide_False by done. }
  destruct (IH p1) as (p' & Hrun & Hq' & Hw' & Hwr' & Hne & Hln & Hsy); [by rewrite Hp1|done|rewrite Hp1; cbn; by rewrite length_alter|].
  exists p'. cbn [length replicate p_run allowed p_step]. fold p1. rewrite Hrun. split_and!; [done|done| | | | |].
  - rewrite Hw', Hp1. cbn. by rewrite <- app_assoc.
  - rewrite Hwr', Hp1. cbn. rewrite <- app_assoc. do 3 f_equal. apply list_fmap_ext. intros i x Hx%list_elem_of_lookup_2.
    rewrite lookup_alter_buf, decide_False by (done || set_solver). done.
  - intros x [Hx Hxq]%not_elem_of_cons. rewrite Hne by done. by apply Hlk.
  - rewrite Hln, Hp1. apply length_alter.
  - intros [|y q1] x q2 Hx; cbn in Hx; injection Hx as Hy Hx; subst.
    + rewrite Hne by done. rewrite Hp1. cbn. by rewrite lookup_alter_buf, decide_True by done.
    + rewrite (Hsy q1 x q2) by done. rewrite Hlk by set_solver. cbn. f_equal.
      rewrite (after_ext (p_bufs p1) (p_bufs p)) by (intros z Hz; apply Hlk; set_solver). by rewrite Hp1.
Qed.

Section ports.
Context {D : Type} `{!Ports D} {polls : nat} `{!Ata D polls}.
Implicit Types (d : D) (s : ide D).

Lemma idewait_wp e d (Q : Z -> D -> Prop) : settled (a_phase (view d)) = true -> (forall d', view d' = view d -> Q 0 d') -> wp (idewait polls e) Q d.
Proof.
  intros Hs HQ. unfold idewait. apply wp_bind. set (body := fun _ : unit => _).
  enough (H : forall n d, settled (a_phase (view d)) = true -> (to_wait d < n)%nat -> wp (loop n body tt) (fun r d' => view d' = view d /\ Z.land r (Z.lor IDE_DF IDE_ERR) = 0) d).
  { eapply wp_mono; [apply H, wait_bound; done|]. intros r d' [Hv Hr]. rewrite Hr, andb_false_r. apply wp_ret. by apply HQ. }
  clear. induction n as [|n IH]; intros d Hs Hd; [lia|]. cbn [loop]. apply wp_bind. unfold body at 1. apply wp_bind.
  eapply wp_mono; [by apply status_ok|]. intros r d' (Hv & [[Hr He]|[Hr Hw]]).
  - rewrite Hr, Z.eqb_refl. by apply wp_ret, wp_ret.
  - rewrite (proj2 (Z.eqb_neq _ _)) by done. apply wp_ret. eapply wp_mono; [apply IH; [by rewrite Hv|lia]|]. intros r' d'' [-> ?]. done.
Qed.

(** The sequence of register writes of [idestart] before [k], and the sector it addresses. *)
Definition program_regs (sector dev : Z) (k : M D unit) : M D unit :=
  outb 0x3f6 0 ;;; outb 0x1f2 1 ;;; outb 0x1f3 (Z.land sector 0xff) ;;; outb 0x1f4 (Z.land (Z.shiftr sector 8) 0xff) ;;;
  outb 0x1f5 (Z.land (Z.shiftr sector 16) 0xff) ;;;
  outb 0x1f6 (Z.lor (Z.lor 0xe0 (Z.shiftl (Z.land dev 1) 4)) (Z.land (Z.shiftr sector 24) 0x0f)) ;;; k.
Definition lba_bytes (sector dev : Z) : key :=
  let r6 := Z.lor (Z.lor 0xe0 (Z.shiftl (Z.land dev 1) 4)) (Z.land (Z.shiftr sector 24) 0x0f) in
  (Z.land (Z.shiftr r6 4) 1,
   Z.lor (Z.lor (Z.land sector 0xff) (Z.shiftl (Z.land (Z.shiftr sector 8) 0xff) 8))
         (Z.lor (Z.shiftl (Z.land (Z.shiftr sector 16) 0xff) 16) (Z.shiftl (Z.land r6 0x0f) 24))).
Lemma lba_ok sector dev : 0 <= sector < FSSIZE -> 0 <= dev <= 1 -> lba_bytes sector dev = (dev, sector).
Proof.
  intros Hs Hd. change FSSIZE with 1000 in Hs.
  assert (Hall : forallb (fun n => bool_decide (lba_bytes (Z.of_nat n) 0 = (0, Z.of_nat n)) && bool_decide (lba_bytes (Z.of_nat n) 1 = (1, Z.of_nat n))) (seq 0 1000) = true)
    by (vm_compute; reflexivity).
  rewrite forallb_forall in Hall. specialize (Hall (Z.to_nat sector) ltac:(apply in_seq; lia)).
  rewrite Z2Nat.id in Hall by lia. apply andb_true_iff in Hall as [H0%bool_decide_eq_true H1%bool_decide_eq_true].
  assert (dev = 0 \/ dev = 1) as [-> | ->] by lia; done.
Qed.
Lemma program_regs_wp sector dev k d (Q : unit -> D -> Prop) :
  0 <= sector < FSSIZE -> 0 <= dev <= 1 -> a_phase (view d) = Idle ->
  (forall d', a_phase (view d') = Idle -> a_disk (view d') = a_disk (view d) -> a_writes (view d') = a_writes (view d) ->
     a_reg (view d') 0x1f2 = 1 -> addressed (view d') = (dev, sector) -> wp k Q d') ->
  wp (program_regs sector dev k) Q d.
Proof.
  intros Hs Hd Hp HQ. unfold program_regs.
  do 6 (apply wp_bind; eapply wp_mono; [apply outb_reg; [set_solver|done]|];
    let d' := fresh "d" in let H := fresh "Hv" in intros [] d' H; cbv beta in H; assert (a_phase (view d') = Idle) by (by rewrite H)).
  apply HQ; rewrite ?Hv4, ?Hv3, ?Hv2, ?Hv1, ?Hv0, ?Hv; try done.
  rewrite <- (lba_ok sector dev) by done. reflexivity.
Qed.

(** ** Starting a request *)

(** The disk at work on a request. *)
Definition serving (bf : buf) : phase := if dirty bf then Writing (b_key bf) (b_data bf) else Reading (b_key bf).

Lemma request_ok_inv disk1 bf : request_ok disk1 bf = true ->
  busy bf = true /\ finished bf = false /\ 0 <= b_blockno bf < FSSIZE /\ length (b_data bf) = 512%nat /\
  0 <= b_dev bf <= 1 /\ (b_dev bf = 0 \/ disk1 = true).
Proof.
  unfold request_ok. rewrite !andb_true_iff, negb_true_iff, !bool_decide_eq_true. intros ((((? & ?) & ?) & ?) & Hdev).
  repeat split; try done; try lia; destruct disk1; lia.
Qed.

Lemma idestart_wp b s disk1 :
  request_ok disk1 (i_bufs s !!! b) = true -> a_phase (view (i_dev s)) = Idle ->
  wp (idestart polls b) (fun _ s' => exists d', s' = set_i_dev d' s /\ a_phase (view d') = serving (i_bufs s !!! b) /\
    a_disk (view d') = a_disk (view (i_dev s)) /\ a_writes (view d') = a_writes (view (i_dev s))) s.
Proof.
  intros (_ & _ & Hb & Hl & Hd & _)%request_ok_inv Hp. unfold idestart, getb. apply wp_bind, wp_gets.
  set (bf := i_bufs s !!! b) in *. rewrite (proj2 (Z.leb_gt _ _)) by lia. change (BSIZE / SECTOR_SIZE) with 1. cbv zeta.
  rewrite Z.mul_1_r, i32_id by (change FSSIZE with 1000 in Hb; lia). cbn [Z.ltb Z.compare Pos.compare Pos.compare_cont].
  apply wp_zoom. apply wp_bind, idewait_wp; [by rewrite Hp|]. intros d1 Hv1.
  eapply (wp_mono (program_regs (b_blockno bf) (b_dev bf) (if has (b_flags bf) B_DIRTY then outb 0x1f7 IDE_CMD_WRITE ;;; outsl 0x1f0 (b_data bf) else outb 0x1f7 IDE_CMD_READ))
    (fun _ d' => a_phase (view d') = serving bf /\ a_disk (view d') = a_disk (view (i_dev s)) /\ a_writes (view d') = a_writes (view (i_dev s)))).
  2:{ intros _ d' Hd'. by exists d'. }
  apply program_regs_wp; [done|done|by rewrite Hv1|]. rewrite Hv1. intros d2 Hp2 Hc Hw H2 Ha.
  unfold serving, dirty. destruct (has _ _).
  - apply wp_bind. eapply wp_mono; [by apply outb_write|]. intros [] d3 Hv3.
    eapply wp_mono; [apply (outsl_ok (addressed (view d2))); [by rewrite Hv3|done]|]. intros [] d4 Hv4. by rewrite Hv4, Hv3, Ha.
  - eapply wp_mono; [by apply outb_read|]. intros [] d3 Hv3. by rewrite Hv3, Ha.
Qed.

(** ** The driver carries out the promise *)

Definition returned (o : outcome (ide D) unit) : option (bool * ide D) :=
  match o with Ok _ s => Some (true, s) | Sleep _ s => Some (false, s) | _ => None end.
(** The disk interrupts when it has finished what it was doing. *)
Definition i_step (e : event) (s : ide D) : option (bool * ide D) :=
  match e with
  | Request b => returned (iderw polls b s)
  | Interrupt => returned (ideintr polls (set_i_dev (finish (i_dev s)) s))
  | Resume b => returned (iderw_resume b s)
  | Holder b bf => Some (true, set_i_bufs (alter (fun old => set_qnext (b_qnext old) bf) b (i_bufs s)) s)
  end.
Fixpoint i_run (es : list event) (s : ide D) : option (list bool * ide D) :=
  match es with
  | [] => Some ([], s)
  | e :: es' => match i_step e s with
      | Some (r, s') => match i_run es' s' with Some (rs, s'') => Some (r :: rs, s'') | None => None end
      | None => None
      end
  end.

(** The disk is at work on the first request. *)
Definition ide_rel (s : ide D) (p : spec) : Prop :=
  chain (i_bufs s) (idequeue s) (p_queue p) /\ NoDup (p_queue p) /\ strip <$> i_bufs s = p_bufs p /\
  Forall (fun b => request_ok (p_disk1 p) (p_bufs p !!! b) = true) (p_queue p) /\
  idelock s = false /\ havedisk1 s = p_disk1 p /\ i_woken s = p_woken p /\
  a_disk (view (i_dev s)) = p_disk p /\ a_writes (view (i_dev s)) = p_writes p /\
  a_phase (view (i_dev s)) = match p_queue p with [] => Idle | b :: _ => serving (p_bufs p !!! b) end.

Lemma rel_buf s p b : strip <$> i_bufs s = p_bufs p -> (b < length (i_bufs s))%nat -> p_bufs p !!! b = strip (i_bufs s !!! b).
Proof. intros <- Hb. by apply list_lookup_total_fmap. Qed.
Lemma rel_length s p : strip <$> i_bufs s = p_bufs p -> length (p_bufs p) = length (i_bufs s).
Proof. intros <-. apply length_fmap. Qed.

Lemma append_wp s b q :
  chain (i_bufs s) (idequeue s) q -> NoDup (q ++ [b]) -> (b < length (i_bufs s))%nat ->
  wp (append b) (fun _ s' => exists bufs', s' = set_idequeue (head (q ++ [b])) (set_i_bufs bufs' s) /\
    chain bufs' (head (q ++ [b])) (q ++ [b]) /\ strip <$> bufs' = strip <$> i_bufs s) s.
Proof.
  intros Hc Hn Hb. assert (Hbq : b ∉ q) by (apply NoDup_app in Hn as (_ & Hn & _); set_solver).
  set (bufs := alter (set_qnext None) b (i_bufs s)).
  assert (Hst : strip <$> bufs = strip <$> i_bufs s) by (by apply strip_alter).
  assert (Hc1 : chain bufs (idequeue s) q) by (by apply chain_alter).
  assert (Hb1 : (b < length bufs)%nat) by (unfold bufs; by rewrite length_alter).
  assert (Hnx : b_qnext (bufs !!! b) = None) by (unfold bufs; by rewrite lookup_alter_buf, decide_True by done).
  unfold append, updb. apply wp_bind, wp_modify, wp_bind, wp_get. fold bufs. cbn [idequeue set_i_bufs i_bufs].
  destruct (idequeue s) as [h|] eqn:Hh, q as [|h' q]; try done; [| |by destruct Hc].
  - pose proof Hc1 as [[= <-] _]. rewrite (last_of_chain _ (h :: q)).
    2:{ done. } 2:{ eapply chain_length; [done|]. by apply NoDup_app in Hn as (? & _). }
    destruct (@exists_last _ (h :: q)) as (q1 & t & Ht); [done|]. rewrite Ht in *. rewrite last_snoc, <- app_assoc in *.
    assert (head (q1 ++ [t] ++ [b]) = Some h) as -> by (destruct q1; by simplify_eq/=).
    apply wp_modify. eexists. split; [|split; [by apply chain_snoc|by rewrite strip_alter]]. by rewrite <- Hh; destruct s.
  - apply wp_modify. exists bufs. split; [by destruct s|]. cbn. done.
Qed.

Lemma request_rel s p b : ide_rel s p -> allowed (Request b) p = true -> exists s', i_step (Request b) s = Some (false, s') /\ ide_rel s' (p_step (Request b) p).2.
Proof.
  intros (Hc & Hn & Hs & Hq & Hl & Hd & Hw & Hdk & Hwr & Hph) ((Hb%Nat.ltb_lt & Hbq%bool_decide_eq_true)%andb_true_iff & Hok)%andb_true_iff.
  rewrite (rel_length s p) in Hb by done. pose proof (rel_buf s p b Hs Hb) as Hpb.
  assert (Hnd : NoDup (p_queue p ++ [b])) by (apply NoDup_app; split_and!; [done|set_solver|apply NoDup_singleton]).
  enough (wps (iderw polls b) (fun _ _ => False) (fun _ s' => ide_rel s' (p_step (Request b) p).2) s) as H.
  { unfold i_step, wps in *. destruct (iderw polls b s) as [| |c s'|]; try done. by exists s'. }
  pose proof Hok as (Hbusy & Hfin & _ & _ & _ & Hdev)%request_ok_inv. rewrite Hpb in Hbusy, Hfin, Hdev.
  change (has (b_flags (i_bufs s !!! b)) B_BUSY = true) in Hbusy. change (finished (i_bufs s !!! b) = false) in Hfin.
  change (b_dev (i_bufs s !!! b) = 0 \/ p_disk1 p = true) in Hdev.
  unfold iderw, getb. apply wps_bind, wp_gets. rewrite Hbusy, Hfin. cbn [negb]. apply wps_bind, wp_get. rewrite Hd.
  assert (negb (b_dev (i_bufs s !!! b) =? 0) && negb (p_disk1 p) = false) as -> by (destruct Hdev as [-> | ->]; [done|apply andb_false_r]).
  unfold acquire_ide. apply wps_bind, wp_bind, wp_gets. rewrite Hl. apply wp_modify.
  apply wps_bind. eapply wp_mono; [by apply (append_wp _ b (p_queue p))|]. intros _ s1 (bufs' & -> & Hc' & Hs'). cbn [i_bufs set_idelock] in Hs'.
  rewrite Hs in Hs'. set (s1 := set_idequeue _ _).
  assert (Hb' : (b < length (i_bufs s1))%nat) by (by rewrite <- (rel_length s1 p), (rel_length s p)).
  pose proof (rel_buf s1 p b Hs' Hb') as Hpb'.
  apply wps_bind, wp_gets, wps_bind. eapply wp_mono with (Q := fun _ s2 => exists d', s2 = set_i_dev d' s1 /\
    a_phase (view d') = (match p_queue p ++ [b] with [] => Idle | b :: _ => serving (p_bufs p !!! b) end) /\
    a_disk (view d') = p_disk p /\ a_writes (view d') = p_writes p).
  - destruct (p_queue p) as [|h q] eqn:Hpq; cbn [head app].
    + rewrite bool_decide_eq_true_2 by done. eapply wp_mono; [apply (idestart_wp b s1 (p_disk1 p)); [|done]|].
      { rewrite Hpb' in Hok. exact Hok. }
      intros _ s2 (d' & -> & Hp' & Hk' & Hw'). exists d'. rewrite Hpb', Hp', Hk', Hw'. done.
    + rewrite bool_decide_eq_false_2 by set_solver. apply wp_ret. exists (i_dev s1). done.
  - intros _ s2 (d' & -> & Hp' & Hk' & Hw'). unfold iderw_wait, getb. apply wps_bind, wp_gets. cbn [i_bufs set_i_dev].
    assert (finished (i_bufs s1 !!! b) = false) as ->.
    { change (finished (strip (i_bufs s1 !!! b)) = false). rewrite <- Hpb', Hpb. exact Hfin. }
    apply wps_bind. unfold release_ide. apply wp_bind, wp_gets. apply wp_modify.
    unfold ide_rel. cbn. rewrite Hp'. split_and!; try done. apply Forall_app. split; [done|]. by apply Forall_singleton.
Qed.

(** The data of a read request is in its buffer. *)
Definition fetched (disk : contents) (bf : buf) : buf := if dirty bf then bf else set_data (disk (b_key bf)) bf.
Lemma strip_synced disk bf :
  strip (set_flags (clr (b_flags (set_flags (Z.lor (b_flags (fetched disk bf)) B_VALID) (fetched disk bf))) B_DIRTY) (set_flags (Z.lor (b_flags (fetched disk bf)) B_VALID) (fetched disk bf)))
  = synced disk (strip bf).
Proof.
  unfold synced, fetched. change (dirty (strip bf)) with (dirty bf). destruct (dirty bf); cbn; unfold strip, set_flags, set_data, set_qnext; cbn; f_equal; apply synced_swap.
Qed.

(** The disk has finished the request of [b]: what [ideintr] does first. *)
Lemma fetch_wp s b disk w :
  (b < length (i_bufs s))%nat ->
  a_phase (view (i_dev s)) = (if dirty (i_bufs s !!! b) then Idle else ReadDone (b_key (i_bufs s !!! b))) ->
  (dirty (i_bufs s !!! b) = false -> a_disk (view (i_dev s)) = disk) -> a_writes (view (i_dev s)) = w ->
  wp (if negb (has (b_flags (i_bufs s !!! b)) B_DIRTY) then
        r <-- on_dev (idewait polls true) ;;
        if 0 <=? r then data <-- on_dev (insl 0x1f0 (BSIZE / 4)) ;; updb b (set_data data) else ret tt
      else ret tt)
    (fun _ s' => exists d', s' = set_i_dev d' (set_i_bufs (alter (fetched disk) b (i_bufs s)) s) /\
      a_phase (view d') = Idle /\ a_disk (view d') = a_disk (view (i_dev s)) /\ a_writes (view d') = w) s.
Proof.
  intros Hb Hp Hk Hw. change (has _ B_DIRTY) with (dirty (i_bufs s !!! b)).
  assert (Hlk : i_bufs s !! b = Some (i_bufs s !!! b)) by (by apply list_lookup_lookup_total_lt).
  destruct (dirty (i_bufs s !!! b)) eqn:Hdb; cbn [negb].
  - apply wp_ret. exists (i_dev s). split_and!; try done.
    rewrite (list_alter_ext (fetched disk) id (i_bufs s) (i_bufs s) b), list_alter_id; [by destruct s|done| |done].
    intros bf Hbf. rewrite Hlk in Hbf. injection Hbf as <-. unfold fetched. by rewrite Hdb.
  - apply wp_bind, wp_zoom, idewait_wp; [by rewrite Hp|]. intros d1 Hv1. cbn [Z.leb Z.compare].
    apply wp_bind, wp_zoom. eapply wp_mono; [apply (insl_ok (b_key (i_bufs s !!! b))); cbn; by rewrite Hv1|].
    intros bs d2 [-> Hv2]. cbn in *. rewrite Hv1 in *. exists d2. rewrite Hv2. split_and!; try done.
    cbn. unfold set_i_bufs, set_i_dev; cbn. f_equal. apply list_alter_ext; [|done].
    intros bf Hbf. rewrite Hlk in Hbf. injection Hbf as <-. unfold fetched. by rewrite Hdb, Hk.
Qed.

Lemma finish_serving d bf : a_phase (view d) = serving bf ->
  a_phase (view (finish d)) = (if dirty bf then Idle else ReadDone (b_key bf)) /\
  a_disk (view (finish d)) = stored (a_disk (view d)) bf /\ a_writes (view (finish d)) = a_writes (view d) ++ written bf.
Proof.
  intros H. rewrite view_finish. unfold a_finish, stored, written. rewrite H. unfold serving.
  destruct (dirty bf); cbn; by rewrite ?app_nil_r.
Qed.

(** With the lock held and the disk idle, the first request is started. *)
Lemma start_next s p :
  chain (i_bufs s) (idequeue s) (p_queue p) -> NoDup (p_queue p) -> strip <$> i_bufs s = p_bufs p ->
  Forall (fun b => request_ok (p_disk1 p) (p_bufs p !!! b) = true) (p_queue p) ->
  idelock s = true -> havedisk1 s = p_disk1 p -> i_woken s = p_woken p ->
  a_disk (view (i_dev s)) = p_disk p -> a_writes (view (i_dev s)) = p_writes p -> a_phase (view (i_dev s)) = Idle ->
  wp (q <-- gets idequeue ;; (match q with Some b' => idestart polls b' | None => ret tt end) ;;; release_ide) (fun _ s' => ide_rel s' p) s.
Proof.
  intros Hc Hn Hs Hq Hl Hd Hw Hdk Hwr Hph. apply wp_bind, wp_gets, wp_bind.
  apply wp_mono with (Q := fun _ s' => exists d', s' = set_i_dev d' s /\ a_disk (view d') = p_disk p /\ a_writes (view d') = p_writes p /\
    a_phase (view d') = match p_queue p with [] => Idle | b :: _ => serving (p_bufs p !!! b) end).
  - destruct (p_queue p) as [|b q]; cbn in Hc.
    + rewrite Hc. apply wp_ret. exists (i_dev s). split_and!; try done. by destruct s.
    + destruct Hc as (-> & Hb & _). apply Forall_cons in Hq as [Hok _]. rewrite (rel_buf s p b) in * by done.
      eapply wp_mono; [by apply (idestart_wp b s (p_disk1 p))|]. intros _ s' (d' & -> & Hp & Hk & Hws).
      exists d'. by rewrite Hk, Hws.
  - intros _ s' (d' & -> & Hk & Hws & Hp). unfold release_ide. apply wp_bind, wp_gets. cbn [idelock set_i_dev]. rewrite Hl. apply wp_modify.
    unfold ide_rel. by split_and!.
Qed.

Lemma interrupt_rel s p : ide_rel s p -> exists s', i_step Interrupt s = Some (true, s') /\ ide_rel s' (serve p).
Proof.
  intros (Hc & Hn & Hs & Hq & Hl & Hd & Hw & Hdk & Hwr & Hph).
  enough (wp (ideintr polls) (fun _ s' => ide_rel s' (serve p)) (set_i_dev (finish (i_dev s)) s)) as H.
  { unfold i_step, wp in *. destruct (ideintr polls _) as [[] s'| | |]; try done. by exists s'. }
  set (s0 := set_i_dev _ s). unfold ideintr, acquire_ide. apply wp_bind, wp_bind, wp_gets. cbn [idelock s0 set_i_dev]. rewrite Hl. apply wp_modify, wp_bind, wp_gets.
  cbn [idequeue set_idelock s0 set_i_dev]. unfold serve. destruct (p_queue p) as [|b q] eqn:Hpq.
  - cbn in Hc. rewrite Hc. unfold release_ide. apply wp_bind, wp_gets. apply wp_modify. unfold ide_rel. cbn.
    assert (view (finish (i_dev s)) = view (i_dev s)) as -> by (rewrite view_finish; unfold a_finish; by rewrite Hph).
    rewrite Hpq. by split_and!.
  - destruct Hc as (Hh & Hb & Hc). rewrite Hh. apply NoDup_cons in Hn as [Hbq Hn]. apply Forall_cons in Hq as [Hok Hq].
    pose proof (rel_buf s p b Hs Hb) as Hpb. rewrite Hpb in *.
    unfold getb. apply wp_bind, wp_gets, wp_bind, wp_modify, wp_bind. cbn [i_bufs set_i_dev set_idelock s0].
    destruct (finish_serving _ _ Hph) as (Hp1 & Hk1 & Hw1).
    eapply wp_mono; [apply (fetch_wp (set_idequeue (b_qnext (i_bufs s !!! b)) (set_idelock true s0)) b (p_disk p) (p_writes p ++ written (strip (i_bufs s !!! b)))); cbn; [done|exact Hp1| |by rewrite Hw1, Hwr]|].
    { intros Hnd. rewrite Hk1, Hdk. unfold stored. change (dirty (strip (i_bufs s !!! b))) with (dirty (i_bufs s !!! b)). by rewrite Hnd. }
    intros _ s1 (d1 & -> & Hp2 & Hk2 & Hw2). unfold updb, wakeup_buf. do 3 apply wp_bind, wp_modify. cbn in *.
    apply start_next; cbn.
    + by do 3 (apply chain_alter; [done|]).
    + done.
    + rewrite !alter_twice, <- Hs. apply list_fmap_alter, Forall_forall. intros bf _. apply strip_synced.
    + apply Forall_forall. intros x Hx. rewrite Forall_forall in Hq. rewrite list_lookup_total_alt, list_lookup_alter_ne by set_solver.
      rewrite <- list_lookup_total_alt. by apply Hq.
    + done.
    + done.
    + by rewrite Hw.
    + by rewrite Hk2, Hk1, Hdk.
    + done.
    + done.
Qed.

Lemma resume_step s b : idelock s = false ->
  iderw_resume b s = if finished (i_bufs s !!! b) then Ok tt s else Sleep (Z.of_nat b) s.
Proof.
  intros Hl. assert (Hs : set_idelock false s = s) by (destruct s; cbn in *; by subst).
  unfold iderw_resume, acquire_ide, iderw_wait, getb, release_ide, sleep_on, bind, gets, modify. rewrite Hl. cbn.
  destruct (finished _); cbn; f_equal; exact Hs.
Qed.
Lemma resume_rel s p b : ide_rel s p -> (b < length (p_bufs p))%nat ->
  exists s', i_step (Resume b) s = Some (finished (p_bufs p !!! b), s') /\ ide_rel s' p.
Proof.
  intros Hr Hb. pose proof Hr as (_ & _ & Hs & _ & Hl & _). rewrite (rel_length s p Hs) in Hb. rewrite (rel_buf s p b Hs Hb).
  exists s. split; [|exact Hr]. cbn [i_step]. rewrite resume_step by done.
  change (finished (strip (i_bufs s !!! b))) with (finished (i_bufs s !!! b)). by destruct (finished _).
Qed.
Lemma holder_rel s p b bf : ide_rel s p -> allowed (Holder b bf) p = true ->
  exists s', i_step (Holder b bf) s = Some (true, s') /\ ide_rel s' (p_step (Holder b bf) p).2.
Proof.
  intros (Hc & Hn & Hs & Hq & Hl & Hd & Hw & Hdk & Hwr & Hph) [Hb Hbq%bool_decide_eq_true]%andb_true_iff.
  eexists. split; [done|]. assert (Hlk : forall x, x ∈ p_queue p -> <[b := strip bf]> (p_bufs p) !!! x = p_bufs p !!! x).
  { intros x Hx. apply list_lookup_total_insert_ne. set_solver. }
  unfold ide_rel. cbn. split_and!; try done.
  - by apply chain_alter.
  - rewrite (list_fmap_alter strip _ (fun _ => strip bf)), Hs by (by apply Forall_forall). apply alter_const.
  - apply Forall_forall. intros x Hx. rewrite Hlk by done. rewrite Forall_forall in Hq. by apply Hq.
  - rewrite Hph. destruct (p_queue p) as [|h q]; [done|]. rewrite Hlk; [done|set_solver].
Qed.
Lemma step_rel e s p : ide_rel s p -> allowed e p = true -> exists s', i_step e s = Some ((p_step e p).1, s') /\ ide_rel s' (p_step e p).2.
Proof.
  intros Hr Ha. destruct e as [b| |b|b bf]; [by apply request_rel|by apply interrupt_rel|apply resume_rel; [done|by apply Nat.ltb_lt]|by apply holder_rel].
Qed.
Lemma run_rel es : forall s p rs p', ide_rel s p -> p_run es p = Some (rs, p') -> exists s', i_run es s = Some (rs, s') /\ ide_rel s' p'.
Proof.
  induction es as [|e es IH]; intros s p rs p' Hr Hp; cbn in *.
  { simplify_eq. by exists s. }
  destruct (allowed e p) eqn:Ha; [|done]. destruct (step_rel e s p Hr Ha) as (s1 & -> & Hr1).
  destruct (p_step e p) as [r p1]. destruct (p_run es p1) as [[rs1 p2]|] eqn:E; [|done]. simplify_eq.
  destruct (IH s1 p1 rs1 p' Hr1 E) as (s' & -> & Hr'). by exists s'.
Qed.

(** C8. The driver refines its promise: over any sequence of requests, interrupts of
    the disk, processes going on and changes to buffers that are not queued, the
    same calls return and the queue, the buffers, the sectors, the writes and the
    sleepers woken are those of the specification. *)
Theorem ide_refines es s p rs p' : ide_rel s p -> p_run es p = Some (rs, p') -> exists s', i_run es s = Some (rs, s') /\ ide_rel s' p'.
Proof. apply run_rel. Qed.

(** C15. The requests of the queue are carried out first come, first served: as many
    interrupts as there are requests leave no request; the sleepers are woken in
    the order of the requests and their calls return; each buffer is synchronised with the
    sectors as the requests before it left them, and the writes reach the disk in
    the order of the queue. *)
Theorem ide_fifo s p : ide_rel s p ->
  exists s', i_run (replicate (length (p_queue p)) Interrupt) s = Some (replicate (length (p_queue p)) true, s') /\
    idequeue s' = None /\ i_woken s' = i_woken s ++ p_queue p /\
    a_writes (view (i_dev s')) = a_writes (view (i_dev s)) ++ concat ((fun b => written (p_bufs p !!! b)) <$> p_queue p) /\
    forall q1 b q2, p_queue p = q1 ++ b :: q2 ->
      strip (i_bufs s' !!! b) = synced (after (p_bufs p) (p_disk p) q1) (p_bufs p !!! b) /\
      iderw_resume b s' = Ok tt s'.
Proof.
  intros Hr. pose proof Hr as (Hc & Hn & Hs & _ & _ & _ & Hw & Hdk & Hwr & _). pose proof (chain_lt _ _ _ Hc) as Hlt.
  rewrite <- (rel_length s p Hs) in Hlt.
  destruct (serve_all (p_queue p) p) as (p' & Hrun & Hq' & Hw' & Hwr' & Hb'); [done|done|done|].
  destruct (run_rel _ s p _ _ Hr Hrun) as (s' & Hi & Hr'). exists s'.
  pose proof Hr' as (Hc' & _ & Hs' & _ & _ & _ & Hw2 & _ & Hwr2 & _).
  split_and!; [done| |congruence|congruence|].
  - rewrite Hq' in Hc'. exact Hc'.
  - intros q1 b q2 Hqb. destruct Hb' as (_ & Hln & Hsy). rewrite <- (Hsy _ _ _ Hqb).
    assert (Hb : (b < length (i_bufs s'))%nat).
    { rewrite <- (rel_length s' p' Hs'), Hln. rewrite Forall_forall in Hlt. apply Hlt. rewrite Hqb. set_solver. }
    pose proof (rel_buf s' p' b Hs' Hb) as Hpb. split; [done|]. destruct Hr' as (_ & _ & _ & _ & Hl & _).
    rewrite resume_step by done. change (finished (i_bufs s' !!! b)) with (finished (strip (i_bufs s' !!! b))).
    by rewrite <- Hpb, (Hsy _ _ _ Hqb), finished_synced.
Qed.
End ports.

(** ** A controller *)

(** A controller that says once that it is busy after each operation. *)
Record sim := mksim { m_ata : ata; m_slow : bool }.
Definition sim_set (f : ata -> ata) : M sim unit := modify (fun m => mksim (f (m_ata m)) true).
#[global] Instance sim_ports : Ports sim := {
  inb p := m <-- get ;;
    if negb (p =? 0x1f7) then ret 0
    else if m_slow m then modify (fun m => mksim (m_ata m) false) ;;; ret IDE_BSY
    else match a_phase (m_ata m) with
    | Idle | ReadDone _ => ret IDE_DRDY
    | Reading _ => modify (fun m => mksim (a_finish (m_ata m)) false) ;;; ret IDE_DRDY
    | _ => ret IDE_BSY
    end;
  outb p v :=
    if p =? 0x1f7 then sim_set (fun a => match a_phase a with
        | Idle => if v =? IDE_CMD_READ then set_phase (Reading (addressed a)) a
                  else if v =? IDE_CMD_WRITE then set_phase (WantData (addressed a)) a else a
        | _ => a
        end)
    else sim_set (set_reg p v);
  insl p n := m <-- get ;;
    match a_phase (m_ata m) with ReadDone k => sim_set (set_phase Idle) ;;; ret (a_disk (m_ata m) k) | _ => ret [] end;
  outsl p bs := sim_set (fun a => match a_phase a with WantData k => set_phase (Writing k bs) a | _ => a end)
}.
#[global] Program Instance sim_ata : Ata sim 2 := {
  view := m_ata;
  to_wait m := if m_slow m then 1%nat else 0%nat;
  finish m := mksim (a_finish (m_ata m)) true
}.
Next Obligation. intros m. cbn. destruct (m_slow m); lia. Qed.
Next Obligation. done. Qed.
Next Obligation.
  intros m Hs. unfold inb; cbn. unfold wp, bind, get, modify, ret. cbn in *.
  destruct (m_slow m); cbn; [split; [done|right; split; [done|lia]]|]. destruct (a_phase (m_ata m)); cbn in *; try done; (split; [done|by left]).
Qed.
Next Obligation.
  intros p v m Hp _. unfold wp, outb; cbn. destruct (Z.eqb_spec p 0x1f7) as [->|]; [|done].
  exfalso. revert Hp. rewrite !elem_of_cons, elem_of_nil. lia.
Qed.
Next Obligation. intros m Hp _. unfold wp, outb; cbn in *. by rewrite Hp. Qed.
Next Obligation. intros m Hp _. unfold wp, outb; cbn in *. by rewrite Hp. Qed.
Next Obligation. intros k bs m Hp _. unfold wp, outsl; cbn in *. by rewrite Hp. Qed.
Next Obligation. intros k m Hp. unfold wp, insl; cbn in *. unfold bind, get. by rewrite Hp. Qed.

(** Two buffers for block 7 of disk 0, one to be written and one to be read. *)
Definition demo_bufs : list buf :=
  [mkbuf (Z.lor B_BUSY B_DIRTY) 0 7 0 0 None (replicate 512 42); mkbuf B_BUSY 0 7 0 0 None (replicate 512 0)].
Definition demo_ata : ata := mkata (fun _ => 0) Idle (fun _ => replicate 512 1) [].
Definition demo_ide : ide sim := mkide demo_bufs None false false [] (mksim demo_ata true).
Definition demo_spec : spec := mkspec demo_bufs [] (fun _ => replicate 512 1) [] [] false.
Definition demo_events : list event := [Request 0; Resume 0; Request 1; Interrupt; Resume 0; Resume 1; Interrupt; Resume 1; Interrupt].
Lemma demo_rel : ide_rel demo_ide demo_spec.
Proof. unfold ide_rel. split_and!; try done; constructor. Qed.

(** A process that reads a block for which a write is queued sleeps until both are
    done, and gets what was written. *)
Lemma ide_refines_witness : exists s p', i_run demo_events demo_ide = Some ([false; false; false; true; true; false; true; true; true], s) /\
  ide_rel s p' /\ b_data (p_bufs p' !!! 1%nat) = replicate 512 42.
Proof.
  destruct (p_run demo_events demo_spec) as [[rs p']|] eqn:E; [|vm_compute in E; discriminate E].
  destruct (ide_refines demo_events demo_ide demo_spec rs p' demo_rel E) as (s & H1 & H2).
  exists s, p'. split; [rewrite H1; vm_compute in E; injection E as <- <-; reflexivity|].
  split; [exact H2|]. vm_compute in E. injection E as <- <-. reflexivity.
Defined.
Lemma ide_fifo_witness : exists s s', i_run [Request 0; Request 1] demo_ide = Some ([false; false], s) /\
  i_run [Interrupt; Interrupt] s = Some ([true; true], s') /\ i_woken s' = [0; 1]%nat /\ iderw_resume 1 s' = Ok tt s'.
Proof.
  destruct (p_run [Request 0; Request 1] demo_spec) as [[rs p1]|] eqn:E; [|vm_compute in E; discriminate E].
  destruct (run_rel _ demo_ide demo_spec rs p1 demo_rel E) as (s & H1 & H2).
  destruct (ide_fifo s p1 H2) as (s' & H3 & _ & H4 & _ & H5). vm_compute in E. injection E as <- <-.
  exists s, s'. split_and!; [exact H1|exact H3| |apply (H5 [0%nat] 1%nat [] eq_refl)].
  rewrite H4. destruct H2 as (_ & _ & _ & _ & _ & _ & -> & _). reflexivity.
Defined.
