(* ===== verification/Mp.v ===== *)
(** * mp.c: the processors of the machine

    The MP tables that the BIOS leaves in memory name the processors and the I/O
    APIC.  Memory is read at kernel virtual addresses; the messages of [mpinit]
    are left out. *)

From S2P Require Import Prelude Params Ide.

(** ** mp.h *)

Definition MPBOOT : Z := 0x02.
Definition MPPROC : Z := 0x00.
Definition MPBUS : Z := 0x01.
Definition MPIOAPIC : Z := 0x02.
Definition MPIOINTR : Z := 0x03.
Definition MPLINTR : Z := 0x04.
Definition sizeof_mp : Z := 16.
Definition sizeof_mpconf : Z := 44.
Definition sizeof_mpproc : Z := 20.
Definition sizeof_mpioapic : Z := 8.

Section mp.
Context {D : Type} `{!Ports D}.

(** Memory, [cpus[].id], [bcpu] as an index, [ismp], [ncpu], [ioapicid],
    [lapic] of lapic.c, and the devices. *)
Record mps := mkmp { m_mem : Z -> Z; cpu_ids : list Z; bcpu : Z; ismp : bool; ncpu : Z; ioapicid : Z; lapic : Z; m_dev : D }.
Definition set_cpu_ids v (s : mps) := mkmp (m_mem s) v (bcpu s) (ismp s) (ncpu s) (ioapicid s) (lapic s) (m_dev s).
Definition set_bcpu v (s : mps) := mkmp (m_mem s) (cpu_ids s) v (ismp s) (ncpu s) (ioapicid s) (lapic s) (m_dev s).
Definition set_ismp v (s : mps) := mkmp (m_mem s) (cpu_ids s) (bcpu s) v (ncpu s) (ioapicid s) (lapic s) (m_dev s).
Definition set_ncpu v (s : mps) := mkmp (m_mem s) (cpu_ids s) (bcpu s) (ismp s) v (ioapicid s) (lapic s) (m_dev s).
Definition set_ioapicid v (s : mps) := mkmp (m_mem s) (cpu_ids s) (bcpu s) (ismp s) (ncpu s) v (lapic s) (m_dev s).
Definition set_lapic v (s : mps) := mkmp (m_mem s) (cpu_ids s) (bcpu s) (ismp s) (ncpu s) (ioapicid s) v (m_dev s).
Definition set_m_dev v (s : mps) := mkmp (m_mem s) (cpu_ids s) (bcpu s) (ismp s) (ncpu s) (ioapicid s) (lapic s) v.
Definition on_ports {A} (m : M D A) : M mps A := zoom m_dev set_m_dev m.

(** The [n] bytes at [p], and a field of a structure at [p]. *)
Definition bytes (mem : Z -> Z) (p : Z) (n : nat) : list Z := map (fun i => mem (u32 (p + Z.of_nat i))) (seq 0 n).
Definition mem_field (mem : Z -> Z) (p off : Z) (n : nat) : Z := le_value (bytes mem (p + off) n).
(** [memcmp] of the bytes at [p] with those of a literal is zero. *)
Definition same (mem : Z -> Z) (p : Z) (lit : list Z) : bool := bool_decide (bytes mem p (length lit) = lit).

Definition mpbcpu : M mps Z := gets bcpu.

(** [sum]: the low byte of the sum of [len] bytes. *)
Definition sum (mem : Z -> Z) (addr len : Z) : Z := u8 (foldl Z.add 0 (bytes mem addr (Z.to_nat len))).

(** The structure at [p] is an MP floating pointer. *)
Definition is_mp (mem : Z -> Z) (p : Z) : bool :=
  same mem p (str "_MP_") && (sum mem p sizeof_mp =? 0).
Definition mpsearch1 (a len : Z) : M mps (option Z) :=
  let addr := p2v a in
  let e := u32 (addr + len) in
  loop (Z.to_nat len) (fun p =>
    if negb (p <? e) then ret (inr None)
    else
      mem <-- gets m_mem ;;
      if is_mp mem p then ret (inr (Some p)) else ret (inl (u32 (p + sizeof_mp)))) addr.

Definition mpsearch : M mps (option Z) :=
  mem <-- gets m_mem ;;
  let bda i := mem (u32 (p2v 0x400 + i)) in
  let p := Z.shiftl (Z.lor (Z.shiftl (bda 0x0F) 8) (bda 0x0E)) 4 in
  mp <-- (if negb (p =? 0) then mpsearch1 p 1024
          else mpsearch1 (u32 (Z.lor (Z.shiftl (bda 0x14) 8) (bda 0x13) * 1024 - 1024)) 1024) ;;
  match mp with
  | Some mp => ret (Some mp)
  | None => mpsearch1 0xF0000 0x10000
  end.

(** The floating pointer and the table it names. *)
Definition mpconfig : M mps (option (Z * Z)) :=
  mp <-- mpsearch ;;
  mem <-- gets m_mem ;;
  match mp with
  | None => ret None
  | Some mp =>
      let physaddr := mem_field mem mp 4 4 in
      if physaddr =? 0 then ret None
      else
        let conf := p2v physaddr in
        if negb (same mem conf (str "PCMP")) then ret None
        else
          let version := mem_field mem conf 6 1 in
          if negb (version =? 1) && negb (version =? 4) then ret None
          else if negb (sum mem conf (mem_field mem conf 4 2) =? 0) then ret None
          else ret (Some (mp, conf))
  end.

(** [case MPPROC]; an index outside [cpus] is undefined in C. *)
Definition mpproc_entry (p : Z) : M mps unit :=
  s <-- get ;;
  let apicid := mem_field (m_mem s) p 1 1 in
  let flags := mem_field (m_mem s) p 3 1 in
  (if negb (ncpu s =? apicid) then modify (set_ismp false) else ret tt) ;;;
  (if has flags MPBOOT then modify (set_bcpu (ncpu s)) else ret tt) ;;;
  (if ncpu s <? NCPU then modify (fun s => set_cpu_ids (<[Z.to_nat (ncpu s) := u8 (ncpu s)]> (cpu_ids s)) s)
   else panic "undefined: cpus[] out of bounds") ;;;
  modify (fun s => set_ncpu (ncpu s + 1) s).
(** The body of the loop over the table: the next entry. *)
Definition mp_entry (p : Z) : M mps Z :=
  mem <-- gets m_mem ;;
  let ty := mem_field mem p 0 1 in
  if ty =? MPPROC then mpproc_entry p ;;; ret (u32 (p + sizeof_mpproc))
  else if ty =? MPIOAPIC then modify (set_ioapicid (mem_field mem p 1 1)) ;;; ret (u32 (p + sizeof_mpioapic))
  else if (ty =? MPBUS) || (ty =? MPIOINTR) || (ty =? MPLINTR) then ret (u32 (p + 8))
  else modify (set_ismp false) ;;; ret p.
Definition mpinit (fuel : nat) : M mps unit :=
  modify (set_bcpu 0) ;;;
  c <-- mpconfig ;;
  match c with
  | None => ret tt
  | Some (mp, conf) =>
      modify (set_ismp true) ;;;
      mem <-- gets m_mem ;;
      modify (set_lapic (mem_field mem conf 36 4)) ;;;
      let e := u32 (conf + mem_field mem conf 4 2) in
      loop fuel (fun p => if negb (p <? e) then ret (inr tt) else p' <-- mp_entry p ;; ret (inl p')) (u32 (conf + sizeof_mpconf)) ;;;
      smp <-- gets ismp ;;
      if negb (smp : bool) then
        modify (set_ncpu 1) ;;; modify (set_lapic 0) ;;; modify (set_ioapicid 0)
      else if negb (mem_field mem mp 12 1 =? 0) then
        on_ports (outb 0x22 0x70) ;;;
        v <-- on_ports (inb 0x23) ;;
        on_ports (outb 0x23 (Z.lor v 1))
      else ret tt
  end.
End mp.
Arguments mps D : clear implicits.
