(* ===== verification/MpSpec.v ===== *)
(** * What mp.c makes of the tables

    The search finds the first floating pointer of the areas it looks at; a table
    of known entries gives the number of processors, the boot processor and the
    I/O APIC; an unknown entry is never left. *)

From S2P Require Import Prelude Params Ide Mp.

Lemma map_seq_shift {A} (f : nat -> A) a m : map f (seq a m) = map (fun i => f (a + i)%nat) (seq 0 m).
Proof. induction m as [|m IH]; [done|]. by rewrite !seq_S, !map_app, IH. Qed.
Lemma bytes_app mem p n m : bytes mem p (n + m) = bytes mem p n ++ bytes mem (p + Z.of_nat n) m.
Proof.
  unfold bytes. rewrite seq_app, map_app. f_equal. cbn [Nat.add]. rewrite map_seq_shift. apply map_ext. intros i. do 2 f_equal. lia.
Qed.
Lemma length_bytes mem p n : length (bytes mem p n) = n.
Proof. unfold bytes. by rewrite length_map, length_seq. Qed.
Lemma bytes_u32 mem p n : bytes mem (u32 p) n = bytes mem p n.
Proof. unfold bytes. apply map_ext. intros i. f_equal. unfold u32. by rewrite Zplus_mod_idemp_l. Qed.
Lemma bytes_part mem p l off n : bytes mem p (length l) = l -> (off + n <= length l)%nat ->
  bytes mem (p + Z.of_nat off) n = take n (drop off l).
Proof.
  intros Hl Hn. rewrite <- Hl. replace (length l) with (off + (n + (length l - off - n)))%nat by lia.
  rewrite !bytes_app. rewrite drop_app_length' by (by rewrite length_bytes). by rewrite take_app_length' by (by rewrite length_bytes).
Qed.
Lemma mem_field_part mem p l off n : bytes mem p (length l) = l -> 0 <= off -> (Z.to_nat off + n <= length l)%nat ->
  mem_field mem p off n = le_value (take n (drop (Z.to_nat off) l)).
Proof. intros Hl Ho Hn. unfold mem_field. rewrite <- (Z2Nat.id off) at 1 by done. by rewrite (bytes_part mem p l). Qed.

(** ** The search *)


(** The places of [n] structures from [p] on. *)
Definition places (p : Z) (n : nat) : list Z := map (fun i => p + 16 * Z.of_nat i) (seq 0 n).
(** Where [mpsearch] looks: the first kilobyte of the EBDA, or the last one of base
    memory, and the BIOS from 0xF0000 on (the comment in mp.c says 0xE0000). *)
Definition candidates (mem : Z -> Z) : list Z :=
  let bda i := mem (KERNBASE + 0x400 + i) in
  let ebda := Z.shiftl (Z.lor (Z.shiftl (bda 0x0F) 8) (bda 0x0E)) 4 in
  let base := Z.lor (Z.shiftl (bda 0x14) 8) (bda 0x13) in
  places (p2v (if ebda =? 0 then base * 1024 - 1024 else ebda)) 64 ++ places (p2v 0xF0000) 4096.
Definition byte_mem (mem : Z -> Z) : Prop := forall a, 0 <= mem a < 256.

Lemma find_app {A} (f : A -> bool) l1 l2 : find f (l1 ++ l2) = match find f l1 with Some x => Some x | None => find f l2 end.
Proof. induction l1 as [|x l1 IH]; cbn; [done|]. by destruct (f x). Qed.

Section search.
Context {D : Type} `{!Ports D}.
Implicit Types s : mps D.

Lemma places_cons p n : places p (S n) = p :: places (p + 16) n.
Proof. unfold places. cbn [seq map]. rewrite map_seq_shift. f_equal; [lia|]. apply map_ext. intros. lia. Qed.

Lemma scan_run n : forall fuel p s, 0 <= p -> p + 16 * Z.of_nat n < 2 ^ 32 -> (n < fuel)%nat ->
  loop fuel (fun q => if negb (q <? p + 16 * Z.of_nat n) then ret (inr None)
    else mem <-- gets m_mem ;; if is_mp mem q then ret (inr (Some q)) else ret (inl (u32 (q + sizeof_mp)))) p s
  = Ok (find (is_mp (m_mem s)) (places p n)) s.
Proof.
  induction n as [|n IH]; intros fuel p s Hp He Hf; (destruct fuel as [|fuel]; [lia|]); cbn [loop]; unfold bind at 1.
  - rewrite (proj2 (Z.ltb_ge p _)) by lia. done.
  - rewrite (proj2 (Z.ltb_lt p _)) by lia. cbn [negb]. unfold bind at 1, gets. rewrite places_cons. cbn [find].
    destruct (is_mp (m_mem s) p); [done|]. unfold ret. change sizeof_mp with 16. rewrite u32_id by lia.
    rewrite <- (IH fuel (p + 16) s) by lia. do 3 f_equal. 
    replace (p + 16 + 16 * Z.of_nat n) with (p + 16 * Z.of_nat (S n)) by lia. done.
Qed.
Lemma mpsearch1_run a n s : (0 < n)%nat -> p2v a + 16 * Z.of_nat n < 2 ^ 32 ->
  mpsearch1 a (16 * Z.of_nat n) s = Ok (find (is_mp (m_mem s)) (places (p2v a) n)) s.
Proof.
  intros Hn He. unfold mpsearch1. cbv zeta. assert (0 <= p2v a) by (unfold p2v; apply u32_range).
  rewrite (u32_id (p2v a + _)) by lia. apply scan_run; lia.
Qed.

(** [mpsearch] returns the first floating pointer of these places. *)
Lemma mpsearch_run s : byte_mem (m_mem s) -> mpsearch s = Ok (find (is_mp (m_mem s)) (candidates (m_mem s))) s.
Proof.
  intros Hm. unfold mpsearch, candidates. unfold bind at 1, gets. cbv zeta.
  change (u32 (p2v 1024 + 15)) with (KERNBASE + 1024 + 15). change (u32 (p2v 1024 + 14)) with (KERNBASE + 1024 + 14).
  change (u32 (p2v 1024 + 20)) with (KERNBASE + 1024 + 20). change (u32 (p2v 1024 + 19)) with (KERNBASE + 1024 + 19).
  rewrite !(shl_lor 8) by (lia || apply Hm). change (2 ^ 8) with 256. rewrite Z.shiftl_mul_pow2 by lia. rewrite find_app.
  pose proof (Hm (KERNBASE + 1024 + 15)). pose proof (Hm (KERNBASE + 1024 + 14)). pose proof (Hm (KERNBASE + 1024 + 20)). pose proof (Hm (KERNBASE + 1024 + 19)).
  set (ebda := (m_mem s (KERNBASE + 1024 + 15) * 256 + m_mem s (KERNBASE + 1024 + 14)) * 2 ^ 4) in *.
  set (base := m_mem s (KERNBASE + 1024 + 20) * 256 + m_mem s (KERNBASE + 1024 + 19)) in *.
  assert (Hrom : mpsearch1 0xF0000 0x10000 s = Ok (find (is_mp (m_mem s)) (places (p2v 0xF0000) 4096)) s) by (apply (mpsearch1_run 0xF0000 4096); [lia|done]).
  assert (Hp : forall x, p2v (u32 x) = p2v x) by (intros; unfold p2v, u32; by rewrite Zplus_mod_idemp_l).
  assert (Hfirst : forall a, p2v a + 1024 < 2 ^ 32 -> mpsearch1 a 1024 s = Ok (find (is_mp (m_mem s)) (places (p2v a) 64)) s).
  { intros a Ha. apply (mpsearch1_run a 64); [lia|done]. }
  unfold bind at 1. destruct (Z.eqb_spec ebda 0) as [He|He]; cbn [negb].
  - rewrite Hfirst; rewrite Hp; [|unfold p2v, u32; change KERNBASE with 2147483648 in *; unfold base; zlia].
    destruct (find _ (places _ 64)); [done|exact Hrom].
  - rewrite Hfirst; [|unfold p2v, u32; change KERNBASE with 2147483648 in *; unfold ebda; zlia].
    destruct (find _ (places _ 64)); [done|exact Hrom].
Qed.
End search.

(** ** The table *)

(** An entry of the table and its bytes; [rest] are the bytes that are not read. *)
Inductive entry := Processor (apicid version flags : Z) (rest : list Z) | IoApic (apicno : Z) (rest : list Z) | Other (ty : Z) (rest : list Z).
Definition encode (e : entry) : list Z :=
  match e with
  | Processor a v f r => MPPROC :: a :: v :: f :: r
  | IoApic n r => MPIOAPIC :: n :: r
  | Other t r => t :: r
  end.
Definition entry_ok (e : entry) : bool :=
  match e with
  | Processor _ _ _ r => Nat.eqb (length r) 16
  | IoApic _ r => Nat.eqb (length r) 6
  | Other t r => ((t =? MPBUS) || (t =? MPIOINTR) || (t =? MPLINTR)) && Nat.eqb (length r) 7
  end.
(** The APIC ids and flags of the processors, the index of the last one marked as
    the boot processor, and the I/O APIC. *)
Definition procs (es : list entry) : list (Z * Z) := omap (fun e => match e with Processor a _ f _ => Some (a, f) | _ => None end) es.
Fixpoint boot_of (n b : Z) (ps : list (Z * Z)) : Z :=
  match ps with [] => b | (_, f) :: ps' => boot_of (n + 1) (if has f MPBOOT then n else b) ps' end.
Definition ioapic_of (es : list entry) (id : Z) : Z := foldl (fun id e => match e with IoApic n _ => n | _ => id end) id es.
(** The processors are numbered from [n] on. *)
Fixpoint in_order (n : Z) (ps : list (Z * Z)) : bool :=
  match ps with [] => true | (a, _) :: ps' => (n =? a) && in_order (n + 1) ps' end.
(** A table at [conf] with entries [es], and then the bytes [rest]. *)
Definition table (mem : Z -> Z) (conf len : Z) (es : list entry) (rest : list Z) : Prop :=
  let l := concat (map encode es) ++ rest in
  same mem conf (str "PCMP") = true /\ (mem_field mem conf 6 1 = 1 \/ mem_field mem conf 6 1 = 4) /\
  mem_field mem conf 4 2 = len /\ sum mem conf len = 0 /\ 0 <= conf /\ conf + len < 2 ^ 32 /\
  len = 44 + Z.of_nat (length l) /\ bytes mem (conf + 44) (length l) = l /\ forallb entry_ok es = true.

(** A byte of an entry in memory. *)
Ltac entry_field Hf :=
  rewrite Hf by (cbn [encode length]; lia); change (Z.to_nat 0) with 0%nat; change (Z.to_nat 1) with 1%nat; change (Z.to_nat 3) with 3%nat; cbn -[Z.mul Z.add]; rewrite ?take_0; cbn -[Z.mul Z.add]; lia.

Section table.
Context {D : Type} `{!Ports D}.
Implicit Types s : mps D.

(** What an entry changes. *)
Definition apply_entry (e : entry) s : mps D :=
  match e with
  | Processor a _ f _ =>
      mkmp (m_mem s) (<[Z.to_nat (ncpu s) := u8 (ncpu s)]> (cpu_ids s)) (if has f MPBOOT then ncpu s else bcpu s)
        (ismp s && (ncpu s =? a)) (ncpu s + 1) (ioapicid s) (lapic s) (m_dev s)
  | IoApic n _ => set_ioapicid n s
  | Other _ _ => s
  end.
Lemma mp_entry_run e p s : entry_ok e = true -> bytes (m_mem s) p (length (encode e)) = encode e ->
  0 <= ncpu s -> ncpu s + Z.of_nat (length (procs [e])) <= NCPU ->
  mp_entry p s = Ok (u32 (p + Z.of_nat (length (encode e)))) (apply_entry e s).
Proof.
  intros Hok Hb Hn0 Hn. unfold mp_entry, bind at 1, gets.
  pose proof (fun off n => mem_field_part (m_mem s) p _ off n Hb) as Hf. destruct e as [a v f r|n r|t r]; cbn in Hok, Hn.
  - apply Nat.eqb_eq in Hok. assert (mem_field (m_mem s) p 0 1 = MPPROC) as -> by entry_field Hf.
    assert (H1 : mem_field (m_mem s) p 1 1 = a) by entry_field Hf.
    assert (H3 : mem_field (m_mem s) p 3 1 = f) by entry_field Hf.
    rewrite Z.eqb_refl. unfold mpproc_entry, bind, get, ret. rewrite H1, H3. unfold modify, panic. change sizeof_mpproc with 20.
    replace (Z.of_nat (length (encode _))) with 20 by (cbn; lia).
    destruct (ncpu s =? a) eqn:Ea, (has f MPBOOT) eqn:Ef; cbn; rewrite (proj2 (Z.ltb_lt (ncpu s) NCPU)) by lia; cbn; rewrite ?Ea, ?Ef, ?andb_true_r, ?andb_false_r; done.
  - apply Nat.eqb_eq in Hok. assert (mem_field (m_mem s) p 0 1 = MPIOAPIC) as -> by entry_field Hf.
    assert (mem_field (m_mem s) p 1 1 = n) as -> by entry_field Hf.
    replace (Z.of_nat (length (encode _))) with 8 by (cbn; lia). done.
  - apply andb_true_iff in Hok as [Ht Hl%Nat.eqb_eq]. assert (mem_field (m_mem s) p 0 1 = t) as -> by entry_field Hf.
    rewrite Ht. replace (Z.of_nat (length (encode _))) with 8 by (cbn; lia).
    destruct (Z.eqb_spec t MPPROC) as [->|]; [done|]. destruct (Z.eqb_spec t MPIOAPIC) as [->|]; done.
Qed.

Definition entries_body (e : Z) (p : Z) : M (mps D) (Z + unit) := if negb (p <? e) then ret (inr tt) else p' <-- mp_entry p ;; ret (inl p').
Definition apply_all (es : list entry) s : mps D := foldl (fun s e => apply_entry e s) s es.
Lemma apply_mem e s : m_mem (apply_entry e s) = m_mem s.
Proof. by destruct e. Qed.
Lemma encode_pos e : (0 < length (encode e))%nat.
Proof. destruct e; cbn; lia. Qed.
Lemma apply_ncpu e s : ncpu (apply_entry e s) = ncpu s + Z.of_nat (length (procs [e])).
Proof. destruct e; cbn; lia. Qed.
(** The entries [es] are read one after the other. *)
Lemma entries_run es : forall fuel e p s, forallb entry_ok es = true ->
  bytes (m_mem s) p (length (concat (map encode es))) = concat (map encode es) -> 0 <= p ->
  p + Z.of_nat (length (concat (map encode es))) <= e -> e < 2 ^ 32 -> 0 <= ncpu s -> ncpu s + Z.of_nat (length (procs es)) <= NCPU ->
  loop (length es + fuel) (entries_body e) p s = loop fuel (entries_body e) (p + Z.of_nat (length (concat (map encode es)))) (apply_all es s).
Proof.
  induction es as [|x es IH]; intros fuel e p s Hok Hb Hp He He32 Hn0 Hn; cbn [map concat length] in *.
  { by rewrite Z.add_0_r. }
  apply andb_true_iff in Hok as [Hx Hok]. rewrite length_app in *. pose proof (encode_pos x).
  rewrite bytes_app in Hb. apply app_inj_1 in Hb as [Hbx Hb]; [|by rewrite length_bytes].
  assert (Hps : length (procs (x :: es)) = (length (procs [x]) + length (procs es))%nat) by (by destruct x).
  cbn [Nat.add loop]. unfold entries_body at 1, bind at 1. rewrite (proj2 (Z.ltb_lt p e)) by lia. cbn [negb]. unfold bind at 1.
  rewrite (mp_entry_run x) by (done || lia). unfold ret at 1. cbv iota beta. rewrite u32_id by lia.
  rewrite IH; [|done|by rewrite apply_mem|lia|lia|done|rewrite apply_ncpu; lia|rewrite apply_ncpu; lia].
  rewrite Nat2Z.inj_add, Z.add_assoc. done.
Qed.

(** [cpus[i].id] for the processors from [n] on. *)
Fixpoint number (n : Z) (ps : list (Z * Z)) (ids : list Z) : list Z :=
  match ps with [] => ids | _ :: ps' => number (n + 1) ps' (<[Z.to_nat n := u8 n]> ids) end.
Lemma number_spec ps : forall n ids, length ids = Z.to_nat NCPU -> 0 <= n -> n + Z.of_nat (length ps) <= NCPU ->
  (forall i, Z.of_nat i < n -> ids !! i = Some (Z.of_nat i)) ->
  forall i, Z.of_nat i < n + Z.of_nat (length ps) -> number n ps ids !! i = Some (Z.of_nat i).
Proof.
  change NCPU with 8. induction ps as [|[a f] ps IH]; intros n ids Hl Hn Hle Hids i Hi; cbn [number length] in *.
  { apply Hids. lia. }
  apply IH; [by rewrite length_insert|lia|lia| |lia]. intros j Hj. destruct (decide (j = Z.to_nat n)) as [->|Hne].
  - rewrite list_lookup_insert_eq by lia. f_equal. unfold u8. rewrite Z.mod_small by lia. lia.
  - rewrite list_lookup_insert_ne by done. apply Hids. lia.
Qed.
Lemma apply_all_eq es : forall s, apply_all es s = mkmp (m_mem s) (number (ncpu s) (procs es) (cpu_ids s)) (boot_of (ncpu s) (bcpu s) (procs es))
  (ismp s && in_order (ncpu s) (procs es)) (ncpu s + Z.of_nat (length (procs es))) (ioapic_of es (ioapicid s)) (lapic s) (m_dev s).
Proof.
  induction es as [|x es IH]; intros s; [destruct s; cbn; by rewrite andb_true_r, Z.add_0_r|].
  unfold apply_all in *. cbn [foldl]. rewrite IH. destruct x as [a v f r|n r|t r]; cbn [apply_entry procs omap list_omap]; [|by destruct s|by destruct s].
  cbn. rewrite andb_assoc. f_equal. unfold procs. lia.
Qed.

Lemma mpconfig_run s mp pa len es rest : byte_mem (m_mem s) -> find (is_mp (m_mem s)) (candidates (m_mem s)) = Some mp ->
  mem_field (m_mem s) mp 4 4 = pa -> pa <> 0 -> table (m_mem s) (p2v pa) len es rest -> mpconfig s = Ok (Some (mp, p2v pa)) s.
Proof.
  intros Hm Hf Hpa Hne (Hsig & Hver & Hlen & Hsum & _). unfold mpconfig, bind at 1. rewrite mpsearch_run, Hf by done. unfold bind, gets.
  rewrite Hpa, (proj2 (Z.eqb_neq pa 0)) by done. cbv zeta. rewrite Hsig, Hlen, Hsum. cbn [negb Z.eqb].
  destruct Hver as [-> | ->]; done.
Qed.

(** A loop that runs out of fuel does so with less of it. *)
Lemma loop_less {S I R} fuel more (body : I -> M S (I + R)) i st : loop (more + fuel) body i st = OutOfFuel -> loop fuel body i st = OutOfFuel.
Proof.
  revert i st. induction fuel as [|fuel IH]; intros i st; [done|]. rewrite Nat.add_succ_r. cbn [loop]. unfold bind at 1 2.
  destruct (body i st) as [[i'|x] st'| | |]; try done. apply IH.
Qed.
Lemma unknown_run fuel e p t : forall s, mem_field (m_mem s) p 0 1 = t -> p < e -> MPLINTR < t -> loop fuel (entries_body e) p s = OutOfFuel.
Proof.
  induction fuel as [|fuel IH]; intros s Ht Hp Hty; [done|]. cbn [loop]. unfold entries_body at 1, bind at 1. rewrite (proj2 (Z.ltb_lt p e)) by done.
  cbn [negb]. unfold mp_entry, bind, gets, modify, ret. rewrite Ht. change MPLINTR with 4 in Hty.
  rewrite !(proj2 (Z.eqb_neq t _)) by (unfold MPPROC, MPIOAPIC, MPBUS, MPIOINTR, MPLINTR; lia). cbn [orb]. by apply IH.
Qed.

(** The two writes that mask external interrupts. *)
Definition imcr : M D unit := outb 0x22 0x70 ;;; v <-- inb 0x23 ;; outb 0x23 (Z.lor v 1).

Lemma imcr_run s d' : imcr (m_dev s) = Ok tt d' ->
  (on_ports (outb 0x22 0x70) ;;; v <-- on_ports (inb 0x23) ;; on_ports (outb 0x23 (Z.lor v 1))) s = Ok tt (set_m_dev d' s).
Proof.
  unfold imcr, on_ports, zoom, bind. destruct (outb 0x22 0x70 (m_dev s)) as [? d1| | |]; try done. cbn.
  destruct (inb 0x23 d1) as [v d2| | |]; try done. cbn. by destruct (outb 0x23 (Z.lor v 1) d2) as [[] d3| | |]; intros H; simplify_eq.
Qed.

(** What [mpinit] does after the loop. *)
Definition mp_tail (mem : Z -> Z) (mp : Z) : M (mps D) unit :=
  smp <-- gets ismp ;;
  if negb (smp : bool) then modify (set_ncpu 1) ;;; modify (set_lapic 0) ;;; modify (set_ioapicid 0)
  else if negb (mem_field mem mp 12 1 =? 0) then on_ports (outb 0x22 0x70) ;;; v <-- on_ports (inb 0x23) ;; on_ports (outb 0x23 (Z.lor v 1))
  else ret tt.
(** The state in which the table is read, and once its known entries are read. *)
Definition mp_found (conf : Z) s : mps D := set_lapic (mem_field (m_mem s) conf 36 4) (set_ismp true (set_bcpu 0 s)).

Section found.
Context (s : mps D) (mp pa len : Z) (es : list entry) (rest : list Z).
Hypothesis Hm : byte_mem (m_mem s).
Hypothesis Hn : ncpu s = 0.
Hypothesis Hf : find (is_mp (m_mem s)) (candidates (m_mem s)) = Some mp.
Hypothesis Hpa : mem_field (m_mem s) mp 4 4 = pa.
Hypothesis Hne : pa <> 0.
Hypothesis Ht : table (m_mem s) (p2v pa) len es rest.
Hypothesis Hp : Z.of_nat (length (procs es)) <= NCPU.

Lemma mpinit_loop fuel : mpinit fuel s = (loop fuel (entries_body (p2v pa + len)) (p2v pa + 44) ;;; mp_tail (m_mem s) mp) (mp_found (p2v pa) s).
Proof.
  pose proof Ht as (_ & _ & Hlen & _ & Hc0 & Hc & Hl & Hb & Hok).
  unfold mpinit. unfold bind at 1, modify at 1. unfold bind at 1.
  rewrite (mpconfig_run (set_bcpu 0 s) mp pa len es rest) by done. unfold bind at 1, modify at 1. unfold bind at 1, gets at 1. unfold bind at 1, modify at 1.
  cbn [m_mem set_bcpu set_ismp set_lapic]. rewrite Hlen. change sizeof_mpconf with 44. rewrite (u32_id (p2v pa + len)), (u32_id (p2v pa + 44)) by lia.
  done.
Qed.
Lemma mpinit_known fuel :
  loop (length es + fuel) (entries_body (p2v pa + len)) (p2v pa + 44) (mp_found (p2v pa) s) =
  loop fuel (entries_body (p2v pa + len)) (p2v pa + 44 + Z.of_nat (length (concat (map encode es)))) (apply_all es (mp_found (p2v pa) s)).
Proof.
  pose proof Ht as (_ & _ & Hlen & _ & Hc0 & Hc & Hl & Hb & Hok). rewrite length_app in Hl, Hb. rewrite bytes_app in Hb.
  apply app_inj_1 in Hb as [Hb _]; [|by rewrite length_bytes].
  rewrite entries_run; [done|exact Hok|exact Hb|lia|lia|lia|cbn; lia|cbn; lia].
Qed.
End found.

(** C37. A machine whose tables are well formed and name at most [NCPU] processors is
    understood: if the processors are numbered from 0, there are as many of them
    as the table has, the boot processor is the one marked so, the I/O APIC and
    the local APIC are those named, and external interrupts are masked where the
    machine asks for it; otherwise one processor is used, without the APICs. *)
Theorem mpinit_spec fuel s mp pa len es d' :
  byte_mem (m_mem s) -> ncpu s = 0 -> length (cpu_ids s) = Z.to_nat NCPU ->
  find (is_mp (m_mem s)) (candidates (m_mem s)) = Some mp -> mem_field (m_mem s) mp 4 4 = pa -> pa <> 0 ->
  table (m_mem s) (p2v pa) len es [] -> Z.of_nat (length (procs es)) <= NCPU -> (length es < fuel)%nat ->
  (if mem_field (m_mem s) mp 12 1 =? 0 then d' = m_dev s else imcr (m_dev s) = Ok tt d') ->
  exists s', mpinit fuel s = Ok tt s' /\ m_mem s' = m_mem s /\ bcpu s' = boot_of 0 0 (procs es) /\
    if in_order 0 (procs es) then
      ismp s' = true /\ ncpu s' = Z.of_nat (length (procs es)) /\ ioapicid s' = ioapic_of es (ioapicid s) /\
      lapic s' = mem_field (m_mem s) (p2v pa) 36 4 /\ m_dev s' = d' /\
      (forall i, (i < length (procs es))%nat -> cpu_ids s' !! i = Some (Z.of_nat i))
    else ismp s' = false /\ ncpu s' = 1 /\ ioapicid s' = 0 /\ lapic s' = 0 /\ m_dev s' = m_dev s.
Proof.
  intros Hm Hn Hids Hf Hpa Hne Ht Hp Hfuel Hd. rewrite (mpinit_loop s mp pa len es []) by done. unfold bind at 1.
  replace fuel with (length es + S (fuel - length es - 1))%nat by lia. rewrite (mpinit_known s pa len es []) by done.
  rewrite apply_all_eq. unfold mp_found. cbn [ncpu set_lapic set_ismp set_bcpu m_mem cpu_ids bcpu ismp ioapicid lapic m_dev]. rewrite Hn. cbn [andb].
  destruct Ht as (_ & _ & _ & _ & _ & _ & Hl & _). rewrite app_nil_r in Hl.
  cbn [loop]. unfold entries_body at 1, bind at 1. rewrite (proj2 (Z.ltb_ge _ _)) by lia. cbn [negb]. unfold ret at 1. cbv beta iota.
  unfold mp_tail, ret at 1, bind at 1, gets at 1. cbn [ismp]. destruct (in_order 0 (procs es)).
  - cbn [negb]. assert (Hnum := number_spec (procs es) 0 (cpu_ids s) Hids ltac:(lia) ltac:(lia) ltac:(lia)).
    destruct (mem_field (m_mem s) mp 12 1 =? 0); cbn [negb].
    + eexists. split; [done|]. cbn. subst d'. split_and!; try done. intros i Hi. apply Hnum. lia.
    + rewrite (imcr_run _ d') by exact Hd. eexists. split; [done|]. cbn. split_and!; try done. intros i Hi. apply Hnum. lia.
  - eexists. split; [done|]. done.
Qed.

(** C39. An entry of a type that is not known stops the machine: the loop over the
    table has no way past it, however long it runs. *)
Theorem mpinit_stuck fuel s mp pa len es t rest :
  byte_mem (m_mem s) -> ncpu s = 0 ->
  find (is_mp (m_mem s)) (candidates (m_mem s)) = Some mp -> mem_field (m_mem s) mp 4 4 = pa -> pa <> 0 ->
  table (m_mem s) (p2v pa) len es (t :: rest) -> Z.of_nat (length (procs es)) <= NCPU -> MPLINTR < t ->
  mpinit fuel s = OutOfFuel.
Proof.
  intros Hm Hn Hf Hpa Hne Ht Hp Hty. rewrite (mpinit_loop s mp pa len es (t :: rest)) by done. unfold bind at 1.
  rewrite (loop_less fuel (length es)); [done|]. rewrite (mpinit_known s pa len es (t :: rest)) by done.
  destruct Ht as (_ & _ & _ & _ & Hc0 & Hc & Hl & Hb & _). rewrite length_app in Hl, Hb. cbn [length] in Hl. rewrite bytes_app in Hb.
  apply app_inj_1 in Hb as [_ Hb]; [|by rewrite length_bytes]. set (p := p2v pa + 44 + _) in *.
  apply unknown_run with (t := t); [|lia|done]. rewrite apply_all_eq. cbn [m_mem mp_found set_lapic set_ismp set_bcpu].
  rewrite (mem_field_part _ _ _ 0 1 Hb) by (cbn [length]; lia). change (Z.to_nat 0) with 0%nat. cbn -[Z.mul Z.add]. rewrite take_0. cbn -[Z.mul Z.add]. lia.
Qed.
End table.

(** ** A machine *)

(** No devices. *)
#[global] Instance no_ports : Ports unit := { inb _ := ret 0; outb _ _ := ret tt; insl _ _ := ret []; outsl _ _ := ret tt }.

(** Bytes placed at addresses, and zeros elsewhere. *)
Definition placed (l : list (Z * list Z)) (a : Z) : Z :=
  foldr (fun '(p, bs) v => if (p <=? a) && (a <? p + Z.of_nat (length bs)) then nth (Z.to_nat (a - p)) bs 0 else v) 0 l.
Lemma placed_bytes l : forallb (fun '(_, bs) => forallb (fun b => (0 <=? b) && (b <? 256)) bs) l = true -> byte_mem (placed l).
Proof.
  induction l as [|[p bs] l IH]; intros H a; cbn in *; [lia|]. apply andb_true_iff in H as [Hb Hl]. specialize (IH Hl a).
  destruct (_ && _); [|done]. destruct (nth_in_or_default (Z.to_nat (a - p)) bs 0) as [Hin | ->]; [|lia].
  rewrite forallb_forall in Hb. specialize (Hb _ Hin). lia.
Qed.
(** The last byte makes the sum of the bytes zero. *)
Definition checksum (l : list Z) : Z := u8 (- foldl Z.add 0 l).
Definition demo_mp (imcrp : Z) : list Z :=
  let l := str "_MP_" ++ le_bytes 4 0x9000 ++ [1; 4] in let r := [0; imcrp; 0; 0; 0] in l ++ [checksum (l ++ r)] ++ r.
Definition demo_table (body : list Z) : list Z :=
  let l := str "PCMP" ++ le_bytes 2 (44 + Z.of_nat (length body)) ++ [4] in
  let r := replicate 28 0 ++ le_bytes 4 0xFEE00000 ++ replicate 4 0 ++ body in l ++ [checksum (l ++ r)] ++ r.
Definition demo_mem (body : list Z) : Z -> Z := placed [(KERNBASE + 0xF0000, demo_mp 128); (KERNBASE + 0x9000, demo_table body)].
Definition demo_mps (body : list Z) : mps unit := mkmp (demo_mem body) (replicate 8 0) 0 false 0 0 0 tt.
Definition demo_entries : list entry := [Processor 0 20 3 (replicate 16 0); Processor 1 20 1 (replicate 16 0); Other 1 (replicate 7 0); IoApic 2 (replicate 6 0)].

Lemma mpinit_spec_witness : exists s', mpinit 5 (demo_mps (concat (map encode demo_entries))) = Ok tt s' /\ ncpu s' = 2 /\ ismp s' = true /\ ioapicid s' = 2 /\ bcpu s' = 0.
Proof.
  destruct (mpinit_spec 5 (demo_mps (concat (map encode demo_entries))) (KERNBASE + 0xF0000) 0x9000 100 demo_entries tt) as (s' & H1 & _ & H2 & H3 & H4 & H5 & _).
  - apply placed_bytes. vm_compute. reflexivity.
  - reflexivity.
  - reflexivity.
  - vm_compute. reflexivity.
  - vm_compute. reflexivity.
  - discriminate.
  - unfold table. split_and!; try (vm_compute; reflexivity); [right; vm_compute; reflexivity|vm_compute; discriminate].
  - vm_compute. discriminate.
  - cbn. lia.
  - vm_compute. reflexivity.
  - exists s'. rewrite H4, H5. split_and!; [exact H1|reflexivity|exact H3|reflexivity|exact H2].
Defined.
Lemma mpinit_stuck_witness : mpinit 1000 (demo_mps (encode (IoApic 2 (replicate 6 0)) ++ [5; 0; 0; 0])) = OutOfFuel.
Proof.
  apply (mpinit_stuck 1000 (demo_mps (encode (IoApic 2 (replicate 6 0)) ++ [5; 0; 0; 0])) (KERNBASE + 0xF0000) 0x9000 56 [IoApic 2 (replicate 6 0)] 5 [0; 0; 0]).
  - apply placed_bytes. vm_compute. reflexivity.
  - reflexivity.
  - vm_compute. reflexivity.
  - vm_compute. reflexivity.
  - discriminate.
  - unfold table. split_and!; try (vm_compute; reflexivity); [right; vm_compute; reflexivity|vm_compute; discriminate].
  - vm_compute. discriminate.
  - reflexivity.
Defined.
