(* ===== verification/Boot.v ===== *)
(** * bootmain.c: the boot loader

    Loads the kernel from the disk, starting at sector 1, and jumps to its entry
    point.  Memory is physical memory; the disk is polled. *)

From S2P Require Import Prelude Params Ide Exec.

Definition SECTSIZE : Z := 512.

Section boot.
Context {D : Type} `{!Ports D}.
(** How often a loop may ask for the status. *)
Context (polls : nat).

(** Memory and the devices. *)
Record boot := mkboot { b_mem : Z -> Z; b_io : D }.
Definition set_b_mem v (s : boot) := mkboot v (b_io s).
Definition set_b_io v (s : boot) := mkboot (b_mem s) v.
Definition on_io {A} (m : M D A) : M boot A := zoom b_io set_b_io m.
(** The bytes [bs] stored at [p], and the [n] bytes at [p]. *)
Definition store (p : Z) (bs : list Z) (mem : Z -> Z) : Z -> Z :=
  fun a => if (p <=? a) && (a <? p + Z.of_nat (length bs)) then nth (Z.to_nat (a - p)) bs 0 else mem a.
Definition fetch (mem : Z -> Z) (p : Z) (n : nat) : list Z := map (fun i => mem (p + Z.of_nat i)) (seq 0 n).

Definition waitdisk : M D unit :=
  loop polls (fun _ : unit => r <-- inb 0x1F7 ;; if negb (Z.land r 0xC0 =? 0x40) then ret (inl tt) else ret (inr tt)) tt.

(** [readsect]; the ports take the low byte. *)
Definition readsect (dst offset : Z) : M boot unit :=
  data <-- on_io (
    waitdisk ;;;
    outb 0x1F2 1 ;;;
    outb 0x1F3 (u8 offset) ;;;
    outb 0x1F4 (u8 (Z.shiftr offset 8)) ;;;
    outb 0x1F5 (u8 (Z.shiftr offset 16)) ;;;
    outb 0x1F6 (u8 (Z.lor (Z.shiftr offset 24) 0xE0)) ;;;
    outb 0x1F7 0x20 ;;;
    waitdisk ;;;
    insl 0x1F0 (SECTSIZE / 4)) ;;
  modify (fun s => set_b_mem (store dst data (b_mem s)) s).

Definition readseg (pa count offset : Z) : M boot unit :=
  let epa := u32 (pa + count) in
  let pa := u32 (pa - offset mod SECTSIZE) in
  let offset := offset / SECTSIZE + 1 in
  loop (Z.to_nat (count / SECTSIZE + 3)) (fun '(pa, offset) =>
    if negb (pa <? epa) then ret (inr tt)
    else readsect pa offset ;;; ret (inl (u32 (pa + SECTSIZE), u32 (offset + 1)))) (pa, offset).

(** The body of the loop over the program headers. *)
Definition load_segment (ph : Z) : M boot unit :=
  mem <-- gets b_mem ;;
  let h := decode_ph (fetch mem ph 32) in
  readseg (ph_paddr h) (ph_filesz h) (ph_off h) ;;;
  if ph_filesz h <? ph_memsz h then
    modify (fun s => set_b_mem (store (u32 (ph_paddr h + ph_filesz h)) (replicate (Z.to_nat (ph_memsz h - ph_filesz h)) 0) (b_mem s)) s)
  else ret tt.

(** [bootmain]: [None] is a return, [Some] the address that is called. *)
Definition bootmain : M boot (option Z) :=
  let elf := 0x10000 in
  readseg elf 4096 0 ;;;
  mem <-- gets b_mem ;;
  let h := decode_elf (fetch mem elf 52) in
  if negb (e_magic h =? ELF_MAGIC) then ret None
  else
    let ph := u32 (elf + e_phoff h) in
    let eph := u32 (ph + sizeof_proghdr * e_phnum h) in
    loop (S (Z.to_nat (e_phnum h))) (fun ph =>
      if negb (ph <? eph) then ret (inr tt) else load_segment ph ;;; ret (inl (u32 (ph + sizeof_proghdr)))) ph ;;;
    mem <-- gets b_mem ;;
    ret (Some (e_entry (decode_elf (fetch mem elf 52)))).
End boot.
Arguments boot D : clear implicits.
