(* ===== verification/BootSpec.v ===== *)
(** * The boot loader loads the kernel

    Over a disk that holds the kernel image from sector 1 on, [bootmain] leaves
    each program segment at its physical address, followed by zeros, and jumps to
    the entry point. *)

From S2P Require Import Prelude Params Disk Ide IdeSpec Exec Boot.

(** A disk that is asked for its status while it reads becomes ready in the end,
    with the sector. *)
Class Polled (D : Type) (polls : nat) `{!Ports D, !Ata D polls} :=
  status_reading k d : a_phase (view d) = Reading k ->
    wp (inb 0x1f7) (fun r d' =>
      Z.land r 0xC0 = 0x40 /\ view d' = set_phase (ReadDone k) (view d) \/
      Z.land r 0xC0 <> 0x40 /\ view d' = view d /\ (to_wait d' < to_wait d)%nat) d.

Lemma boot_lba off (r3 := u8 off) (r4 := u8 (Z.shiftr off 8)) (r5 := u8 (Z.shiftr off 16)) (r6 := u8 (Z.lor (Z.shiftr off 24) 0xE0)) :
  0 <= off < 2 ^ 28 ->
  (Z.land (Z.shiftr r6 4) 1, Z.lor (Z.lor r3 (Z.shiftl r4 8)) (Z.lor (Z.shiftl r5 16) (Z.shiftl (Z.land r6 0x0f) 24))) = (0, off).
Proof.
  intros Ho. set (hi := off / 2 ^ 24). assert (Hhi : 0 <= hi < 16) by (unfold hi; zlia).
  assert (H6 : r6 = 14 * 2 ^ 4 + hi).
  { unfold r6. rewrite Z.shiftr_div_pow2 by lia. fold hi. rewrite Z.lor_comm. change 0xE0 with (Z.shiftl 14 4). rewrite shl_lor by lia.
    unfold u8. rewrite Z.mod_small; lia. }
  rewrite H6. rewrite Z.shiftr_div_pow2 by lia. rewrite Z.div_add_l, Z.div_small by lia. f_equal.
  change 15 with (Z.ones 4). rewrite Z.land_ones by lia. replace ((14 * 2 ^ 4 + hi) mod 2 ^ 4) with hi by zlia.
  assert (H3 : 0 <= r3 < 256) by apply u8_range. assert (H4 : 0 <= r4 < 256) by apply u8_range. assert (H5 : 0 <= r5 < 256) by apply u8_range.
  rewrite (Z.lor_comm r3), shl_lor by lia.
  replace (Z.lor (Z.shiftl r5 16) (Z.shiftl hi 24)) with (Z.shiftl (hi * 2 ^ 8 + r5) 16).
  2:{ rewrite <- shl_lor by lia. rewrite Z.shiftl_lor, Z.shiftl_shiftl by lia. by rewrite Z.lor_comm. }
  rewrite Z.lor_comm, shl_lor by lia. unfold r3, r4, r5, u8, hi. rewrite !Z.shiftr_div_pow2 by lia. zlia.
Qed.

(** ** Images that can be loaded *)

Definition nsect (count off : Z) : Z := (off mod 512 + count + 511) / 512.
Definition hdr (img : list Z) : elfhdr := decode_elf (take 52 img).
Definition phdr (img : list Z) (i : Z) : proghdr := decode_ph (take 32 (drop (Z.to_nat (e_phoff (hdr img) + 32 * i)) img)).
(** The bytes of a segment, and all that loading it writes: whole sectors, and the
    zeros. *)
Definition seg_end (h : proghdr) : Z := ph_paddr h + Z.max (ph_filesz h) (ph_memsz h).
Definition seg_lo (h : proghdr) : Z := ph_paddr h - ph_off h mod 512.
Definition seg_hi (h : proghdr) : Z := Z.max (seg_lo h + 512 * nsect (ph_filesz h) (ph_off h)) (seg_end h).
(** A segment of the image that fits in memory and spares the page with the
    headers. *)
Definition seg_fits (img : list Z) (h : proghdr) : bool :=
  (0 <=? ph_filesz h) && (0 <=? ph_off h) && (0 <=? seg_lo h) && (seg_hi h <? 2 ^ 32) &&
  (512 * (ph_off h / 512 + nsect (ph_filesz h) (ph_off h)) <=? Z.of_nat (length img)) && ((seg_hi h <=? 0x10000) || (0x11000 <=? seg_lo h)).
(** Loading [h'] spares the segment [h]. *)
Definition spares (h' h : proghdr) : bool := (seg_hi h' <=? ph_paddr h) || (seg_end h <=? seg_lo h').
Definition boot_ok (img : list Z) : Prop :=
  e_magic (hdr img) = ELF_MAGIC /\ 4096 <= Z.of_nat (length img) /\ 0 <= e_phnum (hdr img) /\ 0 <= e_phoff (hdr img) /\
  e_phoff (hdr img) + 32 * e_phnum (hdr img) <= 4096 /\
  (forall i, 0 <= i < e_phnum (hdr img) -> seg_fits img (phdr img i) = true) /\
  (forall i j, 0 <= i < j -> j < e_phnum (hdr img) -> spares (phdr img j) (phdr img i) = true).

Section spec.
Context {D : Type} {polls : nat} `{!Ports D, !Ata D polls, !Polled D polls}.
Implicit Types (d : D) (s : boot D).

Lemma waitdisk_idle d (Q : unit -> D -> Prop) : settled (a_phase (view d)) = true -> (forall d', view d' = view d -> Q tt d') -> wp (waitdisk polls) Q d.
Proof.
  intros Hs HQ. unfold waitdisk.
  apply (wp_loop _ (fun n _ d' => view d' = view d /\ (to_wait d' <= n)%nat)) with (n := to_wait d); [|apply wait_bound|done].
  intros n _ d1 [Hv Hn]. apply wp_bind. eapply wp_mono; [apply status_ok; by rewrite Hv|]. intros r d2 (Hv2 & [[Hr _]|[Hr Hw]]).
  - change (Z.land r 0xC0 = 0x40) in Hr. rewrite Hr. apply wp_ret, HQ. congruence.
  - change (Z.land r 0xC0 <> 0x40) in Hr. rewrite (proj2 (Z.eqb_neq _ _)) by done. apply wp_ret. exists (to_wait d2). split; [lia|]. split; [congruence|lia].
Qed.
Lemma waitdisk_reading k d (Q : unit -> D -> Prop) : a_phase (view d) = Reading k ->
  (forall d', view d' = set_phase (ReadDone k) (view d) -> Q tt d') -> wp (waitdisk polls) Q d.
Proof.
  intros Hk HQ. unfold waitdisk.
  apply (wp_loop _ (fun n _ d' => view d' = view d /\ (to_wait d' <= n)%nat)) with (n := to_wait d); [|apply wait_bound|done].
  intros n _ d1 [Hv Hn]. apply wp_bind. eapply wp_mono; [apply (status_reading k); by rewrite Hv|]. intros r d2 [[Hr Hv2]|(Hr & Hv2 & Hw)].
  - rewrite Hr. apply wp_ret, HQ. congruence.
  - rewrite (proj2 (Z.eqb_neq _ _)) by done. apply wp_ret. exists (to_wait d2). split; [lia|]. split; [congruence|lia].
Qed.

(** A disk at rest with the sectors [disk]. *)
Definition at_rest (disk : contents) d : Prop := a_phase (view d) = Idle /\ a_disk (view d) = disk.
Lemma readsect_wp disk dst off s (Q : unit -> boot D -> Prop) : 0 <= off < 2 ^ 28 -> at_rest disk (b_io s) ->
  (forall d', at_rest disk d' -> Q tt (mkboot (store dst (disk (0, off)) (b_mem s)) d')) ->
  wp (readsect polls dst off) Q s.
Proof.
  intros Ho [Hp Hd] HQ. unfold readsect. apply wp_bind, wp_zoom. apply wp_bind, waitdisk_idle; [by rewrite Hp|]. intros d0 Hv0.
  assert (a_phase (view d0) = Idle) by (by rewrite Hv0).
  do 5 (apply wp_bind; eapply wp_mono; [apply outb_reg; [set_solver|done]|];
    let d' := fresh "d" in let H := fresh "Hv" in intros [] d' H; cbv beta in H; assert (a_phase (view d') = Idle) by (by rewrite H)).
  apply wp_bind. eapply wp_mono; [apply outb_read; [done|rewrite Hv4, Hv3, Hv2, Hv1, Hv; done]|]. intros [] d5 Hv5. cbv beta in Hv5.
  assert (Ha : addressed (view d4) = (0, off)).
  { rewrite Hv4, Hv3, Hv2, Hv1, Hv. rewrite <- (boot_lba off) by done. reflexivity. }
  rewrite Ha in Hv5. apply wp_bind, (waitdisk_reading (0, off)); [by rewrite Hv5|]. intros d6 Hv6.
  eapply wp_mono; [apply (insl_ok (0, off)); by rewrite Hv6|]. intros bs d7 [-> Hv7]. apply wp_modify.
  assert (Hdk : a_disk (view d6) = disk) by (rewrite Hv6, Hv5, Hv4, Hv3, Hv2, Hv1, Hv, Hv0; done). rewrite Hdk.
  apply (HQ d7). split; rewrite Hv7; [done|exact Hdk].
Qed.

(** [readseg] has copied [k] sectors. *)
Definition copied (img : list Z) (pa off k : Z) (mem : Z -> Z) (a : Z) : Z :=
  let base := pa - off mod 512 in
  if (base <=? a) && (a <? base + 512 * k) then nth (Z.to_nat (a - pa + off)) img 0 else mem a.
Lemma copied_next img pa off k mem m a : 0 <= k -> 0 <= off -> 512 * (off / 512 + k + 1) <= Z.of_nat (length img) ->
  (forall b, m b = copied img pa off k mem b) ->
  store (pa - off mod 512 + 512 * k) (take 512 (drop (Z.to_nat (512 * (off / 512 + k))) img)) m a = copied img pa off (k + 1) mem a.
Proof.
  intros Hk Ho Hl Hm. unfold store. rewrite Hm. unfold copied. cbv zeta. set (base := pa - off mod 512).
  rewrite length_take, length_drop. pose proof (Z.div_pos off 512 Ho ltac:(lia)). replace (Z.of_nat (512 `min` _)) with 512 by lia.
  destruct (Z.leb_spec (base + 512 * k) a) as [H1|H1], (Z.ltb_spec a (base + 512 * k + 512)) as [H2|H2]; cbn [andb].
  - rewrite (proj2 (Z.leb_le base a)), (proj2 (Z.ltb_lt a (base + 512 * (k + 1)))) by lia. cbn [andb].
    rewrite !nth_lookup, lookup_take_lt, lookup_drop by lia. do 2 f_equal. unfold base in *. zlia.
  - rewrite (proj2 (Z.ltb_ge a (base + 512 * k))), (proj2 (Z.ltb_ge a (base + 512 * (k + 1)))) by lia. by rewrite !andb_false_r.
  - rewrite (proj2 (Z.ltb_lt a (base + 512 * k))), (proj2 (Z.ltb_lt a (base + 512 * (k + 1)))) by lia. done.
  - lia.
Qed.

(** The disk holds [img] from sector 1 on. *)
Definition kernel_on (disk : contents) (img : list Z) : Prop :=
  Z.of_nat (length img) < 2 ^ 36 /\
  forall i, 0 <= i -> 512 * (i + 1) <= Z.of_nat (length img) -> disk (0, i + 1) = take 512 (drop (Z.to_nat (512 * i)) img).
(** The sectors lie in the image, and what is read in memory. *)
Definition seg_ok (img : list Z) (pa count off : Z) : Prop :=
  0 <= count /\ 0 <= off /\ off mod 512 <= pa /\ pa - off mod 512 + 512 * nsect count off < 2 ^ 32 /\
  512 * (off / 512 + nsect count off) <= Z.of_nat (length img).

Lemma readseg_wp disk img pa count off s (Q : unit -> boot D -> Prop) :
  kernel_on disk img -> seg_ok img pa count off -> at_rest disk (b_io s) ->
  (forall m d', at_rest disk d' -> (forall a, m a = copied img pa off (nsect count off) (b_mem s) a) -> Q tt (mkboot m d')) ->
  wp (readseg polls pa count off) Q s.
Proof.
  intros [Hil Hk] (Hc & Ho & Hpa & He & Hl) Hr HQ. unfold readseg. change SECTSIZE with 512.
  set (n := nsect count off) in *. assert (Hn : 0 <= n /\ n < count / 512 + 3 /\ 512 * (n - 1) < off mod 512 + count <= 512 * n) by (unfold n, nsect; zlia).
  rewrite (u32_id (pa + count)), (u32_id (pa - off mod 512)) by zlia. set (base := pa - off mod 512) in *.
  apply (wp_loop _ (fun m '(p, o) s' => exists k, m = Z.to_nat (n - k) /\ 0 <= k <= n /\ p = base + 512 * k /\ o = off / 512 + 1 + k /\
    at_rest disk (b_io s') /\ forall a, b_mem s' a = copied img pa off k (b_mem s) a)) with (n := Z.to_nat n).
  - intros m [p o] s' (k & -> & Hkn & -> & -> & Hr' & Hm). destruct (Z.ltb_spec (base + 512 * k) (pa + count)) as [Hlt|Hge]; cbn [negb].
    + assert (k + 1 <= n) by (unfold base in *; lia). apply wp_bind, (readsect_wp disk); [zlia|done|]. intros d' Hr2. apply wp_ret.
      exists (Z.to_nat (n - (k + 1))). split; [lia|]. exists (k + 1). change (2 ^ 32) with 4294967296 in *. rewrite !u32_id by zlia. split_and!; try lia; [done|].
      intros a. cbn. replace (off / 512 + 1 + k) with (off / 512 + k + 1) by lia. rewrite (Hk (off / 512 + k)) by zlia. apply copied_next; [lia|lia|lia|done].
    + apply wp_ret. destruct s' as [m' d']. apply HQ; [done|]. intros a. replace n with k by (unfold base in *; lia). apply Hm.
  - lia.
  - exists 0. split_and!; try lia; [done|]. intros a. unfold copied. cbv zeta. fold base. rewrite Z.mul_0_r, Z.add_0_r.
    destruct (Z.leb_spec base a), (Z.ltb_spec a base); try lia; done.
Qed.

(** ** The whole loader *)

(** The segment [h] is in memory. *)
Definition loaded (img : list Z) (h : proghdr) (mem : Z -> Z) : Prop :=
  forall k, 0 <= k < Z.max (ph_filesz h) (ph_memsz h) ->
    mem (ph_paddr h + k) = if k <? ph_filesz h then nth (Z.to_nat (ph_off h + k)) img 0 else 0.
(** The first page of the image is at 0x10000. *)
Definition headers (img : list Z) (mem : Z -> Z) : Prop := forall k, 0 <= k < 4096 -> mem (0x10000 + k) = nth (Z.to_nat k) img 0.

Lemma nth_zeros n i : nth i (replicate n 0) 0 = 0.
Proof. revert i. induction n; intros [|i]; cbn; auto. Qed.
Lemma fetch_img img mem p o n : (o + n <= length img)%nat -> (forall i, (i < n)%nat -> mem (p + Z.of_nat i) = nth (o + i) img 0) ->
  fetch mem p n = take n (drop o img).
Proof.
  intros Hl Hm. apply list_eq. intros i. unfold fetch. destruct (decide (i < n)%nat) as [Hi|Hi].
  - rewrite lookup_take_lt, lookup_drop by done. change (map ?f (seq 0 n)) with (f <$> seq 0 n). rewrite list_lookup_fmap, lookup_seq_lt by done. cbn. rewrite Hm by done.
    symmetry. rewrite nth_lookup. destruct (lookup_lt_is_Some_2 img (o + i)) as [x Hx]; [lia|]. by rewrite Hx.
  - rewrite !lookup_ge_None_2; [done| |]; rewrite ?length_map, ?length_seq, ?length_take; lia.
Qed.
Lemma headers_fetch img mem off n : 4096 <= Z.of_nat (length img) -> headers img mem -> 0 <= off -> off + Z.of_nat n <= 4096 ->
  fetch mem (0x10000 + off) n = take n (drop (Z.to_nat off) img).
Proof.
  intros Hl Hh Ho Hn. apply fetch_img; [lia|]. intros i Hi. rewrite <- Z.add_assoc, Hh by lia. f_equal. lia.
Qed.

(** What loading a segment changes. *)
Definition seg_mem (img : list Z) (h : proghdr) (mem : Z -> Z) (a : Z) : Z :=
  if (ph_filesz h <? ph_memsz h) && (ph_paddr h + ph_filesz h <=? a) && (a <? ph_paddr h + ph_memsz h) then 0
  else copied img (ph_paddr h) (ph_off h) (nsect (ph_filesz h) (ph_off h)) mem a.
Lemma seg_mem_loaded img h mem m : seg_fits img h = true -> (forall a, m a = seg_mem img h mem a) -> loaded img h m.
Proof.
  intros Hf Hm k Hk. unfold seg_fits, seg_hi, seg_lo, seg_end in Hf. rewrite Hm. unfold seg_mem, copied. cbv zeta.
  assert (512 * nsect (ph_filesz h) (ph_off h) >= ph_off h mod 512 + ph_filesz h) by (unfold nsect; zlia).
  pose proof (Z.mod_pos_bound (ph_off h) 512 ltac:(lia)).
  destruct (Z.ltb_spec k (ph_filesz h)).
  - rewrite (proj2 (Z.leb_gt _ (ph_paddr h + k))), andb_false_r by lia. cbn [andb].
    rewrite (proj2 (Z.leb_le _ (ph_paddr h + k))), (proj2 (Z.ltb_lt (ph_paddr h + k) _)) by lia. cbn [andb]. f_equal. lia.
  - rewrite (proj2 (Z.ltb_lt (ph_filesz h) _)), (proj2 (Z.leb_le _ (ph_paddr h + k))), (proj2 (Z.ltb_lt (ph_paddr h + k) _)) by lia. done.
Qed.
Lemma seg_mem_outside img h mem a : seg_fits img h = true -> a < seg_lo h \/ seg_hi h <= a -> seg_mem img h mem a = mem a.
Proof.
  intros Hf Ha. unfold seg_fits in Hf. unfold seg_mem, copied. cbv zeta. unfold seg_hi, seg_lo, seg_end in *.
  pose proof (Z.mod_pos_bound (ph_off h) 512 ltac:(lia)).
  repeat match goal with |- context [?x <=? ?y] => destruct (Z.leb_spec x y) | |- context [?x <? ?y] => destruct (Z.ltb_spec x y) end; cbn [andb]; try done; lia.
Qed.

Section run.
Context (disk : contents) (img : list Z).
Hypothesis Hdisk : kernel_on disk img.
Hypothesis Himg : boot_ok img.

Lemma load_segment_wp i s (Q : unit -> boot D -> Prop) :
  0 <= i < e_phnum (hdr img) -> at_rest disk (b_io s) -> headers img (b_mem s) ->
  (forall m d', at_rest disk d' -> (forall a, m a = seg_mem img (phdr img i) (b_mem s) a) -> Q tt (mkboot m d')) ->
  wp (load_segment polls (0x10000 + e_phoff (hdr img) + 32 * i)) Q s.
Proof.
  intros Hi Hr Hh HQ. destruct Himg as (_ & Hl & _ & Ho & Hn & Hf & _). specialize (Hf i Hi).
  unfold load_segment. apply wp_bind, wp_gets. rewrite <- Z.add_assoc, (headers_fetch img) by (done || lia). fold (phdr img i). set (h := phdr img i) in *.
  pose proof Hf as Hf'. unfold seg_fits, seg_hi, seg_lo, seg_end in Hf'. cbv zeta. pose proof (Z.mod_pos_bound (ph_off h) 512 ltac:(lia)).
  apply wp_bind, (readseg_wp disk img); [done| |done|]. { unfold seg_ok. change (2 ^ 32) with 4294967296 in *. split_and!; lia. }
  intros m d' Hr' Hm. destruct (Z.ltb_spec (ph_filesz h) (ph_memsz h)) as [Hlt|Hge].
  - apply wp_modify. apply HQ; [done|]. intros a. cbn [b_mem]. rewrite u32_id by (change (2 ^ 32) with 4294967296 in *; lia).
    unfold store, seg_mem. rewrite length_replicate, (proj2 (Z.ltb_lt (ph_filesz h) _)), Z2Nat.id, nth_zeros by lia. cbn [andb].
    replace (ph_paddr h + ph_filesz h + (ph_memsz h - ph_filesz h)) with (ph_paddr h + ph_memsz h) by lia. by rewrite Hm.
  - apply wp_ret. apply HQ; [done|]. intros a. rewrite Hm. unfold seg_mem. by rewrite (proj2 (Z.ltb_ge (ph_filesz h) _)) by lia.
Qed.

(** The first [i] segments are loaded, and the headers are still there. *)
Definition progress (i : Z) s : Prop :=
  at_rest disk (b_io s) /\ headers img (b_mem s) /\ forall j, 0 <= j < i -> loaded img (phdr img j) (b_mem s).
Lemma progress_next i s m d' : 0 <= i < e_phnum (hdr img) -> progress i s -> at_rest disk d' ->
  (forall a, m a = seg_mem img (phdr img i) (b_mem s) a) -> progress (i + 1) (mkboot m d').
Proof.
  intros Hi (_ & Hh & Hld) Hr Hm. destruct Himg as (_ & _ & _ & _ & _ & Hf & Hsp). pose proof (Hf i Hi) as Hfi. split_and!; [done| |].
  - intros k Hk. cbn. rewrite Hm, seg_mem_outside; [by apply Hh|done|]. unfold seg_fits in Hfi. lia.
  - intros j Hj. destruct (decide (j = i)) as [->|Hne]; [by eapply seg_mem_loaded|]. intros k Hk. cbn [b_mem].
    rewrite Hm, seg_mem_outside; [by apply (Hld j ltac:(lia) k)|done|]. specialize (Hsp j i ltac:(lia) ltac:(lia)). unfold spares, seg_end in Hsp. lia.
Qed.
Lemma headers_loaded s (Q : unit -> boot D -> Prop) : at_rest disk (b_io s) ->
  (forall s', progress 0 s' -> Q tt s') -> wp (readseg polls 0x10000 4096 0) Q s.
Proof.
  intros Hr HQ. destruct Himg as (_ & Hl & _). apply (readseg_wp disk img); [done| |done|].
  { unfold seg_ok. change (nsect 4096 0) with 8. change (0 mod 512) with 0. change (0 / 512) with 0. split_and!; lia. }
  intros m d' Hr' Hm. apply HQ. split_and!; [done| |lia]. intros k Hk. cbn [b_mem]. rewrite Hm. unfold copied. change (nsect 4096 0) with 8. cbv zeta.
  rewrite Zmod_0_l. rewrite (proj2 (Z.leb_le _ _)), (proj2 (Z.ltb_lt _ _)) by lia. cbn [andb]. f_equal. lia.
Qed.
Lemma bootmain_wp s : at_rest disk (b_io s) ->
  wp (bootmain polls) (fun r s' => r = Some (e_entry (hdr img)) /\ progress (e_phnum (hdr img)) s') s.
Proof.
  intros Hr. unfold bootmain. cbv zeta. apply wp_bind, headers_loaded; [done|]. intros s1 Hp1. apply wp_bind, wp_gets.
  pose proof Himg as (Hmg & Hl & Hn0 & Ho & Hn & Hf & _).
  assert (Hhd : forall i t, progress i t -> decode_elf (fetch (b_mem t) 0x10000 52) = hdr img).
  { intros i t (_ & Hh & _). pose proof (headers_fetch img (b_mem t) 0 52 Hl Hh ltac:(lia) ltac:(lia)) as He. rewrite Z.add_0_r in He. change (Z.to_nat 0) with 0%nat in He. unfold hdr. by rewrite He, drop_0. }
  rewrite (Hhd 0 s1 Hp1), Hmg, Z.eqb_refl. cbn [negb]. change sizeof_proghdr with 32.
  rewrite (u32_id (0x10000 + _)) by lia. rewrite (u32_id (_ + 32 * _)) by lia. apply wp_bind.
  apply (wp_loop _ (fun m p t => exists i, m = Z.to_nat (e_phnum (hdr img) - i) /\ 0 <= i <= e_phnum (hdr img) /\ p = 0x10000 + e_phoff (hdr img) + 32 * i /\ progress i t))
    with (n := Z.to_nat (e_phnum (hdr img))).
  - intros m p t (i & -> & Hi & -> & Hp). destruct (Z.ltb_spec (0x10000 + e_phoff (hdr img) + 32 * i) (0x10000 + e_phoff (hdr img) + 32 * e_phnum (hdr img))); cbn [negb].
    + pose proof Hp as (Hrt & Hht & _). apply wp_bind, load_segment_wp; [lia|done|done|]. intros m' d' Hr' Hm'. apply wp_ret.
      exists (Z.to_nat (e_phnum (hdr img) - (i + 1))). split; [lia|]. exists (i + 1). rewrite u32_id by lia. split_and!; try lia. eapply progress_next; [lia|done|done|done].
    + apply wp_ret, wp_bind, wp_gets, wp_ret. rewrite (Hhd i t Hp). split; [done|]. by replace (e_phnum (hdr img)) with i by lia.
  - lia.
  - exists 0. split_and!; try lia. done.
Qed.
End run.

(** C13. The boot loader loads the kernel: if the disk holds an ELF image from sector 1
    on whose segments lie in the image, fit in memory, and spare the headers and
    the segments before them, then [bootmain] jumps to the entry point of the image
    with every segment at its physical address, followed by zeros. *)
Theorem bootmain_spec disk img s : kernel_on disk img -> boot_ok img -> at_rest disk (b_io s) ->
  wp (bootmain polls) (fun r s' => r = Some (e_entry (hdr img)) /\
    forall i, 0 <= i < e_phnum (hdr img) -> loaded img (phdr img i) (b_mem s')) s.
Proof. intros Hd Hi Hr. eapply wp_mono; [by apply (bootmain_wp disk img)|]. intros r s' (-> & _ & _ & Hl). done. Qed.
End spec.

(** ** A kernel *)

#[global] Instance sim_polled : Polled sim 2.
Proof.
  intros k m Hk. unfold wp, inb; cbn. unfold bind, get, modify, ret. cbn in *. destruct (m_slow m); cbn.
  - right. split_and!; [done|done|lia].
  - rewrite Hk. left. split; [done|]. cbn. unfold a_finish. by rewrite Hk.
Qed.
(** Two segments, the first followed by zeros. *)
Definition demo_img : list Z :=
  let w := le_bytes 4 in let h := le_bytes 2 in
  let elf := w ELF_MAGIC ++ replicate 12 0 ++ h 2 ++ h 3 ++ w 1 ++ w 0x10000c ++ w 52 ++ w 0 ++ w 0 ++ h 52 ++ h 32 ++ h 2 ++ h 0 ++ h 0 ++ h 0 in
  let ph off pa fsz msz := w 1 ++ w off ++ w pa ++ w pa ++ w fsz ++ w msz ++ w 5 ++ w 4096 in
  elf ++ ph 4096 0x100000 600 1000 ++ ph 4800 0x102000 100 100 ++ replicate (4096 - 116) 0 ++ replicate 1024 7.
Definition demo_disk : contents := fun k => take 512 (drop (Z.to_nat (512 * (snd k - 1))) demo_img).
Definition demo_boot : boot sim := mkboot (fun _ => 255) (mksim (mkata (fun _ => 0) Idle demo_disk []) true).

Lemma bootmain_spec_witness : wp (bootmain 2) (fun r s' => r = Some 0x10000c /\ b_mem s' (0x100000 + 599) = 7 /\ b_mem s' (0x100000 + 999) = 0) demo_boot.
Proof.
  eapply wp_mono; [apply (bootmain_spec demo_disk demo_img)|].
  - split; [vm_compute; reflexivity|]. intros i Hi _. unfold demo_disk. cbn [snd]. rewrite Z.add_simpl_r. reflexivity.
  - assert (H2 : e_phnum (hdr demo_img) = 2) by (vm_compute; reflexivity). unfold boot_ok. rewrite H2.
    split_and!; [vm_compute; reflexivity|vm_compute; discriminate|lia|vm_compute; discriminate|vm_compute; discriminate| |].
    + intros i Hi. assert (i = 0 \/ i = 1) as [-> | ->] by lia; vm_compute; reflexivity.
    + intros i j Hi Hj. assert (i = 0) as -> by lia. assert (j = 1) as -> by lia. vm_compute. reflexivity.
  - split; reflexivity.
  - intros r s' [-> Hl]. split; [vm_compute; reflexivity|]. specialize (Hl 0 ltac:(vm_compute; split; [discriminate|reflexivity])).
    assert (Hph : phdr demo_img 0 = mkph 1 4096 0x100000 0x100000 600 1000 5 4096) by (vm_compute; reflexivity). rewrite Hph in Hl.
    pose proof (Hl 599 ltac:(cbn; lia)) as H1. pose proof (Hl 999 ltac:(cbn; lia)) as H2. cbn [ph_paddr] in H1, H2.
    rewrite H1, H2. split; vm_compute; reflexivity.
Defined.
