(* ===== verification/Devices.v ===== *)
(** * The devices

    picirq.c, ioapic.c, timer.c, lapic.c and uart.c: the interrupt controllers, the
    clocks and the serial port, over the ports and the memory-mapped registers of
    the machine.  The messages they print are left out. *)

From S2P Require Import Prelude Params Trap Ide.

Definition IO_PIC1 : Z := 0x20.
Definition IO_PIC2 : Z := 0xA0.
Definition IRQ_SLAVE : Z := 2.
Definition IO_TIMER1 : Z := 0x040.
Definition TIMER_FREQ : Z := 1193182.
Definition TIMER_DIV (x : Z) : Z := (TIMER_FREQ + x / 2) / x.
Definition TIMER_MODE : Z := IO_TIMER1 + 3.
Definition TIMER_SEL0 : Z := 0x00.
Definition TIMER_RATEGEN : Z := 0x04.
Definition TIMER_16BIT : Z := 0x30.
Definition IOAPIC : Z := 0xFEC00000.
Definition REG_ID : Z := 0x00.
Definition REG_VER : Z := 0x01.
Definition REG_TABLE : Z := 0x10.
Definition INT_DISABLED : Z := 0x00010000.
Definition COM1 : Z := 0x3f8.
Definition CMOS_PORT : Z := 0x70.
Definition CMOS_RETURN : Z := 0x71.
Definition CMOS_STATA : Z := 0x0a.
Definition CMOS_STATB : Z := 0x0b.
Definition CMOS_UIP : Z := Z.shiftl 1 7.
(** The registers of the local APIC, as indices, and the bits written to them. *)
Definition LAPIC_ID : Z := 0x0020 / 4.
Definition VER : Z := 0x0030 / 4.
Definition TPR : Z := 0x0080 / 4.
Definition EOI : Z := 0x00B0 / 4.
Definition SVR : Z := 0x00F0 / 4.
Definition ENABLE : Z := 0x00000100.
Definition ESR : Z := 0x0280 / 4.
Definition ICRLO : Z := 0x0300 / 4.
Definition INIT : Z := 0x00000500.
Definition STARTUP : Z := 0x00000600.
Definition DELIVS : Z := 0x00001000.
Definition ASSERT : Z := 0x00004000.
Definition LEVEL : Z := 0x00008000.
Definition BCAST : Z := 0x00080000.
Definition ICRHI : Z := 0x0310 / 4.
Definition TIMER : Z := 0x0320 / 4.
Definition X1 : Z := 0x0000000B.
Definition PERIODIC : Z := 0x00020000.
Definition PCINT : Z := 0x0340 / 4.
Definition LINT0 : Z := 0x0350 / 4.
Definition LINT1 : Z := 0x0360 / 4.
Definition ERROR : Z := 0x0370 / 4.
Definition MASKED : Z := 0x00010000.
Definition TICR : Z := 0x0380 / 4.
Definition TDCR : Z := 0x03E0 / 4.
Definition IRQ_ERROR : Z := 19.

(** Loads and stores of memory-mapped registers and of low memory. *)
Class Mmio (D : Type) := {
  rd32 : Z -> M D Z;
  wr32 : Z -> Z -> M D unit;
  wr16 : Z -> Z -> M D unit
}.

Section devices.
Context {D : Type} `{!Ports D, !Mmio D}.
(** How often a loop may look at a register. *)
Context (polls : nat).

(** [irqmask] of picirq.c, [uart] of uart.c, [ismp] of mp.c, [lapic] of lapic.c,
    and the machine. *)
Record devs := mkdevs { irqmask : Z; uart : bool; dv_ismp : bool; dv_lapic : Z; dv_io : D }.
Definition set_irqmask v (s : devs) := mkdevs v (uart s) (dv_ismp s) (dv_lapic s) (dv_io s).
Definition set_uart v (s : devs) := mkdevs (irqmask s) v (dv_ismp s) (dv_lapic s) (dv_io s).
Definition set_dv_io v (s : devs) := mkdevs (irqmask s) (uart s) (dv_ismp s) (dv_lapic s) v.
Definition io {A} (m : M D A) : M devs A := zoom dv_io set_dv_io m.

(** ** picirq.c *)

Definition irqmask0 : Z := clr 0xFFFF (Z.shiftl 1 IRQ_SLAVE).
Definition picsetmask (mask : Z) : M devs unit :=
  modify (set_irqmask mask) ;;;
  io (outb (IO_PIC1 + 1) (u8 mask)) ;;;
  io (outb (IO_PIC2 + 1) (u8 (Z.shiftr mask 8))).
Definition picenable (irq : Z) : M devs unit :=
  m <-- gets irqmask ;;
  picsetmask (u16 (clr m (Z.shiftl 1 irq))).
Definition picinit : M devs unit :=
  io (
    outb (IO_PIC1 + 1) 0xFF ;;;
    outb (IO_PIC2 + 1) 0xFF ;;;
    outb IO_PIC1 0x11 ;;;
    outb (IO_PIC1 + 1) T_IRQ0 ;;;
    outb (IO_PIC1 + 1) (Z.shiftl 1 IRQ_SLAVE) ;;;
    outb (IO_PIC1 + 1) 0x3 ;;;
    outb IO_PIC2 0x11 ;;;
    outb (IO_PIC2 + 1) (T_IRQ0 + 8) ;;;
    outb (IO_PIC2 + 1) IRQ_SLAVE ;;;
    outb (IO_PIC2 + 1) 0x3 ;;;
    outb IO_PIC1 0x68 ;;;
    outb IO_PIC1 0x0a ;;;
    outb IO_PIC2 0x68 ;;;
    outb IO_PIC2 0x0a) ;;;
  m <-- gets irqmask ;;
  if negb (m =? 0xFFFF) then picsetmask m else ret tt.

(** ** timer.c *)

Definition timerinit : M devs unit :=
  io (outb TIMER_MODE (Z.lor (Z.lor TIMER_SEL0 TIMER_RATEGEN) TIMER_16BIT)) ;;;
  io (outb IO_TIMER1 (TIMER_DIV 100 mod 256)) ;;;
  io (outb IO_TIMER1 (TIMER_DIV 100 / 256)) ;;;
  picenable IRQ_TIMER.

(** ** ioapic.c *)

(** [ioapic->reg] and [ioapic->data]. *)
Definition ioapicread (reg : Z) : M D Z := wr32 IOAPIC reg ;;; rd32 (IOAPIC + 16).
Definition ioapicwrite (reg data : Z) : M D unit := wr32 IOAPIC reg ;;; wr32 (IOAPIC + 16) data.
Definition ioapicinit : M devs unit :=
  smp <-- gets dv_ismp ;;
  if negb (smp : bool) then ret tt
  else
    v <-- io (ioapicread REG_VER) ;;
    let maxintr := Z.land (Z.shiftr v 16) 0xFF in
    io (ioapicread REG_ID) ;;;
    for_each (seqZ 0 (maxintr + 1)) (fun i =>
      io (ioapicwrite (REG_TABLE + 2 * i) (Z.lor INT_DISABLED (T_IRQ0 + i))) ;;;
      io (ioapicwrite (REG_TABLE + 2 * i + 1) 0)).
Definition ioapicenable (irq cpunum : Z) : M devs unit :=
  smp <-- gets dv_ismp ;;
  if negb (smp : bool) then ret tt
  else
    io (ioapicwrite (REG_TABLE + 2 * irq) (T_IRQ0 + irq)) ;;;
    io (ioapicwrite (REG_TABLE + 2 * irq + 1) (u32 (Z.shiftl cpunum 24))).

(** ** lapic.c *)

(** [lapic[index]] *)
Definition lapicr (index : Z) : M devs Z := l <-- gets dv_lapic ;; io (rd32 (u32 (l + 4 * index))).
Definition lapicw (index value : Z) : M devs unit :=
  l <-- gets dv_lapic ;;
  io (wr32 (u32 (l + 4 * index)) (u32 value)) ;;;
  lapicr LAPIC_ID ;;; ret tt.
Definition lapicinit : M devs unit :=
  l <-- gets dv_lapic ;;
  if l =? 0 then ret tt
  else
    lapicw SVR (Z.lor ENABLE (T_IRQ0 + IRQ_SPURIOUS)) ;;;
    lapicw TDCR X1 ;;;
    lapicw TIMER (Z.lor PERIODIC (T_IRQ0 + IRQ_TIMER)) ;;;
    lapicw TICR 10000000 ;;;
    lapicw LINT0 MASKED ;;;
    lapicw LINT1 MASKED ;;;
    v <-- lapicr VER ;;
    (if 4 <=? Z.land (Z.shiftr v 16) 0xFF then lapicw PCINT MASKED else ret tt) ;;;
    lapicw ERROR (T_IRQ0 + IRQ_ERROR) ;;;
    lapicw ESR 0 ;;;
    lapicw ESR 0 ;;;
    lapicw EOI 0 ;;;
    lapicw ICRHI 0 ;;;
    lapicw ICRLO (Z.lor (Z.lor BCAST INIT) LEVEL) ;;;
    loop polls (fun _ : unit => v <-- lapicr ICRLO ;; if negb (Z.land v DELIVS =? 0) then ret (inl tt) else ret (inr tt)) tt ;;;
    lapicw TPR 0.
(** [cpunum]; the complaint when interrupts are enabled is left out. *)
Definition cpunum : M devs Z :=
  l <-- gets dv_lapic ;;
  if negb (l =? 0) then v <-- lapicr LAPIC_ID ;; ret (Z.shiftr v 24) else ret 0.
Definition lapiceoi : M devs unit :=
  l <-- gets dv_lapic ;;
  if negb (l =? 0) then lapicw EOI 0 else ret tt.
Definition microdelay (us : Z) : M devs unit := ret tt.
Definition lapicstartap (apicid addr : Z) : M devs unit :=
  io (outb CMOS_PORT 0xF) ;;;
  io (outb (CMOS_PORT + 1) 0x0A) ;;;
  let wrv := KERNBASE + Z.lor (Z.shiftl 0x40 4) 0x67 in
  io (wr16 wrv 0) ;;;
  io (wr16 (wrv + 2) (u16 (Z.shiftr addr 4))) ;;;
  lapicw ICRHI (Z.shiftl apicid 24) ;;;
  lapicw ICRLO (Z.lor (Z.lor INIT LEVEL) ASSERT) ;;;
  microdelay 200 ;;;
  lapicw ICRLO (Z.lor INIT LEVEL) ;;;
  microdelay 100 ;;;
  for_each (seqZ 0 2) (fun _ =>
    lapicw ICRHI (Z.shiftl apicid 24) ;;;
    lapicw ICRLO (Z.lor STARTUP (Z.shiftr addr 12)) ;;;
    microdelay 200).

(** [struct rtcdate] of date.h. *)
Record rtcdate := mkdate { second : Z; minute : Z; hour : Z; day : Z; month : Z; year : Z }.
#[export] Instance rtcdate_eq : EqDecision rtcdate.
Proof. solve_decision. Defined.
Definition cmos_read (reg : Z) : M devs Z :=
  io (outb CMOS_PORT reg) ;;;
  microdelay 200 ;;;
  io (inb CMOS_RETURN).
Definition fill_rtcdate : M devs rtcdate :=
  s <-- cmos_read 0x00 ;; mi <-- cmos_read 0x02 ;; h <-- cmos_read 0x04 ;;
  d <-- cmos_read 0x07 ;; mo <-- cmos_read 0x08 ;; y <-- cmos_read 0x09 ;;
  ret (mkdate s mi h d mo y).
(** [CONV] *)
Definition conv (x : Z) : Z := Z.shiftr x 4 * 10 + Z.land x 0xf.
Definition cmostime : M devs rtcdate :=
  sb <-- cmos_read CMOS_STATB ;;
  let bcd := Z.land sb (Z.shiftl 1 2) =? 0 in
  t1 <-- loop polls (fun _ : unit =>
    t1 <-- fill_rtcdate ;;
    st <-- cmos_read CMOS_STATA ;;
    if negb (Z.land st CMOS_UIP =? 0) then ret (inl tt)
    else
      t2 <-- fill_rtcdate ;;
      if bool_decide (t1 = t2) then ret (inr t1) else ret (inl tt)) tt ;;
  let t := if bcd then mkdate (conv (second t1)) (conv (minute t1)) (conv (hour t1)) (conv (day t1)) (conv (month t1)) (conv (year t1)) else t1 in
  ret (mkdate (second t) (minute t) (hour t) (day t) (month t) (year t + 2000)).

(** ** uart.c *)

(** The wait of [uartputc], with [n] turns left. *)
Fixpoint uart_wait (n : nat) : M devs unit :=
  match n with
  | O => ret tt
  | S n' => v <-- io (inb (COM1 + 5)) ;; if Z.land v 0x20 =? 0 then microdelay 10 ;;; uart_wait n' else ret tt
  end.
Definition uartputc (c : Z) : M devs unit :=
  u <-- gets uart ;;
  if negb (u : bool) then ret tt
  else uart_wait 128 ;;; io (outb (COM1 + 0) (u8 c)).
Definition uartgetc : M devs Z :=
  u <-- gets uart ;;
  if negb (u : bool) then ret (-1)
  else
    v <-- io (inb (COM1 + 5)) ;;
    if Z.land v 0x01 =? 0 then ret (-1) else io (inb (COM1 + 0)).
Definition uartinit : M devs unit :=
  io (outb (COM1 + 2) 0 ;;;
      outb (COM1 + 3) 0x80 ;;;
      outb (COM1 + 0) (115200 / 9600) ;;;
      outb (COM1 + 1) 0 ;;;
      outb (COM1 + 3) 0x03 ;;;
      outb (COM1 + 4) 0 ;;;
      outb (COM1 + 1) 0x01) ;;;
  v <-- io (inb (COM1 + 5)) ;;
  if v =? 0xFF then ret tt
  else
    modify (set_uart true) ;;;
    io (inb (COM1 + 2)) ;;;
    io (inb (COM1 + 0)) ;;;
    picenable IRQ_COM1 ;;;
    ioapicenable IRQ_COM1 0 ;;;
    for_each (str "xv6..." ++ [10]) uartputc.
End devices.
Arguments devs D : clear implicits.
