(* ===== verification/DevicesSpec.v ===== *)
(** * What the device code achieves

    Over devices that behave as documented: the two 8259s let through exactly the
    interrupts that were enabled, the I/O APIC routes exactly those, and the date
    that [cmostime] returns is one that the clock showed. *)

From S2P Require Import Prelude Params Trap Ide Devices.

(** ** The 8259 interrupt controllers *)

(** The mask, the vector of the first interrupt, and which of the initialisation
    words 2 to 4 is expected, 0 if none. *)
Record pic := mkpic { p_mask : Z; p_base : Z; p_next : nat }.
Definition pic_cmd (v : Z) (p : pic) : pic := if Z.testbit v 4 then mkpic 0 (p_base p) 2 else p.
Definition pic_data (v : Z) (p : pic) : pic :=
  match p_next p with
  | 2%nat => mkpic (p_mask p) (Z.land v 0xF8) 3
  | 3%nat => mkpic (p_mask p) (p_base p) 4
  | 4%nat => mkpic (p_mask p) (p_base p) 0
  | _ => mkpic v (p_base p) (p_next p)
  end.
Definition pic_write (p v : Z) (ps : pic * pic) : pic * pic :=
  if p =? 0x20 then (pic_cmd v (fst ps), snd ps)
  else if p =? 0x21 then (pic_data v (fst ps), snd ps)
  else if p =? 0xA0 then (fst ps, pic_cmd v (snd ps))
  else (fst ps, pic_data v (snd ps)).
Class Pics (D : Type) `{!Ports D} := {
  pics : D -> pic * pic;
  pics_out p v d : p ∈ [0x20; 0x21; 0xA0; 0xA1] -> wp (outb p v) (fun _ d' => pics d' = pic_write p v (pics d)) d
}.

Section pics.
Context {D : Type} `{!Ports D, !Pics D}.
Implicit Types (s : devs D).

Lemma pic_out_wp p v s (Q : unit -> devs D -> Prop) : p ∈ [0x20; 0x21; 0xA0; 0xA1] ->
  (forall d', pics d' = pic_write p v (pics (dv_io s)) -> Q tt (set_dv_io d' s)) -> wp (io (outb p v)) Q s.
Proof. intros Hp HQ. apply wp_zoom. eapply wp_mono; [by apply pics_out|]. intros [] d'. apply HQ. Qed.

(** The controllers are ready and their masks are [irqmask]. *)
Definition pic_ok s : Prop :=
  0 <= irqmask s < 2 ^ 16 /\ pics (dv_io s) = (mkpic (u8 (irqmask s)) T_IRQ0 0, mkpic (u8 (Z.shiftr (irqmask s) 8)) (T_IRQ0 + 8) 0).
Lemma picsetmask_wp mask s (Q : unit -> devs D -> Prop) m1 m2 : 0 <= mask < 2 ^ 16 ->
  pics (dv_io s) = (mkpic m1 T_IRQ0 0, mkpic m2 (T_IRQ0 + 8) 0) ->
  (forall d', let s' := set_dv_io d' (set_irqmask mask s) in pic_ok s' -> Q tt s') -> wp (picsetmask mask) Q s.
Proof.
  intros Hm Hp HQ. unfold picsetmask. apply wp_bind, wp_modify, wp_bind, pic_out_wp; [set_solver|]. intros d1 Hd1.
  apply pic_out_wp; [set_solver|]. intros d2 Hd2. apply HQ. split; [done|]. cbn in *. by rewrite Hd2, Hd1, Hp.
Qed.
Lemma picinit_wp s (Q : unit -> devs D -> Prop) : 0 <= irqmask s < 2 ^ 16 -> irqmask s <> 0xFFFF -> p_next (fst (pics (dv_io s))) = 0%nat -> p_next (snd (pics (dv_io s))) = 0%nat ->
  (forall s', pic_ok s' -> irqmask s' = irqmask s -> Q tt s') -> wp picinit Q s.
Proof.
  intros Hm Hne H1 H2 HQ. unfold picinit. apply wp_bind, wp_zoom.
  do 13 (apply wp_bind; eapply wp_mono; [apply pics_out; set_solver|]; let d := fresh "d" in let H := fresh "Hd" in intros [] d H; cbv beta in H).
  eapply wp_mono; [apply pics_out; set_solver|]. intros [] d' Hd'. apply wp_bind, wp_gets.
  cbn [irqmask set_dv_io]. rewrite (proj2 (Z.eqb_neq _ _)) by done. cbn [negb].
  eapply (picsetmask_wp (irqmask s) _ _ 0 0); [done| |].
  - cbn. destruct (pics (dv_io s)) as [[a1 a2 a3] [b1 b2 b3]] eqn:E. cbn in H1, H2. subst a3 b3.
    repeat match goal with H : pics ?d = _ |- _ => rewrite H in *; clear H end. reflexivity.
  - intros dd s' Hs'. by apply HQ.
Qed.

(** Which interrupts reach the processor. *)
Definition let_through (ps : pic * pic) (irq : Z) : bool := negb (Z.testbit (p_mask (fst ps) + 256 * p_mask (snd ps)) irq).
Lemma pic_ok_mask s : pic_ok s -> p_mask (fst (pics (dv_io s))) + 256 * p_mask (snd (pics (dv_io s))) = irqmask s.
Proof.
  intros [Hr Hp]. rewrite Hp. cbn. rewrite Z.shiftr_div_pow2 by lia. unfold u8. change (2 ^ 16) with 65536 in Hr. zlia.
Qed.
Lemma picenable_wp irq s (Q : unit -> devs D -> Prop) : pic_ok s -> 0 <= irq < 16 ->
  (forall s', pic_ok s' -> irqmask s' = clr (irqmask s) (2 ^ irq) -> Q tt s') -> wp (picenable irq) Q s.
Proof.
  intros Hs Hi HQ. pose proof Hs as [Hm Hp]. unfold picenable. apply wp_bind, wp_gets. rewrite Z.shiftl_1_l.
  assert (Hc : 0 <= clr (irqmask s) (2 ^ irq) < 2 ^ 16).
  { unfold clr. rewrite <- (Z.mod_small (irqmask s) (2 ^ 16)), <- Z.land_ones by lia.
    rewrite <- Z.land_assoc, (Z.land_comm (Z.ones 16)), Z.land_assoc, Z.land_ones by lia. apply Z.mod_pos_bound. lia. }
  unfold u16. rewrite Z.mod_small by done. eapply picsetmask_wp; [done|exact Hp|]. intros d' s' Hs'. by apply HQ.
Qed.
Lemma picenables_wp irqs : forall s (Q : unit -> devs D -> Prop), pic_ok s -> Forall (fun i => 0 <= i < 16) irqs ->
  (forall s', pic_ok s' -> (forall i, 0 <= i -> Z.testbit (irqmask s') i = Z.testbit (irqmask s) i && bool_decide (i ∉ irqs)) -> Q tt s') ->
  wp (for_each irqs picenable) Q s.
Proof.
  induction irqs as [|x irqs IH]; intros s Q Hs Hi HQ; cbn [for_each].
  - apply wp_ret, HQ; [done|]. intros i _. by rewrite bool_decide_eq_true_2, andb_true_r by apply not_elem_of_nil.
  - apply Forall_cons in Hi as [Hx Hi]. apply wp_bind, picenable_wp; [done|done|]. intros s1 Hs1 Hm1. apply IH; [done|done|].
    intros s2 Hs2 Hm2. apply HQ; [done|]. intros i Hi0. rewrite Hm2, Hm1, clr_pow2_bit by lia.
    destruct (decide (i = x)) as [->|Hne]; [rewrite (bool_decide_eq_false_2 (x ∉ x :: irqs)), andb_false_r by (rewrite not_elem_of_cons; tauto); done|].
    f_equal. apply bool_decide_ext. rewrite not_elem_of_cons. tauto.
Qed.

(** Once the controllers are initialised and the interrupts of a list are enabled,
    exactly those reach the processor, and the line that joins the two
    controllers; interrupt [i] has vector [T_IRQ0 + i]. *)
Theorem pic_masks irqs s : irqmask s = irqmask0 -> p_next (fst (pics (dv_io s))) = 0%nat -> p_next (snd (pics (dv_io s))) = 0%nat ->
  Forall (fun i => 0 <= i < 16) irqs ->
  wp (picinit ;;; for_each irqs picenable) (fun _ s' => let ps := pics (dv_io s') in
    p_base (fst ps) = T_IRQ0 /\ p_base (snd ps) = T_IRQ0 + 8 /\ p_next (fst ps) = 0%nat /\ p_next (snd ps) = 0%nat /\
    forall i, 0 <= i < 16 -> let_through ps i = bool_decide (i = IRQ_SLAVE \/ i ∈ irqs)) s.
Proof.
  intros Hm H1 H2 Hi. apply wp_bind, picinit_wp; [rewrite Hm; vm_compute; split; [discriminate|reflexivity]|rewrite Hm; vm_compute; discriminate|done|done|]. intros s1 Hs1 Hm1.
  apply picenables_wp; [done|done|]. intros s2 Hs2 Hm2. cbv zeta. pose proof Hs2 as [_ Hp2]. split_and!; [by rewrite Hp2..|].
  intros i Hi0. unfold let_through. rewrite (pic_ok_mask s2 Hs2), Hm2, Hm1, Hm by lia. unfold irqmask0, IRQ_SLAVE. change (Z.shiftl 1 2) with (2 ^ 2).
  rewrite clr_pow2_bit by lia. change 0xFFFF with (Z.ones 16). rewrite Z.ones_spec_low by lia.
  destruct (decide (i = 2)) as [->|Hne]; cbn [andb negb].
  - rewrite bool_decide_eq_true_2; [done|by left].
  - destruct (decide (i ∈ irqs)); [rewrite bool_decide_eq_false_2, bool_decide_eq_true_2|rewrite bool_decide_eq_true_2, bool_decide_eq_false_2]; tauto.
Qed.
End pics.

(** ** The I/O APIC *)

(** The register selected, and the registers. *)
Class IoApicDev (D : Type) `{!Mmio D} := {
  io_sel : D -> Z;
  io_reg : D -> Z -> Z;
  io_select r d : wp (wr32 IOAPIC r) (fun _ d' => io_sel d' = r /\ io_reg d' = io_reg d) d;
  io_write v d : REG_TABLE <= io_sel d -> wp (wr32 (IOAPIC + 16) v) (fun _ d' => io_sel d' = io_sel d /\ forall r, io_reg d' r = if r =? io_sel d then v else io_reg d r) d;
  io_read d : wp (rd32 (IOAPIC + 16)) (fun v d' => v = io_reg d (io_sel d) /\ io_sel d' = io_sel d /\ io_reg d' = io_reg d) d
}.

Section ioapic.
Context {D : Type} `{!Ports D, !Mmio D, !IoApicDev D}.
Implicit Types (s : devs D).

(** The redirection entry of interrupt [i]. *)
Definition route (d : D) (i : Z) : Z * Z := (io_reg d (REG_TABLE + 2 * i), io_reg d (REG_TABLE + 2 * i + 1)).
Definition maxintr (d : D) : Z := Z.land (Z.shiftr (io_reg d REG_VER) 16) 0xFF.
Definition disabled (i : Z) : Z * Z := (Z.lor INT_DISABLED (T_IRQ0 + i), 0).
Definition enabled (i cpu : Z) : Z * Z := (T_IRQ0 + i, u32 (Z.shiftl cpu 24)).

Lemma ioapicread_wp r s (Q : Z -> devs D -> Prop) :
  (forall d', io_reg d' = io_reg (dv_io s) -> Q (io_reg (dv_io s) r) (set_dv_io d' s)) -> wp (io (ioapicread r)) Q s.
Proof.
  intros HQ. apply wp_zoom. unfold ioapicread. apply wp_bind. eapply wp_mono; [apply io_select|]. intros _ d1 [Hs1 Hr1].
  eapply wp_mono; [apply io_read|]. intros v d2 (-> & _ & Hr2). rewrite Hs1, Hr1. apply HQ. congruence.
Qed.
Lemma ioapicwrite_wp r v s (Q : unit -> devs D -> Prop) : REG_TABLE <= r ->
  (forall d', (forall x, io_reg d' x = if x =? r then v else io_reg (dv_io s) x) -> Q tt (set_dv_io d' s)) -> wp (io (ioapicwrite r v)) Q s.
Proof.
  intros Hr HQ. apply wp_zoom. unfold ioapicwrite. apply wp_bind. eapply wp_mono; [apply io_select|]. intros _ d1 [Hs1 Hr1].
  eapply wp_mono; [apply io_write; by rewrite Hs1|]. intros [] d2 [_ Hr2]. apply HQ. intros x. by rewrite Hr2, Hs1, Hr1.
Qed.
(** Both halves of an entry are written. *)
Lemma entry_wp i lo hi s (Q : unit -> devs D -> Prop) : 0 <= i ->
  (forall d', (forall j, route d' j = if j =? i then (lo, hi) else route (dv_io s) j) -> io_reg d' REG_VER = io_reg (dv_io s) REG_VER -> Q tt (set_dv_io d' s)) ->
  wp (io (ioapicwrite (REG_TABLE + 2 * i) lo) ;;; io (ioapicwrite (REG_TABLE + 2 * i + 1) hi)) Q s.
Proof.
  intros Hi HQ. apply wp_bind, ioapicwrite_wp; [lia|]. intros d1 H1. apply ioapicwrite_wp; [lia|]. intros d2 H2. cbn [dv_io set_dv_io] in H2. apply (HQ d2).
  - intros j. unfold route. rewrite !H2, !H1. unfold REG_TABLE.
    destruct (Z.eqb_spec j i) as [->|]; rewrite ?Z.eqb_refl; repeat (rewrite (proj2 (Z.eqb_neq _ _)) by lia); done.
  - rewrite H2, H1. unfold REG_TABLE, REG_VER. by rewrite !(proj2 (Z.eqb_neq 1 _)) by lia.
Qed.
Lemma ioapicinit_wp s (Q : unit -> devs D -> Prop) : dv_ismp s = true ->
  (forall s', dv_ismp s' = true -> (forall j, 0 <= j <= maxintr (dv_io s) -> route (dv_io s') j = disabled j) -> Q tt s') -> wp ioapicinit Q s.
Proof.
  intros Hs HQ. unfold ioapicinit. apply wp_bind, wp_gets. rewrite Hs. cbn [negb].
  apply wp_bind, ioapicread_wp. intros d1 H1. apply wp_bind, ioapicread_wp. intros d2 H2. cbn [dv_io set_dv_io] in H2.
  fold (maxintr (dv_io s)). set (n := maxintr (dv_io s)) in *.
  eapply wp_mono; [apply (wp_for_each _ (fun v s' => dv_ismp s' = true /\ forall j, j ∈ v -> route (dv_io s') j = disabled j))|].
  - intros v i rest s' Hl [Hs' Hv]. assert (0 <= i) by (assert (i ∈ seqZ 0 (n + 1)) as Hi by (rewrite Hl; set_solver); apply elem_of_seqZ in Hi; lia).
    apply entry_wp; [done|]. intros d' Hd' _. split; [done|]. intros j Hj. cbn [dv_io set_dv_io]. rewrite Hd'.
    destruct (Z.eqb_spec j i) as [->|Hne]; [done|]. apply Hv. apply elem_of_app in Hj as [Hj|Hj]; [done|]. by apply list_elem_of_singleton in Hj.
  - split; [done|]. intros j Hj. by apply elem_of_nil in Hj.
  - intros [] s' [Hs' Hv]. apply HQ; [done|]. intros j Hj. apply Hv, elem_of_seqZ. lia.
Qed.
(** The entries once the pairs of [en] have been enabled, in this order. *)
Definition routed (en : list (Z * Z)) (j : Z) : Z * Z := foldl (fun r '(i, c) => if j =? i then enabled i c else r) (disabled j) en.

(** On a multiprocessor, once the I/O APIC is initialised and some interrupts are
    enabled, each for a processor, those are delivered to the processor named
    last for them, edge-triggered with vector [T_IRQ0 + irq], and every other
    interrupt of the controller is disabled. *)
Theorem ioapic_routes en s : dv_ismp s = true -> Forall (fun '(i, _) => 0 <= i <= maxintr (dv_io s)) en ->
  wp (ioapicinit ;;; for_each en (fun '(irq, cpu) => ioapicenable irq cpu))
    (fun _ s' => forall j, 0 <= j <= maxintr (dv_io s) -> route (dv_io s') j = routed en j) s.
Proof.
  intros Hs He. set (n := maxintr (dv_io s)) in *. apply wp_bind, ioapicinit_wp; [done|]. intros s1 Hs1 H1.
  eapply wp_mono; [apply (wp_for_each _ (fun v s' => dv_ismp s' = true /\ forall j, 0 <= j <= n -> route (dv_io s') j = routed v j))|].
  - intros v [i c] rest s' Hl [Hs' Hv]. assert (0 <= i) by (rewrite Hl in He; apply Forall_app in He as [_ He]; apply Forall_cons in He as [Hi _]; lia).
    unfold ioapicenable. apply wp_bind, wp_gets. rewrite Hs'. cbn [negb]. apply entry_wp; [done|]. intros d' Hd' _. split; [done|].
    intros j Hj. cbn [dv_io set_dv_io]. rewrite Hd'. unfold routed. rewrite foldl_snoc. destruct (Z.eqb_spec j i); [done|]. by apply Hv.
  - split; [done|]. apply H1.
  - by intros [] s' [_ Hv].
Qed.
End ioapic.

(** ** The clock *)

(** The MC146818: once a second it updates its registers, and while it does, bit
    [CMOS_UIP] of status A is set and what the other registers return is not
    defined.  [clock t r] is what register [r] shows after [t] updates; the format
    bits of status B are fixed.  Time is counted in accesses to the ports:
    [cm_left] is the number of accesses after which an update has ended at the
    latest, never more than [longest], or before which the next one does not
    begin.  Two updates are [calm] accesses apart at least, which are some
    microseconds of a second. *)
Definition calm : nat := 52.
Class Rtc (D : Type) `{!Ports D} := {
  clock : nat -> Z -> Z;
  statb : Z;
  longest : nat;
  cm_sel : D -> Z;
  now : D -> nat;
  updating : D -> bool;
  cm_left : D -> nat;
  (* what [n] accesses do *)
  span (n : nat) (d d' : D) : Prop :=
    if updating d then
      if updating d' then now d' = now d /\ (cm_left d' + n <= cm_left d)%nat
      else now d' = S (now d) /\ (calm <= cm_left d' + n)%nat
    else if updating d' then now d' = now d /\ (cm_left d < n)%nat
    else (now d' = now d /\ (cm_left d <= n + cm_left d')%nat) \/
         (now d' = S (now d) /\ (cm_left d < n)%nat /\ (calm <= cm_left d' + n)%nat);
  cm_longest d : updating d = true -> (cm_left d <= longest)%nat;
  cmos_select r d : wp (outb CMOS_PORT r) (fun _ d' => cm_sel d' = r /\ span 1 d d') d;
  cmos_in d : wp (inb CMOS_RETURN) (fun v d' => span 1 d d' /\
    (cm_sel d ∈ [0; 2; 4; 7; 8; 9] -> updating d = false -> v = clock (now d) (cm_sel d)) /\
    (cm_sel d = CMOS_STATA -> (Z.land v CMOS_UIP =? 0) = negb (updating d)) /\
    (cm_sel d = CMOS_STATB -> v = statb)) d
}.

Section rtc.
Context {D : Type} `{!Ports D, !Mmio D, !Rtc D}.
Implicit Types (s : devs D).

Abbreviation now_of s := (now (dv_io s)).
Abbreviation busy s := (updating (dv_io s)).
Abbreviation left s := (cm_left (dv_io s)).
(** [n] accesses between [s] and [s']. *)
Definition accesses (n : nat) s s' : Prop := span n (dv_io s) (dv_io s').
Lemma accesses_trans n m s1 s2 s3 : (n + m <= calm)%nat -> accesses n s1 s2 -> accesses m s2 s3 -> accesses (n + m) s1 s3.
Proof. unfold accesses, span. destruct (busy s1), (busy s2), (busy s3); lia. Qed.
Lemma accesses_refl s : accesses 0 s s.
Proof. unfold accesses, span. destruct (busy s); lia. Qed.
Lemma accesses_now n s s' : accesses n s s' -> (now_of s <= now_of s')%nat.
Proof. unfold accesses, span. destruct (busy s), (busy s'); lia. Qed.
(** There was no update from [s] to [s']. *)
Definition undisturbed s s' : Prop := busy s = false /\ busy s' = false /\ now_of s' = now_of s.
Lemma undisturbed_part n m o s1 s2 s3 s4 : (n + m + o <= calm)%nat -> accesses n s1 s2 -> accesses m s2 s3 -> accesses o s3 s4 ->
  undisturbed s1 s4 -> undisturbed s2 s3 /\ now_of s2 = now_of s1.
Proof. unfold accesses, span, undisturbed. intros Hc H1 H2 H3 (E1 & E4 & E). rewrite E1, E4 in *. destruct (busy s2), (busy s3); lia. Qed.
(** An update has ended, so that the next one is not near. *)
Lemma settled n m s1 s2 s3 : (n + m <= calm)%nat -> accesses n s1 s2 -> accesses m s2 s3 -> busy s2 = false -> ~ undisturbed s1 s2 ->
  undisturbed s2 s3.
Proof. unfold accesses, span, undisturbed. intros Hc H1 H2 E2 Hn. rewrite E2 in *. destruct (busy s1), (busy s3); lia. Qed.

(** A read of register [r], in state [sm]. *)
Lemma cmos_read_wp r s (Q : Z -> devs D -> Prop) :
  (forall v sm s', accesses 1 s sm -> accesses 1 sm s' ->
     (r ∈ [0; 2; 4; 7; 8; 9] -> busy sm = false -> v = clock (now_of sm) r) ->
     (r = CMOS_STATA -> (Z.land v CMOS_UIP =? 0) = negb (busy sm)) -> (r = CMOS_STATB -> v = statb) -> Q v s') ->
  wp (cmos_read r) Q s.
Proof.
  intros HQ. unfold cmos_read, microdelay. apply wp_bind, wp_zoom. eapply wp_mono; [apply cmos_select|]. intros [] d1 [Hs1 Hn1].
  apply wp_bind, wp_ret, wp_zoom. eapply wp_mono; [apply cmos_in|]. intros v d2 (Hn2 & Hc & Ha & Hb). cbn [dv_io set_dv_io] in *. rewrite Hs1 in *.
  by apply (HQ v (set_dv_io d1 s)).
Qed.
(** A field of the date, the [n] accesses before it and the [m] after it. *)
Lemma field_wp r s0 s n m (Q : Z -> devs D -> Prop) : r ∈ [0; 2; 4; 7; 8; 9] -> (n + 2 + m <= calm)%nat -> accesses n s0 s ->
  (forall v s', accesses (n + 2) s0 s' -> accesses 2 s s' ->
     (forall s1, accesses m s' s1 -> undisturbed s0 s1 -> v = clock (now_of s0) r) -> Q v s') ->
  wp (cmos_read r) Q s.
Proof.
  intros Hr Hc Hn HQ. apply cmos_read_wp. intros v sm s' H1 H2 Hv _ _. assert (H01 : accesses (n + 1) s0 sm) by (eapply accesses_trans; [lia|done..]).
  apply HQ; [replace (n + 2)%nat with (n + 1 + 1)%nat by lia; eapply accesses_trans; [lia|done..]|by apply (accesses_trans 1 1 _ sm); [unfold calm; lia|..]|].
  intros s1 H3 Hu. destruct (undisturbed_part (n + 1) 1 m s0 sm s' s1) as [(Hb & _) <-]; [lia|done..|]. by apply Hv.
Qed.
(** The registers after [t] updates. *)
Definition date_at (t : nat) : rtcdate := mkdate (clock t 0) (clock t 2) (clock t 4) (clock t 7) (clock t 8) (clock t 9).
(** The fields are the date that the clock shows, unless it is updated meanwhile. *)
Lemma fill_wp s (Q : rtcdate -> devs D -> Prop) :
  (forall t s', accesses 12 s s' -> (undisturbed s s' -> t = date_at (now_of s)) -> Q t s') -> wp fill_rtcdate Q s.
Proof.
  intros HQ. pose proof (accesses_refl s) as H0. unfold fill_rtcdate.
  apply wp_bind, (field_wp _ s s 0 10); [set_solver|unfold calm; lia|done|]. intros v1 s1 P1 B1 H1.
  apply wp_bind, (field_wp _ s s1 2 8); [set_solver|unfold calm; lia|done|]. intros v2 s2 P2 B2 H2.
  apply wp_bind, (field_wp _ s s2 4 6); [set_solver|unfold calm; lia|done|]. intros v3 s3 P3 B3 H3.
  apply wp_bind, (field_wp _ s s3 6 4); [set_solver|unfold calm; lia|done|]. intros v4 s4 P4 B4 H4.
  apply wp_bind, (field_wp _ s s4 8 2); [set_solver|unfold calm; lia|done|]. intros v5 s5 P5 B5 H5.
  apply wp_bind, (field_wp _ s s5 10 0); [set_solver|unfold calm; lia|done|]. intros v6 s6 P6 B6 H6.
  assert (C4 : accesses 4 s4 s6) by (by apply (accesses_trans 2 2 _ s5); [unfold calm; lia|..]).
  assert (C3 : accesses 6 s3 s6) by (by apply (accesses_trans 2 4 _ s4); [unfold calm; lia|..]).
  assert (C2 : accesses 8 s2 s6) by (by apply (accesses_trans 2 6 _ s3); [unfold calm; lia|..]).
  assert (C1 : accesses 10 s1 s6) by (by apply (accesses_trans 2 8 _ s2); [unfold calm; lia|..]).
  pose proof (accesses_refl s6) as C6.
  apply wp_ret, HQ; [done|]. intros Hu. unfold date_at.
  by rewrite (H1 s6), (H2 s6), (H3 s6), (H4 s6), (H5 s6), (H6 s6).
Qed.

(** The date that the registers stand for. *)
Definition decode_date (b : Z) (t : rtcdate) : rtcdate :=
  let f := if Z.land b 4 =? 0 then conv else fun x => x in
  mkdate (f (second t)) (f (minute t)) (f (hour t)) (f (day t)) (f (month t)) (f (year t) + 2000).

(** The turns of the loop from state [s] on, at most. *)
Definition turns s : nat := if busy s then S (left s) else if decide (26 <= left s)%nat then 0 else S (S longest).
Lemma turns_le s : (turns s <= S (S longest))%nat.
Proof. unfold turns. destruct (busy s) eqn:E; [pose proof (cm_longest _ E); lia|]. case_decide; lia. Qed.
Lemma turns_less n s s' : (0 < n <= 26)%nat -> accesses n s s' -> ~ undisturbed s s' -> (turns s' < turns s)%nat.
Proof.
  unfold accesses, span, turns, undisturbed. intros Hn. destruct (busy s), (busy s') eqn:E; repeat case_decide; unfold calm in *; try lia.
  pose proof (cm_longest _ E). lia.
Qed.

(** C38. [cmostime] returns, and the date it returns is one that the clock showed at
    some moment of the call, never a mixture of two or what the registers return
    during an update; the loop takes at most two turns more than there are
    accesses in an update. *)
Theorem cmostime_spec polls s : (longest + 2 < polls)%nat ->
  wp (cmostime polls) (fun t s' => exists k, (now_of s <= k <= now_of s')%nat /\ t = decode_date statb (date_at k)) s.
Proof.
  intros Hf. unfold cmostime. apply wp_bind, cmos_read_wp. intros sb sm s0 P0 P0' _ _ Hb. rewrite (Hb eq_refl). clear Hb. apply wp_bind.
  pose proof (accesses_now _ _ _ P0). pose proof (accesses_now _ _ _ P0').
  apply (wp_loop _ (fun n _ s' => (now_of s <= now_of s')%nat /\ (turns s' <= n)%nat)) with (n := turns s0);
    [|pose proof (turns_le s0); lia|split; lia].
  clear Hf. intros n _ s1 (Hn1 & Hl1). apply wp_bind, fill_wp. intros ta s2 P2 H2.
  apply wp_bind, cmos_read_wp. intros st s3 s4 P3 P4 _ Hst _. rewrite (Hst eq_refl). clear Hst.
  assert (P13 : accesses 13 s1 s3) by (by apply (accesses_trans 12 1 _ s2); [unfold calm; lia|..]).
  assert (P14 : accesses 14 s1 s4) by (by apply (accesses_trans 13 1 _ s3); [unfold calm; lia|..]).
  pose proof (accesses_now _ _ _ P14). destruct (busy s3) eqn:Hb3; cbn [negb].
  { apply wp_ret. exists (turns s4). split; [|split; lia]. apply (Nat.lt_le_trans _ (turns s1)); [|done]. apply (turns_less 14); [lia|done|].
    intros Hu. destruct (undisturbed_part 13 0 1 s1 s3 s3 s4) as [(? & _) _]; [unfold calm; lia|done|apply accesses_refl|done..|congruence]. }
  apply wp_bind, fill_wp. intros tb s5 P5 H5. pose proof (accesses_now _ _ _ P5).
  assert (P35 : accesses 13 s3 s5) by (by apply (accesses_trans 1 12 _ s4); [unfold calm; lia|..]).
  assert (P15 : accesses 26 s1 s5) by (by apply (accesses_trans 13 13 _ s3); [unfold calm; lia|..]).
  case_bool_decide as He.
  - apply wp_ret, wp_ret. unfold decode_date. change (Z.shiftl 1 2) with 4.
    assert (Hk : exists k, (now_of s <= k <= now_of s5)%nat /\ ta = date_at k).
    { destruct (decide (undisturbed s1 s3)) as [Hu|Hd].
      - destruct (undisturbed_part 0 12 1 s1 s1 s2 s3) as [Hu2 _]; [unfold calm; lia|apply accesses_refl|done..|].
        exists (now_of s1). split; [lia|by apply H2].
      - destruct (undisturbed_part 1 12 0 s3 s4 s5 s5) as [Hu5 Hn4]; [unfold calm; lia|done|done|apply accesses_refl|by apply (settled 13 13 s1); [unfold calm; lia|..]|].
        exists (now_of s4). split; [lia|]. rewrite He. by apply H5. }
    destruct Hk as (k & Hk & ->). exists k. split; [done|]. by destruct (Z.land statb 4 =? 0).
  - apply wp_ret. exists (turns s5). split; [|split; lia]. apply (Nat.lt_le_trans _ (turns s1)); [|done]. apply (turns_less 26); [lia|done|].
    intros Hu. apply He. destruct (undisturbed_part 0 12 14 s1 s1 s2 s5) as [Hu2 _]; [unfold calm; lia|apply accesses_refl|done| |done|].
    { apply (accesses_trans 2 12 _ s4); [unfold calm; lia| |done]. by apply (accesses_trans 1 1 _ s3); [unfold calm; lia|..]. }
    destruct (undisturbed_part 14 12 0 s1 s4 s5 s5) as [Hu5 Hn4]; [unfold calm; lia|done|done|apply accesses_refl|done|].
    by rewrite (H2 Hu2), (H5 Hu5), Hn4.
Qed.
End rtc.

(** ** Machines *)

#[global] Instance pic_ports : Ports (pic * pic) := { inb _ := ret 0; outb p v := modify (pic_write p v); insl _ _ := ret []; outsl _ _ := ret tt }.
#[global] Instance pic_pics : Pics (pic * pic) := { pics := id; pics_out p v d H := eq_refl }.
Definition demo_pics : devs (pic * pic) := mkdevs irqmask0 false false 0 (mkpic 0 8 0, mkpic 0 0x70 0).
Lemma pic_masks_witness : wp (picinit ;;; for_each [IRQ_KBD; IRQ_IDE] picenable)
  (fun _ s' => let_through (pics (dv_io s')) IRQ_IDE = true /\ let_through (pics (dv_io s')) IRQ_COM1 = false) demo_pics.
Proof.
  eapply wp_mono; [apply (pic_masks [IRQ_KBD; IRQ_IDE] demo_pics)|].
  - reflexivity.
  - reflexivity.
  - reflexivity.
  - repeat constructor; unfold IRQ_KBD, IRQ_IDE; lia.
  - intros [] s' (_ & _ & _ & _ & H). split; rewrite H by (unfold IRQ_IDE, IRQ_COM1; lia); vm_compute; reflexivity.
Defined.

(** An I/O APIC with 24 interrupts. *)
#[global] Instance io_mmio : Mmio (Z * (Z -> Z)) := {
  rd32 a := d <-- get ;; ret (snd d (fst d));
  wr32 a v := if a =? IOAPIC then modify (fun d => (v, snd d)) else modify (fun d => (fst d, fun r => if r =? fst d then v else snd d r));
  wr16 _ _ := ret tt
}.
#[global] Instance io_dev : IoApicDev (Z * (Z -> Z)).
Proof.
  apply (Build_IoApicDev _ _ fst snd).
  - intros r d. by split.
  - intros v d _. by split.
  - intros d. by split_and!.
Defined.
Definition demo_ioapic : devs (Z * (Z -> Z)) := mkdevs irqmask0 false true 0 (0, fun r => if r =? REG_VER then 0x170011 else 0).
Lemma ioapic_routes_witness : wp (ioapicinit ;;; for_each [(IRQ_IDE, 1); (IRQ_KBD, 0)] (fun '(irq, cpu) => ioapicenable irq cpu))
  (fun _ s' => route (dv_io s') IRQ_IDE = (46, 0x1000000) /\ route (dv_io s') 23 = (0x10037, 0)) demo_ioapic.
Proof.
  eapply wp_mono; [apply (ioapic_routes [(IRQ_IDE, 1); (IRQ_KBD, 0)] demo_ioapic)|].
  - reflexivity.
  - repeat constructor; vm_compute; discriminate.
  - intros [] s' H. split; rewrite H by (vm_compute; split; discriminate); vm_compute; reflexivity.
Defined.

(** A clock whose updates take 41 accesses to the ports, with 60 accesses between
    them; during an update the registers read 0xFF. *)
Record rtcsim := mkrtc { r_sel : Z; r_count : Z }.
Definition bcd_of (x : Z) : Z := x / 10 * 16 + x mod 10.
Definition rtc_clock (t : nat) (r : Z) : Z := if r =? 0 then bcd_of (Z.of_nat t mod 60) else if r =? 2 then bcd_of (Z.of_nat t / 60 mod 60) else 1.
Definition r_now (d : rtcsim) : nat := Z.to_nat (Z.abs (r_count d) / 101).
Definition r_up (d : rtcsim) : bool := 60 <=? Z.abs (r_count d) mod 101.
Definition r_left (d : rtcsim) : nat := Z.to_nat ((if r_up d then 100 else 59) - Z.abs (r_count d) mod 101).
Definition rtc_step (d : rtcsim) : rtcsim := mkrtc (r_sel d) (Z.abs (r_count d) + 1).
Definition rtc_in (d : rtcsim) : Z :=
  if r_sel d =? CMOS_STATA then (if r_up d then 0x80 else 0) else if r_sel d =? CMOS_STATB then 2
  else if r_up d then 0xFF else rtc_clock (r_now d) (r_sel d).
#[global] Instance rtc_ports : Ports rtcsim := {
  inb _ := d <-- get ;; modify rtc_step ;;; ret (rtc_in d);
  outb _ v := modify (fun d => rtc_step (mkrtc v (r_count d)));
  insl _ _ := ret [];
  outsl _ _ := ret tt
}.
#[global] Instance rtc_rtc : Rtc rtcsim.
Proof.
  assert (Hstep : forall c, let d := mkrtc 0 c in let d' := mkrtc 0 (Z.abs c + 1) in
    if r_up d then if r_up d' then r_now d' = r_now d /\ (r_left d' + 1 <= r_left d)%nat else r_now d' = S (r_now d) /\ (calm <= r_left d' + 1)%nat
    else if r_up d' then r_now d' = r_now d /\ (r_left d < 1)%nat
    else (r_now d' = r_now d /\ (r_left d <= 1 + r_left d')%nat) \/ (r_now d' = S (r_now d) /\ (r_left d < 1)%nat /\ (calm <= r_left d' + 1)%nat)).
  { intros c d d'. unfold d, d', r_left, r_now, r_up, calm. cbn [r_count]. rewrite (Z.abs_eq (Z.abs c + 1)) by lia.
    pose proof (Z.abs_nonneg c). destruct (Z.leb_spec 60 (Z.abs c mod 101)), (Z.leb_spec 60 ((Z.abs c + 1) mod 101)); zlia. }
  apply (Build_Rtc _ _ rtc_clock 2 40 r_sel r_now r_up r_left).
  - intros d Hd. unfold r_left. rewrite Hd. unfold r_up in Hd. zlia.
  - intros r [q c]. split; [done|]. exact (Hstep c).
  - intros [q c]. split; [exact (Hstep c)|]. unfold rtc_in. cbn [r_sel]. split_and!.
    + intros Hq ->. rewrite (proj2 (Z.eqb_neq q CMOS_STATA)), (proj2 (Z.eqb_neq q CMOS_STATB)); [done| |]; intros ->; revert Hq; rewrite !elem_of_cons, elem_of_nil; unfold CMOS_STATA, CMOS_STATB; lia.
    + intros ->. by destruct (r_up _).
    + by intros ->.
Defined.
(** The update from 0:59 to 1:00 begins while the registers are read. *)
Definition demo_rtc : devs rtcsim := mkdevs irqmask0 false false 0 (mkrtc 0 (101 * 59 + 55)).
Lemma cmostime_spec_witness : wp (cmostime 43) (fun t s' => exists k, (59 <= k)%nat /\ t = decode_date 2 (date_at k)) demo_rtc.
Proof.
  eapply wp_mono; [apply (cmostime_spec 43 demo_rtc)|].
  - cbn. lia.
  - intros t s' (k & Hk & ->). exists k. split; [apply Hk|reflexivity].
Defined.
