(* ===== verification/Tests.v ===== *)
(** * usertests.c: the tests of the file system

    The tests that run in one process, as interaction trees.  Each takes the
    contents of the global [buf] and returns what it leaves there. *)

From ITree Require Import ITree.
From S2P Require Import Prelude Params Strings Ulib Layout Fs User.
Open Scope user_scope.

(** A line of text, and [if(bad){ printf(1, msg); exit(); }]. *)
Definition ln (s : string) : list Z := str s ++ [10].
Definition fail_if (bad : bool) (msg : list Z) : prog unit := if bad then fprintf 1 msg [] ;~ exit else Ret tt.
Definition say (s : string) : prog unit := fprintf 1 (ln s) [].
Definition open_ (path : string) (mode : Z) : prog Z := trigger (Open (str path) mode).
Definition close_ (fd : Z) : prog Z := trigger (Close fd).
Definition write_ (fd : Z) (s : string) : prog Z := trigger (Write fd (str s)).
Definition mkdir_ (path : string) : prog Z := trigger (Mkdir (str path)).
Definition chdir_ (path : string) : prog Z := trigger (Chdir (str path)).
Definition unlink_ (path : string) : prog Z := trigger (Unlink (str path)).
Definition link_ (old new : string) : prog Z := trigger (Link (str old) (str new)).
(** [read(fd, buf, n)] *)
Definition read_ (fd n : Z) (buf : list Z) : prog (Z * list Z) := r <~ trigger (Read fd n) ;; Ret (fst r, splice 0 (snd r) buf).
Definition CREATE_RDWR : Z := Z.lor O_CREATE O_RDWR.

Definition iputtest (buf : list Z) : prog (list Z) :=
  say "iput test" ;~
  r <~ mkdir_ "iputdir" ;; fail_if (r <? 0) (ln "mkdir failed") ;~
  r <~ chdir_ "iputdir" ;; fail_if (r <? 0) (ln "chdir iputdir failed") ;~
  r <~ unlink_ "../iputdir" ;; fail_if (r <? 0) (ln "unlink ../iputdir failed") ;~
  r <~ chdir_ "/" ;; fail_if (r <? 0) (ln "chdir / failed") ;~
  say "iput test ok" ;~
  Ret buf.

Definition opentest (buf : list Z) : prog (list Z) :=
  say "open test" ;~
  fd <~ open_ "echo" 0 ;; fail_if (fd <? 0) (ln "open echo failed!") ;~
  close_ fd ;~
  fd <~ open_ "doesnotexist" 0 ;; fail_if (0 <=? fd) (ln "open doesnotexist succeeded!") ;~
  say "open test ok" ;~
  Ret buf.

(** The body of the loop of [writetest]. *)
Definition writetest_step (fd i : Z) : prog unit :=
  r <~ write_ fd "aaaaaaaaaa" ;;
  (if negb (r =? 10) then fprintf 1 (ln "error: write aa %d new file failed") [Num i] ;~ exit else Ret tt) ;~
  r <~ write_ fd "bbbbbbbbbb" ;;
  if negb (r =? 10) then fprintf 1 (ln "error: write bb %d new file failed") [Num i] ;~ exit else Ret tt.
Definition writetest (buf : list Z) : prog (list Z) :=
  say "small file test" ;~
  fd <~ open_ "small" CREATE_RDWR ;;
  (if 0 <=? fd then say "creat small succeeded; ok" else say "error: creat small failed!" ;~ exit) ;~
  for_args (seqZ 0 100) (writetest_step fd) ;~
  say "writes ok" ;~
  close_ fd ;~
  fd <~ open_ "small" O_RDONLY ;;
  (if 0 <=? fd then say "open small succeeded ok" else say "error: open small failed!" ;~ exit) ;~
  rb <~ read_ fd 2000 buf ;;
  let '(i, buf) := (rb : Z * list Z) in
  (if i =? 2000 then say "read succeeded ok" else say "read failed" ;~ exit) ;~
  close_ fd ;~
  r <~ unlink_ "small" ;; fail_if (r <? 0) (ln "unlink small failed") ;~
  say "small file test ok" ;~
  Ret buf.

(** The first word of [buf] as an [int]. *)
Definition int0 (buf : list Z) : Z := i32 (le_value (take 4 buf)).
(** The loop of [writetest1] that writes, with [n] blocks left, at [i]. *)
Fixpoint writetest1_write (fd : Z) (n : nat) (i : Z) (buf : list Z) : prog (list Z) :=
  match n with
  | O => Ret buf
  | S n' =>
      let buf := splice 0 (le_bytes 4 i) buf in
      r <~ trigger (Write fd (take 512 buf)) ;;
      fail_if (negb (r =? 512)) (ln "error: write big file failed") ;~
      writetest1_write fd n' (i + 1) buf
  end.
Definition writetest1_read (fd : Z) (st : Z * list Z) : prog ((Z * list Z) + list Z) :=
  let '(n, buf) := st in
  rb <~ read_ fd 512 buf ;;
  let '(i, buf) := (rb : Z * list Z) in
  if i =? 0 then
    (if n =? MAXFILE - 1 then fprintf 1 (str "read only %d blocks from big") [Num n] ;~ exit else Ret tt) ;~
    Ret (inr buf)
  else
    (if negb (i =? 512) then fprintf 1 (ln "read failed %d") [Num i] ;~ exit else Ret tt) ;~
    (if negb (int0 buf =? n) then fprintf 1 (ln "read content of block %d is %d") [Num n; Num (int0 buf)] ;~ exit else Ret tt) ;~
    Ret (inl (n + 1, buf)).
Definition writetest1 (buf : list Z) : prog (list Z) :=
  say "big files test" ;~
  fd <~ open_ "big" CREATE_RDWR ;; fail_if (fd <? 0) (ln "error: creat big failed!") ;~
  buf <~ writetest1_write fd (Z.to_nat MAXFILE) 0 buf ;;
  close_ fd ;~
  fd <~ open_ "big" O_RDONLY ;; fail_if (fd <? 0) (ln "error: open big failed!") ;~
  buf <~ ITree.iter (writetest1_read fd) (0, buf) ;;
  close_ fd ;~
  r <~ unlink_ "big" ;; fail_if (r <? 0) (ln "unlink big failed") ;~
  say "big files ok" ;~
  Ret buf.

(** [name] of [createtest] *)
Definition create_name (i : Z) : list Z := [97; 48 + i].
Definition createtest (buf : list Z) : prog (list Z) :=
  say "many creates, followed by unlink test" ;~
  for_args (seqZ 0 52) (fun i => fd <~ trigger (Open (create_name i) CREATE_RDWR) ;; close_ fd ;~ Ret tt) ;~
  for_args (seqZ 0 52) (fun i => trigger (Unlink (create_name i)) ;~ Ret tt) ;~
  say "many creates, followed by unlink; ok" ;~
  Ret buf.

Definition dirtest (buf : list Z) : prog (list Z) :=
  say "mkdir test" ;~
  r <~ mkdir_ "dir0" ;; fail_if (r <? 0) (ln "mkdir failed") ;~
  r <~ chdir_ "dir0" ;; fail_if (r <? 0) (ln "chdir dir0 failed") ;~
  r <~ chdir_ ".." ;; fail_if (r <? 0) (ln "chdir .. failed") ;~
  r <~ unlink_ "dir0" ;; fail_if (r <? 0) (ln "unlink dir0 failed") ;~
  say "mkdir test ok" ;~
  Ret buf.

Definition unlinkread (buf : list Z) : prog (list Z) :=
  say "unlinkread test" ;~
  fd <~ open_ "unlinkread" CREATE_RDWR ;; fail_if (fd <? 0) (ln "create unlinkread failed") ;~
  write_ fd "hello" ;~
  close_ fd ;~
  fd <~ open_ "unlinkread" O_RDWR ;; fail_if (fd <? 0) (ln "open unlinkread failed") ;~
  r <~ unlink_ "unlinkread" ;; fail_if (negb (r =? 0)) (ln "unlink unlinkread failed") ;~
  fd1 <~ open_ "unlinkread" CREATE_RDWR ;;
  write_ fd1 "yyy" ;~
  close_ fd1 ;~
  rb <~ read_ fd 8192 buf ;;
  let '(n, buf) := (rb : Z * list Z) in
  fail_if (negb (n =? 5)) (str "unlinkread read failed") ;~
  fail_if (negb (nth 0 buf 0 =? 104)) (ln "unlinkread wrong data") ;~
  r <~ trigger (Write fd (take 10 buf)) ;; fail_if (negb (r =? 10)) (ln "unlinkread write failed") ;~
  close_ fd ;~
  unlink_ "unlinkread" ;~
  say "unlinkread ok" ;~
  Ret buf.

Definition linktest (buf : list Z) : prog (list Z) :=
  say "linktest" ;~
  unlink_ "lf1" ;~
  unlink_ "lf2" ;~
  fd <~ open_ "lf1" CREATE_RDWR ;; fail_if (fd <? 0) (ln "create lf1 failed") ;~
  r <~ write_ fd "hello" ;; fail_if (negb (r =? 5)) (ln "write lf1 failed") ;~
  close_ fd ;~
  r <~ link_ "lf1" "lf2" ;; fail_if (r <? 0) (ln "link lf1 lf2 failed") ;~
  unlink_ "lf1" ;~
  r <~ open_ "lf1" 0 ;; fail_if (0 <=? r) (ln "unlinked lf1 but it is still there!") ;~
  fd <~ open_ "lf2" 0 ;; fail_if (fd <? 0) (ln "open lf2 failed") ;~
  rb <~ read_ fd 8192 buf ;;
  let '(n, buf) := (rb : Z * list Z) in
  fail_if (negb (n =? 5)) (ln "read lf2 failed") ;~
  close_ fd ;~
  r <~ link_ "lf2" "lf2" ;; fail_if (0 <=? r) (ln "link lf2 lf2 succeeded! oops") ;~
  unlink_ "lf2" ;~
  r <~ link_ "lf2" "lf1" ;; fail_if (0 <=? r) (ln "link non-existant succeeded! oops") ;~
  r <~ link_ "." "lf1" ;; fail_if (0 <=? r) (ln "link . lf1 succeeded! oops") ;~
  say "linktest ok" ;~
  Ret buf.

Definition bigdir_name (i : Z) : list Z := [120; 48 + i / 64; 48 + i mod 64].
Definition bigdir (buf : list Z) : prog (list Z) :=
  say "bigdir test" ;~
  unlink_ "bd" ;~
  fd <~ open_ "bd" O_CREATE ;; fail_if (fd <? 0) (ln "bigdir create failed") ;~
  close_ fd ;~
  for_args (seqZ 0 500) (fun i => r <~ trigger (Link (str "bd") (bigdir_name i)) ;; fail_if (negb (r =? 0)) (ln "bigdir link failed")) ;~
  unlink_ "bd" ;~
  for_args (seqZ 0 500) (fun i => r <~ trigger (Unlink (bigdir_name i)) ;; fail_if (negb (r =? 0)) (str "bigdir unlink failed")) ;~
  say "bigdir ok" ;~
  Ret buf.

(** The first half of [subdir], up to the first [chdir]. *)
Definition subdir_make (buf : list Z) : prog (list Z) :=
  say "subdir test" ;~
  unlink_ "ff" ;~
  r <~ mkdir_ "dd" ;; fail_if (negb (r =? 0)) (ln "subdir mkdir dd failed") ;~
  fd <~ open_ "dd/ff" CREATE_RDWR ;; fail_if (fd <? 0) (ln "create dd/ff failed") ;~
  write_ fd "ff" ;~
  close_ fd ;~
  r <~ unlink_ "dd" ;; fail_if (0 <=? r) (ln "unlink dd (non-empty dir) succeeded!") ;~
  r <~ mkdir_ "/dd/dd" ;; fail_if (negb (r =? 0)) (ln "subdir mkdir dd/dd failed") ;~
  fd <~ open_ "dd/dd/ff" CREATE_RDWR ;; fail_if (fd <? 0) (ln "create dd/dd/ff failed") ;~
  write_ fd "FF" ;~
  close_ fd ;~
  fd <~ open_ "dd/dd/../ff" 0 ;; fail_if (fd <? 0) (ln "open dd/dd/../ff failed") ;~
  rb <~ read_ fd 8192 buf ;;
  let '(cc, buf) := (rb : Z * list Z) in
  fail_if (negb (cc =? 2) || negb (nth 0 buf 0 =? 102)) (ln "dd/dd/../ff wrong content") ;~
  close_ fd ;~
  r <~ link_ "dd/dd/ff" "dd/dd/ffff" ;; fail_if (negb (r =? 0)) (ln "link dd/dd/ff dd/dd/ffff failed") ;~
  r <~ unlink_ "dd/dd/ff" ;; fail_if (negb (r =? 0)) (ln "unlink dd/dd/ff failed") ;~
  r <~ open_ "dd/dd/ff" O_RDONLY ;; fail_if (0 <=? r) (ln "open (unlinked) dd/dd/ff succeeded") ;~
  Ret buf.
Definition subdir_refuse : prog unit :=
  r <~ open_ "dd/dd/ff" O_RDONLY ;; fail_if (0 <=? r) (ln "open (unlinked) dd/dd/ff succeeded!") ;~
  r <~ open_ "dd/ff/ff" CREATE_RDWR ;; fail_if (0 <=? r) (ln "create dd/ff/ff succeeded!") ;~
  r <~ open_ "dd/xx/ff" CREATE_RDWR ;; fail_if (0 <=? r) (ln "create dd/xx/ff succeeded!") ;~
  r <~ open_ "dd" O_CREATE ;; fail_if (0 <=? r) (ln "create dd succeeded!") ;~
  r <~ open_ "dd" O_RDWR ;; fail_if (0 <=? r) (ln "open dd rdwr succeeded!") ;~
  r <~ open_ "dd" O_WRONLY ;; fail_if (0 <=? r) (ln "open dd wronly succeeded!") ;~
  r <~ link_ "dd/ff/ff" "dd/dd/xx" ;; fail_if (r =? 0) (ln "link dd/ff/ff dd/dd/xx succeeded!") ;~
  r <~ link_ "dd/xx/ff" "dd/dd/xx" ;; fail_if (r =? 0) (ln "link dd/xx/ff dd/dd/xx succeeded!") ;~
  r <~ link_ "dd/ff" "dd/dd/ffff" ;; fail_if (r =? 0) (ln "link dd/ff dd/dd/ffff succeeded!") ;~
  r <~ mkdir_ "dd/ff/ff" ;; fail_if (r =? 0) (ln "mkdir dd/ff/ff succeeded!") ;~
  r <~ mkdir_ "dd/xx/ff" ;; fail_if (r =? 0) (ln "mkdir dd/xx/ff succeeded!") ;~
  r <~ mkdir_ "dd/dd/ffff" ;; fail_if (r =? 0) (ln "mkdir dd/dd/ffff succeeded!") ;~
  r <~ unlink_ "dd/xx/ff" ;; fail_if (r =? 0) (ln "unlink dd/xx/ff succeeded!") ;~
  r <~ unlink_ "dd/ff/ff" ;; fail_if (r =? 0) (ln "unlink dd/ff/ff succeeded!") ;~
  r <~ chdir_ "dd/ff" ;; fail_if (r =? 0) (ln "chdir dd/ff succeeded!") ;~
  r <~ chdir_ "dd/xx" ;; fail_if (r =? 0) (ln "chdir dd/xx succeeded!").
Definition subdir (buf : list Z) : prog (list Z) :=
  buf <~ subdir_make buf ;;
  r <~ chdir_ "dd" ;; fail_if (negb (r =? 0)) (ln "chdir dd failed") ;~
  r <~ chdir_ "dd/../../dd" ;; fail_if (negb (r =? 0)) (ln "chdir dd/../../dd failed") ;~
  r <~ chdir_ "dd/../../../dd" ;; fail_if (negb (r =? 0)) (ln "chdir dd/../../dd failed") ;~
  r <~ chdir_ "./.." ;; fail_if (negb (r =? 0)) (ln "chdir ./.. failed") ;~
  fd <~ open_ "dd/dd/ffff" 0 ;; fail_if (fd <? 0) (ln "open dd/dd/ffff failed") ;~
  rb <~ read_ fd 8192 buf ;;
  let '(n, buf) := (rb : Z * list Z) in
  fail_if (negb (n =? 2)) (ln "read dd/dd/ffff wrong len") ;~
  close_ fd ;~
  subdir_refuse ;~
  r <~ unlink_ "dd/dd/ffff" ;; fail_if (negb (r =? 0)) (ln "unlink dd/dd/ff failed") ;~
  r <~ unlink_ "dd/ff" ;; fail_if (negb (r =? 0)) (ln "unlink dd/ff failed") ;~
  r <~ unlink_ "dd" ;; fail_if (r =? 0) (ln "unlink non-empty dd succeeded!") ;~
  r <~ unlink_ "dd/dd" ;; fail_if (r <? 0) (ln "unlink dd/dd failed") ;~
  r <~ unlink_ "dd" ;; fail_if (r <? 0) (ln "unlink dd failed") ;~
  say "subdir ok" ;~
  Ret buf.

(** The sizes of [for(sz = 499; sz < 12*512; sz += 471)], and the body. *)
Definition bigwrite_sizes : list Z := map (fun i => 499 + 471 * i) (seqZ 0 12).
Definition bigwrite_step (buf : list Z) (sz : Z) : prog unit :=
  fd <~ open_ "bigwrite" CREATE_RDWR ;; fail_if (fd <? 0) (ln "cannot create bigwrite") ;~
  for_args (seqZ 0 2) (fun _ =>
    cc <~ trigger (Write fd (take (Z.to_nat sz) buf)) ;;
    if negb (cc =? sz) then fprintf 1 (ln "write(%d) ret %d") [Num sz; Num cc] ;~ exit else Ret tt) ;~
  close_ fd ;~
  unlink_ "bigwrite" ;~
  Ret tt.
Definition bigwrite (buf : list Z) : prog (list Z) :=
  say "bigwrite test" ;~
  unlink_ "bigwrite" ;~
  for_args bigwrite_sizes (bigwrite_step buf) ;~
  say "bigwrite ok" ;~
  Ret buf.

(** The loop of [bigfile] that writes, with [n] turns left, at [i]. *)
Fixpoint bigfile_write (fd : Z) (n : nat) (i : Z) (buf : list Z) : prog (list Z) :=
  match n with
  | O => Ret buf
  | S n' =>
      let buf := splice 0 (replicate 600 (u8 i)) buf in
      r <~ trigger (Write fd (take 600 buf)) ;;
      fail_if (negb (r =? 600)) (ln "write bigfile failed") ;~
      bigfile_write fd n' (i + 1) buf
  end.
Definition bigfile_read (fd : Z) (st : Z * Z * list Z) : prog ((Z * Z * list Z) + (Z * list Z)) :=
  let '(i, total, buf) := st in
  rb <~ read_ fd 300 buf ;;
  let '(cc, buf) := (rb : Z * list Z) in
  fail_if (cc <? 0) (ln "read bigfile failed") ;~
  if cc =? 0 then Ret (inr (total, buf))
  else
    fail_if (negb (cc =? 300)) (ln "short read bigfile") ;~
    fail_if (negb (i8 (nth 0 buf 0) =? i / 2) || negb (i8 (nth 299 buf 0) =? i / 2)) (ln "read bigfile wrong data") ;~
    Ret (inl (i + 1, total + cc, buf)).
Definition bigfile (buf : list Z) : prog (list Z) :=
  say "bigfile test" ;~
  unlink_ "bigfile" ;~
  fd <~ open_ "bigfile" CREATE_RDWR ;; fail_if (fd <? 0) (str "cannot create bigfile") ;~
  buf <~ bigfile_write fd 20 0 buf ;;
  close_ fd ;~
  fd <~ open_ "bigfile" 0 ;; fail_if (fd <? 0) (ln "cannot open bigfile") ;~
  tb <~ ITree.iter (bigfile_read fd) (0, 0, buf) ;;
  let '(total, buf) := (tb : Z * list Z) in
  close_ fd ;~
  fail_if (negb (total =? 20 * 600)) (ln "read bigfile wrong total") ;~
  unlink_ "bigfile" ;~
  say "bigfile test ok" ;~
  Ret buf.

Definition fourteen (buf : list Z) : prog (list Z) :=
  say "fourteen test" ;~
  r <~ mkdir_ "12345678901234" ;; fail_if (negb (r =? 0)) (ln "mkdir 12345678901234 failed") ;~
  r <~ mkdir_ "12345678901234/123456789012345" ;; fail_if (negb (r =? 0)) (ln "mkdir 12345678901234/123456789012345 failed") ;~
  fd <~ open_ "123456789012345/123456789012345/123456789012345" O_CREATE ;;
  fail_if (fd <? 0) (ln "create 123456789012345/123456789012345/123456789012345 failed") ;~
  close_ fd ;~
  fd <~ open_ "12345678901234/12345678901234/12345678901234" 0 ;;
  fail_if (fd <? 0) (ln "open 12345678901234/12345678901234/12345678901234 failed") ;~
  close_ fd ;~
  r <~ mkdir_ "12345678901234/12345678901234" ;; fail_if (r =? 0) (ln "mkdir 12345678901234/12345678901234 succeeded!") ;~
  r <~ mkdir_ "123456789012345/12345678901234" ;; fail_if (r =? 0) (ln "mkdir 12345678901234/123456789012345 succeeded!") ;~
  say "fourteen ok" ;~
  Ret buf.

Definition rmdot (buf : list Z) : prog (list Z) :=
  say "rmdot test" ;~
  r <~ mkdir_ "dots" ;; fail_if (negb (r =? 0)) (ln "mkdir dots failed") ;~
  r <~ chdir_ "dots" ;; fail_if (negb (r =? 0)) (ln "chdir dots failed") ;~
  r <~ unlink_ "." ;; fail_if (r =? 0) (ln "rm . worked!") ;~
  r <~ unlink_ ".." ;; fail_if (r =? 0) (ln "rm .. worked!") ;~
  r <~ chdir_ "/" ;; fail_if (negb (r =? 0)) (ln "chdir / failed") ;~
  r <~ unlink_ "dots/." ;; fail_if (r =? 0) (ln "unlink dots/. worked!") ;~
  r <~ unlink_ "dots/.." ;; fail_if (r =? 0) (ln "unlink dots/.. worked!") ;~
  r <~ unlink_ "dots" ;; fail_if (negb (r =? 0)) (ln "unlink dots failed!") ;~
  say "rmdot ok" ;~
  Ret buf.

Definition dirfile (buf : list Z) : prog (list Z) :=
  say "dir vs file" ;~
  fd <~ open_ "dirfile" O_CREATE ;; fail_if (fd <? 0) (ln "create dirfile failed") ;~
  close_ fd ;~
  r <~ chdir_ "dirfile" ;; fail_if (r =? 0) (ln "chdir dirfile succeeded!") ;~
  fd <~ open_ "dirfile/xx" 0 ;; fail_if (0 <=? fd) (ln "create dirfile/xx succeeded!") ;~
  fd <~ open_ "dirfile/xx" O_CREATE ;; fail_if (0 <=? fd) (ln "create dirfile/xx succeeded!") ;~
  r <~ mkdir_ "dirfile/xx" ;; fail_if (r =? 0) (ln "mkdir dirfile/xx succeeded!") ;~
  r <~ unlink_ "dirfile/xx" ;; fail_if (r =? 0) (ln "unlink dirfile/xx succeeded!") ;~
  r <~ link_ "README" "dirfile/xx" ;; fail_if (r =? 0) (ln "link to dirfile/xx succeeded!") ;~
  r <~ unlink_ "dirfile" ;; fail_if (negb (r =? 0)) (ln "unlink dirfile failed!") ;~
  fd <~ open_ "." O_RDWR ;; fail_if (0 <=? fd) (ln "open . for writing succeeded!") ;~
  fd <~ open_ "." 0 ;;
  r <~ write_ fd "x" ;; fail_if (0 <? r) (ln "write . succeeded!") ;~
  close_ fd ;~
  say "dir vs file OK" ;~
  Ret buf.

Definition iref_step : prog unit :=
  r <~ mkdir_ "irefd" ;; fail_if (negb (r =? 0)) (ln "mkdir irefd failed") ;~
  r <~ chdir_ "irefd" ;; fail_if (negb (r =? 0)) (ln "chdir irefd failed") ;~
  trigger (Mkdir []) ;~
  trigger (Link (str "README") []) ;~
  fd <~ trigger (Open [] O_CREATE) ;;
  (if 0 <=? fd then close_ fd ;~ Ret tt else Ret tt) ;~
  fd <~ open_ "xx" O_CREATE ;;
  (if 0 <=? fd then close_ fd ;~ Ret tt else Ret tt) ;~
  unlink_ "xx" ;~
  Ret tt.
Definition iref (buf : list Z) : prog (list Z) :=
  say "empty file name" ;~
  for_args (seqZ 0 (50 + 1)) (fun _ => iref_step) ;~
  chdir_ "/" ;~
  say "empty file name OK" ;~
  Ret buf.

(** [main] with ten of the tests that it calls, in its order. *)
Definition usertests_main : prog (list Z) :=
  say "usertests starting" ;~
  fd <~ open_ "usertests.ran" 0 ;; fail_if (0 <=? fd) (ln "already ran user tests -- rebuild fs.img") ;~
  fd <~ open_ "usertests.ran" O_CREATE ;; close_ fd ;~
  buf <~ opentest (replicate 8192 0) ;;
  buf <~ writetest buf ;;
  buf <~ iputtest buf ;;
  buf <~ rmdot buf ;;
  buf <~ fourteen buf ;;
  buf <~ bigfile buf ;;
  buf <~ subdir buf ;;
  buf <~ linktest buf ;;
  buf <~ unlinkread buf ;;
  dirfile buf.
