(* ===== verification/System.v ===== *)
(** * The whole system

    mkfs.c, memide.c, bio.c, log.c, fs.c, file.c and sysfile.c put together, and a
    user program on top: the program makes system calls, the kernel fetches their
    arguments from the memory of the process, and the file system on the image
    that mkfs built carries them out. *)

From ITree Require Import ITree.
From S2P Require Import Prelude Params Strings Ulib Disk Bio BioSpec Layout Log TxStore Kalloc Pipe Fs File Syscall Sysfile SysfileInv Kernel Mkfs User Tests.

Abbreviation store := (bcache Memide.state).
(** The console (major number 1) accepts what is written and has no input. *)
Definition con_read (major : Z) : option (nat -> Z -> M (fs (log store)) (Z * list Z)) := if major =? 1 then Some (fun _ _ => ret (0, [])) else None.
Definition con_write (major : Z) : option (nat -> list Z -> Z -> M (fs (log store)) Z) := if major =? 1 then Some (fun _ _ n => ret n) else None.
#[export] Instance system_api : FileApi (kern store) := kernel_api 0x80108000 con_read con_write false.
Abbreviation machine := (sys (kern store)).

(** What a computation returns and leaves, if it returns. *)
Definition result {S A} (o : outcome S A) : option (A * S) := match o with Ok a s => Some (a, s) | _ => None end.
(** The image that mkfs builds from [files]. *)
Definition sectors (h : host) : list block := map (fun i => h_img h (Z.of_nat i)) (seq 0 (Z.to_nat FSSIZE)).
Definition image (files : list argfile) : list block := from_option (fun r => sectors (snd r)) [] (result (mkfs_main files mkfs_start)).
(** The kernel before it is initialised: the disk, and memory that is all zero. *)
Definition cold (img : list block) : kern store :=
  mkkern (mkfs (mksb 0 0 0 0 0 0 0) false (replicate (Z.to_nat NINODE) inhabitant) []
    (mklog false 0 0 0 false 0 0 (replicate (Z.to_nat LOGSIZE) 0) 0
      (mkbc false (replicate (S nbuf) (mkbuf 0 0 0 0 0 None (replicate 512 0))) (Memide.ideinit img (FSSIZE * BSIZE)) [])))
    (mkkmem false true 0x80200000 (fun _ => 0)) ∅.
(** [binit], then [iinit] and [initlog] as the first process does, and its
    directory. *)
Definition start : M (kern store) (option nat) :=
  on_k_log (zoom bc set_bc Bio.binit) ;;;
  on_k_fs (iinit ROOTDEV) ;;;
  on_k_log (initlog ROOTDEV) ;;;
  on_k_fs (namei con_read 0 (str "/")).
(** The first process, in the root directory, with no open files. *)
Definition first_process (r : option nat * kern store) : option machine :=
  match fst r with Some root => Some (closed_table 1 [root] (mkup 0 0 0 (fun _ => 0)) (snd r)) | None => None end.
Definition booted (img : list block) : option machine := mbind first_process (result (start (cold img))).

(** ** System calls of the process *)

(** Where the process keeps the data of a call: a buffer, or one string or two. *)
Definition data1 : Z := 8192.
Definition data2 : Z := 20480.
(** The memory of the process at the trap: the arguments on the stack above the
    return address, and the data they point to. *)
Definition holds (p : Z) (bs : list Z) (m : mem) : mem :=
  let g : gmap Z Z := list_to_map (zip (seqZ p (Z.of_nat (length bs))) bs) in fun a => default (m a) (g !! a).
Definition frame (args bs1 bs2 : list Z) : uproc :=
  mkup 32768 4000 0 (holds 4004 (concat (map (le_bytes 4) args)) (holds data1 bs1 (holds data2 bs2 (fun _ => 0)))).
Definition call_ (m : M machine Z) (u : uproc) (s : machine) : option (Z * machine) :=
  result (m (set_user u s)).
(** [struct stat] as the program reads it. *)
Definition decode_stat (bs : list Z) : stat :=
  let f off n := le_value (take n (drop off bs)) in mkstat (i16 (f 0%nat 2%nat)) (i32 (f 4%nat 4%nat)) (f 8%nat 4%nat) (i16 (f 12%nat 2%nat)) (f 16%nat 4%nat).
Definition do_event {X} (e : sysE X) (s : machine) : option (X * machine) :=
  match e in sysE X return option (X * machine) with
  | Open path mode => call_ (sys_open 0) (frame [data1; mode] (path ++ [0]) []) s
  | Close fd => call_ (sys_close 0) (frame [fd] [] []) s
  | Write fd bs => call_ (sys_write 0) (frame [fd; data1; Z.of_nat (length bs)] bs []) s
  | Read fd n =>
      match call_ (sys_read 0) (frame [fd; data1; n] [] []) s with
      | Some (r, s') => Some ((r, bytes_at (u_mem (user s')) data1 (Z.to_nat r)), s')
      | None => None
      end
  | Mknod path major minor => call_ (sys_mknod 0) (frame [data1; major; minor] (path ++ [0]) []) s
  | Mkdir path => call_ (sys_mkdir 0) (frame [data1] (path ++ [0]) []) s
  | Chdir path => call_ (sys_chdir 0) (frame [data1] (path ++ [0]) []) s
  | Unlink path => call_ (sys_unlink 0) (frame [data1] (path ++ [0]) []) s
  | Link old new => call_ (sys_link 0) (frame [data1; data2] (old ++ [0]) (new ++ [0])) s
  | Fstat fd =>
      match call_ (sys_fstat 0) (frame [fd; data1] [] []) s with
      | Some (r, s') => Some ((r, decode_stat (bytes_at (u_mem (user s')) data1 20)), s')
      | None => None
      end
  | Dup fd => call_ (sys_dup 0) (frame [fd] [] []) s
  | _ => None
  end.
(** The bytes written to the console, by the standard output or the standard
    error. *)
Definition printed {X} (e : sysE X) : list Z := match e with Write fd bs => if (fd =? 1) || (fd =? 2) then bs else [] | _ => [] end.
Definition exits {X} (e : sysE X) : bool := match e with Exit => true | _ => false end.
(** A run: the result ([None] if the program exits), what was printed and the
    machine at the end; [None] if the kernel panics or sleeps, or a call is not
    among those above. *)
Fixpoint run {R} (fuel : nat) (t : prog R) (s : machine) : option (option R * list Z * machine) :=
  match fuel with
  | O => None
  | S fuel' =>
      match observe t with
      | RetF r => Some (Some r, [], s)
      | TauF t' => run fuel' t' s
      | VisF e k =>
          if exits e then Some (None, [], s)
          else match do_event e s with
          | None => None
          | Some (x, s') => match run fuel' (k x) s' with Some (r, out, s'') => Some (r, printed e ++ out, s'') | None => None end
          end
      end
  end.
(** Programs one after the other in the one process, each until it exits; its
    descriptors are not closed in between. *)
Fixpoint run_all (fuel : nat) (ts : list (prog void)) (s : machine) : option (list Z * machine) :=
  match ts with
  | [] => Some ([], s)
  | t :: ts' =>
      match run fuel t s with
      | Some (None, out, s') => match run_all fuel ts' s' with Some (out', s'') => Some (out ++ out', s'') | None => None end
      | _ => None
      end
  end.

(** [init] gives a process the console as its descriptors 0, 1 and 2. *)
Definition console : prog unit :=
  trigger (Mknod (str "console") 1 1) ;~
  trigger (Open (str "console") O_RDWR) ;~
  trigger (Dup 0) ;~
  trigger (Dup 0) ;~
  Ret tt.
Definition login (r : option unit * list Z * machine) : machine := snd r.
Definition ready (files : list argfile) : option machine := s ← booted (image files); login <$> run 100 console s.
(** The text of a run that ends normally. *)
Definition said {R} (r : option R * list Z * machine) : option (list Z) := match fst (fst r) with Some _ => Some (snd (fst r)) | None => None end.

(** ** Runs *)

Definition demo_files : list argfile := [(str "echo", Some [str "x"]); (str "README", Some [str "xv6 is a"; ln " system"])].

(** The system passes its own tests: on the image that mkfs builds, with the
    console open, the tests of usertests.c on the file system print nothing but
    their headings and successes, and the kernel neither panics nor sleeps. *)
Theorem usertests_pass :
  (s ← ready demo_files; r ← run 10000 usertests_main s; said r) = Some (concat (map ln
    ["usertests starting"; "open test"; "open test ok";
     "small file test"; "creat small succeeded; ok"; "writes ok"; "open small succeeded ok"; "read succeeded ok"; "small file test ok";
     "iput test"; "iput test ok"; "rmdot test"; "rmdot ok"; "fourteen test"; "fourteen ok"; "bigfile test"; "bigfile test ok";
     "subdir test"; "subdir ok"; "linktest"; "linktest ok"; "unlinkread test"; "unlinkread ok"; "dir vs file"; "dir vs file OK"]%string)).
Proof. vm_compute. reflexivity. Qed.

(** Commands on the system: directories and links are made, files are listed,
    counted, shown and removed, and a directory that is not empty is not. The
    size of the root is the whole block that mkfs rounds it to. *)
Theorem commands_run :
  (s ← ready demo_files; fst <$> run_all 10000
    [mkdir_main [str "mkdir"; str "d"]; ln_main [str "ln"; str "README"; str "d/r"]; cat_main [str "cat"; str "d/r"];
     wc_main [str "wc"; str "d/r"]; ls_main [str "ls"; str "d"]; rm_main [str "rm"; str "README"; str "d"]; ls_main [str "ls"; str "/"]] s)
  = Some (concat (map ln
    ["xv6 is a system"; "1 4 16 d/r"; ".              1 5 48"; "..             1 1 512"; "r              2 3 16"; "rm: d failed to delete";
     ".              1 1 512"; "..             1 1 512"; "echo           2 2 1"; "console        3 4 0"; "d              1 5 48"]%string)).
Proof. vm_compute. reflexivity. Qed.
